(* ===== verification/_CoqProject ===== *)
-Q . S2P
Prelude.v
PyBytes.v
TlPrimitives.v
AccessHash.v
TlObject.v
TlRoundtrip.v
Sequences.v
Cache.v
Session.v
AuthKeys.v
Keygen.v
Broker.v
SessionManager.v
ClientSend.v
Gateway.v
Rights.v
Stars.v
StarsHistory.v
GroupCalls.v
Privacy.v
Peers.v
Phone.v
Upload.v
Password.v
AuthRateLimit.v
Login.v
Secret.v
Worker.v
Utf16.v
FormatText.v
Base64.v
Members.v
Invites.v
Groups.v
Membership.v
MembershipChannels.v
MembershipSafety.v
Messages.v
History.v
HistoryFacts.v
MessagesSpec.v
MessagesSafety.v
Conversations.v
MessagesExamples.v
