(* ===== verification/Prelude.v ===== *)
(** * A verification development of piltover

    Piltover is a Telegram server in Python. A client connects to the gateway ([piltover/gateway/]), makes an authorization key, and sends encrypted
    requests; the gateway answers some itself and sends the others through a task queue to workers ([piltover/worker.py]), where the handlers of
    [piltover/app/handlers/] run against the database models of [piltover/db/models/]. Sessions ([piltover/session/]) hold what is to be sent to a client,
    and a message broker ([piltover/message_brokers/]) brings them what other workers publish. Everything that crosses a wire is a TL object
    ([piltover/tl/], partly generated by [tools/tl_gen.py]).

    ** How the model is written

    Python functions are Rocq functions that compute: a function that may raise returns [result A] ([Ok] or [Raise] of an [exn], this file), one that reads a
    stream a [parser], one that changes rows or objects an [M S A], a state monad that keeps the state when an exception is raised, as Python does; the code's
    [in_transaction] blocks are written with a combinator that rolls back. Tables are finite maps from primary keys to records; shared objects (sessions,
    clients) are references into a heap that several components see. Integers are [Z], with the wrap-around or the range check of the code written out
    where [struct], [to_bytes] or a database column has one. Where a coroutine waits, the step ends: what happens between two steps is either another
    step of the same relation or an arbitrary change allowed by a stated invariant.

    What is not under [src/] is a parameter with what the code relies on as hypotheses: cryptographic primitives ([Keygen.Crypto], HMAC, AES, [powmod]),
    [gzip], the cache of [aiocache] and [lru], the schema that [tl_gen] reads, the clock and random values, [libmagic], the media server. Each property with such a
    hypothesis has a witness at a concrete function.

    ** The files, from the wire up

    - [PyBytes], [TlPrimitives]: bytes and strings of Python; the base types of [piltover/tl/primitives/]. Reading inverts writing, for every length and every 64-bit value.
    - [TlObject], [TlRoundtrip], [Cache]: the bodies that [tools/tl_gen.py] emits, [tl_object.py], [core_types.py], [serialization_utils.py], [piltover/cache.py]. The round trip of
      objects holds for every well-formed schema; values it does not hold for are findings.
    - [AccessHash]: access hashes, placeholders and file references ([piltover/tl/placeholders/], the models that make hashes).
    - [Sequences]: snowflake ids, virtual lists, the allocation of pts.
    - [Session], [AuthKeys], [SessionManager], [Broker]: [piltover/session/], [piltover/db/models/authkey.py], [piltover/message_brokers/base_broker.py]. Message ids grow, completed requests are
      remembered, sessions agree with the broker's subscription tables, and a published message reaches exactly the sessions the specification of the tables names.
    - [Keygen]: the key exchange ([_keygen_handlers.py], [rsa_utils.py], [gen_primes.py]). An honest client ends with the server's key; no answer of a client makes the handlers skip a step.
    - [ClientSend], [Gateway]: [piltover/gateway/client.py] and [_system_handlers.py]. What is queued is sent once, in order; an unregistered or half logged in key reaches only what it may.
    - [Worker]: [piltover/worker.py], [piltover/context.py]. It implements the task runner that [Gateway] is a client of; [Worker.pending_login_confined] composes the two.
    - [Password], [AuthRateLimit], [Login]: SRP, the limits on guesses and the handlers of [piltover/app/handlers/auth.py], composed with the session manager's view of authorizations.
    - [Peers], [Privacy], [Rights]: [piltover/db/models/peer.py], [privacy_rule.py], [chat_base.py] and the participants.
    - [Secret], [GroupCalls], [Upload], [Stars], [StarsHistory]: secret chats, group calls, files, the Stars wallet.
    - [Utf16], [FormatText]: text in UTF-16 code units and the templates of [formatable_text_with_entities.py].
    - [Phone]: phone calls ([piltover/app/handlers/phone.py], [piltover/db/models/phone_call.py]), with confirmations in their two halves, since they read before they lock.
    - [Base64], [Members], [Invites], [Groups]: channels, basic groups, their members, invite links and requests to join ([piltover/app/handlers/channels.py],
      [messages/invites.py], [messages/chats.py]). They share one state, and call [Peers] and [Privacy] on their part of it.
    - [Membership], [MembershipChannels], [MembershipSafety]: an invariant of channels and groups, the reasons a member's row may change for, and that every handler of the
      three files keeps the one and has the other. A handler is a sequence of readings, which leave the tables alone, one change that is justified, and calm steps after it; the
      lemmas [good_read], [good_then] and [calm_bind] compose them.
    - [Messages], [History]: messages in private chats, basic groups and channels ([messages/sending.py], [messages/history.py], [message_ref.py],
      [message_content.py], [read_state.py]): a message is one content and a copy of it for each peer that holds it. Sending a text, editing and pinning; reading, searching,
      read marks and deleting. Their state has that of [Members] inside, so that rights and membership are read where the handlers read them.
    - [HistoryFacts], [Conversations]: sorted ids and windows of them, what a page of history holds, unread counts, and that a message is written once.
    - [MessagesSpec], [MessagesSafety], [MessagesExamples]: an abstract machine whose steps are the changes messages may undergo, each with who may make it and why; its invariant;
      that every request refines it; concrete conversations.

    ** The theorems

    - Wire formats: [TlRoundtrip.object_roundtrip], [Peers.peer_roundtrip], [Upload.upload_roundtrip], [FormatText.template_format].
    - What a client cannot do: [Worker.rpc_gate], [Worker.pending_login_confined], [Gateway.unregistered_key], [Keygen.keygen_safety], [Login.login_justified], [Peers.peer_access],
      [Secret.secret_chat_safety], [Rights.chat_rights_policy], and the limits of [AuthRateLimit.sign_in_limits].
    - What is delivered: [ClientSend.outbound_delivery], [Secret.secret_delivery], [Broker.broker_contract], [Gateway.request_completed].
    - Invariants of the tables and the shared objects, preserved by every operation: [SessionManager.refresh_auth_agrees], [Password.password_invariant], [Login.login_tables],
      [Stars.stars_ledger_invariant], [GroupCalls.group_call_invariant], [Privacy.privacy_cache_coherent], [Peers.peers_well_typed].
    - Equivalence with a plainer definition: [Privacy.privacy_bulk_equiv], [Secret.secret_queue].
    - Calls and members: [Phone.call_safety], [Phone.call_established], [MembershipSafety.membership_justified], [MembershipSafety.channels_keep_creator],
      [Invites.link_leads_to_invite].
    - Messages: [MessagesSafety.messages_refine], [MessagesSafety.message_safety], [MessagesSafety.messages_in_order], [Conversations.sent_once], [Conversations.history_page],
      [Conversations.unread_alike].

    ** Bounds and fuel

    Loops of the code that are not structural take fuel, and where they do a lemma says which amount is enough: the readers of TL objects the number of bytes
    left, the parser and the formatter of templates one more than the length of the text, the pages of the Stars history the number of rows. [OutOfFuel] is an
    exception of its own, so that no theorem about an [Ok] result can hold for lack of fuel. Loops that try random values until one fits
    (primes, unique identifiers) take the values as a list, and the theorems say what holds when the list suffices.

    ** Not modelled

    - The wire below packets: TCP, WebSocket and HTTP transports, encryption and packet framing are in the package [mtproto] and the web server.
    - Redis, RabbitMQ and the result backend: the brokers other than the one in memory only call their clients.
    - The updates manager, dialogs, stickers, bots and their dialogues: mostly database queries and the updates they emit. Their checks of
      rights and peers are those of [Rights] and [Peers]; what the modelled handlers send and log is a list of events in the state.
    - Of messages: media other than in edits, forwarding, drafts, scheduled delivery, mentions, reactions, views, topics and replies in threads, and the conversion to TL objects.
      The last message of a channel that [Members] reads ([m_last_message]) is any table, not tied to the copies of [Messages].
    - Of channels and groups: usernames, photos, colours, linking of discussions, listings and forum topics. [Membership] speaks of the requests of [MembershipSafety]; that
      deleting the history of a basic group takes its own reader out of it is [History.delete_history].
    - Migrations, the system data, configuration, admin tools, debugging and tracing: no logic of the protocol.
    - The converters between layers are generated from the schema; only the emission of the current layer is modelled.

    ** This file

    Python exceptions as values, the result, reader and state-and-exception monads with their notations, the automation of the
    development and the generic lemmas on options, lists and integers. *)
From stdpp Require Export base gmap sets list strings fin_maps.
From Stdlib Require Export ZArith Lia.
From Stdlib Require Import Init.Byte Strings.Byte.

#[export] Set Default Proof Using "Type".
Open Scope Z_scope.

Abbreviation byte := Init.Byte.byte.
Abbreviation bytes := (list Init.Byte.byte).

(** ** Python exceptions, as far as the modelled code raises or catches them *)
Inductive exn :=
  | StructError
  | OverflowError
  | IndexError
  | KeyError
  | ValueError
  | TypeError
  | UnicodeError
  | ZeroDivisionError
  | AssertionError
  | AttributeError
  | RuntimeError
  | NotImplementedError
  | StopIteration
  | DoesNotExist
  | MultipleObjectsReturned
  | ValidationError
  | NameError
  | FileNotFoundError
  | Unreachable
  | InvalidConstructor (constructor : Z) (leftover : bytes)
  | UnknownConstructor (constructor : Z) (leftover : bytes)
  | Disconnection (transport_error : option Z)
  | ErrorRpc (error_code : Z) (error_message : string)
  | OutOfFuel.

(** [OutOfFuel] is no Python exception: it is what a definition returns whose
    recursion bound was too small, and every theorem about such a definition
    either rules it out or fixes a bound that is enough. *)

Inductive result (A : Type) :=
  | Ok (a : A)
  | Raise (e : exn).
Arguments Ok {A} a.
Arguments Raise {A} e.

#[export] Instance result_ret : MRet result := fun A a => Ok a.
#[export] Instance result_bind : MBind result := fun A B f m =>
  match m with Ok a => f a | Raise e => Raise e end.
#[export] Instance result_fmap : FMap result := fun A B f m =>
  match m with Ok a => Ok (f a) | Raise e => Raise e end.

Definition is_ok {A} (r : result A) : bool :=
  match r with Ok _ => true | Raise _ => false end.

(** [raise_if c e] is the guard [if c: raise e]. *)
Definition raise_if (c : bool) (e : exn) : result unit :=
  if c then Raise e else Ok tt.

(** ** Readers: a [BytesIO] that is only read forwards is the list of the
    bytes that are left *)
Definition reader (A : Type) : Type := bytes -> result (A * bytes).

#[export] Instance reader_ret : MRet reader := fun A a s => Ok (a, s).
#[export] Instance reader_bind : MBind reader := fun A B f m s =>
  match m s with Ok (a, s') => f a s' | Raise e => Raise e end.

Definition reader_lift {A} (r : result A) : reader A := fun s =>
  match r with Ok a => Ok (a, s) | Raise e => Raise e end.

(** ** State and exceptions: the state survives a raised exception, as the
    attributes and rows that a handler wrote before raising do *)
Definition M (S A : Type) : Type := S -> result A * S.

#[export] Instance M_ret S : MRet (M S) := fun A a s => (Ok a, s).
#[export] Instance M_bind S : MBind (M S) := fun A B f m s =>
  match m s with (Ok a, s') => f a s' | (Raise e, s') => (Raise e, s') end.

Definition get {S} : M S S := fun s => (Ok s, s).
Definition put {S} (s : S) : M S unit := fun _ => (Ok tt, s).
Definition gets {S A} (f : S -> A) : M S A := fun s => (Ok (f s), s).
Definition modify {S} (f : S -> S) : M S unit := fun s => (Ok tt, f s).
Definition raise {S A} (e : exn) : M S A := fun s => (Raise e, s).
Definition lift_result {S A} (r : result A) : M S A := fun s => (r, s).
Definition ensure {S} (c : bool) (e : exn) : M S unit :=
  if c then mret tt else raise e.

(** [async with in_transaction()]: an exception undoes what the block wrote. *)
Definition transaction {S A} (m : M S A) : M S A := fun s =>
  match m s with (Ok a, s') => (Ok a, s') | (Raise e, _) => (Raise e, s) end.

(** [try: ... except Exception], with the outcome as a value *)
Definition attempt {S A} (m : M S A) : M S (result A) := fun s => match m s with (r, s') => (Ok r, s') end.

(** [try: m finally: cleanup] *)
Definition finally {S A} (m : M S A) (cleanup : M S unit) : M S A := fun s =>
  match m s with
  | (r, s') => match cleanup s' with (Ok _, s'') => (r, s'') | (Raise e, s'') => (Raise e, s'') end
  end.

(** [Disconnection(404)], whose [__init__] makes the code negative *)
Definition Disconnect404 : exn := Disconnection (Some (-404)).

Definition ErrorRpc400 (message : string) : exn := ErrorRpc 400 message.

(** ** Automation *)
Create HintDb py.

Ltac invc H := inversion H; subst; clear H.

(** Case analysis on every boolean test, match and [decide] of the goal. *)
Ltac split_cases :=
  repeat first [ case_match | case_decide | progress simplify_eq/= ].

(** Unfolds the binds of the three monads. *)
Ltac unfold_monads :=
  unfold mbind, mret, fmap, result_bind, result_ret, result_fmap,
    reader_bind, reader_ret, reader_lift, M_bind, M_ret,
    get, put, gets, modify, raise, lift_result, ensure, raise_if in *.

(** Takes apart a hypothesis that a computation in one of the monads
    returned a value. *)
Ltac inv_ok H :=
  unfold_monads;
  repeat match type of H with
  | (match ?m with _ => _ end) = _ =>
      let E := fresh "E" in destruct m eqn:E; try discriminate H
  | (if ?b then _ else _) = _ =>
      let E := fresh "E" in destruct b eqn:E; try discriminate H
  end; simplify_eq/=.

(** Case analysis on the test a run depends on *)
Ltac if_in_as E H := match type of E with (if ?b then _ else _) = _ => destruct b eqn:H end.
Ltac if_in E := let H := fresh "Hb" in if_in_as E H.

(** Boolean comparisons to propositions. *)
Ltac b2p :=
  repeat match goal with
  | H : (_ <? _)%Z = true |- _ => apply Z.ltb_lt in H
  | H : (_ <? _)%Z = false |- _ => apply Z.ltb_ge in H
  | H : (_ <=? _)%Z = true |- _ => apply Z.leb_le in H
  | H : (_ <=? _)%Z = false |- _ => apply Z.leb_gt in H
  | H : (_ =? _)%Z = true |- _ => apply Z.eqb_eq in H
  | H : (_ =? _)%Z = false |- _ => apply Z.eqb_neq in H
  | H : (_ <? _)%nat = true |- _ => apply Nat.ltb_lt in H
  | H : (_ <? _)%nat = false |- _ => apply Nat.ltb_ge in H
  | H : (_ <=? _)%nat = true |- _ => apply Nat.leb_le in H
  | H : (_ <=? _)%nat = false |- _ => apply Nat.leb_gt in H
  | H : (_ =? _)%nat = true |- _ => apply Nat.eqb_eq in H
  | H : (_ =? _)%nat = false |- _ => apply Nat.eqb_neq in H
  | H : andb _ _ = true |- _ => apply andb_prop in H as [? ?]
  | H : orb _ _ = false |- _ => apply orb_false_elim in H as [? ?]
  | H : negb _ = true |- _ => apply negb_true_iff in H
  | H : negb _ = false |- _ => apply negb_false_iff in H
  | H : bool_decide _ = true |- _ => apply bool_decide_eq_true in H
  | H : bool_decide _ = false |- _ => apply bool_decide_eq_false in H
  end.

(** ** Generic lemmas *)
Lemma result_bind_ok {A B} (m : result A) (f : A -> result B) b :
  mbind f m = Ok b <-> exists a, m = Ok a /\ f a = Ok b.
Proof.
  destruct m; unfold_monads; split.
  - eauto.
  - by intros (? & [= <-] & ?).
  - done.
  - by intros (? & [=] & _).
Qed.

Lemma Ok_inj {A} (a b : A) : Ok a = Ok b -> a = b.
Proof. congruence. Qed.

Lemma reader_bind_ok {A B} (m : reader A) (f : A -> reader B) s b s'' :
  mbind f m s = Ok (b, s'') <->
  exists a s', m s = Ok (a, s') /\ f a s' = Ok (b, s'').
Proof.
  unfold_monads. destruct (m s) as [[a s']|e]; split.
  - eauto.
  - by intros (? & ? & [= <- <-] & ?).
  - done.
  - by intros (? & ? & [=] & _).
Qed.

Lemma reader_bind_step {A B} (m : reader A) (f : A -> reader B) s a s' :
  m s = Ok (a, s') -> mbind f m s = f a s'.
Proof. intros H. unfold mbind, reader_bind. by rewrite H. Qed.

Lemma reader_bind_raise {A B} (m : reader A) (f : A -> reader B) s e :
  m s = Raise e -> mbind f m s = Raise e.
Proof. intros H. unfold mbind, reader_bind. by rewrite H. Qed.

Lemma M_bind_step {S A B} (m : M S A) (f : A -> M S B) s a s' :
  m s = (Ok a, s') -> mbind f m s = f a s'.
Proof. intros H. unfold mbind, M_bind. by rewrite H. Qed.

Lemma M_bind_raise {S A B} (m : M S A) (f : A -> M S B) s e s' :
  m s = (Raise e, s') -> mbind f m s = (Raise e, s').
Proof. intros H. unfold mbind, M_bind. by rewrite H. Qed.

Lemma M_bind_ok {S A B} (m : M S A) (f : A -> M S B) s b s'' :
  mbind f m s = (Ok b, s'') <->
  exists a s', m s = (Ok a, s') /\ f a s' = (Ok b, s'').
Proof.
  unfold mbind, M_bind. destruct (m s) as [[a|e] s']; split.
  - eauto.
  - by intros (? & ? & [= <- <-] & ?).
  - done.
  - by intros (? & ? & [=] & _).
Qed.

(** A run of a sequence: the first part raised, or the second ran from where it ended. *)
Lemma M_bind_cases {S A B} (m : M S A) (f : A -> M S B) s r s' : (m ≫= f) s = (r, s') ->
  (exists e, m s = (Raise e, s') /\ r = Raise e) \/ (exists a s1, m s = (Ok a, s1) /\ f a s1 = (r, s')).
Proof.
  unfold mbind, M_bind. destruct (m s) as [[a|e] s1].
  - intros E. right. eauto.
  - intros [= <- <-]. left. eauto.
Qed.

Lemma lift_step {S A B} (a : A) (f : A -> M S B) s : (lift_result (Ok a) ≫= f) s = f a s.
Proof. done. Qed.

Lemma ensure_bind {S B} c e (f : unit -> M S B) s : (ensure c e ≫= f) s = if c then f tt s else (Raise e, s).
Proof. by destruct c. Qed.
Lemma get_bind {S B} (f : S -> M S B) s : (get ≫= f) s = f s s.
Proof. done. Qed.

Lemma transaction_raise {S A} (m : M S A) s e s' :
  transaction m s = (Raise e, s') -> s' = s.
Proof. unfold transaction. destruct (m s) as [[]]; naive_solver. Qed.

Lemma transaction_ok {S A} (m : M S A) s a s' :
  transaction m s = (Ok a, s') <-> m s = (Ok a, s').
Proof. unfold transaction. destruct (m s) as [[]]; naive_solver. Qed.

(** What a computation preserves whether it returns or raises. *)
Definition preserves {S A} (P : S -> Prop) (m : M S A) : Prop := forall s, P s -> P (m s).2.

Section Preserves.
Context {S : Type} (P : S -> Prop).
Lemma preserves_ret {A} (a : A) : preserves P (mret a).
Proof. by intros s H. Qed.
Lemma preserves_raise {A} e : preserves P (raise (A := A) e).
Proof. by intros s H. Qed.
Lemma preserves_lift {A} (r : result A) : preserves P (lift_result r).
Proof. by intros s H. Qed.
Lemma preserves_gets {A} (f : S -> A) : preserves P (gets f).
Proof. by intros s H. Qed.
Lemma preserves_ensure c e : preserves P (ensure c e).
Proof. intros s H. by destruct c. Qed.
Lemma preserves_modify f : (forall s, P s -> P (f s)) -> preserves P (modify f).
Proof. intros Hf s H. by apply Hf. Qed.
Lemma preserves_bind {A B} (m : M S A) (f : A -> M S B) :
  preserves P m -> (forall a, preserves P (f a)) -> preserves P (m ≫= f).
Proof.
  intros Hm Hf s H. specialize (Hm s H). unfold mbind, M_bind. destruct (m s) as [[a|e] s']; [|done].
  by apply Hf.
Qed.
Lemma preserves_attempt {A} (m : M S A) : preserves P m -> preserves P (attempt m).
Proof. intros Hm s H. specialize (Hm s H). unfold attempt. by destruct (m s). Qed.
Lemma preserves_finally {A} (m : M S A) c : preserves P m -> preserves P c -> preserves P (finally m c).
Proof.
  intros Hm Hc s H. specialize (Hm s H). unfold finally. destruct (m s) as [r s1].
  specialize (Hc s1 Hm). by destruct (c s1) as [[] s2].
Qed.
Lemma preserves_transaction {A} (m : M S A) : preserves P m -> preserves P (transaction m).
Proof. intros Hm s H. specialize (Hm s H). unfold transaction. by destruct (m s) as [[]]. Qed.
End Preserves.

Lemma take_app_exact {A} (l k : list A) n : n = length l -> take n (l ++ k) = l.
Proof. intros ->. by rewrite take_app_length. Qed.

Lemma drop_app_exact {A} (l k : list A) n : n = length l -> drop n (l ++ k) = k.
Proof. intros ->. by rewrite drop_app_length. Qed.

Lemma Z_mod_add_range z m : 0 < m -> -m <= z < 0 -> z mod m = z + m.
Proof.
  intros Hm Hz. rewrite <- (Z_mod_plus_full z 1 m), Z.mul_1_l.
  apply Z.mod_small. lia.
Qed.

(** ** Strings that do not contain a separator *)
Fixpoint free_of (c : Ascii.ascii) (s : string) : Prop :=
  match s with EmptyString => True | String c' s => c' <> c /\ free_of c s end.

Lemma free_split c a b x y : free_of c a -> free_of c b -> a +:+ String c x = b +:+ String c y -> a = b /\ x = y.
Proof.
  revert b. induction a as [|c1 a IH]; intros [|c2 b] Ha Hb; cbn; intros H; injection H.
  - intros Hxy. by split.
  - intros _ <-. by destruct Hb.
  - intros _ ->. by destruct Ha.
  - intros H' ->. destruct Ha as [_ Ha], Hb as [_ Hb]. by destruct (IH b Ha Hb H') as [-> ->].
Qed.
Lemma free_app c a x : ~ free_of c (a +:+ String c x).
Proof. induction a as [|c' a IH]; cbn; [by intros []|]. by intros [_ H]. Qed.
