(* ===== verification/PyBytes.v ===== *)
(** The part of Python's standard library that the byte-level components use:
    bytes as integers, [int.to_bytes]/[int.from_bytes], the strict UTF-8 codec
    and UTF-16 lengths on strings of code points, and reads from [BytesIO]. *)
From Stdlib Require Import Init.Byte Strings.Byte.
From S2P Require Import Prelude.

(** ** Bytes and integers *)
Definition byte_val (b : byte) : Z := Z.of_N (Byte.to_N b).

Definition byte_of (z : Z) : byte :=
  match Byte.of_N (Z.to_N (z mod 256)) with Some b => b | None => x00 end.

#[export] Instance byte_eq_dec : EqDecision byte := Byte.byte_eq_dec.

Fixpoint le_bytes (n : nat) (z : Z) : bytes :=
  match n with
  | O => []
  | S n => byte_of z :: le_bytes n (z / 256)
  end.

Fixpoint le_val (bs : bytes) : Z :=
  match bs with
  | [] => 0
  | b :: bs => byte_val b + 256 * le_val bs
  end.

Definition be_bytes (n : nat) (z : Z) : bytes := rev (le_bytes n z).
Definition be_val (bs : bytes) : Z := le_val (rev bs).

(** The values an [n]-byte integer can hold. *)
Definition fits (n : nat) (signed : bool) (z : Z) : bool :=
  if signed
  then (- 2 ^ (8 * Z.of_nat n - 1) <=? z) && (z <? 2 ^ (8 * Z.of_nat n - 1))
  else (0 <=? z) && (z <? 2 ^ (8 * Z.of_nat n)).

(** [z.to_bytes(n, "little", signed=signed)] *)
Definition to_bytes_le (n : nat) (signed : bool) (z : Z) : result bytes :=
  if fits n signed z then Ok (le_bytes n z) else Raise OverflowError.

(** [z.to_bytes(n, "big", signed=signed)] *)
Definition to_bytes_be (n : nat) (signed : bool) (z : Z) : result bytes :=
  @rev byte <$> to_bytes_le n signed z.

Definition sign_extend (n : nat) (u : Z) : Z :=
  if (0 <? n)%nat && (2 ^ (8 * Z.of_nat n - 1) <=? u)
  then u - 2 ^ (8 * Z.of_nat n) else u.

(** [int.from_bytes(bs, "little", signed=signed)] *)
Definition from_bytes_le (signed : bool) (bs : bytes) : Z :=
  if signed then sign_extend (length bs) (le_val bs) else le_val bs.

(** [int.from_bytes(bs, "big")] *)
Definition from_bytes_be (bs : bytes) : Z := be_val bs.

Definition zero_bytes (n : nat) : bytes := replicate n x00.

Lemma byte_val_range b : 0 <= byte_val b < 256.
Proof.
  unfold byte_val. pose proof (Byte.to_N_bounded b). lia.
Qed.

Lemma byte_val_of z : byte_val (byte_of z) = z mod 256.
Proof.
  unfold byte_of, byte_val. pose proof (Z.mod_pos_bound z 256 ltac:(lia)).
  destruct (Byte.of_N _) as [b|] eqn:E.
  - apply Byte.to_of_N in E. lia.
  - apply Byte.of_N_None_iff in E. lia.
Qed.

Lemma byte_val_of_small z : 0 <= z < 256 -> byte_val (byte_of z) = z.
Proof. intros. by rewrite byte_val_of, Z.mod_small. Qed.

Lemma byte_of_val b : byte_of (byte_val b) = b.
Proof.
  unfold byte_of. rewrite Z.mod_small by apply byte_val_range.
  unfold byte_val. by rewrite N2Z.id, Byte.of_to_N.
Qed.

Lemma byte_val_inj b c : byte_val b = byte_val c -> b = c.
Proof. intros H. by rewrite <- (byte_of_val b), H, byte_of_val. Qed.

Lemma length_le_bytes n z : length (le_bytes n z) = n.
Proof. revert z. induction n; intros; simpl; auto. Qed.

Lemma length_be_bytes n z : length (be_bytes n z) = n.
Proof. unfold be_bytes. by rewrite length_rev, length_le_bytes. Qed.

Lemma pow256_succ n : 2 ^ (8 * Z.of_nat (S n)) = 256 * 2 ^ (8 * Z.of_nat n).
Proof.
  replace (8 * Z.of_nat (S n)) with (8 + 8 * Z.of_nat n) by lia.
  rewrite Z.pow_add_r by lia. reflexivity.
Qed.

Lemma pow256_half n : (0 < n)%nat ->
  2 ^ (8 * Z.of_nat n) = 2 * 2 ^ (8 * Z.of_nat n - 1).
Proof.
  intros. replace (8 * Z.of_nat n) with (1 + (8 * Z.of_nat n - 1)) at 1 by lia.
  rewrite Z.pow_add_r by lia. reflexivity.
Qed.

Lemma pow256_pos n : 0 < 2 ^ (8 * Z.of_nat n).
Proof. apply Z.pow_pos_nonneg; lia. Qed.

Lemma le_val_range bs : 0 <= le_val bs < 2 ^ (8 * Z.of_nat (length bs)).
Proof.
  induction bs as [|b bs IH]; simpl le_val; [simpl; lia|].
  cbn [length]. rewrite pow256_succ. pose proof (byte_val_range b). lia.
Qed.

Lemma le_val_bytes n z : le_val (le_bytes n z) = z mod 2 ^ (8 * Z.of_nat n).
Proof.
  revert z. induction n as [|n IH]; intros z.
  - simpl. by rewrite Z.mod_1_r.
  - cbn [le_bytes le_val]. rewrite IH, byte_val_of, pow256_succ.
    pose proof (pow256_pos n).
    rewrite (Z.rem_mul_r z 256) by lia. reflexivity.
Qed.

Lemma le_bytes_val bs : le_bytes (length bs) (le_val bs) = bs.
Proof.
  induction bs as [|b bs IH]; [done|]. cbn [length le_val le_bytes].
  pose proof (byte_val_range b).
  replace ((byte_val b + 256 * le_val bs) / 256) with (le_val bs)
    by (rewrite (Z.add_comm (byte_val b)), Z.mul_comm, Z.div_add_l,
          (Z.div_small (byte_val b)) by lia; lia).
  rewrite IH. f_equal. apply byte_val_inj.
  rewrite byte_val_of, (Z.add_comm (byte_val b)), Z.mul_comm.
  rewrite Z.add_comm, Z_mod_plus_full. apply Z.mod_small. lia.
Qed.

Lemma le_val_inj bs cs :
  length bs = length cs -> le_val bs = le_val cs -> bs = cs.
Proof.
  intros Hl Hv. by rewrite <- (le_bytes_val bs), <- (le_bytes_val cs), Hl, Hv.
Qed.

Lemma le_bytes_mod n z : le_bytes n (z mod 2 ^ (8 * Z.of_nat n)) = le_bytes n z.
Proof.
  apply le_val_inj; [by rewrite !length_le_bytes|].
  rewrite !le_val_bytes. apply Z.mod_mod. pose proof (pow256_pos n). lia.
Qed.

Lemma to_bytes_le_ok n signed z bs :
  to_bytes_le n signed z = Ok bs <-> fits n signed z = true /\ bs = le_bytes n z.
Proof.
  unfold to_bytes_le. destruct (fits n signed z); split;
    solve [by intros [= <-] | by intros [? ->] | done].
Qed.

Lemma to_bytes_le_length n signed z bs :
  to_bytes_le n signed z = Ok bs -> length bs = n.
Proof. intros [_ ->]%to_bytes_le_ok. apply length_le_bytes. Qed.

(** Decoding what was encoded gives the integer back, signed or not. *)
Lemma from_to_bytes_le n signed z bs : (0 < n)%nat ->
  to_bytes_le n signed z = Ok bs -> from_bytes_le signed bs = z.
Proof.
  intros Hn Ht. apply to_bytes_le_ok in Ht as [Hf ->].
  unfold from_bytes_le, sign_extend.
  rewrite le_val_bytes, length_le_bytes. unfold fits in Hf.
  pose proof (pow256_half n Hn). pose proof (pow256_pos n).
  destruct signed; b2p.
  - destruct (Z_lt_le_dec z 0).
    + rewrite Z_mod_add_range by lia.
      destruct (_ && _) eqn:E; b2p; [lia|].
      exfalso. apply andb_false_iff in E as [E|E]; b2p; lia.
    + rewrite Z.mod_small by lia.
      destruct (_ && _) eqn:E; b2p; lia.
  - apply Z.mod_small. lia.
Qed.

(** Every byte string is the encoding of what it decodes to. *)
Lemma to_from_bytes_le signed bs : (0 < length bs)%nat ->
  to_bytes_le (length bs) signed (from_bytes_le signed bs) = Ok bs.
Proof.
  intros Hn. pose proof (le_val_range bs). pose proof (pow256_half _ Hn).
  apply to_bytes_le_ok. unfold from_bytes_le, sign_extend, fits.
  destruct signed; [|split; [apply andb_true_intro; split;
    [apply Z.leb_le|apply Z.ltb_lt]; lia | by rewrite le_bytes_val]].
  rewrite (proj2 (Nat.ltb_lt _ _) Hn), andb_true_l.
  destruct (2 ^ (8 * _ - 1) <=? le_val bs) eqn:E; b2p; split.
  - apply andb_true_intro; split; [apply Z.leb_le|apply Z.ltb_lt]; lia.
  - rewrite <- le_bytes_mod.
    replace (_ mod _) with (le_val bs); [by rewrite le_bytes_val|].
    rewrite Z_mod_add_range by lia. lia.
  - apply andb_true_intro; split; [apply Z.leb_le|apply Z.ltb_lt]; lia.
  - by rewrite le_bytes_val.
Qed.

Lemma be_val_bytes n z : be_val (be_bytes n z) = z mod 2 ^ (8 * Z.of_nat n).
Proof. unfold be_val, be_bytes. by rewrite rev_involutive, le_val_bytes. Qed.

Lemma be_val_range bs : 0 <= be_val bs < 2 ^ (8 * Z.of_nat (length bs)).
Proof. unfold be_val. rewrite <- length_rev. apply le_val_range. Qed.

(** ** Reading from a [BytesIO] *)

(** [stream.read(n)]: at most [n] bytes, fewer at the end, and everything that
    is left when [n] is negative. *)
Definition bio_read (n : Z) : reader bytes := fun s =>
  if n <? 0 then Ok (s, [])
  else Ok (take (Z.to_nat n) s, drop (Z.to_nat n) s).

(** [stream.read()] *)
Definition bio_read_all : reader bytes := fun s => Ok (s, []).

Lemma bio_read_app n bs rest : n = Z.of_nat (length bs) ->
  bio_read n (bs ++ rest) = Ok (bs, rest).
Proof.
  intros ->. unfold bio_read. destruct (_ <? 0) eqn:E; b2p; [lia|].
  rewrite Nat2Z.id, take_app_length, drop_app_length. done.
Qed.

(** ** Strings of code points *)
Abbreviation pystr := (list Z).

(** The code points that the strict codecs accept: no surrogates. *)
Definition is_scalar (c : Z) : bool :=
  ((0 <=? c) && (c <? 0xD800)) || ((0xDFFF <? c) && (c <=? 0x10FFFF)).

Definition utf8_encode_char (c : Z) : result bytes :=
  if negb (is_scalar c) then Raise UnicodeError
  else if c <? 0x80 then Ok [byte_of c]
  else if c <? 0x800 then
    Ok [byte_of (0xC0 + c / 64); byte_of (0x80 + c mod 64)]
  else if c <? 0x10000 then
    Ok [byte_of (0xE0 + c / 4096); byte_of (0x80 + (c / 64) mod 64);
        byte_of (0x80 + c mod 64)]
  else
    Ok [byte_of (0xF0 + c / 262144); byte_of (0x80 + (c / 4096) mod 64);
        byte_of (0x80 + (c / 64) mod 64); byte_of (0x80 + c mod 64)].

(** [s.encode("utf8")] *)
Fixpoint utf8_encode (s : pystr) : result bytes :=
  match s with
  | [] => Ok []
  | c :: s =>
    match utf8_encode_char c, utf8_encode s with
    | Ok b, Ok bs => Ok (b ++ bs)
    | Raise e, _ => Raise e
    | _, Raise e => Raise e
    end
  end.

Definition is_cont (b : byte) : bool :=
  (0x80 <=? byte_val b) && (byte_val b <? 0xC0).
Definition cont_bits (b : byte) : Z := byte_val b - 0x80.

Definition push_char (c : Z) (r : result pystr) : result pystr := cons c <$> r.

(** [bs.decode("utf8")], strict: no overlong forms, surrogates or truncated
    sequences. *)
Fixpoint utf8_decode (bs : bytes) : result pystr :=
  match bs with
  | [] => Ok []
  | b0 :: r0 =>
    let z := byte_val b0 in
    if z <? 0x80 then push_char z (utf8_decode r0)
    else if z <? 0xC2 then Raise UnicodeError
    else match r0 with
    | [] => Raise UnicodeError
    | b1 :: r1 =>
      if negb (is_cont b1) then Raise UnicodeError
      else if z <? 0xE0 then
        push_char ((z - 0xC0) * 64 + cont_bits b1) (utf8_decode r1)
      else match r1 with
      | [] => Raise UnicodeError
      | b2 :: r2 =>
        if negb (is_cont b2) then Raise UnicodeError
        else if z <? 0xF0 then
          let c := (z - 0xE0) * 4096 + cont_bits b1 * 64 + cont_bits b2 in
          if (0x800 <=? c) && is_scalar c then push_char c (utf8_decode r2)
          else Raise UnicodeError
        else match r2 with
        | [] => Raise UnicodeError
        | b3 :: r3 =>
          let c := (z - 0xF0) * 262144 + cont_bits b1 * 4096
                   + cont_bits b2 * 64 + cont_bits b3 in
          if is_cont b3 && (0x10000 <=? c) && is_scalar c
          then push_char c (utf8_decode r3) else Raise UnicodeError
        end
      end
    end
  end.

(** The number of UTF-16 code units of a code point: [len(c.encode("utf-16le"))
    // 2]. *)
Definition utf16_units (c : Z) : Z := if c <? 0x10000 then 1 else 2.

Lemma utf16_units_bounds c : 1 <= utf16_units c <= 2.
Proof. unfold utf16_units. destruct (_ <? _); lia. Qed.

Lemma is_scalar_true c : is_scalar c = true ->
  0 <= c < 0xD800 \/ 0xDFFF < c <= 0x10FFFF.
Proof.
  unfold is_scalar. intros [H|H]%orb_prop; b2p; lia.
Qed.

Lemma utf8_encode_char_error c e :
  utf8_encode_char c = Raise e -> e = UnicodeError.
Proof. unfold utf8_encode_char. split_cases; naive_solver. Qed.

(** Replaces the bytes that the encoder wrote by their values. *)
Ltac byte_vals :=
  repeat match goal with
  | |- context [byte_val (byte_of ?z)] =>
    rewrite (byte_val_of_small z) by (Z.div_mod_to_equations; lia)
  end.

Ltac test_false := rewrite (proj2 (Z.ltb_ge _ _)) by (Z.div_mod_to_equations; lia).
Ltac test_true := rewrite (proj2 (Z.ltb_lt _ _)) by (Z.div_mod_to_equations; lia).

Lemma is_cont_of z : 0 <= z < 64 -> is_cont (byte_of (0x80 + z)) = true.
Proof.
  intros. unfold is_cont. rewrite byte_val_of_small by lia.
  apply andb_true_intro; split; [apply Z.leb_le|apply Z.ltb_lt]; lia.
Qed.

Lemma cont_bits_of z : 0 <= z < 64 -> cont_bits (byte_of (0x80 + z)) = z.
Proof. intros. unfold cont_bits. rewrite byte_val_of_small by lia. lia. Qed.

Lemma utf8_decode_char c b rest :
  utf8_encode_char c = Ok b ->
  utf8_decode (b ++ rest) = push_char c (utf8_decode rest).
Proof.
  unfold utf8_encode_char. destruct (is_scalar c) eqn:Hs; [|done].
  pose proof (is_scalar_true c Hs) as Hr. cbn [negb].
  assert (Hm : forall z, 0 <= z mod 64 < 64) by (intros; apply Z.mod_pos_bound; lia).
  destruct (c <? 0x80) eqn:E1; b2p;
    [|destruct (c <? 0x800) eqn:E2; b2p;
      [|destruct (c <? 0x10000) eqn:E3; b2p]];
    intros [= <-]; cbn [app utf8_decode];
    rewrite ?is_cont_of, ?cont_bits_of by apply Hm; byte_vals.
  - by test_true.
  - do 2 test_false. test_true. cbn [negb]. f_equal. Z.div_mod_to_equations; lia.
  - do 3 test_false. test_true. cbn [negb].
    assert (Hc : (0xE0 + c / 4096 - 0xE0) * 4096 + (c / 64) mod 64 * 64 + c mod 64 = c)
      by (Z.div_mod_to_equations; lia).
    rewrite Hc, Hs, (proj2 (Z.leb_le 0x800 c)) by lia. done.
  - do 4 test_false. cbn [negb].
    assert (Hc : (0xF0 + c / 262144 - 0xF0) * 262144 + (c / 4096) mod 64 * 4096
                 + (c / 64) mod 64 * 64 + c mod 64 = c)
      by (Z.div_mod_to_equations; lia).
    rewrite Hc, Hs, (proj2 (Z.leb_le 0x10000 c)) by lia. done.
Qed.

Lemma utf8_decode_encode s bs : utf8_encode s = Ok bs -> utf8_decode bs = Ok s.
Proof.
  revert bs. induction s as [|c s IH]; intros bs; cbn [utf8_encode].
  - by intros [= <-].
  - destruct (utf8_encode_char c) as [b|] eqn:Ec; [|done].
    destruct (utf8_encode s) as [bs'|] eqn:Es; [|done].
    intros [= <-]. rewrite (utf8_decode_char c) by done.
    by rewrite (IH _ eq_refl).
Qed.

Lemma utf8_encode_scalar s :
  Forall (fun c => is_scalar c = true) s -> exists bs, utf8_encode s = Ok bs.
Proof.
  induction 1 as [|c s Hc Hs [bs IH]]; cbn [utf8_encode]; [by eexists|].
  rewrite IH. unfold utf8_encode_char. rewrite Hc. cbn [negb].
  split_cases; by eexists.
Qed.
