(* ===== verification/TlPrimitives.v ===== *)
(** [piltover/tl/primitives]: the readers and writers of the TL base types
    ([int_.py], [bool_.py], [float_.py], [str_.py], [vector.py]), and the second
    writer of TL byte strings, [write_bytes] of [utils/rsa_pairs.py]. *)
From Stdlib Require Import Init.Byte.
From S2P Require Import Prelude PyBytes.

(** ** [int_.py]: [Int], [Long], [BigInt], [Int128] and [Int256] *)
Inductive int_class := Int | Long | BigInt | Int128 | Int256.

#[export] Instance int_class_eq_dec : EqDecision int_class.
Proof. solve_decision. Defined.

Definition BIT_SIZE (cls : int_class) : nat :=
  match cls with Int => 32 | Long => 64 | BigInt => 0 | Int128 => 128 | Int256 => 256 end.

Definition SIZE (cls : int_class) : nat := (BIT_SIZE cls / 8)%nat.

(** [read_bytes]: [Int] and [Long] unpack with a [Struct], which accepts
    exactly [SIZE] bytes; the classes below [BigInt] slice. *)
Definition read_bytes (cls : int_class) (data : bytes) (signed : bool) : result Z :=
  match cls with
  | Int | Long =>
    if decide (length data = SIZE cls) then Ok (from_bytes_le signed data)
    else Raise StructError
  | BigInt | Int128 | Int256 => Ok (from_bytes_le signed (take (SIZE cls) data))
  end.

Definition int_read (cls : int_class) (signed : bool) : reader Z :=
  data ← bio_read (Z.of_nat (SIZE cls));
  reader_lift (read_bytes cls data signed).

Definition int_write (cls : int_class) (value : Z) (signed : bool) : result bytes :=
  to_bytes_le (SIZE cls) signed value.

Lemma SIZE_pos cls : cls <> BigInt -> (0 < SIZE cls)%nat.
Proof. destruct cls; cbn; intros; try done; lia. Qed.

Lemma read_bytes_exact cls data signed :
  length data = SIZE cls -> read_bytes cls data signed = Ok (from_bytes_le signed data).
Proof.
  intros H. unfold read_bytes.
  destruct cls; rewrite ?decide_True by done; rewrite <- ?H, ?firstn_all; done.
Qed.

Lemma int_read_exact cls signed data rest :
  length data = SIZE cls ->
  int_read cls signed (data ++ rest) = Ok (from_bytes_le signed data, rest).
Proof.
  intros H. unfold int_read, mbind, reader_bind.
  rewrite bio_read_app by lia. unfold reader_lift.
  by rewrite read_bytes_exact.
Qed.

Lemma int_read_write cls signed v bs rest :
  cls <> BigInt -> int_write cls v signed = Ok bs ->
  int_read cls signed (bs ++ rest) = Ok (v, rest).
Proof.
  intros Hc Hw. pose proof (SIZE_pos cls Hc).
  rewrite int_read_exact by eauto using to_bytes_le_length.
  unfold int_write in Hw. by rewrite (from_to_bytes_le (SIZE cls) signed v bs).
Qed.

Lemma int_write_length cls v signed bs :
  int_write cls v signed = Ok bs -> length bs = SIZE cls.
Proof. apply to_bytes_le_length. Qed.

(** A truncated [Int128] or [Int256] is read without an error. *)
Lemma int_read_big_empty cls signed : cls = Int128 \/ cls = Int256 ->
  int_read cls signed [] = Ok (0, []).
Proof. intros [-> | ->]; destruct signed; reflexivity. Qed.

(** ** [float_.py]: a float is its binary64 pattern, which is what
    [Struct("<d")] packs *)
Record float64 := Float64 { float_bits : Z; float_bits_ok : fits 8 false float_bits = true }.

#[export] Instance float64_eq_dec : EqDecision float64.
Proof.
  intros [a Ha] [b Hb]. destruct (decide (a = b)) as [->|]; [left|right; congruence].
  f_equal. apply (Eqdep_dec.UIP_dec Bool.bool_dec).
Defined.

Lemma le_val_fits bs : length bs = 8%nat -> fits 8 false (le_val bs) = true.
Proof.
  intros H. pose proof (le_val_range bs). rewrite H in *. unfold fits.
  apply andb_true_intro; split; [apply Z.leb_le|apply Z.ltb_lt]; lia.
Qed.

Definition float_read : reader float64 := fun s =>
  match bio_read 8 s with
  | Ok (data, s') =>
    match decide (length data = 8%nat) with
    | left H => Ok (Float64 (le_val data) (le_val_fits data H), s')
    | right _ => Raise StructError
    end
  | Raise e => Raise e
  end.

Definition float_write (value : float64) : result bytes :=
  Ok (le_bytes 8 (float_bits value)).

Lemma float64_eq a b : float_bits a = float_bits b -> a = b.
Proof.
  destruct a as [a Ha], b as [b Hb]; cbn. intros ->. f_equal.
  apply (Eqdep_dec.UIP_dec Bool.bool_dec).
Qed.

Lemma float_read_write v bs rest :
  float_write v = Ok bs -> float_read (bs ++ rest) = Ok (v, rest).
Proof.
  unfold float_write. intros Hw. assert (bs = le_bytes 8 (float_bits v)) as -> by congruence.
  pose proof (length_le_bytes 8 (float_bits v)) as Hl. unfold float_read.
  rewrite bio_read_app by lia.
  destruct (decide _) as [H|H]; [|done].
  do 2 f_equal. apply float64_eq. cbn [float_bits].
  rewrite le_val_bytes. pose proof (float_bits_ok v) as Hf.
  unfold fits in Hf. b2p. apply Z.mod_small. lia.
Qed.

(** ** [bool_.py] *)
Definition BOOL_TRUE : bytes := le_bytes 4 0x997275b5.
Definition BOOL_FALSE : bytes := le_bytes 4 0xbc799737.
Definition VECTOR : bytes := le_bytes 4 0x1cb5c415.
Definition EMPTY_VECTOR : bytes := VECTOR ++ zero_bytes 4.

(** [raise InvalidConstructorException(Int.read_bytes(c, False), stream.read())] *)
Definition raise_invalid_constructor {A} (constructor : bytes) : reader A := fun s =>
  match read_bytes Int constructor false with
  | Ok c => Raise (InvalidConstructor c s)
  | Raise e => Raise e
  end.

Definition bool_read : reader bool :=
  bool_constructor ← bio_read 4;
  if negb (bool_decide (bool_constructor = BOOL_TRUE)
           || bool_decide (bool_constructor = BOOL_FALSE))
  then raise_invalid_constructor bool_constructor
  else mret (bool_decide (bool_constructor = BOOL_TRUE)).

Definition bool_write (value : bool) : result bytes :=
  Ok (if value then BOOL_TRUE else BOOL_FALSE).

Lemma bool_read_write v bs rest :
  bool_write v = Ok bs -> bool_read (bs ++ rest) = Ok (v, rest).
Proof. intros [= <-]. destruct v; reflexivity. Qed.

(** ** [str_.py] *)

(** [stream.read(1)[0]] *)
Definition read_byte : reader byte := fun s =>
  match s with b :: s' => Ok (b, s') | [] => Raise IndexError end.

Definition bytes_read : reader bytes :=
  b ← read_byte;
  '(count, padding) ←
    (if 254 <=? byte_val b
     then c ← bio_read 3; mret (from_bytes_le false c, 4)
     else mret (byte_val b, 1));
  result ← bio_read count;
  let padding := (padding + Z.of_nat (length result)) mod 4 in
  (if padding =? 0 then mret [] else bio_read (4 - padding));;
  mret result.

Definition bytes_write (value : bytes) : result bytes :=
  let ln := Z.of_nat (length value) in
  head ← (if 0xFE <=? ln
          then l ← to_bytes_le 3 false ln; Ok (byte_of 254 :: l)
          else Ok [byte_of ln]);
  let result := head ++ value in
  let padding := (length result mod 4)%nat in
  Ok (if (padding =? 0)%nat then result else result ++ zero_bytes (4 - padding)).

Definition string_read : reader pystr :=
  bs ← bytes_read; reader_lift (utf8_decode bs).

Definition string_write (value : pystr) : result bytes :=
  bs ← utf8_encode value; bytes_write bs.

(** [utils/rsa_pairs.py write_bytes]: [bytes(-n % 4)] pads. *)
Definition write_bytes (value : bytes) : result bytes :=
  let length := Z.of_nat (length value) in
  if length <=? 253
  then Ok ([byte_of length] ++ value ++ zero_bytes (Z.to_nat ((- (length + 1)) mod 4)))
  else l ← to_bytes_le 3 false length;
       Ok ([byte_of 254] ++ l ++ value ++ zero_bytes (Z.to_nat ((- length) mod 4))).

Definition pad4 (n : nat) : nat := ((4 - n mod 4) mod 4)%nat.

Lemma pad4_total n : ((n + pad4 n) mod 4 = 0)%nat.
Proof.
  unfold pad4. rewrite Nat.Div0.add_mod_idemp_r.
  pose proof (Nat.div_mod_eq n 4). pose proof (Nat.mod_upper_bound n 4).
  replace (n + (4 - n mod 4))%nat with ((n / 4 + 1) * 4)%nat by lia.
  apply Nat.Div0.mod_mul.
Qed.

(** What [Bytes.write] writes: a length prefix of one or four bytes, the
    bytes, and the padding to a multiple of four. *)
Lemma bytes_write_short v :
  (length v < 254)%nat ->
  bytes_write v = Ok (byte_of (Z.of_nat (length v)) :: v ++ zero_bytes (pad4 (S (length v)))).
Proof.
  intros H. unfold bytes_write. rewrite (proj2 (Z.leb_gt _ _)) by lia.
  cbn [mbind result_bind app length]. unfold pad4.
  destruct (_ =? 0)%nat eqn:E; b2p.
  - rewrite E. cbn. by rewrite app_nil_r.
  - pose proof (Nat.mod_upper_bound (S (length v)) 4).
    by rewrite (Nat.mod_small (4 - _)) by lia.
Qed.

Lemma bytes_write_long v :
  (254 <= length v)%nat ->
  bytes_write v =
    (l ← to_bytes_le 3 false (Z.of_nat (length v));
     Ok (byte_of 254 :: l ++ v ++ zero_bytes (pad4 (length v)))).
Proof.
  intros H. unfold bytes_write. rewrite (proj2 (Z.leb_le _ _)) by lia.
  destruct (to_bytes_le 3 false _) as [l|e] eqn:El; [|done].
  cbn [mbind result_bind]. apply to_bytes_le_length in El.
  assert (Hl : length ((byte_of 254 :: l) ++ v) = (1 * 4 + length v)%nat).
  { rewrite length_app. cbn [length]. lia. }
  rewrite Hl, Nat.add_comm, Nat.Div0.mod_add. unfold pad4.
  destruct (_ =? 0)%nat eqn:E; b2p.
  - rewrite E. cbn. by rewrite app_nil_r.
  - pose proof (Nat.mod_upper_bound (length v) 4).
    by rewrite (Nat.mod_small (4 - _)), <- app_assoc by lia.
Qed.

(** Reading the padding that the writer wrote. *)
Lemma read_padding n rest : 
  (if (Z.of_nat n mod 4 =? 0) then mret [] else bio_read (4 - Z.of_nat n mod 4))
    (zero_bytes (pad4 n) ++ rest) = Ok (zero_bytes (pad4 n), rest).
Proof.
  unfold pad4. change 4 with (Z.of_nat 4). rewrite <- (Nat2Z.inj_mod n 4).
  pose proof (Nat.mod_upper_bound n 4 ltac:(lia)).
  destruct (_ =? 0) eqn:E; b2p.
  - replace (n mod 4)%nat with O by lia. reflexivity.
  - rewrite bio_read_app; [done|]. unfold zero_bytes. rewrite length_replicate.
    rewrite (Nat.mod_small (4 - _)) by lia. lia.
Qed.

Lemma bytes_write_length_bound v bs :
  bytes_write v = Ok bs -> Z.of_nat (length v) < 2 ^ 24.
Proof.
  intros H. destruct (decide (length v < 254)%nat) as [Hs|Hs]; [lia|].
  rewrite bytes_write_long in H by lia.
  apply result_bind_ok in H as (l & Hl & _).
  apply to_bytes_le_ok in Hl as [Hf _]. unfold fits in Hf. b2p. lia.
Qed.

(** Reading the length prefix. *)
Lemma bytes_read_prefix b padding s' v n rest :
  (if 254 <=? byte_val b
   then c ← bio_read 3; mret (from_bytes_le false c, 4)
   else mret (byte_val b, 1)) s' =
    Ok ((Z.of_nat (length v), padding), v ++ zero_bytes (pad4 n) ++ rest) ->
  (padding + Z.of_nat (length v)) mod 4 = Z.of_nat n mod 4 ->
  bytes_read (b :: s') = Ok (v, rest).
Proof.
  intros H Hn. unfold bytes_read.
  rewrite (reader_bind_step read_byte _ _ b s') by done.
  rewrite (reader_bind_step _ _ _ _ _ H), (reader_bind_step _ _ _ v (zero_bytes (pad4 n) ++ rest))
    by (by apply bio_read_app).
  rewrite Hn. by rewrite (reader_bind_step _ _ _ _ _ (read_padding n rest)).
Qed.

Lemma bytes_read_write v bs rest :
  bytes_write v = Ok bs -> bytes_read (bs ++ rest) = Ok (v, rest).
Proof.
  intros H. destruct (decide (length v < 254)%nat) as [Hs|Hs].
  - rewrite bytes_write_short in H by done. injection H as <-.
    cbn [app]. apply (bytes_read_prefix _ 1 _ _ (S (length v))).
    + rewrite byte_val_of_small by lia. rewrite (proj2 (Z.leb_gt _ _)) by lia.
      by rewrite <- app_assoc.
    + f_equal. lia.
  - rewrite bytes_write_long in H by lia.
    apply result_bind_ok in H as (l & Hl & [= <-]).
    cbn [app]. apply (bytes_read_prefix _ 4 _ _ (length v)).
    + change (254 <=? byte_val (byte_of 254)) with true. cbv iota.
      rewrite <- !app_assoc.
      rewrite (reader_bind_step _ _ _ l (v ++ zero_bytes (pad4 (length v)) ++ rest)).
      * by rewrite (from_to_bytes_le 3 false _ _ ltac:(lia) Hl).
      * apply bio_read_app. by rewrite (to_bytes_le_length _ _ _ _ Hl).
    + by rewrite Z.add_mod, Z_mod_same_full, Z.add_0_l, Z.mod_mod by lia.
Qed.

Lemma string_read_write v bs rest :
  string_write v = Ok bs -> string_read (bs ++ rest) = Ok (v, rest).
Proof.
  intros H. unfold string_write in H.
  apply result_bind_ok in H as (u & Hu & Hw).
  unfold string_read.
  rewrite (reader_bind_step _ _ _ u rest) by (by apply bytes_read_write).
  unfold reader_lift. by rewrite (utf8_decode_encode v).
Qed.

Lemma pad4_Z n : Z.to_nat ((- Z.of_nat n) mod 4) = pad4 n.
Proof.
  unfold pad4. pose proof (Nat2Z.inj_mod n 4) as Hm.
  pose proof (Nat.mod_upper_bound n 4 ltac:(lia)).
  pose proof (Nat.mod_upper_bound (4 - n mod 4) 4 ltac:(lia)).
  pose proof (Nat2Z.inj_mod (4 - n mod 4) 4).
  Z.div_mod_to_equations; lia.
Qed.

(** ** [vector.py]: the element types' protocol and the vectors over it *)

(** [_Primitive]: what a vector asks of its element type. *)
Record Primitive (A : Type) := MkPrimitive {
  p_read : reader A;
  p_write : A -> result bytes;
}.
Arguments MkPrimitive {A} _ _.
Arguments p_read {A} _.
Arguments p_write {A} _ _.

(** The contract between an element type and its users: what was written is
    read back, and nothing after it is touched. *)
Class Lawful {A} (p : Primitive A) : Prop :=
  read_write : forall v bs rest,
    p_write p v = Ok bs -> p_read p (bs ++ rest) = Ok (v, rest).

Definition IntPrim (cls : int_class) : Primitive Z :=
  MkPrimitive (int_read cls true) (fun v => int_write cls v true).
Definition FloatPrim : Primitive float64 := MkPrimitive float_read float_write.
Definition BoolPrim : Primitive bool := MkPrimitive bool_read bool_write.
Definition BytesPrim : Primitive bytes := MkPrimitive bytes_read bytes_write.
Definition StringPrim : Primitive pystr := MkPrimitive string_read string_write.

#[export] Instance Int_lawful : Lawful (IntPrim Int).
Proof. intros v bs rest. by apply int_read_write. Qed.
#[export] Instance Long_lawful : Lawful (IntPrim Long).
Proof. intros v bs rest. by apply int_read_write. Qed.
#[export] Instance Int128_lawful : Lawful (IntPrim Int128).
Proof. intros v bs rest. by apply int_read_write. Qed.
#[export] Instance Int256_lawful : Lawful (IntPrim Int256).
Proof. intros v bs rest. by apply int_read_write. Qed.
#[export] Instance Float_lawful : Lawful FloatPrim.
Proof. exact float_read_write. Qed.
#[export] Instance Bool_lawful : Lawful BoolPrim.
Proof. exact bool_read_write. Qed.
#[export] Instance Bytes_lawful : Lawful BytesPrim.
Proof. exact bytes_read_write. Qed.
#[export] Instance String_lawful : Lawful StringPrim.
Proof. exact string_read_write. Qed.

Definition check_constructor : reader unit :=
  constructor ← bio_read 4;
  if decide (constructor = VECTOR) then mret tt
  else raise_invalid_constructor constructor.

Definition read_header : reader Z :=
  check_constructor;; int_read Int true.

Definition header (count : Z) : result bytes :=
  c ← int_write Int count true; Ok (VECTOR ++ c).

(** [(r(stream) for _ in range(n))], consumed by a list constructor *)
Fixpoint read_many {A} (r : reader A) (n : nat) : reader (list A) :=
  match n with
  | O => mret []
  | S n => x ← r; xs ← read_many r n; mret (x :: xs)
  end.

(** [_Vector] over the element type [p]: a negative count reads nothing. *)
Definition vector_read {A} (p : Primitive A) : reader (list A) :=
  count ← read_header; read_many (p_read p) (Z.to_nat count).

Definition vector_write {A} (p : Primitive A) (self : list A) : result bytes :=
  h ← header (Z.of_nat (length self));
  bss ← mapM (p_write p) self;
  Ok (h ++ concat bss).

Definition VectorPrim {A} (p : Primitive A) : Primitive (list A) :=
  MkPrimitive (vector_read p) (vector_write p).

(** [array(typecode, data)] with items of [size] bytes *)
Fixpoint split_chunks (size n : nat) (data : bytes) : list bytes :=
  match n with
  | O => []
  | S n => take size data :: split_chunks size n (drop size data)
  end.

Definition array_frombytes {A} (size : nat) (dec : bytes -> A) (data : bytes)
    : result (list A) :=
  if decide (length data mod size = 0)%nat
  then Ok (dec <$> split_chunks size (length data / size) data)
  else Raise ValueError.

(** [PrimitiveVector]: one read for all elements, one [array] for the write. *)
Definition primitive_vector_read {A} (size : nat) (dec : bytes -> A) : reader (list A) :=
  count ← read_header;
  data ← bio_read (count * Z.of_nat size);
  reader_lift (array_frombytes size dec data).

Definition primitive_vector_write {A} (enc : A -> result bytes) (self : list A)
    : result bytes :=
  arr ← mapM enc self;
  h ← header (Z.of_nat (length self));
  Ok (h ++ concat arr).

Definition int_array (cls : int_class) : Primitive (list Z) :=
  MkPrimitive (primitive_vector_read (SIZE cls) (from_bytes_le true))
              (primitive_vector_write (fun v => int_write cls v true)).

Definition IntVector : Primitive (list Z) := int_array Int.
Definition LongVector : Primitive (list Z) := int_array Long.
Definition Int128Vector : Primitive (list Z) := VectorPrim (IntPrim Int128).
Definition Int256Vector : Primitive (list Z) := VectorPrim (IntPrim Int256).
Definition BoolVector : Primitive (list bool) := VectorPrim BoolPrim.
Definition BytesVector : Primitive (list bytes) := VectorPrim BytesPrim.
Definition StringVector : Primitive (list pystr) := VectorPrim StringPrim.

(** Eight bytes as a float, for [FloatVector]. *)
Definition float_of_bytes (bs : bytes) : float64 :=
  match float_read bs with
  | Ok (f, _) => f
  | Raise _ => Float64 0 eq_refl
  end.
Definition FloatVector : Primitive (list float64) :=
  MkPrimitive (primitive_vector_read 8 float_of_bytes)
              (primitive_vector_write float_write).

Lemma mapM_result_ok {A B} (f : A -> result B) l k :
  mapM f l = Ok k <-> Forall2 (fun x y => f x = Ok y) l k.
Proof.
  split.
  - revert k. induction l as [|x l IH]; intros k; cbn.
    + by intros [= <-].
    + destruct (f x) eqn:E; [|done]. cbn.
      destruct (mapM f l) eqn:E'; [|done]. intros [= <-]. eauto.
  - induction 1 as [|x y l k Hx Hl IH]; cbn; [done|].
    rewrite Hx. cbn. by rewrite IH.
Qed.

Lemma read_header_header n h rest :
  header n = Ok h -> read_header (h ++ rest) = Ok (n, rest).
Proof.
  intros Hh. unfold header in Hh. apply result_bind_ok in Hh as (c & Hc & Hh).
  apply Ok_inj in Hh as <-. unfold read_header. rewrite <- app_assoc.
  rewrite (reader_bind_step _ _ _ tt (c ++ rest)) by done.
  by apply int_read_write.
Qed.

Lemma read_many_write {A} (p : Primitive A) {Hp : Lawful p} l bss rest :
  Forall2 (fun x y => p_write p x = Ok y) l bss ->
  read_many (p_read p) (length l) (concat bss ++ rest) = Ok (l, rest).
Proof.
  induction 1 as [|x b l bss Hx Hl IH]; [done|]. cbn [length read_many concat].
  rewrite <- app_assoc.
  rewrite (reader_bind_step _ _ _ x (concat bss ++ rest)) by (by apply read_write).
  by rewrite (reader_bind_step _ _ _ l rest).
Qed.

#[export] Instance vector_lawful {A} (p : Primitive A) :
  Lawful p -> Lawful (VectorPrim p).
Proof.
  intros Hp l bs rest Hw. cbn [p_read p_write VectorPrim] in *. unfold vector_write in Hw.
  apply result_bind_ok in Hw as (h & Hh & Hw).
  apply result_bind_ok in Hw as (bss & Hbs & [= <-]).
  apply mapM_result_ok in Hbs. unfold vector_read. rewrite <- app_assoc.
  rewrite (reader_bind_step _ _ _ _ _ (read_header_header _ _ _ Hh)), Nat2Z.id.
  by apply read_many_write.
Qed.

Lemma split_chunks_concat size bss :
  Forall (fun b => length b = size) bss ->
  split_chunks size (length bss) (concat bss) = bss.
Proof.
  induction 1 as [|b bss Hb Hbss IH]; cbn; [done|].
  rewrite <- Hb, take_app_length, drop_app_length, Hb. by rewrite IH.
Qed.

Lemma length_concat_const (size : nat) (bss : list bytes) :
  Forall (fun b => length b = size) bss ->
  length (concat bss) = (length bss * size)%nat.
Proof. induction 1; cbn; [done|]. rewrite length_app. lia. Qed.

(** The one-shot array codec obeys the same contract. *)
Lemma primitive_vector_read_write {A} size (dec : bytes -> A) enc l bs rest :
  (0 < size)%nat ->
  (forall v b, enc v = Ok b -> length b = size /\ dec b = v) ->
  primitive_vector_write enc l = Ok bs ->
  primitive_vector_read size dec (bs ++ rest) = Ok (l, rest).
Proof.
  intros Hs Hc Hw. unfold primitive_vector_write in Hw.
  apply result_bind_ok in Hw as (arr & Harr & Hw).
  apply result_bind_ok in Hw as (h & Hh & [= <-]).
  apply mapM_result_ok in Harr.
  assert (Hlen : length arr = length l) by (symmetry; by eapply Forall2_length).
  assert (Hall : Forall (fun b => length b = size) arr).
  { clear -Harr Hc. induction Harr; constructor; [|done]. by eapply Hc. }
  assert (Hdec : dec <$> arr = l).
  { clear -Harr Hc. induction Harr as [|v b l arr H]; [done|]. cbn. f_equal; [|done].
    by eapply Hc. }
  unfold primitive_vector_read. rewrite <- app_assoc.
  rewrite (reader_bind_step _ _ _ _ _ (read_header_header _ _ _ Hh)).
  rewrite (reader_bind_step _ _ _ (concat arr) rest).
  - unfold reader_lift, array_frombytes.
    rewrite (length_concat_const size) by done.
    rewrite decide_True by (apply Nat.Div0.mod_mul).
    rewrite Nat.div_mul, split_chunks_concat, Hdec by (done || lia). done.
  - apply bio_read_app. rewrite (length_concat_const size) by done. lia.
Qed.

Lemma int_array_lawful cls : cls <> BigInt -> Lawful (int_array cls).
Proof.
  intros Hc l bs rest. apply primitive_vector_read_write; [by apply SIZE_pos|].
  intros v b Hv. split; [by eapply int_write_length|].
  eapply from_to_bytes_le; [|exact Hv]. by apply SIZE_pos.
Qed.

#[export] Instance IntVector_lawful : Lawful IntVector.
Proof. by apply int_array_lawful. Qed.
#[export] Instance LongVector_lawful : Lawful LongVector.
Proof. by apply int_array_lawful. Qed.
#[export] Instance FloatVector_lawful : Lawful FloatVector.
Proof.
  intros l bs rest. apply primitive_vector_read_write; [lia|].
  intros v b Hv. split.
  - unfold float_write in Hv. assert (b = le_bytes 8 (float_bits v)) as -> by congruence.
    apply length_le_bytes.
  - unfold float_of_bytes. pose proof (float_read_write v b [] Hv) as H.
    rewrite app_nil_r in H. by rewrite H.
Qed.

(** ** Properties *)

(** A TL byte string is written exactly when it is shorter than 2^24
    bytes ([OverflowError] otherwise); what is written is a multiple of four
    bytes long and reads back as the same bytes, leaving the rest of the
    stream untouched. *)
Theorem bytes_write_roundtrip (v : bytes) :
  (Z.of_nat (length v) < 2 ^ 24 ->
   exists bs, bytes_write v = Ok bs /\ (length bs mod 4 = 0)%nat /\
     forall rest, bytes_read (bs ++ rest) = Ok (v, rest)) /\
  (2 ^ 24 <= Z.of_nat (length v) -> bytes_write v = Raise OverflowError).
Proof.
  split; intros Hlen.
  - destruct (decide (length v < 254)%nat) as [Hs|Hs].
    + eexists. split; [by apply bytes_write_short|]. split.
      * unfold zero_bytes. cbn [length]. rewrite length_app, length_replicate.
        apply (pad4_total (S (length v))).
      * intros rest. apply bytes_read_write. by apply bytes_write_short.
    + assert (Hl : to_bytes_le 3 false (Z.of_nat (length v)) = Ok (le_bytes 3 (Z.of_nat (length v)))).
      { apply to_bytes_le_ok. split; [|done]. unfold fits.
        apply andb_true_intro; split; [apply Z.leb_le|apply Z.ltb_lt]; lia. }
      pose proof (bytes_write_long v ltac:(lia)) as Hw. rewrite Hl in Hw.
      eexists. split; [exact Hw|]. split.
      * cbn [length]. unfold zero_bytes. rewrite !length_app, length_le_bytes, length_replicate.
        replace (S _) with (length v + pad4 (length v) + 1 * 4)%nat by lia.
        rewrite Nat.Div0.mod_add. apply pad4_total.
      * intros rest. by apply bytes_read_write.
  - rewrite bytes_write_long by lia. unfold to_bytes_le, fits.
    rewrite (proj2 (Z.ltb_ge _ _)) by lia. by rewrite andb_false_r.
Qed.

(** The byte-string writer that the RSA key fingerprint uses and the TL
    byte-string writer agree on every input, errors included. *)
Theorem write_bytes_equiv (v : bytes) : write_bytes v = bytes_write v.
Proof.
  unfold write_bytes. destruct (_ <=? 253) eqn:E; b2p.
  - rewrite bytes_write_short by lia.
    replace (Z.of_nat (length v) + 1) with (Z.of_nat (S (length v))) by lia.
    by rewrite pad4_Z.
  - rewrite bytes_write_long, pad4_Z by lia. done.
Qed.

(** Every vector codec over a lawful element codec reads back exactly the
    list that was written, however the element codec works; a vector of
    vectors is an instance. *)
Theorem vector_roundtrip {A} (p : Primitive A) (l : list A) bs rest :
  Lawful p -> vector_write p l = Ok bs ->
  vector_read p (bs ++ rest) = Ok (l, rest) /\
  Z.of_nat (length l) < 2 ^ 31.
Proof.
  intros Hp Hw. split; [by apply (vector_lawful p)|].
  unfold vector_write in Hw. apply result_bind_ok in Hw as (h & Hh & _).
  unfold header, int_write in Hh. apply result_bind_ok in Hh as (c & Hc & _).
  apply to_bytes_le_ok in Hc as [Hf _]. unfold fits in Hf. b2p.
  cbn in *. lia.
Qed.

Lemma vector_roundtrip_witness :
  vector_read (VectorPrim BytesPrim)
    (VECTOR ++ le_bytes 4 1 ++ VECTOR ++ le_bytes 4 1 ++ [x01; x07; x00; x00] ++ [x2a]) =
    Ok ([[[x07]]], [x2a]) /\ Z.of_nat (length [[[x07]]]) < 2 ^ 31.
Proof.
  apply (vector_roundtrip (VectorPrim BytesPrim) [[[x07]]]
    (VECTOR ++ le_bytes 4 1 ++ VECTOR ++ le_bytes 4 1 ++ [x01; x07; x00; x00]) [x2a]);
    [apply _|vm_compute; reflexivity].
Defined.
