(* ===== verification/AccessHash.v ===== *)
(** Access hashes and file references: [make_access_hash] and [check_access_hash] of the models
    ([piltover/db/models/user.py], [channel.py], [file.py], [stickerset.py], [theme.py], [wallpaper.py]), the
    placeholders that are replaced when an object is sent ([piltover/tl/placeholders/]), and the file references of
    [piltover/db/models/file.py].

    HMAC with the server's key and the generated serializers of the signed payloads are parameters. *)
From S2P Require Import Prelude PyBytes TlPrimitives.

(** The models with an access hash of their own, and [AccessHashPayloadUser], [AccessHashPayloadChannel], ... *)
Inductive signed_kind := KUser | KChannel | KFile | KStickerset | KTheme | KWallpaper.
#[export] Instance signed_kind_eq_dec : EqDecision signed_kind.
Proof. solve_decision. Defined.

Definition norm_id (t_id : Z) : Z := t_id / 2.

Section Signed.
Context (hmac_sha256 : bytes -> bytes) (payload : signed_kind -> Z -> Z -> Z -> bytes).

Definition make_access_hash (k : signed_kind) (user auth target : Z) : result Z :=
  let digest := hmac_sha256 (payload k user target auth) in
  read_bytes Long (drop (length digest - 8) digest) true.

Definition check_access_hash (k : signed_kind) (user auth target access_hash : Z) : result bool :=
  h ← make_access_hash k user auth target; mret (h =? access_hash).

(** ** Placeholders: [SerializationContext] says for whom an object is written, or that it is not to be changed *)
Record SerializationContext := MkCtx { ctx_user : Z; ctx_auth : Z; dont_format : bool }.

Definition fill_access_hash_calc (k : signed_kind) (id access_hash : Z) (ctx : SerializationContext) : result Z :=
  if dont_format ctx then Ok access_hash
  else make_access_hash k (ctx_user ctx) (ctx_auth ctx) (match k with KChannel => norm_id id | _ => id end).

(** What the generated writer puts in the place of [access_hash] *)
Definition written_access_hash (k : signed_kind) (id access_hash : Z) (ctx : SerializationContext) : result Z :=
  if access_hash =? -1 then fill_access_hash_calc k id access_hash ctx else Ok access_hash.

(** ** File references *)
Definition CONST_FILE_REF_ID : Z := 0x51a32644.
Definition CONST_FILE_REF_ID_BYTES : bytes := le_bytes 4 CONST_FILE_REF_ID.
(** [FileReferencePayload.tlid()], the bytes that [tl_gen_placeholders.py] looks for *)
Definition PLACEHOLDER_FILE_REF_ID_BYTES : bytes := le_bytes 4 0xaf4f0049.

Definition make_file_reference (user file created_at : Z) : result bytes :=
  created_at_ ← int_write Int created_at true;
  u ← int_write Long user true;
  f ← int_write Long file true;
  mret (created_at_ ++ hmac_sha256 (u ++ f ++ created_at_)).

(** [FileReferencePayload]: the placeholder that is read back *)
Record FileReferencePayload := MkFileRef { fr_file_id : Z; fr_created_at : Z }.
(** [now] is [time()] in whole seconds. *)
Definition file_fill_file_reference_calc (now : Z) (p : FileReferencePayload) (ctx : SerializationContext) : result bytes :=
  make_file_reference (ctx_user ctx) (fr_file_id p) (if fr_created_at p =? 0 then now else fr_created_at p).

Context (file_ref_expire_minutes : Z).

(** [starts_with p b]: [b.startswith(p)] *)
Definition starts_with (p b : bytes) : bool := bool_decide (take (length p) b = p).

(** Whether the reference is valid, and whether it is a constant one *)
Definition is_file_ref_valid (now : Z) (file_ref : bytes) (user file : Z) : result (bool * bool) :=
  if starts_with PLACEHOLDER_FILE_REF_ID_BYTES file_ref then Raise Unreachable
  else if bool_decide (length file_ref = 28%nat) && starts_with CONST_FILE_REF_ID_BYTES file_ref then
    f ← int_write Long file true;
    let valid := bool_decide (take 8 (drop 4 file_ref) = f) in
    mret (valid, valid)
  else if bool_decide (length file_ref <> 36%nat) then mret (false, false)
  else
    let now_minutes := now / 60 in
    created_at ← read_bytes Int (take 4 file_ref) true;
    if created_at + file_ref_expire_minutes <? now_minutes then mret (false, false)
    else
      u ← int_write Long user true;
      f ← int_write Long file true;
      if bool_decide (hmac_sha256 (u ++ f ++ take 4 file_ref) <> drop 4 file_ref) then mret (false, false)
      else mret (true, false).
End Signed.

(** ** Facts *)
Section Facts.
Context (hmac_sha256 : bytes -> bytes) (payload : signed_kind -> Z -> Z -> Z -> bytes) (expire : Z).
(** A SHA-256 digest has 32 bytes. *)
Context (hmac_32 : forall m, length (hmac_sha256 m) = 32%nat).

Lemma make_access_hash_ok k user auth target : exists h, make_access_hash hmac_sha256 payload k user auth target = Ok h.
Proof using hmac_32.
  unfold make_access_hash. rewrite read_bytes_exact; [by eexists|]. rewrite length_drop, hmac_32. reflexivity.
Qed.

Lemma check_access_hash_spec k user auth target h : exists h0,
  make_access_hash hmac_sha256 payload k user auth target = Ok h0 /\
  check_access_hash hmac_sha256 payload k user auth target h = Ok (h0 =? h).
Proof using hmac_32.
  destruct (make_access_hash_ok k user auth target) as [h0 E]. exists h0. split; [done|]. unfold check_access_hash. by rewrite E.
Qed.

Lemma int_write_fits cls z bs : int_write cls z true = Ok bs -> fits (SIZE cls) true z = true /\ length bs = SIZE cls /\ bs = le_bytes (SIZE cls) z.
Proof. unfold int_write. intros H. pose proof (to_bytes_le_length _ _ _ _ H). by apply to_bytes_le_ok in H as [? ->]. Qed.

(** A reference that was made is read back by whoever it was made for. *)
Lemma made_reference_valid user file created_at now ref : make_file_reference hmac_sha256 user file created_at = Ok ref ->
  starts_with PLACEHOLDER_FILE_REF_ID_BYTES ref = false ->
  is_file_ref_valid hmac_sha256 expire now ref user file = Ok (bool_decide (now / 60 <= created_at + expire), false).
Proof using hmac_32.
  unfold make_file_reference. intros H Hp. inv_ok H.
  destruct (int_write_fits _ _ _ E) as (Hf & Hl & Hb). unfold is_file_ref_valid. rewrite Hp.
  assert (length (a ++ hmac_sha256 (a0 ++ a1 ++ a)) = 36%nat) as Hlen by (rewrite length_app, hmac_32, Hl; reflexivity).
  rewrite bool_decide_eq_false_2 by (rewrite Hlen; lia). cbn [andb]. rewrite bool_decide_eq_false_2 by (rewrite Hlen; lia).
  rewrite take_app_exact, drop_app_exact by (by rewrite Hl). rewrite read_bytes_exact by done.
  assert (from_bytes_le true a = created_at) as -> by (apply (from_to_bytes_le 4); [lia|exact E]). cbn.
  destruct (created_at + expire <? now / 60) eqn:En; b2p.
  - rewrite bool_decide_eq_false_2 by lia. done.
  - rewrite E0, E1. cbn. rewrite bool_decide_eq_false_2 by (by intros []). by rewrite bool_decide_eq_true_2.
Qed.
End Facts.

(** File references and the clock. A reference that is sent at second [now] and given back by the same user for the same file is valid
    exactly as long as the minutes of the time do not exceed [now] plus the configured number of minutes: the
    reference holds seconds, which are compared with minutes. So it stays valid for at least 1600 years after any time from the year 2000 on,
    whatever the (non-negative) number of minutes; and from the second 2^31 (in 2038) on no reference can be made at all. *)
Theorem file_reference_lifetime hmac_sha256 expire now file ctx :
  (forall m, length (hmac_sha256 m) = 32%nat) -> 0 <= expire -> 946684800 <= now ->
  fits 8 true (ctx_user ctx) = true -> fits 8 true file = true ->
  (2 ^ 31 <= now -> file_fill_file_reference_calc hmac_sha256 now (MkFileRef file 0) ctx = Raise OverflowError) /\
  (now < 2 ^ 31 -> exists ref, file_fill_file_reference_calc hmac_sha256 now (MkFileRef file 0) ctx = Ok ref /\
     forall later, (later <= now + 1600 * 31536000 -> is_file_ref_valid hmac_sha256 expire later ref (ctx_user ctx) file = Ok (true, false)) /\
       is_file_ref_valid hmac_sha256 expire later ref (ctx_user ctx) file = Ok (bool_decide (later / 60 <= now + expire), false)).
Proof.
  intros Hh He Hn Hu Hf. unfold file_fill_file_reference_calc. cbn [fr_created_at fr_file_id]. rewrite Z.eqb_refl. split.
  - intros Hbig. unfold make_file_reference, int_write, to_bytes_le, fits. cbn [SIZE BIT_SIZE].
    rewrite (proj2 (Z.ltb_ge now _)) by (cbn; lia). by rewrite andb_false_r.
  - intros Hsmall. assert (int_write Int now true = Ok (le_bytes 4 now)) as Ec.
    { unfold int_write, to_bytes_le, fits. cbn [SIZE BIT_SIZE]. rewrite (proj2 (Z.ltb_lt now _)) by (cbn; lia).
      rewrite (proj2 (Z.leb_le _ now)) by (cbn; lia). done. }
    assert (forall z, fits 8 true z = true -> int_write Long z true = Ok (le_bytes 8 z)) as Hw.
    { intros z Hz. unfold int_write, to_bytes_le. change (SIZE Long) with 8%nat. by rewrite Hz. }
    unfold make_file_reference. rewrite Ec, !Hw by done. eexists. split; [reflexivity|]. intros later.
    match goal with |- context [is_file_ref_valid _ _ _ ?r _ _] => set (ref := r) end.
    assert (is_file_ref_valid hmac_sha256 expire later ref (ctx_user ctx) file = Ok (bool_decide (later / 60 <= now + expire), false)) as E.
    { apply made_reference_valid; [done| |].
      - unfold make_file_reference. by rewrite Ec, !Hw.
      - unfold starts_with, ref. apply bool_decide_eq_false_2. intros Heq.
        rewrite take_app_exact in Heq by (by rewrite length_le_bytes). apply (f_equal le_val) in Heq.
        unfold PLACEHOLDER_FILE_REF_ID_BYTES in Heq. rewrite !le_val_bytes in Heq. rewrite Z.mod_small in Heq by lia.
        vm_compute in Heq. subst now. lia. }
    split; [|done]. intros Hl. rewrite E. f_equal. f_equal. apply bool_decide_eq_true_2. apply Z.div_le_upper_bound; lia.
Qed.

Lemma file_reference_lifetime_witness : exists ref,
  file_fill_file_reference_calc (fun _ => replicate 32 Byte.x00) 1760000000 (MkFileRef 5 0) (MkCtx 7 1 false) = Ok ref /\
  is_file_ref_valid (fun _ => replicate 32 Byte.x00) 240 (1760000000 + 1000 * 31536000) ref 7 5 = Ok (true, false).
Proof.
  destruct (file_reference_lifetime (fun _ => replicate 32 Byte.x00) 240 1760000000 5 (MkCtx 7 1 false)) as [_ H];
    [done|lia|lia|done|done|]. destruct (H ltac:(lia)) as (ref & E & H').
  exists ref. split; [exact E|]. apply (proj1 (H' _)). lia.
Defined.
