(* ===== verification/TlObject.v ===== *)
(** The TL object layer: the [serialize]/[deserialize] bodies that
    [tools/tl_gen.py] emits for every combinator of the schema, [TLObject.read]
    and [TLObject.write] ([piltover/tl/tl_object.py]), the hand-written
    containers of [piltover/tl/core_types.py], [SerializationUtils]
    ([piltover/tl/serialization_utils.py]) and the cache serializer of
    [piltover/cache.py].

    The schema itself (the generated [tl.all.objects]) and [gzip.decompress] are
    parameters. *)
From Stdlib Require Import Init.Byte.
From S2P Require Import Prelude PyBytes TlPrimitives.

(** ** The schema, as the generator parses it *)
Inductive elem_type :=
  | EInt (cls : int_class) | EDouble | EBool | EBytes | EString | EObject.

(** [TyFlags n] is a [#] field, [TyObject] a boxed type with several
    constructors and [TyExact id] one with a single constructor, whose class the
    generated code reads directly. *)
Inductive tltype :=
  | TyFlags (num : Z)
  | TyInt (cls : int_class) | TyDouble | TyBool | TyTrue | TyBytes | TyString
  | TyVector (e : elem_type)
  | TyObject
  | TyExact (id : Z).

(** [Field]: [f_flag] is [(flag_num, flag_bit)] of an optional field. *)
Record Field := MkField {
  f_name : string;
  f_flag : option (Z * Z);
  f_type : tltype;
}.

Record Combinator := MkCombinator { c_id : Z; c_fields : list Field }.

Definition is_vector (f : Field) : bool :=
  match f_type f with TyVector _ => true | _ => false end.
Definition is_flag (f : Field) : bool :=
  match f_type f with TyFlags _ => true | _ => false end.
Definition is_true_type (f : Field) : bool :=
  match f_type f with TyTrue => true | _ => false end.
Definition is_optional (f : Field) : bool := negb (is_flag f) && bool_decide (is_Some (f_flag f)).

(** ** Values: an object is its constructor id and the values of its slots;
    [VDyn] is a value kept with its own class, as the result of an RPC is. *)
#[warnings="-register-all"]
Inductive tlval :=
  | VNone
  | VInt (z : Z) | VFloat (x : float64) | VBool (b : bool) | VBytes (b : bytes) | VStr (s : pystr)
  | VInts (l : list Z) | VFloats (l : list float64) | VBools (l : list bool)
  | VBytess (l : list bytes) | VStrs (l : list pystr)
  | VObjs (l : list tlval)
  | VObj (id : Z) (slots : list tlval)
  | VDyn (t : tltype) (v : tlval).

Definition ID_Message : Z := 0x5bb8e511.
Definition ID_MsgContainer : Z := 0x73f1f8dc.
Definition ID_RpcResult : Z := 0xf35c6d01.
Definition ID_GzipPacked : Z := 0x3072cfa1.
Definition ID_FutureSalts : Z := 0xae500895.
Definition ID_FutureSalt : Z := 0x0949d9dc.
Definition ID_BoolTrue : Z := 0x997275b5.
Definition ID_BoolFalse : Z := 0xbc799737.

(** The ids that [all.py] maps to hand-written classes. *)
Definition core_ids : list Z :=
  [ID_Message; ID_MsgContainer; ID_RpcResult; ID_GzipPacked; ID_FutureSalts;
   ID_BoolTrue; ID_BoolFalse].

(** Python's truth of a slot *)
Definition truthy (v : tlval) : bool :=
  match v with
  | VNone => false
  | VInt z => negb (z =? 0)
  | VFloat x => negb ((float_bits x =? 0) || (float_bits x =? 2 ^ 63))
  | VBool b => b
  | VBytes l => match l with [] => false | _ => true end
  | VStr l => match l with [] => false | _ => true end
  | VInts l => match l with [] => false | _ => true end
  | VFloats l => match l with [] => false | _ => true end
  | VBools l => match l with [] => false | _ => true end
  | VBytess l => match l with [] => false | _ => true end
  | VStrs l => match l with [] => false | _ => true end
  | VObjs l => match l with [] => false | _ => true end
  | VObj _ _ | VDyn _ _ => true
  end.

Definition is_none (v : tlval) : bool := match v with VNone => true | _ => false end.

(** ** The emitted [serialize] *)

(** [fields_empty] and [fields_not_empty] of a shared flag *)
Definition slot_empty (f : Field) (v : tlval) : bool :=
  if is_true_type f then match v with VBool false => true | _ => false end else is_none v.
Definition slot_not_empty (f : Field) (v : tlval) : bool :=
  if is_true_type f then match v with VBool true => true | _ => false end else negb (is_none v).

Definition flag_group (fl : Z * Z) (all : list (Field * tlval)) : list (Field * tlval) :=
  filter (fun fv => f_flag fv.1 = Some fl) all.

Definition shared_flags_ok (all : list (Field * tlval)) : bool :=
  forallb (fun fv : Field * tlval =>
    match f_flag fv.1 with
    | None => true
    | Some fl =>
      let g := flag_group fl all in
      (length g <? 2)%nat || forallb (fun fv => slot_empty fv.1 fv.2) g
        || forallb (fun fv => slot_not_empty fv.1 fv.2) g
    end) all.

(** [if self.f: flags |= (1 << bit)], with [is not None] for scalar types *)
Definition contributes (f : Field) (v : tlval) : bool :=
  if is_vector f || is_true_type f then truthy v else negb (is_none v).

Definition flags_value (num : Z) (all : list (Field * tlval)) : Z :=
  foldr (fun (fv : Field * tlval) acc =>
    match f_flag fv.1 with
    | Some (n, bit) => if (n =? num) && contributes fv.1 fv.2
                       then Z.lor (Z.shiftl 1 bit) acc else acc
    | None => acc
    end) 0 all.

(** Whether an optional field that is not a [true] is written *)
Definition written (f : Field) (v : tlval) (all : list (Field * tlval)) : bool :=
  let shared := match f_flag f with
                | Some fl => (1 <? length (flag_group fl all))%nat
                | None => false
                end in
  if shared || negb (is_vector f) then negb (is_none v) else truthy v.

Fixpoint ser_fields (all : list (Field * tlval)) (fields : list Field)
    (todo : list (tlval * (tltype -> result bytes))) : result bytes :=
  match fields with
  | [] => Ok []
  | f :: fields =>
    match f_type f with
    | TyFlags num =>
      b ← int_write Int (flags_value num all) true;
      bs ← ser_fields all fields todo;
      Ok (b ++ bs)
    | ty =>
      match todo with
      | [] => Raise TypeError
      | (v, wr) :: todo =>
        b ← (if is_optional f
             then if is_true_type f then Ok []
                  else if written f v all then wr ty else Ok []
             else wr ty);
        bs ← ser_fields all fields todo;
        Ok (b ++ bs)
      end
    end
  end.

Definition slot_fields (fields : list Field) : list Field :=
  filter (fun f => is_flag f = false) fields.

Definition serialize_body (fields : list Field) (slots : list tlval)
    (writers : list (tltype -> result bytes)) : result bytes :=
  let all := zip (slot_fields fields) slots in
  if negb (shared_flags_ok all) then Raise ValueError
  else ser_fields all fields (zip slots writers).

(** ** The emitted [deserialize] *)
Definition flag_env : Type := list (Z * Z).

Fixpoint env_get (env : flag_env) (num : Z) : option Z :=
  match env with
  | [] => None
  | (n, v) :: env => if n =? num then Some v else env_get env num
  end.

(** [(flags & (1 << bit)) == (1 << bit)] *)
Definition flag_test (env : flag_env) (fl : Z * Z) : result bool :=
  match env_get env fl.1 with
  | None => Raise NameError
  | Some flags => Ok (Z.land flags (Z.shiftl 1 fl.2) =? Z.shiftl 1 fl.2)
  end.

Fixpoint deser_fields (rd : tltype -> reader tlval) (env : flag_env)
    (fields : list Field) : reader (list tlval) :=
  match fields with
  | [] => mret []
  | f :: fields =>
    match f_type f with
    | TyFlags num =>
      flags ← int_read Int true; deser_fields rd ((num, flags) :: env) fields
    | ty =>
      v ← (match f_flag f with
           | None => rd ty
           | Some fl =>
             set ← reader_lift (flag_test env fl);
             if is_true_type f then mret (VBool set)
             else if (set : bool) then rd ty else mret VNone
           end);
      vs ← deser_fields rd env fields;
      mret (v :: vs)
    end
  end.

(** ** [TLObject.write], [TLObject.read] and the core types *)
Section Objects.
(** [tl.all.objects] without the core types *)
Variable objects : Z -> option Combinator.
Variable decompress : bytes -> result bytes.

(** Vectors of base types, by their emitted [XVector] class *)
Definition base_vector_write (e : elem_type) (v : tlval) : result bytes :=
  match e, v with
  | EInt Int, VInts l => p_write IntVector l
  | EInt Long, VInts l => p_write LongVector l
  | EInt cls, VInts l => p_write (VectorPrim (IntPrim cls)) l
  | EDouble, VFloats l => p_write FloatVector l
  | EBool, VBools l => p_write BoolVector l
  | EBytes, VBytess l => p_write BytesVector l
  | EString, VStrs l => p_write StringVector l
  | _, _ => Raise TypeError
  end.

Definition base_vector_read (e : elem_type) : reader tlval :=
  match e with
  | EInt Int => l ← p_read IntVector; mret (VInts l)
  | EInt Long => l ← p_read LongVector; mret (VInts l)
  | EInt cls => l ← p_read (VectorPrim (IntPrim cls)); mret (VInts l)
  | EDouble => l ← p_read FloatVector; mret (VFloats l)
  | EBool => l ← p_read BoolVector; mret (VBools l)
  | EBytes => l ← p_read BytesVector; mret (VBytess l)
  | EString => l ← p_read StringVector; mret (VStrs l)
  | EObject => fun _ => Raise TypeError
  end.

Fixpoint value_write (v : tlval) (t : tltype) {struct v} : result bytes :=
  match v with
  | VInt z => match t with TyInt cls => int_write cls z true | _ => Raise TypeError end
  | VFloat x => match t with TyDouble => float_write x | _ => Raise TypeError end
  | VBool b => match t with TyBool | TyTrue => bool_write b | _ => Raise TypeError end
  | VBytes b => match t with TyBytes => bytes_write b | _ => Raise TypeError end
  | VStr s => match t with TyString => string_write s | _ => Raise TypeError end
  | VObjs l =>
    match t with
    | TyVector EObject =>
      h ← header (Z.of_nat (length l));
      bss ← mapM (fun o => value_write o TyObject) l;
      Ok (h ++ concat bss)
    | _ => Raise TypeError
    end
  | VDyn _ _ => Raise TypeError
  | VObj id slots =>
    let ws := map value_write slots in
    match t with
    | TyObject | TyExact _ =>
      if decide (id = ID_Message) then
        match slots, ws with
        | [VInt mid; VInt seq; _], [_; _; w] =>
          body ← w TyObject;
          a ← int_write Long mid true; b ← int_write Int seq true;
          c ← int_write Int (Z.of_nat (length body)) true;
          Ok (a ++ b ++ c ++ body)
        | _, _ => Raise TypeError
        end
      else
      h ← int_write Int id false;
      if decide (id = ID_MsgContainer) then
        match slots with
        | [VObjs ms] =>
          n ← int_write Int (Z.of_nat (length ms)) true;
          bss ← mapM (fun o => value_write o (TyExact ID_Message)) ms;
          Ok (h ++ n ++ concat bss)
        | _ => Raise TypeError
        end
      else if decide (id = ID_RpcResult) then
        match slots, ws with
        | [VInt req; VDyn t' v'], _ =>
          a ← int_write Long req true; b ← value_write v' t'; Ok (h ++ a ++ b)
        | [VInt req; _], [_; w] =>
          a ← int_write Long req true; b ← w TyObject; Ok (h ++ a ++ b)
        | _, _ => Raise TypeError
        end
      else if decide (id = ID_FutureSalts) then
        match slots with
        | [VInt req; VInt now; VObjs salts] =>
          a ← int_write Long req true; b ← int_write Int now true;
          c ← int_write Int (Z.of_nat (length salts)) true;
          bss ← mapM (fun o =>
            match o, objects ID_FutureSalt with
            | VObj _ sl, Some c => serialize_body (c_fields c) sl (map value_write sl)
            | _, _ => Raise TypeError
            end) salts;
          Ok (h ++ a ++ b ++ c ++ concat bss)
        | _ => Raise TypeError
        end
      else if decide (id = ID_GzipPacked) then
        match slots with
        | [VBytes p] => b ← bytes_write p; Ok (h ++ b)
        | _ => Raise TypeError
        end
      else
        match objects id with
        | None => Raise TypeError
        | Some c => b ← serialize_body (c_fields c) slots ws; Ok (h ++ b)
        end
    | _ => Raise TypeError
    end
  | _ => match t with TyVector e => base_vector_write e v | _ => Raise TypeError end
  end.

(** [TLObject.write] *)
Definition object_write (v : tlval) : result bytes :=
  match v with VObj _ _ => value_write v TyObject | _ => Raise TypeError end.

(** [raise X(constructor, stream.read())] *)
Definition fail_with (mk : bytes -> exn) {A} : reader A := fun s => Raise (mk s).

(** [stream.read(length)] read as a stream of its own; what the inner reader
    leaves is dropped. *)
Definition sub_stream {A} (n : Z) (r : reader A) : reader A :=
  data ← bio_read n;
  reader_lift (fst <$> r data).

Section Step.
(** [rd] reads the values nested in an object. *)
Variable rd : tltype -> reader tlval.

(** [Message.deserialize] *)
Definition message_deserialize : reader tlval :=
  msg_id ← int_read Long true;
  seq_no ← int_read Int true;
  length ← int_read Int true;
  body ← sub_stream length (rd TyObject);
  mret (VObj ID_Message [VInt msg_id; VInt seq_no; body]).

(** [MsgContainer.deserialize] *)
Definition msg_container_deserialize : reader tlval :=
  count ← int_read Int true;
  result ← read_many message_deserialize (Z.to_nat count);
  mret (VObj ID_MsgContainer [VObjs result]).

(** [RpcResult.deserialize] *)
Definition rpc_result_deserialize : reader tlval :=
  req_msg_id ← int_read Long true;
  result ← rd TyObject;
  mret (VObj ID_RpcResult [VInt req_msg_id; result]).

(** [GzipPacked.deserialize]: the object that was packed *)
Definition gzip_packed_deserialize : reader tlval :=
  packed_data ← bytes_read;
  data ← reader_lift (decompress packed_data);
  reader_lift (fst <$> rd TyObject data).

(** [FutureSalts.deserialize]: bare [FutureSalt]s *)
Definition future_salts_deserialize : reader tlval :=
  req_msg_id ← int_read Long true;
  now ← int_read Int true;
  count ← int_read Int true;
  salts ← read_many (match objects ID_FutureSalt with
                     | None => reader_lift (Raise NameError)
                     | Some c => vs ← deser_fields rd [] (c_fields c);
                                 mret (VObj ID_FutureSalt vs)
                     end) (Z.to_nat count);
  mret (VObj ID_FutureSalts [VInt req_msg_id; VInt now; VObjs salts]).

(** [objects[constructor].deserialize] *)
Definition deserialize (constructor : Z) : reader tlval :=
  if decide (constructor = ID_Message) then message_deserialize
  else if decide (constructor = ID_MsgContainer) then msg_container_deserialize
  else if decide (constructor = ID_RpcResult) then rpc_result_deserialize
  else if decide (constructor = ID_GzipPacked) then gzip_packed_deserialize
  else if decide (constructor = ID_FutureSalts) then future_salts_deserialize
  else if decide (constructor = ID_BoolTrue) then mret (VDyn TyBool (VBool true))
  else if decide (constructor = ID_BoolFalse) then mret (VDyn TyBool (VBool false))
  else match objects constructor with
  | None => fail_with (UnknownConstructor constructor)
  | Some c => vs ← deser_fields rd [] (c_fields c); mret (VObj constructor vs)
  end.

(** [TLObject.read], called on [TLObject] itself *)
Definition read_any : reader tlval :=
  constructor ← int_read Int false; deserialize constructor.

(** [X.read] for a single class: another constructor is refused. *)
Definition read_exact (id : Z) : reader tlval :=
  constructor ← int_read Int false;
  if decide (constructor = id) then deserialize constructor
  else fail_with (InvalidConstructor constructor).
End Step.

Fixpoint value_read (fuel : nat) (t : tltype) {struct fuel} : reader tlval :=
  match fuel with
  | O => fun _ => Raise OutOfFuel
  | S fuel =>
    match t with
    | TyFlags _ => fun _ => Raise TypeError
    | TyInt cls => z ← int_read cls true; mret (VInt z)
    | TyDouble => x ← float_read; mret (VFloat x)
    | TyBool | TyTrue => b ← bool_read; mret (VBool b)
    | TyBytes => b ← bytes_read; mret (VBytes b)
    | TyString => s ← string_read; mret (VStr s)
    | TyVector EObject =>
      count ← read_header;
      l ← read_many (read_any (value_read fuel)) (Z.to_nat count);
      mret (VObjs l)
    | TyVector e => base_vector_read e
    | TyObject => read_any (value_read fuel)
    | TyExact id => read_exact (value_read fuel) id
    end
  end.
End Objects.
