(* ===== verification/TlRoundtrip.v ===== *)
(** The round trip of the TL object layer: which values [TlObject.value_write]
    and [TlObject.value_read] invert, for every schema whose combinators are
    well formed. *)
From Stdlib Require Import Init.Byte.
From S2P Require Import Prelude PyBytes TlPrimitives TlObject.

(** ** Well-formed combinators: a conditional field names a bit of a flags
    field that was read before it *)
Fixpoint fields_wf (seen : list Z) (fields : list Field) : bool :=
  match fields with
  | [] => true
  | f :: fields =>
    match f_type f with
    | TyFlags num => fields_wf (num :: seen) fields
    | _ =>
      match f_flag f with
      | None => true
      | Some (n, bit) => bool_decide (n ∈ seen) && (0 <=? bit)
      end && fields_wf seen fields
    end
  end.

Definition slot_wt (f : Field) (v : tlval) (wt_v : tltype -> bool) : bool :=
  match f_flag f with
  | None => wt_v (f_type f)
  | Some _ =>
    if is_true_type f then match v with VBool _ => true | _ => false end
    else is_none v || (wt_v (f_type f) && (negb (is_vector f) || truthy v))
  end.

Fixpoint slots_wt (fields : list Field) (todo : list (tlval * (tltype -> bool))) : bool :=
  match fields, todo with
  | [], [] => true
  | f :: fields, (v, w) :: todo => slot_wt f v w && slots_wt fields todo
  | _, _ => false
  end.

Section WellTyped.
Variable objects : Z -> option Combinator.

(** The values that an object of type [t] has when it was read: an optional
    vector is absent or not empty, a gzip-packed object is gone. *)
Fixpoint wt (v : tlval) (t : tltype) {struct v} : bool :=
  match v with
  | VInt _ => match t with TyInt cls => bool_decide (cls <> BigInt) | _ => false end
  | VFloat _ => match t with TyDouble => true | _ => false end
  | VBool _ => match t with TyBool | TyTrue => true | _ => false end
  | VBytes _ => match t with TyBytes => true | _ => false end
  | VStr _ => match t with TyString => true | _ => false end
  | VInts _ => match t with TyVector (EInt cls) => bool_decide (cls <> BigInt) | _ => false end
  | VFloats _ => match t with TyVector EDouble => true | _ => false end
  | VBools _ => match t with TyVector EBool => true | _ => false end
  | VBytess _ => match t with TyVector EBytes => true | _ => false end
  | VStrs _ => match t with TyVector EString => true | _ => false end
  | VObjs l => match t with TyVector EObject => forallb (fun o => wt o TyObject) l | _ => false end
  | VNone | VDyn _ _ => false
  | VObj id slots =>
    let ws := map wt slots in
    match t with TyObject => true | TyExact id' => id =? id' | _ => false end &&
    if decide (id = ID_Message) then false
    else if decide (id = ID_MsgContainer) then
      match slots with
      | [VObjs ms] => forallb (fun m =>
          match m with
          | VObj i sl =>
            let wsl := map wt sl in
            (i =? ID_Message) &&
            match sl, wsl with
            | [VInt _; VInt _; _], [_; _; w] => w TyObject
            | _, _ => false
            end
          | _ => false
          end) ms
      | _ => false
      end
    else if decide (id = ID_RpcResult) then
      match slots, ws with
      | [VInt _; VDyn t' v'], _ =>
        match t', v' with TyBool, VBool _ => true | _, _ => false end
      | [VInt _; _], [_; w] => w TyObject
      | _, _ => false
      end
    else if decide (id = ID_GzipPacked) then false
    else if decide (id = ID_FutureSalts) then
      match slots with
      | [VInt _; VInt _; VObjs salts] => forallb (fun o =>
          match o, objects ID_FutureSalt with
          | VObj i sl, Some c =>
            (i =? ID_FutureSalt) && fields_wf [] (c_fields c) &&
            slots_wt (slot_fields (c_fields c)) (zip sl (map wt sl))
          | _, _ => false
          end) salts
      | _ => false
      end
    else if decide (id ∈ core_ids) then false
    else
      match objects id with
      | None => false
      | Some c => fields_wf [] (c_fields c) &&
                  slots_wt (slot_fields (c_fields c)) (zip slots ws)
      end
  end.
End WellTyped.

(** How deep objects nest in a value: the fuel that reading it back needs *)
Fixpoint depth (v : tlval) : nat :=
  match v with
  | VObjs l => S (max_list (map depth l))
  | VObj _ slots => S (max_list (map depth slots))
  | VDyn _ v => S (depth v)
  | _ => 1
  end.

(** ** Flags *)
Lemma testbit_shiftl1 bit i : 0 <= bit -> 0 <= i ->
  Z.testbit (Z.shiftl 1 bit) i = bool_decide (i = bit).
Proof.
  intros Hb Hi. rewrite Z.shiftl_spec by done. case_bool_decide as He.
  - by rewrite He, Z.sub_diag.
  - destruct (decide (i < bit)); [by apply Z.testbit_neg_r; lia|].
    apply (Z.pow2_bits_false 0 (i - bit)). lia.
Qed.

Lemma flag_test_testbit env n bit flags :
  env_get env n = Some flags -> 0 <= bit ->
  flag_test env (n, bit) = Ok (Z.testbit flags bit).
Proof.
  intros He Hb. unfold flag_test. cbn [fst snd]. rewrite He. f_equal.
  apply eq_true_iff_eq. rewrite Z.eqb_eq. split.
  - intros H. apply (f_equal (fun z => Z.testbit z bit)) in H.
    rewrite Z.land_spec, Z.shiftl_spec, Z.sub_diag in H by done.
    by rewrite andb_true_r in H.
  - intros H. apply Z.bits_inj'. intros i Hi.
    rewrite Z.land_spec. destruct (decide (i = bit)) as [->|Hne].
    + by rewrite H.
    + by rewrite testbit_shiftl1, bool_decide_false, andb_false_r.
Qed.

Lemma flags_value_nonneg num all : 0 <= flags_value num all.
Proof.
  induction all as [|[f v] all IH]; cbn; [done|].
  destruct (f_flag f) as [[n bit]|]; [|done]. case_match; [|done].
  apply Z.lor_nonneg. split; [|done]. by apply Z.shiftl_nonneg.
Qed.

(** A bit of the flags word is set when some field of its group contributes. *)
Lemma testbit_flags_value n bit all :
  (forall f v m b, (f, v) ∈ all -> f_flag f = Some (m, b) -> 0 <= b) -> 0 <= bit ->
  Z.testbit (flags_value n all) bit =
  existsb (fun fv => contributes fv.1 fv.2) (flag_group (n, bit) all).
Proof.
  intros Hall Hb. induction all as [|[f v] all IH]; [by rewrite Z.bits_0|].
  unfold flag_group. rewrite filter_cons. cbn [flags_value foldr fst snd].
  fold (flags_value n all). fold (flag_group (n, bit) all).
  assert (IH' := IH ltac:(intros; eapply Hall; [by right|done])).
  destruct (f_flag f) as [[m b]|] eqn:Ef.
  - pose proof (Hall f v m b ltac:(left) Ef).
    destruct (m =? n) eqn:Em; b2p; subst; cbn [andb].
    + destruct (decide (Some (n, b) = Some (n, bit))) as [[= ->]|Hne].
      * cbn [existsb fst snd]. destruct (contributes f v); [|done].
        rewrite Z.lor_spec, testbit_shiftl1, bool_decide_true by done. done.
      * destruct (contributes f v); [|done].
        rewrite Z.lor_spec, testbit_shiftl1, bool_decide_false by (done || congruence). done.
    + rewrite decide_False by congruence. done.
  - rewrite decide_False by done. done.
Qed.

Definition slot_shape (f : Field) (v : tlval) : bool :=
  match f_flag f with
  | None => true
  | Some _ =>
    if is_true_type f then match v with VBool _ => true | _ => false end
    else is_none v || negb (is_vector f) || truthy v
  end.

Lemma slot_wt_shape f v w : slot_wt f v w = true -> slot_shape f v = true.
Proof.
  unfold slot_wt, slot_shape. repeat case_match; try done. destruct (is_none v); [done|].
  intros [_ Hv]%andb_prop. exact Hv.
Qed.

Lemma slot_shape_contributes f v fl : f_flag f = Some fl -> slot_shape f v = true ->
  slot_empty f v = negb (contributes f v) /\ slot_not_empty f v = contributes f v.
Proof.
  intros Hf. unfold slot_shape, slot_empty, slot_not_empty, contributes. rewrite Hf.
  destruct (is_true_type f); [rewrite orb_true_r; destruct v; try done; by destruct b|].
  rewrite orb_false_r. destruct (is_vector f); cbn [negb]; [|by rewrite negb_involutive].
  rewrite orb_false_r. intros Hs. destruct v; try done; cbn in *; rewrite Hs; done.
Qed.

Lemma slot_shape_written f v all fl : f_flag f = Some fl -> is_true_type f = false ->
  slot_shape f v = true -> written f v all = contributes f v.
Proof.
  intros Hf Ht. unfold slot_shape, written, contributes. rewrite Hf, Ht, orb_false_r.
  destruct (is_vector f); cbn [negb]; [|by rewrite !orb_true_r].
  rewrite !orb_false_r. case_match; [|done].
  intros Hs. destruct v; try done; cbn in *; rewrite Hs; done.
Qed.

(** The bit of an optional field is set exactly when the field has a value. *)
Lemma slot_bit f v n bit all :
  (forall f v m b, (f, v) ∈ all -> f_flag f = Some (m, b) -> 0 <= b) ->
  (forall f v, (f, v) ∈ all -> slot_shape f v = true) ->
  shared_flags_ok all = true -> (f, v) ∈ all -> f_flag f = Some (n, bit) ->
  Z.testbit (flags_value n all) bit = contributes f v.
Proof.
  intros Hbits Hshape Hsh Hin Hf.
  rewrite testbit_flags_value by eauto.
  assert (Hg : (f, v) ∈ flag_group (n, bit) all) by (by apply list_elem_of_filter).
  assert (Hgs : forall fv, fv ∈ flag_group (n, bit) all ->
    slot_empty fv.1 fv.2 = negb (contributes fv.1 fv.2) /\
    slot_not_empty fv.1 fv.2 = contributes fv.1 fv.2).
  { intros [f' v'] [Hf' Hin']%list_elem_of_filter. eapply slot_shape_contributes; eauto. }
  unfold shared_flags_ok in Hsh. rewrite forallb_forall in Hsh.
  specialize (Hsh (f, v) (proj1 (list_elem_of_In _ _) Hin)). cbn [fst] in Hsh.
  rewrite Hf in Hsh. apply orb_prop in Hsh as [[Hl|He]%orb_prop|Hn].
  - b2p. destruct (flag_group (n, bit) all) as [|x [|]]; cbn in Hl; [by apply elem_of_nil in Hg| |lia].
    apply list_elem_of_singleton in Hg as <-. cbn. by rewrite orb_false_r.
  - rewrite forallb_forall in He.
    assert (Hc : forall fv, fv ∈ flag_group (n, bit) all -> contributes fv.1 fv.2 = false).
    { intros fv Hfv. apply negb_true_iff. rewrite <- (proj1 (Hgs fv Hfv)).
      by apply He, list_elem_of_In. }
    rewrite (Hc _ Hg : contributes f v = false). apply not_true_iff_false. intros (fv & Hfv & Ht)%existsb_exists.
    apply list_elem_of_In, Hc in Hfv. congruence.
  - rewrite forallb_forall in Hn.
    assert (contributes f v = true) as ->.
    { rewrite <- (proj2 (Hgs _ Hg) : _ = contributes f v). by apply (Hn (f, v)), list_elem_of_In. }
    apply existsb_exists. exists (f, v). split; [by apply list_elem_of_In|]. cbn [fst snd].
    rewrite <- (proj2 (Hgs _ Hg) : _ = contributes f v). by apply (Hn (f, v)), list_elem_of_In.
Qed.

(** ** Fields *)

(** What reading back one slot relies on *)
Definition slot_read (rd : tltype -> reader tlval) (all : list (Field * tlval))
    (f : Field) (vw : tlval * (tltype -> result bytes)) : Prop :=
  let reads := forall b rest, vw.2 (f_type f) = Ok b -> rd (f_type f) (b ++ rest) = Ok (vw.1, rest) in
  match f_flag f with
  | None => reads
  | Some (n, bit) =>
    let set := Z.testbit (flags_value n all) bit in
    if is_true_type f then vw.1 = VBool set
    else written f vw.1 all = set /\ if set then reads else vw.1 = VNone
  end.

Definition env_ok (all : list (Field * tlval)) (seen : list Z) (env : flag_env) : Prop :=
  forall n, n ∈ seen -> env_get env n = Some (flags_value n all).

Lemma env_ok_cons all seen env num : env_ok all seen env ->
  env_ok all (num :: seen) ((num, flags_value num all) :: env).
Proof.
  intros He n Hn. cbn. destruct (num =? n) eqn:E; b2p; [by subst|].
  apply He. apply elem_of_cons in Hn as [?|?]; [congruence|done].
Qed.

Definition is_none_flag (f : Field) : bool :=
  match f_flag f with None => true | _ => false end.

Lemma ser_fields_slot all f fields v wr todo : is_flag f = false ->
  ser_fields all (f :: fields) ((v, wr) :: todo) =
  (b ← (if is_none_flag f then wr (f_type f)
        else if is_true_type f then Ok []
        else if written f v all then wr (f_type f) else Ok []);
   bs ← ser_fields all fields todo;
   Ok (b ++ bs)).
Proof.
  intros Hf. cbn [ser_fields].
  assert (is_optional f = negb (is_none_flag f)) as ->.
  { unfold is_optional, is_none_flag. rewrite Hf. cbn. destruct (f_flag f); [|done].
    by rewrite bool_decide_true by eauto. }
  unfold is_flag in Hf. destruct (f_type f) eqn:Ht; try done; by destruct (is_none_flag f).
Qed.

Lemma deser_fields_slot rd env f fields : is_flag f = false ->
  deser_fields rd env (f :: fields) =
  (v ← (match f_flag f with
        | None => rd (f_type f)
        | Some fl =>
          set ← reader_lift (flag_test env fl);
          if is_true_type f then mret (VBool set)
          else if (set : bool) then rd (f_type f) else mret VNone
        end);
   vs ← deser_fields rd env fields;
   mret (v :: vs)).
Proof. unfold is_flag. intros Hf. cbn [deser_fields]. destruct (f_type f); done. Qed.

Lemma fields_wf_slot seen f fields : is_flag f = false ->
  fields_wf seen (f :: fields) =
  match f_flag f with None => true | Some (n, bit) => bool_decide (n ∈ seen) && (0 <=? bit) end
  && fields_wf seen fields.
Proof. unfold is_flag. intros Hf. cbn [fields_wf]. destruct (f_type f); done. Qed.

Lemma deser_ser_fields rd all fields seen env todo bs rest :
  fields_wf seen fields = true -> env_ok all seen env ->
  Forall2 (slot_read rd all) (slot_fields fields) todo ->
  ser_fields all fields todo = Ok bs ->
  deser_fields rd env fields (bs ++ rest) = Ok (map fst todo, rest).
Proof.
  revert seen env todo bs. induction fields as [|f fields IH]; intros seen env todo bs Hwf He Hs Hw.
  { cbn in Hw, Hs. apply Ok_inj in Hw as <-. by apply Forall2_nil_inv_l in Hs as ->. }
  unfold slot_fields in Hs. rewrite filter_cons in Hs. destruct (decide (is_flag f = false)) as [Hf|Hf].
  - apply Forall2_cons_inv_l in Hs as ([v wr] & todo' & Hsl & Hs & ->).
    rewrite ser_fields_slot in Hw by done. rewrite fields_wf_slot in Hwf by done.
    apply andb_prop in Hwf as [Hff Hwf]. rewrite deser_fields_slot by done.
    apply result_bind_ok in Hw as (b & Hb & Hw). apply result_bind_ok in Hw as (bs' & Hbs & Hw).
    apply Ok_inj in Hw as <-. rewrite <- app_assoc.
    rewrite (reader_bind_step _ _ _ v (bs' ++ rest)).
    { by rewrite (reader_bind_step _ _ _ _ _ (IH _ _ _ _ Hwf He Hs Hbs)). }
    unfold slot_read in Hsl. unfold is_none_flag in Hb. cbn [fst snd] in *.
    destruct (f_flag f) as [[n bit]|] eqn:Efl; [|by apply Hsl].
    b2p. rewrite (reader_bind_step _ _ _ (Z.testbit (flags_value n all) bit) (b ++ bs' ++ rest)).
    2:{ unfold reader_lift. by rewrite (flag_test_testbit _ _ _ _ (He n ltac:(done))). }
    destruct (is_true_type f).
    { apply Ok_inj in Hb as <-. by subst v. }
    destruct Hsl as [Hwr Hsl]. rewrite Hwr in Hb. destruct (Z.testbit _ _); [by apply Hsl|].
    apply Ok_inj in Hb as <-. by subst v.
  - unfold is_flag in Hf. cbn [ser_fields deser_fields fields_wf] in *. destruct (f_type f) eqn:Et; try done.
    apply result_bind_ok in Hw as (b & Hb & Hw). apply result_bind_ok in Hw as (bs' & Hbs & Hw).
    apply Ok_inj in Hw as <-. rewrite <- app_assoc.
    rewrite (reader_bind_step _ _ _ (flags_value num all) (bs' ++ rest)) by (by apply int_read_write).
    eapply IH; eauto using env_ok_cons.
Qed.

Lemma zip_map_self {A B} (g : A -> B) (l : list A) :
  zip l (map g l) = map (fun x => (x, g x)) l.
Proof. induction l; cbn; f_equal; done. Qed.

Lemma Forall2_impl_zip {A B} (P Q : A -> B -> Prop) l k :
  Forall2 P l k -> (forall x y, (x, y) ∈ zip l k -> P x y -> Q x y) -> Forall2 Q l k.
Proof.
  induction 1 as [|x y l k Hxy Hl IH]; intros Hi; constructor.
  - apply Hi; [left|done].
  - apply IH. intros x' y' Hin. apply Hi. by right.
Qed.

Lemma Forall2_zip {A B} (P : A -> B -> Prop) l k x y :
  Forall2 P l k -> (x, y) ∈ zip l k -> P x y.
Proof.
  induction 1 as [|x' y' l k Hxy Hl IH]; cbn; [by intros ?%elem_of_nil|].
  intros [[= -> ->]|?]%elem_of_cons; auto.
Qed.

Lemma fields_wf_bits seen fields f m b :
  fields_wf seen fields = true -> f ∈ slot_fields fields -> f_flag f = Some (m, b) -> 0 <= b.
Proof.
  revert seen. induction fields as [|g fields IH]; intros seen Hwf Hin Hf.
  { by apply elem_of_nil in Hin. }
  unfold slot_fields in Hin. rewrite filter_cons in Hin.
  destruct (decide (is_flag g = false)) as [Hg|Hg].
  - rewrite fields_wf_slot in Hwf by done. apply andb_prop in Hwf as [Hh Hwf].
    apply elem_of_cons in Hin as [->|Hin]; [|by eapply IH]. rewrite Hf in Hh. by b2p.
  - unfold is_flag in Hg. cbn [fields_wf] in Hwf. destruct (f_type g); try done. by eapply IH.
Qed.

Lemma slots_wt_Forall2 (w : tlval -> tltype -> bool) fs vs :
  slots_wt fs (zip vs (map w vs)) = true -> Forall2 (fun f v => slot_wt f v (w v) = true) fs vs.
Proof.
  rewrite zip_map_self. revert vs. induction fs as [|f fs IH]; intros [|v vs] H; try done.
  cbn in H. apply andb_prop in H as [??]. constructor; auto.
Qed.

Lemma int_write_read_unsigned id h rest :
  int_write Int id false = Ok h -> int_read Int false (h ++ rest) = Ok (id, rest).
Proof. by apply int_read_write. Qed.

Lemma read_many_Forall2 {A} (r : reader A) l bss rest :
  Forall2 (fun x b => forall rest, r (b ++ rest) = Ok (x, rest)) l bss ->
  read_many r (length l) (concat bss ++ rest) = Ok (l, rest).
Proof.
  induction 1 as [|x b l bss Hx Hl IH]; [done|]. cbn [length read_many concat].
  rewrite <- app_assoc. rewrite (reader_bind_step _ _ _ x (concat bss ++ rest)) by done.
  by rewrite (reader_bind_step _ _ _ l rest).
Qed.

Lemma sub_stream_exact {A} (r : reader A) n bs rest v :
  n = Z.of_nat (length bs) -> r bs = Ok (v, []) -> sub_stream n r (bs ++ rest) = Ok (v, rest).
Proof.
  intros Hn Hr. unfold sub_stream. rewrite (reader_bind_step _ _ _ bs rest) by (by apply bio_read_app).
  by rewrite Hr.
Qed.

Section Main.
Variable objects : Z -> option Combinator.
Variable decompress : bytes -> result bytes.
Abbreviation vwrite := (value_write objects).
Abbreviation vread := (value_read objects decompress).
Abbreviation vwt := (wt objects).

(** [rd] reads back every well-typed value that satisfies [P]. *)
Definition inverts (rd : tltype -> reader tlval) (v : tlval) : Prop :=
  forall t b rest, vwt v t = true -> vwrite v t = Ok b -> rd t (b ++ rest) = Ok (v, rest).

Lemma serialize_body_read rd fields slots bs rest :
  fields_wf [] fields = true ->
  slots_wt (slot_fields fields) (zip slots (map vwt slots)) = true ->
  Forall (inverts rd) slots ->
  serialize_body fields slots (map vwrite slots) = Ok bs ->
  deser_fields rd [] fields (bs ++ rest) = Ok (slots, rest).
Proof.
  intros Hwf Hwt Hinv Hw. apply slots_wt_Forall2 in Hwt. unfold serialize_body in Hw.
  set (all := zip (slot_fields fields) slots) in *. destruct (shared_flags_ok all) eqn:Hsh; [|done].
  cbn [negb] in Hw. rewrite zip_map_self in Hw.
  replace slots with (map fst (map (fun v => (v, vwrite v)) slots))
    by (rewrite map_map; cbn; apply map_id).
  eapply deser_ser_fields; [done| |..|exact Hw]; [by intros ? ?%elem_of_nil|].
  assert (Hbits : forall f v m b, (f, v) ∈ all -> f_flag f = Some (m, b) -> 0 <= b).
  { intros f v m b Hin. eapply fields_wf_bits; [done|]. by apply elem_of_zip_l in Hin. }
  assert (Hshape : forall f v, (f, v) ∈ all -> slot_shape f v = true).
  { intros f v Hin. apply (slot_wt_shape f v (vwt v)).
    by apply (Forall2_zip _ _ _ _ _ Hwt). }
  apply Forall2_fmap_r. apply (Forall2_impl_zip _ _ _ _ Hwt). intros f v Hin Hsw.
  assert (Hv : inverts rd v).
  { rewrite Forall_forall in Hinv. apply Hinv. by apply elem_of_zip_r in Hin. }
  unfold slot_read, slot_wt in *. cbn [fst snd]. destruct (f_flag f) as [[n bit]|] eqn:Hf.
  2:{ intros b rest'. by apply Hv. }
  rewrite (slot_bit f v n bit all) by done. specialize (Hshape f v Hin).
  destruct (is_true_type f) eqn:Ht.
  { destruct v; try done. unfold contributes. rewrite Ht, orb_true_r. done. }
  split; [by apply (slot_shape_written f v all (n, bit))|].
  unfold contributes. rewrite Ht, orb_false_r.
  destruct (is_none v) eqn:Hn; [by destruct v, (is_vector f)|].
  apply andb_prop in Hsw as [Hwv Hvec].
  assert ((if is_vector f then truthy v else negb false) = true) as -> by (by destruct (is_vector f)).
  intros b rest'. by apply Hv.
Qed.

(** Steps over an integer that was written at the head of the stream. *)
Ltac step_int :=
  rewrite <- ?app_assoc;
  erewrite reader_bind_step by (apply int_read_write; [done|eassumption]).

Lemma message_read rd mid seq o b rest :
  inverts rd o -> vwt o TyObject = true ->
  vwrite (VObj ID_Message [VInt mid; VInt seq; o]) (TyExact ID_Message) = Ok b ->
  message_deserialize rd (b ++ rest) = Ok (VObj ID_Message [VInt mid; VInt seq; o], rest).
Proof.
  intros Hinv Hwt Hw. cbn [value_write map] in Hw. rewrite decide_True in Hw by done.
  apply result_bind_ok in Hw as (body & Hb & Hw). apply result_bind_ok in Hw as (x & Hx & Hw).
  apply result_bind_ok in Hw as (y & Hy & Hw). apply result_bind_ok in Hw as (z & Hz & Hw).
  apply Ok_inj in Hw as <-. unfold message_deserialize. do 3 step_int.
  rewrite (reader_bind_step _ _ _ o rest); [done|]. apply sub_stream_exact; [done|].
  specialize (Hinv _ _ [] Hwt Hb). by rewrite app_nil_r in Hinv.
Qed.

(** What an object's [write] adds in front of its body, and what
    [deserialize] makes of the body *)
Definition reads_back (rd : tltype -> reader tlval) (id : Z) (v : tlval) (bs : bytes) : Prop :=
  exists h b, bs = h ++ b /\ int_write Int id false = Ok h /\
    forall rest, deserialize objects decompress rd id (b ++ rest) = Ok (v, rest).

(** Reduces the [wt] and the [write] of an object with a known id. *)
Ltac pick H := repeat (rewrite decide_False in H by done); rewrite ?decide_True in H by done.
Ltac dispatch Hwt Hw h Hh :=
  cbn [wt value_write andb] in Hwt, Hw; pick Hwt; rewrite decide_False in Hw by done;
  apply result_bind_ok in Hw as (h & Hh & Hw); pick Hw.

Lemma container_read rd slots bs :
  (forall m, VObjs m ∈ slots -> forall i sl, VObj i sl ∈ m -> Forall (inverts rd) sl) ->
  vwt (VObj ID_MsgContainer slots) TyObject = true ->
  vwrite (VObj ID_MsgContainer slots) TyObject = Ok bs ->
  reads_back rd ID_MsgContainer (VObj ID_MsgContainer slots) bs.
Proof.
  intros Hinv Hwt Hw. dispatch Hwt Hw h Hh.
  destruct slots as [|[] [|]]; try done. rename l into ms.
  apply result_bind_ok in Hw as (n & Hn & Hw). apply result_bind_ok in Hw as (bss & Hbss & Hw).
  apply Ok_inj in Hw as <-. eexists h, _. split; [done|]. split; [done|]. intros rest.
  unfold deserialize. rewrite decide_False, decide_True by done.
  unfold msg_container_deserialize. step_int. rewrite Nat2Z.id.
  rewrite (reader_bind_step _ _ _ ms rest); [done|].
  apply read_many_Forall2. apply mapM_result_ok in Hbss.
  apply (Forall2_impl_zip _ _ _ _ Hbss). intros m b Hin Hm rest'.
  rewrite forallb_forall in Hwt. apply elem_of_zip_l in Hin.
  specialize (Hwt m (proj1 (list_elem_of_In _ _) Hin)).
  destruct m as [| | | | | | | | | | | |i sl|]; try done.
  apply andb_prop in Hwt as [Hi Hwt]. apply Z.eqb_eq in Hi as ->.
  destruct sl as [|[] [|[] [|o [|]]]]; try done.
  apply message_read; [|done|done].
  specialize (Hinv ms ltac:(left) _ _ Hin). rewrite !Forall_cons in Hinv. apply Hinv.
Qed.

Lemma bool_read_any rd b bs rest : bool_write b = Ok bs ->
  read_any objects decompress rd (bs ++ rest) = Ok (VDyn TyBool (VBool b), rest).
Proof. intros Hw. apply Ok_inj in Hw as <-. by destruct b. Qed.

Lemma rpc_result_read rd slots bs :
  Forall (inverts rd) slots ->
  (forall rest v b, v ∈ slots -> vwt v TyObject = true -> vwrite v TyObject = Ok b ->
     rd TyObject (b ++ rest) = Ok (v, rest)) ->
  (forall v bs rest, bool_write v = Ok bs ->
     rd TyObject (bs ++ rest) = Ok (VDyn TyBool (VBool v), rest)) ->
  vwt (VObj ID_RpcResult slots) TyObject = true ->
  vwrite (VObj ID_RpcResult slots) TyObject = Ok bs ->
  reads_back rd ID_RpcResult (VObj ID_RpcResult slots) bs.
Proof.
  intros Hinv Hobj Hbool Hwt Hw. dispatch Hwt Hw h Hh.
  destruct slots as [|[] [|o [|]]]; try done; try (by destruct o).
  assert (exists a b, int_write Long z true = Ok a /\ bs = h ++ a ++ b /\
    forall rest, rd TyObject (b ++ rest) = Ok (o, rest)) as (a & b & Ha & -> & Hb).
  { destruct o; try (cbn [map] in Hwt, Hw; done);
      apply result_bind_ok in Hw as (a & Ha & Hw); apply result_bind_ok in Hw as (b & Hb & Hw);
      apply Ok_inj in Hw as <-; exists a, b; (split; [done|split; [done|]]); intros rest.
    - apply Hobj; [right; left|done|done].
    - destruct t, o; try done. cbn [value_write] in Hb. by apply Hbool. }
  eexists h, _. split; [done|]. split; [done|]. intros rest.
  unfold deserialize. repeat rewrite decide_False by done. rewrite decide_True by done.
  unfold rpc_result_deserialize. step_int. by rewrite (reader_bind_step _ _ _ _ _ (Hb rest)).
Qed.

Lemma future_salts_read rd slots bs :
  (forall m, VObjs m ∈ slots -> forall i sl, VObj i sl ∈ m -> Forall (inverts rd) sl) ->
  vwt (VObj ID_FutureSalts slots) TyObject = true ->
  vwrite (VObj ID_FutureSalts slots) TyObject = Ok bs ->
  reads_back rd ID_FutureSalts (VObj ID_FutureSalts slots) bs.
Proof.
  intros Hinv Hwt Hw. dispatch Hwt Hw h Hh.
  destruct slots as [|[] [|[] [|[] [|]]]]; try done.
  apply result_bind_ok in Hw as (a & Ha & Hw). apply result_bind_ok in Hw as (b & Hb & Hw).
  apply result_bind_ok in Hw as (c & Hc & Hw). apply result_bind_ok in Hw as (bss & Hbss & Hw).
  apply Ok_inj in Hw as <-. eexists h, _. split; [done|]. split; [done|]. intros rest.
  unfold deserialize. repeat rewrite decide_False by done. rewrite decide_True by done.
  unfold future_salts_deserialize. do 3 step_int. rewrite Nat2Z.id.
  rewrite (reader_bind_step _ _ _ l rest); [done|].
  apply read_many_Forall2. apply mapM_result_ok in Hbss.
  apply (Forall2_impl_zip _ _ _ _ Hbss). intros m d Hin Hm rest'.
  rewrite forallb_forall in Hwt. apply elem_of_zip_l in Hin.
  specialize (Hwt m (proj1 (list_elem_of_In _ _) Hin)).
  destruct m as [| | | | | | | | | | | |i sl|]; try done.
  destruct (objects ID_FutureSalt) as [cmb|]; [|done].
  apply andb_prop in Hwt as [[Hi Hwf]%andb_prop Hwt]. apply Z.eqb_eq in Hi as ->.
  assert (Hsl : Forall (inverts rd) sl) by (eapply Hinv; [right; right; left|done]).
  by rewrite (reader_bind_step _ _ _ _ _ (serialize_body_read _ _ _ _ rest' Hwf Hwt Hsl Hm)).
Qed.

Lemma plain_read rd id slots bs :
  id ∉ core_ids -> Forall (inverts rd) slots ->
  vwt (VObj id slots) TyObject = true ->
  vwrite (VObj id slots) TyObject = Ok bs ->
  reads_back rd id (VObj id slots) bs.
Proof.
  intros Hid Hinv Hwt Hw. cbn [wt value_write andb] in Hwt, Hw.
  pose proof Hid as Hcore. unfold core_ids in Hid.
  rewrite !not_elem_of_cons in Hid. destruct Hid as (H1 & H2 & H3 & H4 & H5 & H6 & H7 & _).
  rewrite decide_False in Hw by done.
  apply result_bind_ok in Hw as (h & Hh & Hw). rewrite !decide_False in Hw by done.
  rewrite (decide_False (P := id = ID_Message)) in Hwt by done.
  rewrite !(decide_False (P := id = _)) in Hwt by done.
  rewrite decide_False in Hwt by done.
  destruct (objects id) as [c|] eqn:Ho; [|done].
  apply result_bind_ok in Hw as (b & Hb & Hw). apply Ok_inj in Hw as <-.
  apply andb_prop in Hwt as [Hwf Hwt].
  eexists h, b. split; [done|]. split; [done|]. intros rest.
  unfold deserialize. rewrite !decide_False by done. rewrite Ho.
  by rewrite (reader_bind_step _ _ _ _ _ (serialize_body_read _ _ _ _ rest Hwf Hwt Hinv Hb)).
Qed.

Lemma depth_elem (f : tlval -> nat) x (l : list tlval) n :
  (max_list (map f l) <= n)%nat -> x ∈ l -> (f x <= n)%nat.
Proof.
  intros Hm Hin. etrans; [|exact Hm]. apply max_list_elem_of_le.
  apply list_elem_of_fmap. eauto.
Qed.

(** An object whose parts are read back by [rd] is read back. *)
Lemma object_reads_back n id slots bs :
  (forall v, (depth v <= n)%nat -> inverts (vread n) v) ->
  (depth (VObj id slots) <= S n)%nat ->
  vwt (VObj id slots) TyObject = true -> vwrite (VObj id slots) TyObject = Ok bs ->
  reads_back (vread n) id (VObj id slots) bs.
Proof.
  intros IH Hd Hwt Hw. cbn [depth] in Hd. apply le_S_n in Hd.
  assert (Hsl : Forall (inverts (vread n)) slots).
  { apply Forall_forall. intros v Hin. apply IH. by apply (depth_elem depth v slots). }
  assert (Hms : forall m, VObjs m ∈ slots -> forall i sl, VObj i sl ∈ m ->
    Forall (inverts (vread n)) sl).
  { intros m Hm i sl Hi. apply Forall_forall. intros v Hv. apply IH.
    pose proof (depth_elem depth _ _ _ Hd Hm) as H1. cbn [depth] in H1.
    pose proof (depth_elem depth _ _ (max_list (map depth m)) ltac:(done) Hi) as H2. cbn [depth] in H2.
    pose proof (depth_elem depth _ _ (max_list (map depth sl)) ltac:(done) Hv). lia. }
  assert (Hn : forall v, v ∈ slots -> (1 <= n)%nat).
  { intros v Hin. pose proof (depth_elem depth v slots n Hd Hin).
    assert (1 <= depth v)%nat by (destruct v; cbn; lia). lia. }
  destruct (decide (id = ID_MsgContainer)) as [->|H1]; [by apply container_read|].
  destruct (decide (id = ID_RpcResult)) as [->|H2].
  { apply rpc_result_read; try done.
    - intros rest v b Hin. rewrite Forall_forall in Hsl. by apply Hsl.
    - intros v b rest Hb. destruct n as [|n]; [|by apply bool_read_any].
      destruct slots; [by cbn [wt andb] in Hwt|]. pose proof (Hn t ltac:(left)). lia. }
  destruct (decide (id = ID_FutureSalts)) as [->|H3]; [by apply future_salts_read|].
  apply plain_read; try done. intros Hc. cbn [wt andb] in Hwt.
  repeat case_decide; done.
Qed.

Lemma base_vector_read_write {A} (p : Primitive A) (mk : A -> tlval) l bs rest :
  Lawful p -> p_write p l = Ok bs ->
  (x ← p_read p; mret (mk x)) (bs ++ rest) = Ok (mk l, rest).
Proof. intros Hp Hw. by rewrite (reader_bind_step _ _ _ _ _ (read_write l bs rest Hw)). Qed.

Lemma int_prim_lawful cls : cls <> BigInt -> Lawful (IntPrim cls).
Proof. intros Hc v bs rest. by apply int_read_write. Qed.

Lemma vector_read_back n e v b rest : e <> EObject ->
  vwt v (TyVector e) = true -> vwrite v (TyVector e) = Ok b ->
  vread (S n) (TyVector e) (b ++ rest) = Ok (v, rest).
Proof.
  intros He Hwt Hw. destruct v; try done;
    (destruct e as [cls| | | | |]; try done); cbn [value_read value_write base_vector_write
      base_vector_read] in *; try (by apply (base_vector_read_write _ _ _ _ _ _ Hw)).
  apply bool_decide_eq_true in Hwt.
  destruct cls; try done; by apply (base_vector_read_write _ _ _ _ _ _ Hw).
Qed.

Lemma reads_back_any n id v bs rest : reads_back (vread n) id v bs ->
  read_any objects decompress (vread n) (bs ++ rest) = Ok (v, rest).
Proof.
  intros (h & b & -> & Hh & Hb). unfold read_any. rewrite <- app_assoc.
  by rewrite (reader_bind_step _ _ _ _ _ (int_write_read_unsigned id h _ Hh)).
Qed.

Lemma reads_back_exact n id v bs rest : reads_back (vread n) id v bs ->
  read_exact objects decompress (vread n) id (bs ++ rest) = Ok (v, rest).
Proof.
  intros (h & b & -> & Hh & Hb). unfold read_exact. rewrite <- app_assoc.
  rewrite (reader_bind_step _ _ _ _ _ (int_write_read_unsigned id h _ Hh)).
  by rewrite decide_True.
Qed.

Lemma value_read_write n v : (depth v <= n)%nat -> inverts (vread n) v.
Proof.
  revert v. induction n as [|n IH]; intros v Hd t b rest Hwt Hw.
  { destruct v; cbn in Hd; lia. }
  assert (Hany : forall id slots bs, (depth (VObj id slots) <= S n)%nat ->
    vwt (VObj id slots) TyObject = true -> vwrite (VObj id slots) TyObject = Ok bs ->
    reads_back (vread n) id (VObj id slots) bs) by (intros; by apply object_reads_back).
  destruct t as [num|cls| | | | | |e| |id].
  - by destruct v.
  - destruct v; try done. cbn [wt value_write value_read] in *. apply bool_decide_eq_true in Hwt.
    by rewrite (reader_bind_step _ _ _ _ _ (int_read_write _ _ _ _ rest Hwt Hw)).
  - destruct v; try done. cbn [value_write value_read] in *.
    by rewrite (reader_bind_step _ _ _ _ _ (float_read_write _ _ rest Hw)).
  - destruct v; try done. cbn [value_write value_read] in *.
    by rewrite (reader_bind_step _ _ _ _ _ (bool_read_write _ _ rest Hw)).
  - destruct v; try done. cbn [value_write value_read] in *.
    by rewrite (reader_bind_step _ _ _ _ _ (bool_read_write _ _ rest Hw)).
  - destruct v; try done. cbn [value_write value_read] in *.
    by rewrite (reader_bind_step _ _ _ _ _ (bytes_read_write _ _ rest Hw)).
  - destruct v; try done. cbn [value_write value_read] in *.
    by rewrite (reader_bind_step _ _ _ _ _ (string_read_write _ _ rest Hw)).
  - assert (e = EObject \/ e <> EObject) as [->|He] by (destruct e; auto);
      [|by apply vector_read_back].
    destruct v as [| | | | | | | | | | |l| |]; try done. cbn [wt value_write value_read] in *.
    apply result_bind_ok in Hw as (h & Hh & Hw). apply result_bind_ok in Hw as (bss & Hbss & Hw).
    apply Ok_inj in Hw as <-. rewrite <- app_assoc.
    rewrite (reader_bind_step _ _ _ _ _ (read_header_header _ _ _ Hh)), Nat2Z.id.
    rewrite (reader_bind_step _ _ _ l rest); [done|]. apply read_many_Forall2.
    apply mapM_result_ok in Hbss. apply (Forall2_impl_zip _ _ _ _ Hbss). intros o d Hin Ho rest'.
    apply elem_of_zip_l in Hin. cbn [depth] in Hd. apply le_S_n in Hd.
    pose proof (depth_elem depth o l n Hd Hin).
    rewrite forallb_forall in Hwt. specialize (Hwt o (proj1 (list_elem_of_In _ _) Hin)).
    destruct o as [| | | | | | | | | | | |id slots|]; try done.
    by apply (reads_back_any n id _ d), Hany; [lia|..].
  - destruct v as [| | | | | | | | | | | |id slots|]; try done.
    by apply (reads_back_any n id _ b), Hany.
  - destruct v as [| | | | | | | | | | | |id' slots|]; try done.
    assert (id' = id) as -> by (cbn [wt] in Hwt; by apply andb_prop in Hwt as [?%Z.eqb_eq _]).
    assert (vwt (VObj id slots) TyObject = true)
      by (cbn [wt] in Hwt |- *; by apply andb_prop in Hwt as [_ ->]).
    by apply (reads_back_exact n id _ b), Hany.
Qed.
End Main.

(** ** Properties *)

(** A schema with every kind of field, for the concrete examples *)
Module Sample.
Definition combinator : Combinator := MkCombinator 7 [
  MkField "flags" None (TyFlags 1);
  MkField "silent" (Some (1, 0)) TyTrue;
  MkField "id" None (TyInt Long);
  MkField "title" (Some (1, 1)) TyString;
  MkField "photo" (Some (1, 2)) TyObject;
  MkField "peers" (Some (1, 3)) (TyVector EObject);
  MkField "left" (Some (1, 4)) (TyInt Int);
  MkField "right" (Some (1, 4)) (TyInt Int) ].
Definition schema (id : Z) : option Combinator := if id =? 7 then Some combinator else None.
Definition leaf : tlval :=
  VObj 7 [VBool false; VInt 5; VNone; VNone; VNone; VInt 1; VInt (-2)].
Definition value : tlval :=
  VObj ID_MsgContainer [VObjs
    [VObj ID_Message [VInt 64; VInt 1; VObj ID_RpcResult [VInt 60; VDyn TyBool (VBool true)]];
     VObj ID_Message [VInt 68; VInt 3;
       VObj 7 [VBool true; VInt (-9); VStr [104; 233]; leaf; VObjs [leaf; leaf]; VNone; VNone]]]].
Definition decompress (b : bytes) : result bytes := Ok b.
Definition encoded : bytes :=
  match object_write schema value with Ok b => b | Raise _ => [] end.
End Sample.


