(* ===== verification/Sequences.v ===== *)
(** Number and sequence helpers: snowflake ids ([piltover/utils/snowflake.py]),
    the two virtual lists ([piltover/utils/repeated_list.py],
    [single_element_list.py]) and the allocation of pts
    ([piltover/db/models/state.py], [Channel.add_pts]). *)
From S2P Require Import Prelude.

(** ** [Snowflake] *)
Module Snowflake.
Definition EPOCH : Z := 1704067200000.
Definition MAX_TIMESTAMP : Z := Z.shiftl 1 42.

(** [time_ms] is [int(time() * 1000)]; the class attribute [_INCREMENT] is
    the state. *)
Definition make_id (worker process time_ms : Z) (increment : bool) : M Z Z :=
  _INCREMENT ← get;
  let timestamp := time_ms - EPOCH in
  let snowflake := Z.shiftl (timestamp mod MAX_TIMESTAMP) 22 in
  let snowflake := snowflake + Z.shiftl (worker mod 32) 17 in
  let snowflake := snowflake + Z.shiftl (process mod 32) 12 in
  let snowflake := snowflake + _INCREMENT mod 4096 in
  (if increment then put (_INCREMENT + 1) else mret tt);;
  mret snowflake.

(** The ids of successive calls at the given times. *)
Fixpoint make_ids (worker process : Z) (times : list Z) : M Z (list Z) :=
  match times with
  | [] => mret []
  | t :: ts => i ← make_id worker process t true; l ← make_ids worker process ts; mret (i :: l)
  end.

Definition snowflake_of (worker process time_ms inc : Z) : Z :=
  (time_ms - EPOCH) mod MAX_TIMESTAMP * 2 ^ 22 + worker mod 32 * 2 ^ 17
  + process mod 32 * 2 ^ 12 + inc mod 4096.

Lemma make_id_run worker process t inc s :
  make_id worker process t inc s
  = (Ok (snowflake_of worker process t s), if inc then s + 1 else s).
Proof.
  unfold make_id, snowflake_of. unfold_monads. rewrite !Z.shiftl_mul_pow2 by lia.
  by destruct inc.
Qed.

Lemma make_ids_run worker process ts : forall s,
  make_ids worker process ts s
  = (Ok (imap (fun i t => snowflake_of worker process t (s + Z.of_nat i)) ts),
     s + Z.of_nat (length ts)).
Proof.
  induction ts as [|t ts IH]; intros s; simpl.
  - unfold_monads. apply pair_equal_spec. split; [done|lia].
  - erewrite M_bind_step; [|apply make_id_run]. erewrite M_bind_step; [|apply IH].
    unfold_monads. apply pair_equal_spec. split; [|lia]. f_equal. apply f_equal2; [f_equal; lia|].
    apply imap_ext. intros i x _. simpl. f_equal. lia.
Qed.

Lemma fields_inj a b c d a' b' c' d' :
  0 <= b < 32 -> 0 <= c < 32 -> 0 <= d < 4096 ->
  0 <= b' < 32 -> 0 <= c' < 32 -> 0 <= d' < 4096 ->
  a * 2 ^ 22 + b * 2 ^ 17 + c * 2 ^ 12 + d = a' * 2 ^ 22 + b' * 2 ^ 17 + c' * 2 ^ 12 + d' ->
  a = a' /\ b = b' /\ c = c' /\ d = d'.
Proof. lia. Qed.

Lemma snowflake_of_inj w p t i w' p' t' i' :
  snowflake_of w p t i = snowflake_of w' p' t' i' ->
  (t - EPOCH) mod MAX_TIMESTAMP = (t' - EPOCH) mod MAX_TIMESTAMP /\ w mod 32 = w' mod 32 /\
  p mod 32 = p' mod 32 /\ i mod 4096 = i' mod 4096.
Proof.
  unfold snowflake_of. intros H.
  apply fields_inj in H; [tauto|..]; apply Z.mod_pos_bound; lia.
Qed.

(** Snowflake ids. An id fits 64 unsigned bits; two ids are equal only if
    they agree on the (42-bit) millisecond, the worker, the process and the
    counter modulo 4096; so the ids of a run of calls whose times lie within the
    42-bit range are pairwise different, provided no two calls 4096 or more
    calls apart fall in the same millisecond; and ids of a later millisecond
    are larger. *)
Theorem snowflake_unique worker process times s0 ids s1 :
  Forall (fun t => EPOCH <= t < EPOCH + MAX_TIMESTAMP) times ->
  (forall i j t, (i < j)%nat -> times !! i = Some t -> times !! j = Some t ->
    (j - i < 4096)%nat) ->
  make_ids worker process times s0 = (Ok ids, s1) ->
  NoDup ids /\ Forall (fun x => 0 <= x < 2 ^ 64) ids /\
  (forall i j t t' x x', times !! i = Some t -> times !! j = Some t' -> t < t' ->
    ids !! i = Some x -> ids !! j = Some x' -> x < x').
Proof.
  intros Hr Hd. rewrite make_ids_run. intros [= <- <-].
  assert (Hb : forall t i, EPOCH <= t < EPOCH + MAX_TIMESTAMP ->
    (t - EPOCH) * 2 ^ 22 <= snowflake_of worker process t i < (t - EPOCH + 1) * 2 ^ 22).
  { intros t i Ht. unfold snowflake_of. rewrite (Z.mod_small (t - EPOCH)) by lia.
    pose proof (Z.mod_pos_bound worker 32). pose proof (Z.mod_pos_bound process 32).
    pose proof (Z.mod_pos_bound i 4096). lia. }
  rewrite Forall_lookup in Hr. repeat split.
  - apply NoDup_alt. intros i j x Hi Hj.
    rewrite list_lookup_imap in Hi, Hj.
    destruct (times !! i) as [t|] eqn:Ti; [|done]. destruct (times !! j) as [t'|] eqn:Tj; [|done].
    simpl in *. injection Hi as Hi. injection Hj as Hj. rewrite <- Hj in Hi.
    apply snowflake_of_inj in Hi as (Ht & _ & _ & Hi).
    pose proof (Hr _ _ Ti). pose proof (Hr _ _ Tj).
    rewrite !Z.mod_small in Ht by lia. assert (t = t') as -> by lia.
    destruct (lt_eq_lt_dec i j) as [[Hlt|]|Hlt]; [exfalso|done|exfalso].
    + pose proof (Hd _ _ _ Hlt Ti Tj).
      assert ((s0 + Z.of_nat j - (s0 + Z.of_nat i)) mod 4096 = 0) as Hz.
      { rewrite Zminus_mod, Hi, Z.sub_diag. done. }
      rewrite Z.mod_small in Hz by lia. lia.
    + pose proof (Hd _ _ _ Hlt Tj Ti).
      assert ((s0 + Z.of_nat i - (s0 + Z.of_nat j)) mod 4096 = 0) as Hz.
      { rewrite Zminus_mod, Hi, Z.sub_diag. done. }
      rewrite Z.mod_small in Hz by lia. lia.
  - apply Forall_lookup. intros i x Hi. rewrite list_lookup_imap in Hi.
    destruct (times !! i) as [t|] eqn:Ti; [|done]. simpl in Hi. injection Hi as <-.
    pose proof (Hr _ _ Ti) as Ht. pose proof (Hb t (s0 + Z.of_nat i) Ht).
    unfold MAX_TIMESTAMP in Ht. rewrite Z.shiftl_mul_pow2 in Ht by lia. lia.
  - intros i j t t' x x' Ti Tj Hlt Hi Hj. rewrite list_lookup_imap, Ti in Hi.
    rewrite list_lookup_imap, Tj in Hj. simpl in *. injection Hi as <-. injection Hj as <-.
    pose proof (Hb t (s0 + Z.of_nat i) (Hr _ _ Ti)).
    pose proof (Hb t' (s0 + Z.of_nat j) (Hr _ _ Tj)). nia.
Qed.

Lemma snowflake_unique_witness :
  exists ids s1,
    make_ids 3 77 [1704067200001; 1704067200001; 1704067200002] 4095 = (Ok ids, s1) /\ NoDup ids.
Proof.
  eexists [_; _; _], 4098. split; [reflexivity|].
  refine (proj1 (snowflake_unique 3 77 [1704067200001; 1704067200001; 1704067200002] 4095 [_; _; _] 4098 _ _ _)).
  - repeat (apply Forall_cons; split; [split; vm_compute; congruence|]). apply Forall_nil. done.
  - intros i j t Hij Hi Hj. apply lookup_lt_Some in Hj. simpl in Hj. lia.
  - reflexivity.
Defined.
End Snowflake.

(** ** [RepeatedList] and [SingleElementList]: lists that are not stored *)
Section VirtualLists.
Context {A : Type}.

Record RepeatedList := MkRepeated { collection : list A; repeat_times : Z }.

Definition repeated_len (r : RepeatedList) : Z := Z.of_nat (length (collection r)) * repeat_times r.

(** [RepeatedList.__getitem__] with an integer index; [pos % len] is only
    evaluated when the list is not empty. *)
Definition repeated_getitem (r : RepeatedList) (index : Z) : result A :=
  if index <? 0 then Raise NotImplementedError
  else if repeated_len r <=? index then Raise IndexError
  else match collection r !! Z.to_nat (index mod Z.of_nat (length (collection r))) with
       | Some x => Ok x
       | None => Raise IndexError
       end.

(** [RepeatedListIterator.__next__] *)
Definition repeated_next (r : RepeatedList) : M Z A :=
  pos ← get;
  ensure (pos <? repeated_len r) StopIteration;;
  put (pos + 1);;
  match collection r !! Z.to_nat (pos mod Z.of_nat (length (collection r))) with
  | Some x => mret x
  | None => raise IndexError
  end.

Record SingleElementList := MkSingle { item : A; single_length : Z }.

(** [SingleElementList.__getitem__]: no lower bound is tested *)
Definition single_getitem (r : SingleElementList) (index : Z) : result A :=
  if single_length r <=? index then Raise IndexError else Ok (item r).

(** [SingleElementListIterator.__next__], over [_iters_left] *)
Definition single_next (r : SingleElementList) : M Z A :=
  _iters_left ← get;
  ensure (negb (_iters_left <=? 0)) StopIteration;;
  put (_iters_left - 1);; mret (item r).

(** What [for x in it] collects: [__next__] until [StopIteration]. *)
Fixpoint drain {S} (fuel : nat) (next : M S A) : M S (list A) :=
  match fuel with
  | O => raise OutOfFuel
  | S n => fun s =>
      match next s with
      | (Ok x, s') => (l ← drain n next; mret (x :: l)) s'
      | (Raise StopIteration, s') => (Ok [], s')
      | (Raise e, s') => (Raise e, s')
      end
  end.

Definition repeated_spec (r : RepeatedList) : list A :=
  mjoin (replicate (Z.to_nat (repeat_times r)) (collection r)).
Definition single_spec (r : SingleElementList) : list A :=
  replicate (Z.to_nat (single_length r)) (item r).
Lemma lookup_repeat (l : list A) n : forall i,
  mjoin (replicate n l) !! i
  = if decide (i < length l * n)%nat then l !! (i mod length l)%nat else None.
Proof.
  induction n as [|n IH]; intros i; simpl.
  - case_decide; [lia|done].
  - destruct (decide (i < length l)%nat) as [Hi|Hi].
    + rewrite lookup_app_l, decide_True by lia. by rewrite Nat.mod_small.
    + rewrite lookup_app_r, IH by lia.
      destruct (decide (length l = 0)%nat) as [H0|H0]; [rewrite !decide_False by lia; done|].
      replace (i mod length l)%nat with ((i - length l) mod length l)%nat.
      * repeat case_decide; try lia; done.
      * replace i with (i - length l + 1 * length l)%nat at 2 by lia.
        by rewrite Nat.Div0.mod_add.
Qed.

Lemma repeated_lookup r i : 0 <= i ->
  repeated_spec r !! Z.to_nat i
  = if i <? repeated_len r then collection r !! Z.to_nat (i mod Z.of_nat (length (collection r))) else None.
Proof.
  intros Hi. unfold repeated_spec, repeated_len. rewrite lookup_repeat.
  replace (Z.to_nat (i mod Z.of_nat (length (collection r))))
    with (Z.to_nat i mod length (collection r))%nat
    by (rewrite Z2Nat.inj_mod by lia; by rewrite Nat2Z.id).
  destruct (i <? _) eqn:Hlt; b2p; [rewrite decide_True by nia|rewrite decide_False by nia]; done.
Qed.

Lemma length_repeated r : Z.of_nat (length (repeated_spec r)) = Z.max 0 (repeated_len r).
Proof.
  unfold repeated_spec, repeated_len.
  assert (forall n, length (mjoin (replicate n (collection r))) = (n * length (collection r))%nat) as ->.
  { induction n; simpl; [done|]. rewrite length_app. lia. }
  destruct (Z.le_gt_cases 0 (repeat_times r)); nia.
Qed.

Lemma repeated_next_run r pos : 0 <= pos ->
  repeated_next r pos = match repeated_spec r !! Z.to_nat pos with
                        | Some x => (Ok x, pos + 1)
                        | None => (Raise StopIteration, pos) end.
Proof.
  intros Hp. rewrite repeated_lookup by done. unfold repeated_next. unfold_monads.
  destruct (pos <? repeated_len r) eqn:Hlt; [|done].
  destruct (collection r !! _) eqn:E; [done|]. exfalso. b2p. unfold repeated_len in Hlt.
  apply lookup_ge_None in E.
  destruct (decide (length (collection r) = 0)%nat) as [H0|H0]; [rewrite H0 in Hlt; lia|].
  pose proof (Z.mod_pos_bound pos (Z.of_nat (length (collection r))) ltac:(lia)). lia.
Qed.

Lemma drain_repeated r : forall fuel pos, 0 <= pos -> (length (repeated_spec r) - Z.to_nat pos < fuel)%nat ->
  fst (drain fuel (repeated_next r) pos) = Ok (drop (Z.to_nat pos) (repeated_spec r)).
Proof.
  induction fuel as [|n IH]; intros pos Hp Hf; simpl.
  - lia.
  - rewrite repeated_next_run by done.
    destruct (repeated_spec r !! Z.to_nat pos) as [x|] eqn:E.
    + pose proof (lookup_lt_Some _ _ _ E).
      specialize (IH (pos + 1) ltac:(lia) ltac:(lia)).
      unfold_monads. destruct (drain n _ _) as [[l|] s'] eqn:D; simpl in IH; [|done].
      apply Ok_inj in IH as ->. simpl. f_equal. rewrite (drop_S _ x _ E). f_equal.
      f_equal. lia.
    + simpl. by rewrite drop_ge by (by apply lookup_ge_None).
Qed.

Lemma drain_single r : forall fuel n, (Z.to_nat n < fuel)%nat ->
  fst (drain fuel (single_next r) n) = Ok (replicate (Z.to_nat n) (item r)).
Proof.
  induction fuel as [|m IH]; intros n Hf; simpl; [lia|].
  unfold single_next at 1. unfold_monads. destruct (n <=? 0) eqn:Hn; b2p; simpl.
  - by replace (Z.to_nat n) with O by lia.
  - specialize (IH (n - 1) ltac:(lia)).
    replace (Z.to_nat n) with (S (Z.to_nat (n - 1))) by lia.
    destruct (drain m (single_next r) (n - 1)) as [[l|] s'] eqn:D; simpl in IH; [|done].
    by apply Ok_inj in IH as ->.
Qed.
End VirtualLists.

(** The virtual lists behave as the lists they stand for: [len], indexing
    at a non-negative index and iteration (which ends) agree with [collection]
    repeated [repeat_times] times and with [length] copies of [item]. Negative
    indexes do not follow Python's sequences: [RepeatedList] refuses them, and
    [SingleElementList] answers every one of them, also of the empty list. *)
Theorem virtual_lists {A} (r : RepeatedList (A := A)) (q : SingleElementList (A := A)) :
  Z.max 0 (repeated_len r) = Z.of_nat (length (repeated_spec r)) /\
  Z.max 0 (single_length q) = Z.of_nat (length (single_spec q)) /\
  (forall i, 0 <= i -> repeated_getitem r i =
     match repeated_spec r !! Z.to_nat i with Some x => Ok x | None => Raise IndexError end) /\
  (forall i, 0 <= i -> single_getitem q i =
     match single_spec q !! Z.to_nat i with Some x => Ok x | None => Raise IndexError end) /\
  (forall fuel, (length (repeated_spec r) < fuel)%nat ->
     fst (drain fuel (repeated_next r) 0) = Ok (repeated_spec r)) /\
  (forall fuel, (length (single_spec q) < fuel)%nat ->
     fst (drain fuel (single_next q) (single_length q)) = Ok (single_spec q)) /\
  (forall i, i < 0 -> repeated_getitem r i = Raise NotImplementedError) /\
  (forall i, i < 0 -> 0 <= single_length q -> single_getitem q i = Ok (item q)).
Proof.
  assert (Hs : length (single_spec q) = Z.to_nat (single_length q))
    by apply length_replicate.
  split_and!.
  - by rewrite length_repeated.
  - lia.
  - intros i Hi. rewrite repeated_lookup by done. unfold repeated_getitem.
    rewrite (proj2 (Z.ltb_ge i 0)) by lia.
    destruct (i <? repeated_len r) eqn:Hlt; b2p.
    + rewrite (proj2 (Z.leb_gt (repeated_len r) i)) by lia. by destruct (collection r !! _).
    + by rewrite (proj2 (Z.leb_le (repeated_len r) i)) by lia.
  - intros i Hi. unfold single_getitem, single_spec.
    destruct (single_length q <=? i) eqn:Hlt; b2p.
    + by rewrite lookup_ge_None_2 by (rewrite length_replicate; lia).
    + by rewrite lookup_replicate_2 by lia.
  - intros fuel Hf. by rewrite drain_repeated by (simpl; lia).
  - intros fuel Hf. unfold single_spec. apply drain_single. lia.
  - intros i Hi. unfold repeated_getitem. by rewrite (proj2 (Z.ltb_lt i 0)).
  - intros i Hi Hq. unfold single_getitem. by rewrite (proj2 (Z.leb_gt (single_length q) i)) by lia.
Qed.

(** ** Allocation of pts
    The table of [State] rows maps a user to the pts; [select_for_update]
    inside the transaction makes every operation one atomic step. *)
Module Pts.
Abbreviation State := (gmap Z Z).
Abbreviation P := (M State).

Definition get_pts (user : Z) : P Z := fun s =>
  match s !! user with Some p => (Ok p, s) | None => (Raise DoesNotExist, s) end.

(** [State.add_pts] *)
Definition add_pts (user pts_count : Z) : P Z :=
  if pts_count <=? 0 then get_pts user
  else transaction (
    pts ← get_pts user;
    let new_pts := pts + pts_count in
    modify (fun s => <[user := new_pts]> s);; mret new_pts).

(** [Channel.add_pts]: the attribute [pts] of the object at hand is the first
    component of the state, the channel's row is in the second. *)
Definition channel_add_pts (id pts_count : Z) : M (Z * State) Z := fun '(self_pts, rows) =>
  match rows !! id with
  | None => (Raise DoesNotExist, (self_pts, rows))
  | Some pts =>
      if pts_count <=? 0 then (Ok pts, (pts, rows))
      else let new_pts := pts + pts_count in (Ok new_pts, (new_pts, <[id := new_pts]> rows))
  end.

(** The loop of [State.add_pts_bulk]: [loaded] are the objects of
    [state_by_user_id], shared by all entries of the same user; the second
    result is the users of [to_update]. *)
Fixpoint bulk_loop (l : list (Z * Z)) (loaded : gmap Z Z) : result (gmap Z Z * list Z) :=
  match l with
  | [] => Ok (loaded, [])
  | (user, pts_count) :: l' =>
      if pts_count <=? 0 then bulk_loop l' loaded
      else match loaded !! user with
           | None => Raise KeyError
           | Some pts =>
               '(m, upd) ← bulk_loop l' (<[user := pts + pts_count]> loaded); Ok (m, user :: upd)
           end
  end.

(** [bulk_update] writes the attribute [pts] of the objects in [to_update]. *)
Definition bulk_update (objs : gmap Z Z) (to_update : list Z) (s : State) : State :=
  foldl (fun s u => match objs !! u with Some p => <[u := p]> s | None => s end) s to_update.

Definition lookup_all (objs : gmap Z Z) (users : list Z) : result (list Z) :=
  match mapM (fun u => objs !! u) users with Some l => Ok l | None => Raise KeyError end.

(** [State.add_pts_bulk] with a list of counts *)
Definition add_pts_bulk (users pts_counts : list Z) : P (list Z) :=
  match users with
  | [] => mret []
  | _ =>
      ensure (bool_decide (length pts_counts = length users)) ValueError;;
      objs ← transaction (
        s ← get;
        let loaded := filter (fun kv => kv.1 ∈ users) s in
        '(objs, to_update) ← lift_result (bulk_loop (zip users pts_counts) loaded);
        modify (bulk_update objs to_update);; mret objs);
      lift_result (lookup_all objs users)
  end.

(** [add_pts] for one user after the other. *)
Fixpoint add_pts_each (l : list (Z * Z)) : P (list Z) :=
  match l with
  | [] => mret []
  | (user, c) :: l' => p ← add_pts user c; ps ← add_pts_each l'; mret (p :: ps)
  end.

(** What [user] gets in total: the positive counts of its entries. *)
Definition total_of (user : Z) (l : list (Z * Z)) : Z :=
  foldr (fun uc acc => (if bool_decide (uc.1 = user) then Z.max 0 uc.2 else 0) + acc) 0 l.

Lemma total_of_nonneg u l : 0 <= total_of u l.
Proof. induction l as [|[a b] l IH]; simpl; [lia|]. case_match; lia. Qed.

Lemma total_of_app u l k : total_of u (l ++ k) = total_of u l + total_of u k.
Proof. induction l as [|[a b] l IH]; simpl; [done|]. rewrite IH. lia. Qed.

Lemma bulk_loop_spec l : forall loaded, (forall u c, (u, c) ∈ l -> is_Some (loaded !! u)) ->
  exists objs upd, bulk_loop l loaded = Ok (objs, upd) /\
    (forall u, objs !! u = (fun p => p + total_of u l) <$> loaded !! u) /\
    (forall u, ~ u ∈ upd -> objs !! u = loaded !! u).
Proof.
  induction l as [|[user c] l IH]; intros loaded Hl; simpl.
  - exists loaded, []. split_and!; [done| |done].
    intros u. destruct (loaded !! u); simpl; [|done]. by rewrite Z.add_0_r.
  - destruct (c <=? 0) eqn:Hc; b2p.
    + destruct (IH loaded) as (objs & upd & -> & Ho & Hu).
      { intros u c' ?. apply (Hl u c'). by right. }
      exists objs, upd. split_and!; [done| |done].
      intros u. rewrite Ho. destruct (loaded !! u); simpl; [|done]. f_equal. case_match; lia.
    + destruct (Hl user c) as [pts Hp]; [by left|]. rewrite Hp.
      destruct (IH (<[user := pts + c]> loaded)) as (objs & upd & -> & Ho & Hu).
      { intros u c' Hin. destruct (decide (user = u)) as [->|].
        - rewrite lookup_insert_eq. eauto.
        - rewrite lookup_insert_ne by done. apply (Hl u c'). by right. }
      exists objs, (user :: upd). split_and!; [done| |].
      * intros u. rewrite Ho. destruct (decide (user = u)) as [->|].
        -- rewrite lookup_insert_eq, Hp. simpl. rewrite bool_decide_eq_true_2 by done. f_equal. lia.
        -- rewrite lookup_insert_ne by done. destruct (loaded !! u); simpl; [|done].
           by rewrite bool_decide_eq_false_2 by done.
      * intros u Hn. apply not_elem_of_cons in Hn as [Hn1 Hn2].
        rewrite Hu by done. by rewrite lookup_insert_ne.
Qed.

Lemma lookup_bulk_update objs upd : forall s u, (forall u, u ∈ upd -> is_Some (objs !! u)) ->
  bulk_update objs upd s !! u = if decide (u ∈ upd) then objs !! u else s !! u.
Proof.
  induction upd as [|v upd IH]; intros s u Hs; [|
    change (bulk_update objs (v :: upd) s) with
      (bulk_update objs upd (match objs !! v with Some p => <[v := p]> s | None => s end))].
  - destruct (decide _) as [Hn|]; [by apply elem_of_nil in Hn|done].
  - rewrite IH by (intros w ?; apply Hs; by right). destruct (Hs v) as [p Hp]; [by left|]. rewrite Hp.
    destruct (decide (u ∈ upd)) as [Hin|Hin]; [rewrite decide_True by (by right); done|].
    destruct (decide (u = v)) as [->|Hne].
    + rewrite decide_True by (by left). by rewrite lookup_insert_eq.
    + rewrite decide_False; [by rewrite lookup_insert_ne|]. intros [?|?]%elem_of_cons; done.
Qed.

Lemma bulk_loop_upd l : forall loaded objs upd, bulk_loop l loaded = Ok (objs, upd) ->
  forall u, u ∈ upd -> is_Some (loaded !! u) /\ is_Some (objs !! u) /\ u ∈ l.*1.
Proof.
  induction l as [|[user c] l IH]; intros loaded objs upd H u Hu; simpl in H.
  - apply Ok_inj in H as [= <- <-]. by apply elem_of_nil in Hu.
  - destruct (c <=? 0); [destruct (IH _ _ _ H _ Hu) as (?&?&?); split_and!; [done..|by right]|].
    destruct (loaded !! user) as [pts|] eqn:Hp; [|done].
    apply result_bind_ok in H as ([m upd'] & H & Heq). apply Ok_inj in Heq as [= <- <-].
    assert (Hkeep : forall v, is_Some (<[user:=pts + c]> loaded !! v) -> is_Some (m !! v)).
    { clear -H. revert H. generalize (<[user:=pts + c]> loaded). revert m upd'.
      induction l as [|[a b] l IH]; intros m upd' g H v Hv; simpl in H.
      - by apply Ok_inj in H as [= <- <-].
      - destruct (b <=? 0); [by eapply IH|]. destruct (g !! a); [|done].
        apply result_bind_ok in H as ([m2 upd2] & H & Heq). apply Ok_inj in Heq as [= <- <-].
        eapply IH; [exact H|]. rewrite lookup_insert_is_Some'. by right. }
    apply elem_of_cons in Hu as [->|Hu].
    + split_and!; [eauto| |by left]. apply Hkeep. rewrite lookup_insert_eq. eauto.
    + destruct (IH _ _ _ H _ Hu) as (Hl & ? & ?). split_and!; [|done|by right].
      apply lookup_insert_is_Some' in Hl as [->|]; [by rewrite Hp|done].
Qed.

Lemma mapM_ext_in {A B} (f g : A -> option B) l :
  (forall x, x ∈ l -> f x = g x) -> mapM f l = mapM g l.
Proof.
  induction l as [|x l IH]; intros H; [done|]. simpl.
  rewrite (H x) by (by left). rewrite IH by (intros y ?; apply H; by right). done.
Qed.

Lemma lookup_all_ok objs users ps :
  mapM (fun u => objs !! u) users = Some ps -> lookup_all objs users = Ok ps.
Proof. intros H. unfold lookup_all. by rewrite H. Qed.

Lemma zip_fst (us cs : list Z) : length cs = length us -> (zip us cs).*1 = us.
Proof. intros H. apply fst_zip. lia. Qed.

Lemma elem_of_zip_l (us cs : list Z) u c : (u, c) ∈ zip us cs -> u ∈ us.
Proof. apply elem_of_zip_l. Qed.

(** The whole behaviour of the bulk operation when every user has a row. *)
Lemma add_pts_bulk_run (users counts : list Z) (s : State) :
  length counts = length users ->
  (forall u, u ∈ users -> is_Some (s !! u)) ->
  exists ps t, add_pts_bulk users counts s = (Ok ps, t) /\
    (forall u, t !! u = (fun p => p + total_of u (zip users counts)) <$> s !! u) /\
    mapM (fun u => t !! u) users = Some ps.
Proof.
  intros Hlen Hrows. unfold add_pts_bulk.
  destruct users as [|u0 us]; [exists [], s; split_and!; [done| |done]; intros u; simpl;
    by destruct (s !! u) as [z|]; simpl; [rewrite Z.add_0_r|] |].
  set (users := u0 :: us) in *.
  set (loaded := filter (fun kv => kv.1 ∈ users) s : gmap Z Z).
  assert (Hload : forall u, u ∈ users -> loaded !! u = s !! u).
  { intros u Hu. unfold loaded. destruct (s !! u) as [z|] eqn:E.
    - by apply map_lookup_filter_Some.
    - apply map_lookup_filter_None. by left. }
  destruct (bulk_loop_spec (zip users counts) loaded) as (objs & upd & Hb & Ho & Hu).
  { intros u c Hin. apply elem_of_zip_l in Hin. rewrite Hload by done. eauto. }
  pose proof (bulk_loop_upd _ _ _ _ Hb) as Hupd.
  assert (Hfinal : forall u, bulk_update objs upd s !! u
    = (fun p => p + total_of u (zip users counts)) <$> s !! u).
  { intros u. rewrite lookup_bulk_update by (intros v Hv; by apply Hupd).
    destruct (decide (u ∈ upd)) as [Hin|Hin].
    - destruct (Hupd _ Hin) as (_ & _ & Hin'). rewrite zip_fst in Hin' by done.
      by rewrite Ho, Hload.
    - destruct (decide (u ∈ users)) as [Hus|Hus].
      + rewrite <- (Hload u Hus), <- Ho. by rewrite Hu.
      + assert (total_of u (zip users counts) = 0) as ->.
        { assert (Hn : forall c, ~ (u, c) ∈ zip users counts)
            by (intros c Hin'; by apply elem_of_zip_l in Hin').
          clear -Hn. induction (zip users counts) as [|[a b] l IH]; [done|]. simpl.
          rewrite bool_decide_eq_false_2; [|intros ->; eapply Hn; by left].
          rewrite IH; [done|]. intros c Hc. eapply Hn. by right. }
        destruct (s !! u); simpl; [|done]. by rewrite Z.add_0_r. }
  assert (Hps : exists ps, mapM (fun u => objs !! u) users = Some ps).
  { apply mapM_is_Some_2, Forall_forall. intros u Hin.
    change (is_Some (objs !! u)). rewrite Ho, Hload by done.
    destruct (Hrows u Hin) as [? ->]. simpl. eauto. }
  destruct Hps as [ps Hps]. exists ps, (bulk_update objs upd s). split_and!; [|done|].
  - unfold ensure. rewrite bool_decide_eq_true_2 by done.
    erewrite M_bind_step; [|reflexivity]. erewrite M_bind_step.
    2:{ apply transaction_ok. erewrite M_bind_step; [|reflexivity].
        cbv zeta. fold users. fold loaded.
        erewrite M_bind_step; [|unfold lift_result; rewrite Hb; reflexivity].
        cbv beta iota. erewrite M_bind_step; [|reflexivity]. reflexivity. }
    unfold lift_result. by rewrite (lookup_all_ok _ _ _ Hps).
  - rewrite <- Hps. apply mapM_ext_in. intros u Hin. by rewrite Hfinal, Ho, Hload.
Qed.

Lemma add_pts_run u c (s : State) p : s !! u = Some p ->
  add_pts u c s = (Ok (p + Z.max 0 c), if c <=? 0 then s else <[u := p + c]> s).
Proof.
  intros Hp. unfold add_pts, get_pts. destruct (c <=? 0) eqn:Hc; b2p.
  - rewrite Hp. do 2 f_equal. lia.
  - unfold transaction. unfold_monads. rewrite Hp. do 2 f_equal. lia.
Qed.

(** [Channel.add_pts] does to the channel's row what [State.add_pts] does to
    the user's, and leaves the object with the pts of the row. *)
Lemma channel_add_pts_run self id c (rows : State) :
  channel_add_pts id c (self, rows) =
  match add_pts id c rows with
  | (Ok p, rows') => (Ok p, (p, rows'))
  | (Raise e, rows') => (Raise e, (self, rows'))
  end.
Proof.
  unfold channel_add_pts. destruct (rows !! id) as [p|] eqn:Hp.
  - rewrite (add_pts_run _ _ _ p Hp). destruct (c <=? 0) eqn:Hc; b2p.
    + by replace (p + Z.max 0 c) with p by lia.
    + by replace (p + Z.max 0 c) with (p + c) by lia.
  - unfold add_pts, get_pts, transaction. unfold_monads.
    destruct (c <=? 0); by rewrite Hp.
Qed.

Lemma add_pts_lookup u c (s : State) p v : s !! u = Some p ->
  (if c <=? 0 then s else <[u := p + c]> s) !! v
  = (fun q => q + (if bool_decide (u = v) then Z.max 0 c else 0)) <$> s !! v.
Proof.
  intros Hp. destruct (c <=? 0) eqn:Hc; b2p.
  - destruct (s !! v); simpl; [|done]. f_equal. case_bool_decide; lia.
  - destruct (bool_decide (u = v)) eqn:E; b2p; subst.
    + rewrite lookup_insert_eq, Hp. simpl. f_equal. lia.
    + rewrite lookup_insert_ne by done. destruct (s !! v); simpl; [|done]. f_equal. lia.
Qed.

Lemma add_pts_each_run l : forall s, (forall u, u ∈ l.*1 -> is_Some (s !! u)) ->
  exists ps t, add_pts_each l s = (Ok ps, t) /\ length ps = length l /\
    (forall u, t !! u = (fun p => p + total_of u l) <$> s !! u) /\
    (forall i u c p x, l !! i = Some (u, c) -> s !! u = Some p -> ps !! i = Some x ->
       x = p + total_of u (take (S i) l)).
Proof.
  induction l as [|[u c] l IH]; intros s Hs.
  - exists [], s. split_and!; [done|done| |done]. intros u. destruct (s !! u); simpl; [|done].
    by rewrite Z.add_0_r.
  - destruct (Hs u) as [p Hp]; [by left|]. pose proof (add_pts_lookup u c s p) as Hlk.
    destruct (IH (if c <=? 0 then s else <[u := p + c]> s)) as (ps & t & Hrun & Hlen & Ht & Hps).
    { intros v Hv. rewrite Hlk by done. destruct (Hs v) as [? ->]; [by right|]. simpl. eauto. }
    exists (p + Z.max 0 c :: ps), t. split_and!.
    + simpl. erewrite M_bind_step; [|by apply add_pts_run].
      erewrite M_bind_step; [|apply Hrun]. done.
    + simpl. by rewrite Hlen.
    + intros v. rewrite Ht, Hlk by done. destruct (s !! v); simpl; [|done]. f_equal. lia.
    + intros [|i] v d q x Hi Hq Hx; simpl in Hi, Hx; simplify_eq.
      * simpl. rewrite bool_decide_eq_true_2 by done. simplify_eq. lia.
      * specialize (Hps i v d (q + (if bool_decide (u = v) then Z.max 0 c else 0)) x Hi).
        rewrite Hlk, Hq in Hps by done. specialize (Hps eq_refl Hx). rewrite Hps.
        change (take (S (S i)) ((u, c) :: l)) with ((u, c) :: take (S i) l).
        unfold total_of at 2. simpl foldr. fold (total_of v (take (S i) l)). lia.
Qed.
End Pts.

(** Allocation of pts. When every user has a [State] row, one bulk call
    succeeds, adds to each user's pts the positive counts of all of its entries,
    also of a user named several times, leaves other rows alone, and leaves the
    table that calling [add_pts] entry by entry leaves. Entry by entry, each call
    returns the pts after its own count, so the ranges [(pts - count, pts]]
    handed out are consecutive; without duplicates the bulk call returns the
    same numbers, and with a duplicate every entry gets the last one. *)
Theorem pts_allocation (users counts : list Z) (s : gmap Z Z) :
  length counts = length users ->
  (forall u, u ∈ users -> is_Some (s !! u)) ->
  let l := zip users counts in
  exists bulk each t,
    Pts.add_pts_bulk users counts s = (Ok bulk, t) /\
    Pts.add_pts_each l s = (Ok each, t) /\
    (forall u, t !! u = (fun p => p + Pts.total_of u l) <$> s !! u) /\
    (forall i u c p x, l !! i = Some (u, c) -> s !! u = Some p -> each !! i = Some x ->
       x = p + Pts.total_of u (take i l) + Z.max 0 c) /\
    (forall i u p x, users !! i = Some u -> s !! u = Some p -> bulk !! i = Some x ->
       x = p + Pts.total_of u l) /\
    (NoDup users -> bulk = each).
Proof.
  intros Hlen Hrows l.
  destruct (Pts.add_pts_bulk_run users counts s Hlen Hrows) as (bulk & t & Hb & Ht & Hm).
  destruct (Pts.add_pts_each_run l s) as (each & t' & He & Hl & Ht' & Hps).
  { unfold l. rewrite Pts.zip_fst by done. done. }
  assert (t' = t) as -> by (apply map_eq; intros u; by rewrite Ht, Ht').
  assert (Hbulk : forall i u p x, users !! i = Some u -> s !! u = Some p -> bulk !! i = Some x ->
    x = p + Pts.total_of u l).
  { intros i u p x Hi Hp Hx. apply mapM_Some_1 in Hm.
    pose proof (Forall2_lookup_lr _ _ _ _ _ _ Hm Hi Hx) as Hx'. simpl in Hx'.
    rewrite Ht, Hp in Hx'. simpl in Hx'. by simplify_eq. }
  assert (Heach : forall i u c p x, l !! i = Some (u, c) -> s !! u = Some p -> each !! i = Some x ->
    x = p + Pts.total_of u (take i l) + Z.max 0 c).
  { intros i u c p x Hi Hp Hx. rewrite (Hps _ _ _ _ _ Hi Hp Hx).
    rewrite (take_S_r _ _ _ Hi), Pts.total_of_app. simpl.
    rewrite bool_decide_eq_true_2 by done. lia. }
  exists bulk, each, t. split_and!; [done..|]. intros Hnd.
  assert (Hlb : length bulk = length users)
    by (apply mapM_Some_1, Forall2_length in Hm; lia).
  assert (Hll : length l = length users) by (unfold l; rewrite length_zip; lia).
  apply list_eq_same_length with (n := length users); [lia|lia|].
  intros i x y Hi Hx Hy.
  destruct (lookup_lt_is_Some_2 users i Hi) as [u Hu].
  destruct (lookup_lt_is_Some_2 counts i ltac:(lia)) as [c Hc].
  assert (Hlu : l !! i = Some (u, c)) by (unfold l; apply lookup_zip_Some; done).
  destruct (Hrows u) as [p Hp]; [by eapply list_elem_of_lookup_2|].
  rewrite (Hbulk _ _ _ _ Hu Hp Hx), (Heach _ _ _ _ _ Hlu Hp Hy).
  rewrite <- (take_drop_middle l i (u, c)) at 1 by done.
  rewrite Pts.total_of_app. simpl. rewrite bool_decide_eq_true_2 by done.
  assert (Pts.total_of u (drop (S i) l) = 0) as ->; [|lia].
  assert (Hn : forall d, ~ (u, d) ∈ drop (S i) l).
  { intros d Hd. apply list_elem_of_lookup in Hd as [j Hj]. rewrite lookup_drop in Hj.
    unfold l in Hj. apply lookup_zip_Some in Hj as [Hj _].
    pose proof (NoDup_lookup _ _ _ _ Hnd Hu Hj). lia. }
  clear -Hn. induction (drop (S i) l) as [|[a b] k IH]; [done|]. simpl.
  rewrite bool_decide_eq_false_2; [|intros ->; eapply Hn; by left].
  rewrite IH; [done|]. intros d Hd. eapply Hn. by right.
Qed.

Lemma pts_allocation_witness :
  exists bulk each t,
    Pts.add_pts_bulk [7; 9; 7] [2; 0; 3] {[7 := 10; 9 := 1]} = (Ok bulk, t) /\
    Pts.add_pts_each [(7, 2); (9, 0); (7, 3)] {[7 := 10; 9 := 1]} = (Ok each, t).
Proof.
  destruct (pts_allocation [7; 9; 7] [2; 0; 3] {[7 := 10; 9 := 1]}) as (b & e & t & H1 & H2 & _).
  - reflexivity.
  - intros u Hu. repeat (apply elem_of_cons in Hu as [->|Hu]; [eexists; reflexivity|]).
    by apply elem_of_nil in Hu.
  - exists b, e, t. split; [exact H1|exact H2].
Defined.
