(* ===== verification/Cache.v ===== *)
(** [SerializationUtils] ([piltover/tl/serialization_utils.py]) and the cache
    serializer [TLSerializer] ([piltover/cache.py]) on top of it. *)
From Stdlib Require Import Init.Byte.
From S2P Require Import Prelude PyBytes TlPrimitives TlObject TlRoundtrip.

(** A Python value that may be handed to [SerializationUtils.write]: [PTyped t v]
    is one of the classes the TL layer knows (a [primitives.Int] subclass, [float],
    [bool], [bytes], [str], a vector class or a [TLObject]); [PInt] and [PList]
    are a plain [int] and a plain [list], [POther] everything else. *)
Inductive pyval :=
  | PTyped (t : tltype) (v : tlval)
  | PInt (z : Z)
  | PList (empty : bool)
  | PArray (cls : int_class) (l : list Z)
  | POther.

(** The entries of [TLSerializer._TYPES], in its order *)
Definition TYPES : list tltype :=
  [ TyObject; TyInt Int; TyInt Long; TyInt Int128; TyInt Int256; TyDouble; TyBool; TyBytes;
    TyString; TyVector (EInt Int); TyVector (EInt Long); TyVector EDouble; TyVector (EInt Int128);
    TyVector (EInt Int256); TyVector EBool; TyVector EBytes; TyVector EString; TyVector EObject ].

#[export] Instance elem_type_eq_dec : EqDecision elem_type.
Proof. solve_decision. Defined.
#[export] Instance tltype_eq_dec : EqDecision tltype.
Proof. solve_decision. Defined.

Definition is_tlobject (p : pyval) : bool :=
  match p with PTyped TyObject _ | PTyped (TyExact _) _ => true | _ => false end.

Lemma TYPES_no_exact id : ~ TyExact id ∈ TYPES.
Proof. rewrite list_elem_of_In. cbn. intuition discriminate. Qed.

Section Cache.
Variable objects : Z -> option Combinator.
Variable decompress : bytes -> result bytes.

Definition su_write (value : pyval) : result bytes :=
  match value with
  | PInt _ => Raise TypeError
  | PTyped (TyExact _) v => object_write objects v
  | PTyped TyObject v => object_write objects v
  | PTyped t v => value_write objects v t
  | PList empty => if empty then Ok EMPTY_VECTOR else Raise TypeError
  | PArray cls l => primitive_vector_write (fun v => int_write cls v true) l
  | POther => Raise TypeError
  end.

(** The [bool] branch compares with [BOOL_TRUE] and checks nothing else. *)
Definition su_read (fuel : nat) (type_ : tltype) : reader tlval :=
  match type_ with
  | TyBool => c ← bio_read 4; mret (VBool (bool_decide (c = BOOL_TRUE)))
  | TyExact _ => value_read objects decompress fuel TyObject
  | _ => value_read objects decompress fuel type_
  end.

Fixpoint index_of (t : tltype) (l : list tltype) : option nat :=
  match l with
  | [] => None
  | x :: l => if decide (x = t) then Some O else S <$> index_of t l
  end.

(** [self._TYPES_TO_INT[typ]] *)
Definition type_to_int (t : tltype) : result Z :=
  match index_of t TYPES with Some i => Ok (Z.of_nat i) | None => Raise KeyError end.

Definition dumps (value : pyval) : result bytes :=
  '(ser_type, to_write) ←
    (if is_tlobject value then Ok (0, value)
     else match value with
     | PInt z => i ← type_to_int (TyInt Int); Ok (i, PTyped (TyInt Int) (VInt z))
     | PTyped t _ => i ← type_to_int t; Ok (i, value)
     | _ => Raise KeyError
     end);
  data ← su_write to_write;
  Ok (byte_of ser_type :: data).

Definition loads (fuel : nat) (value : option bytes) : result (option tlval) :=
  match value with
  | None => Ok None
  | Some [] => Ok None
  | Some (b :: rest) =>
    if (length (b :: rest) <? 5)%nat || (byte_val b <? 0)
       || (Z.of_nat (length TYPES) <? byte_val b) then Ok None
    else match TYPES !! Z.to_nat (byte_val b) with
         | None => Raise IndexError
         | Some typ => '(v, _) ← su_read fuel typ rest; Ok (Some v)
         end
  end.

Lemma index_of_lookup t l i : index_of t l = Some i -> l !! i = Some t.
Proof.
  revert i. induction l as [|x l IH]; intros i; cbn; [done|]. case_decide; [by intros [= <-]; subst|].
  destruct (index_of t l); intros [= <-]. cbn. by apply IH.
Qed.

Lemma su_read_write n t v bs rest : (forall id, t <> TyExact id) ->
  wt objects v t = true -> su_write (PTyped t v) = Ok bs -> (depth v <= n)%nat ->
  su_read n t (bs ++ rest) = Ok (v, rest).
Proof.
  intros He Hwt Hw Hd.
  destruct t; try (by apply (value_read_write objects decompress n v Hd)).
  - destruct v; try done. apply Ok_inj in Hw as <-. destruct b; reflexivity.
  - destruct v; try done. by apply (value_read_write objects decompress n _ Hd).
  - by destruct (He id).
Qed.

Lemma header_length n h : header n = Ok h -> (4 <= length h)%nat.
Proof.
  intros Hn. unfold header in Hn. apply result_bind_ok in Hn as (c & _ & Hn).
  apply Ok_inj in Hn as <-. rewrite length_app. cbn. lia.
Qed.

Lemma vector_write_length {A} (p : Primitive A) l bs :
  vector_write p l = Ok bs -> (4 <= length bs)%nat.
Proof.
  intros Hw. unfold vector_write in Hw. apply result_bind_ok in Hw as (h & Hh%header_length & Hw).
  apply result_bind_ok in Hw as (bss & _ & Hw). apply Ok_inj in Hw as <-. rewrite length_app. lia.
Qed.

Lemma primitive_vector_write_length {A} (enc : A -> result bytes) l bs :
  primitive_vector_write enc l = Ok bs -> (4 <= length bs)%nat.
Proof.
  intros Hw. unfold primitive_vector_write in Hw. apply result_bind_ok in Hw as (arr & _ & Hw).
  apply result_bind_ok in Hw as (h & Hh%header_length & Hw).
  apply Ok_inj in Hw as <-. rewrite length_app. lia.
Qed.

Lemma base_vector_write_length e v bs :
  base_vector_write e v = Ok bs -> (4 <= length bs)%nat.
Proof.
  intros Hw. destruct e as [[]| | | | |], v; try done; cbn [base_vector_write] in Hw;
    first [by apply vector_write_length in Hw | by apply primitive_vector_write_length in Hw].
Qed.

Lemma bytes_write_length v bs : bytes_write v = Ok bs -> (4 <= length bs)%nat.
Proof.
  intros Hw. assert (length bs mod 4 = 0 /\ bs <> [])%nat as [Hm Hne].
  2:{ destruct bs as [|? [|? [|? [|? ?]]]]; try done. cbn. lia. }
  split; [|intros ->; by pose proof (bytes_read_write v [] [] Hw)].
  destruct (decide (length v < 254)%nat).
  - rewrite bytes_write_short in Hw by done. apply Ok_inj in Hw as <-.
    unfold zero_bytes. cbn [length]. rewrite length_app, length_replicate. apply (pad4_total (S (length v))).
  - rewrite bytes_write_long in Hw by lia. apply result_bind_ok in Hw as (l & Hl & Hw).
    apply to_bytes_le_length in Hl. apply Ok_inj in Hw as <-. cbn [length]. unfold zero_bytes.
    rewrite !length_app, length_replicate, Hl.
    replace (S _) with (length v + pad4 (length v) + 1 * 4)%nat by lia.
    rewrite Nat.Div0.mod_add. apply pad4_total.
Qed.

Lemma int_write_length_ge cls z bs : cls <> BigInt -> int_write cls z true = Ok bs -> (4 <= length bs)%nat.
Proof. intros Hc ->%int_write_length. destruct cls; try done; cbn; lia. Qed.

Lemma value_write_length v t bs : wt objects v t = true -> value_write objects v t = Ok bs ->
  (4 <= length bs)%nat.
Proof.
  intros Hwt Hw. destruct v as [|z|x|b|b|s|l|l|l|l|l|l|id slots|]; try done.
  - destruct t; try done. by apply bool_decide_eq_true in Hwt; apply int_write_length_ge in Hw.
  - destruct t; try done. apply Ok_inj in Hw as <-. rewrite length_le_bytes. lia.
  - destruct t; try done; apply Ok_inj in Hw as <-; by destruct b; cbn; lia.
  - destruct t; try done. by apply bytes_write_length in Hw.
  - destruct t; try done. apply result_bind_ok in Hw as (u & _ & Hw). by apply bytes_write_length in Hw.
  - destruct t; try done. by apply base_vector_write_length in Hw.
  - destruct t; try done. by apply base_vector_write_length in Hw.
  - destruct t; try done. by apply base_vector_write_length in Hw.
  - destruct t; try done. by apply base_vector_write_length in Hw.
  - destruct t; try done. by apply base_vector_write_length in Hw.
  - destruct t as [| | | | | | |[]| |]; try done. apply result_bind_ok in Hw as (h & Hh%header_length & Hw).
    apply result_bind_ok in Hw as (bss & _ & Hw). apply Ok_inj in Hw as <-. rewrite length_app. lia.
  - assert (exists h b, bs = h ++ b /\ int_write Int id false = Ok h) as (h & b & -> & Hh).
    { assert (Hwt' : wt objects (VObj id slots) TyObject = true)
        by (cbn [wt] in Hwt |- *; by apply andb_prop in Hwt as [_ ->]).
      assert (Hw' : value_write objects (VObj id slots) TyObject = Ok bs) by (by destruct t).
      destruct (object_reads_back objects Ok (depth (VObj id slots)) id slots bs)
        as (h & b & ? & ? & _); eauto using value_read_write. }
    rewrite length_app. apply int_write_length in Hh. rewrite Hh. cbn. lia.
Qed.

Lemma dumps_loads n t v bs : t ∈ TYPES -> wt objects v t = true ->
  dumps (PTyped t v) = Ok bs -> (depth v <= n)%nat -> loads n (Some bs) = Ok (Some v).
Proof.
  intros Hin Hwt Hw Hd. unfold dumps in Hw.
  assert (exists i data, su_write (PTyped t v) = Ok data /\ bs = byte_of (Z.of_nat i) :: data /\
    TYPES !! i = Some t) as (i & data & Hdata & -> & Hi).
  { apply result_bind_ok in Hw as ([i w] & Hi & Hw). apply result_bind_ok in Hw as (data & Hdata & Hw).
    apply Ok_inj in Hw as <-. destruct (is_tlobject (PTyped t v)) eqn:Ho.
    - apply Ok_inj in Hi as [= <- <-]. exists O, data. split; [done|]. split; [done|].
      destruct t as [| | | | | | | | |id]; try done. by apply TYPES_no_exact in Hin.
    - unfold type_to_int in Hi. destruct (index_of t TYPES) as [j|] eqn:Hj; [|done].
      apply Ok_inj in Hi as [= <- <-]. exists j, data. eauto using index_of_lookup. }
  assert (Hex : forall id, t <> TyExact id) by (intros id ->; by apply TYPES_no_exact in Hin).
  assert (Hlen : (4 <= length data)%nat).
  { apply (value_write_length v t); [done|]. by destruct t; try exact Hdata; destruct v. }
  pose proof (lookup_lt_Some _ _ _ Hi) as Hlt. change (length TYPES) with 18%nat in Hlt.
  unfold loads. rewrite byte_val_of_small by lia.
  assert (((length (byte_of (Z.of_nat i) :: data) <? 5)%nat || (Z.of_nat i <? 0)
    || (Z.of_nat (length TYPES) <? Z.of_nat i)) = false) as ->.
  { change (length TYPES) with 18%nat. cbn [length].
    rewrite (proj2 (Nat.ltb_ge _ _)), !(proj2 (Z.ltb_ge _ _)) by lia. done. }
  rewrite Nat2Z.id, Hi. pose proof (su_read_write n t v data [] Hex Hwt Hdata Hd) as Hr.
  rewrite app_nil_r in Hr. by rewrite Hr.
Qed.
End Cache.

(** ** Properties *)

(** What [TLSerializer.dumps] stores for a value of any of its types,
    [TLSerializer.loads] returns; a plain [int] is stored as a signed 32-bit
    [Int] and refused with [OverflowError] beyond that; and a missing, too short
    or out-of-range entry loads as [None], except that the bound is
    [> len(_TYPES)], so that the tag 18 raises [IndexError]. *)
Theorem cache_roundtrip objects decompress n :
  (forall t v bs, t ∈ TYPES -> wt objects v t = true -> dumps objects (PTyped t v) = Ok bs ->
     (depth v <= n)%nat -> loads objects decompress n (Some bs) = Ok (Some v)) /\
  (forall z, dumps objects (PInt z) =
     if (- 2 ^ 31 <=? z) && (z <? 2 ^ 31) then Ok (byte_of 1 :: le_bytes 4 z) else Raise OverflowError) /\
  (forall bs, loads objects decompress n (Some bs) = Ok None <->
     (length bs < 5)%nat \/ exists b, head bs = Some b /\ 18 < byte_val b) /\
  (forall rest, (4 <= length rest)%nat ->
     loads objects decompress n (Some (byte_of 18 :: rest)) = Raise IndexError).
Proof.
  split; [by intros; eapply dumps_loads|]. split; [|split].
  - intros z. unfold dumps. cbn [is_tlobject].
    assert (type_to_int (TyInt Int) = Ok 1) as -> by reflexivity.
    unfold_monads. cbn [su_write value_write]. unfold int_write, to_bytes_le, fits.
    change (8 * Z.of_nat (SIZE Int) - 1) with 31. by destruct (_ && _).
  - intros [|b bs]; cbn [loads].
    { split; [|done]. intros _. left. cbn. lia. }
    pose proof (byte_val_range b). change (Z.of_nat (length TYPES)) with 18.
    destruct ((length (b :: bs) <? 5)%nat || (byte_val b <? 0) || (18 <? byte_val b)) eqn:E.
    + split; [|done]. intros _. apply orb_prop in E as [[E|E]%orb_prop|E]; b2p; [by left|lia|].
      right. by exists b.
    + b2p. split; [|intros [?|(b' & [= <-] & ?)]; lia].
      destruct (TYPES !! _); [|done]. unfold_monads. by destruct (su_read _ _ _ _ _) as [[]|].
  - intros rest Hl. unfold loads. rewrite byte_val_of_small by lia.
    destruct rest as [|? [|? [|? [|? ?]]]]; cbn in Hl; try lia. done.
Qed.
