(* ===== verification/Session.v ===== *)
(** The MTProto session: message ids, sequence numbers, salts, the tracking of
    completed RPCs, unacknowledged messages and the validation of incoming
    messages ([piltover/session/session.py], [piltover/tl/utils.py],
    [piltover/auth_data.py]). What a session does to the message broker is in
    SessionManager.v. *)
From Stdlib Require Import Init.Byte Sorting.Sorted.
From S2P Require Import Prelude PyBytes TlPrimitives TlObject.

(** ** [tl/utils.py] *)
Definition ID_MsgsAck : Z := 0x62d6b459.
Definition ID_MsgsStateReq : Z := 0xda69fb52.
Definition ID_MsgsStateInfo : Z := 0x04deb57d.

Definition tlid (obj : tlval) : Z := match obj with VObj id _ => id | _ => 0 end.

Definition is_id_strictly_not_content_related (obj_id : Z) : bool :=
  bool_decide (obj_id ∈ [ID_MsgsAck; ID_MsgsStateReq; ID_MsgsStateInfo; ID_MsgContainer]).
Definition is_id_strictly_content_related (obj_id : Z) : bool := obj_id =? ID_RpcResult.
Definition is_content_related (obj : tlval) : bool :=
  negb (is_id_strictly_not_content_related (tlid obj)).

(** ** [auth_data.py] *)
Record AuthData := MkAuthData {
  auth_key_id : option Z;
  auth_key : option bytes;
  is_temp : bool;
  perm_auth_key_id : option Z;
}.

Definition new_AuthData (auth_key_id : option Z) (auth_key : option bytes)
    (perm_auth_key_id : option Z) : AuthData :=
  MkAuthData auth_key_id auth_key (negb (bool_decide (auth_key_id = perm_auth_key_id))) perm_auth_key_id.

Definition check_key (self : AuthData) (expected_auth_key_id : option Z) : bool :=
  match auth_key self, expected_auth_key_id with
  | Some _, Some k => bool_decide (auth_key_id self = Some k)
  | _, _ => false
  end.

(** ** The state of a session, grouped by what the methods use together.
    [time()] is an integer number of microseconds. *)
Record Salt := MkSalt { salt : bytes; valid_at : Z }.

Record MsgIdValues := MkMsgIdValues { last_time : Z; offset : Z }.

(** Outgoing messages *)
Record Outbound := MkOutbound {
  msg_id_values : MsgIdValues;
  out_seq_no : Z;
  message_queue : list (Z * Z * bytes);
  unencrypted_queue : list (Z * bytes);
  pending_outbound : list (Z * (Z * bytes));   (* OrderedDict *)
  resend_pending_on_connect : bool;
}.

(** Completed RPCs: [_rpc_completions] maps a message id to whether its
    [Event] is set. *)
Record RpcTrack := MkRpcTrack {
  rpc_completions : gmap Z bool;
  rpc_completed_ids : gset Z;
  rpc_completed_order : list Z;
}.

(** Who is logged in *)
Record AuthState := MkAuthState {
  user_id : option Z;
  auth_id : option Z;
  is_bot : bool;
  mfa_pending : bool;
  auth_loaded_at : Z;
  channel_ids : gset Z;
  channels_loaded_at : Z;
  upd_seq : option Z;
}.

Record Session := MkSession {
  client : option Z;
  session_id : Z;
  auth_data : option AuthData;
  auth : AuthState;
  out : Outbound;
  rpc : RpcTrack;
  salt_now : Salt;
  salt_prev : Salt;
  layer : Z;
  is_internal_push : bool;
  had_init_connection : bool;
  message_available : option Z;   (* the client whose event it is *)
  cleanup_task : bool;            (* a cleanup task that is not done *)
  min_msg_id : Z;
  no_updates : bool;
}.

Definition no_salt : Salt := MkSalt (zero_bytes 8) 0.
Definition no_auth : AuthState := MkAuthState None None false false 0 ∅ 0 None.
Definition new_Session (session_id : Z) (client : option Z) (auth_data : option AuthData) : Session :=
  MkSession client session_id auth_data no_auth
    (MkOutbound (MkMsgIdValues 0 0) 0 [] [] [] false) (MkRpcTrack ∅ ∅ [])
    no_salt no_salt 133 false false None false 0 false.

Definition with_client (c : option Z) (s : Session) : Session :=
  MkSession c (session_id s) (auth_data s) (auth s) (out s) (rpc s) (salt_now s) (salt_prev s)
    (layer s) (is_internal_push s) (had_init_connection s) (message_available s) (cleanup_task s) (min_msg_id s) (no_updates s).
Definition with_auth_data (a : option AuthData) (s : Session) : Session :=
  MkSession (client s) (session_id s) a (auth s) (out s) (rpc s) (salt_now s) (salt_prev s)
    (layer s) (is_internal_push s) (had_init_connection s) (message_available s) (cleanup_task s) (min_msg_id s) (no_updates s).
Definition with_auth (a : AuthState) (s : Session) : Session :=
  MkSession (client s) (session_id s) (auth_data s) a (out s) (rpc s) (salt_now s) (salt_prev s)
    (layer s) (is_internal_push s) (had_init_connection s) (message_available s) (cleanup_task s) (min_msg_id s) (no_updates s).
Definition with_out (o : Outbound) (s : Session) : Session :=
  MkSession (client s) (session_id s) (auth_data s) (auth s) o (rpc s) (salt_now s) (salt_prev s)
    (layer s) (is_internal_push s) (had_init_connection s) (message_available s) (cleanup_task s) (min_msg_id s) (no_updates s).
Definition with_rpc (r : RpcTrack) (s : Session) : Session :=
  MkSession (client s) (session_id s) (auth_data s) (auth s) (out s) r (salt_now s) (salt_prev s)
    (layer s) (is_internal_push s) (had_init_connection s) (message_available s) (cleanup_task s) (min_msg_id s) (no_updates s).
Definition with_salts (n p : Salt) (s : Session) : Session :=
  MkSession (client s) (session_id s) (auth_data s) (auth s) (out s) (rpc s) n p
    (layer s) (is_internal_push s) (had_init_connection s) (message_available s) (cleanup_task s) (min_msg_id s) (no_updates s).
Definition with_layer (l : Z) (s : Session) : Session :=
  MkSession (client s) (session_id s) (auth_data s) (auth s) (out s) (rpc s) (salt_now s) (salt_prev s)
    l (is_internal_push s) (had_init_connection s) (message_available s) (cleanup_task s) (min_msg_id s) (no_updates s).
Definition with_internal_push (b : bool) (s : Session) : Session :=
  MkSession (client s) (session_id s) (auth_data s) (auth s) (out s) (rpc s) (salt_now s) (salt_prev s)
    (layer s) b (had_init_connection s) (message_available s) (cleanup_task s) (min_msg_id s) (no_updates s).
Definition with_init (b : bool) (s : Session) : Session :=
  MkSession (client s) (session_id s) (auth_data s) (auth s) (out s) (rpc s) (salt_now s) (salt_prev s)
    (layer s) (is_internal_push s) b (message_available s) (cleanup_task s) (min_msg_id s) (no_updates s).
Definition with_event (e : option Z) (s : Session) : Session :=
  MkSession (client s) (session_id s) (auth_data s) (auth s) (out s) (rpc s) (salt_now s) (salt_prev s)
    (layer s) (is_internal_push s) (had_init_connection s) e (cleanup_task s) (min_msg_id s) (no_updates s).
Definition with_cleanup (b : bool) (s : Session) : Session :=
  MkSession (client s) (session_id s) (auth_data s) (auth s) (out s) (rpc s) (salt_now s) (salt_prev s)
    (layer s) (is_internal_push s) (had_init_connection s) (message_available s) b (min_msg_id s) (no_updates s).
Definition with_min_msg_id (m : Z) (s : Session) : Session :=
  MkSession (client s) (session_id s) (auth_data s) (auth s) (out s) (rpc s) (salt_now s) (salt_prev s)
    (layer s) (is_internal_push s) (had_init_connection s) (message_available s) (cleanup_task s) m (no_updates s).

Definition with_no_updates (b : bool) (s : Session) : Session :=
  MkSession (client s) (session_id s) (auth_data s) (auth s) (out s) (rpc s) (salt_now s) (salt_prev s)
    (layer s) (is_internal_push s) (had_init_connection s) (message_available s) (cleanup_task s)
    (min_msg_id s) b.

Definition uniq_id (self : Session) : Z * Z :=
  (default 0 (auth_data self ≫= auth_key_id), session_id self).

(** ** Message ids and sequence numbers *)
Definition microseconds : Z := 1000000.

(** [msg_id]; the [assert] cannot fail and is proved in [msg_id_parity]. *)
Definition msg_id (time : Z) (in_reply : bool) (v : MsgIdValues) : Z * MsgIdValues :=
  let now := time / microseconds in
  let offset := if now =? last_time v then offset v + 4 else 0 in
  (now * 2 ^ 32 + offset + (if in_reply then 1 else 3), MkMsgIdValues now offset).

Definition get_outgoing_seq_no (obj : tlval) (out_seq_no : Z) : Z * Z :=
  let ret := out_seq_no * 2 in
  if is_content_related obj then (ret + 1, out_seq_no + 1) else (ret, out_seq_no).

Definition with_ids (v : MsgIdValues) (n : Z) (o : Outbound) : Outbound :=
  MkOutbound v n (message_queue o) (unencrypted_queue o) (pending_outbound o) (resend_pending_on_connect o).

(** [Message(message_id, seq_no, obj)] *)
Definition pack_message (time : Z) (obj : tlval) (in_reply : bool) (o : Outbound)
    : (Z * Z * tlval) * Outbound :=
  let '(mid, v) := msg_id time in_reply (msg_id_values o) in
  let '(seq, n) := get_outgoing_seq_no obj (out_seq_no o) in
  ((mid, seq, obj), with_ids v n o).

(** The comprehension of [pack_container]; [time()] is read once per message. *)
Fixpoint pack_messages (objects : list (Z * (tlval * bool))) (o : Outbound)
    : list (Z * Z * tlval) * Outbound :=
  match objects with
  | [] => ([], o)
  | (time, (obj, in_reply)) :: objects =>
    let '(m, o) := pack_message time obj in_reply o in
    let '(ms, o) := pack_messages objects o in
    (m :: ms, o)
  end.

Definition message_val (m : Z * Z * tlval) : tlval :=
  let '(mid, seq, obj) := m in VObj ID_Message [VInt mid; VInt seq; obj].

Definition pack_container (objects : list (Z * (tlval * bool))) (time : Z) (o : Outbound)
    : (Z * Z * tlval) * Outbound :=
  let '(ms, o) := pack_messages objects o in
  pack_message time (VObj ID_MsgContainer [VObjs (map message_val ms)]) false o.

(** ** Unacknowledged messages *)
Fixpoint od_set {V} (k : Z) (v : V) (l : list (Z * V)) : list (Z * V) :=
  match l with
  | [] => [(k, v)]
  | (k', v') :: l => if k' =? k then (k, v) :: l else (k', v') :: od_set k v l
  end.
Definition od_pop {V} (k : Z) (l : list (Z * V)) : list (Z * V) :=
  filter (fun kv => kv.1 <> k) l.

Definition with_pending (p : list (Z * (Z * bytes))) (o : Outbound) : Outbound :=
  MkOutbound (msg_id_values o) (out_seq_no o) (message_queue o) (unencrypted_queue o) p
    (resend_pending_on_connect o).

Definition track_pending_outbound (message_id seq_no : Z) (data : bytes) (o : Outbound) : Outbound :=
  with_pending (od_set message_id (seq_no, data) (pending_outbound o)) o.

Definition ack_outbound (msg_ids : list Z) (o : Outbound) : Outbound :=
  with_pending (foldl (fun p m => od_pop m p) (pending_outbound o) msg_ids) o.

(** ** Completed RPCs *)
Definition RPC_COMPLETION_TRACK_LIMIT : nat := 256.

(** [_prune_rpc_completions]: an empty [deque] raises [IndexError]. *)
Fixpoint prune (fuel : nat) (r : RpcTrack) : result RpcTrack :=
  if (RPC_COMPLETION_TRACK_LIMIT <? size (rpc_completed_ids r))%nat then
    match fuel with
    | O => Raise OutOfFuel
    | S fuel =>
      match rpc_completed_order r with
      | [] => Raise IndexError
      | oldest :: order =>
        prune fuel (MkRpcTrack (delete oldest (rpc_completions r))
                               (rpc_completed_ids r ∖ {[oldest]}) order)
      end
    end
  else Ok r.

(** Every pass takes one element of the deque. *)
Definition prune_rpc_completions (r : RpcTrack) : result RpcTrack :=
  prune (S (length (rpc_completed_order r))) r.

Definition mark_rpc_completed (msg_id : Z) (r : RpcTrack) : result RpcTrack :=
  r ← (if decide (msg_id ∈ rpc_completed_ids r) then Ok r
       else prune_rpc_completions
              (MkRpcTrack (rpc_completions r) ({[msg_id]} ∪ rpc_completed_ids r)
                          (rpc_completed_order r ++ [msg_id])));
  Ok (match rpc_completions r !! msg_id with
      | Some _ => MkRpcTrack (<[msg_id := true]> (rpc_completions r)) (rpc_completed_ids r)
                             (rpc_completed_order r)
      | None => r
      end).

(** [wait_for_rpc] up to the [wait]: [true] when it returns at once; otherwise
    the caller waits for the event of [msg_id]. *)
Definition wait_for_rpc (msg_id : Z) (r : RpcTrack) : bool * RpcTrack :=
  if decide (msg_id ∈ rpc_completed_ids r) then (true, r)
  else match rpc_completions r !! msg_id with
       | Some is_set => (is_set, r)
       | None => (false, MkRpcTrack (<[msg_id := false]> (rpc_completions r))
                                    (rpc_completed_ids r) (rpc_completed_order r))
       end.

(** ** Salts *)
Section Salts.
(** [hmac.new(key, msg, hashlib.sha1).digest()] *)
Variable hmac_sha1 : bytes -> bytes -> bytes.

Definition make_salt (salt_key : bytes) (auth_key_id timestamp : Z) : result bytes :=
  k ← int_write Long auth_key_id true;
  t ← int_write Int timestamp true;
  Ok (take 8 (hmac_sha1 salt_key (k ++ t))).

Definition salt_period : Z := 30 * 60.

Definition update_salts_maybe (salt_key : bytes) (time : Z) (force : bool) (self : Session)
    : result Session :=
  match auth_data self ≫= auth_key_id with
  | None => Ok (with_salts no_salt no_salt self)
  | Some key_id =>
    let now := time / (microseconds * salt_period) in
    if (valid_at (salt_now self) =? now) && negb force then Ok self
    else
      s ← make_salt salt_key key_id now;
      p ← make_salt salt_key key_id (now - 1);
      Ok (with_salts (MkSalt s now) (MkSalt p (now - 1)) self)
  end.
End Salts.

(** ** Incoming messages *)
Record DecryptedMessagePacket := MkDecrypted {
  p_salt : bytes;
  p_session_id : Z;
  p_message_id : Z;
  p_seq_no : Z;
  p_data : bytes;
}.

(** The error code [is_message_bad] answers with, 0 for a good message *)
Definition message_error_code (time : Z) (packet : DecryptedMessagePacket) (inner_id : Z) : Z :=
  let sent := Z.shiftr (p_message_id packet) 32 * microseconds in
  if negb (p_message_id packet mod 4 =? 0) then 18
  else if sent <? time - 300 * microseconds then 16
  else if time + 30 * microseconds <? sent then 17
  else if (Z.land (p_seq_no packet) 1 =? 1) && is_id_strictly_not_content_related inner_id then 34
  else if (Z.land (p_seq_no packet) 1 =? 0) && is_id_strictly_content_related inner_id then 35
  else 0.

Inductive verdict := MessageOk | BadMsg (error_code : Z) | BadSalt (new_server_salt : Z).

(** [is_message_bad] without the [enqueue] of its answer: what it answers *)
Definition is_message_bad (time : Z) (packet : DecryptedMessagePacket) (check_salt : bool)
    (self : Session) : result verdict :=
  inner_id ← read_bytes Int (take 4 (p_data packet)) false;
  let error_code := message_error_code time packet inner_id in
  if negb (error_code =? 0) then Ok (BadMsg error_code)
  else if check_salt
       && negb (bool_decide (p_salt packet ∈ [salt (salt_now self); salt (salt_prev self)]))
  then new_salt ← read_bytes Long (salt (salt_now self)) true; Ok (BadSalt new_salt)
  else Ok MessageOk.

(** ** Lemmas: message ids *)
Fixpoint msg_ids (calls : list (Z * bool)) (v : MsgIdValues) : list Z :=
  match calls with
  | [] => []
  | (time, in_reply) :: calls =>
    let '(m, v) := msg_id time in_reply v in m :: msg_ids calls v
  end.

Lemma msg_id_parity time in_reply v : 0 <= offset v -> offset v mod 4 = 0 ->
  (msg_id time in_reply v).1 mod 4 = (if in_reply then 1 else 3) /\
  offset (msg_id time in_reply v).2 mod 4 = 0 /\ 0 <= offset (msg_id time in_reply v).2.
Proof.
  intros H0 Hm. unfold msg_id. cbn [fst snd offset].
  set (off := if _ =? _ then _ else _).
  assert (off mod 4 = 0 /\ 0 <= off) as [Ho Hp].
  { unfold off. destruct (_ =? _); [|done]. split; [|lia].
    rewrite <- Z.add_mod_idemp_r, Z.mod_same, Z.add_0_r by lia. done. }
  split; [|done]. replace (2 ^ 32) with (2 ^ 30 * 4) by done.
  rewrite Z.mul_assoc, <- Z.add_assoc, Z.add_comm, Z_mod_plus_full, <- Z.add_mod_idemp_l, Ho by lia.
  by destruct in_reply.
Qed.

(** [msg_id] advances by at least two while the clock does not step back. *)
Lemma msg_id_increases t t' r r' v :
  0 <= offset (msg_id t r v).2 < 2 ^ 32 - 4 -> t / microseconds <= t' / microseconds ->
  (msg_id t r v).1 < (msg_id t' r' (msg_id t r v).2).1.
Proof.
  unfold msg_id. cbn [fst snd offset last_time]. set (off := if _ =? last_time v then _ else _).
  intros Ho Ht. destruct (t' / microseconds =? t / microseconds) eqn:E; b2p.
  - rewrite E. destruct r, r'; lia.
  - assert (t / microseconds + 1 <= t' / microseconds) by lia.
    destruct r, r'; nia.
Qed.

Lemma msg_ids_sorted calls v :
  Sorted (fun c c' : Z * bool => c.1 / microseconds <= c'.1 / microseconds) calls ->
  0 <= offset v -> offset v mod 4 = 0 -> offset v + 4 * Z.of_nat (length calls) < 2 ^ 32 - 4 ->
  Sorted Z.lt (msg_ids calls v) /\
  Forall2 (fun (c : Z * bool) m => m mod 4 = if c.2 then 1 else 3) calls (msg_ids calls v).
Proof.
  revert v. induction calls as [|[t r] calls IH]; intros v Hs H0 Hm Hl; [by split; constructor|].
  destruct (msg_id_parity t r v H0 Hm) as (Hp & Hm' & H0').
  assert (Ho : offset (msg_id t r v).2 <= offset v + 4).
  { unfold msg_id. cbn [snd offset]. destruct (_ =? _); lia. }
  assert (Hgt := fun t' r' => msg_id_increases t t' r r' v).
  cbn [msg_ids]. destruct (msg_id t r v) as [m v'] eqn:E. cbn [fst snd] in *.
  apply Sorted_inv in Hs as [Hs Hh]. cbn [length] in Hl.
  destruct (IH v') as [Hs' Hf]; [done..|lia|].
  split; [|by constructor]. constructor; [done|].
  destruct calls as [|[t' r'] calls]; [constructor|]. apply HdRel_inv in Hh. cbn [fst] in Hh.
  cbn [msg_ids length] in *. pose proof (Hgt t' r' ltac:(lia) Hh).
  destruct (msg_id t' r' v') as [m' v'']. by constructor.
Qed.

(** ** Lemmas: completed RPCs *)
Definition rpc_wf (r : RpcTrack) : Prop :=
  NoDup (rpc_completed_order r) /\ list_to_set (rpc_completed_order r) = rpc_completed_ids r /\
  (length (rpc_completed_order r) <= RPC_COMPLETION_TRACK_LIMIT)%nat /\
  (forall m, m ∈ rpc_completed_ids r -> rpc_completions r !! m <> Some false).

Lemma size_order (r : RpcTrack) :
  NoDup (rpc_completed_order r) -> list_to_set (rpc_completed_order r) = rpc_completed_ids r ->
  size (rpc_completed_ids r) = length (rpc_completed_order r).
Proof. intros Hn <-. by apply size_list_to_set. Qed.

Lemma prune_done n r : (size (rpc_completed_ids r) <= RPC_COMPLETION_TRACK_LIMIT)%nat ->
  prune n r = Ok r.
Proof. intros H. destruct n; cbn [prune]; by rewrite (proj2 (Nat.ltb_ge _ _)). Qed.

(** What pruning gives: one element at most goes, the oldest. *)
Lemma prune_full m r : rpc_wf r -> m ∉ rpc_completed_ids r ->
  prune_rpc_completions
    (MkRpcTrack (rpc_completions r) ({[m]} ∪ rpc_completed_ids r) (rpc_completed_order r ++ [m])) =
  Ok (if decide (length (rpc_completed_order r) < RPC_COMPLETION_TRACK_LIMIT)%nat
      then MkRpcTrack (rpc_completions r) ({[m]} ∪ rpc_completed_ids r) (rpc_completed_order r ++ [m])
      else MkRpcTrack (delete (default 0 (head (rpc_completed_order r))) (rpc_completions r))
             (({[m]} ∪ rpc_completed_ids r) ∖ {[default 0 (head (rpc_completed_order r))]})
             (tail (rpc_completed_order r) ++ [m])).
Proof.
  intros (Hn & Hset & Hlen & _) Hm. unfold prune_rpc_completions. cbn [rpc_completed_order].
  assert (Hsz : size ({[m]} ∪ rpc_completed_ids r) = S (length (rpc_completed_order r))).
  { rewrite <- (size_order r Hn Hset). clear Hset. rewrite size_union by set_solver.
    by rewrite size_singleton. }
  rewrite length_app. cbn [prune rpc_completed_ids]. rewrite Hsz.
  destruct (decide (length (rpc_completed_order r) < RPC_COMPLETION_TRACK_LIMIT)%nat) as [Hlt|Hge].
  - by rewrite (proj2 (Nat.ltb_ge _ _)) by lia.
  - assert (length (rpc_completed_order r) = RPC_COMPLETION_TRACK_LIMIT) as He by lia.
    rewrite (proj2 (Nat.ltb_lt _ _)) by lia. rewrite He.
    destruct (rpc_completed_order r) as [|o order] eqn:Eo; [done|]. cbn [app rpc_completed_order head tail default].
    set (r' := MkRpcTrack _ _ _). cbn [length Nat.add prune].
    rewrite prune_done; [done|]. unfold r'. cbn [rpc_completed_ids]. rewrite size_difference.
    + rewrite Hsz, size_singleton, <- He. cbn [length]. lia.
    + rewrite <- Hset. set_solver.
Qed.

(** The deque of completed ids after one more completion *)
Definition mark_order (order : list Z) (m : Z) : list Z :=
  if decide (m ∈ order) then order
  else (if decide (length order < RPC_COMPLETION_TRACK_LIMIT)%nat then order else tail order) ++ [m].

Lemma mark_order_NoDup order m : NoDup order -> NoDup (mark_order order m).
Proof.
  intros Hn. unfold mark_order. case_decide as Hm; [done|].
  apply NoDup_app. split; [|split; [|apply NoDup_singleton]].
  - case_decide; [done|]. destruct order; [done|]. by apply NoDup_cons in Hn as [_ ?].
  - intros x Hx ->%list_elem_of_singleton. apply Hm. case_decide; [done|].
    destruct order; [done|]. by right.
Qed.

Lemma mark_order_length order m : (length order <= RPC_COMPLETION_TRACK_LIMIT)%nat ->
  (length (mark_order order m) <= RPC_COMPLETION_TRACK_LIMIT)%nat.
Proof.
  intros Hl. unfold mark_order. case_decide; [done|]. rewrite length_app. cbn [length].
  case_decide as Hd; [lia|]. unfold RPC_COMPLETION_TRACK_LIMIT in *.
  destruct order; cbn [length tail] in *; lia.
Qed.

Lemma mark_order_subset order m x : x ∈ mark_order order m -> x = m \/ x ∈ order.
Proof.
  unfold mark_order. case_decide; [by right|]. rewrite elem_of_app, list_elem_of_singleton.
  intros [Hx|Hx]; [right|by left]. case_decide; [done|]. destruct order; [done|]. by right.
Qed.

Lemma mark_order_here order m : m ∈ mark_order order m.
Proof. unfold mark_order. case_decide; [done|]. apply elem_of_app. right. by left. Qed.

(** One completion: the deque, and what happens to the events *)
Lemma mark_rpc_spec m r : rpc_wf r -> exists r',
  mark_rpc_completed m r = Ok r' /\ rpc_wf r' /\
  rpc_completed_order r' = mark_order (rpc_completed_order r) m /\
  (forall k, rpc_completions r !! k = Some false ->
     rpc_completions r' !! k = Some (bool_decide (k = m))).
Proof.
  intros Hwf. pose proof Hwf as (Hn & Hset & Hlen & Hev). unfold mark_rpc_completed.
  assert (exists r1, (if decide (m ∈ rpc_completed_ids r) then Ok r
       else prune_rpc_completions (MkRpcTrack (rpc_completions r) ({[m]} ∪ rpc_completed_ids r)
                          (rpc_completed_order r ++ [m]))) = Ok r1 /\
     rpc_completed_order r1 = mark_order (rpc_completed_order r) m /\
     list_to_set (rpc_completed_order r1) = rpc_completed_ids r1 /\
     (forall k, k <> m -> k ∈ rpc_completed_ids r1 -> rpc_completions r1 !! k <> Some false) /\
     (forall k, rpc_completions r !! k = Some false -> rpc_completions r1 !! k = Some false))
    as (r1 & -> & Ho & Hs & He & Hk).
  { unfold mark_order. destruct (decide (m ∈ rpc_completed_ids r)) as [Hm|Hm].
    - exists r. rewrite decide_True by (by rewrite <- Hset, elem_of_list_to_set in Hm). eauto 8.
    - rewrite prune_full by done. rewrite (decide_False (P := m ∈ rpc_completed_order r))
        by (by rewrite <- Hset, elem_of_list_to_set in Hm).
      eexists. split; [done|]. case_decide as Hd; cbn [rpc_completed_order rpc_completed_ids rpc_completions].
      + split; [done|]. split; [by rewrite list_to_set_app_L, Hset; cbn; set_solver|].
        split; [|done]. intros k Hkm Hin. apply Hev. set_solver.
      + split; [done|]. destruct (rpc_completed_order r) as [|o order] eqn:Eo.
        { unfold RPC_COMPLETION_TRACK_LIMIT in Hd. cbn in Hd. lia. }
        cbn [tail head default]. apply NoDup_cons in Hn as [Hno Hn].
        assert (o ∈ rpc_completed_ids r) as Hoin by (rewrite <- Hset; set_solver).
        split; [|split].
        * rewrite list_to_set_app_L. cbn in *. set_solver.
        * intros k Hkm Hin. apply elem_of_difference in Hin as [Hin Hko].
          rewrite not_elem_of_singleton in Hko. rewrite lookup_delete_ne by done.
          apply Hev. clear Hset. set_solver.
        * intros k Hf. rewrite lookup_delete_ne; [done|].
          intros Hok. subst k. by apply (Hev o). }
  cbn [mbind result_bind]. eexists. split; [done|].
  destruct (rpc_completions r1 !! m) as [b|] eqn:Em; cbn [rpc_completed_order rpc_completed_ids rpc_completions].
  - split.
    { split; [rewrite Ho; by apply mark_order_NoDup|]. split; [done|].
      split; [rewrite Ho; by apply mark_order_length|]. cbn. intros k Hin.
      destruct (decide (k = m)) as [->|Hne]; [by rewrite lookup_insert_eq|].
      rewrite lookup_insert_ne by done. by apply He. }
    split; [done|]. intros k Hf. case_bool_decide as Hkm; [subst; by rewrite lookup_insert_eq|].
    rewrite lookup_insert_ne by done. by apply Hk.
  - split.
    { split; [rewrite Ho; by apply mark_order_NoDup|]. split; [done|].
      split; [rewrite Ho; by apply mark_order_length|]. intros k Hin.
      destruct (decide (k = m)) as [->|Hne]; [by rewrite Em|]. by apply He. }
    split; [done|]. intros k Hf. case_bool_decide as Hkm; [|by apply Hk].
    subst. apply Hk in Hf. congruence.
Qed.

Fixpoint mark_all (ms : list Z) (r : RpcTrack) : result RpcTrack :=
  match ms with [] => Ok r | m :: ms => r ← mark_rpc_completed m r; mark_all ms r end.

(** An id is forgotten only after [RPC_COMPLETION_TRACK_LIMIT] later ones. *)
Lemma mark_order_window order m x pre suf :
  order = pre ++ x :: suf -> (length order <= RPC_COMPLETION_TRACK_LIMIT)%nat ->
  (S (length suf) < RPC_COMPLETION_TRACK_LIMIT)%nat ->
  exists pre' suf', mark_order order m = pre' ++ x :: suf' /\ (length suf' <= S (length suf))%nat.
Proof.
  intros -> Hl Hs. unfold mark_order. case_decide; [by exists pre, suf; eauto with lia|].
  case_decide as Hd.
  - exists pre, (suf ++ [m]). rewrite <- app_assoc. split; [done|]. rewrite length_app. cbn. lia.
  - destruct pre as [|p pre]; [cbn in *; lia|]. exists pre, (suf ++ [m]).
    cbn [app tail]. rewrite <- app_assoc. split; [done|]. rewrite length_app. cbn. lia.
Qed.

Lemma mark_all_window ms r x pre suf : rpc_wf r -> rpc_completed_order r = pre ++ x :: suf ->
  (length suf + length ms < RPC_COMPLETION_TRACK_LIMIT)%nat ->
  exists r', mark_all ms r = Ok r' /\ rpc_wf r' /\ x ∈ rpc_completed_ids r'.
Proof.
  revert r pre suf. induction ms as [|m ms IH]; intros r pre suf Hwf Ho Hl.
  - exists r. split; [done|]. split; [done|]. destruct Hwf as (_ & <- & _). rewrite Ho. set_solver.
  - destruct (mark_rpc_spec m r Hwf) as (r1 & Hm & Hwf1 & Ho1 & _). cbn [mark_all length] in *.
    rewrite Hm. cbn. pose proof Hwf as (_ & _ & Hlen & _).
    destruct (mark_order_window _ m x pre suf Ho Hlen ltac:(lia)) as (pre' & suf' & He & Hls).
    apply (IH r1 pre' suf'); [done|congruence|lia].
Qed.

(** ** Lemmas: containers *)
Definition content_count (objs : list tlval) : Z := Z.of_nat (length (filter (fun o => is_content_related o = true) objs)).

Lemma content_count_cons o objs :
  content_count (o :: objs) = (if is_content_related o then 1 else 0) + content_count objs.
Proof.
  unfold content_count. rewrite filter_cons. destruct (is_content_related o).
  - rewrite decide_True by done. cbn [length]. lia.
  - by rewrite decide_False by done.
Qed.

(** The calls to [msg_id] that packing makes *)
Definition calls_of (objects : list (Z * (tlval * bool))) : list (Z * bool) :=
  map (fun c => (c.1, c.2.2)) objects.

Lemma pack_messages_spec objects o ms o' : pack_messages objects o = (ms, o') ->
  map (fun m => m.1.1) ms = msg_ids (calls_of objects) (msg_id_values o) /\
  (forall calls, msg_ids (calls_of objects ++ calls) (msg_id_values o) =
     map (fun m => m.1.1) ms ++ msg_ids calls (msg_id_values o')) /\
  map snd ms = map (fun c => c.2.1) objects /\
  (forall i m, ms !! i = Some m ->
     m.1.2 = 2 * (out_seq_no o + content_count (take i (map snd ms)))
             + (if is_content_related m.2 then 1 else 0)) /\
  out_seq_no o' = out_seq_no o + content_count (map snd ms) /\
  message_queue o' = message_queue o /\ pending_outbound o' = pending_outbound o.
Proof.
  revert o ms o'. induction objects as [|[t [obj r]] objects IH]; intros o ms o'; cbn [pack_messages].
  { intros [= <- <-]. repeat split; try done. symmetry. apply Z.add_0_r. }
  unfold pack_message, get_outgoing_seq_no. cbn [calls_of map fst snd app msg_ids].
  destruct (msg_id t r (msg_id_values o)) as [mid v] eqn:Em.
  destruct (if is_content_related obj then _ else _) as [seq n] eqn:Es.
  destruct (pack_messages objects _) as [ms' o1] eqn:Ep. intros [= <- <-].
  destruct (IH _ _ _ Ep) as (H1 & H2 & H3 & H4 & H5 & H6 & H7). cbn in H5, H6, H7.
  cbn [map fst snd msg_id_values with_ids] in *.
  assert (Hsn : seq = 2 * out_seq_no o + (if is_content_related obj then 1 else 0) /\
    n = out_seq_no o + (if is_content_related obj then 1 else 0)).
  { destruct (is_content_related obj); injection Es as <- <-; lia. }
  destruct Hsn as [-> ->].
  split; [by rewrite H1|]. split; [intros calls; by rewrite H2|]. split; [by rewrite H3|].
  split; [|split; [by rewrite H5, content_count_cons; lia|done]].
  intros [|i] m Hm.
  - injection Hm as <-. cbn. unfold content_count. cbn. lia.
  - rewrite (H4 i m Hm). cbn [take]. rewrite content_count_cons. cbn [out_seq_no with_ids]. lia.
Qed.

(** ** Lemmas: salts *)
Section SaltLemmas.
Variable hmac_sha1 : bytes -> bytes -> bytes.

(** The salts are those of the period of [salt_now] and of the one before. *)
Definition salts_ok (salt_key : bytes) (s : Session) : Prop :=
  exists k, auth_data s ≫= auth_key_id = Some k /\
    make_salt hmac_sha1 salt_key k (valid_at (salt_now s)) = Ok (salt (salt_now s)) /\
    make_salt hmac_sha1 salt_key k (valid_at (salt_now s) - 1) = Ok (salt (salt_prev s)).

Lemma update_salts_spec salt_key time force s s' :
  is_Some (auth_data s ≫= auth_key_id) ->
  (valid_at (salt_now s) = time / (microseconds * salt_period) -> salts_ok salt_key s) ->
  update_salts_maybe hmac_sha1 salt_key time force s = Ok s' ->
  salts_ok salt_key s' /\ auth_data s' = auth_data s /\
  valid_at (salt_now s') = time / (microseconds * salt_period).
Proof.
  intros [k Hk] Hok. unfold update_salts_maybe. rewrite Hk.
  destruct (_ && _) eqn:E.
  - intros ->%Ok_inj. b2p. auto.
  - intros H. apply result_bind_ok in H as (a & Ha & H). apply result_bind_ok in H as (b & Hb & H).
    apply Ok_inj in H as <-. split; [|done]. by exists k.
Qed.
End SaltLemmas.

(** ** Properties *)

(** The ids a session gives to its messages are strictly increasing and
    carry 1 (answers) or 3 (notifications) modulo 4, as long as [time()] does
    not step back by a second and fewer than 2^29 messages are sent. *)
Theorem msg_ids_increasing (calls : list (Z * bool)) :
  Sorted (fun c c' : Z * bool => c.1 / microseconds <= c'.1 / microseconds) calls ->
  Z.of_nat (length calls) < 2 ^ 29 ->
  StronglySorted Z.lt (msg_ids calls (MkMsgIdValues 0 0)) /\
  Forall2 (fun (c : Z * bool) m => m mod 4 = if c.2 then 1 else 3) calls
    (msg_ids calls (MkMsgIdValues 0 0)).
Proof.
  intros Hs Hl. destruct (msg_ids_sorted calls (MkMsgIdValues 0 0)) as [H1 H2]; cbn; try done; [lia|].
  split; [|done]. apply Sorted_StronglySorted; [|done]. intros x y z; lia.
Qed.

Lemma msg_ids_increasing_witness :
  StronglySorted Z.lt (msg_ids [(5000000, true); (5900000, false); (7000000, true)] (MkMsgIdValues 0 0)) /\
  Forall2 (fun (c : Z * bool) m => m mod 4 = if c.2 then 1 else 3)
    [(5000000, true); (5900000, false); (7000000, true)]
    (msg_ids [(5000000, true); (5900000, false); (7000000, true)] (MkMsgIdValues 0 0)).
Proof.
  apply (msg_ids_increasing [(5000000, true); (5900000, false); (7000000, true)]).
  - repeat constructor; vm_compute; discriminate.
  - reflexivity.
Defined.

(** Once the clock steps back, an id can be given twice. *)
Example msg_ids_clock_back :
  msg_ids [(5000000, true); (4000000, true); (5000000, true)] (MkMsgIdValues 0 0) =
  [5 * 2 ^ 32 + 1; 4 * 2 ^ 32 + 1; 5 * 2 ^ 32 + 1].
Proof. reflexivity. Qed.

(** A container: its messages and itself have strictly increasing ids,
    sequence number [2 * k + 1] for the content-related message after [k] others
    and [2 * k] for the rest, the container last, with the number that covers
    all its messages; the counter advances by the content-related ones. *)
Theorem container_order objects time o c o' :
  Sorted (fun c c' : Z * bool => c.1 / microseconds <= c'.1 / microseconds)
    (calls_of objects ++ [(time, false)]) ->
  0 <= offset (msg_id_values o) -> offset (msg_id_values o) mod 4 = 0 ->
  offset (msg_id_values o) + 4 * (Z.of_nat (length objects) + 1) < 2 ^ 32 - 4 ->
  pack_container objects time o = (c, o') ->
  exists ms, c.2 = VObj ID_MsgContainer [VObjs (map message_val ms)] /\
    map snd ms = map (fun x => x.2.1) objects /\
    StronglySorted Z.lt (map (fun m => m.1.1) ms ++ [c.1.1]) /\
    (forall i m, ms !! i = Some m ->
      m.1.2 = 2 * (out_seq_no o + content_count (take i (map snd ms)))
              + (if is_content_related m.2 then 1 else 0)) /\
    c.1.2 = 2 * (out_seq_no o + content_count (map snd ms)) /\
    out_seq_no o' = out_seq_no o + content_count (map snd ms).
Proof.
  intros Hs H0 Hm Hl. unfold pack_container. destruct (pack_messages objects o) as [ms o1] eqn:Ep.
  destruct (pack_messages_spec _ _ _ _ Ep) as (_ & H2 & H3 & H4 & H5 & _).
  unfold pack_message. specialize (H2 [(time, false)]). cbn [msg_ids] in H2.
  destruct (msg_id time false (msg_id_values o1)) as [mid v] eqn:Em. unfold get_outgoing_seq_no.
  assert (is_content_related (VObj ID_MsgContainer [VObjs (map message_val ms)]) = false) as -> by reflexivity.
  intros [= <- <-]. exists ms. split; [done|]. split; [done|].
  split; [|split; [done|split; [cbn; lia|done]]].
  cbn [fst]. rewrite <- H2. apply Sorted_StronglySorted; [intros x y z; lia|].
  apply msg_ids_sorted; [done..|]. unfold calls_of. rewrite length_app, length_map. cbn [length]. lia.
Qed.

Lemma container_order_witness : exists c o',
  pack_container [(5000000, (VObj ID_MsgsAck [], false)); (5000000, (VObj 7 [], true))] 5000001
    (MkOutbound (MkMsgIdValues 5 8) 3 [] [] [] false) = (c, o') /\ c.1.2 = 8 /\
  exists ms, c.2 = VObj ID_MsgContainer [VObjs (map message_val ms)] /\
    StronglySorted Z.lt (map (fun m => m.1.1) ms ++ [c.1.1]).
Proof.
  eexists _, _. split; [reflexivity|]. split; [reflexivity|].
  destruct (container_order [(5000000, (VObj ID_MsgsAck [], false)); (5000000, (VObj 7 [], true))]
    5000001 (MkOutbound (MkMsgIdValues 5 8) 3 [] [] [] false) _ _
    ltac:(repeat constructor; vm_compute; discriminate) ltac:(vm_compute; discriminate)
    ltac:(reflexivity) ltac:(reflexivity) ltac:(reflexivity)) as (ms & H1 & _ & H2 & _).
  by exists ms.
Defined.

(** Completed RPCs. [mark_rpc_completed] never fails on a reachable
    state, keeps at most 256 ids without duplicates, sets the event of the id
    and loses no waiter: an unset event stays registered. An id is known as
    completed at least until 255 later completions, and [wait_for_rpc] of a
    known id returns at once. *)
Theorem rpc_completion_tracking :
  rpc_wf (MkRpcTrack ∅ ∅ []) /\
  (forall m r, rpc_wf r -> exists r', mark_rpc_completed m r = Ok r' /\ rpc_wf r' /\
     m ∈ rpc_completed_ids r' /\ (size (rpc_completed_ids r') <= 256)%nat /\
     (forall k, rpc_completions r !! k = Some false ->
        rpc_completions r' !! k = Some (bool_decide (k = m)))) /\
  (forall m r, rpc_wf r -> rpc_wf (wait_for_rpc m r).2 /\
     (m ∈ rpc_completed_ids r -> (wait_for_rpc m r).1 = true) /\
     ((wait_for_rpc m r).1 = false -> rpc_completions (wait_for_rpc m r).2 !! m = Some false)) /\
  (forall m ms r r', rpc_wf r -> m ∉ rpc_completed_ids r -> (length ms < 256)%nat ->
     mark_all (m :: ms) r = Ok r' -> (wait_for_rpc m r').1 = true).
Proof.
  split; [|split; [|split]].
  - split; [constructor|]. split; [done|]. split; [apply Nat.le_0_l|]. by intros m ?%not_elem_of_empty.
  - intros m r Hwf. destruct (mark_rpc_spec m r Hwf) as (r' & Hm & Hwf' & Ho & Hk).
    exists r'. split; [done|]. split; [done|]. pose proof Hwf' as (Hn & Hs & Hl & _).
    split; [|split; [|done]].
    + rewrite <- Hs, Ho. apply elem_of_list_to_set, mark_order_here.
    + by rewrite (size_order r' Hn Hs).
  - intros m r Hwf. pose proof Hwf as (Hn & Hs & Hl & He). unfold wait_for_rpc.
    case_decide as Hm; [by split|]. destruct (rpc_completions r !! m) as [b|] eqn:Em; cbn.
    + split; [done|]. split; [done|]. by intros ->.
    + split; [|split; [done|intros _; apply lookup_insert_eq]].
      split; [done|]. split; [done|]. split; [done|]. cbn. intros k Hk.
      rewrite lookup_insert_ne by (by intros ->). by apply He.
  - intros m ms r r' Hwf Hm Hl Hall. cbn [mark_all] in Hall.
    destruct (mark_rpc_spec m r Hwf) as (r1 & Hmk & Hwf1 & Ho & _). rewrite Hmk in Hall. cbn in Hall.
    pose proof Hwf as (_ & Hs & _). unfold mark_order in Ho.
    rewrite decide_False in Ho by (by rewrite <- Hs, elem_of_list_to_set in Hm).
    destruct (mark_all_window ms r1 m _ [] Hwf1 Ho ltac:(cbn; done)) as (r2 & Hr2 & _ & Hin).
    assert (r2 = r') as -> by congruence. unfold wait_for_rpc. by rewrite decide_True.
Qed.

(** Salts roll over without a gap: the salt a client was told at one
    moment is accepted by the session until the end of the next half hour. *)
Theorem salts_overlap hmac_sha1 salt_key time time' s s1 s2 packet :
  is_Some (auth_data s ≫= auth_key_id) ->
  (valid_at (salt_now s) = time / (microseconds * salt_period) -> salts_ok hmac_sha1 salt_key s) ->
  update_salts_maybe hmac_sha1 salt_key time false s = Ok s1 ->
  update_salts_maybe hmac_sha1 salt_key time' false s1 = Ok s2 ->
  time / (microseconds * salt_period) <= time' / (microseconds * salt_period)
    <= time / (microseconds * salt_period) + 1 ->
  p_salt packet = salt (salt_now s1) ->
  is_message_bad time' packet true s2 = is_message_bad time' packet false s2.
Proof.
  intros Hk Hok H1 H2 Ht Hp.
  destruct (update_salts_spec _ _ _ _ _ _ Hk Hok H1) as ((k & Hk1 & Hn1 & Hp1) & Ha1 & Hv1).
  destruct (update_salts_spec _ _ _ _ _ _ (mk_is_Some _ _ Hk1)
    (fun _ => ex_intro _ k (conj Hk1 (conj Hn1 Hp1))) H2) as ((k2 & Hk2 & Hn2 & Hp2) & Ha2 & Hv2).
  assert (k2 = k) as -> by congruence.
  assert (Hin : p_salt packet ∈ [salt (salt_now s2); salt (salt_prev s2)]).
  { rewrite Hp. destruct (decide (valid_at (salt_now s2) = valid_at (salt_now s1))) as [He|He].
    - rewrite He in Hn2. assert (salt (salt_now s2) = salt (salt_now s1)) as -> by congruence. by left.
    - assert (valid_at (salt_now s2) - 1 = valid_at (salt_now s1)) as He'.
      { rewrite Hv1, Hv2 in *. revert He Ht. generalize (time / (microseconds * salt_period)).
        generalize (time' / (microseconds * salt_period)). intros; lia. }
      rewrite He' in Hp2. assert (salt (salt_prev s2) = salt (salt_now s1)) as -> by congruence.
      right. by left. }
  unfold is_message_bad. by rewrite bool_decide_true.
Qed.

(** A server key and a clock for the examples *)
Module Sample_session.
Definition hmac (key msg : bytes) : bytes := msg ++ key.
Definition session : Session :=
  new_Session 77 None (Some (new_AuthData (Some 5) (Some [x01]) (Some 5))).
Definition at_ (t : Z) (s : Session) : Session :=
  match update_salts_maybe hmac [x2a] t false s with Ok s => s | Raise _ => s end.
Definition s1 : Session := at_ (3600 * microseconds) session.
Definition s2 : Session := at_ (5400 * microseconds) s1.
Definition packet : DecryptedMessagePacket :=
  MkDecrypted (salt (salt_now s1)) 77 (5400 * 2 ^ 32) 1 (le_bytes 4 7).
End Sample_session.

Lemma salts_overlap_witness :
  is_message_bad (5400 * microseconds) Sample_session.packet true Sample_session.s2 = Ok MessageOk.
Proof.
  rewrite (salts_overlap Sample_session.hmac [x2a] (3600 * microseconds) (5400 * microseconds)
    Sample_session.session Sample_session.s1 Sample_session.s2 Sample_session.packet).
  - reflexivity.
  - by eexists.
  - intros H. vm_compute in H. discriminate.
  - reflexivity.
  - reflexivity.
  - split; vm_compute; discriminate.
  - reflexivity.
Defined.

(** Which incoming messages a session accepts, and what it answers to the
    others: a client message id is a multiple of four, its time is between five
    minutes ago and thirty seconds ahead, service messages have even and RPC
    results odd sequence numbers, and the salt is the current or the previous one.
    A message of less than four bytes raises [struct.error]. *)
Theorem message_validation time packet check_salt s :
  let sent := Z.shiftr (p_message_id packet) 32 * microseconds in
  let id := le_val (take 4 (p_data packet)) in
  let service := [ID_MsgsAck; ID_MsgsStateReq; ID_MsgsStateInfo; ID_MsgContainer] in
  ((length (p_data packet) < 4)%nat -> is_message_bad time packet check_salt s = Raise StructError) /\
  ((4 <= length (p_data packet))%nat -> length (salt (salt_now s)) = 8%nat ->
   (is_message_bad time packet check_salt s = Ok MessageOk <->
     p_message_id packet mod 4 = 0 /\
     time - 300 * microseconds <= sent <= time + 30 * microseconds /\
     (id ∈ service -> Z.land (p_seq_no packet) 1 <> 1) /\
     (id = ID_RpcResult -> Z.land (p_seq_no packet) 1 <> 0) /\
     (check_salt = true -> p_salt packet ∈ [salt (salt_now s); salt (salt_prev s)])) /\
   (forall code, is_message_bad time packet check_salt s = Ok (BadMsg code) -> code ∈ [16; 17; 18; 34; 35]) /\
   (forall n, is_message_bad time packet check_salt s = Ok (BadSalt n) ->
      to_bytes_le 8 true n = Ok (salt (salt_now s)))).
Proof.
  intros sent id service. unfold is_message_bad.
  split; intros Hl.
  { assert (read_bytes Int (take 4 (p_data packet)) false = Raise StructError) as ->; [|done].
    unfold read_bytes. rewrite decide_False; [done|].
    rewrite length_take. change (SIZE Int) with 4%nat. lia. }
  intros Hs. rewrite (read_bytes_exact Int)
    by (rewrite length_take; change (SIZE Int) with 4%nat; lia).
  rewrite (read_bytes_exact Long) by done. cbn [mbind result_bind].
  change (from_bytes_le false (take 4 (p_data packet))) with id. unfold message_error_code. fold sent.
  assert (Hsalt : to_bytes_le 8 true (from_bytes_le true (salt (salt_now s))) = Ok (salt (salt_now s))).
  { rewrite <- Hs. apply to_from_bytes_le. lia. }
  unfold is_id_strictly_not_content_related, is_id_strictly_content_related. fold service.
  destruct (p_message_id packet mod 4 =? 0) eqn:E1; cbn [negb]; b2p.
  2:{ split; [|split; [|done]]; [split; [done|intros [? _]; lia]|intros ? [= <-]; set_solver]. }
  destruct (sent <? time - 300 * microseconds) eqn:E2; b2p.
  { split; [|split; [|done]]; [split; [done|intros (_ & ? & _); lia]|intros ? [= <-]; set_solver]. }
  destruct (time + 30 * microseconds <? sent) eqn:E3; b2p.
  { split; [|split; [|done]]; [split; [done|intros (_ & ? & _); lia]|intros ? [= <-]; set_solver]. }
  destruct ((Z.land (p_seq_no packet) 1 =? 1) && bool_decide (id ∈ service)) eqn:E4.
  { b2p. split; [|split; [|done]]; [split; [done|intros (_ & _ & Hx & _); by destruct (Hx ltac:(done))]|].
    intros ? [= <-]; set_solver. }
  destruct ((Z.land (p_seq_no packet) 1 =? 0) && (id =? ID_RpcResult)) eqn:E5.
  { b2p. split; [|split; [|done]]; [split; [done|intros (_ & _ & _ & Hx & _); by destruct (Hx ltac:(done))]|].
    intros ? [= <-]; set_solver. }
  cbn [Z.eqb negb]. assert (H4 : id ∈ service -> Z.land (p_seq_no packet) 1 <> 1).
  { intros Hi He. rewrite He, bool_decide_true in E4 by done. done. }
  assert (H5 : id = ID_RpcResult -> Z.land (p_seq_no packet) 1 <> 0).
  { intros Hi He. rewrite He, Hi in E5. done. }
  destruct check_salt; cbn [andb].
  - destruct (bool_decide (p_salt packet ∈ _)) eqn:Hb; cbn [negb]; b2p.
    + split; [|split; intros ? [=]]. split; [by intros _; auto 10|done].
    + split; [|split; [intros ? [=]|intros ? [= <-]; exact Hsalt]].
      split; [done|intros (_ & _ & _ & _ & Hx); by destruct (Hb (Hx eq_refl))].
  - split; [|split; intros ? [=]]. split; [by intros _; auto 10|done].
Qed.
