(* ===== verification/AuthKeys.v ===== *)
(** The tables of authorization keys ([piltover/db/models/authkey.py]). *)
From S2P Require Import Prelude PyBytes Session.

Record PermKey := MkPermKey { pk_auth_key : bytes; pk_layer : Z }.
Record TempKey := MkTempKey { tk_auth_key : bytes; tk_expires_at : Z; tk_perm_key : option Z }.

Record KeyTables := MkKeyTables {
  AuthKey : gmap Z PermKey;
  TempAuthKey : gmap Z TempKey;
}.

(** [time] is in seconds here, as [int(time())] is. *)
Definition get_auth_data (time : Z) (allow_expired : bool) (key_id : Z) (t : KeyTables)
    : option AuthData :=
  match AuthKey t !! key_id with
  | Some key => Some (new_AuthData (Some key_id) (Some (pk_auth_key key)) (Some key_id))
  | None =>
    match TempAuthKey t !! key_id with
    | None => None
    | Some key =>
      if allow_expired || (time <? tk_expires_at key)
      then Some (new_AuthData (Some key_id) (Some (tk_auth_key key)) (tk_perm_key key))
      else None
    end
  end.

Definition is_registered (time key_id : Z) (t : KeyTables) : bool :=
  bool_decide (is_Some (get_auth_data time false key_id t)).

Definition can_bind_temp_auth_key (time temp_key_id perm_key_id : Z) (t : KeyTables) : bool :=
  match TempAuthKey t !! temp_key_id with
  | Some key => (time <? tk_expires_at key) && bool_decide (is_Some (AuthKey t !! perm_key_id))
  | None => false
  end.

Definition IntegrityError : exn := RuntimeError.

(** [_create_ignore_asyncmy_overflow]: an [INSERT] of an id that is taken
    fails, and the row that is there counts as created when it has the same key. *)
Definition create_perm_key (id : Z) (auth_key : bytes) : M KeyTables unit :=
  t ← get;
  match AuthKey t !! id with
  | None => put (MkKeyTables (<[id := MkPermKey auth_key 133]> (AuthKey t)) (TempAuthKey t))
  | Some key => ensure (bool_decide (pk_auth_key key = auth_key)) IntegrityError
  end.

Definition create_temp_key (id : Z) (auth_key : bytes) (expires_at : Z) : M KeyTables unit :=
  t ← get;
  match TempAuthKey t !! id with
  | None => put (MkKeyTables (AuthKey t) (<[id := MkTempKey auth_key expires_at None]> (TempAuthKey t)))
  | Some key => ensure (bool_decide (tk_auth_key key = auth_key)) IntegrityError
  end.

(** A key, once created, is never replaced by another one. *)
Lemma create_perm_key_spec id key t :
  let '(r, t') := create_perm_key id key t in
  AuthKey t ⊆ AuthKey t' /\ TempAuthKey t' = TempAuthKey t /\
  (r = Ok tt -> exists l, AuthKey t' !! id = Some (MkPermKey key l)) /\
  (r <> Ok tt -> t' = t /\ exists k, AuthKey t !! id = Some k /\ pk_auth_key k <> key).
Proof.
  unfold create_perm_key. unfold_monads. destruct (AuthKey t !! id) as [[k l]|] eqn:E.
  - case_bool_decide as Hk; cbn in *.
    + subst. split; [done|]. split; [done|]. split; [eauto|done].
    + split; [done|]. split; [done|]. split; [done|eauto].
  - split; [by apply insert_subseteq|]. split; [done|]. split; [|done].
    intros _. exists 133. apply lookup_insert_eq.
Qed.

Lemma create_temp_key_spec id key e t :
  let '(r, t') := create_temp_key id key e t in
  TempAuthKey t ⊆ TempAuthKey t' /\ AuthKey t' = AuthKey t /\
  (r = Ok tt -> exists e' p, TempAuthKey t' !! id = Some (MkTempKey key e' p)) /\
  (r <> Ok tt -> t' = t).
Proof.
  unfold create_temp_key. unfold_monads. destruct (TempAuthKey t !! id) as [[k l p]|] eqn:E.
  - case_bool_decide as Hk; cbn in *.
    + subst. split; [done|]. split; [done|]. split; [eauto|done].
    + split; [done|]. split; [done|]. done.
  - split; [by apply insert_subseteq|]. split; [done|]. split; [|done].
    intros _. exists e, None. apply lookup_insert_eq.
Qed.
