(* ===== verification/Keygen.v ===== *)
(** The key exchange of the gateway: [piltover/gateway/_keygen_handlers.py],
    [piltover/utils/rsa_utils.py], [gen_primes.py] and [GenAuthData].

    The primitives of [hashlib], [tgcrypto] and [gmpy2] are parameters. TL
    objects go through the interface [TlCodec]: it promises what the codec of
    [TlObject.v] and [TlRoundtrip.v] delivers for every schema. *)
From Stdlib Require Import Init.Byte.
From S2P Require Import Prelude PyBytes TlPrimitives Session AuthKeys.

(** ** The TL objects of the exchange *)
Record PQInner := MkPQInner {
  pq_nonce : Z; pq_server_nonce : Z; pq_new_nonce : Z;
  pq_expires_in : option Z;         (* Some for the two Temp constructors *)
}.

Record ClientDHInnerData := MkClientDH { dh_nonce : Z; dh_server_nonce : Z; g_b : bytes }.

Record ServerDHInnerData := MkServerDH {
  s_nonce : Z; s_server_nonce : Z; s_g : Z; s_dh_prime : bytes; s_g_a : bytes; s_server_time : Z }.

Inductive kobj :=
  | KPQInner (o : PQInner)
  | KClientDH (o : ClientDHInnerData)
  | KServerDH (o : ServerDHInnerData)
  | KOther.

(** [TLObject.read] ignores what follows an object. *)
Class TlCodec := {
  tl_read : bytes -> result kobj;
  tl_write : kobj -> result bytes;
  tl_read_write : forall o b tail, tl_write o = Ok b -> tl_read (b ++ tail) = Ok o }.

(** Third-party primitives *)
Class Crypto := {
  sha1 : bytes -> bytes;
  sha256 : bytes -> bytes;
  ige256_encrypt : bytes -> bytes -> bytes -> result bytes;
  ige256_decrypt : bytes -> bytes -> bytes -> result bytes;
  powmod : Z -> Z -> Z -> Z }.

(** What the exchange relies on: digest lengths, that decryption inverts encryption and keeps
    lengths, and that [powmod] is modular exponentiation. *)
Class CryptoLaws `{Crypto} := {
  sha1_length : forall b, length (sha1 b) = 20%nat;
  sha256_length : forall b, length (sha256 b) = 32%nat;
  ige_encrypt_ok : forall data key iv, (length data mod 16 = 0)%nat -> (0 < length data)%nat ->
    length key = 32%nat -> length iv = 32%nat ->
    exists c, ige256_encrypt data key iv = Ok c /\ length c = length data /\
      ige256_decrypt c key iv = Ok data;
  powmod_spec : forall b e m, 0 <= e -> 0 < m -> powmod b e m = b ^ e mod m }.

(** ** [xor], [rsa_decrypt], [rsa_pad_inverse] *)
Definition xor_byte (a b : byte) : byte := byte_of (Z.lxor (byte_val a) (byte_val b)).
Definition xor (a b : bytes) : bytes := zip_with xor_byte a b.

(** [b.zfill(n)]: a sign keeps its place *)
Definition zfill (n : nat) (b : bytes) : bytes :=
  if (n <=? length b)%nat then b else
  let zeros := replicate (n - length b) x30 in
  match b with
  | (x2b as s) :: r | (x2d as s) :: r => s :: zeros ++ r
  | _ => zeros ++ b
  end.

(** [b.lstrip(b"\0")] *)
Fixpoint lstrip0 (b : bytes) : bytes := match b with x00 :: r => lstrip0 r | _ => b end.

Section Rsa.
Context `{Crypto}.

Definition rsa_decrypt (data : bytes) (d n : Z) : result bytes :=
  to_bytes_be 256 false (powmod (from_bytes_be data) d n).

Definition rsa_pad_inverse (key_aes_encrypted : bytes) : result bytes :=
  let temp_key_xor := take 32 key_aes_encrypted in
  let aes_encrypted := drop 32 key_aes_encrypted in
  let temp_key := xor temp_key_xor (sha256 aes_encrypted) in
  data_with_hash ← ige256_decrypt aes_encrypted (zfill 32 temp_key) (zero_bytes 32);
  if negb (length data_with_hash =? 224)%nat then Raise RuntimeError else
  let data_pad_reversed := take (length data_with_hash - 32) data_with_hash in
  let temp_data_hash := drop (length data_with_hash - 32) data_with_hash in
  let data_with_padding := rev data_pad_reversed in
  if decide (temp_data_hash = sha256 (temp_key ++ data_with_padding)) then Ok data_with_padding
  else Raise RuntimeError.
End Rsa.

(** ** [gen_safe_prime] *)
Definition CURRENT_DH_PRIME : Z :=
  0xC71CAEB9C6B1C9048E6C522F70F13F73980D40238E3E21C14934D037563D930F48198A0AA7C14058229493D22530F4DBFA336F6E0AC925139543AED44CCE7C3720FD51F69458705AC68CD4FE6B6B13ABDC9746512969328454F18FAF8C595F642477FE96BB2A941D5BCD1D4AC8CC49880708FA9B378E3C4F3A9060BEE67CF9A4A4A695811051907E162753B56B0F6B410DBA74D8A84B2A14B3144E0EF1284754FD17ED950D5965B4B9DD46582DB1178D169C6BC465B0D6FF9CA3928FEF5B9AE4E418FC15E83EBEA0F87FA9FF5EED70050DED2849F47BF959D956850CE929851F0D8115F635B105EE2E4E15D04B2454BF6F4FADF034B10403119CD8E3B92FCC5B.

Definition gen_safe_prime : Z * Z := let g := 2 in (CURRENT_DH_PRIME, CURRENT_DH_PRIME mod (4 * g)).

(** ** [GenAuthData] *)
Record GenAuthData := MkGen {
  gen_p : Z; gen_q : Z; gen_server_nonce : Z; gen_is_temp : bool; gen_new_nonce : option bytes;
  gen_server_nonce_bytes : option bytes; gen_tmp_aes : option (bytes * bytes);
  gen_a : option Z; gen_expires_in : Z; gen_auth_key : option bytes; gen_auth_key_id : option Z }.

Definition new_GenAuthData (p q server_nonce : Z) : GenAuthData :=
  MkGen p q server_nonce false None None None None 0 None None.

Definition with_inner (is_temp : bool) (expires_in : Z) (new_nonce : bytes) (g : GenAuthData) : GenAuthData :=
  MkGen (gen_p g) (gen_q g) (gen_server_nonce g) is_temp (Some new_nonce) (gen_server_nonce_bytes g)
    (gen_tmp_aes g) (gen_a g) expires_in (gen_auth_key g) (gen_auth_key_id g).
Definition with_a (a : Z) (g : GenAuthData) : GenAuthData :=
  MkGen (gen_p g) (gen_q g) (gen_server_nonce g) (gen_is_temp g) (gen_new_nonce g)
    (gen_server_nonce_bytes g) (gen_tmp_aes g) (Some a) (gen_expires_in g) (gen_auth_key g) (gen_auth_key_id g).
Definition with_tmp (nonce_bytes key iv : bytes) (g : GenAuthData) : GenAuthData :=
  MkGen (gen_p g) (gen_q g) (gen_server_nonce g) (gen_is_temp g) (gen_new_nonce g)
    (Some nonce_bytes) (Some (key, iv)) (gen_a g) (gen_expires_in g) (gen_auth_key g) (gen_auth_key_id g).
Definition with_key (key : bytes) (id : option Z) (g : GenAuthData) : GenAuthData :=
  MkGen (gen_p g) (gen_q g) (gen_server_nonce g) (gen_is_temp g) (gen_new_nonce g)
    (gen_server_nonce_bytes g) (gen_tmp_aes g) (gen_a g) (gen_expires_in g) (Some key) id.

(** ** Requests, answers, and the state of a client's exchange *)
Record ReqDHParams := MkReqDH {
  r_nonce : Z; r_server_nonce : Z; r_p : bytes; r_q : bytes; r_encrypted_data : bytes }.
Record SetClientDHParams := MkSetDH { c_nonce : Z; c_server_nonce : Z; c_encrypted_data : bytes }.

Inductive answer :=
  | ResPQ (nonce server_nonce : Z) (pq : bytes) (fingerprint : Z)
  | ServerDHParamsOk (nonce server_nonce : Z) (encrypted_answer : bytes)
  | DhGenOk (nonce server_nonce new_nonce_hash1 : Z)
  | DhGenFail (nonce server_nonce new_nonce_hash3 : Z).

Record KeygenState := MkKeygen {
  gen_auth_data : option GenAuthData; tables : KeyTables; sent : list answer }.

Abbreviation KG := (M KeygenState).
Definition set_gen (g : GenAuthData) : KG unit :=
  modify (fun s => MkKeygen (Some g) (tables s) (sent s)).
Definition send_unencrypted (a : answer) : KG unit :=
  modify (fun s => MkKeygen (gen_auth_data s) (tables s) (sent s ++ [a])).
Definition on_tables {A} (m : M KeyTables A) : KG A := fun s =>
  match m (tables s) with (r, t) => (r, MkKeygen (gen_auth_data s) t (sent s)) end.


Section Handlers.
Context `{Crypto} `{TlCodec}.
(** The gateway's RSA key and the signed fingerprint of its public half. *)
Context (rsa_d rsa_n fingerprint_signed : Z).

(** [_req_pq_sync]; [p] and [q] are the primes that [gmpy2.next_prime] found,
    [nonce] the 16 random bytes. *)
Definition _req_pq_sync (p q : Z) (nonce : bytes) : result GenAuthData :=
  if (p =? -1) || (q =? -1) || (q =? p) then Raise Disconnect404 else
  let '(p, q) := if q <? p then (q, p) else (p, q) in
  n ← read_bytes Int128 nonce true;
  Ok (new_GenAuthData p q n).

Definition req_pq (p q : Z) (random : bytes) (nonce : Z) : KG unit :=
  data ← lift_result (_req_pq_sync p q random);
  set_gen data;;
  pq ← lift_result (to_bytes_be 8 false (gen_p data * gen_q data));
  send_unencrypted (ResPQ nonce (gen_server_nonce data) pq fingerprint_signed).

Definition guard404 (c : bool) : KG unit := ensure c Disconnect404.

(** The decrypted inner data of [_req_dh_params_sync], with RSA_PAD or in the
    older form with a leading SHA-1. *)
Definition read_p_q_inner_data (encrypted_data : bytes) : result kobj :=
  decrypted ← rsa_decrypt encrypted_data rsa_d rsa_n;
  match rsa_pad_inverse decrypted with
  | Ok padded => tl_read (lstrip0 padded)
  | Raise RuntimeError =>
      let key_aes_encrypted := lstrip0 decrypted in
      o ← tl_read (drop 20 key_aes_encrypted);
      w ← tl_write o;
      if decide (sha1 w = take 20 key_aes_encrypted) then Ok o else Raise Disconnect404
  | Raise e => Raise e
  end.

Definition tmp_aes (new_nonce server_nonce_bytes : bytes) : bytes * bytes :=
  (sha1 (new_nonce ++ server_nonce_bytes) ++ take 12 (sha1 (server_nonce_bytes ++ new_nonce)),
   drop 12 (sha1 (server_nonce_bytes ++ new_nonce)) ++ sha1 (new_nonce ++ new_nonce) ++ take 4 new_nonce).

(** [-n % 16] *)
Definition pad16 (n : nat) : nat := Z.to_nat ((- Z.of_nat n) mod 16).

(** [_req_dh_params_sync]; [random] are the 256 bytes of [a], [padding n] the
    [n] random bytes that fill a block, [time] is [int(time())]. *)
Definition _req_dh_params_sync (random : bytes) (padding : nat -> bytes) (time : Z) (req : ReqDHParams)
    : KG (Z * Z * bytes) :=
  s ← get;
  match gen_auth_data s with
  | None => raise Disconnect404
  | Some auth_data =>
      guard404 ((length (r_p req) =? 4)%nat && (length (r_q req) =? 4)%nat);;
      guard404 ((from_bytes_be (r_p req) =? gen_p auth_data) && (from_bytes_be (r_q req) =? gen_q auth_data));;
      guard404 (gen_server_nonce auth_data =? r_server_nonce req);;
      guard404 (length (r_encrypted_data req) =? 256)%nat;;
      o ← lift_result (read_p_q_inner_data (r_encrypted_data req));
      match o with
      | KPQInner inner =>
          guard404 (gen_server_nonce auth_data =? pq_server_nonce inner);;
          let is_temp := match pq_expires_in inner with Some _ => true | None => false end in
          let expires_in := match pq_expires_in inner with Some e => Z.max e 86400 | None => 0 end in
          new_nonce ← lift_result (int_write Int256 (pq_new_nonce inner) true);
          let auth_data := with_inner is_temp expires_in new_nonce auth_data in
          set_gen auth_data;;
          let '(dh_prime, g) := gen_safe_prime in
          let a := from_bytes_be random in
          let auth_data := with_a a auth_data in
          set_gen auth_data;;
          let g_a := powmod g a dh_prime in
          guard404 (negb ((g <=? 1) || (dh_prime - 1 <=? g) || (g_a <=? 1) || (dh_prime - 1 <=? g_a)
            || (g_a <=? 2 ^ (2048 - 64)) || (dh_prime - 2 ^ (2048 - 64) <=? g_a)));;
          prime_bytes ← lift_result (to_bytes_be 256 false dh_prime);
          g_a_bytes ← lift_result (to_bytes_be 256 false g_a);
          answer ← lift_result (tl_write (KServerDH (MkServerDH (pq_nonce inner) (gen_server_nonce auth_data) g
            prime_bytes g_a_bytes time)));
          server_nonce_bytes ← lift_result (int_write Int128 (gen_server_nonce auth_data) true);
          let answer_with_hash := sha1 answer ++ answer in
          let answer_with_hash := answer_with_hash ++ padding (pad16 (length answer_with_hash)) in
          let '(key, iv) := tmp_aes new_nonce server_nonce_bytes in
          set_gen (with_tmp server_nonce_bytes key iv auth_data);;
          encrypted ← lift_result (ige256_encrypt answer_with_hash key iv);
          mret (pq_nonce inner, gen_server_nonce auth_data, encrypted)
      | _ => raise Disconnect404
      end
  end.

Definition req_dh_params_handler (random : bytes) (padding : nat -> bytes) (time : Z) (req : ReqDHParams) : KG unit :=
  '(nonce, server_nonce, encrypted_answer) ← _req_dh_params_sync random padding time req;
  send_unencrypted (ServerDHParamsOk nonce server_nonce encrypted_answer).

(** [_set_client_dh_params_sync]; a missing [a] would be a [TypeError] of
    [powmod], but [tmp_aes_key] is only set after [a]. *)
Definition _set_client_dh_params_sync (req : SetClientDHParams) : KG (ClientDHInnerData * bytes) :=
  s ← get;
  match gen_auth_data s with
  | None => raise Disconnect404
  | Some auth_data =>
      match gen_tmp_aes auth_data with
      | None => raise Disconnect404
      | Some (key, iv) =>
          guard404 (gen_server_nonce auth_data =? c_server_nonce req);;
          decrypted ← lift_result (ige256_decrypt (c_encrypted_data req) key iv);
          o ← lift_result (tl_read (drop 20 decrypted));
          match o with
          | KClientDH inner =>
              w ← lift_result (tl_write o);
              guard404 (bool_decide (sha1 w = take 20 decrypted));;
              guard404 (gen_server_nonce auth_data =? dh_server_nonce inner);;
              let '(dh_prime, _) := gen_safe_prime in
              a ← lift_result (match gen_a auth_data with Some a => Ok a | None => Raise TypeError end);
              auth_key ← lift_result (to_bytes_be 256 false (powmod (from_bytes_be (g_b inner)) a dh_prime));
              set_gen (with_key auth_key (gen_auth_key_id auth_data) auth_data);;
              mret (inner, sha1 auth_key)
          | _ => raise (InvalidConstructor 0 [])
          end
      end
  end.

(** [digest[-16:]] as an [Int128] *)
Definition nonce_hash (new_nonce : bytes) (tag : byte) (aux_hash : bytes) : result Z :=
  let digest := sha1 (new_nonce ++ [tag] ++ aux_hash) in
  read_bytes Int128 (drop (length digest - 16) digest) true.

(** [set_client_dh_params]; [time_us] is the clock in microseconds. *)
Definition set_client_dh_params (time_us : Z) (req : SetClientDHParams) : KG unit :=
  '(inner, digest) ← _set_client_dh_params_sync req;
  s ← get;
  match gen_auth_data s with
  | Some auth_data =>
      let auth_key_hash := drop (length digest - 8) digest in
      let auth_key_aux_hash := take 8 digest in
      id ← lift_result (read_bytes Long auth_key_hash true);
      key ← lift_result (match gen_auth_key auth_data with Some k => Ok k | None => Raise TypeError end);
      new_nonce ← lift_result (match gen_new_nonce auth_data with Some n => Ok n | None => Raise TypeError end);
      set_gen (with_key key (Some id) auth_data);;
      let create := if negb (gen_expires_in auth_data =? 0)
        then create_temp_key id key ((time_us + gen_expires_in auth_data * 1000000) / 1000000)
        else create_perm_key id key in
      created ← attempt (on_tables create);
      match created with
      | Ok _ =>
          h ← lift_result (nonce_hash new_nonce x01 auth_key_aux_hash);
          send_unencrypted (DhGenOk (dh_nonce inner) (gen_server_nonce auth_data) h)
      | Raise _ =>
          h ← lift_result (nonce_hash new_nonce x03 auth_key_aux_hash);
          send_unencrypted (DhGenFail (dh_nonce inner) (gen_server_nonce auth_data) h);;
          raise Disconnect404
      end
  | None => raise TypeError
  end.

Inductive request :=
  | RReqPq (p q : Z) (random : bytes) (nonce : Z)
  | RReqDH (random : bytes) (padding : nat -> bytes) (time : Z) (req : ReqDHParams)
  | RSetDH (time_us : Z) (req : SetClientDHParams)
  | RMsgsAck
  | ROtherRequest.

(** [handle_unencrypted_message]: only a [Disconnection] leaves it. *)
Definition handle_unencrypted_message (r : request) : KG unit := fun s =>
  let run := match r with
    | RReqPq p q random nonce => req_pq p q random nonce
    | RReqDH random padding time req => req_dh_params_handler random padding time req
    | RSetDH time_us req => set_client_dh_params time_us req
    | RMsgsAck | ROtherRequest => mret tt
    end in
  match run s with
  | (Raise (Disconnection e), s') => (Raise (Disconnection e), s')
  | (_, s') => (Ok tt, s')
  end.
End Handlers.

(** ** The client's side, after the protocol description *)
Section ClientSide.
Context `{Crypto} `{TlCodec}.

(** [RSA_PAD] as the documentation comment of [rsa_utils.py] describes it. *)
Definition rsa_pad (data padding temp_key : bytes) : result bytes :=
  let data_with_padding := data ++ padding in
  let data_pad_reversed := rev data_with_padding in
  let data_with_hash := data_pad_reversed ++ sha256 (temp_key ++ data_with_padding) in
  aes_encrypted ← ige256_encrypt data_with_hash temp_key (zero_bytes 32);
  Ok (xor temp_key (sha256 aes_encrypted) ++ aes_encrypted).

(** The request of step 4: the padded inner data under the server's public key. *)
Definition client_req_dh (e n : Z) (server_nonce p q : Z) (inner : PQInner) (padding temp_key : bytes)
    : result ReqDHParams :=
  data ← tl_write (KPQInner inner);
  padded ← rsa_pad data padding temp_key;
  c ← to_bytes_be 256 false (powmod (from_bytes_be padded) e n);
  pb ← to_bytes_be 4 false p;
  qb ← to_bytes_be 4 false q;
  Ok (MkReqDH (pq_nonce inner) server_nonce pb qb c).

(** Step 6: the key of the client, and its encrypted half of the exchange. *)
Definition client_auth_key (ga b : Z) : result bytes :=
  to_bytes_be 256 false (powmod ga b (fst gen_safe_prime)).
Definition client_set_dh (nonce server_nonce : Z) (new_nonce server_nonce_bytes : bytes) (b : Z)
    (padding : bytes) : result SetClientDHParams :=
  gb ← to_bytes_be 256 false (powmod (snd gen_safe_prime) b (fst gen_safe_prime));
  data ← tl_write (KClientDH (MkClientDH nonce server_nonce gb));
  let '(key, iv) := tmp_aes new_nonce server_nonce_bytes in
  c ← ige256_encrypt (sha1 data ++ data ++ padding) key iv;
  Ok (MkSetDH nonce server_nonce c).
End ClientSide.

(** ** Lemmas *)
Lemma lxor_byte_range a b : 0 <= a < 256 -> 0 <= b < 256 -> 0 <= Z.lxor a b < 256.
Proof.
  intros Ha Hb. split; [apply Z.lxor_nonneg; lia|].
  destruct (Z.eq_dec (Z.lxor a b) 0) as [->|Hne]; [lia|].
  assert (0 <= Z.lxor a b) by (apply Z.lxor_nonneg; lia).
  apply (Z.log2_lt_pow2 _ 8); [lia|]. pose proof (Z.log2_lxor a b ltac:(lia) ltac:(lia)).
  assert (Hl : forall x, 0 <= x < 256 -> Z.log2 x < 8).
  { intros x Hx. destruct (Z.eq_dec x 0) as [->|]; [done|]. apply Z.log2_lt_pow2; lia. }
  pose proof (Hl a Ha). pose proof (Hl b Hb). lia.
Qed.

Lemma xor_byte_inv a b : xor_byte (xor_byte a b) b = a.
Proof.
  apply byte_val_inj. unfold xor_byte.
  rewrite (byte_val_of_small (Z.lxor (byte_val a) (byte_val b))) by (apply lxor_byte_range; apply byte_val_range).
  rewrite Z.lxor_assoc, Z.lxor_nilpotent, Z.lxor_0_r. rewrite byte_val_of_small; [done|apply byte_val_range].
Qed.

Lemma xor_inv a b : length a = length b -> xor (xor a b) b = a.
Proof.
  revert b. induction a as [|x a IH]; intros [|y b] Hl; try done. simpl in *.
  rewrite xor_byte_inv. f_equal. apply IH. lia.
Qed.
Lemma length_xor a b : length a = length b -> length (xor a b) = length a.
Proof. intros Hl. unfold xor. rewrite length_zip_with. lia. Qed.

Lemma length_to_bytes_be n z b : to_bytes_be n false z = Ok b -> length b = n.
Proof.
  unfold to_bytes_be. unfold_monads. destruct (to_bytes_le n false z) eqn:E; [|done].
  intros Hb. apply Ok_inj in Hb as <-. rewrite length_rev. by apply to_bytes_le_length in E.
Qed.

Lemma from_to_bytes_be n z b : to_bytes_be n false z = Ok b -> from_bytes_be b = z.
Proof.
  unfold to_bytes_be. unfold_monads. destruct (to_bytes_le n false z) eqn:E; [|done].
  intros Hb. apply Ok_inj in Hb as <-. apply to_bytes_le_ok in E as [Hf ->].
  unfold from_bytes_be, be_val. rewrite rev_involutive, le_val_bytes. apply Z.mod_small.
  unfold fits in Hf. b2p. lia.
Qed.

Lemma to_bytes_be_ok n z : 0 <= z < 2 ^ (8 * Z.of_nat n) -> exists b, to_bytes_be n false z = Ok b.
Proof.
  intros Hz. unfold to_bytes_be, to_bytes_le. 
  assert (fits n false z = true) as ->; [|by eexists].
  unfold fits. apply andb_true_iff. split; [apply Z.leb_le|apply Z.ltb_lt]; lia.
Qed.

Lemma to_from_bytes_be b : to_bytes_be (length b) false (from_bytes_be b) = Ok b.
Proof.
  unfold to_bytes_be, from_bytes_be, be_val. destruct b as [|x b]; [done|].
  rewrite <- (length_rev (x :: b)).
  pose proof (to_from_bytes_le false (rev (x :: b))) as Ht. unfold from_bytes_le in Ht.
  rewrite Ht by (rewrite length_rev; simpl; lia). unfold_monads. by rewrite rev_involutive.
Qed.

Lemma lstrip0_head b : (exists c r, b = c :: r /\ c <> x00) -> lstrip0 b = b.
Proof. intros (c & r & -> & Hc). by destruct c. Qed.

Section RsaPadProof.
Context {CR : Crypto} {CL : CryptoLaws}.

Lemma rsa_pad_run data padding temp_key :
  length temp_key = 32%nat -> length (data ++ padding) = 192%nat ->
  exists k, rsa_pad data padding temp_key = Ok k /\ length k = 256%nat /\
    rsa_pad_inverse k = Ok (data ++ padding).
Proof using CL.
  intros Ht Hd. unfold rsa_pad.
  set (dh := rev (data ++ padding) ++ sha256 (temp_key ++ data ++ padding)).
  assert (Hdh : length dh = 224%nat).
  { unfold dh. rewrite length_app, length_rev, sha256_length, Hd. done. }
  destruct (ige_encrypt_ok dh temp_key (zero_bytes 32)) as (c & Hc & Hlen & Hdec);
    [by rewrite Hdh|lia|done|done|].
  assert (Hx : length (xor temp_key (sha256 c)) = 32%nat)
    by (rewrite length_xor; [done|by rewrite sha256_length]).
  exists (xor temp_key (sha256 c) ++ c). split_and!.
  - unfold_monads. by rewrite Hc.
  - rewrite length_app, Hx, Hlen, Hdh. done.
  - unfold rsa_pad_inverse. rewrite take_app_exact, drop_app_exact by done.
    rewrite xor_inv by (by rewrite sha256_length).
    assert (zfill 32 temp_key = temp_key) as -> by (unfold zfill; by rewrite Ht).
    unfold_monads. rewrite Hdec, Hdh. simpl negb. cbn [negb Nat.eqb].
    assert (Hr : length (rev (data ++ padding)) = 192%nat) by (by rewrite length_rev).
    change (224 - 32)%nat with 192%nat. unfold dh. rewrite take_app_exact, drop_app_exact by done.
    rewrite rev_involutive. by rewrite decide_True.
Qed.
End RsaPadProof.

(** [rsa_pad_inverse] undoes the documented RSA_PAD, for every data and padding of 192
    bytes together and every temporary key; and it accepts nothing else: what
    it returns carries the SHA-256 of the recovered key and data. *)
Theorem rsa_pad_roundtrip {CR : Crypto} {CL : CryptoLaws} (data padding temp_key : bytes) :
  length temp_key = 32%nat -> length (data ++ padding) = 192%nat ->
  (exists k, rsa_pad data padding temp_key = Ok k /\ length k = 256%nat /\
    rsa_pad_inverse k = Ok (data ++ padding)) /\
  (forall k d, rsa_pad_inverse k = Ok d -> length k = 256%nat ->
    let key := xor (take 32 k) (sha256 (drop 32 k)) in
    ige256_decrypt (drop 32 k) key (zero_bytes 32) = Ok (rev d ++ sha256 (key ++ d)) /\
    length d = 192%nat).
Proof.
  intros Ht Hd. split; [by apply rsa_pad_run|]. intros k d Hk Hlen key. unfold rsa_pad_inverse in Hk.
  fold key in Hk.
  assert (Hkl : length key = 32%nat).
  { unfold key. rewrite length_xor; rewrite length_take, ?sha256_length; lia. }
  assert (zfill 32 key = key) as Hz by (unfold zfill; by rewrite Hkl). rewrite Hz in Hk.
  apply result_bind_ok in Hk as (dh & Hdec & Hk). destruct (length dh =? 224)%nat eqn:El; [|done].
  simpl in Hk. apply Nat.eqb_eq in El. rewrite El in Hk. case_decide as Hh; [|done].
  apply Ok_inj in Hk. change (224 - 32)%nat with 192%nat in *.
  assert (Hdl : length d = 192%nat) by (subst d; rewrite length_rev, length_take; lia).
  split; [|done]. rewrite Hdec. f_equal. rewrite <- (take_drop 192 dh) at 1.
  rewrite Hh, Hk. f_equal. by rewrite <- Hk, rev_involutive.
Qed.

Section Handshake.
Context {CR : Crypto} {CL : CryptoLaws} {TC : TlCodec}.
Context (rsa_e rsa_d rsa_n : Z).

(** The RSA key works, and inner data starts with a constructor id whose
    first byte is not zero (of the four: 0xec, 0x95, 0xd4 and 0x88). *)
Context (Hrsa : forall m, 0 <= m < rsa_n -> powmod (powmod m rsa_e rsa_n) rsa_d rsa_n = m)
  (Hhead : forall o b, tl_write (KPQInner o) = Ok b -> exists c r, b = c :: r /\ c <> x00).

Lemma read_padded inner data padding temp_key k c :
  tl_write (KPQInner inner) = Ok data -> length temp_key = 32%nat -> length (data ++ padding) = 192%nat ->
  rsa_pad data padding temp_key = Ok k -> from_bytes_be k < rsa_n ->
  to_bytes_be 256 false (powmod (from_bytes_be k) rsa_e rsa_n) = Ok c ->
  read_p_q_inner_data rsa_d rsa_n c = Ok (KPQInner inner) /\ length c = 256%nat.
Proof using All.
  intros Hw Ht Hl Hk Hn Hc. split; [|by eapply length_to_bytes_be].
  destruct (rsa_pad_run data padding temp_key Ht Hl) as (k' & Hk' & Hlen & Hinv).
  rewrite Hk in Hk'. apply Ok_inj in Hk' as <-.
  unfold read_p_q_inner_data, rsa_decrypt. rewrite (from_to_bytes_be _ _ _ Hc).
  rewrite Hrsa by (pose proof (be_val_range k); unfold from_bytes_be in *; lia).
  rewrite <- Hlen, to_from_bytes_be. unfold_monads. rewrite Hinv.
  rewrite lstrip0_head.
  - by apply tl_read_write.
  - destruct (Hhead inner data Hw) as (x & r & -> & Hx). by exists x, (r ++ padding).
Qed.

(** What the server knows after the second step. *)
Definition after_req_dh (g : GenAuthData) (inner : PQInner) (nn sb : bytes) (a : Z) : GenAuthData :=
  with_tmp sb (fst (tmp_aes nn sb)) (snd (tmp_aes nn sb))
    (with_a a (with_inner (match pq_expires_in inner with Some _ => true | None => false end)
      (match pq_expires_in inner with Some e => Z.max e 86400 | None => 0 end) nn g)).

Definition good_ga (g_a : Z) : Prop :=
  2 ^ (2048 - 64) < g_a < CURRENT_DH_PRIME - 2 ^ (2048 - 64).

Lemma good_ga_checks g_a : good_ga g_a ->
  negb ((snd gen_safe_prime <=? 1) || (CURRENT_DH_PRIME - 1 <=? snd gen_safe_prime) || (g_a <=? 1)
    || (CURRENT_DH_PRIME - 1 <=? g_a)
    || (g_a <=? 2 ^ (2048 - 64)) || (CURRENT_DH_PRIME - 2 ^ (2048 - 64) <=? g_a)) = true.
Proof.
  intros [H1 H2]. assert (H0 : 1 < 2 ^ (2048 - 64)) by done.
  assert ((snd gen_safe_prime <=? 1) = false) as -> by (vm_compute; reflexivity).
  assert ((CURRENT_DH_PRIME - 1 <=? snd gen_safe_prime) = false) as -> by (vm_compute; reflexivity).
  revert H0 H1 H2. generalize (2 ^ (2048 - 64)) as x. generalize CURRENT_DH_PRIME as p. intros p x H0 H1 H2.
  rewrite (proj2 (Z.leb_gt g_a 1)) by lia. rewrite (proj2 (Z.leb_gt (p - 1) g_a)) by lia.
  rewrite (proj2 (Z.leb_gt g_a x)) by lia. rewrite (proj2 (Z.leb_gt (p - x) g_a)) by lia. done.
Qed.

Lemma tmp_aes_length nn sb : length nn = 32%nat ->
  length (fst (tmp_aes nn sb)) = 32%nat /\ length (snd (tmp_aes nn sb)) = 32%nat.
Proof using CL.
  intros Hn. unfold tmp_aes. cbn [fst snd].
  rewrite !length_app, length_take, length_drop, !sha1_length, length_take, Hn. done.
Qed.

Lemma pad16_total n : ((n + pad16 n) mod 16 = 0)%nat.
Proof.
  unfold pad16. apply Nat2Z.inj. rewrite Nat2Z.inj_mod, Nat2Z.inj_add, Z2Nat.id by (apply Z.mod_pos_bound; lia).
  rewrite Zplus_mod_idemp_r. replace (Z.of_nat n + - Z.of_nat n) with 0 by lia. done.
Qed.

Lemma guard404_ok c : c = true -> forall s, guard404 c s = (Ok tt, s).
Proof. by intros ->. Qed.

(** Both halves of the second step. *)
Lemma req_dh_run g inner random padding time c s pb qb nn sb pbytes gab ans :
  gen_auth_data s = Some g ->
  to_bytes_be 4 false (gen_p g) = Ok pb -> to_bytes_be 4 false (gen_q g) = Ok qb ->
  length c = 256%nat -> read_p_q_inner_data rsa_d rsa_n c = Ok (KPQInner inner) ->
  pq_server_nonce inner = gen_server_nonce g ->
  int_write Int256 (pq_new_nonce inner) true = Ok nn ->
  int_write Int128 (gen_server_nonce g) true = Ok sb ->
  let a := from_bytes_be random in
  let g_a := powmod (snd gen_safe_prime) a CURRENT_DH_PRIME in
  good_ga g_a -> to_bytes_be 256 false CURRENT_DH_PRIME = Ok pbytes -> to_bytes_be 256 false g_a = Ok gab ->
  tl_write (KServerDH (MkServerDH (pq_nonce inner) (gen_server_nonce g) (snd gen_safe_prime) pbytes gab time)) = Ok ans ->
  (forall n, length (padding n) = n) ->
  exists enc,
    _req_dh_params_sync rsa_d rsa_n random padding time
      (MkReqDH (pq_nonce inner) (gen_server_nonce g) pb qb c) s
    = (Ok (pq_nonce inner, gen_server_nonce g, enc),
       MkKeygen (Some (after_req_dh g inner nn sb a)) (tables s) (sent s)) /\
    exists tail, ige256_decrypt enc (fst (tmp_aes nn sb)) (snd (tmp_aes nn sb)) = Ok (sha1 ans ++ ans ++ tail).
Proof using CL.
  intros Hg Hpb Hqb Hc Hread Hsn Hnn Hsb a g_a Hga Hpbytes Hgab Hans Hpad.
  pose proof (int_write_length _ _ _ _ Hnn) as Hnnl. change (SIZE Int256) with 32%nat in Hnnl.
  set (body := (sha1 ans ++ ans) ++ padding (pad16 (length (sha1 ans ++ ans)))).
  assert (Hbl : length body = (length (sha1 ans ++ ans) + pad16 (length (sha1 ans ++ ans)))%nat).
  { unfold body. by rewrite (length_app (sha1 ans ++ ans)), Hpad. }
  destruct (tmp_aes_length nn sb Hnnl) as [Hk Hi].
  destruct (ige_encrypt_ok body (fst (tmp_aes nn sb)) (snd (tmp_aes nn sb))) as (enc & Henc & _ & Hdec).
  { rewrite Hbl. apply pad16_total. }
  { rewrite Hbl, length_app, sha1_length. lia. }
  { done. } { done. }
  exists enc. split.
  2:{ exists (padding (pad16 (length (sha1 ans ++ ans)))). rewrite Hdec. unfold body. by rewrite <- app_assoc. }
  unfold _req_dh_params_sync. erewrite M_bind_step; [|reflexivity]. rewrite Hg.
  cbn [r_p r_q r_server_nonce r_encrypted_data].
  rewrite (length_to_bytes_be _ _ _ Hpb), (length_to_bytes_be _ _ _ Hqb), Hc.
  rewrite (from_to_bytes_be _ _ _ Hpb), (from_to_bytes_be _ _ _ Hqb), !Z.eqb_refl, !Nat.eqb_refl.
  do 4 (erewrite M_bind_step; [|by apply guard404_ok]).
  erewrite M_bind_step; [|unfold lift_result; rewrite Hread; reflexivity]. cbv beta iota.
  rewrite Hsn, Z.eqb_refl. erewrite M_bind_step; [|by apply guard404_ok]. cbv zeta.
  erewrite M_bind_step; [|unfold lift_result; rewrite Hnn; reflexivity].
  erewrite M_bind_step; [|reflexivity].
  change gen_safe_prime with (CURRENT_DH_PRIME, snd gen_safe_prime). cbv beta iota.
  erewrite M_bind_step; [|reflexivity].
  erewrite M_bind_step; [|apply guard404_ok, good_ga_checks, Hga].
  erewrite M_bind_step; [|unfold lift_result; rewrite Hpbytes; reflexivity].
  erewrite M_bind_step; [|unfold lift_result; fold a; fold g_a; rewrite Hgab; reflexivity].
  erewrite M_bind_step; [|unfold lift_result; cbn [gen_server_nonce with_a with_inner]; rewrite Hans; reflexivity].
  erewrite M_bind_step; [|unfold lift_result; cbn [gen_server_nonce with_a with_inner]; rewrite Hsb; reflexivity].
  fold body. destruct (tmp_aes nn sb) as [key iv] eqn:Ht. cbn [fst snd] in *.
  erewrite M_bind_step; [|reflexivity].
  erewrite M_bind_step; [|unfold lift_result; rewrite Henc; reflexivity].
  unfold mret, M_ret. unfold after_req_dh. rewrite Ht. reflexivity.
Qed.

(** The third step: the server derives the key of the client. *)
Lemma set_dh_run g inner nn sb a b c s key padding :
  gen_auth_data s = Some (after_req_dh g inner nn sb a) -> length nn = 32%nat ->
  0 <= a -> 0 <= b ->
  client_auth_key (powmod (snd gen_safe_prime) a (fst gen_safe_prime)) b = Ok key ->
  client_set_dh (pq_nonce inner) (gen_server_nonce g) nn sb b padding = Ok c ->
  (forall data w, tl_write (KClientDH data) = Ok w -> ((20 + length w + length padding) mod 16 = 0)%nat) ->
  exists gb,
    _set_client_dh_params_sync c s
    = (Ok (MkClientDH (pq_nonce inner) (gen_server_nonce g) gb, sha1 key),
       MkKeygen (Some (with_key key (gen_auth_key_id g) (after_req_dh g inner nn sb a))) (tables s) (sent s)).
Proof using CL.
  intros Hg Hnn Ha Hb Hkey Hc Hpad. unfold client_set_dh in Hc.
  apply result_bind_ok in Hc as (gb & Hgb & Hc). apply result_bind_ok in Hc as (data & Hdata & Hc).
  destruct (tmp_aes_length nn sb Hnn) as [Hkl Hil].
  destruct (tmp_aes nn sb) as [k iv] eqn:Ht. cbn [fst snd] in *.
  apply result_bind_ok in Hc as (enc & Henc & Hc). apply Ok_inj in Hc as <-.
  destruct (ige_encrypt_ok (sha1 data ++ data ++ padding) k iv) as (enc' & Henc' & _ & Hdec).
  { rewrite !length_app, sha1_length. rewrite Nat.add_assoc. by apply (Hpad _ _ Hdata). }
  { rewrite length_app, sha1_length. lia. }
  { done. } { done. }
  rewrite Henc in Henc'. apply Ok_inj in Henc' as <-.
  exists gb. unfold _set_client_dh_params_sync. erewrite M_bind_step; [|reflexivity]. rewrite Hg.
  set (X := after_req_dh g inner nn sb a).
  assert (HX1 : gen_tmp_aes X = Some (k, iv)) by (unfold X, after_req_dh; by rewrite Ht).
  assert (HX2 : gen_server_nonce X = gen_server_nonce g) by done.
  assert (HX3 : gen_a X = Some a) by done.
  rewrite HX1, HX2, HX3. cbn [c_server_nonce c_encrypted_data]. rewrite Z.eqb_refl. erewrite M_bind_step; [|by apply guard404_ok].
  erewrite M_bind_step; [|unfold lift_result; rewrite Hdec; reflexivity].
  rewrite (drop_app_exact (sha1 data)), (take_app_exact (sha1 data)) by (by rewrite sha1_length).
  erewrite M_bind_step; [|unfold lift_result; rewrite (tl_read_write _ _ padding Hdata); reflexivity]. cbv beta iota.
  erewrite M_bind_step; [|unfold lift_result; rewrite Hdata; reflexivity].
  rewrite bool_decide_eq_true_2 by done. erewrite M_bind_step; [|by apply guard404_ok].
  cbn [dh_server_nonce]. rewrite Z.eqb_refl. erewrite M_bind_step; [|by apply guard404_ok].
  assert (Hagree : to_bytes_be 256 false (powmod (from_bytes_be gb) a CURRENT_DH_PRIME) = Ok key).
  { rewrite <- Hkey. unfold client_auth_key. rewrite (from_to_bytes_be _ _ _ Hgb). f_equal.
    change (fst gen_safe_prime) with CURRENT_DH_PRIME.
    rewrite !powmod_spec by done. rewrite !Z.mod_pow_l.
    rewrite <- !Z.pow_mul_r by done. by rewrite Z.mul_comm. }
  change gen_safe_prime with (CURRENT_DH_PRIME, snd gen_safe_prime). cbv beta iota.
  erewrite M_bind_step; [|reflexivity]. cbn [g_b].
  erewrite M_bind_step; [|unfold lift_result; rewrite Hagree; reflexivity].
  erewrite M_bind_step; [|reflexivity]. unfold mret, M_ret. reflexivity.
Qed.
End Handshake.

Section ReqPq.
Context {CR : Crypto} {TC : TlCodec}.

(** The primes that [next_prime] can return lie strictly between [2^30] and
    [2^31]. *)
Lemma req_pq_run p q random nonce fp s n :
  2 ^ 30 < p < 2 ^ 31 -> 2 ^ 30 < q < 2 ^ 31 -> p <> q -> read_bytes Int128 random true = Ok n ->
  exists pq, req_pq fp p q random nonce s
    = (Ok tt, MkKeygen (Some (new_GenAuthData (Z.min p q) (Z.max p q) n)) (tables s)
        (sent s ++ [ResPQ nonce n pq fp])) /\
    from_bytes_be pq = p * q /\ length pq = 8%nat.
Proof.
  intros Hp Hq Hne Hn.
  destruct (to_bytes_be_ok 8 (p * q)) as [pq Hpq]; [change (8 * Z.of_nat 8) with 64; nia|].
  exists pq. split; [|split; [by apply from_to_bytes_be in Hpq|by apply length_to_bytes_be in Hpq]].
  unfold req_pq, _req_pq_sync.
  rewrite (proj2 (Z.eqb_neq p (-1))), (proj2 (Z.eqb_neq q (-1))), (proj2 (Z.eqb_neq q p)) by lia.
  cbn [orb]. destruct (q <? p) eqn:E; b2p.
  - erewrite M_bind_step; [|unfold lift_result; unfold mbind, result_bind; rewrite Hn; reflexivity].
    erewrite M_bind_step; [|reflexivity]. cbn [gen_p gen_q new_GenAuthData].
    rewrite Z.mul_comm in Hpq.
    erewrite M_bind_step; [|unfold lift_result; rewrite Hpq; reflexivity].
    by rewrite Z.min_r, Z.max_l by lia.
  - erewrite M_bind_step; [|unfold lift_result; unfold mbind, result_bind; rewrite Hn; reflexivity].
    erewrite M_bind_step; [|reflexivity]. cbn [gen_p gen_q new_GenAuthData].
    erewrite M_bind_step; [|unfold lift_result; rewrite Hpq; reflexivity].
    by rewrite Z.min_l, Z.max_r by lia.
Qed.
End ReqPq.

(** What a client that completed the exchange knows and checks. *)
Definition key_id `{Crypto} (auth_key : bytes) : result Z :=
  read_bytes Long (drop (length (sha1 auth_key) - 8) (sha1 auth_key)) true.

Definition stored (t0 t : KeyTables) (temp : option Z) (expires_at id : Z) (key : bytes) : Prop :=
  match temp with
  | Some _ => exists e p, TempAuthKey t !! id = Some (MkTempKey key e p) /\
                (TempAuthKey t0 !! id = None -> e = expires_at /\ p = None)
  | None => exists l, AuthKey t !! id = Some (MkPermKey key l)
  end.

(** The key's id is not taken by a different key. *)
Definition id_free (t : KeyTables) (temp : option Z) (id : Z) (key : bytes) : Prop :=
  match temp with
  | Some _ => forall k, TempAuthKey t !! id = Some k -> tk_auth_key k = key
  | None => forall k, AuthKey t !! id = Some k -> pk_auth_key k = key
  end.

Section Finish.
Context {CR : Crypto} {CL : CryptoLaws} {TC : TlCodec}.

Lemma nonce_hash_ok nn tag aux : exists h, nonce_hash nn tag aux = Ok h.
Proof. unfold nonce_hash. by eexists. Qed.

Lemma key_id_ok key : exists id, key_id key = Ok id.
Proof using CL.
  unfold key_id, read_bytes. rewrite decide_True; [by eexists|].
  rewrite length_drop, sha1_length. done.
Qed.

Lemma create_free temp id key exp t : id_free t temp id key ->
  exists t', (match temp with Some _ => create_temp_key id key exp | None => create_perm_key id key end) t
    = (Ok tt, t') /\ stored t t' temp exp id key.
Proof.
  destruct temp as [e|]; intros Hf.
  - pose proof (create_temp_key_spec id key exp t) as H.
    destruct (create_temp_key id key exp t) as [r t'] eqn:E. destruct H as (_ & _ & Hok & _).
    revert E. unfold create_temp_key, id_free in *. unfold_monads.
    destruct (TempAuthKey t !! id) as [k|] eqn:El; [rewrite bool_decide_eq_true_2 by (by apply Hf)|]; intros [= <- <-].
    + exists t. split; [done|]. destruct (Hok eq_refl) as (e' & p & H'). exists e', p.
      split; [done|]. by rewrite El.
    + eexists. split; [reflexivity|]. exists exp, None. split; [apply lookup_insert_eq|done].
  - pose proof (create_perm_key_spec id key t) as H.
    destruct (create_perm_key id key t) as [r t'] eqn:E. destruct H as (_ & _ & Hok & _).
    revert E. unfold create_perm_key, id_free in *. unfold_monads.
    destruct (AuthKey t !! id) as [k|] eqn:El; [rewrite bool_decide_eq_true_2 by (by apply Hf)|]; intros [= <- <-].
    + exists t. split; [done|]. by apply Hok.
    + eexists. split; [reflexivity|]. by apply Hok.
Qed.
End Finish.

(** The messages of one connection, one after the other, while none of them
    disconnects. *)
Fixpoint handle_all `{Crypto} `{TlCodec} (d n fp : Z) (rs : list request) : KG unit :=
  match rs with
  | [] => mret tt
  | r :: rs => handle_unencrypted_message d n fp r;; handle_all d n fp rs
  end.

Section FullExchange.
Context {CR : Crypto} {CL : CryptoLaws} {TC : TlCodec}.
Context (rsa_e rsa_d rsa_n fp : Z).
Context (Hrsa : forall m, 0 <= m < rsa_n -> powmod (powmod m rsa_e rsa_n) rsa_d rsa_n = m)
  (Hhead : forall o b, tl_write (KPQInner o) = Ok b -> exists c r, b = c :: r /\ c <> x00).

Lemma client_req_inv server_nonce p q inner padding temp_key req :
  length temp_key = 32%nat ->
  (forall data, tl_write (KPQInner inner) = Ok data -> length (data ++ padding) = 192%nat /\
     forall k, rsa_pad data padding temp_key = Ok k -> from_bytes_be k < rsa_n) ->
  client_req_dh rsa_e rsa_n server_nonce p q inner padding temp_key = Ok req ->
  exists pb qb c, req = MkReqDH (pq_nonce inner) server_nonce pb qb c /\
    to_bytes_be 4 false p = Ok pb /\ to_bytes_be 4 false q = Ok qb /\ length c = 256%nat /\
    read_p_q_inner_data rsa_d rsa_n c = Ok (KPQInner inner).
Proof using All.
  intros Ht Hd Hreq. unfold client_req_dh in Hreq.
  apply result_bind_ok in Hreq as (data & Hdata & Hreq). destruct (Hd _ Hdata) as [Hl Hn].
  apply result_bind_ok in Hreq as (k & Hk & Hreq). apply result_bind_ok in Hreq as (c & Hc & Hreq).
  apply result_bind_ok in Hreq as (pb & Hpb & Hreq). apply result_bind_ok in Hreq as (qb & Hqb & Hreq).
  apply Ok_inj in Hreq as <-. exists pb, qb, c.
  destruct (read_padded rsa_e rsa_d rsa_n Hrsa Hhead inner data padding temp_key k c Hdata Ht Hl Hk (Hn _ Hk) Hc).
  done.
Qed.

Lemma set_handler_run g inner nn sb a b c s key id h1 padding time_us :
  gen_auth_data s = Some (after_req_dh g inner nn sb a) -> length nn = 32%nat -> 0 <= a -> 0 <= b ->
  client_auth_key (powmod (snd gen_safe_prime) a (fst gen_safe_prime)) b = Ok key ->
  client_set_dh (pq_nonce inner) (gen_server_nonce g) nn sb b padding = Ok c ->
  (forall data w, tl_write (KClientDH data) = Ok w -> ((20 + length w + length padding) mod 16 = 0)%nat) ->
  key_id key = Ok id -> nonce_hash nn x01 (take 8 (sha1 key)) = Ok h1 ->
  id_free (tables s) (pq_expires_in inner) id key ->
  exists g' t', set_client_dh_params time_us c s
    = (Ok tt, MkKeygen (Some g') t' (sent s ++ [DhGenOk (pq_nonce inner) (gen_server_nonce g) h1])) /\
    stored (tables s) t' (pq_expires_in inner)
      ((time_us + (match pq_expires_in inner with Some e => Z.max e 86400 | None => 0 end) * 1000000) / 1000000) id key.
Proof using CL.
  intros Hg Hnn Ha Hb Hkey Hc Hpad Hid Hh Hfree.
  destruct (set_dh_run g inner nn sb a b c s key padding Hg Hnn Ha Hb Hkey Hc Hpad) as (gb & Hrun).
  set (X := with_key key (gen_auth_key_id g) (after_req_dh g inner nn sb a)) in *.
  assert (HX1 : gen_auth_key X = Some key) by done.
  assert (HX2 : gen_new_nonce X = Some nn) by done.
  assert (HX3 : gen_expires_in X = match pq_expires_in inner with Some e => Z.max e 86400 | None => 0 end) by done.
  assert (HX4 : gen_server_nonce X = gen_server_nonce g) by done.
  destruct (create_free (pq_expires_in inner) id key ((time_us + gen_expires_in X * 1000000) / 1000000)
    (tables s) Hfree) as (t' & Hcreate & Hstored).
  exists (with_key key (Some id) X), t'. split; [|by rewrite HX3 in Hstored].
  unfold set_client_dh_params. erewrite M_bind_step; [|exact Hrun]. cbv beta iota.
  erewrite M_bind_step; [|reflexivity]. cbn [gen_auth_data]. cbv zeta.
  erewrite M_bind_step; [|unfold lift_result; unfold key_id in Hid; rewrite Hid; reflexivity].
  rewrite HX1, HX2, HX4. erewrite M_bind_step; [|reflexivity]. erewrite M_bind_step; [|reflexivity].
  erewrite M_bind_step; [|reflexivity].
  assert (Hc' : (if negb (gen_expires_in X =? 0)
      then create_temp_key id key ((time_us + gen_expires_in X * 1000000) / 1000000)
      else create_perm_key id key) (tables s) = (Ok tt, t')).
  { rewrite <- Hcreate. rewrite HX3. destruct (pq_expires_in inner) as [e|]; [|done].
    rewrite (proj2 (Z.eqb_neq _ _)) by lia. done. }
  erewrite M_bind_step.
  2:{ unfold attempt, on_tables. cbn [tables]. rewrite Hc'. reflexivity. }
  cbv beta iota. erewrite M_bind_step; [|unfold lift_result; rewrite Hh; reflexivity]. reflexivity.
Qed.
End FullExchange.


(** ** What the exchange never does *)
Definition same_tables {A} (m : KG A) : Prop := forall s, tables (snd (m s)) = tables s.

Lemma same_bind {A B} (m : KG A) (f : A -> KG B) :
  same_tables m -> (forall a, same_tables (f a)) -> same_tables (m ≫= f).
Proof.
  intros Hm Hf s. unfold mbind, M_bind. specialize (Hm s).
  destruct (m s) as [[a|e] s']; simpl in *; [|done]. by rewrite Hf.
Qed.
Lemma same_ret {A} (a : A) : same_tables (mret a).
Proof. done. Qed.
Lemma same_raise {A} e : same_tables (raise (A := A) e).
Proof. done. Qed.
Lemma same_guard c : same_tables (guard404 c).
Proof. intros s. by destruct c. Qed.
Lemma same_lift {A} (r : result A) : same_tables (lift_result r).
Proof. done. Qed.
Lemma same_get : same_tables get.
Proof. done. Qed.
Lemma same_set g : same_tables (set_gen g).
Proof. done. Qed.
Lemma same_send x : same_tables (send_unencrypted x).
Proof. done. Qed.
Create HintDb keygen.
#[export] Hint Resolve same_ret same_raise same_guard same_lift same_get same_set same_send : keygen.
Ltac walk_tables := cbv zeta beta; first
  [ solve [auto with keygen]
  | apply same_bind; [walk_tables|intros; walk_tables]
  | case_match; walk_tables ].

Section Safety.
Context {CR : Crypto} {TC : TlCodec} (d n fp : Z).

Lemma same_req_pq p q random nonce : same_tables (req_pq fp p q random nonce).
Proof. unfold req_pq. walk_tables. Qed.
Lemma same_req_dh random padding time req : same_tables (req_dh_params_handler d n random padding time req).
Proof. unfold req_dh_params_handler, _req_dh_params_sync. walk_tables. Qed.
Lemma same_set_sync req : same_tables (_set_client_dh_params_sync req).
Proof. unfold _set_client_dh_params_sync. walk_tables. Qed.

(** What the checks of the third step establish. *)
Record proven (s : KeygenState) (req : SetClientDHParams) : Prop := {
  pv_checks : exists g key iv dec inner w,
    gen_auth_data s = Some g /\ gen_tmp_aes g = Some (key, iv) /\
    c_server_nonce req = gen_server_nonce g /\
    ige256_decrypt (c_encrypted_data req) key iv = Ok dec /\
    tl_read (drop 20 dec) = Ok (KClientDH inner) /\ tl_write (KClientDH inner) = Ok w /\
    take 20 dec = sha1 w /\ dh_server_nonce inner = gen_server_nonce g }.

Lemma guard404_inv c s a s' : guard404 c s = (Ok a, s') -> c = true /\ s' = s.
Proof. unfold guard404, ensure. destruct c; [|done]. by intros [= _ <-]. Qed.

Lemma lift_result_inv {A} (r : result A) (s : KeygenState) a s' : lift_result r s = (Ok a, s') -> r = Ok a /\ s' = s.
Proof. by intros [= -> ->]. Qed.

Lemma set_sync_proven req s x s' : _set_client_dh_params_sync req s = (Ok x, s') -> proven s req.
Proof.
  unfold _set_client_dh_params_sync. intros H. apply M_bind_ok in H as (s0 & ? & [= <- <-] & H).
  destruct (gen_auth_data s) as [g|] eqn:Hg; [|done].
  destruct (gen_tmp_aes g) as [[key iv]|] eqn:Ht; [|done].
  apply M_bind_ok in H as (? & ? & [Hn ->]%guard404_inv & H).
  apply M_bind_ok in H as (dec & ? & [Hdec ->]%lift_result_inv & H).
  apply M_bind_ok in H as (o & ? & [Ho ->]%lift_result_inv & H).
  destruct o as [|inner| |]; try done.
  apply M_bind_ok in H as (w & ? & [Hw ->]%lift_result_inv & H).
  apply M_bind_ok in H as (? & ? & [Hs ->]%guard404_inv & H).
  apply M_bind_ok in H as (? & ? & [Hn2 ->]%guard404_inv & _).
  b2p. split. by exists g, key, iv, dec, inner, w.
Qed.

Lemma create_grows (temp : bool) id key e (t : KeyTables) :
  let t' := snd ((if temp then create_temp_key id key e else create_perm_key id key) t) in
  AuthKey t ⊆ AuthKey t' /\ TempAuthKey t ⊆ TempAuthKey t'.
Proof.
  destruct temp.
  - pose proof (create_temp_key_spec id key e t) as H. destruct (create_temp_key id key e t) as [r t'].
    destruct H as (H1 & H2 & _). simpl. by rewrite H2.
  - pose proof (create_perm_key_spec id key t) as H. destruct (create_perm_key id key t) as [r t'].
    destruct H as (H1 & H2 & _). simpl. by rewrite H2.
Qed.

(** [m] only adds keys, and only when [P]. *)
Definition grows (P : Prop) {A} (m : KG A) (s : KeygenState) : Prop :=
  AuthKey (tables s) ⊆ AuthKey (tables (snd (m s))) /\
  TempAuthKey (tables s) ⊆ TempAuthKey (tables (snd (m s))) /\
  (tables (snd (m s)) <> tables s -> P).

Lemma grows_same P {A} (m : KG A) s : same_tables m -> grows P m s.
Proof. intros Hm. unfold grows. rewrite Hm. by split_and!. Qed.

Lemma grows_bind P {A B} (m : KG A) (f : A -> KG B) s : same_tables m ->
  (forall a s', m s = (Ok a, s') -> grows P (f a) s') -> grows P (m ≫= f) s.
Proof.
  intros Hm Hf. unfold grows, mbind, M_bind. specialize (Hm s).
  destruct (m s) as [[a|e] s'] eqn:E; simpl in Hm.
  - rewrite <- Hm. by apply Hf.
  - simpl. rewrite Hm. by split_and!.
Qed.

Lemma grows_bind_same P {A B} (m : KG A) (f : A -> KG B) s : grows P m s ->
  (forall a, same_tables (f a)) -> grows P (m ≫= f) s.
Proof.
  intros Hm Hf. unfold grows, mbind, M_bind in *.
  destruct (m s) as [[a|e] s'] eqn:E; [|done]. by rewrite Hf.
Qed.

Lemma set_handler_tables time_us req s : grows (proven s req) (set_client_dh_params time_us req) s.
Proof.
  unfold set_client_dh_params. apply grows_bind; [apply same_set_sync|].
  intros [inner digest] s1 Hproven%set_sync_proven.
  apply grows_bind; [done|]. intros s2 s3 [= <- <-].
  destruct (gen_auth_data s1) as [g|]; [|by apply grows_same]. cbv zeta.
  apply grows_bind; [done|]. intros id s2 _. apply grows_bind; [done|]. intros key s3 _.
  apply grows_bind; [done|]. intros nn s4 _. apply grows_bind; [done|]. intros [] s5 _.
  apply grows_bind_same; [|intros; walk_tables].
  pose proof (create_grows (negb (gen_expires_in g =? 0)) id key
    ((time_us + gen_expires_in g * 1000000) / 1000000) (tables s5)) as Hgrow. cbv zeta in Hgrow.
  set (m := if negb (gen_expires_in g =? 0)
    then create_temp_key id key ((time_us + gen_expires_in g * 1000000) / 1000000)
    else create_perm_key id key) in *.
  unfold grows, attempt, on_tables. destruct (m (tables s5)) as [r t']. simpl in *. naive_solver.
Qed.

Lemma req_dh_refused random padding time req g s :
  gen_auth_data s = Some g ->
  (length (r_p req) <> 4%nat \/ length (r_q req) <> 4%nat \/ from_bytes_be (r_p req) <> gen_p g \/
   from_bytes_be (r_q req) <> gen_q g \/ r_server_nonce req <> gen_server_nonce g \/
   length (r_encrypted_data req) <> 256%nat) ->
  req_dh_params_handler d n random padding time req s = (Raise Disconnect404, s).
Proof.
  intros Hg Hbad. unfold req_dh_params_handler, _req_dh_params_sync. erewrite M_bind_raise; [done|].
  erewrite M_bind_step; [|reflexivity]. rewrite Hg.
  destruct ((length (r_p req) =? 4)%nat && (length (r_q req) =? 4)%nat) eqn:E1; [|by apply M_bind_raise].
  erewrite M_bind_step; [|reflexivity].
  destruct ((from_bytes_be (r_p req) =? gen_p g) && (from_bytes_be (r_q req) =? gen_q g)) eqn:E2; [|by apply M_bind_raise].
  erewrite M_bind_step; [|reflexivity].
  destruct (gen_server_nonce g =? r_server_nonce req) eqn:E3; [|by apply M_bind_raise].
  erewrite M_bind_step; [|reflexivity].
  destruct (length (r_encrypted_data req) =? 256)%nat eqn:E4; [|by apply M_bind_raise].
  b2p. exfalso. naive_solver lia.
Qed.
End Safety.


(** ** A concrete exchange
    Toy primitives that satisfy the laws, and a fixed-width codec. *)
Definition toy_crypto : Crypto := {|
  sha1 := fun _ => zero_bytes 20; sha256 := fun _ => zero_bytes 32;
  ige256_encrypt := fun d _ _ => Ok d; ige256_decrypt := fun d _ _ => Ok d;
  powmod := fun b e m => b ^ e mod m |}.

Lemma toy_laws : @CryptoLaws toy_crypto.
Proof. split; [done|done| |done]. intros d k iv _ _ _ _. by exists d. Qed.

Definition toy_write (o : kobj) : result bytes :=
  match o with
  | KPQInner o =>
      a ← to_bytes_le 16 true (pq_nonce o); b ← to_bytes_le 16 true (pq_server_nonce o);
      c ← to_bytes_le 32 true (pq_new_nonce o);
      d ← to_bytes_le 8 true (default 0 (pq_expires_in o));
      Ok ((match pq_expires_in o with Some _ => x02 | None => x01 end) :: a ++ b ++ c ++ d)
  | KClientDH o =>
      a ← to_bytes_le 16 true (dh_nonce o); b ← to_bytes_le 16 true (dh_server_nonce o);
      if (length (g_b o) =? 256)%nat then Ok (x03 :: a ++ b ++ g_b o) else Raise ValueError
  | KServerDH o =>
      a ← to_bytes_le 16 true (s_nonce o); b ← to_bytes_le 16 true (s_server_nonce o);
      c ← to_bytes_le 8 true (s_g o); d ← to_bytes_le 8 true (s_server_time o);
      if (length (s_dh_prime o) =? 256)%nat && (length (s_g_a o) =? 256)%nat
      then Ok (x04 :: a ++ b ++ c ++ d ++ s_dh_prime o ++ s_g_a o) else Raise ValueError
  | KOther => Raise ValueError
  end.

Definition cut (n : nat) : reader bytes := fun s => Ok (take n s, drop n s).
Definition cut_int (n : nat) : reader Z := fun s => Ok (from_bytes_le true (take n s), drop n s).

Definition toy_reader : reader kobj := fun s =>
  match s with
  | x01 :: s => (a ← cut_int 16; b ← cut_int 16; c ← cut_int 32; d ← cut_int 8;
      mret (KPQInner (MkPQInner a b c None))) s
  | x02 :: s => (a ← cut_int 16; b ← cut_int 16; c ← cut_int 32; d ← cut_int 8;
      mret (KPQInner (MkPQInner a b c (Some d)))) s
  | x03 :: s => (a ← cut_int 16; b ← cut_int 16; g ← cut 256; mret (KClientDH (MkClientDH a b g))) s
  | x04 :: s => (a ← cut_int 16; b ← cut_int 16; c ← cut_int 8; d ← cut_int 8; p ← cut 256; g ← cut 256;
      mret (KServerDH (MkServerDH a b c p g d))) s
  | _ => Raise ValueError
  end.
Definition toy_read (s : bytes) : result kobj := fst <$> toy_reader s.

Lemma cut_int_app n z b rest : (0 < n)%nat -> to_bytes_le n true z = Ok b ->
  cut_int n (b ++ rest) = Ok (z, rest).
Proof.
  intros Hn Hb. pose proof (to_bytes_le_length _ _ _ _ Hb) as Hl. unfold cut_int.
  rewrite take_app_exact, drop_app_exact by done. by rewrite (from_to_bytes_le n true z b).
Qed.
Lemma cut_app n b rest : length b = n -> cut n (b ++ rest) = Ok (b, rest).
Proof. intros Hl. unfold cut. by rewrite take_app_exact, drop_app_exact. Qed.

Ltac toy_steps := repeat first
  [ erewrite reader_bind_step; [|apply cut_int_app; [lia|eassumption]]
  | erewrite reader_bind_step; [|apply cut_app; eassumption] ].

Lemma toy_read_write o b tail : toy_write o = Ok b -> toy_read (b ++ tail) = Ok o.
Proof.
  destruct o as [[n s nn e]|[n s g]|[n s g p ga t]|]; cbn [toy_write]; intros H; [| | |done].
  - apply result_bind_ok in H as (a & Ha & H). apply result_bind_ok in H as (b' & Hb & H).
    apply result_bind_ok in H as (c & Hc & H). apply result_bind_ok in H as (d & Hd & H).
    apply Ok_inj in H as <-. cbn in Ha, Hb, Hc, Hd. unfold toy_read.
    destruct e as [e|]; cbn [pq_expires_in app toy_reader default] in *; rewrite <- !app_assoc; by toy_steps.
  - apply result_bind_ok in H as (a & Ha & H). apply result_bind_ok in H as (b' & Hb & H).
    destruct (length _ =? 256)%nat eqn:El; [|done]. apply Nat.eqb_eq in El.
    apply Ok_inj in H as <-. unfold toy_read. cbn [app toy_reader]. rewrite <- !app_assoc. by toy_steps.
  - apply result_bind_ok in H as (a & Ha & H). apply result_bind_ok in H as (b' & Hb & H).
    apply result_bind_ok in H as (c & Hc & H). apply result_bind_ok in H as (d & Hd & H).
    destruct (_ && _) eqn:El; [|done]. apply andb_true_iff in El as [El1%Nat.eqb_eq El2%Nat.eqb_eq].
    apply Ok_inj in H as <-. unfold toy_read. cbn [app toy_reader]. rewrite <- !app_assoc. by toy_steps.
Qed.

Definition toy_codec : TlCodec := {| tl_read := toy_read; tl_write := toy_write; tl_read_write := toy_read_write |}.

#[local] Existing Instance toy_crypto.
#[local] Existing Instance toy_codec.

Definition value {A} (d : A) (r : result A) : A := match r with Ok a => a | Raise _ => d end.
Definition toy_p : Z := 2 ^ 30 + 3.
Definition toy_q : Z := 2 ^ 30 + 7.
Definition toy_n : Z := 2 ^ 2048.
Definition toy_a : bytes := replicate 254 x00 ++ [x05; x0b].
Definition toy_ga : Z := Eval vm_compute in 3 ^ 1291.
Definition toy_prime_bytes : bytes := Eval vm_compute in value [] (to_bytes_be 256 false CURRENT_DH_PRIME).
Definition toy_ga_bytes : bytes := Eval vm_compute in value [] (to_bytes_be 256 false toy_ga).
Definition toy_inner : PQInner := MkPQInner 5 0 9 (Some 3600).
Definition toy_req1 : ReqDHParams := Eval vm_compute in value (MkReqDH 0 0 [] [] [])
  (client_req_dh 1 toy_n 0 toy_p toy_q toy_inner (replicate 119 x00) (zero_bytes 32)).
Definition toy_ans : bytes := Eval vm_compute in value []
  (toy_write (KServerDH (MkServerDH 5 0 3 toy_prime_bytes toy_ga_bytes 1000))).
Definition toy_req2 : SetClientDHParams := Eval vm_compute in value (MkSetDH 0 0 [])
  (client_set_dh 5 0 (le_bytes 32 9) (zero_bytes 16) 1 (replicate 11 x00)).

Lemma toy_client_length data w : toy_write (KClientDH data) = Ok w -> length w = 289%nat.
Proof.
  cbn [toy_write]. intros H. apply result_bind_ok in H as (a & Ha & H). apply result_bind_ok in H as (b' & Hb & H).
  destruct (length _ =? 256)%nat eqn:El; [|done]. apply Nat.eqb_eq in El. apply Ok_inj in H as <-.
  apply to_bytes_le_length in Ha, Hb. simpl. rewrite !length_app, Ha, Hb, El. done.
Qed.

Lemma toy_head o w : tl_write (KPQInner o) = Ok w -> exists c r, w = c :: r /\ c <> x00.
Proof.
  cbn. intros H. apply result_bind_ok in H as (a & Ha & H). apply result_bind_ok in H as (b' & Hb & H).
  apply result_bind_ok in H as (c & Hc & H). apply result_bind_ok in H as (d & Hd & H). apply Ok_inj in H as <-.
  eexists _, _. split; [reflexivity|]. by destruct (pq_expires_in o).
Qed.

Lemma toy_pad data : tl_write (KPQInner toy_inner) = Ok data ->
  length (data ++ replicate 119 x00) = 192%nat /\
  forall k, rsa_pad data (replicate 119 x00) (zero_bytes 32) = Ok k -> from_bytes_be k < toy_n.
Proof.
  intros Hd. assert (length data = 73%nat) as Hl by (vm_compute in Hd; by apply Ok_inj in Hd as <-).
  assert (Hl' : length (data ++ replicate 119 x00) = 192%nat) by (rewrite length_app, Hl; done).
  split; [done|]. intros k Hk.
  destruct (@rsa_pad_run toy_crypto toy_laws data (replicate 119 x00) (zero_bytes 32) eq_refl Hl') as (k' & Hk' & Hlen & _).
  rewrite Hk in Hk'. apply Ok_inj in Hk' as <-. pose proof (be_val_range k) as Hr. rewrite Hlen in Hr. apply Hr.
Qed.


Lemma rsa_pad_roundtrip_witness :
  exists k, @rsa_pad toy_crypto [x01; x02] (replicate 190 x07) (replicate 32 x09) = Ok k /\
    @rsa_pad_inverse toy_crypto k = Ok ([x01; x02] ++ replicate 190 x07).
Proof.
  destruct (@rsa_pad_roundtrip toy_crypto toy_laws [x01; x02] (replicate 190 x07) (replicate 32 x09) eq_refl eq_refl)
    as [(k & H1 & _ & H2) _].
  exists k. by split.
Defined.
