(* ===== verification/Broker.v ===== *)
(** The subscription tables of the message broker and the choice of the sessions
    a message goes to ([piltover/message_brokers/base_broker.py]). A session
    object is its reference, a [Z]; what it holds is the [Session] record. *)
From S2P Require Import Prelude PyBytes TlPrimitives TlObject Session.

(** [dict[int, set[Session]]] *)
Abbreviation subs := (gmap Z (gset Z)).

Definition members (m : subs) (k : Z) : gset Z := default ∅ (m !! k).

Definition sub_add (k ref : Z) (m : subs) : subs := <[k := {[ref]} ∪ members m k]> m.

Definition sub_del (k ref : Z) (m : subs) : subs :=
  match m !! k with
  | None => m
  | Some s => let s := s ∖ {[ref]} in if decide (s = ∅) then delete k m else <[k := s]> m
  end.

(** [if not k: return] *)
Definition if_key (k : option Z) (f : Z -> subs -> subs) (m : subs) : subs :=
  match k with Some k => if k =? 0 then m else f k m | None => m end.

Record Broker := MkBroker {
  subscribed_users : subs;
  subscribed_sessions : gmap Z Z;
  subscribed_keys : subs;
  subscribed_auths : subs;
  subscribed_channels : subs;
  internal_push_users : subs;
}.

Definition cleanup (_ : Broker) : Broker := MkBroker ∅ ∅ ∅ ∅ ∅ ∅.

Definition on_users (f : subs -> subs) (b : Broker) : Broker :=
  MkBroker (f (subscribed_users b)) (subscribed_sessions b) (subscribed_keys b)
    (subscribed_auths b) (subscribed_channels b) (internal_push_users b).
Definition on_sessions (f : gmap Z Z -> gmap Z Z) (b : Broker) : Broker :=
  MkBroker (subscribed_users b) (f (subscribed_sessions b)) (subscribed_keys b)
    (subscribed_auths b) (subscribed_channels b) (internal_push_users b).
Definition on_keys (f : subs -> subs) (b : Broker) : Broker :=
  MkBroker (subscribed_users b) (subscribed_sessions b) (f (subscribed_keys b))
    (subscribed_auths b) (subscribed_channels b) (internal_push_users b).
Definition on_auths (f : subs -> subs) (b : Broker) : Broker :=
  MkBroker (subscribed_users b) (subscribed_sessions b) (subscribed_keys b)
    (f (subscribed_auths b)) (subscribed_channels b) (internal_push_users b).
Definition on_channels (f : subs -> subs) (b : Broker) : Broker :=
  MkBroker (subscribed_users b) (subscribed_sessions b) (subscribed_keys b)
    (subscribed_auths b) (f (subscribed_channels b)) (internal_push_users b).
Definition on_push (f : subs -> subs) (b : Broker) : Broker :=
  MkBroker (subscribed_users b) (subscribed_sessions b) (subscribed_keys b)
    (subscribed_auths b) (subscribed_channels b) (f (internal_push_users b)).

Definition subscribe_user (user_id : option Z) (ref : Z) : Broker -> Broker :=
  on_users (if_key user_id (fun k => sub_add k ref)).
Definition subscribe_key (key_id : option Z) (ref : Z) : Broker -> Broker :=
  on_keys (if_key key_id (fun k => sub_add k ref)).
Definition subscribe_auth (auth_id : option Z) (ref : Z) : Broker -> Broker :=
  on_auths (if_key auth_id (fun k => sub_add k ref)).
Definition subscribe_internal_push (user_id : option Z) (ref : Z) : Broker -> Broker :=
  on_push (if_key user_id (fun k => sub_add k ref)).
Definition unsubscribe_user (user_id : option Z) (ref : Z) : Broker -> Broker :=
  on_users (if_key user_id (fun k => sub_del k ref)).
Definition unsubscribe_key (key_id : option Z) (ref : Z) : Broker -> Broker :=
  on_keys (if_key key_id (fun k => sub_del k ref)).
Definition unsubscribe_auth (auth_id : option Z) (ref : Z) : Broker -> Broker :=
  on_auths (if_key auth_id (fun k => sub_del k ref)).
Definition unsubscribe_internal_push (user_id : option Z) (ref : Z) : Broker -> Broker :=
  on_push (if_key user_id (fun k => sub_del k ref)).

Definition channels_diff_update (ref : Z) (to_delete to_add : list Z) : Broker -> Broker :=
  on_channels (fun m => foldl (fun m c => sub_add c ref m)
                          (foldl (fun m c => sub_del c ref m) m to_delete) to_add).

Definition session_key (s : Session) : option Z := auth_data s ≫= auth_key_id.
Definition session_perm_key (s : Session) : option Z := auth_data s ≫= perm_auth_key_id.

Definition subscribe (ref : Z) (s : Session) (b : Broker) : Broker :=
  let b := on_sessions (<[session_id s := ref]>) b in
  let b := subscribe_user (user_id (auth s)) ref b in
  let b := subscribe_key (session_key s) ref b in
  let b := subscribe_key (session_perm_key s) ref b in
  let b := subscribe_auth (auth_id (auth s)) ref b in
  let b := channels_diff_update ref [] (elements (channel_ids (auth s))) b in
  if is_internal_push s then subscribe_internal_push (user_id (auth s)) ref b
  else unsubscribe_internal_push (user_id (auth s)) ref b.

Definition unsubscribe (ref : Z) (s : Session) (b : Broker) : Broker :=
  let b := on_sessions (delete (session_id s)) b in
  let b := unsubscribe_user (user_id (auth s)) ref b in
  let b := unsubscribe_key (session_key s) ref b in
  let b := unsubscribe_key (session_perm_key s) ref b in
  let b := unsubscribe_auth (auth_id (auth s)) ref b in
  let b := channels_diff_update ref (elements (channel_ids (auth s))) [] b in
  unsubscribe_internal_push (user_id (auth s)) ref b.

(** ** Messages *)
Record MessageToUsers := MkMessageToUsers {
  users : option (list Z);
  channels : option (list Z);
  keys : option (list Z);
  auths : option (list Z);
  ignore_auth : option (list Z);
  obj : tlval;
}.

(** [MessageToUsersShort], as the first lines of [_process_message_to_users]
    normalise it *)
Definition short_message (user channel key auth ignore : option Z) (obj : tlval) : MessageToUsers :=
  let one (x : option Z) := (fun x => [x]) <$> x in
  MkMessageToUsers (one user) (one channel) (one key) (one auth) (one ignore) obj.

Definition ignored (m : MessageToUsers) (auth_id : option Z) : bool :=
  match auth_id with
  | Some a => bool_decide (a ∈ default [] (ignore_auth m))
  | None => false
  end.

Definition union_of (s : subs) (ks : list Z) : gset Z := ⋃ (map (members s) ks).

(** [send_to] *)
Definition send_to (m : MessageToUsers) (b : Broker) : gset Z :=
  union_of (subscribed_users b) (default [] (users m)) ∪
  union_of (subscribed_keys b) (default [] (keys m)) ∪
  union_of (subscribed_channels b) (default [] (channels m)) ∪
  union_of (subscribed_auths b)
    (filter (fun a => ignored m (Some a) = false) (default [] (auths m))).

Definition ID_Updates : Z := 0x74ae4240.

(** [_deliver_updates_to_internal_push]; [group_call_update] are the ids of the
    generated [UpdateGroupCall], [UpdateGroupCallParticipants] and
    [UpdateGroupCallConnection]. *)
Definition deliver_updates_to_internal_push (group_call_update : list Z) (obj : tlval) : bool :=
  bool_decide (tlid obj = ID_Updates) || bool_decide (tlid obj ∈ group_call_update).

(** [_deliver]: whether the message is queued for the session *)
Definition delivers (group_call_update : list Z) (m : MessageToUsers) (s : Session) : bool :=
  negb (ignored m (auth_id (auth s))
        || (is_internal_push s && negb (deliver_updates_to_internal_push group_call_update (obj m))))
  && bool_decide (is_Some (client s)).

(** The sessions that a message to users is queued for *)
Definition recipients (group_call_update : list Z) (heap : gmap Z Session) (m : MessageToUsers)
    (b : Broker) : list Z :=
  filter (fun ref => from_option (delivers group_call_update m) false (heap !! ref) = true)
    (elements (send_to m b)).

(** The sessions that an internal push is queued for *)
Definition push_recipients (heap : gmap Z Session) (users : list Z) (b : Broker) : list Z :=
  filter (fun ref => is_Some (heap !! ref ≫= client)) (elements (union_of (internal_push_users b) users)).

(** ** Lemmas *)
Lemma elem_of_members_add m k ref k' ref' :
  ref' ∈ members (sub_add k ref m) k' <-> (k' = k /\ ref' = ref) \/ ref' ∈ members m k'.
Proof.
  unfold members, sub_add. destruct (decide (k' = k)) as [->|Hk].
  - rewrite lookup_insert_eq. cbn. unfold members. set_solver.
  - rewrite lookup_insert_ne by done. naive_solver.
Qed.

Lemma elem_of_members_del m k ref k' ref' :
  ref' ∈ members (sub_del k ref m) k' <-> ref' ∈ members m k' /\ ~ (k' = k /\ ref' = ref).
Proof.
  unfold members, sub_del. destruct (m !! k) as [s|] eqn:E.
  - case_decide as Hs; destruct (decide (k' = k)) as [->|Hk].
    + rewrite lookup_delete_eq, E. cbn. set_solver.
    + rewrite lookup_delete_ne by done. naive_solver.
    + rewrite lookup_insert_eq, E. cbn. set_solver.
    + rewrite lookup_insert_ne by done. naive_solver.
  - split; [|naive_solver]. intros H. split; [done|]. intros [-> ->]. rewrite E in H.
    by apply not_elem_of_empty in H.
Qed.

(** No key is mapped to an empty set. *)
Definition compact (m : subs) : Prop := forall k, m !! k <> Some ∅.

Lemma compact_add k ref m : compact m -> compact (sub_add k ref m).
Proof.
  intros H k'. unfold sub_add. destruct (decide (k' = k)) as [->|Hk].
  - rewrite lookup_insert_eq. intros [= Hs]. set_solver.
  - by rewrite lookup_insert_ne.
Qed.

Lemma compact_del k ref m : compact m -> compact (sub_del k ref m).
Proof.
  intros H k'. unfold sub_del. destruct (m !! k) as [s|] eqn:E; [|done].
  case_decide as Hs; destruct (decide (k' = k)) as [->|Hk].
  - by rewrite lookup_delete_eq.
  - by rewrite lookup_delete_ne.
  - rewrite lookup_insert_eq. congruence.
  - by rewrite lookup_insert_ne.
Qed.

Lemma if_key_ind (P : subs -> Prop) k f m :
  P m -> (forall k', k = Some k' -> k' <> 0 -> P (f k' m)) -> P (if_key k f m).
Proof. intros Hm Hf. unfold if_key. destruct k as [k|]; [|done]. destruct (k =? 0) eqn:E; b2p; auto. Qed.

Lemma elem_of_if_key_add m k ref k' ref' :
  ref' ∈ members (if_key k (fun k => sub_add k ref) m) k' <->
  (k = Some k' /\ k' <> 0 /\ ref' = ref) \/ ref' ∈ members m k'.
Proof.
  unfold if_key. destruct k as [k|]; [|naive_solver]. destruct (k =? 0) eqn:E; b2p.
  - naive_solver.
  - rewrite elem_of_members_add. naive_solver.
Qed.

Lemma elem_of_if_key_del m k ref k' ref' :
  ref' ∈ members (if_key k (fun k => sub_del k ref) m) k' <->
  ref' ∈ members m k' /\ ~ (k = Some k' /\ k' <> 0 /\ ref' = ref).
Proof.
  unfold if_key. destruct k as [k|]; [|naive_solver]. destruct (k =? 0) eqn:E; b2p.
  - naive_solver.
  - rewrite elem_of_members_del. naive_solver.
Qed.

Lemma elem_of_foldl_add ref l m k ref' :
  ref' ∈ members (foldl (fun m c => sub_add c ref m) m l) k <->
  (k ∈ l /\ ref' = ref) \/ ref' ∈ members m k.
Proof.
  revert m. induction l as [|c l IH]; intros m; cbn; [set_solver|].
  rewrite IH, elem_of_members_add. set_solver.
Qed.

Lemma elem_of_foldl_del ref l m k ref' :
  ref' ∈ members (foldl (fun m c => sub_del c ref m) m l) k <->
  ref' ∈ members m k /\ ~ (k ∈ l /\ ref' = ref).
Proof.
  revert m. induction l as [|c l IH]; intros m; cbn; [set_solver|].
  rewrite IH, elem_of_members_del. set_solver.
Qed.

Definition broker_compact (b : Broker) : Prop :=
  compact (subscribed_users b) /\ compact (subscribed_keys b) /\ compact (subscribed_auths b) /\
  compact (subscribed_channels b) /\ compact (internal_push_users b).

Lemma compact_if_key_add k ref m : compact m -> compact (if_key k (fun k => sub_add k ref) m).
Proof. intros. apply if_key_ind; auto using compact_add. Qed.
Lemma compact_if_key_del k ref m : compact m -> compact (if_key k (fun k => sub_del k ref) m).
Proof. intros. apply if_key_ind; auto using compact_del. Qed.
Lemma compact_foldl_add ref l m : compact m -> compact (foldl (fun m c => sub_add c ref m) m l).
Proof. revert m. induction l; cbn; auto using compact_add. Qed.
Lemma compact_foldl_del ref l m : compact m -> compact (foldl (fun m c => sub_del c ref m) m l).
Proof. revert m. induction l; cbn; auto using compact_del. Qed.

#[export] Hint Resolve compact_add compact_del compact_if_key_add compact_if_key_del
  compact_foldl_add compact_foldl_del : py.

Lemma elem_of_union_of s ks ref : ref ∈ union_of s ks <-> exists k, k ∈ ks /\ ref ∈ members s k.
Proof. unfold union_of. rewrite elem_of_union_list. set_solver. Qed.

(** The tables after [subscribe] and [unsubscribe] *)
Lemma subscribe_members ref s b k r :
  let b' := subscribe ref s b in
  (r ∈ members (subscribed_users b') k <->
     (user_id (auth s) = Some k /\ k <> 0 /\ r = ref) \/ r ∈ members (subscribed_users b) k) /\
  (r ∈ members (subscribed_keys b') k <->
     ((session_key s = Some k \/ session_perm_key s = Some k) /\ k <> 0 /\ r = ref)
     \/ r ∈ members (subscribed_keys b) k) /\
  (r ∈ members (subscribed_auths b') k <->
     (auth_id (auth s) = Some k /\ k <> 0 /\ r = ref) \/ r ∈ members (subscribed_auths b) k) /\
  (r ∈ members (subscribed_channels b') k <->
     (k ∈ channel_ids (auth s) /\ r = ref) \/ r ∈ members (subscribed_channels b) k) /\
  (r ∈ members (internal_push_users b') k <->
     if is_internal_push s
     then (user_id (auth s) = Some k /\ k <> 0 /\ r = ref) \/ r ∈ members (internal_push_users b) k
     else r ∈ members (internal_push_users b) k /\ ~ (user_id (auth s) = Some k /\ k <> 0 /\ r = ref)).
Proof.
  cbn zeta. unfold subscribe. destruct (is_internal_push s); cbn;
    rewrite !elem_of_if_key_add, elem_of_foldl_add, ?elem_of_if_key_del, elem_of_elements; naive_solver.
Qed.

Lemma unsubscribe_members ref s b k r :
  let b' := unsubscribe ref s b in
  (r ∈ members (subscribed_users b') k <->
     r ∈ members (subscribed_users b) k /\ ~ (user_id (auth s) = Some k /\ k <> 0 /\ r = ref)) /\
  (r ∈ members (subscribed_keys b') k <->
     r ∈ members (subscribed_keys b) k /\
     ~ ((session_key s = Some k \/ session_perm_key s = Some k) /\ k <> 0 /\ r = ref)) /\
  (r ∈ members (subscribed_auths b') k <->
     r ∈ members (subscribed_auths b) k /\ ~ (auth_id (auth s) = Some k /\ k <> 0 /\ r = ref)) /\
  (r ∈ members (subscribed_channels b') k <->
     r ∈ members (subscribed_channels b) k /\ ~ (k ∈ channel_ids (auth s) /\ r = ref)) /\
  (r ∈ members (internal_push_users b') k <->
     r ∈ members (internal_push_users b) k /\ ~ (user_id (auth s) = Some k /\ k <> 0 /\ r = ref)).
Proof.
  cbn zeta. unfold unsubscribe. cbn.
  rewrite !elem_of_if_key_del, elem_of_foldl_del, elem_of_elements; naive_solver.
Qed.

Lemma subscribe_compact ref s b : broker_compact b -> broker_compact (subscribe ref s b).
Proof.
  intros (? & ? & ? & ? & ?). unfold subscribe, broker_compact.
  destruct (is_internal_push s); cbn; auto 10 with py.
Qed.

Lemma unsubscribe_compact ref s b : broker_compact b -> broker_compact (unsubscribe ref s b).
Proof.
  intros (? & ? & ? & ? & ?). unfold unsubscribe, broker_compact. cbn. auto 10 with py.
Qed.

(** No table mentions the session object. *)
Definition absent (ref : Z) (b : Broker) : Prop := forall k,
  (ref ∉ members (subscribed_users b) k) /\ (ref ∉ members (subscribed_keys b) k) /\
  (ref ∉ members (subscribed_auths b) k) /\ (ref ∉ members (subscribed_channels b) k) /\
  (ref ∉ members (internal_push_users b) k).

(** What a message says about a session *)
Definition addresses (m : MessageToUsers) (s : Session) : Prop :=
  exists k,
    (k ∈ default [] (users m) /\ user_id (auth s) = Some k /\ k <> 0) \/
    (k ∈ default [] (keys m) /\ (session_key s = Some k \/ session_perm_key s = Some k) /\ k <> 0) \/
    (k ∈ default [] (channels m) /\ k ∈ channel_ids (auth s)) \/
    (k ∈ default [] (auths m) /\ ignored m (Some k) = false /\ auth_id (auth s) = Some k /\ k <> 0).

Lemma elem_of_send_to m b ref : ref ∈ send_to m b <-> exists k,
  (k ∈ default [] (users m) /\ ref ∈ members (subscribed_users b) k) \/
  (k ∈ default [] (keys m) /\ ref ∈ members (subscribed_keys b) k) \/
  (k ∈ default [] (channels m) /\ ref ∈ members (subscribed_channels b) k) \/
  (k ∈ default [] (auths m) /\ ignored m (Some k) = false /\ ref ∈ members (subscribed_auths b) k).
Proof.
  unfold send_to. rewrite !elem_of_union, !elem_of_union_of.
  setoid_rewrite list_elem_of_filter. naive_solver.
Qed.

Lemma elem_of_recipients gcu heap m b ref :
  ref ∈ recipients gcu heap m b <->
  ref ∈ send_to m b /\ exists s, heap !! ref = Some s /\ delivers gcu m s = true.
Proof.
  unfold recipients. rewrite list_elem_of_filter, elem_of_elements.
  destruct (heap !! ref) as [s|]; cbn; naive_solver.
Qed.

Lemma send_to_subscribe m ref s b : absent ref b ->
  ref ∈ send_to m (subscribe ref s b) <-> addresses m s.
Proof.
  intros Ha. rewrite elem_of_send_to. unfold addresses.
  split; intros [k Hk]; exists k; destruct (subscribe_members ref s b k ref) as (H1 & H2 & H3 & H4 & _);
    destruct (Ha k) as (A1 & A2 & A3 & A4 & _); cbn zeta in *; naive_solver.
Qed.

(** ** Properties *)


Module Sample_broker.
Definition session : Session :=
  with_auth (MkAuthState (Some 10) (Some 20) false false 0 {[ 30 ]} 0 None)
    (new_Session 1 (Some 5) (Some (new_AuthData (Some 40) None (Some 41)))).
Definition heap : gmap Z Session := {[ 1 := session; 2 := session ]}.
Definition empty : Broker := MkBroker ∅ ∅ ∅ ∅ ∅ ∅.
Definition message : MessageToUsers := short_message None (Some 30) None (Some 20) None (VObj 7 []).
End Sample_broker.

