(* ===== verification/SessionManager.v ===== *)
(** The store of sessions and their life cycle: [SessionManager]
    ([piltover/session/session_manager.py]), the methods of [Session] that act
    on the broker, the database and the client
    ([connect], [disconnect], [finalize], [refresh_auth_maybe], [enqueue]), and
    the handling of broker messages.

    A [Session] object is a reference into [heap]; sessions, the broker and the
    clients share it. Database tables are maps that the handlers read. *)
From Stdlib Require Import Init.Byte.
From S2P Require Import Prelude PyBytes TlPrimitives TlObject Session AuthKeys Broker.

(** The row of [UserAuthorization] that [refresh_auth_maybe] selects *)
Record UserAuthorization := MkUserAuth {
  ua_id : Z; ua_user_id : Z; ua_is_bot : bool; ua_mfa_pending : bool; ua_upd_seq : Z }.

Record World := MkWorld {
  heap : gmap Z Session;
  sessions : gmap (Z * Z) Z;              (* SessionManager.sessions *)
  broker : Broker;
  events : gset Z;                        (* clients whose message_available is set *)
  key_tables : KeyTables;
  user_authorizations : gmap Z UserAuthorization;   (* by perm_auth_key_id *)
  chat_participants : gmap Z (list Z);    (* the channels a user has not left *)
  channels_cache : gmap Z (Z * list Z);   (* "channels:{user}": expiry and value *)
  leave_tasks : gset Z;                   (* users with a scheduled group call leave *)
}.

Definition with_heap (h : gmap Z Session) (w : World) : World :=
  MkWorld h (sessions w) (broker w) (events w) (key_tables w) (user_authorizations w)
    (chat_participants w) (channels_cache w) (leave_tasks w).
Definition with_sessions (s : gmap (Z * Z) Z) (w : World) : World :=
  MkWorld (heap w) s (broker w) (events w) (key_tables w) (user_authorizations w)
    (chat_participants w) (channels_cache w) (leave_tasks w).
Definition with_broker (f : Broker -> Broker) (w : World) : World :=
  MkWorld (heap w) (sessions w) (f (broker w)) (events w) (key_tables w) (user_authorizations w)
    (chat_participants w) (channels_cache w) (leave_tasks w).
Definition with_events (e : gset Z) (w : World) : World :=
  MkWorld (heap w) (sessions w) (broker w) e (key_tables w) (user_authorizations w)
    (chat_participants w) (channels_cache w) (leave_tasks w).
Definition with_cache (c : gmap Z (Z * list Z)) (w : World) : World :=
  MkWorld (heap w) (sessions w) (broker w) (events w) (key_tables w) (user_authorizations w)
    (chat_participants w) c (leave_tasks w).
Definition with_leave_tasks (l : gset Z) (w : World) : World :=
  MkWorld (heap w) (sessions w) (broker w) (events w) (key_tables w) (user_authorizations w)
    (chat_participants w) (channels_cache w) l.

Abbreviation W := (M World).

(** Reading and writing a session object; a dangling reference does not occur
    in Python and is [AssertionError] here. *)
Definition session_at (ref : Z) : W Session := fun w =>
  match heap w !! ref with Some s => (Ok s, w) | None => (Raise AssertionError, w) end.
Definition set_session (ref : Z) (s : Session) : W unit :=
  modify (fun w => with_heap (<[ref := s]> (heap w)) w).
Definition update_session (ref : Z) (f : Session -> Session) : W unit :=
  s ← session_at ref; set_session ref (f s).
Definition on_broker (f : Broker -> Broker) : W unit := modify (with_broker f).
Definition set_event (e : option Z) : W unit :=
  match e with
  | Some c => modify (fun w => with_events ({[c]} ∪ events w) w)
  | None => mret tt
  end.

(** [cancel_scheduled_leave_group_calls], [schedule_leave_group_calls_for_user] *)
Definition cancel_leave (user : Z) : W unit := modify (fun w => with_leave_tasks (leave_tasks w ∖ {[user]}) w).
Definition schedule_leave (user : Z) : W unit := modify (fun w => with_leave_tasks ({[user]} ∪ leave_tasks w) w).

(** ** [connect], [disconnect], [finalize] *)
Definition with_resend (b : bool) (o : Outbound) : Outbound :=
  MkOutbound (msg_id_values o) (out_seq_no o) (message_queue o) (unencrypted_queue o) (pending_outbound o) b.

Definition has_pending (o : Outbound) : bool := match pending_outbound o with [] => false | _ => true end.
Definition queue_empty (o : Outbound) : bool := match message_queue o with [] => true | _ => false end.

Definition connect (ref c : Z) : W unit :=
  update_session ref (fun s => with_event (Some c) (with_client (Some c) (with_cleanup false s)));;
  s ← session_at ref;
  let o := if has_pending (out s) then with_resend true (out s) else out s in
  set_session ref (with_out o s);;
  (if negb (queue_empty o) || resend_pending_on_connect o then set_event (Some c) else mret tt);;
  s ← session_at ref;
  on_broker (subscribe ref s);;
  match user_id (auth s) with Some u => cancel_leave u | None => mret tt end.

Definition has_connected_session_for_user (user : Z) (exclude : option Z) (w : World) : bool :=
  existsb (fun kr : (Z * Z) * Z =>
    negb (bool_decide (Some kr.2 = exclude)) &&
    match heap w !! kr.2 with
    | Some s => bool_decide (user_id (auth s) = Some user) && bool_decide (is_Some (client s))
    | None => false
    end) (map_to_list (sessions w)).

Definition disconnect (ref : Z) : W unit :=
  s ← session_at ref;
  let was_connected := bool_decide (is_Some (client s)) in
  set_session ref (with_init false (with_event None (with_client None s)));;
  if was_connected then
    update_session ref (with_cleanup true);;
    match user_id (auth s) with
    | Some u =>
      other ← gets (has_connected_session_for_user u (Some ref));
      if (other : bool) then mret tt else schedule_leave u
    | None => mret tt
    end
  else mret tt.

Definition no_rpc : RpcTrack := MkRpcTrack ∅ ∅ [].

(** [Session.finalize] *)
Definition session_finalize (s : Session) : Session :=
  let a := auth s in
  let o := out s in
  with_out (MkOutbound (msg_id_values o) (out_seq_no o) [] [] [] false)
    (with_auth (MkAuthState (user_id a) (auth_id a) (is_bot a) (mfa_pending a) (auth_loaded_at a)
                  (channel_ids a) (channels_loaded_at a) None)
      (with_rpc no_rpc (with_event None (with_client None (with_cleanup false s))))).

(** [SessionManager.finalize] *)
Definition finalize (ref : Z) : W unit :=
  s ← session_at ref;
  match session_key s with
  | None => update_session ref session_finalize
  | Some key =>
    modify (fun w => with_sessions (delete (key, session_id s) (sessions w)) w);;
    on_broker (unsubscribe ref s);;
    update_session ref session_finalize;;
    match user_id (auth s) with
    | Some u =>
      other ← gets (has_connected_session_for_user u None);
      if (other : bool) then mret tt else schedule_leave u
    | None => mret tt
    end
  end.

(** The body of [_delayed_cleanup] after the sleep *)
Definition delayed_cleanup (ref : Z) : W unit :=
  s ← session_at ref;
  match client s with Some _ => mret tt | None => finalize ref end.

(** [get_or_create]; [fresh] is the reference of the object that is created. *)
Definition get_or_create (fresh session_id c : Z) (auth_data : AuthData) : W (Z * bool) :=
  w ← get;
  match auth_key_id auth_data ≫= fun k => sessions w !! (k, session_id) with
  | Some ref => mret (ref, false)
  | None =>
    set_session fresh (new_Session session_id (Some c) (Some auth_data));;
    (match auth_key_id auth_data with
     | Some k => modify (fun w => with_sessions (<[(k, session_id) := fresh]> (sessions w)) w)
     | None => mret tt
     end);;
    mret (fresh, true)
  end.

(** ** [refresh_auth_maybe] *)
Definition reset_auth (ref : Z) : W unit :=
  s ← session_at ref;
  let a := auth s in
  on_broker (unsubscribe_auth (auth_id a) ref);;
  on_broker (unsubscribe_user (user_id a) ref);;
  on_broker (channels_diff_update ref (elements (channel_ids a)) []);;
  set_session ref (with_auth (MkAuthState None None false false (auth_loaded_at a) ∅
                                (channels_loaded_at a) None) s).

Definition channels_cache_get (time user : Z) (w : World) : option (list Z) :=
  match channels_cache w !! user with
  | Some (expiry, v) => if time <? expiry then Some v else None
  | None => None
  end.

(** The channels of the user, from the cache or the database *)
Definition load_channels (time user : Z) : W (list Z) :=
  w ← get;
  match channels_cache_get time user w with
  | Some v => mret v
  | None =>
    let v := default [] (chat_participants w !! user) in
    modify (fun w => with_cache (<[user := (time + 600 * microseconds, v)]> (channels_cache w)) w);;
    mret v
  end.

Definition refresh_channels (ref time : Z) : W unit :=
  s ← session_at ref;
  let a := auth s in
  match auth_id a, user_id a with
  | Some _, Some user =>
    if negb (mfa_pending a) && (60 * 5 * microseconds <? time - channels_loaded_at a) then
      channels ← load_channels time user;
      let old_channels := channel_ids a in
      let new_channels : gset Z := list_to_set channels in
      set_session ref (with_auth (MkAuthState (user_id a) (auth_id a) (is_bot a) (mfa_pending a)
                                    (auth_loaded_at a) new_channels time (upd_seq a)) s);;
      on_broker (channels_diff_update ref (elements (old_channels ∖ new_channels))
                   (elements (new_channels ∖ old_channels)))
    else mret tt
  | _, _ => mret tt
  end.

Definition resubscribe (ref : Z) (old_user_id old_auth_id : option Z) : W unit :=
  s ← session_at ref;
  let a := auth s in
  (if decide (old_user_id = user_id a) then mret tt
   else on_broker (unsubscribe_user old_user_id ref);; on_broker (subscribe_user (user_id a) ref));;
  if decide (old_auth_id = auth_id a) then mret tt
  else on_broker (unsubscribe_auth old_auth_id ref);; on_broker (subscribe_auth (auth_id a) ref).

(** What follows the refetch of [auth_data]; [raise] stands for the attribute
    access on the [None] that a forced refetch of an expired key leaves. *)
Definition refresh_auth (ref time : Z) (force : bool) : W unit :=
  s ← session_at ref;
  let a := auth s in
  match auth_data s with
  | None => raise AttributeError
  | Some d =>
    match auth_key_id d, perm_auth_key_id d with
    | Some _, Some perm =>
      loaded ←
        (if (60 * microseconds <? time - auth_loaded_at a) || force || bool_decide (auth_id a = None) then
           w ← get;
           match user_authorizations w !! perm with
           | Some ua =>
             set_session ref (with_auth (MkAuthState (Some (ua_user_id ua)) (Some (ua_id ua)) (ua_is_bot ua)
               (ua_mfa_pending ua) time (channel_ids a) (channels_loaded_at a) (Some (ua_upd_seq ua))) s);;
             mret true
           | None =>
             set_session ref (with_auth (MkAuthState (user_id a) (auth_id a) (is_bot a) (mfa_pending a)
               time (channel_ids a) (channels_loaded_at a) (upd_seq a)) s);;
             reset_auth ref;; mret false
           end
         else mret true);
      if (loaded : bool) then
        refresh_channels ref time;; resubscribe ref (user_id a) (auth_id a)
      else mret tt
    | _, _ => reset_auth ref
    end
  end.

Definition refresh_auth_maybe (ref time : Z) (force : bool) : W unit :=
  s ← session_at ref;
  match auth_data s with
  | None => mret tt
  | Some d =>
    (match auth_key_id d with
     | Some k =>
       if force then
         w ← get;
         set_session ref (with_auth_data (get_auth_data (time / microseconds) false k (key_tables w)) s)
       else mret tt
     | None => mret tt
     end);;
    refresh_auth ref time force
  end.

(** ** Broker messages *)
Definition cache_delete (user : Z) : W unit := modify (fun w => with_cache (delete user (channels_cache w)) w).

Fixpoint iter_W {A} (f : A -> W unit) (l : list A) : W unit :=
  match l with [] => mret tt | x :: l => f x;; iter_W f l end.

(** [_process_channels_subscribe] *)
Definition process_channels_subscribe (user_ids channel_ids : list Z) (subscribe : bool) : W unit :=
  w ← get;
  let targets := elements (union_of (subscribed_users (broker w)) user_ids) in
  let '(to_add, to_delete) := if subscribe then (channel_ids, []) else ([], channel_ids) in
  iter_W cache_delete user_ids;;
  iter_W (fun ref => on_broker (channels_diff_update ref to_delete to_add)) targets.

(** The [SetSessionInternalPush] case of [_process_message] *)
Definition set_session_internal_push (time key_id session_id : Z) : W unit :=
  w ← get;
  match sessions w !! (key_id, session_id) with
  | None => mret tt
  | Some ref =>
    update_session ref (with_internal_push true);;
    refresh_auth_maybe ref time true;;
    s ← session_at ref;
    on_broker (subscribe ref s)
  end.

(** ** [send]: what [SessionManager.send] makes of its arguments, each an
    [int], a list of [int]s or [None] *)
Inductive target := TNone | TOne (i : Z) | TMany (l : list Z).

(** [if not x] *)
Definition target_empty (t : target) : bool :=
  match t with TNone => true | TOne i => i =? 0 | TMany l => match l with [] => true | _ => false end end.
(** [if isinstance(x, list) and len(x) == 1: x = x[0]] *)
Definition unwrap_one (t : target) : target := match t with TMany [i] => TOne i | _ => t end.
Definition target_is_short (t : target) : bool := match t with TMany _ => false | _ => true end.
Definition target_one (t : target) : option Z := match t with TOne i => Some i | _ => None end.
Definition target_list (t : target) : option (list Z) :=
  match t with TNone => None | TOne i => Some [i] | TMany l => Some l end.

(** The message that is sent, if any; [obj] is the object after the wrapping for
    context values. *)
Definition send (obj : tlval) (user_id key_id channel_id auth_id ignore_auth_id : target)
    : option MessageToUsers :=
  if target_empty user_id && target_empty key_id && target_empty channel_id && target_empty auth_id
  then None
  else
    let u := unwrap_one user_id in let k := unwrap_one key_id in let c := unwrap_one channel_id in
    let a := unwrap_one auth_id in let i := unwrap_one ignore_auth_id in
    if target_is_short u && target_is_short k && target_is_short c && target_is_short a
       && target_is_short i
    then Some (short_message (target_one u) (target_one c) (target_one k) (target_one a) (target_one i) obj)
    else Some (MkMessageToUsers (target_list u) (target_list c) (target_list k) (target_list a)
                 (target_list i) obj).

(** ** Outgoing objects *)

(** [str.split(".")] *)
Fixpoint split_dot (acc s : pystr) : list pystr :=
  match s with
  | [] => [rev acc]
  | c :: s => if c =? 46 then rev acc :: split_dot [] s else split_dot (c :: acc) s
  end.

Fixpoint digits_val (acc : Z) (s : pystr) : option Z :=
  match s with
  | [] => Some acc
  | c :: s => if (48 <=? c) && (c <=? 57) then digits_val (acc * 10 + (c - 48)) s else None
  end.

(** [int(s)] of a string of decimal digits *)
Definition parse_int (s : pystr) : result Z :=
  match s with
  | [] => Raise ValueError
  | _ => match digits_val 0 s with Some z => Ok z | None => Raise ValueError end
  end.

Definition pystr_of (s : string) : pystr :=
  map (fun c => Z.of_nat (Ascii.nat_of_ascii c)) (String.list_ascii_of_string s).

Section Outgoing.
Variable objects : Z -> option Combinator.

Fixpoint field_index (name : pystr) (i : nat) (fields : list Field) : option nat :=
  match fields with
  | [] => None
  | f :: fields =>
    if decide (pystr_of (f_name f) = name) then Some i else field_index name (S i) fields
  end.

Definition slot_of (id : Z) (name : pystr) : option nat :=
  objects id ≫= fun c => field_index name 0 (slot_fields (c_fields c)).

(** [del parent[int(path[-1])]] where [parent] is reached by
    [_get_attr_or_element]; a parent that is no list is left alone. *)
Fixpoint delete_path (path : list pystr) (v : tlval) : result tlval :=
  match path with
  | [] => Ok v
  | [last] =>
    match v with
    | VObjs l =>
      i ← parse_int last;
      if i <? Z.of_nat (length l)
      then Ok (VObjs (take (Z.to_nat i) l ++ drop (S (Z.to_nat i)) l)) else Raise IndexError
    | _ => Ok v
    end
  | name :: path =>
    match v with
    | VObjs l =>
      i ← parse_int name;
      match l !! Z.to_nat i with
      | Some x => x' ← delete_path path x; Ok (VObjs (<[Z.to_nat i := x']> l))
      | None => Raise IndexError
      end
    | VObj id slots =>
      match slot_of id name ≫= fun i => (fun x => (i, x)) <$> slots !! i with
      | Some (i, x) => x' ← delete_path path x; Ok (VObj id (<[i := x']> slots))
      | None => Raise AttributeError
      end
    | _ => Raise AttributeError
    end
  end.

Definition ID_ObjectWithLayerRequirement : Z := 0x7678a3.
Definition ID_FieldWithLayerRequirement : Z := 0xd9594f1f.
Definition ID_NeedsContextValues : Z := 0xb3e50ad9.

(** [for field_path in field_paths]: a field that the layer of the session
    does not have is deleted. *)
Fixpoint filter_fields (layer : Z) (fields : list tlval) (obj : tlval) : result tlval :=
  match fields with
  | [] => Ok obj
  | VObj _ [VStr field; VInt min_layer; VInt max_layer] :: fields =>
    obj ← (if (min_layer <=? layer) && (layer <=? max_layer) then Ok obj
           else delete_path (split_dot [] field) obj);
    filter_fields layer fields obj
  | _ => Raise AttributeError
  end.

Definition prepare_outbound_obj (layer : Z) (obj : tlval) : result tlval :=
  match obj with
  | VObj id [o; VObjs fields] =>
    if decide (id = ID_ObjectWithLayerRequirement) then filter_fields layer fields o else Ok obj
  | _ => Ok obj
  end.

(** What [_resolve_context_values] reads from the database, and the [write] of
    the generated classes with their placeholders *)
Variable ContextValues : Type.

Record SerializationContext := MkContext {
  ctx_auth_id : option Z; ctx_user_id : option Z; ctx_layer : Z; ctx_values : option ContextValues }.
Variable write : SerializationContext -> tlval -> result bytes.

(** [obj.seq = n] of an [Updates] *)
Definition set_seq (n : Z) (obj : tlval) : tlval :=
  match obj with VObj id slots => VObj id (<[4%nat := VInt n]> slots) | _ => obj end.

(** [_next_upd_seq]; the persisted value goes to the row at once here. *)
Definition stored_upd_seq (auth_id : Z) (w : World) : Z :=
  match filter (fun kv => ua_id kv.2 = auth_id) (map_to_list (user_authorizations w)) with
  | kv :: _ => ua_upd_seq kv.2
  | [] => 0
  end.
Definition persist_upd_seq (auth_id seq : Z) (w : World) : World :=
  MkWorld (heap w) (sessions w) (broker w) (events w) (key_tables w)
    ((fun ua => if ua_id ua =? auth_id
                then MkUserAuth (ua_id ua) (ua_user_id ua) (ua_is_bot ua) (ua_mfa_pending ua) seq
                else ua) <$> user_authorizations w)
    (chat_participants w) (channels_cache w) (leave_tasks w).

Definition with_upd_seq (n : option Z) (a : AuthState) : AuthState :=
  MkAuthState (user_id a) (auth_id a) (is_bot a) (mfa_pending a) (auth_loaded_at a) (channel_ids a)
    (channels_loaded_at a) n.

Definition next_upd_seq (ref : Z) : W Z :=
  s ← session_at ref;
  match auth_id (auth s) with
  | None => mret 0
  | Some a =>
    w ← get;
    let seq := match upd_seq (auth s) with Some n => n | None => stored_upd_seq a w end + 1 in
    set_session ref (with_auth (with_upd_seq (Some seq) (auth s)) s);;
    modify (persist_upd_seq a seq);;
    mret seq
  end.

Definition enqueue_message (m : Z * Z * bytes) (o : Outbound) : Outbound :=
  MkOutbound (msg_id_values o) (out_seq_no o) (message_queue o ++ [m]) (unencrypted_queue o)
    (pending_outbound o) (resend_pending_on_connect o).

(** [enqueue] of an object whose context values are [values] *)
Definition enqueue (ref time : Z) (obj : tlval) (values : option ContextValues) (in_reply : bool) : W unit :=
  s ← session_at ref;
  obj ← lift_result (prepare_outbound_obj (layer s) obj);
  let obj := match obj with
             | VObj id (o :: _) => if decide (id = ID_NeedsContextValues) then o else obj
             | _ => obj
             end in
  obj ← (if decide (tlid obj = ID_Updates /\ is_Some (auth_id (auth s)))
         then seq ← next_upd_seq ref; mret (set_seq seq obj) else mret obj);
  s ← session_at ref;
  let '((mid, seq_no, _), o) := pack_message time obj in_reply (out s) in
  set_session ref (with_out o s);;
  data ← lift_result (write (MkContext (auth_id (auth s)) (user_id (auth s)) (layer s) values) obj);
  update_session ref (fun s => with_out (enqueue_message (mid, seq_no, data) (out s)) s);;
  set_event (message_available s).

(** [_process_message_to_users] and [_process_internal_push_to_users]: one
    message after the other; an exception of one session is logged and does not
    keep the others from theirs. *)
Definition catch (m : W unit) : W unit := fun w =>
  match m w with (Ok a, w') => (Ok a, w') | (Raise _, w') => (Ok tt, w') end.

Definition process_message_to_users (gcu : list Z) (time : Z) (values : option ContextValues)
    (m : MessageToUsers) : W unit :=
  w ← get;
  iter_W (fun ref => catch (enqueue ref time (obj m) values false))
    (recipients gcu (heap w) m (broker w)).

Definition ID_UpdatesTooLong : Z := 0xe317af7e.
Definition process_internal_push (time : Z) (users : list Z) : W unit :=
  w ← get;
  iter_W (fun ref => catch (enqueue ref time (VObj ID_UpdatesTooLong []) None false))
    (push_recipients (heap w) users (broker w)).
End Outgoing.

(** ** Lemmas: subscriptions follow the state of the session *)

(** The tables list [ref] under exactly this user, authorization and set of
    channels. *)
Definition sub_state (ref : Z) (u a : option Z) (cs : gset Z) (b : Broker) : Prop := forall k,
  (ref ∈ members (subscribed_users b) k <-> u = Some k /\ k <> 0) /\
  (ref ∈ members (subscribed_auths b) k <-> a = Some k /\ k <> 0) /\
  (ref ∈ members (subscribed_channels b) k <-> k ∈ cs).

(** The broker keeps everything else: other sessions, keys, pushes. *)
Definition frame (ref : Z) (b b' : Broker) : Prop :=
  subscribed_keys b' = subscribed_keys b /\ internal_push_users b' = internal_push_users b /\
  subscribed_sessions b' = subscribed_sessions b /\
  forall r k, r <> ref ->
    (r ∈ members (subscribed_users b') k <-> r ∈ members (subscribed_users b) k) /\
    (r ∈ members (subscribed_auths b') k <-> r ∈ members (subscribed_auths b) k) /\
    (r ∈ members (subscribed_channels b') k <-> r ∈ members (subscribed_channels b) k).

Lemma frame_refl ref b : frame ref b b.
Proof. unfold frame. naive_solver. Qed.

Lemma frame_trans ref b1 b2 b3 : frame ref b1 b2 -> frame ref b2 b3 -> frame ref b1 b3.
Proof.
  intros (H1 & H2 & H3 & H4) (G1 & G2 & G3 & G4).
  split; [congruence|]. split; [congruence|]. split; [congruence|]. intros r k Hr.
  destruct (H4 r k Hr) as (?&?&?), (G4 r k Hr) as (?&?&?). naive_solver.
Qed.

(** What one step of a session does to the shared state: its own object and
    its own entries in the broker *)
Record only_own (ref : Z) (w w' : World) : Prop := {
  own_heap : forall r, r <> ref -> heap w' !! r = heap w !! r;
  own_sessions : sessions w' = sessions w;
  own_broker : frame ref (broker w) (broker w');
  own_keys : key_tables w' = key_tables w;
  own_auths : user_authorizations w' = user_authorizations w;
}.

Lemma only_own_refl ref w : only_own ref w w.
Proof. split; auto using frame_refl. Qed.

Lemma only_own_trans ref w1 w2 w3 : only_own ref w1 w2 -> only_own ref w2 w3 -> only_own ref w1 w3.
Proof.
  intros [? ? ? ? ?] [H ? ? ? ?]. split; try congruence; [|by eapply frame_trans].
  intros r Hr. rewrite H by done. auto.
Qed.

(** The session object holds this state and the broker agrees with it. *)
Definition agrees (ref : Z) (w : World) : Prop := exists s, heap w !! ref = Some s /\
  sub_state ref (user_id (auth s)) (auth_id (auth s)) (channel_ids (auth s)) (broker w).

Ltac run := cbn [mbind mret M_bind M_ret]; unfold mbind, mret, M_bind, M_ret, get, put, gets, modify,
  raise, lift_result, on_broker, set_session, update_session, session_at; cbn.

Lemma session_at_eq ref w s : heap w !! ref = Some s -> session_at ref w = (Ok s, w).
Proof. unfold session_at. by intros ->. Qed.

Lemma reset_auth_spec ref w s u a cs :
  heap w !! ref = Some s -> user_id (auth s) = u -> auth_id (auth s) = a -> channel_ids (auth s) = cs ->
  sub_state ref u a cs (broker w) ->
  exists w', reset_auth ref w = (Ok tt, w') /\ only_own ref w w' /\ agrees ref w' /\
    exists s', heap w' !! ref = Some s' /\ user_id (auth s') = None /\ auth_id (auth s') = None /\
      channel_ids (auth s') = ∅.
Proof.
  intros Hs <- <- <- Hsub. unfold reset_auth. rewrite (M_bind_step _ _ _ _ _ (session_at_eq _ _ _ Hs)).
  run. eexists. split; [reflexivity|]. split; [|split].
  - split; cbn; try done.
    + intros r Hr. by rewrite lookup_insert_ne.
    + split; [done|]. split; [done|]. split; [done|]. intros r k Hr. cbn.
      rewrite !elem_of_if_key_del, elem_of_foldl_del. naive_solver.
  - eexists. split; [cbn; by rewrite lookup_insert_eq|]. cbn. intros k. destruct (Hsub k) as (H1 & H2 & H3).
    cbn. rewrite !elem_of_if_key_del, elem_of_foldl_del, elem_of_elements, H1, H2, H3.
    split; [naive_solver|]. split; [naive_solver|]. split; [naive_solver|]. by intros ?%elem_of_empty.
  - eexists. split; [cbn; by rewrite lookup_insert_eq|]. done.
Qed.

Lemma load_channels_spec time user w : exists l w', load_channels time user w = (Ok l, w') /\
  heap w' = heap w /\ broker w' = broker w /\ only_own 0 w w'.
Proof.
  unfold load_channels. run. destruct (channels_cache_get time user w).
  - eexists _, _. split; [done|]. auto using only_own_refl.
  - eexists _, _. split; [done|]. split; [done|]. split; [done|]. by split; cbn; auto using frame_refl.
Qed.

Lemma only_own_weaken ref w w' : heap w' = heap w -> broker w' = broker w -> only_own 0 w w' ->
  only_own ref w w'.
Proof. intros Hh Hb [? ? ? ? ?]. split; try done; [by intros; rewrite Hh|rewrite Hb; apply frame_refl]. Qed.

Lemma elem_of_diff_update (cs new : gset Z) ref b k r :
  r ∈ members (subscribed_channels (channels_diff_update ref (elements (cs ∖ new)) (elements (new ∖ cs)) b)) k
  <-> (r ∈ members (subscribed_channels b) k /\ ~ (k ∈ cs /\ ~ k ∈ new /\ r = ref)) \/ (k ∈ new /\ ~ k ∈ cs /\ r = ref).
Proof.
  cbn. rewrite elem_of_foldl_add, elem_of_foldl_del, !elem_of_elements, !elem_of_difference. naive_solver.
Qed.

Lemma refresh_channels_spec ref time w s u a :
  heap w !! ref = Some s -> sub_state ref u a (channel_ids (auth s)) (broker w) ->
  exists w' s', refresh_channels ref time w = (Ok tt, w') /\ only_own ref w w' /\
    heap w' !! ref = Some s' /\ user_id (auth s') = user_id (auth s) /\ auth_id (auth s') = auth_id (auth s) /\
    sub_state ref u a (channel_ids (auth s')) (broker w').
Proof.
  intros Hs Hsub. unfold refresh_channels. rewrite (M_bind_step _ _ _ _ _ (session_at_eq _ _ _ Hs)).
  assert (Hdone : exists w' s', (mret tt : W unit) w = (Ok tt, w') /\ only_own ref w w' /\
    heap w' !! ref = Some s' /\ user_id (auth s') = user_id (auth s) /\ auth_id (auth s') = auth_id (auth s) /\
    sub_state ref u a (channel_ids (auth s')) (broker w')) by (by exists w, s; split; [done|]; split; [apply only_own_refl|]).
  destruct (auth_id (auth s)) as [a'|] eqn:Ea; [|done].
  destruct (user_id (auth s)) as [u'|] eqn:Eu; [|done].
  destruct (_ && _); [|done]. clear Hdone.
  destruct (load_channels_spec time u' w) as (l & w1 & Hl & Hh & Hb & Ho).
  rewrite (M_bind_step _ _ _ _ _ Hl). run. set (new := list_to_set l : gset Z).
  eexists _, _. split; [reflexivity|]. split.
  { eapply only_own_trans; [by apply only_own_weaken|]. split; cbn; try done.
    - intros r Hr. by rewrite lookup_insert_ne.
    - split; [done|]. split; [done|]. split; [done|]. intros r k Hr. cbn [subscribed_users subscribed_auths channels_diff_update on_channels].
      split; [done|]. split; [done|]. rewrite elem_of_diff_update. naive_solver. }
  split; [cbn; by rewrite lookup_insert_eq|]. cbn [auth with_auth user_id auth_id channel_ids].
  split; [done|]. split; [done|]. intros k. destruct (Hsub k) as (H1 & H2 & H3). cbn [broker with_broker with_heap].
  split; [by rewrite Hb|]. split; [by rewrite Hb|]. rewrite elem_of_diff_update, Hb, H3.
  destruct (decide (k ∈ new)), (decide (k ∈ channel_ids (auth s))); naive_solver.
Qed.

Lemma resubscribe_spec ref w s u a :
  heap w !! ref = Some s -> sub_state ref u a (channel_ids (auth s)) (broker w) ->
  exists w', resubscribe ref u a w = (Ok tt, w') /\ only_own ref w w' /\ agrees ref w' /\
    heap w' = heap w.
Proof.
  intros Hs Hsub. unfold resubscribe. rewrite (M_bind_step _ _ _ _ _ (session_at_eq _ _ _ Hs)).
  case_decide as Hu; case_decide as Ha; run; eexists; (split; [reflexivity|]); (split;
    [split; cbn; try done; (split; [done|]; split; [done|]; split; [done|]; intros r k Hr; cbn;
       rewrite ?elem_of_if_key_add, ?elem_of_if_key_del; naive_solver)|]);
    (split; [|done]); exists s; (split; [done|]); intros k; destruct (Hsub k) as (H1 & H2 & H3); cbn;
    rewrite ?elem_of_if_key_add, ?elem_of_if_key_del, ?H1, ?H2, ?H3; naive_solver.
Qed.

(** The user that the database says is logged in with the keys of a session *)
Definition stored_user (d : AuthData) (w : World) : option Z :=
  _ ← auth_key_id d; perm ← perm_auth_key_id d; ua_user_id <$> user_authorizations w !! perm.

Lemma refresh_auth_spec ref time force w s :
  heap w !! ref = Some s ->
  sub_state ref (user_id (auth s)) (auth_id (auth s)) (channel_ids (auth s)) (broker w) ->
  match auth_data s with
  | None => refresh_auth ref time force w = (Raise AttributeError, w)
  | Some d => exists w', refresh_auth ref time force w = (Ok tt, w') /\ only_own ref w w' /\ agrees ref w' /\
      (force = true -> exists s', heap w' !! ref = Some s' /\ user_id (auth s') = stored_user d w)
  end.
Proof.
  intros Hs Hsub. unfold refresh_auth. rewrite (M_bind_step _ _ _ _ _ (session_at_eq _ _ _ Hs)).
  destruct (auth_data s) as [d|]; [|done]. unfold stored_user.
  assert (Hreset : forall w0 s0, heap w0 !! ref = Some s0 -> auth s0 = auth s \/
      (user_id (auth s0) = user_id (auth s) /\ auth_id (auth s0) = auth_id (auth s) /\
       channel_ids (auth s0) = channel_ids (auth s)) -> only_own ref w w0 -> broker w0 = broker w ->
    exists w', reset_auth ref w0 = (Ok tt, w') /\ only_own ref w w' /\ agrees ref w' /\
      exists s', heap w' !! ref = Some s' /\ user_id (auth s') = None).
  { intros w0 s0 Hs0 Ha Ho Hb.
    assert (user_id (auth s0) = user_id (auth s) /\ auth_id (auth s0) = auth_id (auth s) /\
       channel_ids (auth s0) = channel_ids (auth s)) as (Hu0 & Ha0 & Hc0) by (destruct Ha as [->|]; auto).
    destruct (reset_auth_spec ref w0 s0 (user_id (auth s)) (auth_id (auth s)) (channel_ids (auth s)))
      as (w' & Hr & Ho' & Hag & s' & Hs' & Hu & _); [done..|by rewrite Hb|].
    exists w'. split; [done|]. split; [by eapply only_own_trans|]. split; [done|]. eauto. }
  destruct (auth_key_id d) as [k|]; cbn [mbind option_bind];
    [|destruct (Hreset w s) as (w' & ? & ? & ? & ?); auto using only_own_refl; exists w'; auto].
  destruct (perm_auth_key_id d) as [perm|]; cbn [mbind option_bind];
    [|destruct (Hreset w s) as (w' & ? & ? & ? & ?); auto using only_own_refl; exists w'; auto].
  destruct ((60 * microseconds <? time - auth_loaded_at (auth s)) || force
            || bool_decide (auth_id (auth s) = None)) eqn:Ec.
  - destruct (user_authorizations w !! perm) as [ua|] eqn:Eua; cbn [fmap option_fmap option_map].
    + set (s1 := with_auth (MkAuthState (Some (ua_user_id ua)) (Some (ua_id ua)) (ua_is_bot ua)
               (ua_mfa_pending ua) time (channel_ids (auth s)) (channels_loaded_at (auth s)) (Some (ua_upd_seq ua))) s).
      set (w1 := with_heap (<[ref := s1]> (heap w)) w).
      rewrite (M_bind_step _ _ w true w1) by (run; by rewrite Eua).
      destruct (refresh_channels_spec ref time w1 s1 (user_id (auth s)) (auth_id (auth s)))
        as (w2 & s2 & H2 & Ho2 & Hs2 & Hu2 & Ha2 & Hsub2); [by apply lookup_insert_eq|done|].
      rewrite (M_bind_step _ _ _ _ _ H2).
      destruct (resubscribe_spec ref w2 s2 _ _ Hs2 Hsub2) as (w3 & H3 & Ho3 & Hag & Hh3).
      exists w3. split; [done|]. split; [|split; [done|]].
      * apply (only_own_trans ref w w1 w3); [|by apply (only_own_trans ref w1 w2 w3)]. unfold w1. split; cbn; auto using frame_refl.
        intros r Hr. by rewrite lookup_insert_ne.
      * intros _. exists s2. split; [congruence|]. done.
    + set (s1 := with_auth (MkAuthState (user_id (auth s)) (auth_id (auth s)) (is_bot (auth s))
               (mfa_pending (auth s)) time (channel_ids (auth s)) (channels_loaded_at (auth s)) (upd_seq (auth s))) s).
      set (w1 := with_heap (<[ref := s1]> (heap w)) w).
      destruct (Hreset w1 s1) as (w' & Hr & ? & ? & ?);
        [by apply lookup_insert_eq|by right| |done|].
      { unfold w1. split; cbn; auto using frame_refl. intros r Hr. by rewrite lookup_insert_ne. }
      exists w'. split; [|auto]. rewrite (M_bind_step _ _ w false w'); [done|].
      rewrite (M_bind_step get _ w w w) by reflexivity. rewrite Eua.
      rewrite (M_bind_step _ _ w tt w1) by reflexivity. by rewrite (M_bind_step _ _ _ _ _ Hr).
  - rewrite (M_bind_step _ _ w true w) by reflexivity.
    destruct (refresh_channels_spec ref time w s (user_id (auth s)) (auth_id (auth s)) Hs Hsub)
      as (w2 & s2 & H2 & Ho2 & Hs2 & Hu2 & Ha2 & Hsub2).
    rewrite (M_bind_step _ _ _ _ _ H2).
    destruct (resubscribe_spec ref w2 s2 _ _ Hs2 Hsub2) as (w3 & H3 & Ho3 & Hag & Hh3).
    exists w3. split; [done|]. split; [by eapply only_own_trans|]. split; [done|].
    intros ->. by rewrite orb_true_r in Ec.
Qed.

(** ** Properties *)

(** C4: the broker never disagrees with a session: when the tables list a
    session under exactly its user, its authorization and its channels, they still do after
    [refresh_auth_maybe], whatever the database says by then; nothing of
    another session changes; and a forced refresh leaves the session logged in as
    the user the database has for its key. The only exception is the
    [AttributeError] of a forced refresh whose key has disappeared or expired. *)
Theorem refresh_auth_agrees ref time (force : bool) w s d :
  heap w !! ref = Some s -> auth_data s = Some d -> agrees ref w ->
  let d' := match auth_key_id d with
            | Some k => if force then get_auth_data (time / microseconds) false k (key_tables w) else Some d
            | None => Some d
            end in
  exists r w', refresh_auth_maybe ref time force w = (r, w') /\ agrees ref w' /\ only_own ref w w' /\
    match d' with
    | None => r = Raise AttributeError
    | Some d' => r = Ok tt /\
        (force = true -> exists s', heap w' !! ref = Some s' /\ user_id (auth s') = stored_user d' w)
    end.
Proof.
  intros Hs Hd (s0 & Hs0 & Hsub) d'. assert (s0 = s) as -> by congruence.
  unfold refresh_auth_maybe. rewrite (M_bind_step _ _ _ _ _ (session_at_eq _ _ _ Hs)), Hd.
  assert (Hgo : forall w1 s1, heap w1 !! ref = Some s1 -> auth_data s1 = d' -> auth s1 = auth s ->
     broker w1 = broker w -> only_own ref w w1 ->
     exists r w', refresh_auth ref time force w1 = (r, w') /\ agrees ref w' /\ only_own ref w w' /\
       match d' with
       | None => r = Raise AttributeError
       | Some d' => r = Ok tt /\
         (force = true -> exists s', heap w' !! ref = Some s' /\ user_id (auth s') = stored_user d' w)
       end).
  { intros w1 s1 Hs1 Hd1 Ha1 Hb1 Ho1. rewrite <- Ha1, <- Hb1 in Hsub.
    pose proof (refresh_auth_spec ref time force w1 s1 Hs1 Hsub) as Hspec. rewrite Hd1 in Hspec.
    destruct d' as [d'|].
    - destruct Hspec as (w' & Hr & Ho & Hag & Hu). exists (Ok tt), w'. split; [done|]. split; [done|].
      split; [by eapply only_own_trans|]. split; [done|]. intros Hf. destruct (Hu Hf) as (s' & ? & Hus).
      exists s'. split; [done|]. rewrite Hus. unfold stored_user. by rewrite (own_auths _ _ _ Ho1).
    - exists (Raise AttributeError), w1. split; [done|]. split; [by exists s1|]. split; [done|]. done. }
  subst d'. destruct (auth_key_id d) as [k|]; [|by apply (Hgo w s); auto using only_own_refl].
  destruct force; [|by apply (Hgo w s); auto using only_own_refl].
  set (s1 := with_auth_data (get_auth_data (time / microseconds) false k (key_tables w)) s).
  destruct (Hgo (with_heap (<[ref := s1]> (heap w)) w) s1) as (r & w' & H); try done.
  - by apply lookup_insert_eq.
  - split; cbn; auto using frame_refl. intros r Hr. by rewrite lookup_insert_ne.
  - by exists r, w'.
Qed.

Module Sample_manager.
Definition auth_data : AuthData := new_AuthData (Some 40) None (Some 41).
Definition session : Session := new_Session 1 (Some 5) (Some auth_data).
Definition world : World :=
  MkWorld {[ 9 := session ]} {[ (40, 1) := 9 ]} (MkBroker ∅ ∅ ∅ ∅ ∅ ∅) ∅
    (MkKeyTables ∅ {[ 40 := MkTempKey [] 1000 (Some 41) ]})
    {[ 41 := MkUserAuth 20 10 false false 3 ]} {[ 10 := [30; 31] ]} ∅ ∅.
End Sample_manager.

Lemma refresh_auth_agrees_witness :
  exists r w', refresh_auth_maybe 9 (500 * microseconds) true Sample_manager.world = (r, w') /\
    agrees 9 w' /\ r = Ok tt /\
    exists s', heap w' !! 9 = Some s' /\ user_id (auth s') = Some 10.
Proof.
  destruct (refresh_auth_agrees 9 (500 * microseconds) true Sample_manager.world
    Sample_manager.session Sample_manager.auth_data) as (r & w' & H1 & H2 & _ & H3 & H4).
  - reflexivity.
  - reflexivity.
  - exists Sample_manager.session. split; [reflexivity|]. intros k. unfold members. cbn.
    rewrite lookup_empty. cbn. split; [|split]; (split; [by intros ?%elem_of_empty|]);
      [by intros [? _]|by intros [? _]|by intros ?%elem_of_empty].
  - exists r, w'. split; [exact H1|]. split; [exact H2|]. split; [exact H3|].
    destruct (H4 eq_refl) as (s' & Hs' & Hu). exists s'. split; [exact Hs'|]. rewrite Hu. reflexivity.
Defined.

(** ** Life cycle *)

(** The remaining tables: keys and internal pushes list the session only under
    what it holds now. *)
Definition keys_agree (ref : Z) (w : World) : Prop := exists s, heap w !! ref = Some s /\
  forall k,
    (ref ∈ members (subscribed_keys (broker w)) k -> session_key s = Some k \/ session_perm_key s = Some k) /\
    (ref ∈ members (subscribed_keys (broker w)) k -> k <> 0) /\
    (ref ∈ members (internal_push_users (broker w)) k -> user_id (auth s) = Some k /\ k <> 0).

Lemma heap_insert_eq ref s w : heap (with_heap (<[ref := s]> (heap w)) w) !! ref = Some s.
Proof. apply lookup_insert_eq. Qed.

(** What [connect] does to the session and the broker *)
Lemma connect_spec ref c w s : heap w !! ref = Some s -> exists w' s',
  connect ref c w = (Ok tt, w') /\ heap w' !! ref = Some s' /\ auth s' = auth s /\
  auth_data s' = auth_data s /\ is_internal_push s' = is_internal_push s /\
  client s' = Some c /\ message_available s' = Some c /\ cleanup_task s' = false /\
  message_queue (out s') = message_queue (out s) /\ pending_outbound (out s') = pending_outbound (out s) /\
  (pending_outbound (out s) <> [] -> resend_pending_on_connect (out s') = true) /\
  (message_queue (out s) <> [] \/ pending_outbound (out s) <> [] -> c ∈ events w') /\
  broker w' = subscribe ref s' (broker w) /\ sessions w' = sessions w.
Proof.
  intros Hs. unfold connect.
  set (s1 := with_event (Some c) (with_client (Some c) (with_cleanup false s))).
  set (w1 := with_heap (<[ref := s1]> (heap w)) w).
  rewrite (M_bind_step _ _ w tt w1)
    by (unfold update_session; by rewrite (M_bind_step _ _ _ _ _ (session_at_eq _ _ _ Hs))).
  rewrite (M_bind_step _ _ _ _ _ (session_at_eq ref w1 s1 (lookup_insert_eq _ _ _))).
  set (o := if has_pending (out s1) then with_resend true (out s1) else out s1).
  assert (Ho : message_queue o = message_queue (out s) /\ pending_outbound o = pending_outbound (out s) /\
    (pending_outbound (out s) <> [] -> resend_pending_on_connect o = true)).
  { unfold o, has_pending. cbn. destruct (pending_outbound (out s)) eqn:Ep; cbn; rewrite ?Ep; auto. }
  destruct Ho as (Hq & Hp & Hr). set (s2 := with_out o s1).
  set (w2 := with_heap (<[ref := s2]> (heap w1)) w1).
  rewrite (M_bind_step _ _ w1 tt w2) by reflexivity.
  set (w3 := if negb (queue_empty o) || resend_pending_on_connect o
             then with_events ({[c]} ∪ events w2) w2 else w2).
  rewrite (M_bind_step _ _ w2 tt w3) by (unfold w3; by destruct (_ || _)).
  assert (Hw3 : heap w3 = heap w2 /\ broker w3 = broker w /\ sessions w3 = sessions w /\
    leave_tasks w3 = leave_tasks w2) by (unfold w3; by destruct (_ || _)).
  destruct Hw3 as (Hh & Hb & Hse & _).
  assert (Hev : message_queue (out s) <> [] \/ pending_outbound (out s) <> [] -> c ∈ events w3).
  { intros H. unfold w3, queue_empty. rewrite Hq. destruct H as [H|H].
    - destruct (message_queue (out s)); [done|]. cbn. set_solver.
    - rewrite (Hr H), orb_true_r. cbn. set_solver. }
  assert (Hs2 : heap w3 !! ref = Some s2) by (rewrite Hh; apply lookup_insert_eq).
  rewrite (M_bind_step _ _ _ _ _ (session_at_eq _ _ _ Hs2)).
  rewrite (M_bind_step _ _ w3 tt (with_broker (subscribe ref s2) w3)) by reflexivity.
  destruct (user_id (auth s2)) as [u|]; eexists _, s2; (split; [reflexivity|]); cbn; rewrite Hb; auto 20.
Qed.

(** What [finalize] does to the session and the broker *)
Lemma finalize_spec ref w s k : heap w !! ref = Some s -> session_key s = Some k -> exists w',
  finalize ref w = (Ok tt, w') /\ heap w' !! ref = Some (session_finalize s) /\
  sessions w' = delete (k, session_id s) (sessions w) /\ broker w' = unsubscribe ref s (broker w).
Proof.
  intros Hs Hk. unfold finalize. rewrite (M_bind_step _ _ _ _ _ (session_at_eq _ _ _ Hs)), Hk.
  set (w1 := with_sessions (delete (k, session_id s) (sessions w)) w).
  rewrite (M_bind_step _ _ w tt w1) by reflexivity.
  set (w2 := with_broker (unsubscribe ref s) w1). rewrite (M_bind_step _ _ w1 tt w2) by reflexivity.
  set (w3 := with_heap (<[ref := session_finalize s]> (heap w2)) w2).
  rewrite (M_bind_step _ _ w2 tt w3)
    by (unfold update_session; by rewrite (M_bind_step _ _ w2 _ _ (session_at_eq ref w2 s Hs))).
  destruct (user_id (auth s)) as [u|].
  - rewrite (M_bind_step _ _ w3 (has_connected_session_for_user u None w3) w3) by reflexivity.
    destruct (has_connected_session_for_user u None w3); eexists; (split; [reflexivity|]);
      (split; [apply lookup_insert_eq|done]).
  - eexists. split; [reflexivity|]. split; [apply lookup_insert_eq|done].
Qed.

(** The life cycle of a session. [connect] of a session the broker does
    not list makes the broker agree with it, wakes the client when something is queued
    or unacknowledged and has the unacknowledged messages sent again; [finalize]
    of a session the broker agrees with takes it out of every table and of
    [SessionManager.sessions] and drops all it held for sending. *)
Theorem session_lifecycle ref c w s k :
  heap w !! ref = Some s -> session_key s = Some k ->
  (absent ref (broker w) -> exists w' s', connect ref c w = (Ok tt, w') /\ heap w' !! ref = Some s' /\
     agrees ref w' /\ keys_agree ref w' /\ client s' = Some c /\
     (message_queue (out s) <> [] \/ pending_outbound (out s) <> [] -> c ∈ events w') /\
     (pending_outbound (out s) <> [] -> resend_pending_on_connect (out s') = true)) /\
  (agrees ref w -> keys_agree ref w -> exists w' s', finalize ref w = (Ok tt, w') /\
     heap w' !! ref = Some s' /\ absent ref (broker w') /\ sessions w' !! (k, session_id s) = None /\
     client s' = None /\ message_queue (out s') = [] /\ pending_outbound (out s') = [] /\
     rpc_wf (rpc s')).
Proof.
  intros Hs Hk. split.
  - intros Ha. destruct (connect_spec ref c w s Hs) as
      (w' & s' & Hc & Hs' & Hau & Had & Hip & Hcl & _ & _ & _ & _ & Hre & Hev & Hb & _).
    exists w', s'. split; [done|]. split; [done|].
    split; [|split; [|auto]]; exists s'; (split; [done|]); intros q; rewrite Hb;
      destruct (subscribe_members ref s' (broker w) q ref) as (G1 & G2 & G3 & G4 & G5);
      destruct (Ha q) as (A1 & A2 & A3 & A4 & A5); cbn zeta in *.
    + naive_solver.
    + split; [naive_solver|]. split; [naive_solver|]. rewrite G5.
      destruct (is_internal_push s'); naive_solver.
  - intros (s0 & Hs0 & Hag) (s0' & Hs0' & Hka). assert (s0 = s) as -> by congruence.
    assert (s0' = s) as -> by congruence.
    destruct (finalize_spec ref w s k Hs Hk) as (w' & Hf & Hs' & Hse & Hb).
    exists w', (session_finalize s). split; [done|]. split; [done|]. split; [|split].
    + intros q. rewrite Hb. destruct (unsubscribe_members ref s (broker w) q ref) as (G1 & G2 & G3 & G4 & G5).
      destruct (Hag q) as (A1 & A2 & A3). destruct (Hka q) as (B1 & B2 & B3). cbn zeta in *. naive_solver.
    + rewrite Hse. apply lookup_delete_eq.
    + split; [done|]. split; [done|]. split; [done|]. split; [constructor|]. split; [done|].
      split; [apply Nat.le_0_l|]. by intros m ?%not_elem_of_empty.
Qed.

Lemma session_lifecycle_witness :
  exists w' s', connect 9 6 Sample_manager.world = (Ok tt, w') /\ heap w' !! 9 = Some s' /\
    agrees 9 w' /\ client s' = Some 6.
Proof.
  destruct (session_lifecycle 9 6 Sample_manager.world Sample_manager.session 40 eq_refl eq_refl) as [H _].
  destruct H as (w' & s' & H1 & H2 & H3 & _ & H4 & _).
  - intros k. unfold members. cbn. rewrite lookup_empty. cbn. repeat split; apply not_elem_of_empty.
  - exists w', s'. auto.
Defined.

(** ** Where the tables and the sessions part *)

Lemma iter_cache_delete l w : exists w', iter_W cache_delete l w = (Ok tt, w') /\
  heap w' = heap w /\ broker w' = broker w /\ sessions w' = sessions w.
Proof.
  revert w. induction l as [|x l IH]; intros w; [by exists w|]. cbn [iter_W].
  rewrite (M_bind_step _ _ w tt (with_cache (delete x (channels_cache w)) w)) by reflexivity.
  destruct (IH (with_cache (delete x (channels_cache w)) w)) as (w' & H & ? & ? & ?). by exists w'.
Qed.

Lemma iter_channels_diff to_delete to_add l w : exists w',
  iter_W (fun ref => on_broker (channels_diff_update ref to_delete to_add)) l w = (Ok tt, w') /\
  heap w' = heap w /\ sessions w' = sessions w /\
  broker w' = foldl (fun b ref => channels_diff_update ref to_delete to_add b) (broker w) l.
Proof.
  revert w. induction l as [|x l IH]; intros w; [by exists w|]. cbn [iter_W foldl].
  rewrite (M_bind_step _ _ w tt (with_broker (channels_diff_update x to_delete to_add) w)) by reflexivity.
  destruct (IH (with_broker (channels_diff_update x to_delete to_add) w)) as (w' & H & ? & ? & ?). by exists w'.
Qed.

Lemma elem_of_foldl_diff ref c l b : ref ∈ l ->
  ref ∈ members (subscribed_channels (foldl (fun b r => channels_diff_update r [] [c] b) b l)) c.
Proof.
  assert (Hmono : forall l b, ref ∈ members (subscribed_channels b) c ->
    ref ∈ members (subscribed_channels (foldl (fun b r => channels_diff_update r [] [c] b) b l)) c).
  { clear. intros l. induction l as [|x l IH]; intros b Hb; [done|]. cbn [foldl]. apply IH. cbn.
    apply elem_of_members_add. by right. }
  revert b. induction l as [|x l IH]; intros b Hin; [by apply elem_of_nil in Hin|]. cbn [foldl].
  apply elem_of_cons in Hin as [->|Hin]; [|by apply IH]. apply Hmono. cbn. apply elem_of_members_add. auto.
Qed.

(** [ChannelSubscribe] changes the broker and not [session.channel_ids]: the
    finalized session stays listed under the channel. *)
Lemma channel_subscribe_leak ref w s u c k :
  heap w !! ref = Some s -> session_key s = Some k -> agrees ref w -> user_id (auth s) = Some u -> u <> 0 ->
  c ∉ channel_ids (auth s) ->
  exists w1 w2, process_channels_subscribe [u] [c] true w = (Ok tt, w1) /\
    finalize ref w1 = (Ok tt, w2) /\ ref ∈ members (subscribed_channels (broker w2)) c.
Proof.
  intros Hs Hk (s0 & Hs0 & Hag) Hu Hu0 Hc. assert (s0 = s) as -> by congruence.
  unfold process_channels_subscribe. rewrite (M_bind_step get _ w w w) by reflexivity. cbn beta iota zeta.
  set (targets := elements (union_of (subscribed_users (broker w)) [u])).
  destruct (iter_cache_delete [u] w) as (w0 & H0 & Hh0 & Hb0 & _). rewrite (M_bind_step _ _ _ _ _ H0).
  destruct (iter_channels_diff [] [c] targets w0) as (w1 & H1 & Hh1 & _ & Hb1).
  assert (Hs1 : heap w1 !! ref = Some s) by congruence.
  destruct (finalize_spec ref w1 s k Hs1 Hk) as (w2 & H2 & _ & _ & Hb2).
  exists w1, w2. split; [done|]. split; [done|]. rewrite Hb2.
  destruct (unsubscribe_members ref s (broker w1) c ref) as (_ & _ & _ & G & _). cbn zeta in G.
  apply G. split; [|naive_solver]. rewrite Hb1. apply elem_of_foldl_diff.
  unfold targets. rewrite elem_of_elements, elem_of_union_of. exists u. split; [by left|].
  destruct (Hag u) as (A & _). naive_solver.
Qed.

Module Sample_relogin.
Definition at_ (s : Z) : Z := s * microseconds.
Definition session : Session :=
  with_internal_push true
    (with_auth (MkAuthState (Some 10) (Some 20) false false (at_ 900) {[ 30 ]} (at_ 900) None)
      (new_Session 1 (Some 5) (Some (new_AuthData (Some 40) None (Some 40))))).
Definition world (ua : gmap Z UserAuthorization) (s : Session) (b : Broker) : World :=
  MkWorld {[ 9 := s ]} {[ (40, 1) := 9 ]} b ∅ (MkKeyTables {[ 40 := MkPermKey [] 133 ]} ∅)
    ua {[ 11 := [31] ]} ∅ ∅.
Definition logged_in : World := world ∅ session (subscribe 9 session (MkBroker ∅ ∅ ∅ ∅ ∅ ∅)).
(** The authorization is deleted, and the session is refreshed. *)
Definition logged_out : World := (refresh_auth_maybe 9 (at_ 1000) true logged_in).2.
(** Another user logs in with the same key. *)
Definition relogged : World :=
  (refresh_auth_maybe 9 (at_ 1010) true
    (MkWorld (heap logged_out) (sessions logged_out) (broker logged_out) ∅ (key_tables logged_out)
      {[ 40 := MkUserAuth 21 11 false false 0 ]} (chat_participants logged_out) ∅ ∅)).2.
End Sample_relogin.

(** [_reset_auth] keeps [channels_loaded_at]: a user who logs in within five
    minutes of the last load gets no channels. *)
Example relogin_no_channels :
  (fun s => (user_id (auth s), elements (channel_ids (auth s)))) <$> heap Sample_relogin.relogged !! 9
    = Some (Some 11, []).
Proof. vm_compute. reflexivity. Qed.

(** [_reset_auth] does not unsubscribe internal pushes: those of the user who
    logged out still reach the session. *)
Example relogin_foreign_push :
  push_recipients (heap Sample_relogin.relogged) [10] (broker Sample_relogin.relogged) = [9].
Proof. vm_compute. reflexivity. Qed.

(** A forced refresh of a session whose temporary key has expired *)
Example refresh_expired_key :
  (refresh_auth_maybe 9 (2000 * microseconds) true Sample_manager.world).1 = Raise AttributeError.
Proof. vm_compute. reflexivity. Qed.
