(* ===== verification/ClientSend.v ===== *)
(** The sending half of a gateway connection: [Client._write_packet],
    [_write_message], [_write_session_queues], [Session.flush_outbound] and
    [_worker_loop_send] ([piltover/gateway/client.py],
    [piltover/session/session.py]).

    A client object is a record in [clients]; the sessions are those of
    [SessionManager.v]. The lock of [flush_outbound] keeps two flushes of one
    session apart, so a flush is one step here. *)
From Stdlib Require Import Init.Byte.
From S2P Require Import Prelude PyBytes TlPrimitives TlObject Session AuthKeys Broker SessionManager.

(** ** Clients *)
Inductive wire_packet :=
  | PUnencrypted (message_id : Z) (data : bytes)
  | PEncrypted (auth_key : bytes) (packet : DecryptedMessagePacket)
  | PQuickAck (auth_key : bytes) (packet : DecryptedMessagePacket)
  | PError (code : Z).

(** [active_sessions] and [active_keys] are [LRU]s of the package [lru], here
    the list of their items in the order that [items] gives.
    [writes_left]: how many more writes the peer takes before the connection
    is reset; [None] for a peer that keeps reading. *)
Record Client := MkClient {
  keygen_session : Z;
  active_sessions : list (Z * Z * Z);
  active_keys : list (Z * bytes);
  rejected_auth_keys : gset Z;
  disconnect_at : option Z;          (* when the disconnect_timeout expires *)
  peer_ip : pystr;
  wire : list wire_packet;
  writes_left : option nat;
}.

Record Gw := MkGw {
  world : World;
  clients : gmap Z Client;
  unknown_auth_key_ids : list (Z * unit);
  devices : gmap Z (list pystr);     (* device columns of UserAuthorization, by id *)
}.
Abbreviation G := (M Gw).

Definition with_world (w : World) (g : Gw) : Gw := MkGw w (clients g) (unknown_auth_key_ids g) (devices g).
Definition with_clients (c : gmap Z Client) (g : Gw) : Gw := MkGw (world g) c (unknown_auth_key_ids g) (devices g).
Definition on_world {A} (m : W A) : G A := fun g =>
  match m (world g) with (r, w) => (r, with_world w g) end.

Definition client_at (c : Z) : G Client := fun g =>
  match clients g !! c with Some cl => (Ok cl, g) | None => (Raise AssertionError, g) end.
Definition set_client (c : Z) (cl : Client) : G unit := modify (fun g => with_clients (<[c := cl]> (clients g)) g).

Definition with_wire (l : list wire_packet) (n : option nat) (cl : Client) : Client :=
  MkClient (keygen_session cl) (active_sessions cl) (active_keys cl) (rejected_auth_keys cl) (disconnect_at cl)
    (peer_ip cl) l n.

(** [_write_packet] without [ignore_errors]: a reset connection becomes
    [Disconnection]. *)
Definition _write_packet (c : Z) (p : wire_packet) : G unit :=
  cl ← client_at c;
  match writes_left cl with
  | Some O => raise (Disconnection None)
  | Some (S n) => set_client c (with_wire (wire cl ++ [p]) (Some n) cl)
  | None => set_client c (with_wire (wire cl ++ [p]) None cl)
  end.

Section Send.
Context (hmac_sha1 : bytes -> bytes -> bytes) (salt_key : bytes).
(** The clock of [update_salts_maybe] in microseconds *)
Context (time : Z).

Definition update_salts (ref : Z) : G unit :=
  on_world (s ← session_at ref;
            s ← lift_result (update_salts_maybe hmac_sha1 salt_key time false s);
            set_session ref s).

Definition _write_message (c message_id seq_no : Z) (data : bytes) (ref : Z) : G unit :=
  s ← on_world (session_at ref);
  match auth_data s ≫= auth_key with
  | None => raise Unreachable
  | Some auth_key =>
      update_salts ref;;
      s ← on_world (session_at ref);
      _write_packet c (PEncrypted auth_key
        (MkDecrypted (salt (salt_now s)) (session_id s) message_id seq_no data))
  end.

(** ** [_write_session_queues] *)
Definition with_queues (u : list (Z * bytes)) (q : list (Z * Z * bytes)) (o : Outbound) : Outbound :=
  MkOutbound (msg_id_values o) (out_seq_no o) q u (pending_outbound o) (resend_pending_on_connect o).

Definition update_out (ref : Z) (f : Outbound -> Outbound) : G unit :=
  on_world (update_session ref (fun s => with_out (f (out s)) s)).

(** The two [while True] loops end when [get_nowait] finds the queue empty;
    the fuel is the length of the queue. *)
Fixpoint write_unencrypted_queue (fuel : nat) (c ref : Z) : G unit :=
  s ← on_world (session_at ref);
  match unencrypted_queue (out s), fuel with
  | [], _ => mret tt
  | _, O => raise OutOfFuel
  | (message_id, data) :: u, S fuel =>
      update_out ref (fun o => with_queues u (message_queue o) o);;
      _write_packet c (PUnencrypted message_id data);;
      write_unencrypted_queue fuel c ref
  end.

Fixpoint resend_pending (c ref : Z) (l : list (Z * (Z * bytes))) : G unit :=
  match l with
  | [] => mret tt
  | (message_id, (seq_no, data)) :: l => _write_message c message_id seq_no data ref;; resend_pending c ref l
  end.

Fixpoint write_message_queue (fuel : nat) (c ref : Z) : G unit :=
  s ← on_world (session_at ref);
  match message_queue (out s), fuel with
  | [], _ => mret tt
  | _, O => raise OutOfFuel
  | (message_id, seq_no, data) :: q, S fuel =>
      update_out ref (fun o => with_queues (unencrypted_queue o) q o);;
      _write_message c message_id seq_no data ref;;
      update_out ref (track_pending_outbound message_id seq_no data);;
      write_message_queue fuel c ref
  end.

Definition _write_session_queues (c ref : Z) : G unit :=
  s ← on_world (session_at ref);
  write_unencrypted_queue (length (unencrypted_queue (out s))) c ref;;
  s ← on_world (session_at ref);
  (if resend_pending_on_connect (out s) && has_pending (out s)
   then update_out ref (with_resend false);; resend_pending c ref (pending_outbound (out s))
   else mret tt);;
  s ← on_world (session_at ref);
  write_message_queue (length (message_queue (out s))) c ref.

(** [Session.flush_outbound] *)
Definition flush_outbound (ref : Z) : G unit :=
  s ← on_world (session_at ref);
  match client s with
  | None => mret tt
  | Some c =>
      r ← attempt (_write_session_queues c ref);
      match r with
      | Ok _ => mret tt
      | Raise (Disconnection _) => on_world (disconnect ref)
      | Raise e => raise e
      end
  end.

(** ** [_worker_loop_send] *)
Definition _outbound_sessions (cl : Client) : list Z := keygen_session cl :: (snd <$> active_sessions cl).

Definition queued (o : Outbound) : bool :=
  match unencrypted_queue o, message_queue o with [], [] => false | _, _ => true end.

Definition _has_pending_outbound (c : Z) : G bool := fun g =>
  match clients g !! c with
  | None => (Raise AssertionError, g)
  | Some cl => (Ok (existsb (fun ref => match heap (world g) !! ref with
      | Some s => queued (out s) | None => false end) (_outbound_sessions cl)), g)
  end.

Fixpoint flush_all (refs : list Z) : G unit :=
  match refs with [] => mret tt | ref :: refs => flush_outbound ref;; flush_all refs end.

(** [while self._has_pending_outbound(): for session in ...: flush], at most
    [fuel] times *)
Fixpoint flush_pending (fuel : nat) (c : Z) : G unit :=
  pending ← _has_pending_outbound c;
  if (pending : bool) then
    match fuel with
    | O => raise OutOfFuel
    | S fuel =>
        cl ← client_at c;
        flush_all (_outbound_sessions cl);;
        flush_pending fuel c
    end
  else mret tt.
End Send.

(** ** What a flush writes, as a function of the queues *)
Section Delivery.
Context (hmac_sha1 : bytes -> bytes -> bytes) (salt_key : bytes) (time : Z).

Definition message_packet (k : bytes) (s : Session) (mid seq : Z) (data : bytes) : wire_packet :=
  PEncrypted k (MkDecrypted (salt (salt_now s)) (session_id s) mid seq data).

Definition out_packets (k : bytes) (s : Session) : list wire_packet :=
  ((fun u : Z * bytes => PUnencrypted u.1 u.2) <$> unencrypted_queue (out s)) ++
  (if resend_pending_on_connect (out s) && has_pending (out s)
   then (fun p : Z * (Z * bytes) => message_packet k s p.1 p.2.1 p.2.2) <$> pending_outbound (out s) else []) ++
  ((fun m : Z * Z * bytes => message_packet k s m.1.1 m.1.2 m.2) <$> message_queue (out s)).

Definition track_all (q : list (Z * Z * bytes)) (o : Outbound) : Outbound :=
  foldl (fun o m => track_pending_outbound m.1.1 m.1.2 m.2 o) o q.

(** The queues after a flush: empty, everything written to the session kept
    until it is acknowledged. *)
Definition out_after (o : Outbound) : Outbound :=
  track_all (message_queue o)
    (with_queues [] [] (if resend_pending_on_connect o && has_pending o then with_resend false o else o)).

(** A session that can be written: connected to [c], with a key and the salts
    of this half hour. *)
Record writable (c : Z) (k : bytes) (s : Session) : Prop := {
  wr_client : client s = Some c;
  wr_key : (auth_data s ≫= auth_key) = Some k \/ (message_queue (out s) = [] /\ pending_outbound (out s) = []);
  wr_salts : update_salts_maybe hmac_sha1 salt_key time false s = Ok s }.

(** [g] after the session at [ref] became [s] and [l] went over the wire. *)
Definition adv (c : Z) (cl : Client) (ref : Z) (s : Session) (l : list wire_packet) (g : Gw) : Gw :=
  MkGw (with_heap (<[ref := s]> (heap (world g))) (world g))
    (<[c := with_wire (wire cl ++ l) None cl]> (clients g)) (unknown_auth_key_ids g) (devices g).

Lemma with_world_id g : with_world (world g) g = g.
Proof. by destruct g. Qed.
Lemma with_heap_id w : with_heap (heap w) w = w.
Proof. by destruct w. Qed.

Lemma on_session ref s g : heap (world g) !! ref = Some s -> on_world (session_at ref) g = (Ok s, g).
Proof. intros H. unfold on_world, session_at. rewrite H. by rewrite with_world_id. Qed.

Lemma update_out_run ref f s g : heap (world g) !! ref = Some s ->
  update_out ref f g
  = (Ok tt, with_world (with_heap (<[ref := with_out (f (out s)) s]> (heap (world g))) (world g)) g).
Proof.
  intros H. unfold update_out, on_world, update_session, session_at. unfold mbind, M_bind. by rewrite H.
Qed.

Section OneFlush.
Context (c : Z) (k : bytes) (ref : Z).

Lemma adv_id cl s g : clients g !! c = Some cl -> writes_left cl = None -> heap (world g) !! ref = Some s ->
  adv c cl ref s [] g = g.
Proof.
  intros Hc Hw Hs. unfold adv. rewrite app_nil_r, (insert_id (heap (world g))) by done.
  rewrite with_heap_id. rewrite insert_id; [by destruct g|]. rewrite Hc. destruct cl. simpl in *. by subst.
Qed.

Lemma adv_adv cl s1 l1 s2 l2 g :
  adv c (with_wire (wire cl ++ l1) None cl) ref s2 l2 (adv c cl ref s1 l1 g) = adv c cl ref s2 (l1 ++ l2) g.
Proof. unfold adv, with_wire, with_heap. simpl. by rewrite !insert_insert_eq, app_assoc. Qed.

Lemma adv_session cl s l g : heap (world (adv c cl ref s l g)) !! ref = Some s.
Proof. unfold adv. simpl. apply lookup_insert_eq. Qed.
Lemma adv_client cl s l g : clients (adv c cl ref s l g) !! c = Some (with_wire (wire cl ++ l) None cl).
Proof. unfold adv. simpl. apply lookup_insert_eq. Qed.

(** Reading the updates of one session as [adv]. *)
Lemma update_out_adv cl f s g : clients g !! c = Some cl -> writes_left cl = None ->
  heap (world g) !! ref = Some s -> update_out ref f g = (Ok tt, adv c cl ref (with_out (f (out s)) s) [] g).
Proof.
  intros Hc Hw Hs. rewrite (update_out_run _ _ s) by done. unfold adv. rewrite app_nil_r.
  rewrite (insert_id (clients g)); [done|]. rewrite Hc. destruct cl. simpl in *. by subst.
Qed.

Lemma write_packet_adv cl p s g : clients g !! c = Some cl -> writes_left cl = None ->
  heap (world g) !! ref = Some s -> _write_packet c p g = (Ok tt, adv c cl ref s [p] g).
Proof.
  intros Hc Hw Hs. unfold _write_packet, client_at, set_client. unfold mbind, M_bind. rewrite Hc, Hw.
  unfold modify, adv. rewrite (insert_id (heap (world g))) by done. by rewrite with_heap_id.
Qed.

Lemma write_message_adv cl s mid seq data g : clients g !! c = Some cl -> writes_left cl = None ->
  heap (world g) !! ref = Some s -> auth_data s ≫= auth_key = Some k ->
  update_salts_maybe hmac_sha1 salt_key time false s = Ok s ->
  _write_message hmac_sha1 salt_key time c mid seq data ref g
  = (Ok tt, adv c cl ref s [message_packet k s mid seq data] g).
Proof.
  intros Hc Hw Hs Hk Hsalt. unfold _write_message. erewrite M_bind_step; [|by apply on_session].
  rewrite Hk. erewrite M_bind_step.
  2:{ unfold update_salts, on_world, session_at, set_session, lift_result, modify. unfold mbind, M_bind.
      rewrite Hs, Hsalt. rewrite insert_id by done. rewrite with_heap_id, with_world_id. reflexivity. }
  erewrite M_bind_step; [|by apply on_session]. by apply write_packet_adv.
Qed.

Lemma update_salts_out o s : update_salts_maybe hmac_sha1 salt_key time false s = Ok s ->
  update_salts_maybe hmac_sha1 salt_key time false (with_out o s) = Ok (with_out o s).
Proof.
  unfold update_salts_maybe. cbn [auth_data with_out salt_now].
  destruct (auth_data s ≫= auth_key_id) as [kid|].
  - destruct ((valid_at (salt_now s) =? time / (microseconds * salt_period)) && negb false); [done|].
    intros H. apply result_bind_ok in H as (n & Hn & H). apply result_bind_ok in H as (p & Hp & H).
    unfold mbind, result_bind. rewrite Hn, Hp. apply Ok_inj in H. do 2 f_equal.
    unfold with_out, with_salts in *. destruct s; simpl in *. by injection H as -> ->.
  - intros H. apply Ok_inj in H. f_equal. unfold with_out, with_salts in *. destruct s; simpl in *.
    by injection H as <- <-.
Qed.

Lemma with_out_out o o' s : with_out o (with_out o' s) = with_out o s.
Proof. done. Qed.
Lemma with_out_id s : with_out (out s) s = s.
Proof. by destruct s. Qed.

Lemma write_unencrypted_run : forall u fuel cl s g, unencrypted_queue (out s) = u -> (length u <= fuel)%nat ->
  clients g !! c = Some cl -> writes_left cl = None -> heap (world g) !! ref = Some s ->
  write_unencrypted_queue fuel c ref g
  = (Ok tt, adv c cl ref (with_out (with_queues [] (message_queue (out s)) (out s)) s)
       ((fun u : Z * bytes => PUnencrypted u.1 u.2) <$> u) g).
Proof.
  induction u as [|[mid data] u IH]; intros fuel cl s g Hu Hf Hc Hw Hs.
  - assert (write_unencrypted_queue fuel c ref g = (Ok tt, g)) as ->.
    { destruct fuel; simpl; (erewrite M_bind_step; [|by apply on_session]); by rewrite Hu. }
    cbn [fmap list_fmap]. rewrite adv_id; try done. rewrite Hs. f_equal.
    unfold with_out, with_queues. destruct s as [? ? ? ? [] ? ? ? ? ? ? ? ? ? ?]. simpl in *. by subst.
  - destruct fuel as [|fuel]; [simpl in Hf; lia|]. cbn [write_unencrypted_queue].
    erewrite M_bind_step; [|by apply on_session]. rewrite Hu. cbv beta iota.
    erewrite M_bind_step; [|by apply update_out_adv].
    erewrite M_bind_step; [|eapply write_packet_adv; [apply adv_client|done|apply adv_session]].
    rewrite adv_adv.
    rewrite (IH fuel _ (with_out (with_queues u (message_queue (out s)) (out s)) s) _ eq_refl
      ltac:(simpl in Hf; lia) (adv_client _ _ _ _) eq_refl (adv_session _ _ _ _)).
    by rewrite adv_adv.
Qed.

Lemma resend_run cl s l : forall l0 g, auth_data s ≫= auth_key = Some k ->
  update_salts_maybe hmac_sha1 salt_key time false s = Ok s ->
  resend_pending hmac_sha1 salt_key time c ref l (adv c cl ref s l0 g)
  = (Ok tt, adv c cl ref s (l0 ++ ((fun p : Z * (Z * bytes) => message_packet k s p.1 p.2.1 p.2.2) <$> l)) g).
Proof.
  induction l as [|[mid [seq data]] l IH]; intros l0 g Hk Hsalt.
  - simpl. by rewrite app_nil_r.
  - cbn [resend_pending].
    erewrite M_bind_step; [|eapply write_message_adv; [apply adv_client|done|apply adv_session|done|done]].
    rewrite adv_adv, IH by done. by rewrite <- app_assoc.
Qed.

Lemma write_queue_run : forall q fuel cl s g, message_queue (out s) = q -> (length q <= fuel)%nat ->
  clients g !! c = Some cl -> writes_left cl = None -> heap (world g) !! ref = Some s ->
  (auth_data s ≫= auth_key = Some k \/ q = []) ->
  update_salts_maybe hmac_sha1 salt_key time false s = Ok s ->
  write_message_queue hmac_sha1 salt_key time fuel c ref g
  = (Ok tt, adv c cl ref (with_out (track_all q (with_queues (unencrypted_queue (out s)) [] (out s))) s)
       ((fun m : Z * Z * bytes => message_packet k s m.1.1 m.1.2 m.2) <$> q) g).
Proof.
  induction q as [|[[mid seq] data] q IH]; intros fuel cl s g Hq Hf Hc Hw Hs Hk Hsalt.
  - assert (write_message_queue hmac_sha1 salt_key time fuel c ref g = (Ok tt, g)) as ->.
    { destruct fuel; simpl; (erewrite M_bind_step; [|by apply on_session]); by rewrite Hq. }
    cbn [fmap list_fmap track_all foldl]. rewrite adv_id; try done. rewrite Hs. f_equal.
    unfold with_out, with_queues. destruct s as [? ? ? ? [] ? ? ? ? ? ? ? ? ? ?]. simpl in *. by subst.
  - destruct fuel as [|fuel]; [simpl in Hf; lia|]. destruct Hk as [Hk|]; [|done]. cbn [write_message_queue].
    erewrite M_bind_step; [|by apply on_session]. rewrite Hq. cbv beta iota.
    erewrite M_bind_step; [|by apply update_out_adv].
    erewrite M_bind_step.
    2:{ eapply write_message_adv; [apply adv_client|done|apply adv_session|done|by apply update_salts_out]. }
    rewrite adv_adv.
    erewrite M_bind_step; [|eapply update_out_adv; [apply adv_client|done|apply adv_session]].
    rewrite adv_adv.
    rewrite (IH fuel _ (with_out (track_pending_outbound mid seq data
        (with_queues (unencrypted_queue (out s)) q (out s))) s) _ eq_refl
      ltac:(simpl in Hf; lia) (adv_client _ _ _ _) eq_refl (adv_session _ _ _ _) (or_introl Hk)
      (update_salts_out _ _ Hsalt)).
    by rewrite adv_adv.
Qed.

Lemma queues_run cl s g : clients g !! c = Some cl -> writes_left cl = None ->
  heap (world g) !! ref = Some s -> writable c k s ->
  _write_session_queues hmac_sha1 salt_key time c ref g
  = (Ok tt, adv c cl ref (with_out (out_after (out s)) s) (out_packets k s) g).
Proof.
  intros Hc Hw Hs [Hcl Hk Hsalt]. unfold _write_session_queues.
  erewrite M_bind_step; [|by apply on_session].
  erewrite M_bind_step; [|by eapply write_unencrypted_run].
  erewrite M_bind_step; [|apply on_session, adv_session].
  set (o1 := with_queues [] (message_queue (out s)) (out s)). set (s1 := with_out o1 s).
  set (p0 := (fun u : Z * bytes => PUnencrypted u.1 u.2) <$> unencrypted_queue (out s)).
  assert (Hsalt1 : update_salts_maybe hmac_sha1 salt_key time false s1 = Ok s1) by (by apply update_salts_out).
  change (resend_pending_on_connect (out s1)) with (resend_pending_on_connect (out s)).
  change (has_pending (out s1)) with (has_pending (out s)).
  destruct (resend_pending_on_connect (out s) && has_pending (out s)) eqn:Er.
  - set (s2 := with_out (with_resend false o1) s).
    assert (Hk1 : auth_data s2 ≫= auth_key = Some k).
    { destruct Hk as [Hk|[_ Hp]]; [done|]. exfalso. unfold has_pending in Er. rewrite Hp in Er.
      by rewrite andb_false_r in Er. }
    erewrite M_bind_step.
    2:{ erewrite M_bind_step; [|eapply update_out_adv; [apply adv_client|done|apply adv_session]].
        rewrite adv_adv, app_nil_r. change (with_out (with_resend false (out s1)) s1) with s2.
        apply (resend_run cl s2); [done|by apply update_salts_out]. }
    erewrite M_bind_step; [|apply on_session, adv_session].
    rewrite (write_queue_run (message_queue (out s)) _ _ s2 _ eq_refl (Nat.le_refl _) (adv_client _ _ _ _)
      eq_refl (adv_session _ _ _ _)); [|by left|by apply update_salts_out].
    rewrite adv_adv. unfold out_after, out_packets. rewrite Er. rewrite <- app_assoc. done.
  - erewrite M_bind_step; [|reflexivity]. erewrite M_bind_step; [|apply on_session, adv_session].
    rewrite (write_queue_run (message_queue (out s)) _ _ s1 _ eq_refl (Nat.le_refl _) (adv_client _ _ _ _)
      eq_refl (adv_session _ _ _ _)); [|by destruct Hk as [?|[? _]]; [left|right]|done].
    rewrite adv_adv. unfold out_after, out_packets. rewrite Er. done.
Qed.
End OneFlush.

Context (c : Z) (key_of : Z -> bytes).

Lemma flush_run cl ref s g : clients g !! c = Some cl -> writes_left cl = None ->
  heap (world g) !! ref = Some s -> writable c (key_of ref) s ->
  flush_outbound hmac_sha1 salt_key time ref g
  = (Ok tt, adv c cl ref (with_out (out_after (out s)) s) (out_packets (key_of ref) s) g).
Proof.
  intros Hc Hw Hs Hwr. unfold flush_outbound. erewrite M_bind_step; [|by apply on_session].
  rewrite (wr_client _ _ _ Hwr). erewrite M_bind_step.
  2:{ unfold attempt. rewrite (queues_run c (key_of ref) ref cl s g) by done. reflexivity. }
  done.
Qed.

(** The packets of a list of sessions, one after the other. *)
Definition packets_of (h : gmap Z Session) (refs : list Z) : list wire_packet :=
  mjoin ((fun ref => match h !! ref with Some s => out_packets (key_of ref) s | None => [] end) <$> refs).

Record flushed (cl : Client) (refs : list Z) (g g' : Gw) : Prop := {
  fl_client : clients g' !! c = Some (with_wire (wire cl ++ packets_of (heap (world g)) refs) None cl);
  fl_in : forall ref s, ref ∈ refs -> heap (world g) !! ref = Some s ->
    heap (world g') !! ref = Some (with_out (out_after (out s)) s);
  fl_out : forall ref, ~ ref ∈ refs -> heap (world g') !! ref = heap (world g) !! ref }.

Definition all_writable (refs : list Z) (g : Gw) : Prop :=
  forall ref, ref ∈ refs -> exists s, heap (world g) !! ref = Some s /\ writable c (key_of ref) s.

Lemma flush_all_run refs : forall cl g, NoDup refs -> clients g !! c = Some cl -> writes_left cl = None ->
  all_writable refs g ->
  exists g', flush_all hmac_sha1 salt_key time refs g = (Ok tt, g') /\ flushed cl refs g g'.
Proof.
  induction refs as [|ref refs IH]; intros cl g Hnd Hc Hw Hall.
  - exists g. split; [done|]. split.
    + unfold packets_of. simpl. rewrite app_nil_r, Hc. destruct cl. simpl in *. by subst.
    + intros r s Hr. by apply elem_of_nil in Hr.
    + done.
  - apply NoDup_cons in Hnd as [Hni Hnd]. destruct (Hall ref) as (s & Hs & Hwr); [by left|].
    set (g1 := adv c cl ref (with_out (out_after (out s)) s) (out_packets (key_of ref) s) g).
    assert (Hsame : forall r, r <> ref -> heap (world g1) !! r = heap (world g) !! r)
      by (intros r Hr; unfold g1, adv; simpl; by rewrite lookup_insert_ne).
    destruct (IH (with_wire (wire cl ++ out_packets (key_of ref) s) None cl) g1) as (g' & Hrun & [Hcl Hin Hout]);
      [done|apply adv_client|done| |].
    { intros r Hr. rewrite Hsame by (intros ->; done). apply Hall. by right. }
    exists g'. split.
    + cbn [flush_all]. erewrite M_bind_step; [|by apply flush_run]. exact Hrun.
    + assert (Hp : packets_of (heap (world g)) (ref :: refs)
        = out_packets (key_of ref) s ++ packets_of (heap (world g1)) refs).
      { unfold packets_of. cbn [fmap list_fmap mjoin list_join]. rewrite Hs. f_equal.
        f_equal. apply list_fmap_ext. intros i r Hr. rewrite Hsame; [done|].
        intros ->. apply Hni. by eapply list_elem_of_lookup_2. }
      split.
      * rewrite Hcl, Hp. unfold with_wire. simpl. by rewrite <- app_assoc.
      * intros r s' Hr Hs'. apply elem_of_cons in Hr as [->|Hr].
        -- rewrite Hs in Hs'. injection Hs' as <-. rewrite Hout by done. apply adv_session.
        -- apply Hin; [done|]. rewrite Hsame; [done|]. intros ->. done.
      * intros r Hr. rewrite Hout by (intros ?; apply Hr; by right). apply Hsame.
        intros ->. apply Hr. by left.
Qed.

Lemma has_pending_run cl g : clients g !! c = Some cl ->
  _has_pending_outbound c g = (Ok (existsb (fun ref => match heap (world g) !! ref with
      | Some s => queued (out s) | None => false end) (_outbound_sessions cl)), g).
Proof. intros Hc. unfold _has_pending_outbound. by rewrite Hc. Qed.

Lemma track_all_queues q o : unencrypted_queue (track_all q o) = unencrypted_queue o /\
  message_queue (track_all q o) = message_queue o /\
  resend_pending_on_connect (track_all q o) = resend_pending_on_connect o.
Proof.
  revert o. induction q as [|m q IH]; intros o; [done|].
  change (track_all (m :: q) o) with (track_all q (track_pending_outbound m.1.1 m.1.2 m.2 o)).
  destruct (IH (track_pending_outbound m.1.1 m.1.2 m.2 o)) as (-> & -> & ->). done.
Qed.

Lemma queued_after o : queued (out_after o) = false.
Proof.
  unfold queued, out_after. destruct (track_all_queues (message_queue o)
    (with_queues [] [] (if resend_pending_on_connect o && has_pending o then with_resend false o else o)))
    as (-> & -> & _). done.
Qed.

Lemma od_set_lookup (k : Z) (v : Z * bytes) l k' : 
  snd <$> (snd <$> list_find (fun kv : Z * (Z * bytes) => kv.1 = k') (od_set k v l))
  = if decide (k = k') then Some v else snd <$> (snd <$> list_find (fun kv : Z * (Z * bytes) => kv.1 = k') l).
Proof.
  induction l as [|[a b] l IH]; cbn [od_set list_find fst].
  - repeat case_decide; done.
  - destruct (a =? k) eqn:E; b2p; cbn [list_find fst].
    + subst. repeat case_decide; done.
    + destruct (decide (a = k')) as [->|].
      * rewrite (decide_False (P := k = k')) by congruence. done.
      * revert IH. destruct (list_find _ (od_set k v l)) as [[? ?]|], (list_find _ l) as [[? ?]|]; cbn; done.
Qed.

(** The message that is kept under an id. *)
Definition kept (mid : Z) (o : Outbound) : option (Z * bytes) :=
  snd <$> (snd <$> list_find (fun kv : Z * (Z * bytes) => kv.1 = mid) (pending_outbound o)).

Lemma kept_track mid m o : kept mid (track_pending_outbound m.1.1 m.1.2 m.2 o)
  = if decide (m.1.1 = mid) then Some (m.1.2, m.2) else kept mid o.
Proof. unfold kept, track_pending_outbound, with_pending. cbn [pending_outbound]. apply od_set_lookup. Qed.

Lemma kept_track_all mid q : forall o, kept mid (track_all q o)
  = match list_find (fun m : Z * Z * bytes => m.1.1 = mid) (rev q) with
    | Some (_, m) => Some (m.1.2, m.2) | None => kept mid o end.
Proof.
  induction q as [|m q IH]; intros o; [done|].
  change (track_all (m :: q) o) with (track_all q (track_pending_outbound m.1.1 m.1.2 m.2 o)).
  rewrite IH, kept_track. simpl rev. destruct (list_find _ (rev q)) as [[i x]|] eqn:E.
  - by rewrite (list_find_app_l _ _ _ _ _ E).
  - rewrite (list_find_app_r _ _ _ E). cbn [list_find fst]. by case_decide.
Qed.
End Delivery.


(** ** A session that lost its client *)
(** The session at [ref], which the connection [c] still lists, has lost its
    client and has something queued. *)
Definition stranded (c ref : Z) (g : Gw) : Prop :=
  (exists s, heap (world g) !! ref = Some s /\ client s = None /\ queued (out s) = true) /\
  (exists cl, clients g !! c = Some cl /\ ref ∈ _outbound_sessions cl).

Section Stranded.
Context (hmac_sha1 : bytes -> bytes -> bytes) (salt_key : bytes) (time c ref : Z).
#[local] Abbreviation stuck := (stranded c ref).

Lemma stranded_on_world {A} (m : W A) : (forall w, heap (m w).2 !! ref = heap w !! ref) -> preserves stuck (on_world m).
Proof.
  intros Hm g [(s & Hs & H) Hc]. unfold on_world. specialize (Hm (world g)).
  destruct (m (world g)) as [r w]. simpl in *. split; [|done]. exists s. cbn [world with_world]. by rewrite Hm.
Qed.

Lemma session_at_heap r w : (session_at r w).2 = w.
Proof. unfold session_at. by destruct (heap w !! r). Qed.
Lemma stranded_session_at r : preserves stuck (on_world (session_at r)).
Proof. apply stranded_on_world. intros w. by rewrite session_at_heap. Qed.

Lemma update_session_other r f w : r <> ref -> heap (update_session r f w).2 !! ref = heap w !! ref.
Proof.
  intros Hr. unfold update_session, session_at, set_session, modify. unfold mbind, M_bind.
  destruct (heap w !! r); [|done]. simpl. by rewrite lookup_insert_ne.
Qed.
Lemma stranded_update_out r f : r <> ref -> preserves stuck (update_out r f).
Proof. intros Hr. apply stranded_on_world. intros w. by apply update_session_other. Qed.

Lemma disconnect_other r w : r <> ref -> heap (disconnect r w).2 !! ref = heap w !! ref.
Proof.
  intros Hr. unfold disconnect, update_session, session_at, set_session, schedule_leave, gets, modify.
  unfold mbind, M_bind, mret, M_ret. destruct (heap w !! r) as [s|] eqn:E; [|done].
  destruct (bool_decide _); cbn [heap with_heap snd];
    repeat (rewrite ?lookup_insert_eq, ?lookup_insert_ne by done;
      first [ done | case_match | progress cbn [heap with_heap with_leave_tasks snd] ]).
Qed.

Lemma stranded_write_packet c' p : preserves stuck (_write_packet c' p).
Proof.
  intros g [Hs (cl & Hc & Hr)]. unfold _write_packet, client_at, set_client, modify, raise. unfold mbind, M_bind.
  destruct (clients g !! c') as [cl'|] eqn:E; [|by split; eauto].
  assert (Hset : forall l n, stuck (with_clients (<[c' := with_wire l n cl']> (clients g)) g)).
  { intros l n. split; [done|]. cbn [clients with_clients]. destruct (decide (c = c')) as [<-|Hne].
    - rewrite lookup_insert_eq. eexists. split; [done|]. rewrite E in Hc. injection Hc as ->. done.
    - rewrite lookup_insert_ne by done. eauto. }
  destruct (writes_left cl') as [[|n]|]; simpl; [split; eauto|apply Hset..].
Qed.

Lemma stranded_update_salts r : r <> ref -> preserves stuck (update_salts hmac_sha1 salt_key time r).
Proof.
  intros Hr. apply stranded_on_world. intros w. unfold session_at, set_session, lift_result, modify.
  unfold mbind, M_bind. destruct (heap w !! r) as [s|]; [|done].
  destruct (update_salts_maybe _ _ _ _ s); [|done]. simpl. by rewrite lookup_insert_ne.
Qed.

Lemma stranded_write_message c' mid seq data r : r <> ref ->
  preserves stuck (_write_message hmac_sha1 salt_key time c' mid seq data r).
Proof.
  intros Hr. apply preserves_bind; [apply stranded_session_at|]. intros s.
  destruct (auth_data s ≫= auth_key); [|apply preserves_raise].
  apply preserves_bind; [by apply stranded_update_salts|]. intros _.
  apply preserves_bind; [apply stranded_session_at|]. intros s'. apply stranded_write_packet.
Qed.

Lemma stranded_unencrypted c' r : r <> ref -> forall fuel, preserves stuck (write_unencrypted_queue fuel c' r).
Proof.
  intros Hr. induction fuel as [|fuel IH]; cbn [write_unencrypted_queue];
    (apply preserves_bind; [apply stranded_session_at|]); intros s;
    destruct (unencrypted_queue (out s)) as [|[mid data] u]; try apply preserves_ret; [apply preserves_raise|].
  apply preserves_bind; [by apply stranded_update_out|]. intros _.
  apply preserves_bind; [apply stranded_write_packet|]. intros _. apply IH.
Qed.

Lemma stranded_resend c' r l : r <> ref -> preserves stuck (resend_pending hmac_sha1 salt_key time c' r l).
Proof.
  intros Hr. induction l as [|[mid [seq data]] l IH]; cbn [resend_pending]; [apply preserves_ret|].
  apply preserves_bind; [by apply stranded_write_message|]. intros _. apply IH.
Qed.

Lemma stranded_queue c' r : r <> ref -> forall fuel,
  preserves stuck (write_message_queue hmac_sha1 salt_key time fuel c' r).
Proof.
  intros Hr. induction fuel as [|fuel IH]; cbn [write_message_queue];
    (apply preserves_bind; [apply stranded_session_at|]); intros s;
    destruct (message_queue (out s)) as [|[[mid seq] data] q]; try apply preserves_ret; [apply preserves_raise|].
  apply preserves_bind; [by apply stranded_update_out|]. intros _.
  apply preserves_bind; [by apply stranded_write_message|]. intros _.
  apply preserves_bind; [by apply stranded_update_out|]. intros _. apply IH.
Qed.

(** Flushing the stranded session does nothing, and flushing another one
    leaves it alone. *)
Lemma stranded_flush r : preserves stuck (flush_outbound hmac_sha1 salt_key time r).
Proof.
  destruct (decide (r = ref)) as [->|Hr].
  - intros g H. pose proof H as [(s & Hs & Hcl & _) _]. unfold flush_outbound.
    erewrite M_bind_step; [|by apply on_session]. by rewrite Hcl.
  - apply preserves_bind; [apply stranded_session_at|]. intros s. destruct (client s) as [c'|]; [|apply preserves_ret].
    apply preserves_bind.
    + apply preserves_attempt, preserves_bind; [apply stranded_session_at|]. intros s1.
      apply preserves_bind; [by apply stranded_unencrypted|]. intros _.
      apply preserves_bind; [apply stranded_session_at|]. intros s2.
      apply preserves_bind.
      { destruct (_ && _); [|apply preserves_ret]. apply preserves_bind; [by apply stranded_update_out|].
        intros _. by apply stranded_resend. }
      intros _. apply preserves_bind; [apply stranded_session_at|]. intros s3. by apply stranded_queue.
    + intros [[]|[]]; try apply preserves_ret; try apply preserves_raise.
      apply stranded_on_world. intros w. by apply disconnect_other.
Qed.

Lemma stranded_flush_all refs : preserves stuck (flush_all hmac_sha1 salt_key time refs).
Proof.
  induction refs as [|r refs IH]; cbn [flush_all]; [apply preserves_ret|].
  apply preserves_bind; [apply stranded_flush|]. intros _. apply IH.
Qed.

Lemma stranded_pending g : stuck g -> _has_pending_outbound c g = (Ok true, g).
Proof.
  intros [(s & Hs & _ & Hq) (cl & Hc & Hr)]. rewrite (has_pending_run c cl) by done. do 2 f_equal.
  apply existsb_exists. exists ref. split; [by apply list_elem_of_In|]. by rewrite Hs.
Qed.

(** The loop cannot leave such a state. *)
Lemma stranded_forever fuel : forall g, stuck g ->
  is_ok (flush_pending hmac_sha1 salt_key time fuel c g).1 = false.
Proof.
  induction fuel as [|fuel IH]; intros g H; cbn [flush_pending];
    (erewrite M_bind_step; [|by apply stranded_pending]); cbv beta iota; [done|].
  pose proof H as [_ (cl & Hc & _)].
  erewrite (M_bind_step _ _ g cl g); [|unfold client_at; by rewrite Hc].
  pose proof (stranded_flush_all (_outbound_sessions cl) g H) as H'.
  unfold mbind, M_bind. destruct (flush_all _ _ _ _ g) as [[[]|e] g']; [|done]. by apply IH.
Qed.
End Stranded.

Lemma disconnect_run r s w : heap w !! r = Some s ->
  exists w' cleanup, disconnect r w = (Ok tt, w') /\
    heap w' !! r = Some (cleanup (with_init false (with_event None (with_client None s)))) /\
    (cleanup = id \/ cleanup = with_cleanup true).
Proof.
  intros Hs. unfold disconnect, update_session, session_at, set_session, schedule_leave, gets, modify.
  unfold mbind, M_bind, mret, M_ret. rewrite Hs. destruct (bool_decide _).
  - cbn [heap with_heap]. rewrite lookup_insert_eq.
    destruct (user_id (auth s)) as [u|]; [destruct (has_connected_session_for_user _ _ _)|];
      eexists _, (with_cleanup true); (split; [done|]); (split; [|by right]);
      cbn [heap with_heap with_leave_tasks]; by rewrite lookup_insert_eq.
  - eexists _, id. split; [done|]. split; [|by left]. cbn [heap with_heap]. by rewrite lookup_insert_eq.
Qed.

(** A reset connection. When the peer resets the connection while a message is being written,
    that message is neither in the queue nor among the unacknowledged ones any more, and
    the session loses its client; if more is queued, the send loop of the connection, which still lists
    the session, goes round for ever, never waiting for anything. *)
Theorem outbound_reset (hmac_sha1 : bytes -> bytes -> bytes) (salt_key k : bytes) (time c ref : Z)
    (cl : Client) (s : Session) (m : Z * Z * bytes) (q : list (Z * Z * bytes)) (g : Gw) :
  clients g !! c = Some cl -> writes_left cl = Some O -> ref ∈ _outbound_sessions cl ->
  heap (world g) !! ref = Some s -> client s = Some c -> auth_data s ≫= auth_key = Some k ->
  update_salts_maybe hmac_sha1 salt_key time false s = Ok s ->
  unencrypted_queue (out s) = [] -> resend_pending_on_connect (out s) = false -> message_queue (out s) = m :: q ->
  exists g', flush_outbound hmac_sha1 salt_key time ref g = (Ok tt, g') /\
    (exists s', heap (world g') !! ref = Some s' /\ client s' = None /\ message_queue (out s') = q /\
      pending_outbound (out s') = pending_outbound (out s)) /\
    (q <> [] -> forall fuel, is_ok (flush_pending hmac_sha1 salt_key time fuel c g').1 = false).
Proof.
  intros Hc Hw Hr Hs Hcl Hk Hsalt Hu Hres Hq.
  set (s1 := with_out (with_queues (unencrypted_queue (out s)) q (out s)) s).
  set (g1 := with_world (with_heap (<[ref := s1]> (heap (world g))) (world g)) g).
  assert (Hs1 : heap (world g1) !! ref = Some s1) by apply lookup_insert_eq.
  assert (Hfail : _write_session_queues hmac_sha1 salt_key time c ref g = (Raise (Disconnection None), g1)).
  { unfold _write_session_queues. erewrite M_bind_step; [|by apply on_session].
    rewrite Hu. cbn [length]. erewrite M_bind_step.
    2:{ cbn [write_unencrypted_queue]. erewrite M_bind_step; [|by apply on_session]. by rewrite Hu. }
    erewrite M_bind_step; [|by apply on_session]. rewrite Hres. cbn [andb].
    erewrite M_bind_step; [|reflexivity]. erewrite M_bind_step; [|by apply on_session].
    rewrite Hq. cbn [length write_message_queue]. erewrite M_bind_step; [|by apply on_session].
    rewrite Hq. destruct m as [[mid seq] data]. cbv beta iota.
    erewrite (M_bind_step _ _ g tt g1); [|exact (update_out_run ref (fun o => with_queues (unencrypted_queue o) q o) s g Hs)].
    apply M_bind_raise. unfold _write_message. erewrite M_bind_step; [|by apply on_session].
    change (auth_data s1) with (auth_data s). rewrite Hk.
    erewrite (M_bind_step _ _ g1 tt g1).
    2:{ unfold update_salts, on_world, session_at, set_session, lift_result, modify. unfold mbind, M_bind.
        rewrite Hs1. unfold s1. rewrite update_salts_out by exact Hsalt. fold s1.
        rewrite insert_id by exact Hs1. by rewrite with_heap_id, with_world_id. }
    erewrite M_bind_step; [|by apply on_session].
    unfold _write_packet.
    erewrite (M_bind_step _ _ g1 cl g1); [|unfold client_at; change (clients g1) with (clients g); by rewrite Hc].
    by rewrite Hw. }
  destruct (disconnect_run ref s1 (world g1) Hs1) as (w' & cleanup & Hd & Hs' & Hclean).
  exists (with_world w' g1). split_and!.
  - unfold flush_outbound. erewrite M_bind_step; [|by apply on_session]. rewrite Hcl.
    erewrite M_bind_step; [|unfold attempt; by rewrite Hfail]. cbv beta iota. unfold on_world. by rewrite Hd.
  - eexists. split; [exact Hs'|]. by destruct Hclean as [-> | ->].
  - intros Hne fuel. apply (stranded_forever _ _ _ _ ref). split; [|by exists cl].
    eexists. split; [exact Hs'|]. destruct q; [done|]. destruct Hclean as [-> | ->]; (split; [done|]);
      unfold queued; cbn; by rewrite Hu.
Qed.

(** ** Witnesses: a connection with one session and two queued messages *)
Section Witness.
Definition demo_hmac (k m : bytes) : bytes := zero_bytes 20.
Definition demo_session : Session :=
  with_out (MkOutbound (MkMsgIdValues 0 0) 2 [(5, 1, [x2a]); (9, 3, [x2b])] [] [(1, (1, [x29]))] true)
    (with_salts (MkSalt (zero_bytes 8) 0) (MkSalt (zero_bytes 8) 0)
      (new_Session 7 (Some 0) (Some (new_AuthData (Some 3) (Some (zero_bytes 256)) (Some 3))))).
Definition quiet_session : Session := with_out (with_resend false (out demo_session)) demo_session.
Definition demo_client (n : option nat) : Client := MkClient 0 [((3, 7), 1)] [] ∅ None [] [] n.
Definition demo_gw (s : Session) (n : option nat) : Gw :=
  MkGw (MkWorld {[ 0 := new_Session 0 (Some 0) None; 1 := s ]} ∅ (MkBroker ∅ ∅ ∅ ∅ ∅ ∅) ∅ (MkKeyTables ∅ ∅) ∅ ∅ ∅ ∅)
    {[ 0 := demo_client n ]} [] ∅.
Definition demo_key (ref : Z) : bytes := zero_bytes 256.
End Witness.


Lemma outbound_reset_witness : exists g',
  flush_outbound demo_hmac [] 0 1 (demo_gw quiet_session (Some O)) = (Ok tt, g') /\
  forall fuel, is_ok (flush_pending demo_hmac [] 0 fuel 0 g').1 = false.
Proof.
  destruct (outbound_reset demo_hmac [] (zero_bytes 256) 0 0 1 (demo_client (Some O)) quiet_session
    (5, 1, [x2a]) [(9, 3, [x2b])] (demo_gw quiet_session (Some O))) as (g' & Hrun & _ & H);
    try reflexivity.
  - vm_compute. right; left.
  - exists g'. split; [exact Hrun|]. apply H. discriminate.
Defined.
