(* ===== verification/Gateway.v ===== *)
(** The receiving half of a gateway connection ([piltover/gateway/client.py])
    and the requests the gateway answers itself
    ([piltover/gateway/_system_handlers.py]).

    [_recv_packet] takes a packet through decryption, the session, the checks of
    the message and the authorization gate; [propagate] has it processed, queues
    the answer and marks the message completed.

    Parameters are the decryption of the package [mtproto], the cache of the package
    [lru] with its documented behaviour, the worker a request is sent to, and
    what other tasks do while this one waits. A packet is handled at one reading [time] of the clock. *)
From Stdlib Require Import Init.Byte.
From stdpp Require Import pretty.
From S2P Require Import Prelude PyBytes TlPrimitives TlObject Session AuthKeys Broker SessionManager ClientSend.

(** ** The LRU cache, as a list of its items *)
Class Lru := {
  (** [l[k] = v] with room for [size] items: the items, and the one that is evicted *)
  lru_set : forall {K V : Type}, EqDecision K -> nat -> K -> V -> list (K * V) -> list (K * V) * option (K * V);
  (** [l[k]] makes the item the most recently used one. *)
  lru_use : forall {K V : Type}, EqDecision K -> K -> list (K * V) -> list (K * V);
}.
Arguments lru_set {_ K V _}.
Arguments lru_use {_ K V _}.

(** [k in l] and the value [l[k]] *)
Fixpoint item {K V} `{EqDecision K} (k : K) (l : list (K * V)) : option V :=
  match l with [] => None | (k', v) :: l => if decide (k' = k) then Some v else item k l end.
(** [del l[k]] *)
Definition del_item {K V} `{EqDecision K} (k : K) (l : list (K * V)) : list (K * V) := filter (fun kv => kv.1 <> k) l.

(** ** Objects the gateway makes *)
Definition ID_Ping : Z := 0x7abe77ec.
Definition ID_PingDelayDisconnect : Z := 0xf3427b8c.
Definition ID_InvokeWithLayer : Z := 0xda9b0d0d.
Definition ID_InvokeAfterMsg : Z := 0xcb9f372d.
Definition ID_InvokeAfterMsgs : Z := 0x3dc4b4f0.
Definition ID_InvokeWithoutUpdates : Z := 0xbf9459b7.
Definition ID_InitConnection : Z := 0xc1cd5ea9.
Definition ID_DestroySession : Z := 0xe7512126.
Definition ID_RpcDropAnswer : Z := 0x58e4a740.
Definition ID_GetFutureSalts : Z := 0xb921bd04.
Definition ID_BindTempAuthKey : Z := 0xcdd42a05.
Definition ID_RpcError : Z := 0x2144ca19.
Definition ID_Pong : Z := 0x347773c5.
Definition ID_RpcAnswerUnknown : Z := 0x5e2ad36e.
Definition ID_DestroySessionOk : Z := 0xe22045fc.
Definition ID_NewSessionCreated : Z := 0x9ec20908.
Definition ID_BadMsgNotification : Z := 0xa7eff811.
Definition ID_BadServerSalt : Z := 0xedab447b.

Definition RpcResult (req_msg_id : Z) (obj : tlval) : tlval := VObj ID_RpcResult [VInt req_msg_id; obj].
Definition RpcError (error_code : Z) (error_message : string) : tlval :=
  VObj ID_RpcError [VInt error_code; VStr (pystr_of error_message)].
Definition Pong (message_id ping_id : Z) : tlval := VObj ID_Pong [VInt message_id; VInt ping_id].
Definition NewSessionCreated (first_msg_id unique_id server_salt : Z) : tlval :=
  VObj ID_NewSessionCreated [VInt first_msg_id; VInt unique_id; VInt server_salt].

Definition _auth_key_unregistered_result (message_id : Z) : tlval :=
  RpcResult message_id (RpcError 401 "AUTH_KEY_UNREGISTERED").

(** ** The task that a request becomes *)
Record CallRpc := MkCallRpc {
  cr_obj : tlval; cr_layer : Z; cr_auth_key_id : option Z; cr_perm_auth_key_id : option Z; cr_session_id : Z;
  cr_message_id : Z; cr_auth_id : option Z; cr_user_id : option Z; cr_is_bot : bool; cr_mfa_pending : bool;
  cr_ip : pystr }.

Record RpcResponse := MkRpcResponse { rr_obj : tlval; rr_transport_error : option Z; rr_refresh_auth : bool }.

(** [TaskFailed]: waiting for the result raised. *)
Inductive task_result := TaskFailed | TaskError | TaskOther | TaskResponse (r : RpcResponse).

Record EncryptedPacket := MkEncrypted { e_auth_key_id : Z; e_needs_quick_ack : bool; e_body : bytes }.

Abbreviation reply := (option tlval).

Section Gateway.
Context {LR : Lru}.
(** The generated classes, their [write] and what it reads from the database *)
Context (objects : Z -> option Combinator) (decompress : bytes -> result bytes) (ContextValues : Type)
  (write : SerializationContext ContextValues -> tlval -> result bytes)
  (resolve_context_values : World -> tlval -> option ContextValues).
(** Python's recursion limit, as the depth to which an object is read *)
Context (depth : nat).
Context (hmac_sha1 : bytes -> bytes -> bytes) (salt_key : bytes) (max_layer : Z).
(** The package [mtproto]: [packet.decrypt(auth_key)] *)
Context (decrypt_packet : EncryptedPacket -> bytes -> result DecryptedMessagePacket).
(** The worker: whether the task took longer than the first timeout, and its result *)
Context (run_task : CallRpc -> W (bool * task_result)).
(** What other tasks do until the event of a message is set ([true]) or the
    timeout is over *)
Context (other_tasks : Z -> W bool).
Context (time : Z).

Definition enqueue (ref : Z) (obj : tlval) (in_reply : bool) : G unit := fun g =>
  on_world (SessionManager.enqueue objects ContextValues write ref time obj
    (resolve_context_values (world g) obj) in_reply) g.

(** ** Keys and sessions of the connection *)
Definition with_sessions_lru (l : list (Z * Z * Z)) (cl : Client) : Client :=
  MkClient (keygen_session cl) l (active_keys cl) (rejected_auth_keys cl) (disconnect_at cl) (peer_ip cl)
    (wire cl) (writes_left cl).
Definition with_keys_lru (l : list (Z * bytes)) (cl : Client) : Client :=
  MkClient (keygen_session cl) (active_sessions cl) l (rejected_auth_keys cl) (disconnect_at cl) (peer_ip cl)
    (wire cl) (writes_left cl).
Definition with_rejected (r : gset Z) (cl : Client) : Client :=
  MkClient (keygen_session cl) (active_sessions cl) (active_keys cl) r (disconnect_at cl) (peer_ip cl)
    (wire cl) (writes_left cl).
Definition with_disconnect_at (t : option Z) (cl : Client) : Client :=
  MkClient (keygen_session cl) (active_sessions cl) (active_keys cl) (rejected_auth_keys cl) t (peer_ip cl)
    (wire cl) (writes_left cl).
Definition update_client (c : Z) (f : Client -> Client) : G unit := cl ← client_at c; set_client c (f cl).
Definition with_unknown (l : list (Z * unit)) (g : Gw) : Gw := MkGw (world g) (clients g) l (devices g).
Definition with_devices (d : gmap Z (list pystr)) (g : Gw) : Gw :=
  MkGw (world g) (clients g) (unknown_auth_key_ids g) d.

Definition _get_cached_session (c : Z) (key : Z * Z) : G (option Z) :=
  cl ← client_at c;
  match item key (active_sessions cl) with
  | Some ref => set_client c (with_sessions_lru (lru_use key (active_sessions cl)) cl);; mret (Some ref)
  | None => mret None
  end.

Definition _get_session (c session_id : Z) (a : AuthData) : G Z :=
  cached ← _get_cached_session c (default 0 (auth_key_id a), session_id);
  match cached with
  | Some ref => mret ref
  | None =>
    fresh_ref ← gets (fun g => fresh (dom (heap (world g))));
    created ← on_world (get_or_create fresh_ref session_id c a);
    let ref : Z := created.1 in
    on_world (connect ref c);;
    s ← on_world (session_at ref);
    cl ← client_at c;
    let set := lru_set 4%nat (uniq_id s) ref (active_sessions cl) in
    set_client c (with_sessions_lru set.1 cl);;
    match set.2 with Some evicted => on_world (disconnect evicted.2) | None => mret tt end;;
    mret ref
  end.

Definition _drop_auth_key (c auth_key_id ref : Z) : G unit :=
  s ← on_world (session_at ref);
  update_client c (fun cl => with_sessions_lru (del_item (uniq_id s) (active_sessions cl))
                               (with_keys_lru (del_item auth_key_id (active_keys cl)) cl));;
  on_world (disconnect ref).

Inductive gate := GateOk | GateDrop | GateUnregistered.

Definition seconds : Z := time / microseconds.

Definition _auth_gate (c auth_key_id : Z) (obj : tlval) : G gate :=
  cl ← client_at c;
  w ← gets world;
  mret (if decide (auth_key_id ∈ rejected_auth_keys cl) then GateDrop
        else if negb (is_registered seconds auth_key_id (key_tables w)) then GateUnregistered
        else match obj with
             | VObj id (VInt perm_auth_key_id :: _) =>
               if decide (id = ID_BindTempAuthKey) then
                 if can_bind_temp_auth_key seconds auth_key_id perm_auth_key_id (key_tables w)
                 then GateOk else GateUnregistered
               else GateOk
             | _ => GateOk
             end).

Definition _respond_auth_key_unregistered (c message_id ref auth_key_id : Z) : G unit :=
  cl ← client_at c;
  if decide (auth_key_id ∈ rejected_auth_keys cl) then mret tt
  else
    set_client c (with_rejected ({[auth_key_id]} ∪ rejected_auth_keys cl) cl);;
    enqueue ref (_auth_key_unregistered_result message_id) true;;
    _drop_auth_key c auth_key_id ref.

(** ** System handlers *)
Definition update_layer (perm : option Z) (layer : Z) : W unit :=
  modify (fun w => MkWorld (heap w) (sessions w) (broker w) (events w)
    (MkKeyTables (match perm with
                  | Some k => alter (fun key => MkPermKey (pk_auth_key key) layer) k (AuthKey (key_tables w))
                  | None => AuthKey (key_tables w) end) (TempAuthKey (key_tables w)))
    (user_authorizations w) (chat_participants w) (channels_cache w) (leave_tasks w)).

Definition msgs_ack (ref : Z) (msg_ids : list Z) : G reply :=
  update_out ref (ack_outbound msg_ids);; mret None.

Definition msgs_state_req (message_id : Z) (msg_ids : list Z) : G reply :=
  mret (Some (VObj ID_MsgsStateInfo [VInt message_id; VStr (repeat 4 (length msg_ids))])).

Definition ping (message_id ping_id : Z) : G reply := mret (Some (Pong message_id ping_id)).

Definition ping_delay_disconnect (c message_id ping_id disconnect_delay : Z) : G reply :=
  (if 0 <? disconnect_delay
   then update_client c (with_disconnect_at (Some (time + disconnect_delay * microseconds))) else mret tt);;
  mret (Some (Pong message_id ping_id)).

(** [_wait_for_invoke_after]: [true] when every message is completed *)
Fixpoint _wait_for_invoke_after (ref : Z) (msg_ids : list Z) : G bool :=
  match msg_ids with
  | [] => mret true
  | msg_id :: msg_ids =>
    s ← on_world (session_at ref);
    let '(completed, r) := wait_for_rpc msg_id (rpc s) in
    on_world (set_session ref (with_rpc r s));;
    completed ← (if completed then mret true else on_world (other_tasks msg_id));
    if (completed : bool) then _wait_for_invoke_after ref msg_ids else mret false
  end.

Definition invoke_after_msgs (ref message_id : Z) (msg_ids : list Z) (inner : G reply) : G reply :=
  completed ← _wait_for_invoke_after ref msg_ids;
  if (completed : bool) then inner else mret (Some (RpcResult message_id (RpcError 420 "MSG_WAIT_TIMEOUT"))).

Definition invoke_with_layer (ref requested : Z) (inner : G reply) : G reply :=
  s ← on_world (session_at ref);
  let l := Z.min requested max_layer in
  (if decide (l = layer s) then mret tt
   else match auth_data s with
        | Some a => on_world (update_layer (perm_auth_key_id a) l)
        | None => raise AttributeError
        end);;
  on_world (update_session ref (with_layer l));;
  inner.

Definition invoke_without_updates (ref : Z) (inner : G reply) : G reply :=
  on_world (update_session ref (with_no_updates true));; inner.

Definition init_connection (c ref : Z) (device_model system_version app_version : pystr) (inner : G reply) : G reply :=
  s ← on_world (session_at ref);
  (match auth_id (auth s) with
   | Some a =>
     if negb (a =? 0) && negb (had_init_connection s) then
       on_world (update_session ref (with_init true));;
       cl ← client_at c;
       g ← get;
       if existsb (fun kv => ua_id kv.2 =? a) (map_to_list (user_authorizations (world g)))
       then modify (with_devices (<[a := [device_model; system_version; app_version; peer_ip cl]]> (devices g)))
       else mret tt
     else mret tt
   | None => mret tt
   end);;
  inner.

Definition destroy_session (ref session_id : Z) : G reply :=
  s ← on_world (session_at ref);
  (match auth_data s ≫= auth_key_id with
   | Some k =>
     stored ← gets (fun g => sessions (world g) !! (k, session_id));
     match stored with Some r => on_world (finalize r) | None => mret tt end
   | None => mret tt
   end);;
  mret (Some (VObj ID_DestroySessionOk [VInt session_id])).

Definition rpc_drop_answer (message_id : Z) : G reply :=
  mret (Some (RpcResult message_id (VObj ID_RpcAnswerUnknown []))).

Definition future_salt (auth_key_id base_timestamp salt_offset : Z) : result tlval :=
  s ← make_salt hmac_sha1 salt_key auth_key_id (base_timestamp + salt_offset);
  n ← read_bytes Long s true;
  Ok (VObj ID_FutureSalt [VInt ((base_timestamp + salt_offset) * 30 * 60);
                          VInt ((base_timestamp + salt_offset + 1) * 30 * 60); VInt n]).

Definition future_salts (auth_key_id num : Z) : result (list tlval) :=
  mapM (fun i => future_salt auth_key_id (seconds / (30 * 60)) (Z.of_nat i))
    (seq 0 (Z.to_nat (Z.min (Z.max num 1) 64))).

Definition get_future_salts (ref message_id num : Z) : G reply :=
  s ← on_world (session_at ref);
  match auth_data s with
  | None => raise AttributeError
  | Some a =>
    match auth_key_id a with
    | None => raise StructError
    | Some k =>
      salts ← lift_result (future_salts k num);
      mret (Some (VObj ID_FutureSalts [VInt message_id; VInt seconds; VObjs salts]))
    end
  end.

(** ** Requests for the worker *)
Definition call_rpc (cl : Client) (s : Session) (a : AuthData) (message_id : Z) (obj : tlval) : CallRpc :=
  MkCallRpc obj (layer s) (auth_key_id a) (perm_auth_key_id a) (session_id s) message_id (auth_id (auth s))
    (user_id (auth s)) (is_bot (auth s)) (mfa_pending (auth s)) (peer_ip cl).

(** [_kiq] and [_wait_result_with_ack] *)
Definition _wait_result_with_ack (ref message_id : Z) (call : CallRpc) : G task_result :=
  r ← on_world (run_task call);
  (if (r.1 : bool) then enqueue ref (VObj ID_MsgsAck [VInts [message_id]]) false else mret tt);;
  mret r.2.

Definition fetch_layer (ref : Z) : W unit :=
  s ← session_at ref;
  w ← get;
  match (auth_data s ≫= perm_auth_key_id) ≫= fun k => AuthKey (key_tables w) !! k with
  | Some key => set_session ref (with_layer (Z.min (pk_layer key) max_layer) s)
  | None => mret tt
  end.

Definition error_500 (message_id : Z) (message : string) : G reply :=
  mret (Some (RpcResult message_id (RpcError 500 message))).

Definition request_task (c ref message_id : Z) (obj : tlval) : G reply :=
  s ← on_world (session_at ref);
  match auth_data s with
  | None => raise AttributeError
  | Some a =>
    let key := default 0 (auth_key_id a) in
    verdict ← _auth_gate c key obj;
    match verdict with
    | GateDrop => mret None
    | GateUnregistered => _respond_auth_key_unregistered c message_id ref key;; raise Disconnect404
    | GateOk =>
      cl ← client_at c;
      outcome ← attempt (_wait_result_with_ack ref message_id (call_rpc cl s a message_id obj));
      match outcome with
      | Raise _ | Ok TaskFailed => error_500 message_id "INTERNAL_SERVER_ERROR_TIMEOUT"
      | Ok TaskError | Ok TaskOther => error_500 message_id "INTERNAL_SERVER_ERROR"
      | Ok (TaskResponse r) =>
        match rr_transport_error r with
        | Some e => raise (Disconnection (if e =? 0 then None else Some (if 0 <? e then - e else e)))
        | None =>
          (if rr_refresh_auth r then on_world (refresh_auth_maybe ref time true);; on_world (fetch_layer ref)
           else mret tt);;
          mret (Some (rr_obj r))
        end
      end
    end
  end.

(** [_process_request]: [SYSTEM_HANDLERS] by the id of the request, the worker
    for every other one *)
Fixpoint _process_request (c ref message_id : Z) (obj : tlval) : G reply :=
  match obj with
  | VObj id slots =>
    if decide (id = ID_MsgsAck) then
      match slots with [VInts l] => msgs_ack ref l | _ => raise AttributeError end
    else if decide (id = ID_MsgsStateReq) then
      match slots with [VInts l] => msgs_state_req message_id l | _ => raise AttributeError end
    else if decide (id = ID_Ping) then
      match slots with [VInt p] => ping message_id p | _ => raise AttributeError end
    else if decide (id = ID_PingDelayDisconnect) then
      match slots with [VInt p; VInt d] => ping_delay_disconnect c message_id p d | _ => raise AttributeError end
    else if decide (id = ID_InvokeWithLayer) then
      match slots with
      | [VInt l; query] => invoke_with_layer ref l (_process_request c ref message_id query)
      | _ => raise AttributeError end
    else if decide (id = ID_InvokeAfterMsg) then
      match slots with
      | [VInt m; query] => invoke_after_msgs ref message_id [m] (_process_request c ref message_id query)
      | _ => raise AttributeError end
    else if decide (id = ID_InvokeAfterMsgs) then
      match slots with
      | [VInts l; query] => invoke_after_msgs ref message_id l (_process_request c ref message_id query)
      | _ => raise AttributeError end
    else if decide (id = ID_InvokeWithoutUpdates) then
      match slots with
      | [query] => invoke_without_updates ref (_process_request c ref message_id query)
      | _ => raise AttributeError end
    else if decide (id = ID_InitConnection) then
      match slots with
      | [_; VStr dm; VStr sv; VStr av; _; _; _; _; _; query] =>
        init_connection c ref dm sv av (_process_request c ref message_id query)
      | _ => raise AttributeError end
    else if decide (id = ID_DestroySession) then
      match slots with [VInt sid] => destroy_session ref sid | _ => raise AttributeError end
    else if decide (id = ID_RpcDropAnswer) then rpc_drop_answer message_id
    else if decide (id = ID_GetFutureSalts) then
      match slots with [VInt n] => get_future_salts ref message_id n | _ => raise AttributeError end
    else request_task c ref message_id (VObj id slots)
  | _ => raise AttributeError
  end.

Definition mark (ref message_id : Z) : G unit :=
  s ← on_world (session_at ref);
  r ← lift_result (mark_rpc_completed message_id (rpc s));
  on_world (set_session ref (with_rpc r s)).

Definition propagate (c ref message_id : Z) (obj : tlval) : G reply :=
  finally
    (result ← _process_request c ref message_id obj;
     match result with Some r => enqueue ref r true | None => mret tt end;;
     mret result)
    (mark ref message_id).

Fixpoint propagate_all (c ref : Z) (messages : list tlval) : G unit :=
  match messages with
  | [] => mret tt
  | VObj _ [VInt message_id; _; obj] :: messages => propagate c ref message_id obj;; propagate_all c ref messages
  | _ => raise AttributeError
  end.

Definition handle_encrypted_message (c ref message_id : Z) (obj : tlval) : G unit :=
  on_world (refresh_auth_maybe ref time false);;
  match obj with
  | VObj id [VObjs messages] =>
    if decide (id = ID_MsgContainer) then propagate_all c ref messages
    else propagate c ref message_id obj;; mret tt
  | _ => propagate c ref message_id obj;; mret tt
  end.

(** ** Packets *)
Definition _get_auth_data (key : Z) : G AuthData :=
  g ← get;
  match item key (unknown_auth_key_ids g) with
  | Some _ => raise Disconnect404
  | None =>
    match get_auth_data seconds true key (key_tables (world g)) with
    | None => modify (with_unknown (lru_set (Z.to_nat 4096) key tt (unknown_auth_key_ids g)).1);; raise Disconnect404
    | Some a => mret a
    end
  end.

Definition decrypt (packet : EncryptedPacket) (auth_key : bytes) : result DecryptedMessagePacket :=
  match decrypt_packet packet auth_key with
  | Raise ValueError => Raise Disconnect404
  | r => r
  end.

(** [TLObject.read(BytesIO(data))] *)
Definition read (data : bytes) : result tlval := fst <$> value_read objects decompress depth TyObject data.

(** The constructor in the answer to data that cannot be read, for the
    exceptions that are caught *)
Definition unreadable (e : exn) : option Z :=
  match e with
  | StructError | ValueError | UnicodeError => Some 0
  | InvalidConstructor constructor _ | UnknownConstructor constructor _ => Some constructor
  | _ => None
  end.

Definition decimal (z : Z) : string := pretty z.

Definition is_message_bad_answer (ref : Z) (packet : DecryptedMessagePacket) (v : verdict) : G bool :=
  match v with
  | MessageOk => mret false
  | BadMsg code =>
    enqueue ref (VObj ID_BadMsgNotification [VInt (p_message_id packet); VInt (p_seq_no packet); VInt code]) true;;
    mret true
  | BadSalt new_salt =>
    enqueue ref (VObj ID_BadServerSalt [VInt (p_message_id packet); VInt (p_seq_no packet); VInt 48; VInt new_salt]) true;;
    mret true
  end.

(** The key and, when it had to be looked up, the row of it *)
Definition key_of_packet (c key : Z) : G (bytes * option AuthData) :=
  cl ← client_at c;
  match item key (active_keys cl) with
  | Some k => set_client c (with_keys_lru (lru_use key (active_keys cl)) cl);; mret (k, None)
  | None =>
    a ← _get_auth_data key;
    let k := default [] (auth_key a) in
    update_client c (fun cl => with_keys_lru (lru_set 8%nat key k (active_keys cl)).1 cl);;
    mret (k, Some a)
  end.

Definition session_of_packet (c key session_id : Z) (a : option AuthData) : G Z :=
  cached ← _get_cached_session c (key, session_id);
  match cached with
  | Some ref => mret ref
  | None =>
    a ← match a with Some a => mret a | None => _get_auth_data key end;
    ref ← _get_session c session_id a;
    update_salts hmac_sha1 salt_key time ref;;
    mret ref
  end.

Definition announce_session (ref message_id : Z) : G unit :=
  s ← on_world (session_at ref);
  if decide (min_msg_id s = 0) then
    on_world (update_session ref (with_min_msg_id message_id));;
    on_world (fetch_layer ref);;
    s ← on_world (session_at ref);
    n ← lift_result (read_bytes Long (salt (salt_now s)) true);
    enqueue ref (NewSessionCreated message_id (session_id s) n) false
  else mret tt.

(** The encrypted case of [_recv_packet] from the message on *)
Definition recv_message (c ref key : Z) (m : DecryptedMessagePacket) : G unit :=
  let check_salt := negb (bool_decide (take 4 (p_data m) = le_bytes 4 ID_BindTempAuthKey)) in
  s ← on_world (session_at ref);
  v ← lift_result (is_message_bad time m check_salt s);
  bad ← is_message_bad_answer ref m v;
  if (bad : bool) then mret tt
  else
    match read (p_data m) with
    | Raise e =>
      match unreadable e with
      | Some constructor =>
        enqueue ref (RpcResult (p_message_id m)
          (RpcError 400 ("INPUT_METHOD_INVALID_" ++ decimal constructor ++ "_0"))) false
      | None => raise e
      end
    | Ok obj =>
      announce_session ref (p_message_id m);;
      verdict ← _auth_gate c key obj;
      match verdict with
      | GateDrop => mret tt
      | GateUnregistered => _respond_auth_key_unregistered c (p_message_id m) ref key;; raise Disconnect404
      | GateOk => handle_encrypted_message c ref (p_message_id m) obj
      end
    end.

Definition _recv_packet (c : Z) (packet : EncryptedPacket) : G unit :=
  cl ← client_at c;
  let key := e_auth_key_id packet in
  if decide (key ∈ rejected_auth_keys cl) then mret tt
  else
    ka ← key_of_packet c key;
    m ← lift_result (decrypt packet ka.1);
    ref ← session_of_packet c key (p_session_id m) ka.2;
    (if e_needs_quick_ack packet then
       s ← on_world (session_at ref);
       match auth_data s ≫= auth_key with
       | Some k => _write_packet c (PQuickAck k m)
       | None => raise AttributeError
       end
     else mret tt);;
    recv_message c ref key m.
End Gateway.

(** ** Computations that leave the bookkeeping of every session alone *)

(** No session object disappears, its completed messages stay (or are dropped by
    [finalize]), and, for [keys], no key changes. *)
Record calm (keys : bool) (w w' : World) : Prop := {
  calm_heap : forall r s, heap w !! r = Some s -> exists s', heap w' !! r = Some s' /\
    (rpc s' = rpc s \/ rpc s' = no_rpc) /\ (keys = true -> auth_data s' = auth_data s);
  calm_keys : keys = true -> forall t k, is_registered t k (key_tables w') = is_registered t k (key_tables w) }.

Definition calmly {A} (keys : bool) (m : W A) : Prop := forall w, calm keys w (m w).2.

#[export] Instance calm_preorder keys : PreOrder (calm keys).
Proof.
  split.
  - intros w. split; [|done]. intros r s Hs. exists s. auto.
  - intros w1 w2 w3 [H12 K12] [H23 K23]. split.
    + intros r s Hs. destruct (H12 r s Hs) as (s2 & Hs2 & Hr2 & Ha2).
      destruct (H23 r s2 Hs2) as (s3 & Hs3 & Hr3 & Ha3). exists s3. split; [done|]. split.
      * destruct Hr3 as [-> | ->]; [done|by right].
      * intros Hk. by rewrite Ha3, Ha2.
    + intros Hk t k. by rewrite K23, K12.
Qed.

Definition same_books (keys : bool) (s s' : Session) : Prop :=
  (rpc s' = rpc s \/ rpc s' = no_rpc) /\ (keys = true -> auth_data s' = auth_data s).

Lemma calm_eq keys w w' : heap w' = heap w -> key_tables w' = key_tables w -> calm keys w w'.
Proof. intros Hh Hk. split; [|by rewrite Hk]. intros r s Hs. rewrite Hh. exists s. auto. Qed.

Lemma calm_set keys r s s' w w' : heap w !! r = Some s -> same_books keys s s' ->
  heap w' = <[r := s']> (heap w) -> key_tables w' = key_tables w -> calm keys w w'.
Proof.
  intros Hs [Hr Ha] Hh Hk. split; [|by rewrite Hk]. intros r0 s0 Hs0. rewrite Hh.
  destruct (decide (r0 = r)) as [->|Hne].
  - rewrite lookup_insert_eq. exists s'. assert (s0 = s) as -> by congruence. auto.
  - rewrite lookup_insert_ne by done. exists s0. auto.
Qed.

Section Calm.
Context (keys : bool).
Lemma calmly_quiet {A} (m : W A) : (forall w, heap (m w).2 = heap w /\ key_tables (m w).2 = key_tables w) -> calmly keys m.
Proof. intros H w. destruct (H w). by apply calm_eq. Qed.
Lemma calmly_ret {A} (a : A) : calmly keys (mret a).
Proof. by apply calmly_quiet. Qed.
Lemma calmly_raise {A} e : calmly keys (raise (A := A) e).
Proof. by apply calmly_quiet. Qed.
Lemma calmly_lift {A} (r : result A) : calmly keys (lift_result r).
Proof. by apply calmly_quiet. Qed.
Lemma calmly_get : calmly keys get.
Proof. by apply calmly_quiet. Qed.
Lemma calmly_gets {A} (f : World -> A) : calmly keys (gets f).
Proof. by apply calmly_quiet. Qed.
Lemma calmly_broker f : calmly keys (on_broker f).
Proof. by apply calmly_quiet. Qed.
Lemma calmly_leave f : calmly keys (modify (fun w => with_leave_tasks (f w) w)).
Proof. by apply calmly_quiet. Qed.
Lemma calmly_cache f : calmly keys (modify (fun w => with_cache (f w) w)).
Proof. by apply calmly_quiet. Qed.
Lemma calmly_table f : calmly keys (modify (fun w => with_sessions (f w) w)).
Proof. by apply calmly_quiet. Qed.
Lemma calmly_event e : calmly keys (set_event e).
Proof. apply calmly_quiet. by destruct e. Qed.
Lemma calmly_upd_seq a n : calmly keys (modify (persist_upd_seq a n)).
Proof. by apply calmly_quiet. Qed.
Lemma calmly_bind {A B} (m : W A) (f : A -> W B) : calmly keys m -> (forall a, calmly keys (f a)) -> calmly keys (m ≫= f).
Proof.
  intros Hm Hf w. unfold mbind, M_bind. specialize (Hm w). destruct (m w) as [[a|e] w']; [|done].
  simpl in *. transitivity w'; [done|apply Hf].
Qed.

Lemma calmly_session_at r : calmly keys (session_at r).
Proof. apply calmly_quiet. intros w. unfold session_at. by destruct (heap w !! r). Qed.

(** Reading a session and writing it back *)
Lemma calmly_session {A} r (k : Session -> W A) :
  (forall w s, heap w !! r = Some s -> calm keys w (k s w).2) -> calmly keys (s ← session_at r; k s).
Proof.
  intros H w. unfold session_at, mbind, M_bind. destruct (heap w !! r) as [s|] eqn:E; [|done]. by apply H.
Qed.
Lemma calm_set_then {A} r s s' (m : W A) w : heap w !! r = Some s -> same_books keys s s' -> calmly keys m ->
  calm keys w ((set_session r s';; m) w).2.
Proof. intros Hs Hb Hm. etransitivity; [|apply Hm]. by eapply calm_set. Qed.
Lemma calm_set_only r s s' w : heap w !! r = Some s -> same_books keys s s' -> calm keys w (set_session r s' w).2.
Proof. intros Hs Hb. by eapply calm_set. Qed.
Lemma calm_bind_at {A B} (m : W A) (f : A -> W B) w :
  calm keys w (m w).2 -> (forall a, calmly keys (f a)) -> calm keys w ((m ≫= f) w).2.
Proof.
  intros Hm Hf. unfold mbind, M_bind. destruct (m w) as [[a|e] w']; [|done].
  etransitivity; [exact Hm|apply Hf].
Qed.
Lemma calm_get_at {A} (f : World -> W A) w : calm keys w (f w w).2 -> calm keys w ((get ≫= f) w).2.
Proof. done. Qed.
Lemma calmly_update r f : (forall s, same_books keys s (f s)) -> calmly keys (update_session r f).
Proof. intros Hf. apply calmly_session. intros w s Hs. by eapply calm_set_only. Qed.
End Calm.

Lemma same_books_refl keys s s' : rpc s' = rpc s -> auth_data s' = auth_data s -> same_books keys s s'.
Proof. intros H1 H2. unfold same_books. auto. Qed.
Lemma same_books_finalize keys s : same_books keys s (session_finalize s).
Proof. split; [by right|done]. Qed.
#[export] Hint Resolve calmly_ret calmly_raise calmly_lift calmly_get calmly_gets calmly_broker calmly_leave
  calmly_cache calmly_table calmly_event calmly_upd_seq
  calmly_session_at same_books_refl same_books_finalize : py.
#[export] Hint Extern 1 (same_books _ _ _) => by apply same_books_refl : py.

(** Walks through a computation on [World], following its shape. *)
Ltac calm := cbv zeta beta; lazymatch goal with
  | |- calmly _ (mbind _ (session_at _)) => apply calmly_session; intros; calm_at
  | |- calmly _ (mbind _ _) => first [ solve [auto with py] | apply calmly_bind; [calm|intros; calm] ]
  | |- calmly _ (update_session _ _) => apply calmly_update; intros; solve [auto with py]
  | |- _ => first [ solve [auto with py] | case_match; calm ]
  end
with calm_at := cbv zeta beta; lazymatch goal with
  | |- calm _ _ (mbind _ (set_session _ _) _).2 => eapply calm_set_then; [eassumption|solve [auto with py]|calm]
  | |- calm _ _ (set_session _ _ _).2 => eapply calm_set_only; [eassumption|solve [auto with py]]
  | |- calm _ _ (mbind _ get _).2 => apply calm_get_at; calm_at
  | |- calm _ _ (mbind _ _ _).2 => apply calm_bind_at; [calm_at|intros; calm]
  | |- calm ?k ?w (?m ?w).2 => first
      [ let H := fresh in assert (H : calmly k m) by calm; apply H | case_match; calm_at ]
  | |- _ => case_match; calm_at
  end.

Lemma calmly_disconnect keys r : calmly keys (disconnect r).
Proof. unfold disconnect, schedule_leave. calm. Qed.
Lemma calmly_connect keys r c : calmly keys (connect r c).
Proof. unfold connect, cancel_leave. calm. Qed.
Lemma calmly_next_upd_seq keys r : calmly keys (next_upd_seq r).
Proof.
  unfold next_upd_seq. apply calmly_session. intros w s Hs. destruct (auth_id (auth s)); [|reflexivity].
  etransitivity; [|reflexivity]. cbn. eapply (calm_set keys r s); [done| |done|done]. auto with py.
Qed.
#[export] Hint Resolve calmly_disconnect calmly_connect calmly_next_upd_seq : py.
Lemma calmly_enqueue keys objects CV write r t obj values b :
  calmly keys (SessionManager.enqueue objects CV write r t obj values b).
Proof. unfold SessionManager.enqueue. calm. Qed.
Lemma calmly_finalize keys r : calmly keys (finalize r).
Proof. unfold finalize, schedule_leave. calm. Qed.
#[export] Hint Resolve calmly_enqueue calmly_finalize : py.

(** A refresh changes no bookkeeping but may change the key data. *)
Lemma calmly_reset_auth r keys : calmly keys (reset_auth r).
Proof.
  unfold reset_auth. apply calmly_session. intros w s Hs. cbv zeta. unfold on_broker, modify, set_session.
  unfold mbind, M_bind. eapply (calm_set keys r s); [done| |done|done]. by apply same_books_refl.
Qed.
Lemma calmly_refresh_channels r t keys : calmly keys (refresh_channels r t).
Proof.
  unfold refresh_channels. apply calmly_session. intros w s Hs. cbv zeta.
  destruct (auth_id (auth s)), (user_id (auth s)) as [u|]; try reflexivity. destruct (_ && _); [|reflexivity].
  destruct (load_channels_spec t u w) as (l & w1 & Hl & Hh & _ & Ho). rewrite (M_bind_step _ _ _ _ _ Hl).
  unfold on_broker, modify, set_session. unfold mbind, M_bind. simpl.
  eapply (calm_set keys r s); [done| |cbn; by rewrite Hh|cbn; apply Ho]. by apply same_books_refl.
Qed.
Lemma calmly_resubscribe r u a keys : calmly keys (resubscribe r u a).
Proof. unfold resubscribe. calm. Qed.
#[export] Hint Resolve calmly_reset_auth calmly_refresh_channels calmly_resubscribe : py.
Lemma calmly_refresh_auth r t f keys : calmly keys (refresh_auth r t f).
Proof.
  unfold refresh_auth. calm.
Qed.
Lemma calmly_refresh r t f : calmly false (refresh_auth_maybe r t f).
Proof.
  unfold refresh_auth_maybe. apply calmly_session. intros w s Hs. destruct (auth_data s) as [d|]; [|reflexivity].
  apply calm_bind_at; [|intros; apply calmly_refresh_auth]. destruct (auth_key_id d); [|reflexivity].
  destruct f; [|reflexivity]. apply calm_get_at. eapply (calm_set false); [done| |done|done]. split; [by left|done].
Qed.
Lemma calmly_fetch_layer ml r keys : calmly keys (fetch_layer ml r).
Proof. unfold fetch_layer. calm. Qed.
Lemma calmly_get_or_create f sid c a keys w : heap w !! f = None -> calm keys w (get_or_create f sid c a w).2.
Proof.
  intros Hf. unfold get_or_create. apply calm_get_at. destruct (_ ≫= _); [reflexivity|].
  assert (calm keys w (with_heap (<[f := new_Session sid (Some c) (Some a)]> (heap w)) w)) as Hc.
  { split; [|done]. intros r s Hs. exists s. split; [|auto]. cbn. rewrite lookup_insert_ne; [done|congruence]. }
  etransitivity; [exact Hc|]. unfold set_session, modify. unfold mbind, M_bind, mret, M_ret. cbn.
  by destruct (auth_key_id a); apply calm_eq.
Qed.

(** ** What the processing of a request preserves, and does not depend on *)
Section Booked.
Context {LR : Lru} (objects : Z -> option Combinator) (ContextValues : Type)
  (write : SerializationContext ContextValues -> tlval -> result bytes)
  (resolve : World -> tlval -> option ContextValues)
  (hmac_sha1 : bytes -> bytes -> bytes) (salt_key : bytes) (max_layer : Z)
  (run_task run_task' : CallRpc -> W (bool * task_result)) (other_tasks : Z -> W bool) (time : Z).

(** The session object of a request is there and well formed; with [keys],
    its key is [k], which is not registered. *)
Definition booked (keys : bool) (ref k : Z) (g : Gw) : Prop := exists s,
  heap (world g) !! ref = Some s /\ rpc_wf (rpc s) /\
  (keys = true -> auth_data s ≫= auth_key_id = Some k /\ is_registered (seconds time) k (key_tables (world g)) = false).

(** Two computations that are the same where [P] holds and preserve it *)
Definition alike {A} (P : Gw -> Prop) (m m' : G A) : Prop := forall g, P g -> m g = m' g /\ P (m g).2.

Lemma rpc_wf_no_rpc : rpc_wf no_rpc.
Proof. split; [apply NoDup_nil_2|]. split; [done|]. split; [simpl; lia|]. intros m Hm. by apply elem_of_empty in Hm. Qed.

Section Alike.
Context (P : Gw -> Prop).
Lemma alike_preserves {A} (m : G A) : preserves P m -> alike P m m.
Proof. intros H g Hg. auto. Qed.
Lemma alike_bind {A B} (m m' : G A) (f f' : A -> G B) :
  alike P m m' -> (forall a, alike P (f a) (f' a)) -> alike P (m ≫= f) (m' ≫= f').
Proof.
  intros Hm Hf g Hg. destruct (Hm g Hg) as [He Hp]. unfold mbind, M_bind. rewrite <- He.
  destruct (m g) as [[a|e] g']; [|done]. by apply Hf.
Qed.
Lemma alike_attempt {A} (m m' : G A) : alike P m m' -> alike P (attempt m) (attempt m').
Proof. intros H g Hg. destruct (H g Hg) as [He Hp]. unfold attempt. rewrite <- He. by destruct (m g). Qed.
End Alike.

Context (keys : bool) (ref k : Z).
#[local] Abbreviation Inv := (booked keys ref k).

Lemma booked_calm {A} (m : W A) : calmly keys m -> preserves Inv (on_world m).
Proof.
  intros Hm g (s & Hs & Hwf & Hk). unfold on_world. specialize (Hm (world g)).
  destruct (m (world g)) as [r w']. cbn [snd] in *. destruct Hm as [Hh Hkeys].
  destruct (Hh _ _ Hs) as (s' & Hs' & Hr & Ha). exists s'. split; [done|]. split.
  - destruct Hr as [-> | ->]; [done|apply rpc_wf_no_rpc].
  - intros Ht. cbn. rewrite Ha, Hkeys by done. by apply Hk.
Qed.
Lemma booked_client c : preserves Inv (client_at c).
Proof. intros g H. unfold client_at. by destruct (clients g !! c). Qed.
Lemma booked_set_client c cl : preserves Inv (set_client c cl).
Proof. apply preserves_modify. intros g (s & H). by exists s. Qed.
Lemma booked_modify f : (forall g, world (f g) = world g) -> preserves Inv (modify f).
Proof. intros Hf. apply preserves_modify. intros g (s & H). exists s. by rewrite Hf. Qed.
Lemma booked_update_client c f : preserves Inv (update_client c f).
Proof. apply preserves_bind; [apply booked_client|]. intros cl. apply booked_set_client. Qed.
Lemma booked_session r : preserves Inv (on_world (session_at r)).
Proof. apply booked_calm, calmly_session_at. Qed.
Lemma booked_update r f : (forall s, same_books keys s (f s)) -> preserves Inv (on_world (update_session r f)).
Proof. intros Hf. by apply booked_calm, calmly_update. Qed.
Lemma booked_enqueue r obj b : preserves Inv (enqueue objects ContextValues write resolve time r obj b).
Proof. intros g H. apply booked_calm; [apply calmly_enqueue|done]. Qed.
Lemma booked_drop c kk r : preserves Inv (_drop_auth_key c kk r).
Proof.
  apply preserves_bind; [apply booked_session|]. intros s.
  apply preserves_bind; [apply booked_update_client|]. intros _. apply booked_calm, calmly_disconnect.
Qed.
Lemma booked_respond c m r kk :
  preserves Inv (_respond_auth_key_unregistered objects ContextValues write resolve time c m r kk).
Proof.
  apply preserves_bind; [apply booked_client|]. intros cl. case_decide; [apply preserves_ret|].
  apply preserves_bind; [apply booked_set_client|]. intros _.
  apply preserves_bind; [apply booked_enqueue|]. intros _. apply booked_drop.
Qed.
Lemma booked_gate c kk obj : preserves Inv (_auth_gate time c kk obj).
Proof.
  apply preserves_bind; [apply booked_client|]. intros cl. apply preserves_bind; [apply preserves_gets|].
  intros w. apply preserves_ret.
Qed.

#[local] Hint Resolve preserves_ret preserves_raise preserves_lift preserves_gets booked_client booked_set_client
  booked_update_client booked_session booked_enqueue booked_respond booked_gate : core.

Lemma calmly_update_layer perm l b : calmly b (update_layer perm l).
Proof.
  intros w. split; [intros r s Hs; exists s; auto|]. intros _ t i. unfold is_registered, get_auth_data. cbn.
  apply bool_decide_ext. destruct perm as [p|]; [|done].
  destruct (decide (p = i)) as [->|Hne]; [rewrite lookup_alter_eq|by rewrite lookup_alter_ne].
  by destruct (AuthKey (key_tables w) !! i).
Qed.

Lemma wait_for_rpc_wf m r : rpc_wf r -> rpc_wf (wait_for_rpc m r).2.
Proof.
  intros (H1 & H2 & H3 & H4). unfold wait_for_rpc. case_decide as Hm; [done|].
  destruct (rpc_completions r !! m) eqn:E; [done|]. split; [done|]. split; [done|]. split; [done|].
  intros m' Hm'. cbn in *. rewrite lookup_insert_ne by (intros <-; done). by apply H4.
Qed.

Hypothesis Hother : forall m, preserves Inv (on_world (other_tasks m)).

Lemma booked_wait l : preserves Inv (_wait_for_invoke_after other_tasks ref l).
Proof using Hother.
  induction l as [|m l IH]; cbn [_wait_for_invoke_after]; [apply preserves_ret|].
  intros g (s & Hs & Hwf & Hk). erewrite M_bind_step; [|by apply on_session].
  pose proof (wait_for_rpc_wf m _ Hwf) as Hwf'. destruct (wait_for_rpc m (rpc s)) as [done r]. cbn [snd] in Hwf'.
  erewrite M_bind_step; [|reflexivity].
  set (g1 := with_world _ g). assert (Inv g1) as H1.
  { exists (with_rpc r s). split; [apply lookup_insert_eq|]. split; [done|]. exact Hk. }
  revert g1 H1. apply preserves_bind; [by destruct done|]. intros [|]; [exact IH|apply preserves_ret].
Qed.

Lemma booked_invoke_after mid l (inner inner' : G reply) : alike Inv inner inner' ->
  alike Inv (invoke_after_msgs other_tasks ref mid l inner) (invoke_after_msgs other_tasks ref mid l inner').
Proof using Hother.
  intros H. apply alike_bind; [apply alike_preserves, booked_wait|]. intros [|]; [done|].
  apply alike_preserves, preserves_ret.
Qed.

Lemma booked_with_layer l (inner inner' : G reply) : alike Inv inner inner' ->
  alike Inv (invoke_with_layer max_layer ref l inner) (invoke_with_layer max_layer ref l inner').
Proof.
  intros H. apply alike_bind; [by apply alike_preserves|]. intros s. cbv zeta.
  apply alike_bind; [apply alike_preserves|intros _].
  { case_decide; [apply preserves_ret|]. destruct (auth_data s); [|apply preserves_raise].
    apply booked_calm, calmly_update_layer. }
  apply alike_bind; [|done]. apply alike_preserves, booked_update. auto with py.
Qed.

Lemma booked_without_updates (inner inner' : G reply) : alike Inv inner inner' ->
  alike Inv (invoke_without_updates ref inner) (invoke_without_updates ref inner').
Proof.
  intros H. apply alike_bind; [|done]. apply alike_preserves, booked_update. auto with py.
Qed.

Lemma booked_init_connection c dm sv av (inner inner' : G reply) : alike Inv inner inner' ->
  alike Inv (init_connection c ref dm sv av inner) (init_connection c ref dm sv av inner').
Proof.
  intros H. apply alike_bind; [by apply alike_preserves|]. intros s.
  apply alike_bind; [apply alike_preserves|done]. destruct (auth_id (auth s)); [|apply preserves_ret].
  destruct (_ && _); [|apply preserves_ret].
  apply preserves_bind; [apply booked_update; auto with py|intros _].
  apply preserves_bind; [auto|intros cl]. apply preserves_bind; [by intros g'|]. intros g.
  destruct (existsb _ _); [by apply booked_modify|apply preserves_ret].
Qed.

(** The gate of an unregistered key never opens. *)
Lemma gate_unregistered c obj g : keys = true -> Inv g ->
  _auth_gate time c k obj g = (Raise AssertionError, g) \/
  exists v, _auth_gate time c k obj g = (Ok v, g) /\ v <> GateOk.
Proof.
  intros Hkeys (s & _ & _ & Hk). destruct (Hk Hkeys) as [_ Hreg]. unfold _auth_gate, client_at.
  destruct (clients g !! c) as [cl|] eqn:Ec; [right|left; unfold mbind, M_bind; by rewrite Ec].
  unfold mbind at 1, M_bind at 1. rewrite Ec. eexists. split; [reflexivity|]. rewrite Hreg. by case_decide.
Qed.

Lemma booked_response r : keys = false -> preserves Inv
  (match rr_transport_error r with
   | Some e => raise (Disconnection (if e =? 0 then None else Some (if 0 <? e then - e else e)))
   | None =>
     (if rr_refresh_auth r then on_world (refresh_auth_maybe ref time true);; on_world (fetch_layer max_layer ref)
      else mret tt);; mret (Some (rr_obj r))
   end : G reply).
Proof.
  intros Hkeys. destruct (rr_transport_error r); [apply preserves_raise|].
  apply preserves_bind; [|intros _; apply preserves_ret]. destruct (rr_refresh_auth r); [|apply preserves_ret].
  apply preserves_bind; [|intros _; apply booked_calm, calmly_fetch_layer].
  apply booked_calm. rewrite Hkeys. apply calmly_refresh.
Qed.

Lemma booked_task c mid obj :
  (keys = false -> forall call, run_task call = run_task' call /\ preserves Inv (on_world (run_task call))) ->
  alike Inv (request_task objects ContextValues write resolve max_layer run_task time c ref mid obj)
    (request_task objects ContextValues write resolve max_layer run_task' time c ref mid obj).
Proof.
  intros Ht. destruct (Bool.bool_dec keys true) as [Hkeys|Hkeys%not_true_is_false].
  - intros g Hg. pose proof Hg as (s & Hs & Hwf & Hk). destruct (Hk Hkeys) as [Ha _]. unfold request_task.
    rewrite !(M_bind_step _ _ g s g) by (by apply on_session).
    destruct (auth_data s) as [a|]; [|done]. cbn in Ha. rewrite Ha. cbn [default].
    destruct (gate_unregistered c obj g Hkeys Hg) as [He|(v & He & Hv)].
    + by rewrite !(M_bind_raise _ _ _ _ _ He).
    + rewrite !(M_bind_step _ _ _ _ _ He). destruct v; [done|by split|]. split; [done|]. revert Hg.
      apply preserves_bind; [apply booked_respond|]. intros _. apply preserves_raise.
  - specialize (Ht Hkeys). unfold request_task.
    apply alike_bind; [by apply alike_preserves|]. intros s. destruct (auth_data s) as [a|]; [|by apply alike_preserves].
    apply alike_bind; [by apply alike_preserves|]. intros [| |].
    + apply alike_bind; [by apply alike_preserves|]. intros cl. apply alike_bind.
      * apply alike_attempt, alike_bind; [|intros r; apply alike_preserves].
        { destruct (Ht (call_rpc cl s a mid obj)) as [He Hp]. intros g Hg. unfold on_world. rewrite <- He.
          split; [done|]. by apply Hp. }
        apply preserves_bind; [destruct r.1; auto|]. intros _. apply preserves_ret.
      * intros [[| | |r]|e]; apply alike_preserves; [apply preserves_ret..|by apply booked_response|apply preserves_ret].
    + by apply alike_preserves.
    + apply alike_preserves, preserves_bind; [apply booked_respond|]. intros _. apply preserves_raise.
Qed.

Lemma booked_ack l : preserves Inv (msgs_ack ref l).
Proof.
  apply preserves_bind; [|intros _; apply preserves_ret]. apply booked_update. intros s. auto with py.
Qed.
Lemma booked_ping_delay c mid p d : preserves Inv (ping_delay_disconnect time c mid p d).
Proof. apply preserves_bind; [destruct (_ <? _); auto|]. intros _. apply preserves_ret. Qed.
Lemma booked_destroy sid : preserves Inv (destroy_session ref sid).
Proof.
  apply preserves_bind; [auto|]. intros s. apply preserves_bind; [|intros _; apply preserves_ret].
  destruct (_ ≫= _); [|apply preserves_ret]. apply preserves_bind; [apply preserves_gets|].
  intros [r|]; [|apply preserves_ret]. apply booked_calm, calmly_finalize.
Qed.
Lemma booked_future_salts mid n : preserves Inv (get_future_salts hmac_sha1 salt_key time ref mid n).
Proof.
  apply preserves_bind; [auto|]. intros s. destruct (auth_data s) as [a|]; [|apply preserves_raise].
  destruct (auth_key_id a); [|apply preserves_raise].
  apply preserves_bind; [apply preserves_lift|]. intros l. apply preserves_ret.
Qed.

(** The same for a whole request, by induction on its wrappers *)
Lemma booked_request c mid :
  (keys = false -> forall call, run_task call = run_task' call /\ preserves Inv (on_world (run_task call))) ->
  forall obj, alike Inv
    (_process_request objects ContextValues write resolve hmac_sha1 salt_key max_layer run_task other_tasks time c ref mid obj)
    (_process_request objects ContextValues write resolve hmac_sha1 salt_key max_layer run_task' other_tasks time c ref mid obj).
Proof using Hother.
  intros Ht. assert (Hraise : forall e, alike Inv (raise e : G reply) (raise e)) by (intros; apply alike_preserves, preserves_raise).
  fix IH 1. intros obj. destruct obj as [| | | | | | | | | | | |id slots|]; cbn [_process_request];
    [apply Hraise..| |apply Hraise].
  case_decide. { destruct slots as [|[] [|]]; try apply Hraise. apply alike_preserves, booked_ack. }
  case_decide. { destruct slots as [|[] [|]]; try apply Hraise. apply alike_preserves, preserves_ret. }
  case_decide. { destruct slots as [|[] [|]]; try apply Hraise. apply alike_preserves, preserves_ret. }
  case_decide. { destruct slots as [|[] [|[] [|]]]; try apply Hraise. apply alike_preserves, booked_ping_delay. }
  case_decide. { destruct slots as [|[] [|query [|]]]; try apply Hraise. apply booked_with_layer, IH. }
  case_decide. { destruct slots as [|[] [|query [|]]]; try apply Hraise. apply booked_invoke_after, IH. }
  case_decide. { destruct slots as [|[] [|query [|]]]; try apply Hraise. apply booked_invoke_after, IH. }
  case_decide. { destruct slots as [|query [|]]; try apply Hraise. apply booked_without_updates, IH. }
  case_decide. { destruct slots as [|? [|[] [|[] [|[] [|? [|? [|? [|? [|? [|query [|]]]]]]]]]]]; try apply Hraise.
    apply booked_init_connection, IH. }
  case_decide. { destruct slots as [|[] [|]]; try apply Hraise. apply alike_preserves, booked_destroy. }
  case_decide. { apply alike_preserves, preserves_ret. }
  case_decide. { destruct slots as [|[] [|]]; try apply Hraise. apply alike_preserves, booked_future_salts. }
  by apply booked_task.
Qed.

End Booked.

(** A completed message is recorded in the session that is there. *)
Definition with_session (ref : Z) (s : Session) (g : Gw) : Gw :=
  with_world (with_heap (<[ref := s]> (heap (world g))) (world g)) g.

Lemma mark_run ref mid g s : heap (world g) !! ref = Some s -> rpc_wf (rpc s) -> exists r,
  mark ref mid g = (Ok tt, with_session ref (with_rpc r s) g) /\ rpc_wf r /\ mid ∈ rpc_completed_ids r.
Proof.
  intros Hs Hwf. destruct (mark_rpc_spec mid _ Hwf) as (r & Hr & Hwf' & Ho & _). exists r. split.
  - unfold mark. erewrite M_bind_step; [|by apply on_session].
    erewrite M_bind_step; [|unfold lift_result; rewrite Hr; reflexivity]. done.
  - split; [done|]. destruct Hwf' as (_ & <- & _). apply elem_of_list_to_set. rewrite Ho. apply mark_order_here.
Qed.

(** ** Queueing an answer *)
Definition plain (obj : tlval) : Prop :=
  (forall objects l, prepare_outbound_obj objects l obj = Ok obj) /\
  match obj with VObj id _ => id <> ID_NeedsContextValues /\ id <> ID_Updates | _ => False end.

Lemma enqueue_run objects CV write resolve time ref obj b s g : plain obj ->
  (forall ctx, exists data, write ctx obj = Ok data) -> heap (world g) !! ref = Some s ->
  exists g' mid seq data,
    enqueue objects CV write resolve time ref obj b g = (Ok tt, g') /\
    heap (world g') !! ref = Some (with_out (enqueue_message (mid, seq, data)
      (pack_message time obj b (out s)).2) s) /\
    (forall r, r <> ref -> heap (world g') !! r = heap (world g) !! r) /\
    clients g' = clients g /\ sessions (world g') = sessions (world g) /\
    key_tables (world g') = key_tables (world g) /\ broker (world g') = broker (world g) /\
    user_authorizations (world g') = user_authorizations (world g).
Proof.
  intros [Hp Ho] Hw Hs. destruct obj as [| | | | | | | | | | | |id slots|]; try done. destruct Ho as [Hn Hu].
  destruct (Hw (MkContext CV (auth_id (auth s)) (user_id (auth s)) (layer s) (resolve (world g) (VObj id slots)))) as [data Hd].
  unfold enqueue, on_world, SessionManager.enqueue.
  rewrite (M_bind_step _ _ _ _ _ (session_at_eq _ _ _ Hs)).
  rewrite (M_bind_step _ _ (world g) (VObj id slots) (world g)) by (unfold lift_result; by rewrite Hp).
  cbv zeta. assert ((match VObj id slots with
     | VObj id (o :: _) => if decide (id = ID_NeedsContextValues) then o else VObj id slots
     | _ => VObj id slots end) = VObj id slots) as -> by (destruct slots; [done|by rewrite decide_False]).
  rewrite (M_bind_step _ _ (world g) (VObj id slots) (world g)) by (rewrite decide_False; [done|by intros [? _]]).
  rewrite (M_bind_step _ _ _ _ _ (session_at_eq _ _ _ Hs)).
  destruct (pack_message time (VObj id slots) b (out s)) as [[[mid seq] o'] o] eqn:Ep.
  unfold set_session at 1, modify at 1. unfold mbind at 1, M_bind at 1. cbv beta iota.
  unfold lift_result. rewrite Hd. unfold mbind at 1, M_bind at 1. cbv beta iota.
  unfold update_session, mbind, M_bind, session_at. cbn [heap with_heap]. rewrite lookup_insert_eq.
  unfold set_session, modify, set_event.
  destruct (message_available s) as [e|]; eexists _, mid, seq, data; (split; [reflexivity|]); cbn;
    (split; [by rewrite lookup_insert_eq|]); (split; [intros r Hr; by rewrite !lookup_insert_ne|]); done.
Qed.

Lemma plain_result mid id slots : plain (RpcResult mid (VObj id slots)).
Proof. by split. Qed.

Lemma item_del {K V} `{EqDecision K} (k : K) (l : list (K * V)) : item k (del_item k l) = None.
Proof.
  induction l as [|[k' v] l IH]; [done|]. unfold del_item in *. destruct (decide (k' = k)) as [->|Hne].
  - rewrite filter_cons_False; [done|]. intros H. by apply H.
  - rewrite filter_cons_True by done. cbn [item]. by rewrite decide_False.
Qed.

Lemma update_client_run c f cl g : clients g !! c = Some cl ->
  update_client c f g = (Ok tt, with_clients (<[c := f cl]> (clients g)) g).
Proof. intros H. unfold update_client, client_at, set_client, modify, mbind, M_bind. by rewrite H. Qed.

(** What is left of a key after the answer that it is not registered *)
Lemma respond_run objects CV write resolve time c mid ref k cl s g :
  (forall ctx, exists data, write ctx (_auth_key_unregistered_result mid) = Ok data) ->
  clients g !! c = Some cl -> k ∉ rejected_auth_keys cl -> heap (world g) !! ref = Some s ->
  exists g' cl' s' m, _respond_auth_key_unregistered objects CV write resolve time c mid ref k g = (Ok tt, g') /\
    clients g' !! c = Some cl' /\ rejected_auth_keys cl' = {[k]} ∪ rejected_auth_keys cl /\
    item k (active_keys cl') = None /\ item (uniq_id s) (active_sessions cl') = None /\
    heap (world g') !! ref = Some s' /\ client s' = None /\ message_queue (out s') = message_queue (out s) ++ [m].
Proof.
  intros Hw Hc Hk Hs. unfold _respond_auth_key_unregistered.
  erewrite (M_bind_step _ _ g cl g); [|unfold client_at; by rewrite Hc]. rewrite decide_False by done.
  set (cl1 := with_rejected ({[k]} ∪ rejected_auth_keys cl) cl).
  set (g1 := with_clients (<[c := cl1]> (clients g)) g).
  rewrite (M_bind_step _ _ g tt g1) by reflexivity.
  destruct (enqueue_run objects CV write resolve time ref (_auth_key_unregistered_result mid) true s g1)
    as (g2 & id & seq & data & He & Hs2 & _ & Hcl2 & _); [apply plain_result|done|done|].
  rewrite (M_bind_step _ _ _ _ _ He). unfold _drop_auth_key.
  set (s2 := with_out _ s) in Hs2. erewrite M_bind_step; [|by apply on_session].
  assert (Hc2 : clients g2 !! c = Some cl1) by (rewrite Hcl2; apply lookup_insert_eq).
  erewrite M_bind_step; [|by apply update_client_run]. cbv beta.
  set (cl3 := with_sessions_lru _ _). set (g3 := with_clients _ g2).
  destruct (disconnect_run ref s2 (world g3) Hs2) as (w' & cleanup & Hd & Hs3 & Hclean).
  eexists (with_world w' g3), cl3, _, (id, seq, data). split; [unfold on_world; by rewrite Hd|].
  split; [apply lookup_insert_eq|]. split; [done|]. split; [apply item_del|].
  split; [exact (item_del (uniq_id s) (active_sessions cl))|]. split; [exact Hs3|].
  destruct Hclean as [-> | ->]; (split; [done|]); cbn; unfold pack_message;
    by destruct (get_outgoing_seq_no _ _).
Qed.

(** ** Properties of the processing of requests *)
Section Requests.
Context {LR : Lru} (objects : Z -> option Combinator) (ContextValues : Type)
  (write : SerializationContext ContextValues -> tlval -> result bytes)
  (resolve : World -> tlval -> option ContextValues)
  (hmac_sha1 : bytes -> bytes -> bytes) (salt_key : bytes) (max_layer : Z).
#[local] Abbreviation process run_task other_tasks time := (_process_request objects ContextValues write resolve
  hmac_sha1 salt_key max_layer run_task other_tasks time).
#[local] Abbreviation propagate_with run_task other_tasks time := (propagate objects ContextValues write resolve
  hmac_sha1 salt_key max_layer run_task other_tasks time).

(** C10: every request is completed. Whatever the worker answers and whatever other tasks do, and also when
    processing it or queueing its answer raises, a request ends as a completed message of its session, whose
    records stay well formed; from then on an [invokeAfterMsg] that names it is processed exactly
    as the query in it, without waiting. *)
Theorem request_completed run_task other_tasks time c ref mid obj g :
  booked time false ref 0 g ->
  (forall call, preserves (booked time false ref 0) (on_world (run_task call))) ->
  (forall m, preserves (booked time false ref 0) (on_world (other_tasks m))) ->
  exists r g' s', propagate_with run_task other_tasks time c ref mid obj g = (r, g') /\
    heap (world g') !! ref = Some s' /\ rpc_wf (rpc s') /\ mid ∈ rpc_completed_ids (rpc s') /\
    forall mid' query,
      process run_task other_tasks time c ref mid' (VObj ID_InvokeAfterMsg [VInt mid; query]) g'
      = process run_task other_tasks time c ref mid' query g'.
Proof.
  intros Hg Ht Ho. unfold propagate.
  set (body := result ← _; _). assert (preserves (booked time false ref 0) body) as Hbody.
  { apply preserves_bind.
    - intros g0 H0. apply (booked_request objects ContextValues write resolve hmac_sha1 salt_key max_layer run_task run_task
        other_tasks time false ref 0 Ho c mid (fun _ call => conj eq_refl (Ht call)) obj g0 H0).
    - intros r. apply preserves_bind; [|intros _; apply preserves_ret].
      destruct r; [apply booked_enqueue|apply preserves_ret]. }
  specialize (Hbody g Hg). unfold finally. destruct (body g) as [r g1]. cbn [snd] in Hbody.
  destruct Hbody as (s1 & Hs1 & Hwf1 & _). destruct (mark_run ref mid g1 s1 Hs1 Hwf1) as (tr & Hm & Hwf & Hin).
  rewrite Hm. set (g' := with_session ref (with_rpc tr s1) g1). set (s' := with_rpc tr s1).
  assert (Hs' : heap (world g') !! ref = Some s') by apply lookup_insert_eq.
  exists r, g', s'. split; [done|]. split; [done|]. split; [done|]. split; [done|]. intros mid' query.
  cbn [_process_request]. repeat (rewrite decide_False by (vm_compute; discriminate)). rewrite decide_True by done.
  assert (Hwait : _wait_for_invoke_after other_tasks ref [mid] g' = (Ok true, g')).
  { cbn [_wait_for_invoke_after]. erewrite M_bind_step; [|by apply on_session].
    unfold wait_for_rpc. rewrite decide_True by done. unfold on_world, set_session, modify, mbind, M_bind, mret, M_ret.
    assert (with_rpc (rpc s') s' = s') as -> by (by destruct s1). rewrite insert_id by done.
    by rewrite with_heap_id, with_world_id. }
  unfold invoke_after_msgs. by erewrite M_bind_step; [|exact Hwait].
Qed.


(** A session that destroys itself. [destroy_session] with the id of the very session it is sent in takes
    the session out of the manager and drops its client, but the connection still lists it;
    the answer is queued for it, and from then on the send loop of the connection, once it runs, never ends. *)
Theorem destroy_own_session run_task other_tasks time c ref mid k cl s g :
  heap (world g) !! ref = Some s -> session_key s = Some k -> sessions (world g) !! (k, session_id s) = Some ref ->
  clients g !! c = Some cl -> ref ∈ _outbound_sessions cl ->
  (forall ctx, exists data, write ctx (VObj ID_DestroySessionOk [VInt (session_id s)]) = Ok data) ->
  exists g', propagate_with run_task other_tasks time c ref mid (VObj ID_DestroySession [VInt (session_id s)]) g
      = (Ok (Some (VObj ID_DestroySessionOk [VInt (session_id s)])), g') /\
    sessions (world g') !! (k, session_id s) = None /\ stranded c ref g' /\
    forall time' fuel, is_ok (flush_pending hmac_sha1 salt_key time' fuel c g').1 = false.
Proof.
  intros Hs Hkey Hst Hc Hr Hw. pose proof Hkey as Hk. unfold session_key in Hk. destruct (finalize_spec ref (world g) s k Hs Hkey) as (w1 & Hf & Hs1 & Hse & _).
  set (g1 := with_world w1 g).
  assert (Hd : process run_task other_tasks time c ref mid (VObj ID_DestroySession [VInt (session_id s)]) g
    = (Ok (Some (VObj ID_DestroySessionOk [VInt (session_id s)])), g1)).
  { cbn [_process_request]. repeat (rewrite decide_False by (vm_compute; discriminate)). rewrite decide_True by done.
    unfold destroy_session. erewrite M_bind_step; [|by apply on_session]. rewrite Hk.
    erewrite (M_bind_step _ _ g tt g1); [done|]. erewrite M_bind_step; [|reflexivity]. rewrite Hst.
    unfold on_world. by rewrite Hf. }
  destruct (enqueue_run objects ContextValues write resolve time ref (VObj ID_DestroySessionOk [VInt (session_id s)])
    true (session_finalize s) g1) as (g2 & id & seq & data & He & Hs2 & _ & Hc2 & Hse2 & _); [by split|done|done|].
  set (s2 := with_out _ _) in Hs2.
  destruct (mark_run ref mid g2 s2 Hs2 rpc_wf_no_rpc) as (r & Hm & _ & _).
  exists (with_session ref (with_rpc r s2) g2).
  assert (Hstr : stranded c ref (with_session ref (with_rpc r s2) g2)).
  { split.
    - exists (with_rpc r s2). split; [apply lookup_insert_eq|]. split; [done|].
      unfold queued. unfold s2. cbn. by destruct (get_outgoing_seq_no _ _).
    - exists cl. split; [|done]. change (clients g2 !! c = Some cl). by rewrite Hc2. }
  split; [|split; [|split; [done|]]].
  - unfold propagate, finally. erewrite M_bind_step; [|exact Hd]. erewrite M_bind_step; [|exact He].
    unfold mret, M_ret. by rewrite Hm.
  - cbn. rewrite Hse2. cbn. rewrite Hse. apply lookup_delete_eq.
  - intros t fuel. by apply (stranded_forever _ _ _ _ ref).
Qed.
End Requests.

(** ** Future salts *)
Section FutureSalts.
Context (hmac_sha1 : bytes -> bytes -> bytes) (salt_key : bytes).
Context (Hlen : forall key msg, length (hmac_sha1 key msg) = 20%nat).

Lemma make_salt_ok k t : fits 8 true k = true -> fits 4 true t = true -> exists b,
  make_salt hmac_sha1 salt_key k t = Ok b /\ length b = 8%nat.
Proof using Hlen.
  intros Hk Ht. unfold make_salt, int_write.
  rewrite (proj2 (to_bytes_le_ok (SIZE Long) true k _) (conj Hk eq_refl)).
  rewrite (proj2 (to_bytes_le_ok (SIZE Int) true t _) (conj Ht eq_refl)).
  eexists. split; [reflexivity|]. rewrite length_take, Hlen. done.
Qed.

Lemma future_salt_ok k base i : fits 8 true k = true -> fits 4 true (base + i) = true -> exists b n,
  make_salt hmac_sha1 salt_key k (base + i) = Ok b /\ length b = 8%nat /\ n = from_bytes_le true b /\
  future_salt hmac_sha1 salt_key k base i
  = Ok (VObj ID_FutureSalt [VInt ((base + i) * 30 * 60); VInt ((base + i + 1) * 30 * 60); VInt n]).
Proof using Hlen.
  intros Hk Hi. destruct (make_salt_ok k (base + i) Hk Hi) as (b & Hb & Hl). exists b, (from_bytes_le true b).
  split; [done|]. split; [done|]. split; [done|]. unfold future_salt. rewrite Hb. cbn [mbind result_bind].
  by rewrite read_bytes_exact by exact Hl.
Qed.

Definition salt_object (base i : Z) (b : bytes) : tlval :=
  VObj ID_FutureSalt [VInt ((base + i) * 30 * 60); VInt ((base + i + 1) * 30 * 60); VInt (from_bytes_le true b)].

Lemma future_salts_run k base cnt : fits 8 true k = true -> (forall j, -1 <= j <= 64 -> fits 4 true (base + j) = true) ->
  (cnt <= 64)%nat -> exists l,
  mapM (fun i => future_salt hmac_sha1 salt_key k base (Z.of_nat i)) (seq 0 cnt) = Ok l /\ length l = cnt /\
  forall i o, l !! i = Some o -> (i < 64)%nat /\ exists b,
    make_salt hmac_sha1 salt_key k (base + Z.of_nat i) = Ok b /\ length b = 8%nat /\ o = salt_object base (Z.of_nat i) b.
Proof using Hlen.
  intros Hk Hfit Hc.
  assert (Hex : exists l, mapM (fun i => future_salt hmac_sha1 salt_key k base (Z.of_nat i)) (seq 0 cnt) = Ok l).
  { assert (Hall : Forall (fun i => (i < 64)%nat) (seq 0 cnt)) by (apply Forall_forall; intros x ?%elem_of_seq; lia).
    induction Hall as [|i l Hi _ [r Hr]]; [by eexists|].
    destruct (future_salt_ok k base (Z.of_nat i) Hk (Hfit (Z.of_nat i) ltac:(lia))) as (b & n & _ & _ & _ & Hf).
    cbn. rewrite Hf. cbn. rewrite Hr. by eexists. }
  destruct Hex as [l Hl]. exists l. split; [exact Hl|]. apply mapM_result_ok in Hl.
  pose proof (Forall2_length _ _ _ Hl) as Hlength. rewrite length_seq in Hlength. split; [done|].
  intros i o Ho. destruct (Forall2_lookup_r _ _ _ _ _ Hl Ho) as (j & Hj & Hf).
  apply lookup_seq in Hj as [-> Hj]. split; [lia|].
  destruct (future_salt_ok k base (Z.of_nat i) Hk (Hfit (Z.of_nat i) ltac:(lia))) as (b & n & Hb & Hbl & -> & Hf').
  exists b. split; [done|]. split; [done|]. apply Ok_inj. rewrite <- Hf. exact Hf'.
Qed.

(** The salt the server changes to in the half hour [n] *)
Lemma salt_in_period k n b s t : fits 8 true k = true -> fits 4 true (n - 1) = true ->
  make_salt hmac_sha1 salt_key k n = Ok b -> session_key s = Some k ->
  n * 30 * 60 * microseconds <= t < (n * 30 * 60 + 30 * 60) * microseconds ->
  exists s', update_salts_maybe hmac_sha1 salt_key t true s = Ok s' /\ salt (salt_now s') = b.
Proof using Hlen.
  intros Hk Hn Hb Hs Ht. unfold update_salts_maybe. unfold session_key in Hs. rewrite Hs, andb_false_r.
  assert (t / (microseconds * salt_period) = n) as ->.
  { symmetry. apply Z.div_unique with (r := t - microseconds * salt_period * n);
      unfold microseconds, salt_period in *; lia. }
  rewrite Hb. cbn [mbind result_bind]. destruct (make_salt_ok k (n - 1) Hk Hn) as (p & Hp & _).
  rewrite Hp. cbn. by eexists.
Qed.
End FutureSalts.

(** Announced salts are honoured. [get_future_salts] answers with between 1 and 64 salts for consecutive half
    hours, the first of which contains the present; and in each of these half hours the
    salt the server itself changes to is exactly the announced one. *)
Theorem future_salts_honoured (hmac_sha1 : bytes -> bytes -> bytes) (salt_key : bytes) (time k num : Z) :
  (forall key msg, length (hmac_sha1 key msg) = 20%nat) -> fits 8 true k = true ->
  0 <= time < 2 ^ 31 * 1000000 ->
  exists l, future_salts hmac_sha1 salt_key time k num = Ok l /\
    Z.of_nat (length l) = Z.min (Z.max num 1) 64 /\
    forall i o, l !! i = Some o -> exists since n,
      o = VObj ID_FutureSalt [VInt since; VInt (since + 30 * 60); VInt n] /\
      (i = 0%nat -> since <= time / microseconds < since + 30 * 60) /\
      (forall o', l !! S i = Some o' ->
         exists n', o' = VObj ID_FutureSalt [VInt (since + 30 * 60); VInt (since + 2 * (30 * 60)); VInt n']) /\
      forall t s, since * microseconds <= t < (since + 30 * 60) * microseconds -> session_key s = Some k ->
        exists s', update_salts_maybe hmac_sha1 salt_key t true s = Ok s' /\
          length (salt (salt_now s')) = 8%nat /\ from_bytes_le true (salt (salt_now s')) = n.
Proof.
  intros Hlen Hk Ht. unfold future_salts. set (base := seconds time / (30 * 60)).
  set (cnt := Z.to_nat (Z.min (Z.max num 1) 64)).
  assert (Hbase : 0 <= base < 2 ^ 31 / 1800 + 1 /\ base * 1800 <= time / microseconds < base * 1800 + 1800).
  { unfold base, seconds, microseconds. change (30 * 60) with 1800. pose proof (Z.div_mod (time / 1000000) 1800 ltac:(lia)).
    pose proof (Z.mod_pos_bound (time / 1000000) 1800 ltac:(lia)).
    assert (0 <= time / 1000000 < 2 ^ 31) by (split; [apply Z.div_pos; lia|apply Z.div_lt_upper_bound; lia]).
    split; [|lia]. split; [apply Z.div_pos; lia|]. change (2 ^ 31 / 1800 + 1) with 1193047.
    apply Z.div_lt_upper_bound; lia. }
  change (2 ^ 31 / 1800 + 1) with 1193047 in Hbase.
  assert (Hfit : forall j, -1 <= j <= 64 -> fits 4 true (base + j) = true).
  { intros j Hj. unfold fits. apply andb_true_intro.
    change (2 ^ (8 * Z.of_nat 4 - 1)) with 2147483648. split; [apply Z.leb_le|apply Z.ltb_lt]; lia. }
  destruct (future_salts_run _ salt_key Hlen k base cnt Hk Hfit ltac:(lia)) as (l & Hl & Hlength & Hat).
  exists l. split; [exact Hl|]. split; [lia|]. intros i o Ho. destruct (Hat i o Ho) as (Hi & b & Hb & Hbl & ->).
  exists ((base + Z.of_nat i) * 30 * 60), (from_bytes_le true b).
  split; [unfold salt_object; do 5 f_equal; lia|]. split; [intros ->; lia|]. split.
  - intros o' Ho'. destruct (Hat _ _ Ho') as (_ & b' & _ & _ & ->). exists (from_bytes_le true b').
    unfold salt_object. do 5 f_equal; lia.
  - intros t s Hts Hs. destruct (salt_in_period _ salt_key Hlen k (base + Z.of_nat i) b s t) as (s' & Hu & <-); try done.
    { replace (base + Z.of_nat i - 1) with (base + (Z.of_nat i - 1)) by lia. apply Hfit. lia. }
    eauto.
Qed.

(** ** Witnesses: the connection of [ClientSend], with a worker that fails *)
Section Witness.
Definition demo_objects (id : Z) : option Combinator := None.
Definition demo_write (ctx : SerializationContext unit) (obj : tlval) : result bytes := Ok [x2a].
Definition demo_resolve (w : World) (obj : tlval) : option unit := None.
Definition demo_task (call : CallRpc) : W (bool * task_result) := mret (false, TaskOther).
Definition demo_other (m : Z) : W bool := mret false.
Definition demo_lru : Lru := {|
  lru_set := fun K V _ size k v l => let l' := (k, v) :: del_item k l in (take size l', last (drop size l'));
  lru_use := fun K V _ k l => match item k l with Some v => (k, v) :: del_item k l | None => l end |}.
(** A session of the connection that the manager knows *)
Definition known_gw : Gw :=
  with_world (with_sessions {[ (3, 7) := 1 ]} (world (demo_gw quiet_session None))) (demo_gw quiet_session None).
Definition demo_ping : tlval := VObj ID_Ping [VInt 9].
End Witness.

Lemma rpc_wf_new sid c a : rpc_wf (rpc (new_Session sid c a)).
Proof. exact rpc_wf_no_rpc. Qed.
Lemma preserves_idle {A} (P : Gw -> Prop) (a : A) : preserves P (on_world (mret a)).
Proof. intros g H. unfold on_world, mret, M_ret. simpl. by rewrite with_world_id. Qed.

Lemma request_completed_witness : exists r g' s',
  propagate demo_objects unit demo_write demo_resolve demo_hmac [] 200 demo_task demo_other 0 0 1 40 demo_ping
    (demo_gw quiet_session None) = (r, g') /\
  heap (world g') !! 1 = Some s' /\ 40 ∈ rpc_completed_ids (rpc s').
Proof.
  destruct (request_completed demo_objects unit demo_write demo_resolve demo_hmac [] 200 demo_task demo_other 0 0 1 40
    demo_ping (demo_gw quiet_session None)) as (r & g' & s' & Hr & Hs & _ & Hin & _).
  - exists quiet_session. split; [reflexivity|]. split; [exact rpc_wf_no_rpc|discriminate].
  - intros call. apply preserves_idle.
  - intros m. apply preserves_idle.
  - by exists r, g', s'.
Defined.


Lemma destroy_own_session_witness : exists g',
  sessions (world g') !! (3, 7) = None /\ stranded 0 1 g' /\
  forall time fuel, is_ok (flush_pending demo_hmac [] time fuel 0 g').1 = false.
Proof.
  destruct (destroy_own_session demo_objects unit demo_write demo_resolve demo_hmac [] 200 demo_task demo_other 0 0 1 40 3
    (demo_client None) quiet_session known_gw) as (g' & _ & H).
  - reflexivity.
  - reflexivity.
  - reflexivity.
  - reflexivity.
  - vm_compute. right; left.
  - intros ctx. by eexists.
  - by exists g'.
Defined.

Lemma future_salts_honoured_witness : exists l,
  future_salts demo_hmac [] 3600000000 3 5 = Ok l /\ Z.of_nat (length l) = 5.
Proof.
  destruct (future_salts_honoured demo_hmac [] 3600000000 3 5) as (l & Hl & Hlen & _).
  - reflexivity.
  - reflexivity.
  - lia.
  - exists l. split; [exact Hl|exact Hlen].
Defined.
