(* ===== verification/Rights.v ===== *)
(** Rights in chats and channels: the flag enums ([piltover/db/enums.py]), the
    checks and updates of [ChatBase] ([piltover/db/models/chat_base.py]), what a
    participant looks like to others ([chat_participant.py]), and the parts of
    [Chat] and [Channel] ([chat.py], [channel.py]) that do not go to the database. *)
From Stdlib Require Import Init.Byte.
From S2P Require Import Prelude PyBytes TlPrimitives TlObject TlRoundtrip.

(** ** [enums.py]: an [IntFlag] is its value *)
Module Banned.
Definition NONE : Z := 0.
Definition VIEW_MESSAGES : Z := Z.shiftl 1 0.
Definition SEND_MESSAGES : Z := Z.shiftl 1 1.
Definition SEND_MEDIA : Z := Z.shiftl 1 2.
Definition SEND_STICKERS : Z := Z.shiftl 1 3.
Definition SEND_GIFS : Z := Z.shiftl 1 4.
Definition SEND_GAMES : Z := Z.shiftl 1 5.
Definition SEND_INLINE : Z := Z.shiftl 1 6.
Definition EMBED_LINKS : Z := Z.shiftl 1 7.
Definition SEND_POLLS : Z := Z.shiftl 1 8.
Definition CHANGE_INFO : Z := Z.shiftl 1 10.
Definition INVITE_USERS : Z := Z.shiftl 1 15.
Definition PIN_MESSAGES : Z := Z.shiftl 1 17.
Definition MANAGE_TOPICS : Z := Z.shiftl 1 18.
Definition SEND_PHOTOS : Z := Z.shiftl 1 19.
Definition SEND_VIDEOS : Z := Z.shiftl 1 20.
Definition SEND_ROUNDVIDEOS : Z := Z.shiftl 1 21.
Definition SEND_AUDIOS : Z := Z.shiftl 1 22.
Definition SEND_VOICES : Z := Z.shiftl 1 23.
Definition SEND_DOCS : Z := Z.shiftl 1 24.
Definition SEND_PLAIN : Z := Z.shiftl 1 25.
Definition members : list Z :=
  [VIEW_MESSAGES; SEND_MESSAGES; SEND_MEDIA; SEND_STICKERS; SEND_GIFS; SEND_GAMES; SEND_INLINE;
   EMBED_LINKS; SEND_POLLS; CHANGE_INFO; INVITE_USERS; PIN_MESSAGES; MANAGE_TOPICS; SEND_PHOTOS;
   SEND_VIDEOS; SEND_ROUNDVIDEOS; SEND_AUDIOS; SEND_VOICES; SEND_DOCS; SEND_PLAIN].
End Banned.

Module Admin.
Definition NONE : Z := 0.
Definition CHANGE_INFO : Z := Z.shiftl 1 0.
Definition POST_MESSAGES : Z := Z.shiftl 1 1.
Definition EDIT_MESSAGES : Z := Z.shiftl 1 2.
Definition DELETE_MESSAGES : Z := Z.shiftl 1 3.
Definition BAN_USERS : Z := Z.shiftl 1 4.
Definition INVITE_USERS : Z := Z.shiftl 1 5.
Definition PIN_MESSAGES : Z := Z.shiftl 1 7.
Definition ADD_ADMINS : Z := Z.shiftl 1 9.
Definition ANONYMOUS : Z := Z.shiftl 1 10.
Definition MANAGE_CALL : Z := Z.shiftl 1 11.
Definition OTHER : Z := Z.shiftl 1 12.
Definition MANAGE_TOPICS : Z := Z.shiftl 1 13.
Definition POST_STORIES : Z := Z.shiftl 1 14.
Definition EDIT_STORIES : Z := Z.shiftl 1 15.
Definition DELETE_STORIES : Z := Z.shiftl 1 16.
Definition members : list Z :=
  [CHANGE_INFO; POST_MESSAGES; EDIT_MESSAGES; DELETE_MESSAGES; BAN_USERS; INVITE_USERS; PIN_MESSAGES;
   ADD_ADMINS; ANONYMOUS; MANAGE_CALL; OTHER; MANAGE_TOPICS; POST_STORIES; EDIT_STORIES; DELETE_STORIES].
(** [ChatAdminRights.all] *)
Definition all : Z := foldl Z.lor CHANGE_INFO members.
End Admin.

(** The bits of the [true] fields of [chatBannedRights] and [chatAdminRights] in
    the schema *)
Definition banned_bits : list Z := [0; 1; 2; 3; 4; 5; 6; 7; 8; 10; 15; 17; 18; 19; 20; 21; 22; 23; 24; 25].
Definition admin_bits : list Z := [0; 1; 2; 3; 4; 5; 7; 9; 10; 11; 12; 13; 14; 15; 16].

Definition flag_fields (bits : list Z) : list Field :=
  map (fun b => MkField "right" (Some (1, b)) TyTrue) bits.
Definition chatBannedRights : list Field :=
  MkField "flags" None (TyFlags 1) :: flag_fields banned_bits ++ [MkField "until_date" None (TyInt Int)].
Definition chatAdminRights : list Field :=
  MkField "flags" None (TyFlags 1) :: flag_fields admin_bits.

Definition rights_read : tltype -> reader tlval := value_read (fun _ => None) Ok 1.
Definition rights_write (fields : list Field) (slots : list tlval) : result bytes :=
  serialize_body fields slots (map (value_write (fun _ => None)) slots).

(** [ChatBannedRights.from_tl], [to_tl]; the object is its slots. *)
Definition banned_from_tl (slots : list tlval) : result Z :=
  bs ← rights_write chatBannedRights slots; read_bytes Int (take 4 bs) true.
Definition banned_to_tl (value until : Z) : result (list tlval) :=
  a ← int_write Int value true;
  b ← int_write Int until true;
  fst <$> deser_fields rights_read [] chatBannedRights (a ++ b).

Definition admin_from_tl (slots : list tlval) : result Z :=
  bs ← rights_write chatAdminRights slots; read_bytes Int bs true.
Definition admin_to_tl (value : Z) : result (list tlval) :=
  a ← int_write Int value true;
  fst <$> deser_fields rights_read [] chatAdminRights a.

(** ** [ChatParticipant] and [ChatBase] *)
Record ChatParticipant := MkParticipant {
  user_id : Z;
  inviter_id : Z;
  invited_at : Z;
  banned_rights : Z;
  admin_rights : Z;
  admin_rank : pystr;
  promoted_by_id : Z;
  min_message_id : option Z;
  left : bool;
}.

Definition is_admin (p : ChatParticipant) : bool := 0 <? admin_rights p.

(** What the model class and the fields of [Channel] say *)
Inductive chat_kind :=
  | IsChat
  | IsChannel (channel is_discussion join_to_send nojoin_allow_view : bool).

Record ChatBase := MkChatBase {
  kind : chat_kind;
  name : pystr;
  description : pystr;
  version : Z;
  creator_id : Z;
  photo_id : option Z;
  default_banned_rights : Z;
  ttl_period_days : Z;
  deleted : bool;
}.

Definition is_broadcast (c : ChatBase) : bool :=
  match kind c with IsChannel channel _ _ _ => channel | IsChat => false end.

Definition has_all (rights flags : Z) : bool := Z.land rights flags =? flags.

Definition check_rights (self : ChatBase) (participant : option ChatParticipant) (admin regular : Z) : bool :=
  let default := Z.land (default_banned_rights self) regular =? 0 in
  match participant with
  | None => default
  | Some p =>
    if creator_id self =? user_id p then true
    else
      let admin_has_permission := has_all (admin_rights p) admin in
      if is_broadcast self && (0 <? admin) then
        if negb (is_admin p) then false else admin_has_permission
      else if 0 <? Z.land (banned_rights p) regular then false
      else if admin_has_permission then true
      else default
  end.

Definition can_pin_messages (self : ChatBase) (p : option ChatParticipant) : bool :=
  check_rights self p Admin.PIN_MESSAGES Banned.PIN_MESSAGES.

Definition absent_or_left (p : option ChatParticipant) : bool :=
  match p with None => true | Some p => left p end.

Definition can_view_messages (self : ChatBase) (p : option ChatParticipant) : bool :=
  if absent_or_left p then
    match kind self with IsChat => false | IsChannel _ _ _ nojoin_allow_view => nojoin_allow_view end
  else check_rights self p Admin.NONE Banned.VIEW_MESSAGES.

Definition check_can_send (self : ChatBase) (p : option ChatParticipant) : bool :=
  if negb (can_view_messages self p) then false
  else match kind self, p with
       | IsChat, None => false
       | IsChannel _ is_discussion join_to_send nojoin_allow_view, None =>
         if is_discussion && join_to_send then nojoin_allow_view else true
       | _, Some _ => true
       end.

Definition can_send_messages (self : ChatBase) (p : option ChatParticipant) : bool :=
  if negb (check_can_send self p) then false
  else check_rights self p Admin.POST_MESSAGES Banned.SEND_MESSAGES.
Definition can_send_plain (self : ChatBase) (p : option ChatParticipant) : bool :=
  if negb (can_send_messages self p) then false
  else check_rights self p Admin.POST_MESSAGES Banned.SEND_PLAIN.
Definition can_edit_messages (self : ChatBase) (p : option ChatParticipant) : bool :=
  if negb (check_can_send self p) then false
  else check_rights self p Admin.EDIT_MESSAGES Banned.SEND_MESSAGES.
Definition can_send_media (self : ChatBase) (p : option ChatParticipant) (media_type : Z) : bool :=
  if negb (can_send_messages self p) then false
  else check_rights self p Admin.POST_MESSAGES (Z.lor Banned.SEND_MEDIA media_type).

(** [participant.user_id] of [None] raises [AttributeError]. *)
Definition user_has_permission (self : ChatBase) (p : option ChatParticipant) (permission : Z) : result bool :=
  match p with
  | None =>
    if is_broadcast self then Raise AttributeError
    else Ok (Z.land (default_banned_rights self) permission =? 0)
  | Some p =>
    if is_broadcast self && negb (is_admin p) && negb (creator_id self =? user_id p) then Ok false
    else if is_admin p || (creator_id self =? user_id p) then Ok true
    else if banned_rights p =? 0 then Ok (Z.land (default_banned_rights self) permission =? 0)
    else Ok (Z.land (banned_rights p) permission =? 0)
  end.

Definition admin_has_permission (self : ChatBase) (p : ChatParticipant) (permission : Z) : bool :=
  (creator_id self =? user_id p) || has_all (admin_rights p) permission.

(** ** [ChatBase.update] *)

(** [str.isspace] of a code point *)
Definition is_space (c : Z) : bool :=
  ((9 <=? c) && (c <=? 13)) || ((28 <=? c) && (c <=? 32)) || (c =? 0x85) || (c =? 0xA0)
  || (c =? 0x1680) || ((0x2000 <=? c) && (c <=? 0x200A)) || (c =? 0x2028) || (c =? 0x2029)
  || (c =? 0x202F) || (c =? 0x205F) || (c =? 0x3000).

Fixpoint lstrip (s : pystr) : pystr :=
  match s with c :: s' => if is_space c then lstrip s' else s | [] => [] end.
Definition strip (s : pystr) : pystr := rev (lstrip (rev (lstrip s))).

(** The object in memory, the row of the database, and which of the fields that
    [update] may write *)
Record ChatRow := MkChatRow { obj : ChatBase; saved : ChatBase }.

Definition set_name (n : pystr) (c : ChatBase) : ChatBase :=
  MkChatBase (kind c) n (description c) (version c) (creator_id c) (photo_id c)
    (default_banned_rights c) (ttl_period_days c) (deleted c).
Definition set_description (d : pystr) (c : ChatBase) : ChatBase :=
  MkChatBase (kind c) (name c) d (version c) (creator_id c) (photo_id c)
    (default_banned_rights c) (ttl_period_days c) (deleted c).
Definition set_photo (p : option Z) (c : ChatBase) : ChatBase :=
  MkChatBase (kind c) (name c) (description c) (version c) (creator_id c) p
    (default_banned_rights c) (ttl_period_days c) (deleted c).
Definition set_ttl (t : Z) (c : ChatBase) : ChatBase :=
  MkChatBase (kind c) (name c) (description c) (version c) (creator_id c) (photo_id c)
    (default_banned_rights c) t (deleted c).
Definition bump_version (c : ChatBase) : ChatBase :=
  MkChatBase (kind c) (name c) (description c) (version c + 1) (creator_id c) (photo_id c)
    (default_banned_rights c) (ttl_period_days c) (deleted c).

Definition set_obj (f : ChatBase -> ChatBase) : M ChatRow unit :=
  modify (fun r => MkChatRow (f (obj r)) (saved r)).

(** [if x is not None: ...] *)
Definition when_some {A} (x : option A) (f : A -> M ChatRow unit) : M ChatRow unit :=
  match x with Some a => f a | None => mret tt end.

Definition pick {A B} (o : option A) (x y : B) : B := match o with Some _ => x | None => y end.

(** [photo] is [None] when the argument is missing; files are compared by id.
    [save(update_fields=...)] writes the changed fields and the version. *)
Definition update (title description_ : option pystr) (photo : option (option Z)) (ttl : option Z)
    : M ChatRow unit :=
  when_some title (fun title =>
    let title := strip title in
    r ← get;
    ensure (negb (bool_decide (title = name (obj r)))) (ErrorRpc400 "CHAT_NOT_MODIFIED");;
    ensure (negb (bool_decide (title = []))) (ErrorRpc400 "CHAT_TITLE_EMPTY");;
    set_obj (set_name title));;
  when_some description_ (fun description =>
    let description := strip description in
    r ← get;
    ensure (negb (bool_decide (description = name (obj r)))) (ErrorRpc400 "CHAT_ABOUT_NOT_MODIFIED");;
    ensure (Z.of_nat (length description) <=? 255) (ErrorRpc400 "CHAT_ABOUT_TOO_LONG");;
    set_obj (set_description description));;
  when_some photo (fun photo =>
    r ← get;
    ensure (negb (bool_decide (photo = photo_id (obj r)))) (ErrorRpc400 "CHAT_NOT_MODIFIED");;
    set_obj (set_photo photo));;
  when_some ttl (fun ttl =>
    r ← get;
    ensure (negb (ttl =? ttl_period_days (obj r))) (ErrorRpc400 "CHAT_NOT_MODIFIED");;
    set_obj (set_ttl ttl));;
  match title, description_, photo, ttl with
  | None, None, None, None => mret tt
  | _, _, _, _ =>
    set_obj bump_version;;
    modify (fun r => MkChatRow (obj r)
      (MkChatBase (kind (saved r)) (pick title (name (obj r)) (name (saved r)))
         (pick description_ (description (obj r)) (description (saved r))) (version (obj r))
         (creator_id (saved r)) (pick photo (photo_id (obj r)) (photo_id (saved r)))
         (default_banned_rights (saved r))
         (pick ttl (ttl_period_days (obj r)) (ttl_period_days (saved r))) (deleted (saved r))))
  end.

(** ** What others see of a participant *)
Inductive ChannelParticipants :=
  | ChannelParticipantCreator (user_id : Z) (admin_rights : result (list tlval)) (rank : option pystr)
  | ChannelParticipantAdmin (user_id : Z) (inviter_id : option Z) (date : Z) (is_self : bool)
      (promoted_by : Z) (rank : option pystr) (admin_rights : result (list tlval)) (can_edit : bool)
  | ChannelParticipantBanned (left : bool) (user_id : Z) (date : Z) (banned_rights : result (list tlval))
  | ChannelParticipantSelf (user_id inviter_id date : Z)
  | ChannelParticipant_ (user_id date : Z).

Inductive ChatParticipants :=
  | ChatParticipantCreator (user_id : Z)
  | ChatParticipantAdmin (user_id inviter_id date : Z)
  | ChatParticipant_ (user_id inviter_id date : Z).

Definition to_tl_chat_with_creator (self : ChatParticipant) (chat_creator_id : Z) : ChatParticipants :=
  if user_id self =? chat_creator_id then ChatParticipantCreator (user_id self)
  else if is_admin self then ChatParticipantAdmin (user_id self) (inviter_id self) (invited_at self)
  else ChatParticipant_ (user_id self) (inviter_id self) (invited_at self).

Definition or_none (s : pystr) : option pystr := match s with [] => None | _ => Some s end.

Definition to_tl_channel_with_creator (self : ChatParticipant) (viewer creator_id : Z) : ChannelParticipants :=
  if user_id self =? creator_id
  then ChannelParticipantCreator (user_id self) (admin_to_tl (admin_rights self)) (or_none (admin_rank self))
  else if is_admin self then
    let is_self := user_id self =? viewer in
    ChannelParticipantAdmin (user_id self) (if is_self then Some (inviter_id self) else None) (invited_at self)
      is_self (promoted_by_id self) (or_none (admin_rank self)) (admin_to_tl (admin_rights self))
      (negb (Z.land (admin_rights self) Admin.ADD_ADMINS =? 0))
  else if negb (banned_rights self =? 0)
  then ChannelParticipantBanned (left self) (user_id self) (invited_at self) (banned_to_tl (banned_rights self) 0)
  else if user_id self =? viewer
  then ChannelParticipantSelf (user_id self) (inviter_id self) (invited_at self)
  else ChannelParticipant_ (user_id self) (invited_at self).

(** ** Ids, and the oldest message a participant of a channel may see *)
Definition chat_make_id (in_id : Z) : Z := in_id * 2.
Definition channel_make_id (in_id : Z) : Z := in_id * 2 + 1.
Definition norm_id (t_id : Z) : Z := t_id / 2.

Record ChannelHistory := MkHistory {
  hidden_prehistory : bool;
  min_available_id : option Z;
  min_available_id_force : option Z;
}.

Definition or_zero (x : option Z) : Z := default 0 x.
Definition nonzero (x : Z) : option Z := if x =? 0 then None else Some x.

Definition min_id (self : ChannelHistory) (p : option ChatParticipant) : option Z :=
  let force := or_zero (min_available_id_force self) in
  let channel_min := if hidden_prehistory self then or_zero (min_available_id self) else 0 in
  match p with
  | Some p => nonzero (Z.max force (Z.max channel_min (or_zero (min_message_id p))))
  | None => nonzero (Z.max force channel_min)
  end.

(** ** [Chat.to_tl_bulk] *)
Record Chat := MkChat { c_chat_id : Z; c_version : Z; c_deleted : bool }.

(** What is returned for a chat: [ChatForbidden], what the cache holds, or a
    [ChatToFormat] *)
Inductive tl_chat := TlForbidden (id : Z) | TlCached (c : Chat) | TlChat (c : Chat).

(** [to_tl] *)
Definition to_tl (cached : Chat -> bool) (c : Chat) : tl_chat :=
  if c_deleted c then TlForbidden (chat_make_id (c_chat_id c))
  else if cached c then TlCached c else TlChat c.

(** [cached_chats] has one entry per chat that is not deleted, and is zipped
    with all chats; a deleted chat is appended and falls through. *)
Fixpoint to_tl_bulk_go (chats : list Chat) (cached_chats : list (option Chat)) : list tl_chat :=
  match chats, cached_chats with
  | chat :: chats, cached :: cached_chats =>
    (if c_deleted chat then [TlForbidden (chat_make_id (c_chat_id chat))] else [])
    ++ match cached with Some c => [TlCached c] | None => [TlChat chat] end
    ++ to_tl_bulk_go chats cached_chats
  | _, _ => []
  end.

Definition to_tl_bulk (cached : Chat -> bool) (chats : list Chat) : list tl_chat :=
  to_tl_bulk_go chats (map (fun c => if cached c then Some c else None)
                         (filter (fun c => c_deleted c = false) chats)).

Lemma to_tl_bulk_live cached chats : Forall (fun c => c_deleted c = false) chats ->
  to_tl_bulk cached chats = map (to_tl cached) chats.
Proof.
  unfold to_tl_bulk. induction 1 as [|c chats Hc Hcs IH]; [done|].
  rewrite filter_cons_True by done. cbn [map to_tl_bulk_go]. rewrite Hc, IH. unfold to_tl at 2.
  rewrite Hc. by destruct (cached c).
Qed.

(** A deleted chat shifts the cache entries: it comes twice, and the last chat
    is dropped. *)
Example to_tl_bulk_deleted :
  to_tl_bulk (fun _ => false) [MkChat 1 1 true; MkChat 2 1 false] =
  [TlForbidden 2; TlChat (MkChat 1 1 true)].
Proof. reflexivity. Qed.

(** ** Lemmas: flags *)
Lemma has_all_spec rights flags : has_all rights flags = true <->
  forall i, 0 <= i -> Z.testbit flags i = true -> Z.testbit rights i = true.
Proof.
  unfold has_all. rewrite Z.eqb_eq. split.
  - intros H i Hi Ht. rewrite <- H, Z.land_spec in Ht. by apply andb_prop in Ht as [? _].
  - intros H. apply Z.bits_inj'. intros i Hi. rewrite Z.land_spec.
    destruct (Z.testbit flags i) eqn:E; [by rewrite H|apply andb_false_r].
Qed.

Definition subflags (a b : Z) : Prop := Z.land a b = a.

Lemma has_all_mono a b f : subflags a b -> has_all a f = true -> has_all b f = true.
Proof.
  intros Hs. rewrite !has_all_spec. intros H i Hi Hf. specialize (H i Hi Hf).
  rewrite <- Hs, Z.land_spec in H. by apply andb_prop in H as [_ ?].
Qed.

Lemma land_zero_mono a b f : subflags a b -> Z.land b f = 0 -> Z.land a f = 0.
Proof. intros <- H. by rewrite <- Z.land_assoc, H, Z.land_0_r. Qed.

Lemma land_pos a f : 0 <= a -> (0 <? Z.land a f) = negb (Z.land a f =? 0).
Proof.
  intros Ha. assert (0 <= Z.land a f) by (apply Z.land_nonneg; auto).
  destruct (Z.land a f =? 0) eqn:E; b2p; cbn; [rewrite E; done|apply Z.ltb_lt; lia].
Qed.

Lemma has_all_none a : has_all a 0 = true.
Proof. unfold has_all. by rewrite Z.land_0_r. Qed.

Lemma subflags_pos a b : 0 <= b -> subflags a b -> 0 < a -> 0 < b.
Proof.
  intros Hb Hs Ha. destruct (decide (b = 0)) as [->|]; [|lia]. unfold subflags in Hs.
  rewrite Z.land_0_r in Hs. lia.
Qed.

(** [p'] is at least as trusted as [p] and [c'] at least as open as [c]. *)
Record more_rights (c c' : ChatBase) (p p' : ChatParticipant) : Prop := {
  mr_kind : kind c' = kind c;
  mr_creator : creator_id c' = creator_id c;
  mr_user : user_id p' = user_id p;
  mr_left : left p' = left p;
  mr_default : subflags (default_banned_rights c') (default_banned_rights c);
  mr_banned : subflags (banned_rights p') (banned_rights p);
  mr_banned_pos : 0 <= banned_rights p /\ 0 <= banned_rights p';
  mr_admin : subflags (admin_rights p) (admin_rights p');
  mr_admin_pos : 0 <= admin_rights p';
}.

Lemma check_rights_mono c c' p p' admin regular : more_rights c c' p p' ->
  check_rights c (Some p) admin regular = true -> check_rights c' (Some p') admin regular = true.
Proof.
  intros [Hk Hc Hu Hl Hd Hb [Hb0 Hb0'] Ha Ha0]. unfold check_rights, is_broadcast, is_admin.
  rewrite Hk, Hc, Hu. destruct (creator_id c =? user_id p); [done|]. rewrite !land_pos by done.
  destruct (match kind c with IsChat => false | IsChannel b _ _ _ => b end && (0 <? admin)).
  - destruct (0 <? admin_rights p) eqn:E; [|done]. b2p. cbn [negb].
    rewrite (proj2 (Z.ltb_lt _ _)) by (by eapply subflags_pos). cbn [negb].
    by apply has_all_mono.
  - destruct (Z.land (banned_rights p) regular =? 0) eqn:E; [|done]. b2p.
    rewrite (land_zero_mono _ _ _ Hb E). cbn.
    destruct (has_all (admin_rights p) admin) eqn:E'; [by rewrite (has_all_mono _ _ _ Ha E')|].
    intros H%Z.eqb_eq. rewrite (land_zero_mono _ _ _ Hd H). rewrite Z.eqb_refl. by destruct (has_all (admin_rights p') admin).
Qed.

Lemma can_view_mono c c' p p' : more_rights c c' p p' ->
  can_view_messages c (Some p) = true -> can_view_messages c' (Some p') = true.
Proof.
  intros H. unfold can_view_messages, absent_or_left. rewrite (mr_left _ _ _ _ H), (mr_kind _ _ _ _ H).
  destruct (left p); [done|]. by apply check_rights_mono.
Qed.

Lemma check_can_send_mono c c' p p' : more_rights c c' p p' ->
  check_can_send c (Some p) = true -> check_can_send c' (Some p') = true.
Proof.
  intros H. unfold check_can_send. destruct (can_view_messages c (Some p)) eqn:E; [|done].
  rewrite (can_view_mono _ _ _ _ H E). cbn. rewrite (mr_kind _ _ _ _ H). by destruct (kind c).
Qed.

Lemma can_send_messages_mono c c' p p' : more_rights c c' p p' ->
  can_send_messages c (Some p) = true -> can_send_messages c' (Some p') = true.
Proof.
  intros H. unfold can_send_messages. destruct (check_can_send c (Some p)) eqn:E; [|done].
  rewrite (check_can_send_mono _ _ _ _ H E). by apply check_rights_mono.
Qed.

(** ** Lemmas: flags on the wire *)
Definition flag_slots (bits : list Z) (v : Z) : list tlval := map (fun b => VBool (Z.testbit v b)) bits.

Lemma slot_fields_flags bits rest : slot_fields (flag_fields bits ++ rest) = flag_fields bits ++ slot_fields rest.
Proof.
  unfold slot_fields, flag_fields. induction bits as [|b bits IH]; [done|]. cbn [map app].
  rewrite filter_cons_True by done. by rewrite IH.
Qed.

Lemma zip_flags bits v : zip (flag_fields bits) (flag_slots bits v) =
  map (fun b => (MkField "right" (Some (1, b)) TyTrue, VBool (Z.testbit v b))) bits.
Proof. induction bits; cbn; f_equal; done. Qed.

Lemma flag_group_bits bits v b :
  flag_group (1, b) (map (fun b => (MkField "right" (Some (1, b)) TyTrue, VBool (Z.testbit v b))) bits) =
  map (fun b => (MkField "right" (Some (1, b)) TyTrue, VBool (Z.testbit v b))) (filter (fun b' => b' = b) bits).
Proof.
  unfold flag_group. induction bits as [|c bits IH]; [done|]. cbn [map]. rewrite !filter_cons. cbn [fst f_flag].
  destruct (decide (c = b)) as [->|Hne].
  - rewrite decide_True by done. cbn [map]. by rewrite IH.
  - by rewrite decide_False by congruence.
Qed.

Lemma existsb_const {A} (f : A -> bool) l c : (forall x, x ∈ l -> f x = c) ->
  existsb f l = match l with [] => false | _ => c end.
Proof.
  intros H. destruct l as [|x l]; [done|]. cbn. rewrite (H x) by (by left).
  destruct c; [done|]. apply not_true_iff_false. intros (y & Hy & Hf)%existsb_exists.
  rewrite H in Hf; [done|]. right. by apply list_elem_of_In.
Qed.

(** The flag word of rights that were read from [v] *)
Lemma flags_value_bits bits v : Forall (Z.le 0) bits ->
  forall i, 0 <= i -> Z.testbit (flags_value 1
    (map (fun b => (MkField "right" (Some (1, b)) TyTrue, VBool (Z.testbit v b))) bits)) i =
  bool_decide (i ∈ bits) && Z.testbit v i.
Proof.
  intros Hb i Hi. rewrite testbit_flags_value; [|intros f w m b (b' & Heq & Hin)%list_elem_of_fmap;
    injection Heq as -> ->; intros [= <- <-]; rewrite Forall_forall in Hb; by apply Hb|done].
  rewrite flag_group_bits. rewrite (existsb_const _ _ (Z.testbit v i)).
  - destruct (filter (fun b' => b' = i) bits) as [|x l] eqn:E; cbn [map].
    + rewrite bool_decide_false; [done|]. intros Hin.
      assert (i ∈ filter (fun b' => b' = i) bits) as Hf by (by apply list_elem_of_filter).
      rewrite E in Hf. by apply elem_of_nil in Hf.
    + rewrite bool_decide_true; [done|].
      assert (x ∈ filter (fun b' => b' = i) bits) as [-> ?]%list_elem_of_filter by (rewrite E; left). done.
  - intros x (b & -> & [-> _]%list_elem_of_filter)%list_elem_of_fmap. done.
Qed.

Lemma shared_flags_bits bits v : shared_flags_ok
  (map (fun b => (MkField "right" (Some (1, b)) TyTrue, VBool (Z.testbit v b))) bits) = true.
Proof.
  unfold shared_flags_ok. apply forallb_forall. intros x (b & <- & Hin)%in_map_iff. cbn [fst f_flag].
  rewrite flag_group_bits. apply orb_true_iff.
  destruct (Z.testbit v b) eqn:E; [right|left; apply orb_true_iff; right]; apply forallb_forall;
    intros y (c & <- & [-> _]%list_elem_of_In%list_elem_of_filter)%in_map_iff; cbn; by rewrite E.
Qed.

(** The whole list of slots, with what follows the flags *)
Definition with_tail (bits : list Z) (v : Z) (tail : list (Field * tlval)) : list (Field * tlval) :=
  map (fun b => (MkField "right" (Some (1, b)) TyTrue, VBool (Z.testbit v b))) bits ++ tail.

Lemma flags_value_tail bits v tail : Forall (fun fv => f_flag fv.1 = None) tail ->
  flags_value 1 (with_tail bits v tail) = flags_value 1 (with_tail bits v []).
Proof.
  intros Ht. unfold with_tail. rewrite app_nil_r. induction bits as [|b bits IH].
  - cbn. induction Ht as [|[f w] tail Hf _ IHt]; [done|]. cbn in *. by rewrite Hf.
  - cbn [map app flags_value foldr fst snd f_flag]. fold (flags_value 1).
    change (foldr _ 0 (?l ++ tail)) with (flags_value 1 (l ++ tail)).
    unfold flags_value in *. by rewrite IH.
Qed.

Lemma ser_flag_fields bits v all fields todo :
  ser_fields all (flag_fields bits ++ fields)
    (map (fun b => (VBool (Z.testbit v b), value_write (fun _ => None) (VBool (Z.testbit v b)))) bits ++ todo) =
  ser_fields all fields todo.
Proof.
  induction bits as [|b bits IH]; [done|]. cbn [map app flag_fields].
  rewrite ser_fields_slot by done. fold (flag_fields bits). rewrite IH. cbn.
  by destruct (ser_fields all fields todo).
Qed.

Lemma deser_flag_fields rd bits flags fields s : Forall (Z.le 0) bits ->
  deser_fields rd [(1, flags)] (flag_fields bits ++ fields) s =
  match deser_fields rd [(1, flags)] fields s with
  | Ok (vs, s') => Ok (flag_slots bits flags ++ vs, s')
  | Raise e => Raise e
  end.
Proof.
  intros Hb. induction Hb as [|b bits Hb _ IH]; cbn [flag_fields map app].
  { by destruct (deser_fields _ _ _ _) as [[]|]. }
  rewrite deser_fields_slot by done. cbn [f_flag is_true_type f_type].
  rewrite (reader_bind_step _ _ s (VBool (Z.testbit flags b)) s).
  2:{ rewrite (reader_bind_step _ _ s (Z.testbit flags b) s); [done|].
      unfold reader_lift. by rewrite (flag_test_testbit _ 1 b flags). }
  unfold mbind, reader_bind. fold (flag_fields bits). rewrite IH.
  by destruct (deser_fields rd _ fields s) as [[]|].
Qed.

(** The flags of [v] that the type has *)
Definition mask_of (bits : list Z) (v : Z) : Z := flags_value 1 (with_tail bits v []).

Lemma testbit_mask_of bits v i : Forall (Z.le 0) bits -> 0 <= i ->
  Z.testbit (mask_of bits v) i = bool_decide (i ∈ bits) && Z.testbit v i.
Proof. intros. unfold mask_of, with_tail. rewrite app_nil_r. by apply flags_value_bits. Qed.

Lemma flag_group_tail fl l tail : Forall (fun fv : Field * tlval => f_flag fv.1 = None) tail ->
  flag_group fl (l ++ tail) = flag_group fl l.
Proof.
  intros Ht. unfold flag_group. rewrite filter_app.
  assert (filter (fun fv : Field * tlval => f_flag fv.1 = Some fl) tail = []) as ->; [|apply app_nil_r].
  induction Ht as [|x tail Hx _ IH]; [done|]. rewrite filter_cons_False by congruence. done.
Qed.

Lemma shared_flags_tail bits v tail : Forall (fun fv : Field * tlval => f_flag fv.1 = None) tail ->
  shared_flags_ok (with_tail bits v tail) = true.
Proof.
  intros Ht. pose proof (shared_flags_bits bits v) as H. unfold shared_flags_ok in *.
  unfold with_tail. rewrite forallb_app. apply andb_true_intro. split.
  - rewrite forallb_forall in *. intros x Hx. specialize (H x Hx).
    destruct (f_flag x.1) as [fl|]; [|done]. by rewrite flag_group_tail.
  - apply forallb_forall. intros x Hx%list_elem_of_In. rewrite Forall_forall in Ht. by rewrite (Ht x Hx).
Qed.

Lemma rights_serialize bits v fields vs : Forall (fun f => f_flag f = None /\ is_flag f = false) fields ->
  serialize_body (MkField "flags" None (TyFlags 1) :: flag_fields bits ++ fields) (flag_slots bits v ++ vs)
    (map (value_write (fun _ => None)) (flag_slots bits v ++ vs)) =
  (h ← int_write Int (mask_of bits v) true;
   t ← ser_fields (with_tail bits v (zip fields vs)) fields (zip vs (map (value_write (fun _ => None)) vs));
   Ok (h ++ t)).
Proof.
  intros Hf. unfold serialize_body.
  assert (slot_fields (MkField "flags" None (TyFlags 1) :: flag_fields bits ++ fields) = flag_fields bits ++ fields) as ->.
  { unfold slot_fields at 1. rewrite filter_cons_False by done. fold (slot_fields (flag_fields bits ++ fields)).
    rewrite slot_fields_flags. f_equal. unfold slot_fields. clear vs.
    induction Hf as [|f fields [_ Hx] _ IH]; [done|]. rewrite filter_cons_True by done. by rewrite IH. }
  rewrite zip_with_app by (unfold flag_fields, flag_slots; by rewrite !length_map).
  rewrite zip_flags. fold (with_tail bits v (zip fields vs)).
  assert (Ht : Forall (fun fv : Field * tlval => f_flag fv.1 = None) (zip fields vs)).
  { apply Forall_forall. intros [f w] Hin. apply elem_of_zip_l in Hin. rewrite Forall_forall in Hf. by apply Hf. }
  rewrite shared_flags_tail by done. cbn [negb ser_fields f_type].
  rewrite flags_value_tail by done. fold (mask_of bits v). rewrite map_app, zip_with_app by (by rewrite length_map).
  replace (zip (flag_slots bits v) (map (value_write (fun _ => None)) (flag_slots bits v)))
    with (map (fun b => (VBool (Z.testbit v b), value_write (fun _ => None) (VBool (Z.testbit v b)))) bits)
    by (unfold flag_slots; rewrite zip_map_self, map_map; done).
  by rewrite ser_flag_fields.
Qed.

Lemma banned_bits_nonneg : Forall (Z.le 0) banned_bits.
Proof. unfold banned_bits. repeat constructor; lia. Qed.
Lemma admin_bits_nonneg : Forall (Z.le 0) admin_bits.
Proof. unfold admin_bits. repeat constructor; lia. Qed.

Lemma deser_rights bits v s fields rest r : Forall (Z.le 0) bits ->
  int_write Int v true = Ok s ->
  (forall env, deser_fields rights_read env fields rest = Ok (r, [])) ->
  deser_fields rights_read [] (MkField "flags" None (TyFlags 1) :: flag_fields bits ++ fields) (s ++ rest) =
  Ok (flag_slots bits v ++ r, []).
Proof.
  intros Hb Hs Hr. cbn [deser_fields f_type].
  rewrite (reader_bind_step _ _ _ v rest) by (by apply int_read_write).
  by rewrite deser_flag_fields, Hr.
Qed.

Definition int32 (z : Z) : Prop := - 2 ^ 31 <= z < 2 ^ 31.

Lemma int_write_int32 z : int32 z -> int_write Int z true = Ok (le_bytes 4 z).
Proof.
  intros Hz. unfold int_write. apply to_bytes_le_ok. split; [|done]. unfold fits.
  change (8 * Z.of_nat (SIZE Int) - 1) with 31. unfold int32 in Hz.
  apply andb_true_intro; split; [apply Z.leb_le|apply Z.ltb_lt]; lia.
Qed.

Lemma read_int32 z : int32 z -> read_bytes Int (le_bytes 4 z) true = Ok z.
Proof.
  intros Hz. rewrite read_bytes_exact by (by rewrite length_le_bytes). f_equal.
  apply (from_to_bytes_le 4); [lia|]. exact (int_write_int32 z Hz).
Qed.

Lemma mask_of_int32 bits v : Forall (fun b => 0 <= b < 31) bits -> int32 (mask_of bits v).
Proof.
  intros Hb. assert (Hb0 : Forall (Z.le 0) bits) by (eapply Forall_impl; [done|]; cbn; lia).
  assert (0 <= mask_of bits v) by apply flags_value_nonneg. split; [lia|].
  destruct (decide (mask_of bits v = 0)); [lia|]. apply Z.log2_lt_pow2; [lia|].
  destruct (decide (31 <= Z.log2 (mask_of bits v))) as [Hl|]; [|lia].
  pose proof (Z.bit_log2 (mask_of bits v) ltac:(lia)) as Hbit.
  rewrite testbit_mask_of in Hbit by (done || lia). apply andb_prop in Hbit as [Hin%bool_decide_eq_true _].
  rewrite Forall_forall in Hb. specialize (Hb _ Hin). lia.
Qed.

Lemma banned_bits_range : Forall (fun b => 0 <= b < 31) banned_bits.
Proof. unfold banned_bits. repeat constructor; lia. Qed.
Lemma admin_bits_range : Forall (fun b => 0 <= b < 31) admin_bits.
Proof. unfold admin_bits. repeat constructor; lia. Qed.

Lemma deser_until env until : int32 until ->
  deser_fields rights_read env [MkField "until_date" None (TyInt Int)] (le_bytes 4 until) = Ok ([VInt until], []).
Proof.
  intros Hu. cbn [deser_fields f_type f_flag].
  rewrite (reader_bind_step _ _ _ (VInt until) []); [done|].
  unfold rights_read. cbn [value_read].
  rewrite (reader_bind_step _ _ _ until []); [done|].
  rewrite <- (app_nil_r (le_bytes 4 until)). apply int_read_write; [done|]. by apply int_write_int32.
Qed.

Lemma ser_until all until : int32 until ->
  ser_fields all [MkField "until_date" None (TyInt Int)] [(VInt until, value_write (fun _ => None) (VInt until))]
    = Ok (le_bytes 4 until).
Proof.
  intros Hu. rewrite ser_fields_slot by done. cbn [is_none_flag f_flag f_type value_write].
  rewrite int_write_int32 by done. cbn [mbind result_bind ser_fields]. by rewrite app_nil_r.
Qed.

Lemma banned_to_tl_spec v until : int32 v -> int32 until ->
  banned_to_tl v until = Ok (flag_slots banned_bits v ++ [VInt until]).
Proof.
  intros Hv Hu. unfold banned_to_tl, chatBannedRights. rewrite !int_write_int32 by done.
  cbn [mbind result_bind].
  by rewrite (deser_rights banned_bits v (le_bytes 4 v) _ _ [VInt until] banned_bits_nonneg
    (int_write_int32 v Hv) (fun env => deser_until env until Hu)).
Qed.

Lemma banned_from_tl_spec v until : int32 until ->
  banned_from_tl (flag_slots banned_bits v ++ [VInt until]) = Ok (mask_of banned_bits v).
Proof.
  intros Hu. unfold banned_from_tl, rights_write, chatBannedRights.
  pose proof (mask_of_int32 banned_bits v banned_bits_range) as Hm.
  rewrite rights_serialize by (repeat constructor). rewrite int_write_int32 by done.
  cbn [mbind result_bind]. cbn [zip zip_with map]. rewrite ser_until by done. cbn [mbind result_bind].
  rewrite take_app_exact by (by rewrite length_le_bytes). by apply read_int32.
Qed.

Lemma admin_to_tl_spec v : int32 v -> admin_to_tl v = Ok (flag_slots admin_bits v).
Proof.
  intros Hv. unfold admin_to_tl, chatAdminRights. rewrite int_write_int32 by done. cbn [mbind result_bind].
  pose proof (deser_rights admin_bits v (le_bytes 4 v) [] [] [] admin_bits_nonneg
    (int_write_int32 v Hv) (fun _ => eq_refl)) as H.
  rewrite !app_nil_r in H. by rewrite H.
Qed.

Lemma admin_from_tl_spec v : admin_from_tl (flag_slots admin_bits v) = Ok (mask_of admin_bits v).
Proof.
  unfold admin_from_tl, rights_write, chatAdminRights.
  pose proof (mask_of_int32 admin_bits v admin_bits_range) as Hm.
  pose proof (rights_serialize admin_bits v [] [] ltac:(constructor)) as H. rewrite !app_nil_r in H.
  rewrite H, int_write_int32 by done. cbn [mbind result_bind ser_fields zip zip_with map].
  rewrite app_nil_r. by apply read_int32.
Qed.

(** ** Properties *)

(** The flag enums and the TL rights objects say the same. [to_tl] of any
    32-bit value sets exactly the fields whose bit is set, [from_tl] of the result gives
    the value back without the bits that the type does not have, and the
    members of the enums are the bits of the type. *)
Theorem rights_tl_roundtrip v until : - 2 ^ 31 <= v < 2 ^ 31 -> - 2 ^ 31 <= until < 2 ^ 31 ->
  banned_to_tl v until = Ok (flag_slots banned_bits v ++ [VInt until]) /\
  banned_from_tl (flag_slots banned_bits v ++ [VInt until]) = Ok (mask_of banned_bits v) /\
  admin_to_tl v = Ok (flag_slots admin_bits v) /\
  admin_from_tl (flag_slots admin_bits v) = Ok (mask_of admin_bits v) /\
  Banned.members = map (Z.shiftl 1) banned_bits /\ Admin.members = map (Z.shiftl 1) admin_bits /\
  (forall i, 0 <= i -> Z.testbit (mask_of banned_bits v) i = bool_decide (i ∈ banned_bits) && Z.testbit v i) /\
  (forall i, 0 <= i -> Z.testbit (mask_of admin_bits v) i = bool_decide (i ∈ admin_bits) && Z.testbit v i).
Proof.
  intros Hv Hu. split; [by apply banned_to_tl_spec|]. split; [by apply banned_from_tl_spec|].
  split; [by apply admin_to_tl_spec|]. split; [by apply admin_from_tl_spec|].
  split; [reflexivity|]. split; [reflexivity|].
  split; intros i Hi; apply testbit_mask_of; auto using banned_bits_nonneg, admin_bits_nonneg.
Qed.

Lemma rights_tl_roundtrip_witness :
  banned_to_tl (Z.lor Banned.SEND_PLAIN (Z.shiftl 1 30)) 7 = Ok (flag_slots banned_bits (Z.lor Banned.SEND_PLAIN (Z.shiftl 1 30)) ++ [VInt 7]) /\
  banned_from_tl (flag_slots banned_bits (Z.lor Banned.SEND_PLAIN (Z.shiftl 1 30)) ++ [VInt 7]) = Ok Banned.SEND_PLAIN.
Proof.
  destruct (rights_tl_roundtrip (Z.lor Banned.SEND_PLAIN (Z.shiftl 1 30)) 7) as (H1 & H2 & _).
  - split; vm_compute; congruence.
  - split; vm_compute; congruence.
  - split; [exact H1|]. rewrite H2. vm_compute. reflexivity.
Defined.

Lemma creator_rights c p admin regular :
  user_id p = creator_id c -> check_rights c (Some p) admin regular = true.
Proof. intros H. unfold check_rights. by rewrite H, Z.eqb_refl. Qed.

Lemma member_view c p : left p = false -> user_id p <> creator_id c -> 0 <= banned_rights p ->
  can_view_messages c (Some p) = (Z.land (banned_rights p) Banned.VIEW_MESSAGES =? 0).
Proof.
  intros Hl Hc Hb. unfold can_view_messages, absent_or_left, check_rights. rewrite Hl.
  rewrite (proj2 (Z.eqb_neq _ _)) by congruence.
  assert (is_broadcast c && (0 <? Admin.NONE) = false) as -> by apply andb_false_r.
  rewrite land_pos, has_all_none by done. by destruct (_ =? 0).
Qed.

Lemma member_can_send c p : check_can_send c (Some p) = can_view_messages c (Some p).
Proof. unfold check_can_send. destruct (can_view_messages _ _); [|done]. by destruct (kind c). Qed.


(** ** [update] *)
Definition update_fields (title description_ : option pystr) (photo : option (option Z)) (ttl : option Z)
    (c : ChatBase) : ChatBase :=
  let c := match title with Some t => set_name (strip t) c | None => c end in
  let c := match description_ with Some d => set_description (strip d) c | None => c end in
  let c := match photo with Some p => set_photo p c | None => c end in
  match ttl with Some t => set_ttl t c | None => c end.

(** [ChatBase.update] either fails with one of its four errors and writes nothing
    to the row, or applies every argument and raises the version of the row by exactly one
    (and does nothing when it is given nothing). The title must be new and not blank and the
    about text at most 255 characters; but the about text is compared with the
    title: repeating the present about text is accepted as a change, and one
    equal to the title is refused. *)
Theorem chat_update title description_ photo ttl c r row :
  update title description_ photo ttl (MkChatRow c c) = (r, row) ->
  (forall e, r = Raise e -> saved row = c /\
     e ∈ [ErrorRpc400 "CHAT_NOT_MODIFIED"; ErrorRpc400 "CHAT_TITLE_EMPTY";
          ErrorRpc400 "CHAT_ABOUT_NOT_MODIFIED"; ErrorRpc400 "CHAT_ABOUT_TOO_LONG"]) /\
  (r = Ok tt -> obj row = saved row /\
     saved row = (if decide (title = None /\ description_ = None /\ photo = None /\ ttl = None) then c
                  else bump_version (update_fields title description_ photo ttl c)) /\
     (forall t, title = Some t -> strip t <> [] /\ strip t <> name c) /\
     (forall d, description_ = Some d -> (length (strip d) <= 255)%nat)) /\
  (forall d, title = None -> description_ = Some d -> photo = None -> ttl = None ->
     (strip d = name c -> r = Raise (ErrorRpc400 "CHAT_ABOUT_NOT_MODIFIED")) /\
     (strip d = description c -> strip d <> name c -> (length (strip d) <= 255)%nat -> r = Ok tt)).
Proof.
  intros H.
  destruct c as [k n de v cr ph db tt_ del].
  unfold update, when_some, set_obj in H. unfold_monads.
  destruct title as [t|], description_ as [d|], photo as [p|], ttl as [l|]; cbn in H;
    repeat match type of H with
    | context [bool_decide ?P] => destruct (bool_decide P) eqn:?; cbn in H
    | context [?a <=? ?b] => destruct (a <=? b) eqn:?; cbn in H
    | context [?a =? ?b] => destruct (a =? b) eqn:?; cbn in H
    end; injection H as <- <-; b2p;
    (split; [intros e [=]; subst; (split; [done|set_solver])|]);
    (split; [intros [=]; rewrite ?decide_False by naive_solver; rewrite ?decide_True by done;
       (split; [done|]); (split; [done|]); (split; intros ? [=]; subst; auto with lia)|]);
    intros d' [=] [=] [=] [=]; subst; (split; intros; subst; (done || congruence || lia)).
Qed.

Module Sample_chat.
Definition chat : ChatBase := MkChatBase IsChat [65] [66] 4 1 None 0 0 false.
End Sample_chat.

Lemma chat_update_witness : exists r row,
  update (Some [32; 67]) None None None (MkChatRow Sample_chat.chat Sample_chat.chat) = (r, row) /\
  r = Ok tt /\ saved row = bump_version (set_name [67] Sample_chat.chat).
Proof.
  destruct (update (Some [32; 67]) None None None (MkChatRow Sample_chat.chat Sample_chat.chat))
    as [r row] eqn:E.
  destruct (chat_update (Some [32; 67]) None None None Sample_chat.chat r row E) as (_ & H & _).
  exists r, row. split; [reflexivity|].
  assert (Hr : r = Ok tt) by (vm_compute in E; injection E as <- _; reflexivity).
  split; [exact Hr|]. destruct (H Hr) as (_ & Hs & _). rewrite Hs. reflexivity.
Defined.

(** [user_has_permission] of someone outside a broadcast channel *)
Example user_has_permission_outsider :
  user_has_permission (MkChatBase (IsChannel true false true false) [] [] 1 1 None 0 0 false) None
    Banned.INVITE_USERS = Raise AttributeError.
Proof. reflexivity. Qed.

(** Ids of chats and channels never collide, and [norm_id] undoes both. *)
Lemma peer_ids i j : norm_id (chat_make_id i) = i /\ norm_id (channel_make_id i) = i /\
  chat_make_id i <> channel_make_id j.
Proof.
  unfold norm_id, chat_make_id, channel_make_id. split; [by apply Z.div_mul|]. split; [|lia].
  rewrite Z.add_comm, Z.div_add by done. done.
Qed.

(** A participant never sees older messages than an outsider. *)
Lemma min_id_participant h p m : min_id h None = Some m -> 0 < m ->
  exists m', min_id h (Some p) = Some m' /\ m <= m'.
Proof.
  unfold min_id, nonzero. set (f := or_zero (min_available_id_force h)).
  set (c := if hidden_prehistory h then _ else _). set (q := or_zero (min_message_id p)).
  intros Hm Hp. destruct (Z.max f c =? 0) eqn:E; [done|]. injection Hm as <-. b2p.
  rewrite (proj2 (Z.eqb_neq _ _)) by lia. eexists. split; [done|]. lia.
Qed.
