(* ===== verification/Stars.v ===== *)
(** The Stars wallet: balances, the transaction log and payment forms
    ([piltover/app/utils/stars_manager.py] with the models [UserStarsBalance],
    [StarsTransaction] and [StarsPaymentForm]).

    The rows are maps in [Db]. Every [async with in_transaction()] block is one
    atomic step, because it locks the balance rows it reads; what happens
    between two such steps of one coroutine may be another coroutine's step,
    and the two completions of a form are therefore written as phases. *)
From Stdlib Require Import Init.Byte.
From stdpp Require Import pretty.
From S2P Require Import Prelude PyBytes Sequences.

Inductive StarsPaymentPurpose := TOPUP | GIFT | BOT_INVOICE.
#[export] Instance StarsPaymentPurpose_eq_dec : EqDecision StarsPaymentPurpose.
Proof. solve_decision. Defined.

Inductive StarsTransactionPeerType :=
  FRAGMENT | APP_STORE | PLAY_MARKET | PREMIUM_BOT | PEER | ADS | API.

Record StarsAmount := MkStarsAmount { sa_amount : Z; sa_nanos : Z }.

Record UserStarsBalance := MkBalance { amount : Z; nanos : Z }.

Record StarsTransaction := MkTx {
  transaction_id : string; tx_user_id : Z; stars_amount : Z; stars_nanos : Z;
  inbound : bool; date : Z; peer_type : StarsTransactionPeerType;
  peer_user_id : option Z; tx_title : option string; tx_description : option string;
  gift : bool; refund : bool; tx_msg_id : option Z; bot_payload : option bytes }.

Record StarsPaymentForm := MkForm {
  form_id : Z; form_user_id : Z; purpose : StarsPaymentPurpose; form_stars : Z;
  currency : string; form_amount : Z; gift_user_id : option Z;
  bot_user_id : option Z; message_id : option Z; payload : option bytes;
  expires_at : Z }.

(** The TL object of an invoice; [photo] and [extended_media] are opaque. *)
Record MessageMediaInvoice := MkInvoice {
  title : string; description : string; inv_currency : string; total_amount : Z;
  start_param : string; shipping_address_requested : bool; test : bool;
  photo : option bytes; receipt_msg_id : option Z; extended_media : option bytes }.

(** A message content with its media: the media's [static_data], when it is
    an invoice. *)
Record MessageContent := MkContent {
  author_id : Z; author_bot : bool;
  is_invoice : bool; static_data : option bytes; edit_hide : bool; version : Z }.

Record Db := MkDb {
  clock : Z;                                 (* microseconds *)
  uuids : nat;                               (* calls of uuid4() so far *)
  snowflakes : Z;                            (* Snowflake._INCREMENT *)
  balances : gmap Z UserStarsBalance;        (* by user_id *)
  transactions : list StarsTransaction;      (* in the order of creation *)
  forms : gmap Z StarsPaymentForm;           (* by id *)
  users : gset Z;
  message_refs : gmap (Z * Z) Z;             (* (peer, message) to its content *)
  contents : gmap Z MessageContent;
  precheckouts : gset Z;                     (* BotPrecheckoutQuery rows *)
}.

Definition with_balances (b : gmap Z UserStarsBalance) (d : Db) : Db :=
  MkDb (clock d) (uuids d) (snowflakes d) b (transactions d) (forms d) (users d)
    (message_refs d) (contents d) (precheckouts d).
Definition with_tx (tx : StarsTransaction) (d : Db) : Db :=
  MkDb (clock d) (S (uuids d)) (snowflakes d) (balances d) (transactions d ++ [tx]) (forms d)
    (users d) (message_refs d) (contents d) (precheckouts d).
Definition with_forms (i : Z) (f : gmap Z StarsPaymentForm) (d : Db) : Db :=
  MkDb (clock d) (uuids d) i (balances d) (transactions d) f (users d)
    (message_refs d) (contents d) (precheckouts d).
Definition with_contents (c : gmap Z MessageContent) (d : Db) : Db :=
  MkDb (clock d) (uuids d) (snowflakes d) (balances d) (transactions d) (forms d) (users d)
    (message_refs d) c (precheckouts d).
Definition with_precheckouts (i : Z) (p : gset Z) (d : Db) : Db :=
  MkDb (clock d) (uuids d) i (balances d) (transactions d) (forms d) (users d)
    (message_refs d) (contents d) p.

Abbreviation D := (M Db).

Definition STARS_CURRENCY : string := "XTR".
Definition STARS_USD_SELL_RATE_X1000 : Z := 1410.
Definition STARS_USD_WITHDRAW_RATE_X1000 : Z := 1300.
Definition FORM_TTL_SECONDS : Z := 10 * 60.

Definition bot_net_stars (gross_stars : Z) : Z :=
  if gross_stars <=? 0 then 0
  else gross_stars * STARS_USD_WITHDRAW_RATE_X1000 / STARS_USD_SELL_RATE_X1000.

(** [UserStarsBalance.to_stars_amount], [StarsTransaction.to_stars_amount] *)
Definition balance_to_stars_amount (b : UserStarsBalance) : StarsAmount :=
  MkStarsAmount (amount b) (nanos b).
Definition to_stars_amount (t : StarsTransaction) : StarsAmount :=
  MkStarsAmount (if inbound t then stars_amount t else - stars_amount t)
    (if inbound t then stars_nanos t else - stars_nanos t).

(** [balance.save(update_fields=["amount"])]: the column is a signed 64-bit
    integer, and the database refuses other values. *)
Definition save_amount (user a : Z) : D unit :=
  ensure (fits 8 true a) OverflowError;;
  modify (fun d =>
    let n := match balances d !! user with Some b => nanos b | None => 0 end in
    with_balances (<[user := MkBalance a n]> (balances d)) d).

Definition create_balance (user : Z) : D UserStarsBalance :=
  modify (fun d => with_balances (<[user := MkBalance 0 0]> (balances d)) d);;
  mret (MkBalance 0 0).

(** [UserStarsBalance.filter(user_id=...).select_for_update().first()] *)
Definition balance_row (user : Z) : D (option UserStarsBalance) := gets (fun d => balances d !! user).

Definition balance_row_or_create (user : Z) : D UserStarsBalance :=
  row ← balance_row user;
  match row with Some b => mret b | None => create_balance user end.

(** [s or default] *)
Definition or_str (s : option string) (default : string) : string :=
  match s with Some "" | None => default | Some s => s end%string.

Section Wallet.
(** The n-th value of [uuid4().hex], the id of the user named "stars", and the
    worker and process of [Snowflake]. *)
Context (uuid4_hex : nat -> string) (stars_bot : option Z) (_WORKER _PROCESS : Z).

(** [StarsTransaction.create(transaction_id=gen_id(), date=int(time()), ...)] *)
Definition create_tx (user stars : Z) (inb : bool) (pt : StarsTransactionPeerType)
    (title description : option string) (gift : bool) (peer msg : option Z)
    (bot_payload : option bytes) : D StarsTransaction :=
  d ← get;
  ensure (fits 8 true stars) OverflowError;;
  let tx := MkTx (uuid4_hex (uuids d)) user stars 0 inb (clock d / 1000000) pt peer title
    description gift false msg bot_payload in
  put (with_tx tx d);; mret tx.

Definition get_stars_bot_user_id : result Z :=
  match stars_bot with Some u => Ok u | None => Raise RuntimeError end.

Definition _credit_stars (wallet_user_id stars : Z) (inb : bool) (pt : StarsTransactionPeerType)
    (title : string) (description : option string) (gift : bool) (peer msg : option Z)
    (bot_payload : option bytes) : D (UserStarsBalance * StarsTransaction) :=
  transaction (
    balance ← balance_row_or_create wallet_user_id;
    let a := amount balance + stars in
    save_amount wallet_user_id a;;
    tx ← create_tx wallet_user_id stars inb pt (Some title) description gift peer msg bot_payload;
    mret (MkBalance a (nanos balance), tx)).

Definition _debit_stars (wallet_user_id stars : Z) (pt : StarsTransactionPeerType)
    (title : string) (description : option string) (gift : bool) (peer msg : option Z)
    (bot_payload : option bytes) : D (UserStarsBalance * StarsTransaction) :=
  ensure (negb (stars <=? 0)) (ErrorRpc400 "STARS_AMOUNT_INVALID");;
  transaction (
    row ← balance_row wallet_user_id;
    match row with
    | None => raise (ErrorRpc400 "BALANCE_TOO_LOW")
    | Some balance =>
        ensure (negb (amount balance <? stars)) (ErrorRpc400 "BALANCE_TOO_LOW");;
        let a := amount balance - stars in
        save_amount wallet_user_id a;;
        tx ← create_tx wallet_user_id stars false pt (Some title) description gift peer msg bot_payload;
        mret (MkBalance a (nanos balance), tx)
    end).

(** The two balances are loaded as separate objects; each [save] writes what
    its own object holds, also when both are the same row. *)
Definition _transfer_stars (from_user_id to_user_id stars : Z)
    (from_peer_type to_peer_type : StarsTransactionPeerType) (title : string)
    (from_description to_description : option string) (from_peer to_peer msg : option Z)
    (bot_payload : option bytes) (recipient_stars : option Z)
    : D (UserStarsBalance * UserStarsBalance * StarsTransaction * StarsTransaction) :=
  ensure (negb (stars <=? 0)) (ErrorRpc400 "STARS_AMOUNT_INVALID");;
  let credited_stars := match recipient_stars with None => stars | Some r => r end in
  ensure (negb ((credited_stars <=? 0) || (stars <? credited_stars)))
    (ErrorRpc400 "STARS_AMOUNT_INVALID");;
  transaction (
    row ← balance_row from_user_id;
    match row with
    | None => raise (ErrorRpc400 "BALANCE_TOO_LOW")
    | Some payer =>
        ensure (negb (amount payer <? stars)) (ErrorRpc400 "BALANCE_TOO_LOW");;
        recipient ← balance_row_or_create to_user_id;
        let pa := amount payer - stars in
        let ra := amount recipient + credited_stars in
        save_amount from_user_id pa;;
        save_amount to_user_id ra;;
        outbound_tx ← create_tx from_user_id stars false from_peer_type (Some title)
          from_description false from_peer msg bot_payload;
        inbound_tx ← create_tx to_user_id credited_stars true to_peer_type (Some title)
          to_description false to_peer msg bot_payload;
        mret (MkBalance pa (nanos payer), MkBalance ra (nanos recipient), outbound_tx, inbound_tx)
    end).

Definition grant_stars (user_id stars : Z) (title : string) (description : option string)
    : D UserStarsBalance :=
  stars_bot_id ← lift_result get_stars_bot_user_id;
  '(balance, _) ← _credit_stars user_id stars true PEER title
    (Some (or_str description ("Received " +:+ pretty stars +:+ " Telegram Stars"))) false
    (Some stars_bot_id) None None;
  mret balance.

Definition spend_stars (user_id stars : Z) (pt : StarsTransactionPeerType) (title : string)
    (description : option string) (gift : bool) (peer : option Z) : D UserStarsBalance :=
  '(balance, _) ← _debit_stars user_id stars pt title description gift peer None None;
  mret balance.

Definition set_stars_balance (user_id a : Z) (title : string) (description : option string)
    : D UserStarsBalance :=
  ensure (negb (a <? 0)) (ErrorRpc400 "STARS_AMOUNT_INVALID");;
  stars_bot_id ← lift_result get_stars_bot_user_id;
  let description := Some (or_str description ("Balance set to " +:+ pretty a +:+ " stars")) in
  transaction (
    balance ← balance_row_or_create user_id;
    let current := amount balance in
    if current =? a then mret balance
    else if current <? a then
      save_amount user_id a;;
      create_tx user_id (a - current) true PEER (Some title) description false
        (Some stars_bot_id) None None;;
      mret (MkBalance a (nanos balance))
    else
      save_amount user_id a;;
      create_tx user_id (current - a) false PEER (Some title) description false
        (Some stars_bot_id) None None;;
      mret (MkBalance a (nanos balance))).
End Wallet.

(** ** The ledger invariant *)
Definition amount_of (d : Db) (u : Z) : Z :=
  match balances d !! u with Some b => amount b | None => 0 end.

(** What the transactions of [u] add up to. *)
Definition ledger (u : Z) (l : list StarsTransaction) : Z :=
  foldr (fun t acc => (if bool_decide (tx_user_id t = u) then sa_amount (to_stars_amount t) else 0)
    + acc) 0 l.

(** Every balance is what the transaction log says, non-negative and a 64-bit
    integer; every logged amount is positive. *)
Record wf (d : Db) : Prop := {
  wf_ledger : forall u, amount_of d u = ledger u (transactions d);
  wf_range : forall u, 0 <= amount_of d u < 2 ^ 63;
  wf_positive : Forall (fun t => 0 < stars_amount t) (transactions d) }.

(** What a wallet operation may change: balances and the log, which only
    grows. *)
Definition same_rest (d d' : Db) : Prop :=
  clock d' = clock d /\ snowflakes d' = snowflakes d /\ forms d' = forms d /\
  users d' = users d /\ message_refs d' = message_refs d /\ contents d' = contents d /\
  precheckouts d' = precheckouts d /\
  exists new, transactions d' = transactions d ++ new /\ uuids d' = (uuids d + length new)%nat.

Lemma ledger_app u l k : ledger u (l ++ k) = ledger u l + ledger u k.
Proof. induction l as [|t l IH]; simpl; [done|]. rewrite IH. lia. Qed.

Lemma same_rest_refl d : same_rest d d.
Proof. repeat split. exists []. by rewrite app_nil_r, Nat.add_0_r. Qed.

Lemma same_rest_trans d d' d'' : same_rest d d' -> same_rest d' d'' -> same_rest d d''.
Proof.
  intros (?&?&?&?&?&?&?&n&Hn&?) (?&?&?&?&?&?&?&k&Hk&?). repeat split; try congruence.
  exists (n ++ k). rewrite Hk, Hn, app_assoc, length_app. split; [done|lia].
Qed.

Lemma fits8 z : fits 8 true z = true <-> - 2 ^ 63 <= z < 2 ^ 63.
Proof. unfold fits. rewrite andb_true_iff, Z.leb_le, Z.ltb_lt. done. Qed.

Definition set_amount (u a : Z) (d : Db) : Db :=
  with_balances (<[u := MkBalance a (match balances d !! u with Some b => nanos b | None => 0 end)]>
    (balances d)) d.

Lemma save_amount_run u a d : fits 8 true a = true -> save_amount u a d = (Ok tt, set_amount u a d).
Proof. intros H. unfold save_amount, set_amount. unfold_monads. by rewrite H. Qed.

Lemma amount_of_set u a d v :
  amount_of (set_amount u a d) v = if decide (u = v) then a else amount_of d v.
Proof.
  unfold amount_of, set_amount. simpl. case_decide; subst.
  - by rewrite lookup_insert_eq.
  - by rewrite lookup_insert_ne.
Qed.

(** Creating the row of a user without one changes nothing that [amount_of]
    sees. *)
Definition touch (u : Z) (d : Db) : Db :=
  match balances d !! u with Some _ => d | None => set_amount u 0 d end.

Lemma balance_row_or_create_run u d :
  exists n, balance_row_or_create u d = (Ok (MkBalance (amount_of d u) n), touch u d).
Proof.
  unfold balance_row_or_create, balance_row, create_balance, touch, set_amount, amount_of.
  unfold_monads. destruct (balances d !! u) as [[a n]|] eqn:E; [by exists n|].
  exists 0. done.
Qed.

Lemma amount_of_touch u d v : amount_of (touch u d) v = amount_of d v.
Proof.
  unfold touch. destruct (balances d !! u) as [b|] eqn:E; [done|].
  rewrite amount_of_set. case_decide; subst; [|done]. unfold amount_of. by rewrite E.
Qed.

Lemma transactions_touch u d : transactions (touch u d) = transactions d.
Proof. unfold touch. by destruct (balances d !! u). Qed.

(** [d'] is [d] with [txs] logged and applied to the balances. *)
Record posted (d d' : Db) (txs : list StarsTransaction) : Prop := {
  posted_rest : same_rest d d';
  posted_log : transactions d' = transactions d ++ txs;
  posted_amounts : forall u, amount_of d' u = amount_of d u + ledger u txs }.

Lemma posted_wf d d' txs : wf d -> posted d d' txs ->
  Forall (fun t => 0 < stars_amount t) txs ->
  (forall u, 0 <= amount_of d u + ledger u txs < 2 ^ 63) -> wf d'.
Proof.
  intros [Hl Hr Hp] [_ Hlog Ha] Hpos Hrange. split.
  - intros u. by rewrite Ha, Hlog, ledger_app, Hl.
  - intros u. rewrite Ha. apply Hrange.
  - rewrite Hlog. by apply Forall_app.
Qed.

Lemma posted_refl d d' : same_rest d d' -> transactions d' = transactions d ->
  (forall u, amount_of d' u = amount_of d u) -> posted d d' [].
Proof. intros ? Ht ?. split; [done|by rewrite Ht, app_nil_r|]. intros u. simpl. rewrite Z.add_0_r. auto. Qed.

Lemma same_rest_balances d d' : same_rest d d' -> forall b, same_rest d (with_balances b d').
Proof. done. Qed.

Lemma same_rest_touch d u : same_rest d (touch u d).
Proof.
  unfold touch. destruct (balances d !! u); [apply same_rest_refl|].
  apply same_rest_balances, same_rest_refl.
Qed.

Section WalletSpecs.
Context (uuid4_hex : nat -> string) (stars_bot : option Z).

Definition tx_at (d : Db) (user stars : Z) (inb : bool) (pt : StarsTransactionPeerType)
    (title description : option string) (gift : bool) (peer msg : option Z)
    (payload : option bytes) : StarsTransaction :=
  MkTx (uuid4_hex (uuids d)) user stars 0 inb (clock d / 1000000) pt peer title description gift
    false msg payload.

Lemma create_tx_run user stars inb pt title description gift peer msg payload d :
  fits 8 true stars = true ->
  let tx := tx_at d user stars inb pt title description gift peer msg payload in
  create_tx uuid4_hex user stars inb pt title description gift peer msg payload d
  = (Ok tx, with_tx tx d).
Proof. intros H. unfold create_tx. unfold_monads. by rewrite H. Qed.

Lemma uuids_touch u d : uuids (touch u d) = uuids d.
Proof. unfold touch. by destruct (balances d !! u). Qed.
Lemma clock_touch u d : clock (touch u d) = clock d.
Proof. unfold touch. by destruct (balances d !! u). Qed.

Lemma posted_one d d1 u a tx :
  same_rest d d1 -> transactions d1 = transactions d -> (forall v, amount_of d1 v = amount_of d v) ->
  tx_user_id tx = u -> a = amount_of d u + sa_amount (to_stars_amount tx) ->
  posted d (with_tx tx (set_amount u a d1)) [tx].
Proof.
  intros Hs Ht Ha Hu ->. split.
  - destruct Hs as (?&?&?&?&?&?&?&n&Hn&?). repeat split; try done.
    exists [tx]. simpl. rewrite Ht. split; [done|].
    rewrite Ht in Hn. apply (f_equal length) in Hn. rewrite length_app in Hn. lia.
  - simpl. by rewrite Ht.
  - intros v. change (amount_of (with_tx tx ?x) v) with (amount_of x v).
    rewrite amount_of_set. simpl. rewrite Hu, Ha.
    destruct (decide (u = v)) as [->|].
    + rewrite bool_decide_eq_true_2 by done. lia.
    + rewrite bool_decide_eq_false_2 by done. lia.
Qed.

Lemma credit_ok u stars pt title description gift peer msg payload d :
  fits 8 true (amount_of d u + stars) = true -> fits 8 true stars = true ->
  exists b d', let tx := tx_at d u stars true pt (Some title) description gift peer msg payload in
    _credit_stars uuid4_hex u stars true pt title description gift peer msg payload d
      = (Ok (b, tx), d') /\
    amount b = amount_of d u + stars /\ posted d d' [tx].
Proof.
  intros Hf Hs. destruct (balance_row_or_create_run u d) as [n Hrow].
  set (tx := tx_at (touch u d) u stars true pt (Some title) description gift peer msg payload).
  eexists _, (with_tx tx (set_amount u (amount_of d u + stars) (touch u d))). split_and!.
  - unfold _credit_stars. apply transaction_ok.
    erewrite M_bind_step; [|apply Hrow]. cbn [amount nanos].
    erewrite M_bind_step; [|by apply save_amount_run].
    erewrite M_bind_step; [|by apply create_tx_run].
    unfold mret, M_ret. unfold tx, tx_at. cbn. by rewrite uuids_touch, clock_touch.
  - done.
  - replace (tx_at d u stars true pt (Some title) description gift peer msg payload) with tx
      by (unfold tx, tx_at; by rewrite uuids_touch, clock_touch).
    apply posted_one; [apply same_rest_touch|apply transactions_touch|intros v; apply amount_of_touch|done|done].
Qed.

Lemma credit_overflow u stars inb pt title description gift peer msg payload d :
  fits 8 true (amount_of d u + stars) && fits 8 true stars = false ->
  _credit_stars uuid4_hex u stars inb pt title description gift peer msg payload d
  = (Raise OverflowError, d).
Proof.
  intros Hf. destruct (balance_row_or_create_run u d) as [n Hrow].
  unfold _credit_stars, transaction.
  erewrite M_bind_step; [|apply Hrow]. cbn [amount nanos].
  destruct (fits 8 true (amount_of d u + stars)) eqn:Hf1.
  - erewrite M_bind_step; [|by apply save_amount_run]. rewrite andb_true_l in Hf.
    erewrite M_bind_raise; [done|]. unfold create_tx. unfold_monads. by rewrite Hf.
  - erewrite M_bind_raise; [done|]. unfold save_amount. unfold_monads. by rewrite Hf1.
Qed.

(** The outcome of [_debit_stars], branch by branch. *)
Lemma debit_spec u stars pt title description gift peer msg payload d :
  (forall v, 0 <= amount_of d v < 2 ^ 63) ->
  if stars <=? 0 then
    _debit_stars uuid4_hex u stars pt title description gift peer msg payload d
    = (Raise (ErrorRpc400 "STARS_AMOUNT_INVALID"), d)
  else if amount_of d u <? stars then
    _debit_stars uuid4_hex u stars pt title description gift peer msg payload d
    = (Raise (ErrorRpc400 "BALANCE_TOO_LOW"), d)
  else exists b d',
    let tx := tx_at d u stars false pt (Some title) description gift peer msg payload in
    _debit_stars uuid4_hex u stars pt title description gift peer msg payload d = (Ok (b, tx), d') /\
    amount b = amount_of d u - stars /\ posted d d' [tx].
Proof.
  intros Hr. specialize (Hr u). unfold _debit_stars.
  destruct (stars <=? 0) eqn:Hs; [done|]. b2p.
  erewrite M_bind_step; [|reflexivity].
  unfold amount_of in *. destruct (balances d !! u) as [[a n]|] eqn:E; simpl in *.
  - destruct (a <? stars) eqn:Ha; b2p.
    + unfold transaction, balance_row. unfold_monads. rewrite E. simpl.
      by rewrite (proj2 (Z.ltb_lt a stars)).
    + eexists _, (with_tx _ (set_amount u (a - stars) d)). split_and!.
      * apply transaction_ok. erewrite M_bind_step; [|reflexivity]. rewrite E.
        cbn [amount nanos]. rewrite (proj2 (Z.ltb_ge a stars)) by lia.
        erewrite M_bind_step; [|reflexivity].
        erewrite M_bind_step; [|apply save_amount_run, fits8; lia].
        erewrite M_bind_step; [|apply create_tx_run, fits8; lia]. reflexivity.
      * done.
      * apply posted_one; try done; [apply same_rest_refl|].
        unfold amount_of. rewrite E. simpl. lia.
  - rewrite (proj2 (Z.ltb_lt 0 stars)) by lia.
    unfold transaction, balance_row. unfold_monads. by rewrite E.
Qed.

Lemma same_rest_set u a d d' : same_rest d d' -> same_rest d (set_amount u a d').
Proof. done. Qed.

Lemma same_rest_tx d d' tx : same_rest d d' -> same_rest d (with_tx tx d').
Proof.
  intros (?&?&?&?&?&?&?&n&Hn&Hu). repeat split; try done. exists (n ++ [tx]). simpl.
  rewrite Hn, app_assoc, length_app. split; [done|simpl; lia].
Qed.

Lemma touch_lookup u v d b : balances d !! u = Some b -> balances (touch v d) !! u = Some b.
Proof.
  intros H. unfold touch. destruct (balances d !! v) as [c|] eqn:E; [done|].
  unfold set_amount. simpl. rewrite lookup_insert_ne; [done|]. intros ->. by rewrite H in E.
Qed.

(** What [_transfer_stars] does once its arguments passed the checks and the
    payer can pay: two sequential writes. *)
Lemma transfer_run u v stars pt pt' title fd td fp tp msg payload r d :
  let credited := match r with None => stars | Some r => r end in
  0 < credited <= stars -> stars <= amount_of d u -> (forall w, 0 <= amount_of d w < 2 ^ 63) ->
  let d1 := set_amount u (amount_of d u - stars) (touch v d) in
  let out := tx_at d u stars false pt (Some title) fd false fp msg payload in
  let inn := tx_at (with_tx out d) v credited true pt' (Some title) td false tp msg payload in
  exists pb rb,
  _transfer_stars uuid4_hex u v stars pt pt' title fd td fp tp msg payload r d
  = (if fits 8 true (amount_of d v + credited)
     then (Ok (pb, rb, out, inn),
           with_tx inn (with_tx out (set_amount v (amount_of d v + credited) d1)))
     else (Raise OverflowError, d)) /\
  amount pb = amount_of d u - stars /\ amount rb = amount_of d v + credited.
Proof.
  intros credited Hc Ha Hr d1 out inn. pose proof (Hr u) as Hru. pose proof (Hr v) as Hrv.
  unfold amount_of at 1 in Ha. destruct (balances d !! u) as [[a n]|] eqn:E; [|lia]. simpl in Ha.
  assert (Hau : amount_of d u = a) by (unfold amount_of; by rewrite E). rewrite Hau in *.
  destruct (balance_row_or_create_run v d) as [m Hrow].
  exists (MkBalance (a - stars) n), (MkBalance (amount_of d v + credited) m).
  split; [|done]. unfold _transfer_stars. fold credited.
  rewrite (proj2 (Z.leb_gt stars 0)) by lia.
  rewrite (proj2 (Z.leb_gt credited 0)) by lia.
  rewrite (proj2 (Z.ltb_ge stars credited)) by lia.
  erewrite M_bind_step; [|reflexivity]. cbv zeta. erewrite M_bind_step; [|reflexivity].
  unfold transaction. erewrite M_bind_step; [|reflexivity]. rewrite E. cbn [amount nanos].
  rewrite (proj2 (Z.ltb_ge a stars)) by lia.
  erewrite M_bind_step; [|reflexivity]. erewrite M_bind_step; [|apply Hrow]. cbn [amount nanos].
  erewrite M_bind_step; [|apply save_amount_run, fits8; lia]. fold d1.
  destruct (fits 8 true (amount_of d v + credited)) eqn:Hf.
  - erewrite M_bind_step; [|by apply save_amount_run].
    erewrite M_bind_step; [|apply create_tx_run, fits8; lia].
    erewrite M_bind_step; [|apply create_tx_run, fits8; lia].
    unfold mret, M_ret. unfold out, inn, d1, tx_at. cbn.
    by rewrite uuids_touch, clock_touch, Hau.
  - erewrite M_bind_raise; [done|]. unfold save_amount. unfold_monads. by rewrite Hf.
Qed.

Lemma transfer_posted u v stars pt pt' title fd td fp tp msg payload credited d :
  u <> v ->
  let out := tx_at d u stars false pt (Some title) fd false fp msg payload in
  let inn := tx_at (with_tx out d) v credited true pt' (Some title) td false tp msg payload in
  posted d (with_tx inn (with_tx out (set_amount v (amount_of d v + credited)
     (set_amount u (amount_of d u - stars) (touch v d))))) [out; inn].
Proof.
  intros Hne out inn. split.
  - by apply same_rest_tx, same_rest_tx, same_rest_set, same_rest_set, same_rest_touch.
  - simpl. rewrite transactions_touch. by rewrite <- app_assoc.
  - intros w. change (amount_of (with_tx _ (with_tx _ ?x)) w) with (amount_of x w).
    rewrite !amount_of_set, amount_of_touch. unfold out, inn, tx_at. simpl.
    destruct (decide (v = w)) as [->|].
    + rewrite (bool_decide_eq_true_2 (w = w)) by done.
      rewrite (bool_decide_eq_false_2 (u = w)) by done. lia.
    + rewrite (bool_decide_eq_false_2 (v = w)) by done.
      destruct (decide (u = w)) as [->|].
      * rewrite bool_decide_eq_true_2 by done. lia.
      * rewrite bool_decide_eq_false_2 by done. lia.
Qed.

(** Errors of [_transfer_stars] before anything is written. *)
Lemma transfer_refused u v stars pt pt' title fd td fp tp msg payload r d :
  let credited := match r with None => stars | Some r => r end in
  (stars <= 0 \/ credited <= 0 \/ stars < credited \/ amount_of d u < stars) ->
  exists m, _transfer_stars uuid4_hex u v stars pt pt' title fd td fp tp msg payload r d
    = (Raise (ErrorRpc400 m), d) /\
    (m = "STARS_AMOUNT_INVALID" \/ m = "BALANCE_TOO_LOW")%string.
Proof.
  intros credited H. unfold _transfer_stars. fold credited.
  destruct (stars <=? 0) eqn:H1; [eexists; split; [reflexivity|by left]|].
  erewrite M_bind_step; [|reflexivity]. cbv zeta.
  destruct (credited <=? 0) eqn:H2; [eexists; split; [reflexivity|by left]|].
  destruct (stars <? credited) eqn:H3; [eexists; split; [reflexivity|by left]|].
  erewrite M_bind_step; [|reflexivity]. exists "BALANCE_TOO_LOW"%string. split; [|by right]. b2p.
  unfold transaction, balance_row. unfold_monads. unfold amount_of in H.
  destruct (balances d !! u) as [[a n]|]; [|done]. simpl in *.
  rewrite (proj2 (Z.ltb_lt a stars)) by lia. done.
Qed.

(** [set_stars_balance] logs the difference. *)
Lemma set_stars_balance_run u a title description bot d :
  0 <= a < 2 ^ 63 -> (forall w, 0 <= amount_of d w < 2 ^ 63) -> stars_bot = Some bot ->
  exists b d' txs,
    set_stars_balance uuid4_hex stars_bot u a title description d = (Ok b, d') /\
    amount b = a /\ posted d d' txs /\ amount_of d' u = a /\ (length txs <= 1)%nat /\
    Forall (fun t => tx_user_id t = u /\ 0 < stars_amount t) txs.
Proof.
  intros Ha Hr Hbot. pose proof (Hr u) as Hu. unfold set_stars_balance.
  rewrite (proj2 (Z.ltb_ge a 0)) by lia. erewrite M_bind_step; [|reflexivity].
  rewrite Hbot. erewrite M_bind_step; [|reflexivity]. cbv zeta.
  destruct (balance_row_or_create_run u d) as [n Hrow].
  assert (Hlog : forall inb stars, 0 < stars < 2 ^ 63 ->
    a = amount_of d u + (if inb : bool then stars else - stars) ->
    let tx := tx_at (set_amount u a (touch u d)) u stars inb PEER (Some title)
      (Some (or_str description ("Balance set to " +:+ pretty a +:+ " stars"))) false (Some bot) None None in
    posted d (with_tx tx (set_amount u a (touch u d))) [tx]).
  { intros inb stars Hs Heq tx. apply posted_one; [apply same_rest_touch|apply transactions_touch| |done|].
    - intros v. apply amount_of_touch.
    - done. }
  destruct (Z.eq_dec (amount_of d u) a) as [Heq|Hne].
  { subst a. eexists (MkBalance _ n), (touch u d), []. split_and!.
    - apply transaction_ok. erewrite M_bind_step; [|apply Hrow]. cbn [amount nanos].
      by rewrite Z.eqb_refl.
    - done.
    - apply posted_refl; [apply same_rest_touch|apply transactions_touch|apply amount_of_touch].
    - apply amount_of_touch.
    - simpl. lia.
    - done. }
  destruct (Z.lt_ge_cases (amount_of d u) a) as [Hlt|Hge].
  - eexists (MkBalance _ n), _, [_]. split_and!; cycle 1.
    + done.
    + apply (Hlog true (a - amount_of d u)); lia.
    + change (amount_of (set_amount u a (touch u d)) u = a). rewrite amount_of_set.
      by rewrite decide_True.
    + done.
    + repeat constructor; simpl; lia.
    + apply transaction_ok. erewrite M_bind_step; [|apply Hrow]. cbn [amount nanos].
      rewrite (proj2 (Z.eqb_neq _ _)) by done. rewrite (proj2 (Z.ltb_lt _ _)) by done.
      erewrite M_bind_step; [|apply save_amount_run, fits8; lia].
      erewrite M_bind_step; [|apply create_tx_run, fits8; lia]. done.
  - eexists (MkBalance _ n), _, [_]. split_and!; cycle 1.
    + done.
    + apply (Hlog false (amount_of d u - a)); lia.
    + change (amount_of (set_amount u a (touch u d)) u = a). rewrite amount_of_set.
      by rewrite decide_True.
    + done.
    + repeat constructor; simpl; lia.
    + apply transaction_ok. erewrite M_bind_step; [|apply Hrow]. cbn [amount nanos].
      rewrite (proj2 (Z.eqb_neq _ _)) by done. rewrite (proj2 (Z.ltb_ge _ _)) by lia.
      erewrite M_bind_step; [|apply save_amount_run, fits8; lia].
      erewrite M_bind_step; [|apply create_tx_run, fits8; lia]. done.
Qed.
End WalletSpecs.

(** ** Payment forms *)

Section Invoices.
(** The generated reader and writer of [MessageMediaInvoice]. *)
Context (read_invoice : bytes -> result MessageMediaInvoice)
  (write_invoice : MessageMediaInvoice -> result bytes).

(** [len(b).to_bytes(4, "little")] raises [OverflowError] from 4 GiB on. *)
Definition _pack_invoice_static (invoice_tl : MessageMediaInvoice) (payload : bytes) : result bytes :=
  invoice_bytes ← write_invoice invoice_tl;
  len ← to_bytes_le 4 false (Z.of_nat (length invoice_bytes));
  Ok (len ++ invoice_bytes ++ payload).

Definition _unpack_invoice_static (data : bytes) : result (MessageMediaInvoice * bytes) :=
  if (length data <? 4)%nat then Raise (ErrorRpc400 "INVOICE_INVALID") else
  let invoice_len := Z.to_nat (from_bytes_le false (take 4 data)) in
  let invoice_end := (4 + invoice_len)%nat in
  if (length data <? invoice_end)%nat then Raise (ErrorRpc400 "INVOICE_INVALID") else
  invoice ← read_invoice (take (invoice_end - 4) (drop 4 data));
  Ok (invoice, drop invoice_end data).
End Invoices.

Definition _invoice_is_paid (invoice_media : MessageMediaInvoice) : bool :=
  match receipt_msg_id invoice_media with Some _ => true | None => false end.

(** [Invoice]: the currency and the labelled prices *)
Record Invoice := MkTlInvoice { i_currency : string; i_prices : list (string * Z) }.

Definition _invoice_for_stars (stars : Z) : Invoice := MkTlInvoice STARS_CURRENCY [("Stars"%string, stars)].
Definition _invoice_for_fiat (currency : string) (amount : Z) : Invoice :=
  MkTlInvoice currency [("Stars"%string, amount)].
Definition _invoice_total_amount (i : Invoice) : Z := foldr (fun p acc => p.2 + acc) 0 (i_prices i).

(** [PaymentFormStars] and [PaymentForm] (with its provider and url) *)
Inductive PaymentFormResult :=
  | PaymentFormStars (form_id bot_id : Z) (title description : string) (invoice : Invoice)
  | PaymentForm (form_id bot_id : Z) (title description : string) (invoice : Invoice)
      (provider_id : Z) (url : string).

Definition SYSTEM_STARS_BOT_ID : Z := 777000.
Definition STARS_PAYMENT_URL : string := "https://example.org".

(** [bs.decode("utf-8", errors="replace")], as UTF-8 again: every maximal
    invalid piece becomes U+FFFD. *)
Definition FFFD : bytes := [xef; xbf; xbd].
Fixpoint decode_replace (bs : bytes) : bytes :=
  match bs with
  | [] => []
  | b0 :: r0 =>
    let z := byte_val b0 in
    let lo := if z =? 0xE0 then 0xA0 else if z =? 0xF0 then 0x90 else 0x80 in
    let hi := if z =? 0xED then 0x9F else if z =? 0xF4 then 0x8F else 0xBF in
    if z <? 0x80 then b0 :: decode_replace r0
    else if (z <? 0xC2) || (0xF4 <? z) then FFFD ++ decode_replace r0
    else match r0 with
    | [] => FFFD
    | b1 :: r1 =>
      if negb ((lo <=? byte_val b1) && (byte_val b1 <=? hi)) then FFFD ++ decode_replace r0
      else if z <? 0xE0 then b0 :: b1 :: decode_replace r1
      else match r1 with
      | [] => FFFD
      | b2 :: r2 =>
        if negb (is_cont b2) then FFFD ++ decode_replace r1
        else if z <? 0xF0 then b0 :: b1 :: b2 :: decode_replace r2
        else match r2 with
        | [] => FFFD
        | b3 :: r3 =>
          if negb (is_cont b3) then FFFD ++ decode_replace r2
          else b0 :: b1 :: b2 :: b3 :: decode_replace r3
        end
      end
    end
  end.

Section Payments.
Context {InputPeer : Type}.

Inductive InputStorePaymentPurpose :=
  | InputStorePaymentStarsTopup (stars : Z) (currency : string) (amount : Z)
  | InputStorePaymentStarsGift (user_id : InputPeer) (stars : Z) (currency : string) (amount : Z)
  | OtherPurpose.

Inductive InputInvoice :=
  | InputInvoiceStars (purpose : InputStorePaymentPurpose)
  | InputInvoiceMessage (peer : InputPeer) (msg_id : Z)
  | OtherInvoice.

(** What the payments rely on: ids, the process, the generated codec, the
    resolution of peers ([Peer.query_from_input_user_or_raise] and
    [Peer.from_input_peer_raise]) and which users are system users. *)
Record Env := MkEnv {
  uuid4_hex : nat -> string; stars_bot : option Z; worker_ : Z; process_ : Z;
  read_invoice : bytes -> result MessageMediaInvoice;
  write_invoice : MessageMediaInvoice -> result bytes;
  resolve_user : Z -> InputPeer -> result Z;
  resolve_peer : Z -> InputPeer -> result Z;
  is_system : Z -> bool }.

Context (E : Env).

Definition _parse_stars_invoice (user_id : Z) (invoice : InputInvoice)
    : result (StarsPaymentPurpose * Z * string * Z * option Z) :=
  match invoice with
  | InputInvoiceStars (InputStorePaymentStarsTopup stars currency amount) =>
      if stars <=? 0 then Raise (ErrorRpc400 "STARS_AMOUNT_INVALID")
      else Ok (TOPUP, stars, currency, amount, None)
  | InputInvoiceStars (InputStorePaymentStarsGift u stars currency amount) =>
      if stars <=? 0 then Raise (ErrorRpc400 "STARS_AMOUNT_INVALID")
      else gift ← resolve_user E user_id u; Ok (GIFT, stars, currency, amount, Some gift)
  | _ => Raise (ErrorRpc400 "INVOICE_INVALID")
  end.

(** A [Snowflake] id at the clock of the database. *)
Definition make_snowflake : D Z := fun d =>
  match Snowflake.make_id (worker_ E) (process_ E) (clock d / 1000) true (snowflakes d) with
  | (r, inc) => (r, with_forms inc (forms d) d)
  end.

(** [StarsPaymentForm.create_form] with the column limits of the table and its
    primary key *)
Definition create_form (user_id : Z) (purpose : StarsPaymentPurpose) (stars : Z) (currency : string)
    (amount : Z) (gift_user_id bot_user_id message_id : option Z) (payload : option bytes) : D Z :=
  id ← make_snowflake;
  ensure (String.length currency <=? 8)%nat ValidationError;;
  d ← get;
  ensure (fits 8 true stars && fits 8 true amount && fits 8 true id) OverflowError;;
  ensure (bool_decide (forms d !! id = None)) RuntimeError;;
  let f := MkForm id user_id purpose stars currency amount gift_user_id bot_user_id message_id payload
    (clock d + FORM_TTL_SECONDS * 1000000) in
  put (with_forms (snowflakes d) (<[id := f]> (forms d)) d);; mret id.

Definition is_expired (f : StarsPaymentForm) (d : Db) : bool := expires_at f <? clock d.
Definition delete_form (f : StarsPaymentForm) : D unit :=
  modify (fun d => with_forms (snowflakes d) (delete (form_id f) (forms d)) d).

(** [StarsPaymentForm.get_or_none(id=form_id, user_id=user_id)] *)
Definition get_form (user_id id : Z) : D (option StarsPaymentForm) := gets (fun d =>
  match forms d !! id with
  | Some f => if form_user_id f =? user_id then Some f else None
  | None => None
  end).

(** [_load_bot_invoice_message]: the content of the message, the invoice, the
    payload and the bot *)
Definition _load_bot_invoice_message (user_id : Z) (peer : InputPeer) (msg_id : Z)
    : D (Z * MessageMediaInvoice * bytes * Z) :=
  peer_id ← lift_result (resolve_peer E user_id peer);
  d ← get;
  match message_refs d !! (peer_id, msg_id) with
  | None => raise (ErrorRpc400 "MESSAGE_ID_INVALID")
  | Some content_id =>
    match contents d !! content_id with
    | None => raise (ErrorRpc400 "MESSAGE_ID_INVALID")
    | Some content =>
      ensure (author_bot content) (ErrorRpc400 "MESSAGE_ID_INVALID");;
      match (if is_invoice content then static_data content else None) with
      | None => raise (ErrorRpc400 "INVOICE_INVALID")
      | Some data =>
        '(invoice_media, payload) ← lift_result (_unpack_invoice_static (read_invoice E) data);
        ensure (bool_decide (inv_currency invoice_media = STARS_CURRENCY))
          (ErrorRpc400 "CURRENCY_TOTAL_AMOUNT_INVALID");;
        ensure (negb (_invoice_is_paid invoice_media)) (ErrorRpc400 "MEDIA_ALREADY_PAID");;
        mret (content_id, invoice_media, payload, author_id content)
      end
    end
  end.

Definition _create_bot_payment_form (user_id : Z) (peer : InputPeer) (msg_id : Z) : D PaymentFormResult :=
  '(_, invoice_media, payload, bot) ← _load_bot_invoice_message user_id peer msg_id;
  let stars := total_amount invoice_media in
  id ← create_form user_id BOT_INVOICE stars (inv_currency invoice_media) stars None (Some bot)
    (Some msg_id) (Some payload);
  mret (PaymentFormStars id bot (title invoice_media) (description invoice_media)
    (MkTlInvoice (inv_currency invoice_media) [(title invoice_media, stars)])).

Definition create_payment_form (user_id : Z) (invoice : InputInvoice) : D PaymentFormResult :=
  match invoice with
  | InputInvoiceMessage peer msg_id => _create_bot_payment_form user_id peer msg_id
  | _ =>
    '(purpose, stars, currency, amount, gift) ← lift_result (_parse_stars_invoice user_id invoice);
    d ← get;
    '(title, description) ←
      (match purpose with
       | GIFT =>
           ensure (match gift with Some g => bool_decide (g ∈ users d) | None => false end)
             (ErrorRpc400 "USER_ID_INVALID");;
           mret ("Gift Telegram Stars"%string, ("Gift " +:+ pretty stars +:+ " Telegram Stars")%string)
       | _ => mret ("Top Up Telegram Stars"%string, ("Buy " +:+ pretty stars +:+ " Telegram Stars")%string)
       end);
    id ← create_form user_id purpose stars currency amount gift None None None;
    if bool_decide (currency = STARS_CURRENCY)
    then mret (PaymentFormStars id SYSTEM_STARS_BOT_ID title description (_invoice_for_stars stars))
    else mret (PaymentForm id SYSTEM_STARS_BOT_ID title description (_invoice_for_fiat currency amount)
                 SYSTEM_STARS_BOT_ID STARS_PAYMENT_URL)
  end.

(** [complete_payment_form] after the form was read: everything from the
    expiry test on. *)
Definition finish_stars_form (user_id : Z) (purpose' : StarsPaymentPurpose) (stars : Z)
    (gift' : option Z) (form : StarsPaymentForm) : D (UserStarsBalance * list Z) :=
  d ← get;
  if is_expired form d then delete_form form;; raise (ErrorRpc400 "FORM_EXPIRED") else
  ensure (bool_decide (purpose form = purpose') && (form_stars form =? stars)) (ErrorRpc400 "INVOICE_INVALID");;
  ensure (negb (bool_decide (purpose' = GIFT)) || bool_decide (gift_user_id form = gift'))
    (ErrorRpc400 "INVOICE_INVALID");;
  delete_form form;;
  let paid_with_stars := bool_decide (currency form = STARS_CURRENCY) in
  match purpose' with
  | TOPUP =>
      ensure (negb paid_with_stars) (ErrorRpc400 "INVOICE_INVALID");;
      '(balance, _) ← _credit_stars (uuid4_hex E) user_id stars true FRAGMENT "Stars Top-Up"
        (Some ("Purchased " +:+ pretty stars +:+ " Telegram Stars")%string) false None None None;
      mret (balance, [user_id])
  | _ =>
      match gift' with
      | None => raise AssertionError
      | Some gift_user =>
          '(payer_balance, updated) ←
            (if paid_with_stars then
               '(b, _) ← _debit_stars (uuid4_hex E) user_id stars PEER "Stars Gift"
                 (Some ("Gifted " +:+ pretty stars +:+ " Telegram Stars")%string) true (Some gift_user) None None;
               mret (b, [user_id])
             else b ← balance_row_or_create user_id; mret (b, []));
          '(recipient_balance, _) ← _credit_stars (uuid4_hex E) gift_user stars true PEER "Stars Gift"
            (Some ("Received " +:+ pretty stars +:+ " Telegram Stars")%string) true (Some user_id) None None;
          mret (if paid_with_stars then payer_balance else recipient_balance, updated ++ [gift_user])
      end
  end.

Definition complete_stars_payment (user_id id : Z) (invoice : InputInvoice) : D (UserStarsBalance * list Z) :=
  '(purpose, stars, _, _, gift) ← lift_result (_parse_stars_invoice user_id invoice);
  form ← get_form user_id id;
  match form with
  | None => raise (ErrorRpc400 "FORM_EXPIRED")
  | Some form => finish_stars_form user_id purpose stars gift form
  end.
End Payments.
Arguments InputStorePaymentPurpose : clear implicits.
Arguments InputInvoice : clear implicits.
Arguments Env : clear implicits.

Section BotPayments.
Context {InputPeer : Type} (E : Env InputPeer).

(** How a bot answers a precheckout query: a built-in bot processes it, or
    the worker waits on the topic of the query for [b"1"], an error text, or
    nothing in time. *)
Record PrecheckoutAnswer := MkAnswer { builtin : result bool; reply : option bytes }.

Definition _await_bot_precheckout (bot_user_id : Z) (answer : PrecheckoutAnswer) : D unit :=
  if is_system E bot_user_id then mret tt else
  id ← make_snowflake E;
  modify (fun d => with_precheckouts (snowflakes d) ({[id]} ∪ precheckouts d) d);;
  finally
    (handled ← lift_result (builtin answer);
     if (handled : bool) then mret tt else
     match reply answer with
     | None => raise (ErrorRpc400 "BOT_PRECHECKOUT_TIMEOUT")
     | Some r =>
         if bool_decide (r = [x31]) then mret tt
         else raise (ErrorRpc400 (or_str (Some (String.string_of_list_byte (decode_replace r)))
                                    "PAYMENT_FAILED"))
     end)
    (modify (fun d => with_precheckouts (snowflakes d) (precheckouts d ∖ {[id]}) d)).

(** [_update_invoice_receipt] up to the update that it broadcasts *)
Definition _update_invoice_receipt (content_id receipt : Z) : D unit :=
  d ← get;
  match contents d !! content_id with
  | None => raise (ErrorRpc400 "INVOICE_INVALID")
  | Some c =>
    match static_data c with
    | None => raise (ErrorRpc400 "INVOICE_INVALID")
    | Some data =>
      '(invoice_tl, payload) ← lift_result (_unpack_invoice_static (read_invoice E) data);
      let updated := MkInvoice (title invoice_tl) (description invoice_tl) (inv_currency invoice_tl)
        (total_amount invoice_tl) (start_param invoice_tl) (shipping_address_requested invoice_tl)
        (test invoice_tl) (photo invoice_tl) (Some receipt) (extended_media invoice_tl) in
      packed ← lift_result (_pack_invoice_static (write_invoice E) updated payload);
      modify (fun d => with_contents (<[content_id := MkContent (author_id c) (author_bot c)
        (is_invoice c) (Some packed) true (version c + 1)]> (contents d)) d)
    end
  end.

Definition _raise_if_invoice_already_paid (user_id msg_id : Z) : D unit :=
  d ← get;
  ensure (negb (existsb (fun t => (tx_user_id t =? user_id) && bool_decide (tx_msg_id t = Some msg_id)
    && negb (inbound t)) (transactions d))) (ErrorRpc400 "FORM_SUBMIT_DUPLICATE").

(** [_complete_bot_payment_form], first phase: everything up to the bot's
    consent. *)
Definition check_bot_form (user_id id : Z) (peer : InputPeer) (msg_id : Z) (answer : PrecheckoutAnswer)
    : D (StarsPaymentForm * (Z * MessageMediaInvoice * bytes * Z)) :=
  form ← get_form user_id id;
  match form with
  | None => _raise_if_invoice_already_paid user_id msg_id;; raise (ErrorRpc400 "FORM_EXPIRED")
  | Some form =>
      '(content_id, invoice_media, payload', bot) ← _load_bot_invoice_message E user_id peer msg_id;
      d ← get;
      if is_expired form d then delete_form form;; raise (ErrorRpc400 "FORM_EXPIRED") else
      ensure (bool_decide (purpose form = BOT_INVOICE)) (ErrorRpc400 "INVOICE_INVALID");;
      ensure ((form_stars form =? total_amount invoice_media) && bool_decide (bot_user_id form = Some bot)
              && bool_decide (message_id form = Some msg_id)) (ErrorRpc400 "INVOICE_INVALID");;
      ensure (match payload form with None => true | Some p => bool_decide (p = payload') end)
        (ErrorRpc400 "INVOICE_INVALID");;
      _await_bot_precheckout bot answer;;
      mret (form, (content_id, invoice_media, payload', bot))
  end.

(** Second phase: the form goes, the stars move, and the invoice gets the id
    [receipt] of the service message that was sent. *)
Definition pay_bot_form (user_id msg_id receipt : Z) (form : StarsPaymentForm)
    (loaded : Z * MessageMediaInvoice * bytes * Z) : D (UserStarsBalance * list Z) :=
  let '(content_id, invoice_media, payload', bot) := loaded in
  let stars := total_amount invoice_media in
  delete_form form;;
  '(payer_balance, _, _, _) ← _transfer_stars (uuid4_hex E) user_id bot stars PEER PEER
    (title invoice_media) (Some (description invoice_media)) (Some (description invoice_media))
    (Some bot) (Some user_id) (Some msg_id)
    (match payload' with [] => None | _ => Some payload' end) (Some (bot_net_stars stars));
  _update_invoice_receipt content_id receipt;;
  mret (payer_balance, [user_id; bot]).

Definition _complete_bot_payment_form (user_id id : Z) (peer : InputPeer) (msg_id : Z)
    (answer : PrecheckoutAnswer) (receipt : Z) : D (UserStarsBalance * list Z) :=
  '(form, loaded) ← check_bot_form user_id id peer msg_id answer;
  pay_bot_form user_id msg_id receipt form loaded.

Definition complete_payment_form (user_id id : Z) (invoice : InputInvoice InputPeer)
    (answer : PrecheckoutAnswer) (receipt : Z) : D (UserStarsBalance * list Z) :=
  match invoice with
  | InputInvoiceMessage peer msg_id => _complete_bot_payment_form user_id id peer msg_id answer receipt
  | _ => complete_stars_payment E user_id id invoice
  end.

(** ** Everything the wallet does, as steps *)
Inductive step : Db -> Db -> Prop :=
  | step_grant u stars ti de d : 0 < stars -> step d (snd (grant_stars (uuid4_hex E) (stars_bot E) u stars ti de d))
  | step_spend u stars pt ti de g p d : step d (snd (spend_stars (uuid4_hex E) u stars pt ti de g p d))
  | step_set u a ti de d : step d (snd (set_stars_balance (uuid4_hex E) (stars_bot E) u a ti de d))
  | step_create u i d : step d (snd (create_payment_form E u i d))
  | step_read_finish u purpose stars gift f d : 0 < stars ->
      step d (snd (finish_stars_form E u purpose stars gift f d))
  | step_check u id peer m a d : step d (snd (check_bot_form u id peer m a d))
  | step_pay u m r f l d : l.2 <> u -> step d (snd (pay_bot_form u m r f l d))
  | step_rest d d' : balances d' = balances d -> transactions d' = transactions d -> step d d'.
End BotPayments.

(** ** The invariant is kept by every operation *)
Abbreviation keeps := (preserves wf).

(** Operations that touch neither balances nor the log. *)
Definition quiet {A} (m : D A) : Prop := forall d,
  balances (snd (m d)) = balances d /\ transactions (snd (m d)) = transactions d.

Lemma wf_eq d d' : balances d' = balances d -> transactions d' = transactions d -> wf d -> wf d'.
Proof.
  intros Hb Ht [Hl Hr Hp].
  assert (Ha : forall u, amount_of d' u = amount_of d u) by (intros u; unfold amount_of; by rewrite Hb).
  split; [intros u; by rewrite Ha, Ht|intros u; by rewrite Ha|by rewrite Ht].
Qed.

Lemma quiet_keeps {A} (m : D A) : quiet m -> keeps m.
Proof. intros H d. destruct (H d) as [Hb Ht]. by apply wf_eq. Qed.

Lemma quiet_bind {A B} (m : D A) (f : A -> D B) : quiet m -> (forall a, quiet (f a)) -> quiet (m ≫= f).
Proof.
  intros Hm Hf d. unfold mbind, M_bind. specialize (Hm d).
  destruct (m d) as [[a|e] d']; simpl in *; [|done].
  destruct (Hf a d') as [-> ->]. done.
Qed.

Lemma quiet_ret {A} (a : A) : quiet (mret a).
Proof. done. Qed.
Lemma quiet_raise {A} e : quiet (raise (A := A) e).
Proof. done. Qed.
Lemma quiet_ensure c e : quiet (ensure c e).
Proof. intros d. by destruct c. Qed.
Lemma quiet_lift {A} (r : result A) : quiet (lift_result r).
Proof. done. Qed.
Lemma quiet_gets {A} (f : Db -> A) : quiet (gets f).
Proof. done. Qed.
Lemma quiet_get : quiet get.
Proof. done. Qed.
Lemma quiet_delete_form f : quiet (delete_form f).
Proof. done. Qed.
Lemma quiet_finally {A} (m : D A) c : quiet m -> quiet c -> quiet (finally m c).
Proof.
  intros Hm Hc d. unfold finally. destruct (Hm d) as [Hb Ht]. destruct (m d) as [r d1]. simpl in *.
  destruct (Hc d1) as [Hb' Ht']. destruct (c d1) as [[] d2]; simpl in *; split; congruence.
Qed.
Lemma quiet_contents f : quiet (modify (fun d => with_contents (f d) d)).
Proof. done. Qed.
Lemma quiet_precheckouts f : quiet (modify (fun d => with_precheckouts (snowflakes d) (f d) d)).
Proof. done. Qed.
Create HintDb stars.
#[export] Hint Resolve quiet_ret quiet_raise quiet_ensure quiet_lift quiet_gets quiet_get
  quiet_delete_form quiet_finally quiet_precheckouts quiet_contents : stars.

(** Walks through a monadic body whose leaves the hint database knows. *)
Ltac walk lem := cbv zeta beta; first
  [ solve [auto with stars]
  | apply lem; [walk lem|intros; walk lem]
  | case_match; walk lem ].

#[export] Hint Resolve quiet_keeps preserves_ret preserves_raise : stars.

Lemma keeps_balance_row_or_create u : keeps (balance_row_or_create u).
Proof.
  intros d Hd. destruct (balance_row_or_create_run u d) as [n ->]. simpl.
  apply (posted_wf d _ []); [done| |done|].
  - apply posted_refl; [apply same_rest_touch|apply transactions_touch|apply amount_of_touch].
  - intros v. simpl. rewrite Z.add_0_r. apply Hd.
Qed.

Section Keeps.
Context (uuid : nat -> string).

Lemma posted_one_range d u x tx :
  wf d -> tx_user_id tx = u -> sa_amount (to_stars_amount tx) = x ->
  0 <= amount_of d u + x < 2 ^ 63 -> forall v, 0 <= amount_of d v + ledger v [tx] < 2 ^ 63.
Proof.
  intros [_ Hr _] Hu Hx H v. unfold ledger. cbn [foldr]. rewrite Hu, Hx. case_bool_decide; subst; [lia|].
  specialize (Hr v). lia.
Qed.

Lemma keeps_credit u stars pt ti de g p m pl : 0 < stars ->
  keeps (_credit_stars uuid u stars true pt ti de g p m pl).
Proof.
  intros Hs d Hd. pose proof (wf_range d Hd u) as Hr.
  destruct (fits 8 true (amount_of d u + stars) && fits 8 true stars) eqn:Hf.
  - apply andb_true_iff in Hf as [Hf1 Hf2].
    destruct (credit_ok uuid u stars pt ti de g p m pl d Hf1 Hf2) as (b & d' & Hrun & Hb & Hpost).
    rewrite Hrun. simpl. apply fits8 in Hf1. eapply posted_wf; [done|exact Hpost|by repeat constructor|].
    eapply posted_one_range; [done|done|reflexivity|]. simpl. lia.
  - by rewrite (credit_overflow _ _ _ _ _ _ _ _ _ _ _ _ Hf).
Qed.

Lemma keeps_debit u stars pt ti de g p m pl : keeps (_debit_stars uuid u stars pt ti de g p m pl).
Proof.
  intros d Hd. pose proof (debit_spec uuid u stars pt ti de g p m pl d (wf_range d Hd)) as H.
  destruct (stars <=? 0) eqn:Hs; [by rewrite H|].
  destruct (amount_of d u <? stars) eqn:Ha; [by rewrite H|]. b2p.
  destruct H as (b & d' & Hrun & Hb & Hpost). rewrite Hrun. simpl. pose proof (wf_range d Hd u).
  eapply posted_wf; [done|exact Hpost|by repeat constructor|].
  eapply posted_one_range; [done|done|reflexivity|]. simpl. lia.
Qed.

Lemma keeps_transfer u v stars pt pt' ti fd td fp tp m pl r : u <> v ->
  keeps (_transfer_stars uuid u v stars pt pt' ti fd td fp tp m pl r).
Proof.
  intros Hne d Hd. set (c := match r with None => stars | Some r => r end).
  destruct (decide (0 < c <= stars /\ stars <= amount_of d u)) as [[Hc Ha]|Hno].
  - destruct (transfer_run uuid u v stars pt pt' ti fd td fp tp m pl r d Hc Ha (wf_range d Hd))
      as (pb & rb & Hrun & _ & _).
    fold c in Hrun. rewrite Hrun. destruct (fits 8 true (amount_of d v + c)) eqn:Hf; [|done].
    apply fits8 in Hf. simpl snd. eapply posted_wf; [done|by apply transfer_posted| |].
    + repeat constructor; simpl; lia.
    + intros w. simpl. pose proof (wf_range d Hd w). repeat case_bool_decide; subst; lia.
  - destruct (transfer_refused uuid u v stars pt pt' ti fd td fp tp m pl r d) as (e & Hrun & _).
    + fold c. lia.
    + by rewrite Hrun.
Qed.

Lemma set_stars_balance_refused bot u a ti de d : wf d -> ~ (0 <= a < 2 ^ 63) ->
  exists e, set_stars_balance uuid bot u a ti de d = (Raise e, d).
Proof.
  intros Hd Ha. pose proof (wf_range d Hd u). unfold set_stars_balance.
  destruct (a <? 0) eqn:H0; [by eexists|]. b2p.
  erewrite M_bind_step; [|reflexivity]. destruct bot as [bot|]; [|by eexists].
  erewrite M_bind_step; [|reflexivity]. cbv zeta.
  destruct (balance_row_or_create_run u d) as [n Hrow]. exists OverflowError.
  unfold transaction. erewrite M_bind_step; [|apply Hrow]. cbn [amount nanos].
  rewrite (proj2 (Z.eqb_neq _ _)) by lia. rewrite (proj2 (Z.ltb_lt _ _)) by lia.
  assert (fits 8 true a = false) as Hf.
  { destruct (fits 8 true a) eqn:Hf; [|done]. apply fits8 in Hf. lia. }
  erewrite M_bind_raise; [done|]. unfold save_amount. rewrite Hf. done.
Qed.

Lemma keeps_set bot u a ti de : keeps (set_stars_balance uuid bot u a ti de).
Proof.
  intros d Hd. destruct (decide (0 <= a < 2 ^ 63)) as [Ha|Ha].
  - destruct bot as [bot|].
    + destruct (set_stars_balance_run uuid (Some bot) u a ti de bot d Ha (wf_range d Hd) eq_refl)
        as (b & d' & txs & -> & _ & Hpost & Hau & Hlen & Hpos). simpl.
      eapply posted_wf; [done|exact Hpost|eapply Forall_impl; [exact Hpos|naive_solver]|].
      intros v. rewrite <- (posted_amounts _ _ _ Hpost).
      destruct (decide (v = u)) as [->|Hne]; [by rewrite Hau|].
      pose proof (posted_amounts _ _ _ Hpost u) as Hu.
      pose proof (posted_amounts _ _ _ Hpost v) as Hv. pose proof (wf_range d Hd v).
      enough (ledger v txs = 0) by lia.
      clear -Hpos Hne. induction Hpos as [|t l [Ht _] _ IH]; [done|]. simpl.
      rewrite bool_decide_eq_false_2 by congruence. lia.
    + unfold set_stars_balance. destruct (a <? 0); done.
  - by destruct (set_stars_balance_refused bot u a ti de d Hd Ha) as [e ->].
Qed.
End Keeps.

Section StepsKeep.
Context {InputPeer : Type} (E : Env InputPeer).

Lemma quiet_make_snowflake : quiet (make_snowflake E).
Proof. intros d. unfold make_snowflake. rewrite Snowflake.make_id_run. done. Qed.
Hint Resolve quiet_make_snowflake : stars.

Lemma quiet_create_form u p s c a g b m pl : quiet (create_form E u p s c a g b m pl).
Proof.
  unfold create_form. apply quiet_bind; [auto with stars|intros id].
  apply quiet_bind; [auto with stars|intros _]. intros d.
  unfold mbind, M_bind, get, ensure.
  destruct (_ && _ && fits 8 true id); [|done]. by destruct (bool_decide _).
Qed.
Hint Resolve quiet_create_form : stars.

Lemma quiet_load u p m : quiet (_load_bot_invoice_message E u p m).
Proof. unfold _load_bot_invoice_message. walk @quiet_bind. Qed.
Hint Resolve quiet_load : stars.

Lemma quiet_create u i : quiet (create_payment_form E u i).
Proof. unfold create_payment_form, _create_bot_payment_form. walk @quiet_bind. Qed.

Lemma quiet_precheckout b a : quiet (_await_bot_precheckout E b a).
Proof.
  unfold _await_bot_precheckout. case_match; [done|].
  apply quiet_bind; [auto with stars|intros id]. apply quiet_bind; [auto with stars|intros _].
  apply quiet_finally; [walk @quiet_bind|done].
Qed.
Hint Resolve quiet_precheckout : stars.

Lemma quiet_check u id p m a : quiet (check_bot_form E u id p m a).
Proof.
  unfold check_bot_form, get_form, _raise_if_invoice_already_paid. walk @quiet_bind.
Qed.

Lemma keeps_finish u purpose stars gift f : 0 < stars -> keeps (finish_stars_form E u purpose stars gift f).
Proof.
  intros Hs. unfold finish_stars_form.
  assert (forall v pt ti de g p m pl, keeps (_credit_stars (uuid4_hex E) v stars true pt ti de g p m pl))
    by (intros; by apply keeps_credit).
  assert (forall v pt ti de g p m pl, keeps (_debit_stars (uuid4_hex E) v stars pt ti de g p m pl))
    by (intros; by apply keeps_debit).
  pose proof (keeps_balance_row_or_create u).
  walk @preserves_bind.
Qed.

Lemma quiet_receipt c r : quiet (_update_invoice_receipt E c r).
Proof. unfold _update_invoice_receipt. walk @quiet_bind. Qed.

Lemma keeps_pay u m r f l : l.2 <> u -> keeps (pay_bot_form E u m r f l).
Proof.
  intros Hne. destruct l as [[[c inv] pl] bot]. simpl in Hne. unfold pay_bot_form.
  pose proof (quiet_receipt c r).
  apply preserves_bind; [auto with stars|intros _]. apply preserves_bind; [apply keeps_transfer; congruence|].
  intros [[[pb rb] o] i]. apply preserves_bind; [auto with stars|]. intros _. auto with stars.
Qed.

Lemma step_keeps d d' : step E d d' -> wf d -> wf d'.
Proof.
  intros Hstep Hd. destruct Hstep.
  - revert Hd. apply preserves_bind; [auto with stars|]. intros b.
    apply preserves_bind; [by apply keeps_credit|]. intros [? ?]. auto with stars.
  - revert Hd. apply preserves_bind; [apply keeps_debit|]. intros [? ?]. auto with stars.
  - revert Hd. apply keeps_set.
  - revert Hd. apply quiet_keeps, quiet_create.
  - revert Hd. by apply keeps_finish.
  - revert Hd. apply quiet_keeps, quiet_check.
  - revert Hd. by apply keeps_pay.
  - by eapply wf_eq.
Qed.
End StepsKeep.

(** ** Properties *)
Definition empty_db : Db := MkDb 0 0 0 ∅ [] ∅ ∅ ∅ ∅ ∅.

Lemma empty_wf d : balances d = ∅ -> transactions d = [] -> wf d.
Proof.
  intros Hb Ht. split.
  - intros u. unfold amount_of. by rewrite Hb, lookup_empty, Ht.
  - intros u. unfold amount_of. by rewrite Hb, lookup_empty.
  - by rewrite Ht.
Qed.

(** C25: the stars ledger. Whatever sequence of wallet operations runs from a
    consistent database (for instance one without balances), grants, spending,
    administrative settings, forms created, completed or abandoned half-way, bot
    payments between different users, with any result, errors included: every
    user's balance stays the sum of the signed amounts of that user's logged
    transactions, never negative, and within 64 bits. *)
Theorem stars_ledger_invariant {InputPeer} (E : Env InputPeer) (d d' : Db) :
  wf d -> rtc (step E) d d' ->
  (forall u, amount_of d' u = ledger u (transactions d')) /\
  (forall u, 0 <= amount_of d' u < 2 ^ 63) /\
  Forall (fun t => 0 < stars_amount t) (transactions d').
Proof.
  intros Hd Hsteps. enough (wf d') as [? ? ?] by done.
  induction Hsteps as [|x y z Hxy _ IH]; [done|]. apply IH. by eapply step_keeps.
Qed.

(** A concrete environment: user inputs are user ids, and a codec that reads
    an invoice back: a flag byte, the receipt, the amount. *)
Definition demo_write (i : MessageMediaInvoice) : result bytes :=
  n ← to_bytes_le 8 true (total_amount i);
  r ← to_bytes_le 4 true (match receipt_msg_id i with Some r => r | None => -1 end);
  Ok (n ++ r).
Definition demo_read (b : bytes) : result MessageMediaInvoice :=
  let r := from_bytes_le true (drop 8 b) in
  Ok (MkInvoice "t" "d" "XTR" (from_bytes_le true (take 8 b)) "" false false None
    (if r =? -1 then None else Some r) None).
Definition demo_env : Env Z := MkEnv (fun n => pretty n) (Some 777) 1 1 demo_read demo_write
  (fun _ p => Ok p) (fun _ p => Ok p) (fun _ => false).
Definition demo_db (stars : Z) : Db :=
  let d := snd (grant_stars (uuid4_hex demo_env) (stars_bot demo_env) 5 1000 "" None empty_db) in
  MkDb 1704067200000000 (uuids d) 0 (balances d) (transactions d) ∅ {[5; 9]} {[(9, 50) := 70]}
    {[70 := MkContent 9 true true
        (match demo_write (MkInvoice "t" "d" "XTR" stars "" false false None None None) with
         | Ok b => Some (le_bytes 4 (Z.of_nat (length b)) ++ b ++ [x41]) | _ => None end) false 0]} ∅.

Lemma stars_ledger_invariant_witness :
  amount_of (snd (grant_stars (uuid4_hex demo_env) (stars_bot demo_env) 5 1000 "" None empty_db)) 5 = 1000 /\
  ledger 5 (transactions (snd (grant_stars (uuid4_hex demo_env) (stars_bot demo_env) 5 1000 "" None empty_db))) = 1000.
Proof.
  split; [reflexivity|].
  rewrite <- (proj1 (stars_ledger_invariant demo_env empty_db
    (snd (grant_stars (uuid4_hex demo_env) (stars_bot demo_env) 5 1000 "" None empty_db))
    (empty_wf empty_db eq_refl eq_refl)
    (rtc_once _ _ (step_grant demo_env 5 1000 "" None empty_db ltac:(lia)))) 5).
  reflexivity.
Defined.

(** [_transfer_stars] in every case. Bad amounts and a payer who cannot pay
    are refused and nothing is written; a recipient whose balance would leave 64
    bits fails and nothing is written; otherwise, between two different users,
    exactly the payer loses [stars], exactly the recipient gains the credited
    stars, and exactly two transactions are logged. Paying oneself would keep only the
    recipient's write, so that the balance grows by the credited stars. *)
Theorem stars_transfer (uuid : nat -> string) (u v stars : Z) (pt pt' : StarsTransactionPeerType)
    (ti : string) (fd td : option string) (fp tp m : option Z) (pl : option bytes) (r : option Z) (d : Db) :
  (forall w, 0 <= amount_of d w < 2 ^ 63) ->
  let run := _transfer_stars uuid u v stars pt pt' ti fd td fp tp m pl r d in
  let credited := match r with None => stars | Some r => r end in
  (stars <= 0 \/ credited <= 0 \/ stars < credited \/ amount_of d u < stars ->
    exists e, run = (Raise (ErrorRpc400 e), d)) /\
  (0 < credited <= stars -> stars <= amount_of d u ->
    amount_of d v + credited >= 2 ^ 63 -> run = (Raise OverflowError, d)) /\
  (0 < credited <= stars -> stars <= amount_of d u -> amount_of d v + credited < 2 ^ 63 ->
    exists pb rb out inn d', run = (Ok (pb, rb, out, inn), d') /\
      amount pb = amount_of d u - stars /\ amount rb = amount_of d v + credited /\
      (tx_user_id out, stars_amount out, inbound out) = (u, stars, false) /\
      (tx_user_id inn, stars_amount inn, inbound inn) = (v, credited, true) /\
      transactions d' = transactions d ++ [out; inn] /\
      (u <> v -> amount_of d' u = amount_of d u - stars /\ amount_of d' v = amount_of d v + credited) /\
      (u = v -> amount_of d' u = amount_of d u + credited) /\
      (forall w, w <> u -> w <> v -> amount_of d' w = amount_of d w)).
Proof.
  intros Hr run credited. split_and!.
  - intros H. destruct (transfer_refused uuid u v stars pt pt' ti fd td fp tp m pl r d) as (e & Hrun & _);
      [done|]. by exists e.
  - intros Hc Ha Hf.
    destruct (transfer_run uuid u v stars pt pt' ti fd td fp tp m pl r d Hc Ha Hr) as (? & ? & Hrun & _).
    fold run credited in Hrun. rewrite Hrun.
    destruct (fits 8 true (amount_of d v + credited)) eqn:E; [|done]. apply fits8 in E. lia.
  - intros Hc Ha Hf.
    destruct (transfer_run uuid u v stars pt pt' ti fd td fp tp m pl r d Hc Ha Hr)
      as (pb & rb & Hrun & Hpb & Hrb).
    fold run credited in Hrun. rewrite (proj2 (fits8 _)) in Hrun by (specialize (Hr v); lia).
    eexists pb, rb, _, _, _. split; [exact Hrun|]. split_and!; try done.
    + simpl. rewrite transactions_touch. by rewrite <- app_assoc.
    + intros Hne. change (amount_of (with_tx _ (with_tx _ ?x)) ?w) with (amount_of x w).
      change (amount_of (with_tx _ (with_tx _ ?x)) v) with (amount_of x v).
      rewrite !amount_of_set. rewrite (decide_True (P := v = v)) by done.
      rewrite (decide_True (P := u = u)) by done. by rewrite (decide_False (P := v = u)) by congruence.
    + intros <-. change (amount_of (with_tx _ (with_tx _ ?x)) u) with (amount_of x u).
      by rewrite amount_of_set, decide_True.
    + intros w Hu Hv. change (amount_of (with_tx _ (with_tx _ ?x)) w) with (amount_of x w).
      rewrite !amount_of_set, amount_of_touch.
      rewrite (decide_False (P := v = w)) by congruence. by rewrite (decide_False (P := u = w)) by congruence.
Qed.

Lemma stars_transfer_witness :
  exists e, _transfer_stars (fun n => pretty n) 5 9 2000 PEER PEER "t" None None None None None None None
    (demo_db 7) = (Raise (ErrorRpc400 e), demo_db 7).
Proof.
  refine (proj1 (stars_transfer (fun n => pretty n) 5 9 2000 PEER PEER "t" None None None None None None None
    (demo_db 7) _) _).
  - intros w. unfold amount_of. destruct (decide (w = 5)) as [->|Hw]; [done|].
    assert (balances (demo_db 7) !! w = None) as ->; [|lia].
    change (balances (demo_db 7)) with ({[5 := MkBalance 1000 0]} : gmap Z UserStarsBalance).
    by apply lookup_singleton_ne.
  - right; right; right. reflexivity.
Defined.

(** ** Completing forms for stars and gifts *)
Definition drop_form (id : Z) (d : Db) : Db := with_forms (snowflakes d) (delete id (forms d)) d.

Lemma amount_of_drop id d u : amount_of (drop_form id d) u = amount_of d u.
Proof. done. Qed.

Section FormCompletion.
Context {InputPeer : Type} (E : Env InputPeer).
Context (d : Db) (user id : Z) (purpose' : StarsPaymentPurpose) (stars : Z) (gift' : option Z)
  (form : StarsPaymentForm).

Definition form_matches : Prop :=
  purpose form = purpose' /\ form_stars form = stars /\ (purpose' = GIFT -> gift_user_id form = gift').

Context (Hid : form_id form = id) (Hwf : wf d) (Hpos : 0 < stars).

Lemma finish_expired : expires_at form < clock d ->
  finish_stars_form E user purpose' stars gift' form d
  = (Raise (ErrorRpc400 "FORM_EXPIRED"), drop_form id d).
Proof using Hid.
  intros He. unfold finish_stars_form. erewrite M_bind_step; [|reflexivity].
  unfold is_expired. rewrite (proj2 (Z.ltb_lt _ _)) by done. by rewrite <- Hid.
Qed.

Lemma finish_mismatch : clock d <= expires_at form -> ~ form_matches ->
  finish_stars_form E user purpose' stars gift' form d = (Raise (ErrorRpc400 "INVOICE_INVALID"), d).
Proof.
  intros He Hm. unfold finish_stars_form. erewrite M_bind_step; [|reflexivity].
  unfold is_expired. rewrite (proj2 (Z.ltb_ge _ _)) by done.
  destruct (bool_decide (purpose form = purpose')) eqn:H1; [|done].
  destruct (form_stars form =? stars) eqn:H2; [|done]. erewrite M_bind_step; [|reflexivity].
  destruct (bool_decide (purpose' = GIFT)) eqn:H3; b2p.
  - destruct (bool_decide (gift_user_id form = gift')) eqn:H4; [|done]. b2p. by destruct Hm.
  - by destruct Hm.
Qed.

Lemma finish_start {B} (f : unit -> D B) :
  form_matches -> delete_form form d = (Ok tt, drop_form id d) /\
  bool_decide (purpose form = purpose') && (form_stars form =? stars) = true /\
  negb (bool_decide (purpose' = GIFT)) || bool_decide (gift_user_id form = gift') = true.
Proof using Hid.
  intros (Hp & Hs & Hg). split_and!.
  - by rewrite <- Hid.
  - rewrite bool_decide_eq_true_2 by done. by apply Z.eqb_eq.
  - destruct (bool_decide (purpose' = GIFT)) eqn:H; [|done]. b2p.
    rewrite bool_decide_eq_true_2 by auto. done.
Qed.

(** A valid form is deleted, and then the purpose decides. *)
Lemma finish_valid : clock d <= expires_at form -> form_matches ->
  finish_stars_form E user purpose' stars gift' form d =
  match purpose' with
  | TOPUP =>
      ensure (negb (bool_decide (currency form = STARS_CURRENCY))) (ErrorRpc400 "INVOICE_INVALID");;
      '(balance, _) ← _credit_stars (uuid4_hex E) user stars true FRAGMENT "Stars Top-Up"
        (Some ("Purchased " +:+ pretty stars +:+ " Telegram Stars")%string) false None None None;
      mret (balance, [user])
  | _ =>
      match gift' with
      | None => raise AssertionError
      | Some g =>
          '(payer_balance, updated) ←
            (if bool_decide (currency form = STARS_CURRENCY) then
               '(b, _) ← _debit_stars (uuid4_hex E) user stars PEER "Stars Gift"
                 (Some ("Gifted " +:+ pretty stars +:+ " Telegram Stars")%string) true (Some g) None None;
               mret (b, [user])
             else b ← balance_row_or_create user; mret (b, []));
          '(recipient_balance, _) ← _credit_stars (uuid4_hex E) g stars true PEER "Stars Gift"
            (Some ("Received " +:+ pretty stars +:+ " Telegram Stars")%string) true (Some user) None None;
          mret (if bool_decide (currency form = STARS_CURRENCY) then payer_balance else recipient_balance,
                updated ++ [g])
      end
  end (drop_form id d).
Proof using Hid.
  intros He Hm. destruct (finish_start (fun _ => mret tt) Hm) as (Hdel & H1 & H2).
  unfold finish_stars_form. erewrite M_bind_step; [|reflexivity].
  unfold is_expired. rewrite (proj2 (Z.ltb_ge _ _)) by done. rewrite H1, H2.
  erewrite M_bind_step; [|reflexivity]. erewrite M_bind_step; [|reflexivity].
  erewrite M_bind_step; [|exact Hdel]. by destruct purpose', gift'.
Qed.

(** The stars that a completed form moves. *)
Definition topup_effect (u : Z) : Z := if decide (u = user) then stars else 0.
Definition gift_effect (g u : Z) : Z :=
  (if decide (u = g) then stars else 0)
  - (if decide (u = user) then if decide (currency form = STARS_CURRENCY) then stars else 0 else 0).

Lemma finish_topup : clock d <= expires_at form -> form_matches -> purpose' = TOPUP ->
  if decide (currency form = STARS_CURRENCY) then
    finish_stars_form E user purpose' stars gift' form d
    = (Raise (ErrorRpc400 "INVOICE_INVALID"), drop_form id d)
  else amount_of d user + stars < 2 ^ 63 -> exists b d',
    finish_stars_form E user purpose' stars gift' form d = (Ok (b, [user]), d') /\
    same_rest (drop_form id d) d' /\ (forall u, amount_of d' u = amount_of d u + topup_effect u).
Proof using Hid Hwf Hpos.
  intros He Hm Hp. rewrite finish_valid by done. rewrite Hp.
  case_decide; [by rewrite bool_decide_eq_true_2 by done|].
  intros Hr. rewrite bool_decide_eq_false_2 by done. erewrite M_bind_step; [|reflexivity].
  pose proof (wf_range d Hwf user).
  edestruct credit_ok as (b & d' & Hrun & Hb & Hpost); cycle 2.
  - exists b, d'. split_and!; [erewrite M_bind_step; [|exact Hrun]; reflexivity|apply Hpost|].
    intros u. rewrite (posted_amounts _ _ _ Hpost), amount_of_drop. unfold topup_effect. simpl.
    repeat case_bool_decide; case_decide; simplify_eq; lia.
  - apply fits8. rewrite amount_of_drop. lia.
  - apply fits8. lia.
Qed.

Lemma finish_gift_poor g : clock d <= expires_at form -> form_matches -> purpose' = GIFT ->
  gift' = Some g -> currency form = STARS_CURRENCY -> amount_of d user < stars ->
  finish_stars_form E user purpose' stars gift' form d
  = (Raise (ErrorRpc400 "BALANCE_TOO_LOW"), drop_form id d).
Proof using Hid Hwf Hpos.
  intros He Hm Hp Hg Hc Ha. rewrite finish_valid by done. rewrite Hp, Hg.
  rewrite bool_decide_eq_true_2 by done. erewrite M_bind_raise; [done|]. erewrite M_bind_raise; [done|].
  pose proof (debit_spec (uuid4_hex E) user stars PEER "Stars Gift"
    (Some ("Gifted " +:+ pretty stars +:+ " Telegram Stars")%string) true (Some g) None None
    (drop_form id d) (wf_range d Hwf)) as H.
  rewrite (proj2 (Z.leb_gt _ _)) in H by done. rewrite amount_of_drop in H.
  rewrite (proj2 (Z.ltb_lt (amount_of d user) stars)) in H by done. done.
Qed.

Lemma finish_gift g : clock d <= expires_at form -> form_matches -> purpose' = GIFT ->
  gift' = Some g -> (currency form = STARS_CURRENCY -> stars <= amount_of d user) ->
  amount_of d g + stars < 2 ^ 63 ->
  exists b us d', finish_stars_form E user purpose' stars gift' form d = (Ok (b, us), d') /\
    same_rest (drop_form id d) d' /\
    (forall u, amount_of d' u = amount_of d u + gift_effect g u).
Proof using Hid Hwf Hpos.
  intros He Hm Hp Hg Hc Hr. rewrite finish_valid by done. rewrite Hp, Hg.
  pose proof (wf_range d Hwf) as Hrange.
  assert (Hpay : exists b us d1,
    (if bool_decide (currency form = STARS_CURRENCY) then
               '(b, _) ← _debit_stars (uuid4_hex E) user stars PEER "Stars Gift"
                 (Some ("Gifted " +:+ pretty stars +:+ " Telegram Stars")%string) true (Some g) None None;
               mret (b, [user])
             else b ← balance_row_or_create user; mret (b, [])) (drop_form id d) = (Ok (b, us), d1) /\
    same_rest (drop_form id d) d1 /\
    forall u, amount_of d1 u = amount_of d u
      - (if decide (u = user) then if decide (currency form = STARS_CURRENCY) then stars else 0 else 0)).
  { case_bool_decide as Hcur.
    - pose proof (debit_spec (uuid4_hex E) user stars PEER "Stars Gift"
        (Some ("Gifted " +:+ pretty stars +:+ " Telegram Stars")%string) true (Some g) None None
        (drop_form id d) Hrange) as H.
      rewrite (proj2 (Z.leb_gt _ _)) in H by done. rewrite amount_of_drop in H.
      rewrite (proj2 (Z.ltb_ge (amount_of d user) stars)) in H by auto.
      destruct H as (b & d1 & Hrun & Hb & Hpost). exists b, [user], d1. split_and!.
      + erewrite M_bind_step; [|exact Hrun]. done.
      + apply Hpost.
      + intros u. rewrite (posted_amounts _ _ _ Hpost), amount_of_drop. simpl.
        rewrite (decide_True (P := currency form = STARS_CURRENCY)) by done.
        case_bool_decide; case_decide; simplify_eq; lia.
    - destruct (balance_row_or_create_run user (drop_form id d)) as [n Hrow].
      eexists _, [], _. split_and!; [erewrite M_bind_step; [|exact Hrow]; reflexivity|apply same_rest_touch|].
      intros u. rewrite amount_of_touch, amount_of_drop.
      rewrite (decide_False (P := currency form = STARS_CURRENCY)) by done. case_decide; lia. }
  destruct Hpay as (b & us & d1 & Hrun & Hs & Ha).
  erewrite M_bind_step; [|exact Hrun]. cbv beta iota.
  pose proof (Hrange g). pose proof (Hrange user).
  edestruct credit_ok as (b' & d' & Hrun' & Hb & Hpost); cycle 2.
  - eexists _, _, d'. split_and!; [erewrite M_bind_step; [|exact Hrun']; reflexivity| |].
    + eapply same_rest_trans; [exact Hs|apply Hpost].
    + intros u. rewrite (posted_amounts _ _ _ Hpost), Ha. unfold gift_effect. simpl.
      destruct (bool_decide (g = u)) eqn:Hgu; b2p; repeat case_decide; try congruence; lia.
  - apply fits8. rewrite Ha. repeat case_decide; try (subst; lia).
  - apply fits8. lia.
Qed.
End FormCompletion.

(** Completing a form for stars or a gift. Without an own form, an expired or a
    mismatching one, nothing is paid (and only the expired form is removed). A
    valid form is used up by the attempt whatever comes of it: a top-up priced
    in stars and a gift the payer cannot afford are refused with nothing moved
    and the form gone; otherwise exactly the stars of the form are added to
    the wallet or recipient, and taken from the payer when paid in stars. A second
    completion of a used form is always refused with [FORM_EXPIRED]. *)
Theorem stars_form_completion {InputPeer} (E : Env InputPeer) (d : Db) (user id : Z)
    (invoice : InputInvoice InputPeer) (p : StarsPaymentPurpose) (stars am : Z) (cur : string)
    (g : option Z) :
  wf d -> 0 < stars ->
  _parse_stars_invoice E user invoice = Ok (p, stars, cur, am, g) ->
  let run := complete_stars_payment E user id invoice d in
  (get_form user id d = (Ok None, d) -> run = (Raise (ErrorRpc400 "FORM_EXPIRED"), d)) /\
  (forall form, get_form user id d = (Ok (Some form), d) -> form_id form = id ->
    (expires_at form < clock d -> run = (Raise (ErrorRpc400 "FORM_EXPIRED"), drop_form id d)) /\
    (clock d <= expires_at form -> ~ form_matches p stars g form ->
      run = (Raise (ErrorRpc400 "INVOICE_INVALID"), d)) /\
    (clock d <= expires_at form -> form_matches p stars g form ->
      (p = TOPUP -> currency form = STARS_CURRENCY ->
         run = (Raise (ErrorRpc400 "INVOICE_INVALID"), drop_form id d)) /\
      (p = TOPUP -> currency form <> STARS_CURRENCY -> amount_of d user + stars < 2 ^ 63 ->
         exists b d', run = (Ok (b, [user]), d') /\ forms d' = delete id (forms d) /\
           forall u, amount_of d' u = amount_of d u + (if decide (u = user) then stars else 0)) /\
      (forall g', p = GIFT -> g = Some g' -> currency form = STARS_CURRENCY -> amount_of d user < stars ->
         run = (Raise (ErrorRpc400 "BALANCE_TOO_LOW"), drop_form id d)) /\
      (forall g', p = GIFT -> g = Some g' -> (currency form = STARS_CURRENCY -> stars <= amount_of d user) ->
         amount_of d g' + stars < 2 ^ 63 ->
         exists b us d', run = (Ok (b, us), d') /\ forms d' = delete id (forms d) /\
           forall u, amount_of d' u = amount_of d u + gift_effect user stars form g' u))) /\
  complete_stars_payment E user id invoice (drop_form id d)
    = (Raise (ErrorRpc400 "FORM_EXPIRED"), drop_form id d).
Proof.
  intros Hwf Hpos Hparse run.
  assert (Hrun : forall o d', get_form user id d' = (Ok o, d') ->
    complete_stars_payment E user id invoice d' =
    match o with None => (Raise (ErrorRpc400 "FORM_EXPIRED"), d')
    | Some form => finish_stars_form E user p stars g form d' end).
  { intros o d' Hg. unfold complete_stars_payment.
    erewrite M_bind_step; [|unfold lift_result; rewrite Hparse; reflexivity]. cbv beta iota.
    erewrite M_bind_step; [|exact Hg]. by destruct o. }
  split_and!.
  - intros Hg. apply (Hrun _ _ Hg).
  - intros form Hg Hid. unfold run. rewrite (Hrun _ _ Hg). split_and!.
    + by apply finish_expired.
    + by apply finish_mismatch.
    + intros He Hm. split_and!.
      * intros Hp Hc.
        pose proof (finish_topup E d user id p stars g form Hid Hwf Hpos He Hm Hp) as H.
        by rewrite decide_True in H.
      * intros Hp Hc Hr.
        pose proof (finish_topup E d user id p stars g form Hid Hwf Hpos He Hm Hp) as H.
        rewrite decide_False in H by done. destruct (H Hr) as (b & d' & Hfin & Hs & Ha).
        exists b, d'. split_and!; [done|by apply Hs|done].
      * intros g' Hp Hg' Hc Ha. by eapply finish_gift_poor.
      * intros g' Hp Hg' Hc Ha.
        destruct (finish_gift E d user id p stars g form Hid Hwf Hpos g' He Hm Hp Hg' Hc Ha)
          as (b & us & d' & Hfin & Hs & Ham).
        exists b, us, d'. split_and!; [done|by apply Hs|done].
  - apply (Hrun None). unfold get_form, gets, drop_form. simpl. by rewrite lookup_delete_eq.
Qed.

Lemma demo_wf stars : wf (demo_db stars).
Proof.
  apply (wf_eq (snd (grant_stars (uuid4_hex demo_env) (stars_bot demo_env) 5 1000 "" None empty_db)));
    [done|done|].
  apply (step_keeps demo_env empty_db); [constructor; lia|by apply empty_wf].
Qed.

Definition demo_form (p : StarsPaymentPurpose) (stars : Z) (bot msg : option Z) (pl : option bytes) :
  StarsPaymentForm := MkForm 77 5 p stars (if decide (p = TOPUP) then "USD" else "XTR") stars None bot msg pl
    (1704067200000000 + 600000000).
Definition demo_form_db (stars : Z) (f : StarsPaymentForm) : Db := with_forms 0 {[77 := f]} (demo_db stars).

Lemma demo_form_wf stars f : wf (demo_form_db stars f).
Proof. by apply (wf_eq (demo_db stars)), demo_wf. Qed.

Lemma stars_form_completion_witness :
  exists b d', complete_stars_payment demo_env 5 77
      (InputInvoiceStars (InputStorePaymentStarsTopup 10 "USD" 99))
      (demo_form_db 7 (demo_form TOPUP 10 None None None)) = (Ok (b, [5]), d') /\
    forall u, amount_of d' u = amount_of (demo_form_db 7 (demo_form TOPUP 10 None None None)) u
      + (if decide (u = 5) then 10 else 0).
Proof.
  destruct (stars_form_completion demo_env (demo_form_db 7 (demo_form TOPUP 10 None None None)) 5 77
    (InputInvoiceStars (InputStorePaymentStarsTopup 10 "USD" 99)) TOPUP 10 99 "USD" None
    (demo_form_wf 7 _) ltac:(lia) eq_refl) as (_ & H & _).
  destruct (H (demo_form TOPUP 10 None None None) eq_refl eq_refl) as (_ & _ & Hok).
  destruct (Hok ltac:(vm_compute; congruence) ltac:(split_and!; done)) as (_ & Htop & _).
  destruct (Htop eq_refl ltac:(vm_compute; congruence) ltac:(vm_compute; congruence)) as (b & d' & Hr & _ & Ha).
  exists b, d'. by split.
Defined.

(** ** Bot invoices *)
Definition paid (r : Z) (i : MessageMediaInvoice) : MessageMediaInvoice :=
  MkInvoice (title i) (description i) (inv_currency i) (total_amount i) (start_param i)
    (shipping_address_requested i) (test i) (photo i) (Some r) (extended_media i).

Lemma unpack_pack rd wr i pl b data :
  wr i = Ok b -> rd b = Ok i -> _pack_invoice_static wr i pl = Ok data ->
  _unpack_invoice_static rd data = Ok (i, pl).
Proof.
  intros Hw Hr. unfold _pack_invoice_static. unfold_monads. rewrite Hw.
  destruct (to_bytes_le 4 false (Z.of_nat (length b))) as [l|] eqn:Hl; [|done]. intros H.
  apply Ok_inj in H as <-. pose proof (to_bytes_le_length _ _ _ _ Hl) as Hlen.
  assert (Hval : from_bytes_le false l = Z.of_nat (length b)).
  { apply to_bytes_le_ok in Hl as [Hf ->]. unfold from_bytes_le. rewrite le_val_bytes.
    apply Z.mod_small. unfold fits in Hf. b2p. lia. }
  unfold _unpack_invoice_static. rewrite !length_app, Hlen.
  rewrite (proj2 (Nat.ltb_ge _ _)) by lia.
  rewrite (take_app_exact l) by lia. rewrite Hval, Nat2Z.id.
  rewrite (proj2 (Nat.ltb_ge _ _)) by lia.
  rewrite (drop_app_exact l _ 4) by lia.
  replace (4 + length b - 4)%nat with (length b) by lia.
  rewrite take_app_length. unfold_monads. rewrite Hr. do 2 f_equal.
  rewrite drop_app_ge by lia. rewrite Hlen.
  replace (4 + length b - 4)%nat with (length b) by lia. apply drop_app_length.
Qed.

(** The stored form of an invoice. What [_pack_invoice_static] writes,
    [_unpack_invoice_static] reads back, invoice and payload, provided the TL
    codec reads that invoice back; packing fails only for invoices of 4 GiB; and data
    too short for the length it announces is refused with [INVOICE_INVALID]. *)
Theorem invoice_static_roundtrip (rd : bytes -> result MessageMediaInvoice)
    (wr : MessageMediaInvoice -> result bytes) (i : MessageMediaInvoice) (b pl : bytes) :
  wr i = Ok b -> rd b = Ok i ->
  (if Z.of_nat (length b) <? 2 ^ 32
   then exists data, _pack_invoice_static wr i pl = Ok data /\
          _unpack_invoice_static rd data = Ok (i, pl) /\
          forall n, (n < 4 + length b)%nat ->
            _unpack_invoice_static rd (take n data) = Raise (ErrorRpc400 "INVOICE_INVALID")
   else _pack_invoice_static wr i pl = Raise OverflowError).
Proof.
  intros Hw Hr. destruct (Z.of_nat (length b) <? 2 ^ 32) eqn:Hn; b2p.
  - set (l := le_bytes 4 (Z.of_nat (length b))).
    assert (Hp : _pack_invoice_static wr i pl = Ok (l ++ b ++ pl)).
    { unfold _pack_invoice_static. unfold_monads. rewrite Hw. unfold to_bytes_le.
      assert (fits 4 false (Z.of_nat (length b)) = true) as ->; [|done].
      unfold fits. apply andb_true_iff. split; [apply Z.leb_le|apply Z.ltb_lt]; lia. }
    exists (l ++ b ++ pl). split_and!; [done|by eapply unpack_pack|]. intros n Hlt.
    assert (Hl : length l = 4%nat) by apply length_le_bytes.
    unfold _unpack_invoice_static. rewrite length_take, !length_app, Hl.
    destruct (_ <? 4)%nat eqn:H4; [done|]. b2p.
    rewrite take_take. rewrite Nat.min_l by lia. rewrite (take_app_exact l) by lia.
    assert (from_bytes_le false l = Z.of_nat (length b)) as ->.
    { unfold from_bytes_le, l. rewrite le_val_bytes. apply Z.mod_small. lia. }
    rewrite Nat2Z.id. by rewrite (proj2 (Nat.ltb_lt _ _)) by lia.
  - unfold _pack_invoice_static. unfold_monads. rewrite Hw. unfold to_bytes_le.
    assert (fits 4 false (Z.of_nat (length b)) = false) as ->; [|done].
    unfold fits. apply andb_false_iff. right. apply Z.ltb_ge. lia.
Qed.

Lemma invoice_static_roundtrip_witness :
  exists data, _pack_invoice_static demo_write (MkInvoice "t" "d" "XTR" 7 "" false false None None None) [x41; x42]
      = Ok data /\
    _unpack_invoice_static demo_read data
      = Ok (MkInvoice "t" "d" "XTR" 7 "" false false None None None, [x41; x42]).
Proof.
  destruct (invoice_static_roundtrip demo_read demo_write
    (MkInvoice "t" "d" "XTR" 7 "" false false None None None)
    [x07; x00; x00; x00; x00; x00; x00; x00; xff; xff; xff; xff] [x41; x42] eq_refl eq_refl)
    as (data & H1 & H2 & _).
  exists data. by split.
Defined.

Lemma bot_net_bounds s :
  (s <= 1 -> bot_net_stars s = 0) /\ (2 <= s -> 0 < bot_net_stars s <= s).
Proof.
  unfold bot_net_stars, STARS_USD_WITHDRAW_RATE_X1000, STARS_USD_SELL_RATE_X1000. split; intros H.
  - destruct (s <=? 0) eqn:E; [done|]. b2p. by replace s with 1 by lia.
  - rewrite (proj2 (Z.leb_gt s 0)) by lia. Z.div_mod_to_equations. lia.
Qed.

Section BotRuns.
Context {InputPeer : Type} (E : Env InputPeer).

(** The TL codec reads back what it writes for this invoice. *)
Definition codec_on (i : MessageMediaInvoice) : Prop :=
  exists b, write_invoice E i = Ok b /\ read_invoice E b = Ok i /\ Z.of_nat (length b) < 2 ^ 32.

Lemma pack_codec i pl : codec_on i -> exists data,
  _pack_invoice_static (write_invoice E) i pl = Ok data /\
  _unpack_invoice_static (read_invoice E) data = Ok (i, pl).
Proof.
  intros (b & Hw & Hr & Hl).
  assert (exists data, _pack_invoice_static (write_invoice E) i pl = Ok data) as [data Hd].
  { unfold _pack_invoice_static. unfold_monads. rewrite Hw. unfold to_bytes_le.
    assert (fits 4 false (Z.of_nat (length b)) = true) as ->; [|by eexists].
    unfold fits. apply andb_true_iff. split; [apply Z.leb_le|apply Z.ltb_lt]; lia. }
  exists data. split; [done|by eapply unpack_pack].
Qed.

(** The invoice that a content stores. *)
Definition holds_invoice (d : Db) (c : Z) (i : MessageMediaInvoice) (pl : bytes) (bot : Z) : Prop :=
  exists ct data, contents d !! c = Some ct /\ author_bot ct = true /\ is_invoice ct = true /\
    author_id ct = bot /\ static_data ct = Some data /\
    _unpack_invoice_static (read_invoice E) data = Ok (i, pl).

Lemma receipt_run c r i pl bot d : holds_invoice d c i pl bot -> codec_on (paid r i) ->
  exists cs, _update_invoice_receipt E c r d = (Ok tt, with_contents cs d) /\
    holds_invoice (with_contents cs d) c (paid r i) pl bot.
Proof.
  intros (ct & data & Hc & Hb & Hi & Ha & Hs & Hu) Hcodec.
  destruct (pack_codec (paid r i) pl Hcodec) as (packed & Hp & Hup).
  eexists. split.
  - unfold _update_invoice_receipt. erewrite M_bind_step; [|reflexivity]. rewrite Hc, Hs.
    erewrite M_bind_step; [|unfold lift_result; rewrite Hu; reflexivity]. cbv beta iota zeta.
    fold (paid r i).
    erewrite M_bind_step; [|unfold lift_result; rewrite Hp; reflexivity]. reflexivity.
  - exists (MkContent (author_id ct) (author_bot ct) (is_invoice ct) (Some packed) true (version ct + 1)), packed.
    split_and!; try done. simpl. apply lookup_insert_eq.
Qed.

Definition paid_log (d : Db) (user msg : Z) : bool :=
  existsb (fun t => (tx_user_id t =? user) && bool_decide (tx_msg_id t = Some msg) && negb (inbound t))
    (transactions d).

(** One payment: what the second phase does when it can. *)
Lemma pay_run user msg r form c i i' pl bot d :
  wf d -> bot <> user -> 2 <= total_amount i -> total_amount i <= amount_of d user ->
  amount_of d bot + bot_net_stars (total_amount i) < 2 ^ 63 ->
  holds_invoice d c i' pl bot -> codec_on (paid r i') ->
  exists b d', pay_bot_form E user msg r form (c, i, pl, bot) d = (Ok (b, [user; bot]), d') /\
    wf d' /\ forms d' = delete (form_id form) (forms d) /\ clock d' = clock d /\
    message_refs d' = message_refs d /\
    amount_of d' user = amount_of d user - total_amount i /\
    amount_of d' bot = amount_of d bot + bot_net_stars (total_amount i) /\
    (forall u, u <> user -> u <> bot -> amount_of d' u = amount_of d u) /\
    holds_invoice d' c (paid r i') pl bot /\ paid_log d' user msg = true.
Proof.
  intros Hwf Hne H2 Ha Hb Hhold Hcodec.
  assert (Hne' : user <> bot) by congruence.
  destruct (proj2 (bot_net_bounds (total_amount i)) H2) as [Hn1 Hn2].
  set (d1 := drop_form (form_id form) d).
  assert (Hwf1 : wf d1) by (by apply (wf_eq d)).
  destruct (transfer_run (uuid4_hex E) user bot (total_amount i) PEER PEER (title i)
    (Some (description i)) (Some (description i)) (Some bot) (Some user) (Some msg)
    (match pl with [] => None | _ => Some pl end) (Some (bot_net_stars (total_amount i))) d1)
    as (pb & rb & Hrun & _ & _); [lia|done|apply Hwf1|].
  pose proof (transfer_posted (uuid4_hex E) user bot (total_amount i) PEER PEER (title i)
    (Some (description i)) (Some (description i)) (Some bot) (Some user) (Some msg)
    (match pl with [] => None | _ => Some pl end) (bot_net_stars (total_amount i)) d1 Hne') as Hpost.
  cbv zeta in Hrun, Hpost.
  rewrite (proj2 (fits8 _)) in Hrun by (change (amount_of d1 bot) with (amount_of d bot);
    pose proof (wf_range d Hwf bot); lia).
  match type of Hrun with _ = (_, ?s) => set (d2 := s) in * end.
  destruct Hpost as [Hrest Hlog Ham]. pose proof (wf_range d Hwf) as Hr.
  assert (Ham' : forall u, amount_of d2 u = amount_of d u
     + ((if bool_decide (user = u) then - total_amount i else 0)
        + ((if bool_decide (bot = u) then bot_net_stars (total_amount i) else 0) + 0))).
  { exact Ham. }
  assert (Hhold2 : holds_invoice d2 c i' pl bot).
  { destruct Hrest as (_ & _ & _ & _ & _ & Hc & _). unfold holds_invoice. rewrite Hc. exact Hhold. }
  destruct (receipt_run c r i' pl bot d2 Hhold2 Hcodec) as (cs & Hrec & Hhold3).
  eexists _, (with_contents cs d2). split; [|split_and!].
  - unfold pay_bot_form. cbv beta iota zeta. erewrite (M_bind_step _ _ d tt d1); [|reflexivity].
    erewrite M_bind_step; [|exact Hrun]. cbv beta iota.
    erewrite M_bind_step; [|exact Hrec]. reflexivity.
  - apply (wf_eq d2); [done|done|]. eapply posted_wf; [exact Hwf1|split; [exact Hrest|exact Hlog|exact Ham]| |].
    + repeat constructor; simpl; lia.
    + intros u. rewrite <- (Ham u), Ham'. specialize (Hr u). repeat case_bool_decide; subst; lia.
  - exact (proj1 (proj2 (proj2 Hrest))).
  - exact (proj1 Hrest).
  - exact (proj1 (proj2 (proj2 (proj2 (proj2 Hrest))))).
  - change (amount_of (with_contents cs d2)) with (amount_of d2). rewrite Ham'.
    rewrite bool_decide_eq_true_2 by done. rewrite bool_decide_eq_false_2 by done. lia.
  - change (amount_of (with_contents cs d2)) with (amount_of d2). rewrite Ham'.
    rewrite (bool_decide_eq_false_2 (user = bot)) by done. rewrite bool_decide_eq_true_2 by done. lia.
  - intros u Hu1 Hu2. change (amount_of (with_contents cs d2)) with (amount_of d2). rewrite Ham'.
    rewrite !bool_decide_eq_false_2 by congruence. lia.
  - done.
  - unfold paid_log. simpl. rewrite transactions_touch, <- app_assoc, existsb_app. simpl.
    rewrite Z.eqb_refl, bool_decide_eq_true_2 by done. apply orb_true_r.
Qed.
End BotRuns.

Section BotFlow.
Context {InputPeer : Type} (E : Env InputPeer) (user id msg : Z) (peer : InputPeer).
Context (f : StarsPaymentForm) (c : Z) (i : MessageMediaInvoice) (pl : bytes) (bot : Z).

Definition consents (a : PrecheckoutAnswer) : Prop :=
  is_system E bot = true \/ builtin a = Ok true \/ (builtin a = Ok false /\ reply a = Some [x31]).

(** [user] asked for a form for the unpaid stars invoice [msg] of [bot] and
    presents it in time. *)
Record presents (d : Db) : Prop := {
  pr_ref : exists p, resolve_peer E user peer = Ok p /\ message_refs d !! (p, msg) = Some c;
  pr_invoice : holds_invoice E d c i pl bot;
  pr_currency : inv_currency i = STARS_CURRENCY;
  pr_unpaid : receipt_msg_id i = None;
  pr_form : get_form user id d = (Ok (Some f), d);
  pr_id : form_id f = id;
  pr_time : clock d <= expires_at f;
  pr_match : purpose f = BOT_INVOICE /\ form_stars f = total_amount i /\ bot_user_id f = Some bot /\
    message_id f = Some msg /\ payload f = Some pl }.

(** The states that agree on what the flow reads. *)
Definition agree (d d' : Db) : Prop :=
  balances d' = balances d /\ transactions d' = transactions d /\ forms d' = forms d /\
  contents d' = contents d /\ message_refs d' = message_refs d /\ clock d' = clock d.

Lemma make_snowflake_run d : exists x d', make_snowflake E d = (Ok x, d') /\ agree d d'.
Proof. unfold make_snowflake. rewrite Snowflake.make_id_run. by eexists _, _. Qed.

Lemma precheckout_run a d : consents a ->
  exists d', _await_bot_precheckout E bot a d = (Ok tt, d') /\ agree d d'.
Proof.
  intros Ha. unfold _await_bot_precheckout. destruct (is_system E bot) eqn:Hs; [by eexists|].
  destruct (make_snowflake_run d) as (x & d1 & Hx & Hag).
  rewrite (M_bind_step _ _ d x d1 Hx).
  exists (with_precheckouts (snowflakes d1) (({[x]} ∪ precheckouts d1) ∖ {[x]}) d1). split; [|done].
  unfold finally. unfold_monads. clear Hx.
  destruct Ha as [Ha|[Ha|[Ha Hr]]]; [congruence|by rewrite Ha|by rewrite Ha, Hr].
Qed.

Lemma load_run d : presents d ->
  _load_bot_invoice_message E user peer msg d = (Ok (c, i, pl, bot), d).
Proof.
  intros [ (p & Hp & Hm) (ct & data & Hc & Hb & Hi & Ha & Hs & Hu) Hcur Hun _ _ _ _].
  unfold _load_bot_invoice_message.
  erewrite M_bind_step; [|unfold lift_result; rewrite Hp; reflexivity].
  erewrite M_bind_step; [|reflexivity]. rewrite Hm, Hc, Hb, Hi, Hs.
  erewrite M_bind_step; [|reflexivity].
  erewrite M_bind_step; [|unfold lift_result; rewrite Hu; reflexivity]. cbv beta iota.
  rewrite bool_decide_eq_true_2 by done. erewrite M_bind_step; [|reflexivity].
  unfold _invoice_is_paid. rewrite Hun. erewrite M_bind_step; [|reflexivity]. by rewrite Ha.
Qed.

(** A paid invoice is refused. *)
Lemma load_paid d r : (exists p, resolve_peer E user peer = Ok p /\ message_refs d !! (p, msg) = Some c) ->
  holds_invoice E d c (paid r i) pl bot -> inv_currency i = STARS_CURRENCY ->
  _load_bot_invoice_message E user peer msg d = (Raise (ErrorRpc400 "MEDIA_ALREADY_PAID"), d).
Proof.
  intros (p & Hp & Hm) (ct & data & Hc & Hb & Hi & Ha & Hs & Hu) Hcur.
  unfold _load_bot_invoice_message.
  erewrite M_bind_step; [|unfold lift_result; rewrite Hp; reflexivity].
  erewrite M_bind_step; [|reflexivity]. rewrite Hm, Hc, Hb, Hi, Hs.
  erewrite M_bind_step; [|reflexivity].
  erewrite M_bind_step; [|unfold lift_result; rewrite Hu; reflexivity]. cbv beta iota.
  rewrite bool_decide_eq_true_2 by done. erewrite M_bind_step; [|reflexivity]. done.
Qed.

Lemma check_run a d : presents d -> consents a ->
  exists d', check_bot_form E user id peer msg a d = (Ok (f, (c, i, pl, bot)), d') /\ agree d d'.
Proof.
  intros Hpr Ha. destruct (precheckout_run a d Ha) as (d' & Hrun & Hagree).
  pose proof (load_run d Hpr) as Hload. destruct Hpr as [_ _ _ _ Hf _ Ht (H1 & H2 & H3 & H4 & H5)].
  exists d'. split; [|done]. unfold check_bot_form. erewrite M_bind_step; [|exact Hf]. cbv beta iota.
  erewrite M_bind_step; [|exact Hload]. cbv beta iota. erewrite M_bind_step; [|reflexivity].
  unfold is_expired. rewrite (proj2 (Z.ltb_ge _ _)) by done.
  rewrite H1, H2, H3, H4, H5, Z.eqb_refl. rewrite !bool_decide_eq_true_2 by done.
  do 3 (erewrite M_bind_step; [|reflexivity]). erewrite M_bind_step; [|exact Hrun]. done.
Qed.

Lemma agree_amount d d' u : agree d d' -> amount_of d' u = amount_of d u.
Proof. intros (Hb & _). unfold amount_of. by rewrite Hb. Qed.
Lemma agree_holds d d' x : agree d d' -> holds_invoice E d c x pl bot -> holds_invoice E d' c x pl bot.
Proof. intros (_ & _ & _ & Hc & _). unfold holds_invoice. by rewrite Hc. Qed.
Lemma agree_wf d d' : agree d d' -> wf d -> wf d'.
Proof. intros (Hb & Ht & _). by apply wf_eq. Qed.

Lemma get_form_deleted u d : forms d !! id = None -> get_form u id d = (Ok None, d).
Proof. intros H. unfold get_form, gets. by rewrite H. Qed.

Lemma check_submitted a d : forms d !! id = None -> paid_log d user msg = true ->
  check_bot_form E user id peer msg a d = (Raise (ErrorRpc400 "FORM_SUBMIT_DUPLICATE"), d).
Proof.
  intros Hf Hl. unfold check_bot_form. erewrite M_bind_step; [|by apply get_form_deleted]. cbv beta iota.
  erewrite M_bind_raise; [done|]. unfold _raise_if_invoice_already_paid.
  erewrite M_bind_step; [|reflexivity]. fold (paid_log d user msg). by rewrite Hl.
Qed.
End BotFlow.

(** Paying a bot's invoice, one request after the other. A user who presents a valid
    form in time, whose bot consents and who can pay, pays exactly the price;
    the bot receives exactly its net share; the form is used up and the invoice is marked
    paid. After that no request pays it again: the same form is refused as a
    duplicate, any other form for that message and any new form are refused as already paid. *)
Theorem bot_payment_once {InputPeer} (E : Env InputPeer) (d : Db) (user id msg r : Z) (peer : InputPeer)
    (f : StarsPaymentForm) (c : Z) (i : MessageMediaInvoice) (pl : bytes) (bot : Z)
    (a : PrecheckoutAnswer) :
  wf d -> presents E user id msg peer f c i pl bot d -> consents E bot a ->
  bot <> user -> 2 <= total_amount i -> total_amount i <= amount_of d user ->
  amount_of d bot + bot_net_stars (total_amount i) < 2 ^ 63 -> codec_on E (paid r i) ->
  exists b d', complete_payment_form E user id (InputInvoiceMessage peer msg) a r d = (Ok (b, [user; bot]), d') /\
    amount_of d' user = amount_of d user - total_amount i /\
    amount_of d' bot = amount_of d bot + bot_net_stars (total_amount i) /\
    (forall u, u <> user -> u <> bot -> amount_of d' u = amount_of d u) /\
    forms d' = delete id (forms d) /\
    (forall a' r', complete_payment_form E user id (InputInvoiceMessage peer msg) a' r' d'
       = (Raise (ErrorRpc400 "FORM_SUBMIT_DUPLICATE"), d')) /\
    (forall id' f' a' r', get_form user id' d' = (Ok (Some f'), d') ->
       complete_payment_form E user id' (InputInvoiceMessage peer msg) a' r' d'
       = (Raise (ErrorRpc400 "MEDIA_ALREADY_PAID"), d')) /\
    create_payment_form E user (InputInvoiceMessage peer msg) d'
      = (Raise (ErrorRpc400 "MEDIA_ALREADY_PAID"), d').
Proof.
  intros Hwf Hpr Ha Hne H2 Hbal Hcap Hcodec.
  destruct (check_run E user id msg peer f c i pl bot a d Hpr Ha) as (d1 & Hcheck & Hag).
  destruct (pay_run E user msg r f c i i pl bot d1) as
    (b & d' & Hpay & _ & Hforms & _ & Hrefs & Hu & Hb & Ho & Hhold & Hlog); try done.
  { by eapply agree_wf. }
  { by rewrite (agree_amount _ _ _ Hag). }
  { by rewrite (agree_amount _ _ _ Hag). }
  { eapply agree_holds; [exact Hag|apply Hpr]. }
  assert (Hload : _load_bot_invoice_message E user peer msg d'
    = (Raise (ErrorRpc400 "MEDIA_ALREADY_PAID"), d')).
  { eapply load_paid; [|exact Hhold|apply Hpr]. rewrite Hrefs.
    destruct Hag as (_ & _ & _ & _ & -> & _). apply Hpr. }
  assert (Hdel : forms d' = delete id (forms d)).
  { rewrite Hforms, (pr_id _ _ _ _ _ _ _ _ _ _ _ Hpr). by destruct Hag as (_ & _ & -> & _). }
  exists b, d'. split_and!.
  - unfold complete_payment_form, _complete_bot_payment_form.
    erewrite M_bind_step; [|exact Hcheck]. exact Hpay.
  - by rewrite Hu, (agree_amount _ _ _ Hag).
  - by rewrite Hb, (agree_amount _ _ _ Hag).
  - intros u ? ?. by rewrite Ho, (agree_amount _ _ _ Hag).
  - done.
  - intros a' r'. unfold complete_payment_form, _complete_bot_payment_form.
    erewrite M_bind_raise; [done|]. apply check_submitted; [|done]. rewrite Hdel. apply lookup_delete_eq.
  - intros id' f' a' r' Hf'. unfold complete_payment_form, _complete_bot_payment_form, check_bot_form.
    erewrite M_bind_raise; [done|]. erewrite M_bind_step; [|exact Hf']. cbv beta iota. by erewrite M_bind_raise.
  - unfold create_payment_form, _create_bot_payment_form. by erewrite M_bind_raise.
Qed.

(** Where a bot payment goes wrong. A one-star invoice can never be paid,
    because the bot's net share is zero, and neither can one above the payer's balance: nothing moves, but the
    form is already gone when the error is raised. And the test that an invoice
    is unpaid is separated from the payment by the wait for the bot: two
    requests with the same form whose waits overlap both pay, and the user is
    charged twice for one invoice. *)
Theorem bot_payment_hazards {InputPeer} (E : Env InputPeer) (d : Db) (user id msg r r' : Z)
    (peer : InputPeer) (f : StarsPaymentForm) (c : Z) (i : MessageMediaInvoice) (pl : bytes) (bot : Z)
    (a a' : PrecheckoutAnswer) :
  wf d -> presents E user id msg peer f c i pl bot d -> consents E bot a -> consents E bot a' ->
  bot <> user ->
  (total_amount i = 1 \/ amount_of d user < total_amount i ->
    exists e d', complete_payment_form E user id (InputInvoiceMessage peer msg) a r d = (Raise (ErrorRpc400 e), d') /\
      forms d' = delete id (forms d) /\ (forall u, amount_of d' u = amount_of d u)) /\
  (2 <= total_amount i -> 2 * total_amount i <= amount_of d user ->
   amount_of d bot + 2 * bot_net_stars (total_amount i) < 2 ^ 63 ->
   codec_on E (paid r i) -> codec_on E (paid r' i) ->
   exists d1 d2 d3 d4 b b',
     check_bot_form E user id peer msg a d = (Ok (f, (c, i, pl, bot)), d1) /\
     check_bot_form E user id peer msg a' d1 = (Ok (f, (c, i, pl, bot)), d2) /\
     pay_bot_form E user msg r f (c, i, pl, bot) d2 = (Ok (b, [user; bot]), d3) /\
     pay_bot_form E user msg r' f (c, i, pl, bot) d3 = (Ok (b', [user; bot]), d4) /\
     amount_of d4 user = amount_of d user - 2 * total_amount i).
Proof.
  intros Hwf Hpr Ha Ha' Hne.
  destruct (check_run E user id msg peer f c i pl bot a d Hpr Ha) as (d1 & Hcheck & Hag).
  split.
  - intros Hbad.
    destruct (transfer_refused (uuid4_hex E) user bot (total_amount i) PEER PEER (title i)
      (Some (description i)) (Some (description i)) (Some bot) (Some user) (Some msg)
      (match pl with [] => None | _ => Some pl end) (Some (bot_net_stars (total_amount i)))
      (drop_form id d1)) as (e & Hrun & _).
    { destruct Hbad as [->|Hlow]; [right; left; apply Z.le_refl|]. right; right; right.
      by rewrite amount_of_drop, (agree_amount _ _ _ Hag). }
    exists e, (drop_form id d1). split_and!.
    + unfold complete_payment_form, _complete_bot_payment_form.
      erewrite M_bind_step; [|exact Hcheck]. unfold pay_bot_form. cbv beta iota zeta.
      erewrite (M_bind_step _ _ d1 tt (drop_form id d1)); [by erewrite M_bind_raise|].
      by rewrite <- (pr_id _ _ _ _ _ _ _ _ _ _ _ Hpr).
    + unfold drop_form. simpl. by destruct Hag as (_ & _ & -> & _).
    + intros u. by rewrite amount_of_drop, (agree_amount _ _ _ Hag).
  - intros H2 Hbal Hcap Hc1 Hc2.
    assert (Hpr1 : presents E user id msg peer f c i pl bot d1).
    { destruct Hag as (Hb & Htx & Hf & Hcs & Hm & Hclk). destruct Hpr as [Hp1 Hp2 ? ? Hp3 ? Hp4 ?]. split; try done.
      - by rewrite Hm.
      - unfold holds_invoice. by rewrite Hcs.
      - unfold get_form, gets in *. rewrite Hf. by injection Hp3 as ->.
      - by rewrite Hclk. }
    destruct (check_run E user id msg peer f c i pl bot a' d1 Hpr1 Ha') as (d2 & Hcheck' & Hag').
    assert (Hamt : forall u, amount_of d2 u = amount_of d u).
    { intros u. by rewrite (agree_amount _ _ _ Hag'), (agree_amount _ _ _ Hag). }
    destruct (bot_net_bounds (total_amount i)) as [_ Hnet]. specialize (Hnet H2).
    destruct (pay_run E user msg r f c i i pl bot d2) as
      (b & d3 & Hpay & Hwf3 & _ & _ & _ & Hu & Hb & Ho & Hhold & _); try done.
    { by eapply agree_wf, agree_wf. }
    { rewrite Hamt. lia. }
    { rewrite Hamt. lia. }
    { eapply agree_holds; [exact Hag'|apply Hpr1]. }
    destruct (pay_run E user msg r' f c i (paid r i) pl bot d3) as
      (b' & d4 & Hpay' & _ & _ & _ & _ & Hu' & _); try done.
    { rewrite Hu, Hamt. lia. }
    { rewrite Hb, Hamt. lia. }
    exists d1, d2, d3, d4, b, b'. split_and!; try done. rewrite Hu', Hu, Hamt. lia.
Qed.

Definition demo_bot_form (stars : Z) : StarsPaymentForm := demo_form BOT_INVOICE stars (Some 9) (Some 50) (Some [x41]).
Definition demo_invoice (stars : Z) : MessageMediaInvoice :=
  MkInvoice "t" "d" "XTR" stars "" false false None None None.

Lemma demo_codec r : 0 <= r < 2 ^ 31 -> codec_on demo_env (paid r (demo_invoice 7)).
Proof.
  intros Hr. exists (le_bytes 8 7 ++ le_bytes 4 r). split_and!.
  - assert (to_bytes_le 4 true r = Ok (le_bytes 4 r)) as H.
    { unfold to_bytes_le. assert (fits 4 true r = true) as ->; [|done].
      unfold fits. apply andb_true_iff. split; [apply Z.leb_le|apply Z.ltb_lt]; lia. }
    change (write_invoice demo_env) with demo_write. unfold demo_write, paid, demo_invoice.
    cbn [total_amount receipt_msg_id]. unfold_monads. by rewrite H.
  - assert (from_bytes_le true (le_bytes 4 r) = r) as H.
    { apply (from_to_bytes_le 4 true r); [lia|]. unfold to_bytes_le.
      assert (fits 4 true r = true) as ->; [|done].
      unfold fits. apply andb_true_iff. split; [apply Z.leb_le|apply Z.ltb_lt]; lia. }
    change (read_invoice demo_env) with demo_read. unfold demo_read.
    rewrite (drop_app_exact (le_bytes 8 7)) by done. rewrite (take_app_exact (le_bytes 8 7)) by done.
    rewrite H. rewrite (proj2 (Z.eqb_neq r (-1))) by lia. done.
  - rewrite length_app, !length_le_bytes. simpl. lia.
Qed.

Lemma demo_presents : presents demo_env 5 77 50 9 (demo_bot_form 7) 70 (demo_invoice 7) [x41] 9
  (demo_form_db 7 (demo_bot_form 7)).
Proof.
  split; try done.
  - by exists 9.
  - unfold holds_invoice. eexists _, _. split_and!; try reflexivity.
Qed.

Lemma bot_payment_once_witness :
  exists b d', complete_payment_form demo_env 5 77 (InputInvoiceMessage 9 50) (MkAnswer (Ok true) None) 51
      (demo_form_db 7 (demo_bot_form 7)) = (Ok (b, [5; 9]), d') /\ amount_of d' 5 = 993.
Proof.
  destruct (bot_payment_once demo_env (demo_form_db 7 (demo_bot_form 7)) 5 77 50 51 9 (demo_bot_form 7) 70
    (demo_invoice 7) [x41] 9 (MkAnswer (Ok true) None) (demo_form_wf 7 _) demo_presents
    (or_intror (or_introl eq_refl)) ltac:(lia) ltac:(vm_compute; congruence) ltac:(vm_compute; congruence)
    ltac:(vm_compute; congruence) (demo_codec 51 ltac:(lia))) as (b & d' & H & Hu & _).
  exists b, d'. split; [exact H|]. rewrite Hu. reflexivity.
Defined.

Lemma bot_payment_hazards_witness :
  exists d1 d2 d3 d4 b b',
    check_bot_form demo_env 5 77 9 50 (MkAnswer (Ok true) None) d1 = (Ok b, d2) /\
    pay_bot_form demo_env 5 50 52 (demo_bot_form 7) (70, demo_invoice 7, [x41], 9) d3 = (Ok (b', [5; 9]), d4) /\
    amount_of d4 5 = 986.
Proof.
  destruct (bot_payment_hazards demo_env (demo_form_db 7 (demo_bot_form 7)) 5 77 50 51 52 9 (demo_bot_form 7) 70
    (demo_invoice 7) [x41] 9 (MkAnswer (Ok true) None) (MkAnswer (Ok true) None) (demo_form_wf 7 _) demo_presents
    (or_intror (or_introl eq_refl)) (or_intror (or_introl eq_refl)) ltac:(lia)) as [_ H].
  destruct (H ltac:(vm_compute; congruence) ltac:(vm_compute; congruence) ltac:(vm_compute; congruence)
    (demo_codec 51 ltac:(lia)) (demo_codec 52 ltac:(lia)))
    as (d1 & d2 & d3 & d4 & b & b' & _ & H2 & _ & H4 & Ha).
  exists d1, d2, d3, d4, (demo_bot_form 7, (70, demo_invoice 7, [x41], 9)), b'.
  split; [exact H2|]. split; [exact H4|]. rewrite Ha. reflexivity.
Defined.
