(* ===== verification/StarsHistory.v ===== *)
(** The transaction history of a Stars wallet: [fetch_transactions] and
    [fetch_transactions_by_id] ([piltover/app/utils/stars_manager.py]), and how
    transactions and invoices are shown ([StarsTransaction.to_tl],
    [ensure_invoice_reply_markup]). *)
From stdpp Require Import pretty sorting.
From S2P Require Import Prelude PyBytes Stars.

(** ** Order of the history: by date, then by id. Ids are lower-case hex, so
    that every collation orders them as [String.le] does. *)
Definition str_lt (a b : string) : bool := negb (bool_decide (String.le b a)).

Definition tx_le (a b : StarsTransaction) : Prop :=
  date a < date b \/ (date a = date b /\ String.le (transaction_id a) (transaction_id b)).
#[export] Instance tx_le_dec : RelDecision tx_le.
Proof. intros a b. unfold tx_le. apply _. Defined.

(** [order_by("date", "transaction_id")] or the two descending *)
Definition history_le (ascending : bool) (a b : StarsTransaction) : Prop :=
  if ascending then tx_le a b else tx_le b a.
#[export] Instance history_le_dec asc : RelDecision (history_le asc).
Proof. intros a b. unfold history_le. destruct asc; apply _. Defined.

(** The [Q] objects of the offset filter *)
Definition after (ascending : bool) (offset_tx t : StarsTransaction) : bool :=
  if ascending
  then (date offset_tx <? date t)
       || ((date t =? date offset_tx) && str_lt (transaction_id offset_tx) (transaction_id t))
  else (date t <? date offset_tx)
       || ((date t =? date offset_tx) && str_lt (transaction_id t) (transaction_id offset_tx)).

Definition direction (inb outb : bool) (t : StarsTransaction) : bool :=
  if inb && negb outb then inbound t
  else if outb && negb inb then negb (inbound t)
  else true.

Definition page_size (limit : Z) : Z := if limit <=? 0 then 50 else Z.min limit 50.

Definition find_tx (wallet : Z) (id : string) (l : list StarsTransaction) : option StarsTransaction :=
  snd <$> list_find (fun t => transaction_id t = id /\ tx_user_id t = wallet) l.

Definition fetch_transactions (wallet_user_id : Z) (inb outb ascending : bool) (offset : string)
    (limit : Z) (subscription_id : option string) : D (list StarsTransaction * option string) :=
  match subscription_id with
  | Some _ => mret ([], None)
  | None =>
      d ← get;
      let limit := page_size limit in
      let query := filter (fun t => tx_user_id t = wallet_user_id /\ direction inb outb t) (transactions d) in
      let query :=
        if decide (offset = ""%string) then query
        else match find_tx wallet_user_id offset (transactions d) with
             | Some offset_tx => filter (fun t => after ascending offset_tx t) query
             | None => query
             end in
      let rows := take (Z.to_nat (limit + 1)) (merge_sort (history_le ascending) query) in
      let has_more := limit <? Z.of_nat (length rows) in
      let rows := take (Z.to_nat limit) rows in
      mret (rows, if has_more then transaction_id <$> last rows else None)
  end.

(** The whole history as a client reads it: page after page, until there is
    no next offset. *)
Fixpoint all_pages (fuel : nat) (wallet : Z) (inb outb asc : bool) (offset : string) (limit : Z)
    : D (list StarsTransaction) :=
  match fuel with
  | O => raise OutOfFuel
  | S n =>
      '(rows, next) ← fetch_transactions wallet inb outb asc offset limit None;
      match next with
      | None => mret rows
      | Some next => rest ← all_pages n wallet inb outb asc next limit; mret (rows ++ rest)
      end
  end.

(** [fetch_transactions_by_id]: the dict [order] keeps the last index of an id;
    the sort is stable. *)
Definition last_index (ids : list string) (id : string) : nat :=
  match list_find (fun x => x = id) (rev ids) with
  | Some (k, _) => length ids - 1 - k
  | None => length ids
  end.
Definition by_index (ids : list string) (a b : StarsTransaction) : Prop :=
  (last_index ids (transaction_id a) <= last_index ids (transaction_id b))%nat.
#[export] Instance by_index_dec ids : RelDecision (by_index ids).
Proof. intros a b. unfold by_index. apply _. Defined.

Definition fetch_transactions_by_id (wallet_user_id : Z) (transaction_ids : list string)
    : D (list StarsTransaction) :=
  match transaction_ids with
  | [] => mret []
  | _ =>
      d ← get;
      let rows := filter (fun t => tx_user_id t = wallet_user_id /\ transaction_id t ∈ transaction_ids)
        (transactions d) in
      mret (merge_sort (by_index transaction_ids) rows)
  end.

(** ** Facts about the order *)
Lemma tx_le_trans : Transitive tx_le.
Proof.
  intros a b c [H1|[H1 H2]] [H3|[H3 H4]]; unfold tx_le; [left; lia|left; lia|left; lia|].
  right. split; [lia|]. by etrans.
Qed.
Lemma tx_le_total : Total tx_le.
Proof.
  intros a b. unfold tx_le. destruct (Z.lt_trichotomy (date a) (date b)) as [H|[H|H]]; [by left; left| |by right; left].
  destruct (total String.le (transaction_id a) (transaction_id b)); [left; right|right; right]; split; lia || done.
Qed.
#[export] Instance history_le_trans asc : Transitive (history_le asc).
Proof. destruct asc; intros a b c; unfold history_le; [apply tx_le_trans|]. intros H1 H2. by eapply tx_le_trans. Qed.
#[export] Instance history_le_total asc : Total (history_le asc).
Proof. destruct asc; intros a b; unfold history_le; [apply tx_le_total|]. destruct (tx_le_total a b); auto. Qed.

Lemma history_le_antisym asc a b : history_le asc a b -> history_le asc b a ->
  transaction_id a = transaction_id b.
Proof.
  unfold history_le, tx_le. destruct asc; intros [H1|[H1 H2]] [H3|[H3 H4]]; try lia.
  - by apply (anti_symm String.le).
  - by apply (anti_symm String.le).
Qed.

(** The offset filter is the strict order of the history. *)
Lemma after_spec asc o t : after asc o t = true <-> ~ history_le asc t o.
Proof.
  unfold after, history_le, str_lt, tx_le. destruct asc.
  - rewrite orb_true_iff, andb_true_iff, Z.ltb_lt, Z.eqb_eq, negb_true_iff, bool_decide_eq_false. split.
    + intros [H|[H H']] [H1|[H1 H2]]; try lia; done.
    + intros H. destruct (Z.lt_trichotomy (date o) (date t)) as [?|[?|?]]; [by left| |exfalso; apply H; left; lia].
      right. split; [lia|]. intros Hle. apply H. right. by split.
  - rewrite orb_true_iff, andb_true_iff, Z.ltb_lt, Z.eqb_eq, negb_true_iff, bool_decide_eq_false. split.
    + intros [H|[H H']] [H1|[H1 H2]]; try lia; done.
    + intros H. destruct (Z.lt_trichotomy (date t) (date o)) as [?|[?|?]]; [by left| |exfalso; apply H; left; lia].
      right. split; [lia|]. intros Hle. apply H. right. by split.
Qed.

(** The rows a wallet's history consists of, in order. *)
Definition history (d : Db) (wallet : Z) (inb outb asc : bool) : list StarsTransaction :=
  merge_sort (history_le asc)
    (filter (fun t => tx_user_id t = wallet /\ direction inb outb t) (transactions d)).

Lemma filter_all {A} (P : A -> Prop) `{!forall x, Decision (P x)} (l : list A) :
  (forall x, x ∈ l -> P x) -> filter P l = l.
Proof.
  induction l as [|x l IH]; intros Hall; [done|]. rewrite filter_cons_True by (apply Hall; by left).
  f_equal. apply IH. intros y Hy. apply Hall. by right.
Qed.

Lemma sorted_drop_after asc (L : list StarsTransaction) : StronglySorted (history_le asc) L ->
  NoDup (transaction_id <$> L) -> forall k o, L !! k = Some o ->
  filter (fun t => after asc o t) L = drop (S k) L.
Proof.
  induction 1 as [|x L HL IH Hx]; intros Hnd k o Hk; [done|].
  apply NoDup_cons in Hnd as [Hni Hnd]. rewrite Forall_forall in Hx. destruct k as [|k]; simpl in Hk.
  - injection Hk as ->. rewrite filter_cons_False.
    2:{ intros Ht. apply Is_true_true, after_spec in Ht. apply Ht. destruct (total (history_le asc) o o); done. }
    simpl. rewrite drop_0. apply filter_all. intros y Hy. apply Is_true_true, after_spec.
    intros Hle. apply Hni. rewrite (history_le_antisym asc o y) by auto.
    by apply list_elem_of_fmap_2.
  - rewrite filter_cons_False.
    2:{ intros Ht. apply Is_true_true, after_spec in Ht. apply Ht, Hx. by eapply list_elem_of_lookup_2. }
    simpl. by apply IH.
Qed.

Lemma NoDup_fmap_filter {A B} (f : A -> B) (P : A -> Prop) `{!forall x, Decision (P x)} (l : list A) :
  NoDup (f <$> l) -> NoDup (f <$> filter P l).
Proof.
  induction l as [|x l IH]; intros Hnd; [done|]. apply NoDup_cons in Hnd as [H1 H2].
  destruct (decide (P x)); [rewrite filter_cons_True by done|rewrite filter_cons_False by done; auto].
  apply NoDup_cons. split; [|auto]. intros (y & Hy & Hin)%list_elem_of_fmap.
  apply H1. rewrite Hy. apply list_elem_of_fmap_2. by apply list_elem_of_filter in Hin as [_ ?].
Qed.

Lemma NoDup_fmap_inj_in {A B} (f : A -> B) (l : list A) x y :
  NoDup (f <$> l) -> x ∈ l -> y ∈ l -> f x = f y -> x = y.
Proof.
  intros Hnd [i Hi]%list_elem_of_lookup [j Hj]%list_elem_of_lookup Hf.
  assert (i = j) as ->; [|congruence].
  eapply (NoDup_lookup (f <$> l)); [done| |]; rewrite list_lookup_fmap; [by rewrite Hi|by rewrite Hj, Hf].
Qed.

Section History.
Context (d : Db) (wallet : Z) (inb outb asc : bool).
(** [transaction_id] is the primary key, and [uuid4().hex] is never empty. *)
Context (Hkey : NoDup (transaction_id <$> transactions d))
  (Hne : Forall (fun t => transaction_id t <> ""%string) (transactions d)).

Abbreviation L := (history d wallet inb outb asc).

Lemma history_sorted : StronglySorted (history_le asc) L.
Proof. apply StronglySorted_merge_sort; apply _. Qed.

Lemma history_perm : L ≡ₚ filter (fun t => tx_user_id t = wallet /\ direction inb outb t) (transactions d).
Proof. apply merge_sort_Permutation. Qed.

Lemma history_NoDup : NoDup (transaction_id <$> L).
Proof using Hkey. rewrite history_perm. by apply NoDup_fmap_filter. Qed.

Lemma history_elem o : o ∈ L -> o ∈ transactions d /\ tx_user_id o = wallet.
Proof. rewrite history_perm. intros ((H & _) & Hin)%list_elem_of_filter. done. Qed.

Lemma find_tx_own o : o ∈ L -> find_tx wallet (transaction_id o) (transactions d) = Some o.
Proof using Hkey.
  intros Ho. destruct (history_elem o Ho) as [Hin Hw]. unfold find_tx.
  destruct (list_find _ (transactions d)) as [[j t]|] eqn:E.
  - apply list_find_Some in E as (Hj & [Ht _] & _). simpl. f_equal.
    eapply NoDup_fmap_inj_in; [exact Hkey|by eapply list_elem_of_lookup_2|done|done].
  - exfalso. apply list_find_None in E. rewrite Forall_forall in E. by apply (E o).
Qed.

(** Sorting the rows behind an offset gives the rest of the history. *)
Lemma sort_after k o : L !! k = Some o ->
  merge_sort (history_le asc) (filter (fun t => after asc o t)
    (filter (fun t => tx_user_id t = wallet /\ direction inb outb t) (transactions d)))
  = drop (S k) L.
Proof using Hkey.
  intros Hk. rewrite <- (sorted_drop_after asc L history_sorted history_NoDup k o Hk).
  assert (Hperm : merge_sort (history_le asc) (filter (fun t => after asc o t)
    (filter (fun t => tx_user_id t = wallet /\ direction inb outb t) (transactions d)))
    ≡ₚ filter (fun t => after asc o t) L).
  { rewrite merge_sort_Permutation. f_equiv. by rewrite history_perm. }
  apply (Sorted_unique_strong (history_le asc)).
  - intros x y Hx Hy Hxy Hyx. rewrite Hperm in Hx.
    apply list_elem_of_filter in Hx as [_ Hx]. apply list_elem_of_filter in Hy as [_ Hy].
    eapply NoDup_fmap_inj_in; [exact history_NoDup|done|done|]. by eapply history_le_antisym.
  - apply Sorted_merge_sort, _.
  - rewrite (sorted_drop_after asc L history_sorted history_NoDup k o Hk).
    apply StronglySorted_Sorted. pose proof history_sorted as H.
    rewrite <- (take_drop (S k) L) in H. by apply StronglySorted_app_1_r in H.
  - done.
Qed.

(** A page is cut from what is left of the history. *)
Definition page (rest : list StarsTransaction) (limit : Z) : list StarsTransaction * option string :=
  let n := Z.to_nat (page_size limit) in
  (take n rest, if (n <? length rest)%nat then transaction_id <$> last (take n rest) else None).

Lemma page_size_pos limit : 1 <= page_size limit <= 50.
Proof. unfold page_size. destruct (limit <=? 0) eqn:E; b2p; lia. Qed.

Lemma page_cut rest limit :
  (take (Z.to_nat (page_size limit)) (take (Z.to_nat (page_size limit + 1)) rest),
   if page_size limit <? Z.of_nat (length (take (Z.to_nat (page_size limit + 1)) rest))
   then transaction_id <$> last (take (Z.to_nat (page_size limit)) (take (Z.to_nat (page_size limit + 1)) rest))
   else None) = page rest limit.
Proof.
  pose proof (page_size_pos limit). unfold page.
  rewrite take_take, Nat.min_l by lia. rewrite length_take. f_equal.
  destruct (Nat.ltb_spec (Z.to_nat (page_size limit)) (length rest));
    [rewrite (proj2 (Z.ltb_lt _ _)) by lia|rewrite (proj2 (Z.ltb_ge _ _)) by lia]; done.
Qed.

Lemma fetch_first limit : fetch_transactions wallet inb outb asc "" limit None d = (Ok (page L limit), d).
Proof.
  unfold fetch_transactions. erewrite M_bind_step; [|reflexivity]. cbv zeta.
  rewrite decide_True by done. rewrite <- page_cut. done.
Qed.

Lemma fetch_next limit k o : L !! k = Some o ->
  fetch_transactions wallet inb outb asc (transaction_id o) limit None d = (Ok (page (drop (S k) L) limit), d).
Proof using Hkey Hne.
  intros Hk. assert (Ho : o ∈ L) by (by eapply list_elem_of_lookup_2).
  unfold fetch_transactions. erewrite M_bind_step; [|reflexivity]. cbv zeta.
  rewrite decide_False.
  2:{ destruct (history_elem o Ho) as [Hin _]. rewrite Forall_forall in Hne. by apply Hne. }
  rewrite (find_tx_own o Ho), (sort_after k o Hk). rewrite <- page_cut. done.
Qed.

Lemma last_take_lookup n : (0 < n)%nat -> forall (l : list StarsTransaction), (n < length l)%nat ->
  last (take n l) = l !! (n - 1)%nat.
Proof.
  intros Hn l Hl. rewrite last_lookup, length_take, Nat.min_l by lia.
  rewrite lookup_take. rewrite decide_True by lia. f_equal. lia.
Qed.

(** Reading on from any point of the history. *)
Lemma all_pages_from limit : forall fuel offset rest,
  fetch_transactions wallet inb outb asc offset limit None d = (Ok (page rest limit), d) ->
  (exists k, rest = drop k L) -> (length rest < fuel)%nat ->
  all_pages fuel wallet inb outb asc offset limit d = (Ok rest, d).
Proof using Hkey Hne.
  pose proof (page_size_pos limit) as Hps. set (n := Z.to_nat (page_size limit)).
  induction fuel as [|fuel IH]; intros offset rest Hf [k Hk] Hlen; [lia|].
  simpl. erewrite M_bind_step; [|exact Hf]. unfold page. fold n. cbv zeta beta iota.
  destruct (Nat.ltb_spec n (length rest)) as [Hlt|Hge].
  - rewrite last_take_lookup by lia.
    destruct (lookup_lt_is_Some_2 rest (n - 1)) as [o Ho]; [lia|]. rewrite Ho. simpl.
    assert (Hok : L !! (k + (n - 1))%nat = Some o) by (by rewrite <- lookup_drop, <- Hk).
    assert (Hdrop : drop (S (k + (n - 1))) L = drop n rest).
    { rewrite Hk, drop_drop. f_equal. lia. }
    erewrite M_bind_step.
    2:{ apply (IH _ (drop n rest)); [|exists (k + n)%nat; by rewrite Hk, drop_drop|rewrite length_drop; lia].
        rewrite <- Hdrop. by apply fetch_next. }
    unfold mret, M_ret. by rewrite take_drop.
  - rewrite take_ge by lia. done.
Qed.
End History.

#[export] Instance by_index_total ids : Total (by_index ids).
Proof. intros a b. unfold by_index. lia. Qed.

Lemma by_id_run d wallet ids : exists rows,
  fetch_transactions_by_id wallet ids d = (Ok rows, d) /\
  rows ≡ₚ filter (fun t => tx_user_id t = wallet /\ transaction_id t ∈ ids) (transactions d) /\
  Sorted (by_index ids) rows.
Proof.
  assert (Hnil : forall l : list StarsTransaction,
    filter (fun t => tx_user_id t = wallet /\ transaction_id t ∈ []) l = []).
  { intros l. induction l as [|t l IH]; [done|]. rewrite filter_cons_False; [done|].
    intros [_ Hin]. by apply elem_of_nil in Hin. }
  destruct ids as [|id ids].
  - exists []. split_and!; [done| |constructor]. by rewrite Hnil.
  - eexists. split_and!; [reflexivity|apply merge_sort_Permutation|apply Sorted_merge_sort, _].
Qed.

(** C39: the transaction history is complete. With the primary key respected,
    whatever page size is asked for (every page holds between one and 50 rows),
    in either order and for any direction, reading page after page
    from the start ends and gives every transaction of that wallet and direction exactly once,
    in the order of date and id; an unknown offset starts over, and a
    subscription has no history. A request by ids gives exactly the wallet's
    transactions among them, ordered by their place in the request. *)
Theorem history_paging (d : Db) (wallet : Z) (inb outb asc : bool) (limit : Z) (fuel : nat) :
  NoDup (transaction_id <$> transactions d) ->
  Forall (fun t => transaction_id t <> ""%string) (transactions d) ->
  (length (transactions d) < fuel)%nat ->
  exists l, all_pages fuel wallet inb outb asc "" limit d = (Ok l, d) /\
    l ≡ₚ filter (fun t => tx_user_id t = wallet /\ direction inb outb t) (transactions d) /\
    StronglySorted (history_le asc) l /\ NoDup (transaction_id <$> l) /\
    (forall offset rows next, fetch_transactions wallet inb outb asc offset limit None d = (Ok (rows, next), d) ->
       (length rows <= 50)%nat) /\
    (forall offset, find_tx wallet offset (transactions d) = None ->
       fetch_transactions wallet inb outb asc offset limit None d
       = fetch_transactions wallet inb outb asc "" limit None d) /\
    (forall offset s, fetch_transactions wallet inb outb asc offset limit (Some s) d = (Ok ([], None), d)) /\
    (forall ids, exists rows, fetch_transactions_by_id wallet ids d = (Ok rows, d) /\
       rows ≡ₚ filter (fun t => tx_user_id t = wallet /\ transaction_id t ∈ ids) (transactions d) /\
       Sorted (by_index ids) rows).
Proof.
  intros Hkey Hne Hfuel. exists (history d wallet inb outb asc). split_and!.
  - apply (all_pages_from d wallet inb outb asc Hkey Hne); [apply fetch_first|by exists O|].
    rewrite (Permutation_length (history_perm d wallet inb outb asc)).
    eapply Nat.le_lt_trans; [apply length_filter|done].
  - apply history_perm.
  - apply history_sorted.
  - by apply history_NoDup.
  - intros offset rows next. unfold fetch_transactions. erewrite M_bind_step; [|reflexivity]. cbv zeta.
    unfold mret, M_ret. intros [= <- _]. rewrite length_take. pose proof (page_size_pos limit). lia.
  - intros offset Ho. unfold fetch_transactions.
    do 2 (erewrite M_bind_step; [|reflexivity]). cbv zeta. rewrite Ho.
    destruct (decide (offset = ""%string)); by rewrite (decide_True (P := ""%string = ""%string)) by done.
  - done.
  - intros ids. apply by_id_run.
Qed.

Lemma history_paging_witness :
  exists l, all_pages 3 5 false false true "" 1
    (snd (grant_stars (uuid4_hex demo_env) (stars_bot demo_env) 5 3 "" None (demo_db 7))) = l /\
    exists l', fst l = Ok l' /\ NoDup (transaction_id <$> l').
Proof.
  eexists. split; [reflexivity|].
  destruct (history_paging (snd (grant_stars (uuid4_hex demo_env) (stars_bot demo_env) 5 3 "" None (demo_db 7)))
    5 false false true 1 3) as (l & Hl & _ & _ & Hnd & _).
  - vm_compute. repeat constructor; rewrite ?elem_of_list_singleton, ?elem_of_nil; set_solver.
  - repeat constructor; vm_compute; congruence.
  - vm_compute. lia.
  - exists l. split; [by rewrite Hl|done].
Defined.

(** ** How a transaction is shown *)
Inductive StarsTransactionPeerTL :=
  | StarsTransactionPeer (user_id : Z)
  | StarsTransactionPeerFragment
  | StarsTransactionPeerAppStore
  | StarsTransactionPeerPlayMarket
  | StarsTransactionPeerPremiumBot
  | StarsTransactionPeerAds
  | StarsTransactionPeerAPI
  | StarsTransactionPeerUnsupported.

Definition _resolve_peer_user_id (t : StarsTransaction) (ctx : option (option Z)) : option Z :=
  match peer_user_id t with
  | Some u => Some u
  | None => match peer_type t, ctx with API, Some stars_bot_user_id => stars_bot_user_id | _, _ => None end
  end.

(** [_peer_tl]: the peer and the user added to the [UsersChatsChannels] *)
Definition _peer_tl (t : StarsTransaction) (ctx : option (option Z)) : StarsTransactionPeerTL * option Z :=
  let u := _resolve_peer_user_id t ctx in
  match peer_type t with
  | FRAGMENT => (StarsTransactionPeerFragment, None)
  | APP_STORE => (StarsTransactionPeerAppStore, None)
  | PLAY_MARKET => (StarsTransactionPeerPlayMarket, None)
  | PREMIUM_BOT =>
      match u with Some u => (StarsTransactionPeer u, Some u) | None => (StarsTransactionPeerPremiumBot, None) end
  | ADS => (StarsTransactionPeerAds, None)
  | API => match u with Some u => (StarsTransactionPeer u, Some u) | None => (StarsTransactionPeerAPI, None) end
  | PEER => match u with Some u => (StarsTransactionPeer u, Some u) | None => (StarsTransactionPeerUnsupported, None) end
  end.

Record TLStarsTransaction := MkTlTx {
  tl_id : string; tl_stars : StarsAmount; tl_date : Z; tl_peer : StarsTransactionPeerTL;
  tl_title : string; tl_description : string; tl_gift : bool; tl_refund : bool;
  tl_transaction_date : option Z; tl_transaction_url : option string;
  tl_msg_id : option Z; tl_bot_payload : option bytes }.

Definition to_tl (t : StarsTransaction) (ctx : option (option Z)) : TLStarsTransaction :=
  let title := or_str (tx_title t) "Telegram Stars" in
  let description := or_str (tx_description t) title in
  MkTlTx (transaction_id t) (to_stars_amount t) (date t) (fst (_peer_tl t ctx)) title description
    (gift t) (refund t)
    (match tx_msg_id t with Some _ => Some (date t) | None => None end)
    (match tx_msg_id t with
     | Some _ => Some ("https://t.me/$/stars/transactions/" +:+ transaction_id t)%string
     | None => None
     end)
    (tx_msg_id t) (bot_payload t).

(** [build_stars_status]: the balance (its row is created when missing) and
    the history with the users it mentions *)
Definition build_stars_status (wallet : Z) (history : option (list StarsTransaction)) (next : option string)
    (stars_bot : option Z) : D (StarsAmount * option (list TLStarsTransaction) * option string * list Z) :=
  balance ← balance_row_or_create wallet;
  let users : list Z := match history with
    | Some l => omap (fun t => snd (_peer_tl t (Some stars_bot))) l | None => [] end in
  mret (balance_to_stars_amount balance, map (fun t => to_tl t (Some stars_bot)) <$> history, next, users).

(** ** The pay button of an invoice *)
Inductive KeyboardButton := KeyboardButtonBuy (text : string) | OtherButton (text : string).
Definition ReplyInlineMarkup := list (list KeyboardButton).

Definition make_invoice_buy_markup (currency : string) (total_amount : Z) : ReplyInlineMarkup :=
  let text := if decide (currency = STARS_CURRENCY)
    then ("Pay " +:+ "⭐ " +:+ pretty total_amount)%string
    else ("Pay " +:+ pretty total_amount +:+ " " +:+ currency)%string in
  [[KeyboardButtonBuy text]].

Definition ensure_invoice_reply_markup (currency : string) (total_amount : Z)
    (reply_markup : option ReplyInlineMarkup) : ReplyInlineMarkup :=
  match reply_markup with
  | Some (((KeyboardButtonBuy _ :: _) as row) :: rows) => row :: rows
  | _ => make_invoice_buy_markup currency total_amount
  end.

Definition has_pay_button (m : ReplyInlineMarkup) : Prop :=
  exists text row rows, m = (KeyboardButtonBuy text :: row) :: rows.

(** What a client is shown of the wallet. The signed amounts of a full history add up to the
    balance that is shown with it; every peer shown as a user is among the
    users sent along; and an invoice's markup always begins with a pay button and
    keeps the given one if it has it. *)
Theorem stars_display (d : Db) (wallet : Z) (next : option string) (bot : option Z) :
  wf d ->
  let own := filter (fun t => tx_user_id t = wallet) (transactions d) in
  exists d' am tls users, build_stars_status wallet (Some own) next bot d
      = (Ok (MkStarsAmount am (match balances d !! wallet with Some b => nanos b | None => 0 end),
             Some tls, next, users), d') /\
    am = foldr (fun t acc => sa_amount (tl_stars t) + acc) 0 tls /\
    (forall t u, t ∈ tls -> tl_peer t = StarsTransactionPeer u -> u ∈ users) /\
    (forall cur total m, has_pay_button (ensure_invoice_reply_markup cur total m) /\
       (forall m', m = Some m' -> has_pay_button m' -> ensure_invoice_reply_markup cur total m = m')).
Proof.
  intros Hd own. unfold build_stars_status.
  destruct (balance_row_or_create_run wallet d) as [n Hrow].
  assert (Hn : n = match balances d !! wallet with Some b => nanos b | None => 0 end).
  { revert Hrow. unfold balance_row_or_create, balance_row, create_balance. unfold_monads.
    destruct (balances d !! wallet) as [[a k]|]; intros H; injection H; intros; done. }
  eexists _, (amount_of d wallet), _, _. split_and!.
  - erewrite M_bind_step; [|exact Hrow]. unfold mret, M_ret. cbn [fmap option_fmap option_map].
    unfold balance_to_stars_amount. cbn [amount nanos]. rewrite Hn. reflexivity.
  - rewrite (wf_ledger d Hd). unfold own. generalize (transactions d). intros l.
    induction l as [|t l IH]; [done|]. simpl. destruct (decide (tx_user_id t = wallet)) as [Ht|Ht].
    + rewrite filter_cons_True, bool_decide_eq_true_2 by done. simpl. by rewrite IH.
    + rewrite filter_cons_False, bool_decide_eq_false_2 by done. by rewrite IH.
  - intros t u Ht Hu. apply list_elem_of_In, in_map_iff in Ht as (x & <- & Hx). apply list_elem_of_In in Hx.
    apply list_elem_of_omap. exists x. split; [done|]. revert Hu. unfold to_tl, _peer_tl. cbn [tl_peer].
    destruct (peer_type x); simpl; try done; destruct (_resolve_peer_user_id x _); simpl; congruence.
  - intros cur total m. split.
    + unfold ensure_invoice_reply_markup, make_invoice_buy_markup, has_pay_button.
      destruct m as [[|[|[?|?] row] rows]|]; eauto.
    + intros m' -> (text & row & rows & ->). done.
Qed.

Lemma stars_display_witness : exists x d', build_stars_status 5
    (Some (filter (fun t => tx_user_id t = 5) (transactions (demo_db 7)))) None None (demo_db 7) = (Ok x, d').
Proof.
  destruct (stars_display (demo_db 7) 5 None None (demo_wf 7)) as (d' & am & tls & users & H & _).
  eexists _, d'. exact H.
Defined.
