(* ===== verification/GroupCalls.v ===== *)
(** Group calls ([piltover/app/utils/group_calls.py],
    [piltover/app/handlers/group_calls.py], [piltover/db/models/group_call.py],
    [piltover/db/models/group_call_participant.py]).

    The tables are maps, an operation reads a row, changes the object and saves
    the fields it changed, so that object and row agree after it; every request runs
    alone. What is sent to clients and to the media server is a log of events. The
    clock, the ten random numbers of [ensure_unique_ssrc] and the parsed join
    parameters are arguments; [Peer.from_input_peer_raise] is a parameter. *)
From stdpp Require Import pretty.
From S2P Require Import Prelude PyBytes TlObject SessionManager Rights.

(** ** Rows *)
Inductive place := InChat (id : Z) | InChannel (id : Z).
#[export] Instance place_eq_dec : EqDecision place.
Proof. solve_decision. Defined.
#[export] Instance place_countable : Countable place.
Proof.
  refine (inj_countable' (fun p => match p with InChat i => inl i | InChannel i => inr i end)
    (fun s => match s with inl i => InChat i | inr i => InChannel i end) _). by intros [].
Defined.

Record GroupCall := MkGroupCall {
  g_access_hash : Z; g_created_at : Z; g_started_at : option Z; g_discarded_at : option Z; g_title : option pystr;
  g_join_muted : bool; g_schedule_date : option Z; g_version : Z; g_participants_version : Z; g_next_source : Z;
  g_invite_hash : option pystr; g_creator : Z; g_place : place }.

(** The four columns of a participant that say who hears him *)
Record Mute := MkMute { muted : bool; muted_by_admin : bool; volume : Z; volume_by_admin : bool }.

(** Source, endpoint, source groups and pause of the video or the presentation *)
Definition source_groups : Type := list (pystr * list Z).
Record Stream := MkStream { st_source : option Z; st_endpoint : option pystr; st_groups : option source_groups; st_paused : bool }.

Record Participant := MkPart {
  gp_join_as_user : option Z; gp_join_as_channel : option Z; gp_source : Z; gp_mute : Mute; gp_video_stopped : bool;
  gp_video : Stream; gp_presentation : Stream; gp_raise_hand_rating : option Z; gp_left : bool; gp_joined_at : Z }.

Inductive event :=
  | CallUpdate (call : Z)
  | ParticipantsUpdate (call user : Z) (exclude : option Z) (broadcast : bool)
  | ServiceMessage (call author : Z) (duration : option Z)
  | CloseRoom (call : Z)
  | SfuState (call user : Z) (paused : bool)
  | SfuLeave (call user : Z)
  | SpeakingUpdate (call user : Z).

Record CallDb := MkCallDb {
  calls : gmap Z GroupCall;
  parts : gmap (Z * Z) Participant;          (* unique by group call and user *)
  chats : gmap place ChatBase;
  members : gmap (place * Z) ChatParticipant;
  last_speaking_broadcast : gmap (Z * Z) Z;
  last_sfu_pause_state : gmap (Z * Z) bool;
  log : list event;
}.
Abbreviation C := (M CallDb).

Definition DEFAULT_GROUP_CALL_VOLUME : Z := 10000.
Definition ADMIN_VOLUME_MUTE_THRESHOLD : Z := 100.
Definition no_stream : Stream := MkStream None None None false.

(** ** Writing rows *)
Definition with_calls (c : gmap Z GroupCall) (d : CallDb) : CallDb :=
  MkCallDb c (parts d) (chats d) (members d) (last_speaking_broadcast d) (last_sfu_pause_state d) (log d).
Definition with_parts (p : gmap (Z * Z) Participant) (d : CallDb) : CallDb :=
  MkCallDb (calls d) p (chats d) (members d) (last_speaking_broadcast d) (last_sfu_pause_state d) (log d).
Definition with_speaking (m : gmap (Z * Z) Z) (d : CallDb) : CallDb :=
  MkCallDb (calls d) (parts d) (chats d) (members d) m (last_sfu_pause_state d) (log d).
Definition with_pause (m : gmap (Z * Z) bool) (d : CallDb) : CallDb :=
  MkCallDb (calls d) (parts d) (chats d) (members d) (last_speaking_broadcast d) m (log d).
Definition emit (e : event) : C unit := modify (fun d =>
  MkCallDb (calls d) (parts d) (chats d) (members d) (last_speaking_broadcast d) (last_sfu_pause_state d) (log d ++ [e])).

Definition save_call (id : Z) (g : GroupCall) : C unit := modify (fun d => with_calls (<[id := g]> (calls d)) d).

(** [unique_together = ("group_call", "source")] *)
Definition source_free (d : CallDb) (call user source : Z) : bool :=
  bool_decide (map_Forall (fun ku p => ku.1 = call -> ku.2 <> user -> gp_source p <> source) (parts d)).
Definition save_part (call user : Z) (p : Participant) : C unit :=
  d ← get;
  if source_free d call user (gp_source p) then modify (fun d => with_parts (<[(call, user) := p]> (parts d)) d)
  else raise RuntimeError.

Definition with_mute (m : Mute) (p : Participant) : Participant :=
  MkPart (gp_join_as_user p) (gp_join_as_channel p) (gp_source p) m (gp_video_stopped p) (gp_video p) (gp_presentation p)
    (gp_raise_hand_rating p) (gp_left p) (gp_joined_at p).
Definition with_video (stopped : bool) (s : Stream) (p : Participant) : Participant :=
  MkPart (gp_join_as_user p) (gp_join_as_channel p) (gp_source p) (gp_mute p) stopped s (gp_presentation p)
    (gp_raise_hand_rating p) (gp_left p) (gp_joined_at p).
Definition with_presentation (s : Stream) (p : Participant) : Participant :=
  MkPart (gp_join_as_user p) (gp_join_as_channel p) (gp_source p) (gp_mute p) (gp_video_stopped p) (gp_video p) s
    (gp_raise_hand_rating p) (gp_left p) (gp_joined_at p).
Definition with_hand (r : option Z) (p : Participant) : Participant :=
  MkPart (gp_join_as_user p) (gp_join_as_channel p) (gp_source p) (gp_mute p) (gp_video_stopped p) (gp_video p)
    (gp_presentation p) r (gp_left p) (gp_joined_at p).
Definition with_left (l : bool) (p : Participant) : Participant :=
  MkPart (gp_join_as_user p) (gp_join_as_channel p) (gp_source p) (gp_mute p) (gp_video_stopped p) (gp_video p)
    (gp_presentation p) (gp_raise_hand_rating p) l (gp_joined_at p).
Definition with_join (u ch : option Z) (source : Z) (p : Participant) : Participant :=
  MkPart u ch source (gp_mute p) (gp_video_stopped p) (gp_video p) (gp_presentation p) (gp_raise_hand_rating p)
    (gp_left p) (gp_joined_at p).
Definition set_source (x : option Z) (s : Stream) : Stream := MkStream x (st_endpoint s) (st_groups s) (st_paused s).
Definition set_paused (b : bool) (s : Stream) : Stream := MkStream (st_source s) (st_endpoint s) (st_groups s) b.
(** Source, endpoint and groups set to [None], the pause kept *)
Definition drop_stream (s : Stream) : Stream := MkStream None None None (st_paused s).

(** ** [GroupCall] *)
Definition with_version (v pv : Z) (g : GroupCall) : GroupCall :=
  MkGroupCall (g_access_hash g) (g_created_at g) (g_started_at g) (g_discarded_at g) (g_title g) (g_join_muted g)
    (g_schedule_date g) v pv (g_next_source g) (g_invite_hash g) (g_creator g) (g_place g).
Definition with_times (s dd : option Z) (g : GroupCall) : GroupCall :=
  MkGroupCall (g_access_hash g) (g_created_at g) s dd (g_title g) (g_join_muted g)
    (g_schedule_date g) (g_version g) (g_participants_version g) (g_next_source g) (g_invite_hash g) (g_creator g) (g_place g).
Definition with_settings (t : option pystr) (m : bool) (h : option pystr) (g : GroupCall) : GroupCall :=
  MkGroupCall (g_access_hash g) (g_created_at g) (g_started_at g) (g_discarded_at g) t m
    (g_schedule_date g) (g_version g) (g_participants_version g) (g_next_source g) h (g_creator g) (g_place g).
Definition with_next_source (n : Z) (g : GroupCall) : GroupCall :=
  MkGroupCall (g_access_hash g) (g_created_at g) (g_started_at g) (g_discarded_at g) (g_title g) (g_join_muted g)
    (g_schedule_date g) (g_version g) (g_participants_version g) n (g_invite_hash g) (g_creator g) (g_place g).

Definition is_active (g : GroupCall) : bool :=
  bool_decide (g_discarded_at g = None) && bool_decide (is_Some (g_started_at g)).
Definition is_scheduled (g : GroupCall) : bool :=
  bool_decide (g_discarded_at g = None) && bool_decide (g_started_at g = None) && bool_decide (is_Some (g_schedule_date g)).

Definition of_call (d : CallDb) (call : Z) : gmap (Z * Z) Participant := filter (fun kv => kv.1.1 = call) (parts d).
Definition active_of (d : CallDb) (call : Z) : gmap (Z * Z) Participant :=
  filter (fun kv => kv.1.1 = call /\ gp_left kv.2 = false) (parts d).
Definition participants_count (d : CallDb) (call : Z) : nat := size (active_of d call).

Definition bump (g : GroupCall) : GroupCall := with_version (g_version g + 1) (g_version g + 1) g.
(** The object's version plus one, and nothing else *)
Definition next_version (g : GroupCall) : GroupCall := with_version (g_version g + 1) (g_participants_version g) g.

Definition call_row (id : Z) : C GroupCall := fun d =>
  match calls d !! id with Some g => (Ok g, d) | None => (Raise DoesNotExist, d) end.

Definition bump_participants_version (id : Z) : C unit := g ← call_row id; save_call id (bump g).

Definition get_from_input_any (id access_hash : Z) : C (option GroupCall) := fun d =>
  (Ok (g ← calls d !! id; if g_access_hash g =? access_hash then Some g else None), d).
Definition get_from_input_raise (id access_hash : Z) : C GroupCall :=
  g ← get_from_input_any id access_hash;
  match g with
  | None => raise (ErrorRpc 400 "GROUPCALL_INVALID")
  | Some g => if decide (g_discarded_at g = None) then mret g else raise (ErrorRpc 403 "GROUPCALL_FORBIDDEN")
  end.

(** The calls of a chat that are not discarded *)
Definition undiscarded (d : CallDb) (p : place) : gmap Z GroupCall :=
  filter (fun kv => g_place kv.2 = p /\ g_discarded_at kv.2 = None) (calls d).

(** [get_or_none] raises when several rows match. *)
Definition get_active_group_call (p : place) : C (option (Z * GroupCall)) := fun d =>
  match map_to_list (undiscarded d p) with
  | [] => (Ok None, d)
  | [kv] => (Ok (Some kv), d)
  | _ => (Raise RuntimeError, d)
  end.

(** ** Participants *)
Definition is_admin_volume_silent (m : Mute) : bool := volume_by_admin m && (volume m <=? ADMIN_VOLUME_MUTE_THRESHOLD).
Definition is_admin_muted (m : Mute) : bool := muted_by_admin m || is_admin_volume_silent m.
Definition can_self_unmute_participant (m : Mute) : bool := negb (is_admin_muted m).
Definition should_pause_sfu_audio (m : Mute) : bool := muted m || is_admin_muted m.

Definition normalize_admin_volume (v : Z) : Z := if v <=? ADMIN_VOLUME_MUTE_THRESHOLD then 0 else v.

Definition admin_muted_state : Mute := MkMute true true DEFAULT_GROUP_CALL_VOLUME false.

(** [normalize_admin_mute_db_state]: the new columns and whether any changed *)
Definition normalize_admin_mute_db_state (m : Mute) : Mute * bool :=
  if negb (is_admin_volume_silent m) || muted_by_admin m then (m, false) else (admin_muted_state, true).

Definition participant_sources (p : Participant) : list Z :=
  gp_source p :: option_list (st_source (gp_video p)) ++ option_list (st_source (gp_presentation p)).

(** ** Sources *)
Definition _participant_taken_sources (d : CallDb) (call user : Z) : gset Z :=
  list_to_set (mjoin ((fun kv => participant_sources kv.2) <$>
    map_to_list (filter (fun kv => kv.1.2 <> user) (of_call d call)))).

Definition allocate_source (call : Z) : C Z :=
  g ← call_row call;
  save_call call (with_next_source (g_next_source g + 1) g);;
  mret (g_next_source g).

(** [random_ssrcs] are the numbers that [allocate_random_ssrc] returns in turn; the loop asks for ten at most. *)
Definition ensure_unique_ssrc (call : Z) (ssrc : option Z) (user : Z) (exclude_sources : list Z) (random_ssrcs : list Z) : C Z :=
  d ← get;
  let taken := _participant_taken_sources d call user ∖ list_to_set exclude_sources in
  match ssrc with
  | Some ssrc => if decide (ssrc ∈ taken) then raise (ErrorRpc 400 "GROUPCALL_SSRC_DUPLICATE_MUCH") else mret ssrc
  | None =>
    match list_find (fun c => c ∉ taken) (take 10 random_ssrcs) with
    | Some (_, candidate) => mret candidate
    | None => allocate_source call
    end
  end.

(** ** Requests *)
(** What [Peer.from_input_peer_raise] with users and channels returns *)
Inductive peer := UserPeer (user_id : Z) | ChannelPeer (channel_id : Z).

Record JoinRequest (InputPeer : Type) := MkJoin {
  jr_join_as : InputPeer; jr_muted : bool; jr_video_stopped : bool; jr_invite_hash : option pystr;
  jr_ssrc : option Z; jr_groups : option source_groups; jr_video_stream : bool (* [detect_join_stream_kind] says "video" *) }.
Arguments jr_join_as {_}. Arguments jr_muted {_}. Arguments jr_video_stopped {_}. Arguments jr_invite_hash {_}.
Arguments jr_ssrc {_}. Arguments jr_groups {_}. Arguments jr_video_stream {_}.

Record EditRequest := MkEdit {
  er_muted : option bool; er_volume : option Z; er_raise_hand : option bool; er_video_stopped : option bool;
  er_video_paused : option bool; er_presentation_paused : option bool }.

Section Operations.
Context {InputPeer : Type} (input_is_self : Z -> InputPeer -> bool) (from_input_peer : Z -> InputPeer -> result peer).
(** [SYSTEM_CONFIG.group_call_sfu] *)
Context (sfu_enabled : bool) (sfu_public_ip : string).
(** [time.monotonic()] and [datetime.now(UTC)], in microseconds *)
Context (monotonic now : Z).

Definition chat_of (g : GroupCall) : C (place * ChatBase) := fun d =>
  match chats d !! g_place g with Some c => (Ok (g_place g, c), d) | None => (Raise DoesNotExist, d) end.

(** [get_participant_raise] *)
Definition get_participant_raise (p : place) (user : Z) (message : string) : C ChatParticipant := fun d =>
  match members d !! (p, user) with
  | Some m => if Rights.left m then (Raise (ErrorRpc 400 message), d) else (Ok m, d)
  | None => (Raise (ErrorRpc 400 message), d)
  end.

Definition ensure_can_manage_call (user : Z) (p : place) (c : ChatBase) : C unit :=
  m ← get_participant_raise p user "CHAT_ADMIN_REQUIRED";
  if Rights.creator_id c =? user then mret tt
  else if match p with InChat _ => is_admin m | InChannel _ => false end then mret tt
  else ensure (admin_has_permission c m Admin.MANAGE_CALL) (ErrorRpc 403 "CHAT_ADMIN_REQUIRED").

(** The start of every handler of an existing call *)
Definition open_call (id access_hash : Z) : C (GroupCall * (place * ChatBase)) :=
  g ← get_from_input_raise id access_hash; pc ← chat_of g; mret (g, pc).

Definition all_left (call : Z) : C unit := modify (fun d => with_parts
  (map_imap (fun cu p => Some (if decide (cu.1 = call /\ gp_left p = false) then with_left true p else p)) (parts d)) d).

Definition close_group_call_room (call : Z) : C unit := if sfu_enabled then emit (CloseRoom call) else mret tt.

Definition discard_active_call (p : place) : C unit :=
  active ← get_active_group_call p;
  match active with
  | None => mret tt
  | Some (id, g) =>
    save_call id (next_version (with_times (g_started_at g) (Some now) g));;
    all_left id;;
    close_group_call_room id
  end.

(** [pk] is the key the database gives to the new row. *)
Definition create_group_call (pk access_hash user : Z) (p : place) (c : ChatBase) (title : option pystr)
    (schedule_date : option Z) : C unit :=
  transaction (
    discard_active_call p;;
    save_call pk (MkGroupCall access_hash now (match schedule_date with Some _ => None | None => Some now end) None
      (Some (default (Rights.name c) title)) (is_broadcast c) schedule_date 1 1 1 None user p)).

Definition create_group_call_handler (pk access_hash user : Z) (p : place) (title : option pystr)
    (schedule_date : option Z) : C unit :=
  d ← get;
  match chats d !! p with
  | None => raise DoesNotExist
  | Some c =>
    ensure_can_manage_call user p c;;
    create_group_call pk access_hash user p c title schedule_date;;
    emit (CallUpdate pk);;
    match schedule_date with None => emit (ServiceMessage pk user None) | Some _ => mret tt end
  end.

Definition discard_group_call (id access_hash user : Z) : C unit :=
  gpc ← open_call id access_hash;
  let '(g, (p, c)) := gpc in
  ensure_can_manage_call user p c;;
  save_call id (next_version (with_times (g_started_at g) (Some now) g));;
  all_left id;;
  close_group_call_room id;;
  emit (ServiceMessage id user (Some ((now - default (g_created_at g) (g_started_at g)) / 1000000)));;
  emit (CallUpdate id).

Definition start_scheduled_group_call (id access_hash user : Z) : C unit :=
  g ← get_from_input_raise id access_hash;
  ensure (bool_decide (g_started_at g = None)) (ErrorRpc 400 "GROUPCALL_ALREADY_STARTED");;
  pc ← chat_of g;
  let '(p, c) := pc in
  ensure_can_manage_call user p c;;
  save_call id (next_version (with_times (Some now) (g_discarded_at g) g));;
  emit (CallUpdate id);;
  emit (ServiceMessage id user None).

(** ** Joining *)
Definition resolve_join_as (user : Z) (join_as : InputPeer) : C (option Z * option Z) :=
  if input_is_self user join_as then mret (Some user, None)
  else
    p ← lift_result (from_input_peer user join_as);
    match p with
    | UserPeer u => mret (Some u, None)
    | ChannelPeer ch =>
      d ← get;
      m ← get_participant_raise (InChannel ch) user "CHAT_RESTRICTED";
      match chats d !! InChannel ch with
      | None => raise DoesNotExist
      | Some c =>
        ensure (admin_has_permission c m Admin.POST_MESSAGES) (ErrorRpc 403 "CHAT_ADMIN_REQUIRED");;
        mret (None, Some ch)
      end
    end.

Definition resolve_join_muted (request_muted : bool) (g : GroupCall) : bool := if g_join_muted g then true else request_muted.

Definition get_part (call user : Z) : C (option Participant) := gets (fun d => parts d !! (call, user)).
(** [get_or_none(..., left=False)] *)
Definition get_active_part (call user : Z) : C (option Participant) := gets (fun d =>
  p ← parts d !! (call, user); if gp_left p then None else Some p).
Definition _require_active_participant (call user : Z) : C Participant :=
  p ← get_active_part call user;
  match p with Some p => mret p | None => raise (ErrorRpc 400 "GROUPCALL_JOIN_MISSING") end.

(** A participant that is there already and comes back *)
Definition rejoin (muted_ : bool) (p : Participant) : Participant :=
  let m := (normalize_admin_mute_db_state (gp_mute p)).1 in
  with_mute (MkMute (if muted_by_admin m || is_admin_volume_silent m then true else muted_)
               (muted_by_admin m) (volume m) (volume_by_admin m)) (with_left false p).

Definition join_group_call (user id : Z) (r : JoinRequest InputPeer) (random_ssrcs : list Z) : C (Participant * bool) :=
  g ← call_row id;
  ensure (bool_decide (g_discarded_at g = None)) (ErrorRpc 403 "GROUPCALL_FORBIDDEN");;
  ensure (bool_decide (is_Some (g_started_at g))) (ErrorRpc 400 "GROUPCALL_INVALID");;
  join_as ← resolve_join_as user (jr_join_as r);
  ensure (match jr_invite_hash r with Some h => bool_decide (Some h = g_invite_hash g) | None => true end)
    (ErrorRpc 400 "HASH_INVALID");;
  let muted_ := resolve_join_muted (jr_muted r) g in
  source ← ensure_unique_ssrc id (jr_ssrc r) user [] random_ssrcs;
  existing ← get_part id user;
  let '(p, just_joined) := match existing with
    | None => (MkPart join_as.1 join_as.2 source (MkMute muted_ false DEFAULT_GROUP_CALL_VOLUME false) (jr_video_stopped r)
                 no_stream no_stream None false now, true)
    | Some p => (with_join join_as.1 join_as.2 source (with_video (jr_video_stopped r) (gp_video p) (rejoin muted_ p)), gp_left p)
    end in
  save_part id user p;;
  bump_participants_version id;;
  mret (p, just_joined).

Definition _STREAM_KIND_VIDEO : string := "video".
Definition _STREAM_KIND_PRESENTATION : string := "presentation".
Definition make_stream_endpoint (id user : Z) (kind : string) : pystr :=
  pystr_of (sfu_public_ip ++ "/" ++ pretty id ++ "/" ++ pretty user ++ "/" ++ kind).
Definition parse_source_groups (groups : option source_groups) (fallback_ssrc : Z) : source_groups :=
  match groups with Some (g :: l) => g :: l | _ => [(pystr_of "default", [fallback_ssrc])] end.

Definition join_group_call_video (user id : Z) (r : JoinRequest InputPeer) (random_ssrcs : list Z) : C Participant :=
  p ← _require_active_participant id user;
  if jr_video_stopped r then
    let p := with_video true no_stream p in
    save_part id user p;; bump_participants_version id;; mret p
  else
    source ← ensure_unique_ssrc id (jr_ssrc r) user [gp_source p] random_ssrcs;
    let p := with_video false (MkStream (Some source) (Some (make_stream_endpoint id user _STREAM_KIND_VIDEO))
               (Some (parse_source_groups (jr_groups r) source)) false) p in
    save_part id user p;; bump_participants_version id;; mret p.

Definition join_group_call_presentation (user id : Z) (ssrc : option Z) (groups : option source_groups)
    (random_ssrcs : list Z) : C Participant :=
  p ← _require_active_participant id user;
  source ← ensure_unique_ssrc id ssrc user [gp_source p; match st_source (gp_video p) with Some v => if v =? 0 then -1 else v | None => -1 end]
             random_ssrcs;
  let p := with_presentation (MkStream (Some source) (Some (make_stream_endpoint id user _STREAM_KIND_PRESENTATION))
             (Some (parse_source_groups groups source)) false) p in
  save_part id user p;; bump_participants_version id;; mret p.

Definition leave_group_call_presentation (user id : Z) : C Participant :=
  p ← _require_active_participant id user;
  let p := with_presentation no_stream p in
  save_part id user p;; bump_participants_version id;; mret p.

(** [sync_sfu_participant_audio_state], the task of [schedule_sfu_participant_audio_state] *)
Definition schedule_sfu_participant_audio_state (id user : Z) (p : Participant) : C unit :=
  if sfu_enabled then
    let paused := should_pause_sfu_audio (gp_mute p) in
    d ← get;
    if decide (last_sfu_pause_state d !! (id, user) = Some paused) then mret tt
    else modify (with_pause (<[(id, user) := paused]> (last_sfu_pause_state d)));; emit (SfuState id user paused)
  else mret tt.

Definition join_group_call_handler (id access_hash user : Z) (r : JoinRequest InputPeer) (random_ssrcs : list Z) : C unit :=
  open_call id access_hash;;
  (if jr_video_stream r then join_group_call_video user id r random_ssrcs;; mret tt
   else pj ← join_group_call user id r random_ssrcs; schedule_sfu_participant_audio_state id user pj.1);;
  emit (ParticipantsUpdate id user (Some user) true).

Definition join_group_call_presentation_handler (id access_hash user : Z) (ssrc : option Z) (groups : option source_groups)
    (random_ssrcs : list Z) : C unit :=
  g ← get_from_input_raise id access_hash;
  join_group_call_presentation user id ssrc groups random_ssrcs;;
  chat_of g;;
  emit (ParticipantsUpdate id user (Some user) true).

Definition leave_group_call_presentation_handler (id access_hash user : Z) : C unit :=
  open_call id access_hash;;
  leave_group_call_presentation user id;;
  emit (ParticipantsUpdate id user None true).

(** ** Editing a participant *)
Definition edit_volume (v : Z) (m : Mute) : Mute :=
  let normalized := normalize_admin_volume v in
  if normalized =? 0 then admin_muted_state
  else
    let m := MkMute (muted m) (muted_by_admin m) normalized (negb (normalized =? DEFAULT_GROUP_CALL_VOLUME)) in
    if muted_by_admin m || is_admin_volume_silent m then MkMute false false (volume m) (volume_by_admin m) else m.

(** The new columns, and whether the request changed any *)
Definition edit_muted (editing_self muted_ : bool) (m : Mute) : Mute * bool :=
  if editing_self && negb muted_ && negb (can_self_unmute_participant m) then (m, false)
  else if editing_self then (MkMute muted_ (if muted_ then muted_by_admin m else false) (volume m) (volume_by_admin m), true)
  else (MkMute muted_ muted_ DEFAULT_GROUP_CALL_VOLUME false, true).

Definition edit_hand (editing_self raise_hand : bool) (p : Participant) : Participant * bool :=
  if negb raise_hand && editing_self && is_admin_muted (gp_mute p) then (p, false)
  else if raise_hand then
    let rating := now / 1000 in
    (with_hand (Some (match gp_raise_hand_rating p with Some r => Z.max rating (r + 1) | None => rating end)) p, true)
  else (with_hand None p, true).

Definition edit_video_stopped (b : bool) (p : Participant) : Participant :=
  with_video b (if b then no_stream else gp_video p) p.

(** [if x is not None: ...] on the participant and the list of changed fields *)
Definition when {A} (x : option A) (f : A -> Participant -> Participant * bool) (pc : Participant * bool) : Participant * bool :=
  match x with Some a => let '(p, ch) := f a pc.1 in (p, pc.2 || ch) | None => pc end.

Definition edit_fields (editing_self : bool) (r : EditRequest) (p : Participant) : Participant * bool :=
  let pc := (p, false) in
  let pc := when (er_volume r) (fun v p => (with_mute (edit_volume v (gp_mute p)) p, true)) pc in
  let pc := when (er_muted r) (fun b p => let '(m, ch) := edit_muted editing_self b (gp_mute p) in (with_mute m p, ch)) pc in
  let pc := when (er_raise_hand r) (edit_hand editing_self) pc in
  let pc := when (er_video_stopped r) (fun b p => (edit_video_stopped b p, true)) pc in
  let pc := when (er_video_paused r) (fun b p => (with_video (gp_video_stopped p) (set_paused b (gp_video p)) p, true)) pc in
  let pc := when (er_presentation_paused r) (fun b p => (with_presentation (set_paused b (gp_presentation p)) p, true)) pc in
  when (Some tt) (fun _ p => let '(m, ch) := normalize_admin_mute_db_state (gp_mute p) in (with_mute m p, ch)) pc.

(** [resolve_group_call_participant]: the user whose row is edited *)
Definition resolve_group_call_participant (editor id : Z) (target : InputPeer) : C (Z * Participant) :=
  let missing : exn := ErrorRpc 400 "PARTICIPANT_JOIN_MISSING" in
  let of_user u := p ← get_active_part id u; match p with Some p => mret (u, p) | None => raise missing end in
  if input_is_self editor target then of_user editor
  else
    p ← lift_result (from_input_peer editor target);
    match p with
    | UserPeer u => of_user u
    | ChannelPeer ch =>
      d ← get;
      match map_to_list (filter (fun kv => gp_join_as_channel kv.2 = Some ch) (active_of d id)) with
      | [] => raise missing
      | [(cu, p)] => mret (cu.2, p)
      | _ => raise RuntimeError
      end
    end.

Definition edit_group_call_participant (editor id : Z) (p : place) (c : ChatBase) (target : InputPeer) (r : EditRequest)
    : C (Z * Participant * bool) :=
  g ← call_row id;
  ensure (bool_decide (g_discarded_at g = None)) (ErrorRpc 403 "GROUPCALL_FORBIDDEN");;
  up ← resolve_group_call_participant editor id target;
  let '(u, part) := up in
  let editing_self := u =? editor in
  (if editing_self then mret tt else ensure_can_manage_call editor p c);;
  ensure (match er_volume r with Some v => (0 <=? v) && (v <=? 20000) && negb editing_self | None => true end)
    (ErrorRpc 400 "USER_VOLUME_INVALID");;
  let '(part', changed) := edit_fields editing_self r part in
  if (changed : bool) then
    save_part id u part';;
    bump_participants_version id;;
    (if bool_decide (is_Some (er_muted r)) || bool_decide (is_Some (er_volume r))
     then schedule_sfu_participant_audio_state id u part' else mret tt);;
    mret (u, part', true)
  else
    (if bool_decide (er_muted r = Some false) && editing_self && negb (can_self_unmute_participant (gp_mute part'))
     then schedule_sfu_participant_audio_state id u part' else mret tt);;
    mret (u, part', false).

Definition edit_group_call_participant_handler (id access_hash editor : Z) (target : InputPeer) (r : EditRequest) : C unit :=
  gpc ← open_call id access_hash;
  let '(_, (p, c)) := gpc in
  upc ← edit_group_call_participant editor id p c target r;
  let '(u, part, changed) := upc in
  let editing_self := u =? editor in
  if (changed : bool) then emit (ParticipantsUpdate id u (if editing_self then None else Some editor) true)
  else emit (ParticipantsUpdate id u None
         (editing_self && bool_decide (er_muted r = Some false) && negb (can_self_unmute_participant (gp_mute part)))).

(** ** Leaving *)
Definition clear_speaking_state (id user : Z) : C unit :=
  modify (fun d => with_pause (delete (id, user) (last_sfu_pause_state d))
                     (with_speaking (delete (id, user) (last_speaking_broadcast d)) d)).

Definition leave_group_call (id user : Z) : C (option Participant) :=
  p ← get_active_part id user;
  match p with
  | None => mret None
  | Some p =>
    let p := with_left true (with_video (gp_video_stopped p) (drop_stream (gp_video p))
               (with_presentation (drop_stream (gp_presentation p)) p)) in
    save_part id user p;;
    bump_participants_version id;;
    clear_speaking_state id user;;
    (if sfu_enabled then emit (SfuLeave id user) else mret tt);;
    mret (Some p)
  end.

Definition discard_group_call_if_empty (id : Z) : C bool :=
  d ← get;
  g ← call_row id;
  if (0 <? participants_count d id)%nat then mret false
  else if decide (g_discarded_at g = None) then
    save_call id (next_version (with_times (g_started_at g) (Some now) g));;
    close_group_call_room id;;
    mret true
  else mret false.

Definition leave_group_call_handler (id access_hash user : Z) : C unit :=
  open_call id access_hash;;
  p ← leave_group_call id user;
  match p with
  | None =>
    known ← get_part id user;
    match known with None => mret tt | Some _ => emit (ParticipantsUpdate id user None false) end
  | Some _ =>
    empty ← discard_group_call_if_empty id;
    if (empty : bool) then emit (CallUpdate id)
    else emit (ParticipantsUpdate id user (Some user) true);; emit (ParticipantsUpdate id user None false)
  end.

(** The calls in which the user takes part *)
Definition calls_of_user (d : CallDb) (user : Z) : list Z :=
  (fun kv => kv.1.1) <$> map_to_list (filter (fun kv => kv.1.2 = user /\ gp_left kv.2 = false /\
    default false (is_active <$> calls d !! kv.1.1) = true) (parts d)).

Fixpoint leave_each (user : Z) (ids : list Z) : C unit :=
  match ids with
  | [] => mret tt
  | id :: ids =>
    p ← leave_group_call id user;
    match p with
    | None => mret tt
    | Some _ =>
      g ← call_row id;
      chat_of g;;
      empty ← discard_group_call_if_empty id;
      if (empty : bool) then emit (CallUpdate id) else emit (ParticipantsUpdate id user (Some user) true)
    end;;
    leave_each user ids
  end.

(** [leave_all_group_calls_for_user] *)
Definition leave_all_group_calls_for_user (user : Z) : C unit := d ← get; leave_each user (calls_of_user d user).

(** ** Settings *)
Definition toggle_group_call_settings (id access_hash user : Z) (join_muted_ : option bool) (reset_invite_hash : bool)
    (new_hash : pystr) : C unit :=
  gpc ← open_call id access_hash;
  let '(g, (p, c)) := gpc in
  ensure_can_manage_call user p c;;
  save_call id (next_version (with_settings (g_title g) (default (g_join_muted g) join_muted_)
    (if reset_invite_hash then Some new_hash else g_invite_hash g) g));;
  emit (CallUpdate id).

Definition edit_group_call_title (id access_hash user : Z) (title : pystr) : C unit :=
  gpc ← open_call id access_hash;
  let '(g, (p, c)) := gpc in
  ensure_can_manage_call user p c;;
  save_call id (next_version (with_settings (Some title) (g_join_muted g) (g_invite_hash g) g));;
  emit (CallUpdate id).

(** The link with the invite hash, if the caller asks for one that unmutes *)
Definition export_group_call_invite (id access_hash : Z) (can_self_unmute : bool) (new_hash : pystr) : C (option pystr) :=
  g ← get_from_input_raise id access_hash;
  if can_self_unmute then
    match g_invite_hash g with
    | Some h => mret (Some h)
    | None => save_call id (with_settings (g_title g) (g_join_muted g) (Some new_hash) g);; mret (Some new_hash)
    end
  else mret None.

Definition check_group_call (id access_hash user : Z) (sources : list Z) : C (list Z) :=
  get_from_input_raise id access_hash;;
  joined ← get_active_part id user;
  match joined with
  | None => raise (ErrorRpc 400 "GROUPCALL_JOIN_MISSING")
  | Some _ => gets (fun d => filter (fun s => s ∈ mjoin ((fun kv => participant_sources kv.2) <$> map_to_list (active_of d id))) sources)
  end.

(** ** Speaking *)
Definition _SPEAKING_BROADCAST_INTERVAL : Z := 250000.

Definition notify_group_call_speaking (user id : Z) : C unit :=
  g ← call_row id;
  if negb (is_active g) then mret tt
  else
    p ← get_active_part id user;
    match p with
    | None => mret tt
    | Some p =>
      if is_admin_muted (gp_mute p) || muted (gp_mute p) then mret tt
      else
        d ← get;
        if match last_speaking_broadcast d !! (id, user) with
           | Some last => monotonic - last <? _SPEAKING_BROADCAST_INTERVAL | None => false end then mret tt
        else
          modify (with_speaking (<[(id, user) := monotonic]> (last_speaking_broadcast d)));;
          emit (SpeakingUpdate id user)
    end.

Definition handle_sfu_speaking_callback (id user : Z) : C unit :=
  d ← get;
  match calls d !! id with
  | None => mret tt
  | Some g =>
    if negb (is_active g) then mret tt
    else
      p ← get_active_part id user;
      match p with None => mret tt | Some _ => chat_of g;; notify_group_call_speaking user id end
  end.
End Operations.

(** ** The invariant *)
Record mute_ok (m : Mute) : Prop := {
  mk_muted : muted_by_admin m = true -> muted m = true /\ volume m = DEFAULT_GROUP_CALL_VOLUME /\ volume_by_admin m = false;
  mk_volume : ADMIN_VOLUME_MUTE_THRESHOLD < volume m <= 20000;
}.

Record calls_ok (d : CallDb) : Prop := {
  one_call : forall p id id' g g', calls d !! id = Some g -> calls d !! id' = Some g' -> g_place g = p -> g_place g' = p ->
    g_discarded_at g = None -> g_discarded_at g' = None -> id = id';
  live : forall id u p, parts d !! (id, u) = Some p -> gp_left p = false ->
    exists g, calls d !! id = Some g /\ is_active g = true;
  versions : forall id g, calls d !! id = Some g -> 1 <= g_participants_version g <= g_version g;
  mutes : forall id u p, parts d !! (id, u) = Some p -> mute_ok (gp_mute p);
  sources : forall id u u' p p' x, parts d !! (id, u) = Some p -> parts d !! (id, u') = Some p' -> u <> u' ->
    x ∈ participant_sources p -> x ∈ participant_sources p' -> False;
}.

(** How a call may change: it stays in its chat, once discarded (or started) it
    stays so, and its version never falls. *)
Record call_evolves (g g' : GroupCall) : Prop := {
  ev_place : g_place g' = g_place g;
  ev_hash : g_access_hash g' = g_access_hash g;
  ev_discarded : g_discarded_at g <> None -> g_discarded_at g' = g_discarded_at g;
  ev_started : g_started_at g <> None -> g_started_at g' = g_started_at g;
  ev_version : g_version g <= g_version g';
}.
Definition evolves (d d' : CallDb) : Prop := forall id g, calls d !! id = Some g ->
  exists g', calls d' !! id = Some g' /\ call_evolves g g'.

(** The administrator's mute of the participant [t] *)
Definition admin_muted_at (t : Z * Z) (d : CallDb) : Prop :=
  exists p, parts d !! t = Some p /\ muted_by_admin (gp_mute p) = true.

Lemma call_evolves_refl g : call_evolves g g.
Proof. split; auto; lia. Qed.
Lemma call_evolves_trans g1 g2 g3 : call_evolves g1 g2 -> call_evolves g2 g3 -> call_evolves g1 g3.
Proof.
  intros [p1 h1 d1 s1 v1] [p2 h2 d2 s2 v2]. split; try congruence; [| |lia].
  - intros H. rewrite d2; [by apply d1|]. by rewrite d1.
  - intros H. rewrite s2; [by apply s1|]. by rewrite s1.
Qed.
Lemma evolves_refl d : evolves d d.
Proof. intros id g H. exists g. auto using call_evolves_refl. Qed.
Lemma evolves_trans d1 d2 d3 : evolves d1 d2 -> evolves d2 d3 -> evolves d1 d3.
Proof.
  intros H1 H2 id g Hg. destruct (H1 id g Hg) as (g2 & Hg2 & He2). destruct (H2 id g2 Hg2) as (g3 & Hg3 & He3).
  exists g3. split; [done|]. by eapply call_evolves_trans.
Qed.

Lemma taken_spec d call user x : x ∈ _participant_taken_sources d call user <->
  exists u p, parts d !! (call, u) = Some p /\ u <> user /\ x ∈ participant_sources p.
Proof.
  unfold _participant_taken_sources. rewrite elem_of_list_to_set, list_elem_of_join. split.
  - intros (l & Hx & Hl). apply list_elem_of_fmap in Hl as ([[c u] p] & -> & Hkv).
    apply elem_of_map_to_list, map_lookup_filter_Some in Hkv as [Hkv Hu].
    apply map_lookup_filter_Some in Hkv as [Hp Hc]. simpl in *. subst. by exists u, p.
  - intros (u & p & Hp & Hu & Hx). exists (participant_sources p). split; [done|].
    apply list_elem_of_fmap. exists ((call, u), p). split; [done|].
    apply elem_of_map_to_list, map_lookup_filter_Some. split; [|done]. by apply map_lookup_filter_Some.
Qed.

Lemma active_of_empty d call : participants_count d call = 0%nat -> forall u p, parts d !! (call, u) = Some p -> gp_left p = true.
Proof.
  unfold participants_count. intros H%map_size_empty_inv u p Hp. destruct (gp_left p) eqn:E; [done|]. exfalso.
  assert (active_of d call !! (call, u) = Some p) as Ha by (by apply map_lookup_filter_Some).
  rewrite H in Ha. done.
Qed.

(** ** Weakest preconditions: [wp m Q d] says that [m] keeps the invariant from [d], in every outcome, and
    that [Q] holds where it returns. [h] is a participant whose mute by the administrators must be
    kept, [d0] the state that [d] has evolved from. *)
Section Wp.
Context (h : option (Z * Z)) (d0 : CallDb).
Record Inv (d : CallDb) : Prop := {
  inv_ok : calls_ok d;
  inv_evolves : evolves d0 d;
  inv_held : forall t, h = Some t -> admin_muted_at t d0 -> admin_muted_at t d;
}.
Definition wp {A} (m : C A) (Q : A -> CallDb -> Prop) (d : CallDb) : Prop :=
  Inv (m d).2 /\ forall a, (m d).1 = Ok a -> Q a (m d).2.
Definition any {A} (a : A) (d : CallDb) : Prop := True.

Definition quiet {A} (m : C A) : Prop := forall d, (m d).2 = d.

Lemma wp_ret {A} (a : A) (Q : A -> CallDb -> Prop) d : Inv d -> Q a d -> wp (mret a) Q d.
Proof. intros Hi Hq. split; [done|]. intros a' [= <-]. done. Qed.
Lemma wp_raise {A} e (Q : A -> CallDb -> Prop) d : Inv d -> wp (raise e) Q d.
Proof. intros Hi. split; [done|]. intros a' [=]. Qed.
Lemma wp_bind {A B} (m : C A) (f : A -> C B) Q R d : wp m Q d ->
  (forall a d', Inv d' -> Q a d' -> wp (f a) R d') -> wp (m ≫= f) R d.
Proof.
  intros [Hi Hq] Hf. unfold wp, mbind, M_bind. destruct (m d) as [[a|e] d'] eqn:E; simpl in *.
  - apply Hf; auto.
  - split; [done|]. intros b [=].
Qed.
Lemma wp_quiet {A B} (m : C A) (f : A -> C B) R d : quiet m -> Inv d ->
  (forall a, m d = (Ok a, d) -> wp (f a) R d) -> wp (m ≫= f) R d.
Proof.
  intros Hm Hi Hf. specialize (Hm d). unfold wp, mbind, M_bind. destruct (m d) as [[a|e] d'] eqn:E; simpl in *; subst.
  - by apply Hf.
  - split; [done|]. intros b [=].
Qed.
Lemma wp_quiet_any {A} (m : C A) d : quiet m -> Inv d -> wp m any d.
Proof. intros Hm Hi. split; [|done]. by rewrite Hm. Qed.
Lemma wp_modify f (Q : unit -> CallDb -> Prop) d : Inv (f d) -> Q tt (f d) -> wp (modify f) Q d.
Proof. intros Hi Hq. split; [done|]. intros [] _. done. Qed.

Lemma gc_ret {A} (a : A) : quiet (mret a).
Proof. done. Qed.
Lemma gc_raise {A} e : quiet (raise (A := A) e).
Proof. done. Qed.
Lemma gc_lift {A} (r : result A) : quiet (lift_result r).
Proof. done. Qed.
Lemma gc_get : quiet get.
Proof. done. Qed.
Lemma gc_gets {A} (f : CallDb -> A) : quiet (gets f).
Proof. done. Qed.
Lemma gc_ensure c e : quiet (ensure c e).
Proof. intros d. by destruct c. Qed.
Lemma gc_bind {A B} (m : C A) (f : A -> C B) : quiet m -> (forall a, quiet (f a)) -> quiet (m ≫= f).
Proof.
  intros Hm Hf d. unfold mbind, M_bind. specialize (Hm d). destruct (m d) as [[a|e] d']; simpl in *; [|done].
  by rewrite Hf.
Qed.
Lemma quiet_call_row id : quiet (call_row id).
Proof. intros d. unfold call_row. by destruct (calls d !! id). Qed.
Lemma quiet_input_any id hash : quiet (get_from_input_any id hash).
Proof. done. Qed.
Lemma quiet_chat_of g : quiet (chat_of g).
Proof. intros d. unfold chat_of. by destruct (chats d !! _). Qed.
Lemma quiet_participant p u m : quiet (get_participant_raise p u m).
Proof. intros d. unfold get_participant_raise. destruct (members d !! _) as [x|]; [|done]. by destruct (Rights.left x). Qed.
Lemma quiet_active p : quiet (get_active_group_call p).
Proof. intros d. unfold get_active_group_call. by destruct (map_to_list _) as [|? [|]]. Qed.
End Wp.
Create HintDb gc.
#[export] Hint Resolve gc_ret gc_raise gc_lift gc_get gc_gets gc_ensure quiet_call_row quiet_input_any
  quiet_chat_of quiet_participant quiet_active : gc.
Ltac quiet := cbv zeta beta; first [ solve [auto with gc] | apply gc_bind; [quiet|intros; quiet] | case_match; quiet ].

Lemma quiet_input_raise id hash : quiet (get_from_input_raise id hash).
Proof. unfold get_from_input_raise. quiet. Qed.
#[export] Hint Resolve quiet_input_raise : gc.
Lemma quiet_open id hash : quiet (open_call id hash).
Proof. unfold open_call. quiet. Qed.
Lemma quiet_manage u p c : quiet (ensure_can_manage_call u p c).
Proof. unfold ensure_can_manage_call. quiet. Qed.
Lemma quiet_part id u : quiet (get_part id u).
Proof. unfold get_part. quiet. Qed.
Lemma quiet_active_part id u : quiet (get_active_part id u).
Proof. unfold get_active_part. quiet. Qed.
#[export] Hint Resolve quiet_open quiet_manage quiet_part quiet_active_part : gc.
Lemma quiet_require id u : quiet (_require_active_participant id u).
Proof. unfold _require_active_participant. quiet. Qed.
Lemma quiet_join_as {I} self (from : Z -> I -> result peer) u j : quiet (resolve_join_as self from u j).
Proof. unfold resolve_join_as. quiet. Qed.
Lemma quiet_target {I} self (from : Z -> I -> result peer) u id t : quiet (resolve_group_call_participant self from u id t).
Proof. unfold resolve_group_call_participant. quiet. Qed.
#[export] Hint Resolve quiet_require quiet_join_as quiet_target : gc.

(** ** The writes *)
Section Writes.
Context (h : option (Z * Z)) (d0 : CallDb).
#[local] Abbreviation Inv := (Inv h d0).
#[local] Abbreviation wp := (wp h d0).

Lemma inv_same d d' : calls d' = calls d -> parts d' = parts d -> Inv d -> Inv d'.
Proof.
  intros Hc Hp [[o l v m s] He Hh]. split.
  - split; rewrite ?Hc, ?Hp; auto.
  - intros id g Hg. rewrite Hc. by apply He.
  - intros t Ht Ha. destruct (Hh t Ht Ha) as (p & Hpt & Hm). exists p. by rewrite Hp.
Qed.

Lemma wp_emit e Q d : Inv d -> Q tt (emit e d).2 -> wp (emit e) Q d.
Proof. intros Hi Hq. apply wp_modify; [|done]. by apply (inv_same d). Qed.
Lemma wp_emit_any e d : Inv d -> wp (emit e) any d.
Proof. intros Hi. by apply wp_emit. Qed.
Lemma wp_close sfu id d : Inv d -> wp (close_group_call_room sfu id) any d.
Proof. intros Hi. unfold close_group_call_room. destruct sfu; [by apply wp_emit|by apply wp_ret]. Qed.
Lemma wp_sfu sfu id u p d : Inv d -> wp (schedule_sfu_participant_audio_state sfu id u p) any d.
Proof.
  intros Hi. unfold schedule_sfu_participant_audio_state. destruct sfu; [|by apply wp_ret].
  apply wp_quiet; [auto with gc|done|]. intros d' _. case_decide; [by apply wp_ret|].
  eapply (wp_bind _ _ _ _ any); [apply wp_modify; [by apply (inv_same d)|done]|]. intros [] d1 Hi1 _. by apply wp_emit.
Qed.
Lemma wp_clear id u d : Inv d -> wp (clear_speaking_state id u) any d.
Proof. intros Hi. apply wp_modify; [by apply (inv_same d)|done]. Qed.

(** A change of a call that leaves it where it is in its life *)
Lemma inv_save_call id g g' d : Inv d -> calls d !! id = Some g -> call_evolves g g' ->
  1 <= g_participants_version g' <= g_version g' -> g_discarded_at g' = g_discarded_at g ->
  Inv (with_calls (<[id := g']> (calls d)) d).
Proof.
  intros [[o l v m s] He Hh] Hg Hev Hv Hd. pose proof Hev as [Ep Eh Edd Es Ever]. split; [split|..]; cbn.
  - intros p i j gi gj Hi Hj Hpi Hpj Hdi Hdj.
    assert (forall k gk, <[id := g']> (calls d) !! k = Some gk -> g_discarded_at gk = None ->
      exists gk', calls d !! k = Some gk' /\ g_place gk' = g_place gk /\ g_discarded_at gk' = None) as Hold.
    { intros k gk Hk Hdk. destruct (decide (id = k)) as [<-|Hne].
      - rewrite lookup_insert_eq in Hk. injection Hk as <-. exists g. split; [done|]. split; [by symmetry|congruence].
      - rewrite lookup_insert_ne in Hk by done. by exists gk. }
    destruct (Hold i gi Hi Hdi) as (gi' & Hi' & Hpi' & Hdi'), (Hold j gj Hj Hdj) as (gj' & Hj' & Hpj' & Hdj').
    eapply (o p i j gi' gj'); eauto; congruence.
  - intros k u p Hp Hl. destruct (l k u p Hp Hl) as (gk & Hk & Ha). destruct (decide (id = k)) as [<-|Hne].
    + rewrite lookup_insert_eq. exists g'. split; [done|]. assert (gk = g) as -> by congruence.
      unfold is_active in *. apply andb_prop in Ha as [Hn Hst]. b2p. apply andb_true_intro.
      split; apply bool_decide_eq_true; [congruence|]. rewrite Es; [done|]. destruct Hst as [t ->]. done.
    + rewrite lookup_insert_ne by done. by exists gk.
  - intros k gk Hk. destruct (decide (id = k)) as [<-|Hne].
    + rewrite lookup_insert_eq in Hk. by injection Hk as <-.
    + rewrite lookup_insert_ne in Hk by done. by apply (v k).
  - exact m.
  - exact s.
  - intros k gk Hk. destruct (He k gk Hk) as (gk' & Hk' & Hek). cbn. destruct (decide (id = k)) as [<-|Hne].
    + rewrite lookup_insert_eq. exists g'. split; [done|]. assert (gk' = g) as -> by congruence.
      by eapply call_evolves_trans.
    + rewrite lookup_insert_ne by done. by exists gk'.
  - exact Hh.
Qed.

(** Discarding: the call gets its end, and none of its participants stays. *)
Lemma inv_discard id g now ps d : Inv d -> calls d !! id = Some g ->
  g_discarded_at g = None ->
  (forall t p', ps !! t = Some p' -> exists p, parts d !! t = Some p /\ gp_mute p' = gp_mute p /\
     participant_sources p' = participant_sources p /\ (gp_left p' = false -> gp_left p = false /\ t.1 <> id)) ->
  (forall t p, parts d !! t = Some p -> exists p', ps !! t = Some p' /\ gp_mute p' = gp_mute p) ->
  Inv (with_parts ps (with_calls (<[id := next_version (with_times (g_started_at g) (Some now) g)]> (calls d)) d)).
Proof.
  intros [[o l v m s] He Hh] Hg Hd Hps Hps'. set (g' := next_version _). split; [split|..]; cbn.
  - intros p i j gi gj Hi Hj Hpi Hpj Hdi Hdj.
    assert (forall k gk, <[id := g']> (calls d) !! k = Some gk -> g_discarded_at gk = None -> calls d !! k = Some gk) as Hold.
    { intros k gk Hk Hdk. destruct (decide (id = k)) as [<-|Hne].
      - rewrite lookup_insert_eq in Hk. by injection Hk as <-.
      - by rewrite lookup_insert_ne in Hk. }
    eapply (o p i j); eauto.
  - intros k u p' Hp Hl. destruct (Hps _ _ Hp) as (p & Hp0 & _ & _ & Hleft). destruct (Hleft Hl) as [Hl0 Hne].
    simpl in Hne. rewrite lookup_insert_ne by congruence. by eapply l.
  - intros k gk Hk. destruct (decide (id = k)) as [<-|Hne].
    + rewrite lookup_insert_eq in Hk. injection Hk as <-. cbn. destruct (v id g Hg). lia.
    + rewrite lookup_insert_ne in Hk by done. by apply (v k).
  - intros k u p' Hp. destruct (Hps _ _ Hp) as (p & Hp0 & -> & _). by eapply m.
  - intros k u u' p p' x Hp Hp' Hne. destruct (Hps _ _ Hp) as (q & Hq & _ & -> & _).
    destruct (Hps _ _ Hp') as (q' & Hq' & _ & -> & _). by eapply s.
  - intros k gk Hk. destruct (He k gk Hk) as (gk' & Hk' & Hek). cbn. destruct (decide (id = k)) as [<-|Hne].
    + rewrite lookup_insert_eq. exists g'. split; [done|]. assert (gk' = g) as -> by congruence.
      eapply call_evolves_trans; [done|]. split; cbn; try done; lia.
    + rewrite lookup_insert_ne by done. by exists gk'.
  - intros t Ht Ha. destruct (Hh t Ht Ha) as (p & Hp & Hm). destruct (Hps' t p Hp) as (p' & Hp' & Hm').
    exists p'. split; [done|]. by rewrite Hm'.
Qed.

Lemma wp_discard_all sfu id g now d : Inv d -> calls d !! id = Some g -> g_discarded_at g = None ->
  wp (save_call id (next_version (with_times (g_started_at g) (Some now) g));; all_left id;; close_group_call_room sfu id)
    (fun _ d' => calls d' = <[id := next_version (with_times (g_started_at g) (Some now) g)]> (calls d)) d.
Proof.
  intros Hi Hg Hd. set (g' := next_version _).
  set (ps := map_imap (fun cu p => Some (if decide (cu.1 = id /\ gp_left p = false) then with_left true p else p)) (parts d)).
  assert (Inv (with_parts ps (with_calls (<[id := g']> (calls d)) d))) as Hi'.
  { apply inv_discard; try done; intros t p.
    - unfold ps. rewrite map_lookup_imap. destruct (parts d !! t) as [q|]; [|done]. intros [= <-].
      exists q. split; [done|]. case_decide as Hc; cbn; [by auto|]. split; [done|]. split; [done|].
      intros Hl. split; [done|]. intros Ht. by apply Hc.
    - intros Hp. unfold ps. rewrite map_lookup_imap, Hp. cbn. eexists. split; [done|]. by case_decide. }
  change (wp (close_group_call_room sfu id) (fun _ d' => calls d' = <[id := g']> (calls d))
    (with_parts ps (with_calls (<[id := g']> (calls d)) d))).
  unfold close_group_call_room. destruct sfu; [by apply wp_emit|by apply wp_ret].
Qed.

(** Saving a participant *)
Lemma wp_save_part id u p d : Inv d -> mute_ok (gp_mute p) ->
  (gp_left p = false -> exists g, calls d !! id = Some g /\ is_active g = true) ->
  (forall u' p' x, u' <> u -> parts d !! (id, u') = Some p' -> x ∈ participant_sources p -> x ∈ participant_sources p' -> False) ->
  (h = Some (id, u) -> admin_muted_at (id, u) d -> muted_by_admin (gp_mute p) = true) ->
  wp (save_part id u p) (fun _ d' => calls d' = calls d) d.
Proof.
  intros Hi Hm Hl Hs Hh. unfold save_part. apply wp_quiet; [auto with gc|done|]. intros d' [= <-].
  destruct (source_free _ _ _ _); [|by apply wp_raise]. apply wp_modify; [|done].
  destruct Hi as [[o l v m s] He Hhd]. split; [split|..]; cbn; try done.
  - intros k w q. destruct (decide ((id, u) = (k, w))) as [[= <- <-]|Hne].
    + rewrite lookup_insert_eq. intros [= <-]. exact Hl.
    + rewrite lookup_insert_ne by done. apply l.
  - intros k w q. destruct (decide ((id, u) = (k, w))) as [[= <- <-]|Hne].
    + rewrite lookup_insert_eq. by intros [= <-].
    + rewrite lookup_insert_ne by done. apply m.
  - intros k w w' q q' x. destruct (decide ((id, u) = (k, w))) as [[= <- <-]|Hne].
    + rewrite lookup_insert_eq. intros [= <-]. destruct (decide (u = w')) as [<-|Hu]; [done|].
      rewrite lookup_insert_ne by congruence. intros Hq' _ Hx Hx'. by eapply Hs.
    + rewrite lookup_insert_ne by done. intros Hq. destruct (decide ((id, u) = (k, w'))) as [[= <- <-]|Hne'].
      * rewrite lookup_insert_eq. intros [= <-] Hw Hx Hx'. by eapply Hs.
      * rewrite lookup_insert_ne by done. intros Hq'. by eapply s.
  - intros t Ht Ha. specialize (Hhd t Ht Ha). destruct (decide ((id, u) = t)) as [<-|Hne].
    + exists p. split; [cbn; by rewrite lookup_insert_eq|]. by apply Hh.
    + destruct Hhd as (q & Hq & Hqm). exists q. cbn. by rewrite lookup_insert_ne.
Qed.

Lemma wp_bump id d : Inv d -> wp (bump_participants_version id) any d.
Proof.
  intros Hi. unfold bump_participants_version. apply wp_quiet; [auto with gc|done|]. intros g Hg.
  assert (calls d !! id = Some g) as Hc by (unfold call_row in Hg; destruct (calls d !! id); congruence).
  apply wp_modify; [|done]. apply (inv_save_call id g); try done.
  - split; cbn; try done; lia.
  - cbn. destruct (versions d (inv_ok _ _ _ Hi) id g Hc). lia.
Qed.

(** Saving a participant whose row is there, and the version of the call *)
Lemma wp_save_bump id u p d : Inv d -> mute_ok (gp_mute p) ->
  (gp_left p = false -> exists g, calls d !! id = Some g /\ is_active g = true) ->
  (forall u' p' x, u' <> u -> parts d !! (id, u') = Some p' -> x ∈ participant_sources p -> x ∈ participant_sources p' -> False) ->
  (h = Some (id, u) -> admin_muted_at (id, u) d -> muted_by_admin (gp_mute p) = true) ->
  forall A (a : A), wp (save_part id u p;; bump_participants_version id;; mret a) any d.
Proof.
  intros Hi Hm Hl Hs Hh A a. eapply wp_bind; [by apply wp_save_part|]. intros [] d1 Hi1 _.
  eapply wp_bind; [by apply wp_bump|]. intros [] d2 Hi2 _. by apply wp_ret.
Qed.
End Writes.

(** ** Mutes and edits *)
Lemma mute_ok_default b : mute_ok (MkMute b false DEFAULT_GROUP_CALL_VOLUME false).
Proof. by split; cbn. Qed.
Lemma mute_ok_admin : mute_ok admin_muted_state.
Proof. by split; cbn. Qed.
Lemma mute_ok_loud m : mute_ok m -> is_admin_volume_silent m = false /\ is_admin_muted m = muted_by_admin m.
Proof.
  intros [_ Hv]. assert (is_admin_volume_silent m = false) as Hs.
  { unfold is_admin_volume_silent. apply andb_false_iff. right. apply Z.leb_gt. lia. }
  split; [done|]. unfold is_admin_muted. by rewrite Hs, orb_false_r.
Qed.
Lemma normalize_ok m : mute_ok m -> normalize_admin_mute_db_state m = (m, false).
Proof. intros [Hs _]%mute_ok_loud. unfold normalize_admin_mute_db_state. by rewrite Hs. Qed.

Lemma mute_ok_volume v m : mute_ok m -> 0 <= v <= 20000 -> mute_ok (edit_volume v m).
Proof.
  intros Hm Hv. unfold edit_volume, normalize_admin_volume. destruct (v <=? ADMIN_VOLUME_MUTE_THRESHOLD) eqn:E; b2p.
  - apply mute_ok_admin.
  - assert (0 < ADMIN_VOLUME_MUTE_THRESHOLD) by done. rewrite (proj2 (Z.eqb_neq v 0)) by lia.
    set (m1 := MkMute _ _ v _).
    assert (is_admin_volume_silent m1 = false) as ->.
    { unfold is_admin_volume_silent. apply andb_false_iff. right. apply Z.leb_gt. cbn. lia. }
    rewrite orb_false_r. destruct (muted_by_admin m1) eqn:Ea.
    + split; [done|]. cbn. lia.
    + split; [by rewrite Ea|]. cbn. lia.
Qed.

Lemma mute_ok_muted self b m : mute_ok m -> mute_ok (edit_muted self b m).1.
Proof.
  intros Hm. unfold edit_muted. destruct (self && negb b && _) eqn:E; [done|]. destruct self; cbn.
  - destruct b; [|by split; [done|apply Hm]]. destruct Hm as [Ha Hv]. split; cbn; [|done]. intros H. by destruct (Ha H).
  - destruct b; by split; cbn.
Qed.

(** A participant cannot lift the administrators' mute. *)
Lemma held_muted b m : mute_ok m -> muted_by_admin m = true -> muted_by_admin (edit_muted true b m).1 = true.
Proof.
  intros Hm Ha. unfold edit_muted, can_self_unmute_participant. destruct (mute_ok_loud m Hm) as [_ ->]. rewrite Ha.
  by destruct b.
Qed.

Lemma rejoin_mute b p : mute_ok (gp_mute p) -> mute_ok (gp_mute (rejoin b p)) /\
  muted_by_admin (gp_mute (rejoin b p)) = muted_by_admin (gp_mute p).
Proof.
  intros Hm. unfold rejoin. rewrite normalize_ok by done. cbn. split; [|done]. destruct (mute_ok_loud _ Hm) as [-> _].
  rewrite orb_false_r. destruct Hm as [Ha Hv]. split; cbn; [|done]. intros H. rewrite H. split; [done|apply Ha, H].
Qed.

Record edited (self : bool) (p p' : Participant) : Prop := {
  ed_mute : mute_ok (gp_mute p) -> mute_ok (gp_mute p');
  ed_held : self = true -> mute_ok (gp_mute p) -> muted_by_admin (gp_mute p) = true -> muted_by_admin (gp_mute p') = true;
  ed_left : gp_left p' = gp_left p;
  ed_sources : forall x, x ∈ participant_sources p' -> x ∈ participant_sources p;
}.

Lemma edited_refl self p : edited self p p.
Proof. by split. Qed.
Lemma edited_when {A} self (x : option A) f p pc :
  (forall a q, x = Some a -> edited self p q -> edited self p (f a q).1) -> edited self p pc.1 -> edited self p (when x f pc).1.
Proof. intros Hf Hp. unfold when. destruct x as [a|]; [|done]. destruct (f a pc.1) as [q ch] eqn:E. cbn.
  replace q with (f a pc.1).1 by (by rewrite E). by apply Hf. Qed.
Lemma edited_by self p q q' : edited self p q ->
  (mute_ok (gp_mute q) -> mute_ok (gp_mute q')) ->
  (self = true -> mute_ok (gp_mute q) -> muted_by_admin (gp_mute q) = true -> muted_by_admin (gp_mute q') = true) ->
  gp_left q' = gp_left q -> (forall x, x ∈ participant_sources q' -> x ∈ participant_sources q) -> edited self p q'.
Proof. intros [] Hm Hh Hl Hs. split; [auto|auto|congruence|auto]. Qed.

Lemma edit_fields_edited now self r p :
  (forall v, er_volume r = Some v -> 0 <= v <= 20000 /\ self = false) -> edited self p (edit_fields now self r p).1.
Proof.
  intros Hv. unfold edit_fields. cbv zeta.
  repeat (apply edited_when; [|]); [| | | | | | |apply edited_refl].
  - intros [] q _ Hq. destruct (normalize_admin_mute_db_state (gp_mute q)) as [m ch] eqn:E. cbn.
    apply (edited_by _ _ _ _ Hq); cbn; try done; intros.
    + rewrite normalize_ok in E by done. injection E as <- _. done.
    + rewrite normalize_ok in E by done. injection E as <- _. done.
  - intros b q _ Hq. apply (edited_by _ _ _ _ Hq); done.
  - intros b q _ Hq. apply (edited_by _ _ _ _ Hq); done.
  - intros b q _ Hq. apply (edited_by _ _ _ _ Hq); try done. intros x. unfold edit_video_stopped, participant_sources.
    destruct b; cbn; [set_solver|done].
  - intros b q _ Hq. apply (edited_by _ _ _ _ Hq); unfold edit_hand; (destruct (_ && _); [done|by destruct b]).
  - intros b q _ Hq. destruct (edit_muted self b (gp_mute q)) as [m ch] eqn:E. cbn.
    pose proof (mute_ok_muted self b (gp_mute q)) as Hm. rewrite E in Hm. cbn in Hm.
    apply (edited_by _ _ _ _ Hq); cbn; try done. intros -> Ho Ha. pose proof (held_muted b _ Ho Ha) as Hh. by rewrite E in Hh.
  - intros v q Hr Hq. destruct (Hv v Hr) as [Hrange ->]. apply (edited_by _ _ _ _ Hq); cbn; try done. intros. by apply mute_ok_volume.
Qed.

(** ** The sources *)
Definition draws_ok (d : CallDb) (id user : Z) (ssrc : option Z) (random_ssrcs : list Z) : Prop :=
  ssrc = None -> exists c, c ∈ take 10 random_ssrcs /\ c ∉ _participant_taken_sources d id user.

Lemma ensure_unique_run d id user ssrc excl rs : draws_ok d id user ssrc rs ->
  (ensure_unique_ssrc id ssrc user excl rs d).2 = d /\
  forall x, ensure_unique_ssrc id ssrc user excl rs d = (Ok x, d) ->
    (x ∉ _participant_taken_sources d id user ∖ list_to_set excl) /\ (forall y, ssrc = Some y -> x = y).
Proof.
  intros Hd. unfold ensure_unique_ssrc. unfold mbind, M_bind, get. cbv beta iota.
  set (taken := _participant_taken_sources d id user) in *.
  destruct ssrc as [s|].
  - case_decide; [done|]. split; [done|]. intros x [= <-]. split; [done|]. by intros y [= <-].
  - destruct (Hd eq_refl) as (c & Hc & Hct).
    destruct (list_find (fun c => c ∉ (taken ∖ list_to_set excl)) (take 10 rs)) as [[i x]|] eqn:E.
    + split; [done|]. intros y [= <-]. apply list_find_Some in E as (_ & Hx & _). done.
    + exfalso. rewrite list_find_None, Forall_forall in E. apply (E c Hc). set_solver.
Qed.

(** A source that passed is held by nobody else. *)
Lemma unique_source h d0 d id u p excl x : Inv h d0 d -> parts d !! (id, u) = Some p ->
  (forall y, y ∈ excl -> y ∈ participant_sources p \/ y <> x) ->
  x ∉ (_participant_taken_sources d id u ∖ list_to_set excl) ->
  forall u' p', u' <> u -> parts d !! (id, u') = Some p' -> x ∈ participant_sources p' -> False.
Proof.
  intros Hi Hp He Hx u' p' Hne Hp' Hx'. apply Hx. apply elem_of_difference. split.
  - apply taken_spec. by exists u', p'.
  - intros Hy%elem_of_list_to_set. destruct (He x Hy) as [Hxp|]; [|done].
    by eapply (sources _ (inv_ok _ _ _ Hi) id u u' p p' x).
Qed.

(** ** Every operation keeps the invariant *)
Section Keep.
Context {InputPeer : Type} (ip : string) (h : option (Z * Z)) (d0 : CallDb).
#[local] Abbreviation Inv := (Inv h d0).
#[local] Abbreviation keep m d := (wp h d0 m any d).

Lemma wp_then {A B} (m : C A) (f : A -> C B) d : keep m d -> (forall a d', Inv d' -> keep (f a) d') -> keep (m ≫= f) d.
Proof. intros Hm Hf. eapply wp_bind; [exact Hm|]. intros a d' Hi _. by apply Hf. Qed.

Lemma wp_assoc {A} (a b c : C unit) (m : C A) d : keep ((a;; b;; c);; m) d -> keep (a;; b;; c;; m) d.
Proof.
  unfold wp, mbind, M_bind. destruct (a d) as [[[]|] d1]; [|done]. destruct (b d1) as [[[]|] d2]; [|done].
  by destruct (c d2) as [[[]|] d3].
Qed.

Lemma keep_emit e d : Inv d -> keep (emit e) d.
Proof. apply wp_emit_any. Qed.

Lemma require_run id u d p : _require_active_participant id u d = (Ok p, d) -> parts d !! (id, u) = Some p /\ gp_left p = false.
Proof.
  unfold _require_active_participant, get_active_part, gets, raise. unfold mbind, M_bind, mret, M_ret.
  destruct (parts d !! (id, u)) as [q|]; cbn; [|done]. destruct (gp_left q) eqn:E; cbn; [done|]. intros [= <-]. done.
Qed.

Lemma active_run id u d p : get_active_part id u d = (Ok (Some p), d) -> parts d !! (id, u) = Some p /\ gp_left p = false.
Proof.
  unfold get_active_part, gets. destruct (parts d !! (id, u)) as [q|]; cbn; [|done].
  destruct (gp_left q) eqn:E; cbn; [done|]. intros [= <-]. done.
Qed.

Lemma target_run {I} self (from : Z -> I -> result peer) editor id t u p d :
  resolve_group_call_participant self from editor id t d = (Ok (u, p), d) -> parts d !! (id, u) = Some p /\ gp_left p = false.
Proof.
  unfold resolve_group_call_participant.
  assert (forall w, (p ← get_active_part id w; match p with Some p => mret (w, p) | None => raise (ErrorRpc 400 "PARTICIPANT_JOIN_MISSING") end) d
    = (Ok (u, p), d) -> parts d !! (id, u) = Some p /\ gp_left p = false) as Hof.
  { intros w. unfold get_active_part, gets, mbind, M_bind. cbv beta iota. destruct (parts d !! (id, w)) as [q|] eqn:E; cbn; [|done].
    destruct (gp_left q) eqn:El; [done|]. intros [= <- <-]. done. }
  destruct (self editor t); [apply Hof|]. unfold lift_result at 1. unfold mbind at 1, M_bind at 1.
  destruct (from editor t) as [[w|ch]|]; [apply Hof| |done].
  unfold get at 1. unfold mbind at 1, M_bind at 1. destruct (map_to_list _) as [|[[c w] q] [|]] eqn:E; try done. intros [= <- <-].
  assert ((c, w, q) ∈ map_to_list (filter (fun kv => gp_join_as_channel kv.2 = Some ch) (active_of d id))) as Hin by (rewrite E; by left).
  apply elem_of_map_to_list, map_lookup_filter_Some in Hin as [[Hp [Hc Hl]]%map_lookup_filter_Some _]. simpl in *. by subst.
Qed.

Lemma ensure_run c e a (d : CallDb) : ensure c e d = (Ok a, d) -> c = true.
Proof. by destruct c. Qed.

Lemma call_run id g d : call_row id d = (Ok g, d) -> calls d !! id = Some g.
Proof. unfold call_row. destruct (calls d !! id); congruence. Qed.

(** A participant's row changed by himself *)
Lemma keep_own id u p q d : Inv d -> parts d !! (id, u) = Some p ->
  mute_ok (gp_mute q) -> (gp_left q = false -> gp_left p = false) ->
  (muted_by_admin (gp_mute p) = true -> muted_by_admin (gp_mute q) = true) ->
  (forall x, x ∈ participant_sources q -> x ∈ participant_sources p \/
     forall u' p', u' <> u -> parts d !! (id, u') = Some p' -> x ∈ participant_sources p' -> False) ->
  forall A (a : A), keep (save_part id u q;; bump_participants_version id;; mret a) d.
Proof.
  intros Hi Hp Hm Hl Hh Hs A a. apply wp_save_bump; try done.
  - intros Hlq. eapply (live d (inv_ok _ _ _ Hi)); eauto.
  - intros u' p' x Hne Hp' Hx Hx'. destruct (Hs x Hx) as [Hxp|Hno]; [|by eapply Hno].
    by eapply (sources d (inv_ok _ _ _ Hi) id u u' p p' x).
  - intros _ (p1 & Hp1 & Hm1). apply Hh. congruence.
Qed.

Lemma keep_own_muted id u p d : Inv d -> parts d !! (id, u) = Some p -> mute_ok (gp_mute p).
Proof. intros Hi Hp. by eapply (mutes d (inv_ok _ _ _ Hi)). Qed.

Lemma keep_video u id (r : JoinRequest InputPeer) rs d : Inv d -> draws_ok d id u (jr_ssrc r) rs ->
  keep (join_group_call_video ip u id r rs) d.
Proof.
  intros Hi Hd. unfold join_group_call_video. apply wp_quiet; [auto with gc|done|].
  intros p [Hp Hl]%require_run. pose proof (keep_own_muted _ _ _ _ Hi Hp) as Hm. destruct (jr_video_stopped r).
  - apply (keep_own id u p); try done. intros x Hx. left. revert Hx. unfold participant_sources. cbn. set_solver.
  - destruct (ensure_unique_run d id u (jr_ssrc r) [gp_source p] rs Hd) as [He Hs].
    destruct (ensure_unique_ssrc id (jr_ssrc r) u [gp_source p] rs d) as [[x|e] d'] eqn:E; cbn in He; subst d'.
    + unfold wp at 1. rewrite (M_bind_step _ _ _ _ _ E). destruct (Hs x eq_refl) as [Hx _].
      apply (keep_own id u p); try done. intros y Hy. unfold participant_sources in *. cbn in Hy.
      destruct (decide (y = x)) as [->|Hne]; [right|left; set_solver].
      eapply (unique_source h d0 d id u p [gp_source p]); try done. intros z Hz. left.
      apply list_elem_of_singleton in Hz as ->. by left.
    + unfold wp. rewrite (M_bind_raise _ _ _ _ _ E). by split.
Qed.

Lemma keep_presentation u id ssrc groups rs d : Inv d -> draws_ok d id u ssrc rs -> ssrc <> Some (-1) ->
  Forall (fun c => c <> -1) rs -> keep (join_group_call_presentation ip u id ssrc groups rs) d.
Proof.
  intros Hi Hd Hneg Hrs. unfold join_group_call_presentation. apply wp_quiet; [auto with gc|done|].
  intros p [Hp Hl]%require_run. pose proof (keep_own_muted _ _ _ _ Hi Hp) as Hm. set (excl := [gp_source p; _]).
  destruct (ensure_unique_run d id u ssrc excl rs Hd) as [He Hs].
  destruct (ensure_unique_ssrc id ssrc u excl rs d) as [[x|e] d'] eqn:E; cbn in He; subst d'.
  - unfold wp at 1. rewrite (M_bind_step _ _ _ _ _ E). destruct (Hs x eq_refl) as [Hx Hxs].
    apply (keep_own id u p); try done. intros y Hy. unfold participant_sources in *. cbn in Hy.
    destruct (decide (y = x)) as [->|Hne]; [right|left; set_solver].
    assert (Hx1 : x <> -1).
    { destruct ssrc as [s|]; [intros ->; apply Hneg; f_equal; symmetry; by apply Hxs|].
      unfold ensure_unique_ssrc in E. unfold mbind, M_bind, get in E. cbv beta iota in E.
      destruct (Hd eq_refl) as (c & Hc & Hct). destruct (list_find _ _) as [[i y]|] eqn:El.
      - injection E as ->. apply list_find_Some in El as (Hi' & _ & _).
        apply list_elem_of_lookup_2 in Hi'. rewrite Forall_forall in Hrs. apply Hrs.
        rewrite <- (take_drop 10 rs). apply elem_of_app. by left.
      - exfalso. rewrite list_find_None, Forall_forall in El. apply (El c Hc). set_solver. }
    eapply (unique_source h d0 d id u p excl); try done. intros z Hz. unfold excl in Hz.
    apply elem_of_cons in Hz as [->|Hz%list_elem_of_singleton]; [left; by left|].
    subst z. unfold participant_sources. destruct (st_source (gp_video p)) as [v|] eqn:Ev; [|by right].
    destruct (v =? 0); [by right|]. left. right. apply elem_of_app. left. rewrite ?Ev. by left.
  - unfold wp. rewrite (M_bind_raise _ _ _ _ _ E). by split.
Qed.

Lemma keep_leave_presentation u id d : Inv d -> keep (leave_group_call_presentation u id) d.
Proof.
  intros Hi. unfold leave_group_call_presentation. apply wp_quiet; [auto with gc|done|].
  intros p [Hp Hl]%require_run. pose proof (keep_own_muted _ _ _ _ Hi Hp) as Hm.
  apply (keep_own id u p); try done. intros x Hx. left. revert Hx. unfold participant_sources. cbn. set_solver.
Qed.

Context (sfu : bool) (monotonic now : Z).

Lemma keep_leave u id d : Inv d -> keep (leave_group_call sfu id u) d.
Proof.
  intros Hi. unfold leave_group_call. apply wp_quiet; [auto with gc|done|]. intros [p|] Hp; [|by apply wp_ret].
  apply active_run in Hp as [Hp Hl]. pose proof (keep_own_muted _ _ _ _ Hi Hp) as Hm. cbv zeta.
  eapply wp_bind.
  { apply wp_save_part; try done.
    - intros u' p' x Hne Hp' Hx Hx'. eapply (sources d (inv_ok _ _ _ Hi) id u u' p p' x); try done.
      unfold participant_sources in *. cbn in Hx. set_solver.
    - intros _ (p1 & Hp1 & Hm1). cbn. congruence. }
  intros [] d1 Hi1 _. apply wp_then; [by apply wp_bump|]. intros [] d2 Hi2.
  apply wp_then; [by apply wp_clear|]. intros [] d3 Hi3.
  apply wp_then; [destruct sfu; [by apply keep_emit|by apply wp_ret]|]. intros [] d4 Hi4. by apply wp_ret.
Qed.

Lemma keep_discard_empty id d : Inv d -> keep (discard_group_call_if_empty sfu now id) d.
Proof.
  intros Hi. unfold discard_group_call_if_empty. apply wp_quiet; [auto with gc|done|]. intros d' [= <-].
  apply wp_quiet; [auto with gc|done|]. intros g Hg.
  apply call_run in Hg as Hc. destruct (0 <? participants_count d id)%nat eqn:E; [by apply wp_ret|]. apply Nat.ltb_ge in E.
  case_decide as Hn; [|by apply wp_ret].
  pose proof (active_of_empty d id ltac:(lia)) as Hleft.
  apply wp_then; [|intros [] d1 Hi1; apply wp_then; [by apply wp_close|intros [] d2 Hi2; by apply wp_ret]].
  apply wp_modify; [|done].
  assert (Inv (with_parts (parts d) (with_calls (<[id := next_version (with_times (g_started_at g) (Some now) g)]> (calls d)) d)))
    as Hdis.
  { apply inv_discard; try done.
    - intros [k w] p' Hp. exists p'. split; [done|]. split; [done|]. split; [done|]. intros Hl. split; [done|].
      cbn. intros ->. rewrite (Hleft w p' Hp) in Hl. done.
    - intros t p Hp. by exists p. }
  by apply (inv_same h d0 _ _ eq_refl eq_refl Hdis).
Qed.

Lemma keep_leave_each u ids : forall d, Inv d -> keep (leave_each sfu now u ids) d.
Proof.
  induction ids as [|id ids IH]; intros d Hi; cbn [leave_each]; [by apply wp_ret|].
  apply wp_then; [by apply keep_leave|]. intros [p|] d1 Hi1.
  - apply wp_then; [|intros [] d2 Hi2; by apply IH].
    apply wp_quiet; [auto with gc|done|]. intros g _. apply wp_quiet; [auto with gc|done|]. intros _ _.
    apply wp_then; [by apply keep_discard_empty|]. intros [] d2 Hi2; by apply keep_emit.
  - apply wp_then; [by apply wp_ret|intros [] d2 Hi2; by apply IH].
Qed.

Context (self : Z -> InputPeer -> bool) (from : Z -> InputPeer -> result peer).

Lemma keep_join u id (r : JoinRequest InputPeer) rs d : Inv d -> draws_ok d id u (jr_ssrc r) rs ->
  keep (join_group_call self from now u id r rs) d.
Proof.
  intros Hi Hd. unfold join_group_call. apply wp_quiet; [auto with gc|done|]. intros g Hg.
  apply call_run in Hg as Hc. apply wp_quiet; [auto with gc|done|]. intros [] Hdisc. apply wp_quiet; [auto with gc|done|]. intros [] Hst.
  assert (is_active g = true) as Ha.
  { unfold is_active. by rewrite (ensure_run _ _ _ _ Hdisc), (ensure_run _ _ _ _ Hst). }
  apply wp_quiet; [auto with gc|done|]. intros ja _. apply wp_quiet; [auto with gc|done|]. intros _ _. cbv zeta.
  destruct (ensure_unique_run d id u (jr_ssrc r) [] rs Hd) as [He Hs].
  destruct (ensure_unique_ssrc id (jr_ssrc r) u [] rs d) as [[x|e] d'] eqn:E; cbn in He; subst d';
    [|unfold wp; rewrite (M_bind_raise _ _ _ _ _ E); by split].
  unfold wp at 1. rewrite (M_bind_step _ _ _ _ _ E). destruct (Hs x eq_refl) as [Hx _].
  assert (Hnew : forall u' p', u' <> u -> parts d !! (id, u') = Some p' -> x ∈ participant_sources p' -> False).
  { intros u' p' Hne Hp' Hx'. apply Hx. rewrite elem_of_difference. split; [|by intros ?%elem_of_list_to_set%elem_of_nil].
    apply taken_spec. by exists u', p'. }
  apply wp_quiet; [auto with gc|done|]. intros old Hold. injection Hold as Hold. 
  destruct old as [p|]; cbv iota beta.
  - pose proof (keep_own_muted _ _ _ _ Hi Hold) as Hm.
    destruct (rejoin_mute (resolve_join_muted (jr_muted r) g) p Hm) as [Hm' Ha'].
    apply wp_save_bump; try done.
    + intros _. by exists g.
    + intros u' p' y Hne Hp' Hy Hy'. unfold participant_sources in Hy. cbn in Hy.
      apply elem_of_cons in Hy as [->|Hy]; [by eapply Hnew|].
      eapply (sources d (inv_ok _ _ _ Hi) id u u' p p' y); try done. by right.
    + intros _ (p1 & Hp1 & Hm1). cbn. cbn in Ha'. rewrite Ha'. congruence.
  - apply wp_save_bump; try done.
    + intros _. by exists g.
    + intros u' p' y Hne Hp' Hy. apply list_elem_of_singleton in Hy as ->. intros Hx'; by eapply Hnew.
    + intros _ (p1 & Hp1 & _). congruence.
Qed.


Lemma keep_discard_active p d pk : Inv d -> calls d !! pk = None ->
  wp h d0 (discard_active_call sfu now p)
    (fun _ d' => calls d' !! pk = None /\ forall id g, calls d' !! id = Some g -> g_place g = p -> g_discarded_at g <> None) d.
Proof.
  intros Hi Hpk. unfold discard_active_call. apply wp_quiet; [auto with gc|done|]. intros a Ha. unfold get_active_group_call in Ha.
  destruct (map_to_list (undiscarded d p)) as [|[id g] [|]] eqn:E; simplify_eq/=.
  - apply wp_ret; [done|]. split; [done|]. intros id g Hg Hpl Hn. apply map_to_list_empty_iff in E.
    assert (undiscarded d p !! id = Some g) as Hu by (by apply map_lookup_filter_Some). by rewrite E in Hu.
  - assert (undiscarded d p !! id = Some g) as [Hg [Hpl Hn]]%map_lookup_filter_Some.
    { apply elem_of_map_to_list. rewrite E. by left. }
    simpl in *. destruct (wp_discard_all h d0 sfu id g now d Hi Hg Hn) as [Hi' Hq]. split; [done|]. intros [] Hr.
    rewrite (Hq tt Hr). clear Hq Hr. split; [rewrite lookup_insert_ne; congruence|].
    intros k gk. destruct (decide (id = k)) as [<-|Hne].
    + rewrite lookup_insert_eq. by intros [= <-].
    + rewrite lookup_insert_ne by done. intros Hk Hpk' Hnk. apply Hne. by eapply (one_call d (inv_ok _ _ _ Hi) p id k g gk).
Qed.

Lemma inv_new_call pk g d : Inv d -> calls d !! pk = None -> g_version g = 1 -> g_participants_version g = 1 ->
  (forall id g', calls d !! id = Some g' -> g_place g' = g_place g -> g_discarded_at g' <> None) ->
  Inv (with_calls (<[pk := g]> (calls d)) d).
Proof.
  intros [[o l v m s] He Hh] Hpk Hv Hpv Hno. split; [split|..]; cbn; try done.
  - intros p i j gi gj. destruct (decide (pk = i)) as [<-|Hi], (decide (pk = j)) as [<-|Hj];
      rewrite ?lookup_insert_eq, ?lookup_insert_ne by done; try done.
    + intros [= <-] Hj' <- Hpl Hn Hnj. by destruct (Hno j gj Hj').
    + intros Hi' [= <-] Hpl <- Hn Hnj. by destruct (Hno i gi Hi').
    + apply o.
  - intros k u p Hp Hl. destruct (l k u p Hp Hl) as (gk & Hk & Ha). exists gk. split; [|done].
    rewrite lookup_insert_ne by congruence. done.
  - intros k gk. destruct (decide (pk = k)) as [<-|Hne].
    + rewrite lookup_insert_eq. intros [= <-]. lia.
    + rewrite lookup_insert_ne by done. apply v.
  - intros k gk Hk. destruct (He k gk Hk) as (gk' & Hk' & Hek). exists gk'. split; [|done]. cbn.
    rewrite lookup_insert_ne by congruence. done.
Qed.

Lemma keep_create pk hash u p c title sched d : Inv d -> calls d !! pk = None ->
  keep (create_group_call sfu now pk hash u p c title sched) d.
Proof.
  intros Hi Hpk. unfold create_group_call. set (m := discard_active_call _ _ _;; _).
  assert (wp h d0 m any d) as [Hm _].
  { eapply wp_bind; [by apply (keep_discard_active p d pk)|]. intros [] d1 Hi1 [Hpk1 Hno].
    apply wp_modify; [|done]. by apply inv_new_call. }
  unfold transaction, wp. destruct (m d) as [[a|e] d'] eqn:E; cbn in *; split; auto; done.
Qed.
Lemma keep_call id g f d : Inv d -> calls d !! id = Some g ->
  call_evolves g (f g) -> 1 <= g_participants_version (f g) <= g_version (f g) -> g_discarded_at (f g) = g_discarded_at g ->
  keep (save_call id (f g)) d.
Proof.
  intros Hi Hg Hev Hv Hd. apply wp_modify; [|done]. by apply (inv_save_call h d0 id g).
Qed.

Lemma input_run id hash g d : get_from_input_raise id hash d = (Ok g, d) -> calls d !! id = Some g /\ g_discarded_at g = None.
Proof.
  unfold get_from_input_raise, get_from_input_any, mbind, M_bind, raise. cbv beta iota.
  destruct (calls d !! id) as [g'|]; cbn; [|done]. destruct (g_access_hash g' =? hash); [|done].
  destruct (decide _) as [Hn|]; [|done]. by intros [= <-].
Qed.

Lemma open_run id hash g pc d : open_call id hash d = (Ok (g, pc), d) -> calls d !! id = Some g /\ g_discarded_at g = None.
Proof.
  unfold open_call, mbind, M_bind. intros H. apply (input_run id hash).
  destruct (get_from_input_raise id hash d) as [[g'|e] d1] eqn:E; [|done].
  assert (d1 = d) as -> by (pose proof (quiet_input_raise id hash d) as Hq; by rewrite E in Hq).
  unfold chat_of in H. destruct (chats d !! _); [|done]. by injection H as -> _.
Qed.

(** Editing the settings of an open call *)
Lemma keep_settings id g f d : Inv d -> calls d !! id = Some g ->
  (g_place (f g), g_access_hash (f g), g_discarded_at (f g), g_participants_version (f g)) =
  (g_place g, g_access_hash g, g_discarded_at g, g_participants_version g) ->
  (g_started_at g <> None -> g_started_at (f g) = g_started_at g) -> g_version g <= g_version (f g) ->
  keep (save_call id (f g)) d.
Proof.
  intros Hi Hg [= Hp Hh Hd Hpv] Hs Hv. apply keep_call; auto; [split; auto|].
  destruct (versions d (inv_ok _ _ _ Hi) id g Hg). lia.
Qed.

Lemma keep_edit editor id p c target r d : Inv d -> (forall u q, h = Some (id, u) ->
    resolve_group_call_participant self from editor id target d = (Ok (u, q), d) -> editor = u) ->
  keep (edit_group_call_participant self from sfu now editor id p c target r) d.
Proof.
  intros Hi Hh. unfold edit_group_call_participant. apply wp_quiet; [auto with gc|done|]. intros g _.
  apply wp_quiet; [auto with gc|done|]. intros _ _. apply wp_quiet; [auto with gc|done|]. intros [u q] Hq.
  assert (parts d !! (id, u) = Some q /\ gp_left q = false) as [Hp Hl] by (by eapply target_run).
  cbv zeta beta iota. apply wp_quiet; [quiet|done|]. intros _ _. apply wp_quiet; [auto with gc|done|]. intros [] Hvol.
  apply ensure_run in Hvol.
  assert (edited (u =? editor) q (edit_fields now (u =? editor) r q).1) as [Em Eh El Es].
  { apply edit_fields_edited. intros v Hv. rewrite Hv in Hvol. b2p. split; [lia|]. first [done|by apply Z.eqb_neq]. }
  destruct (edit_fields now (u =? editor) r q) as [q' ch] eqn:Eq. cbn in *.
  pose proof (keep_own_muted _ _ _ _ Hi Hp) as Hm. destruct ch.
  - eapply wp_bind.
    { apply wp_save_part; auto.
      - intros Hlq. eapply (live d (inv_ok _ _ _ Hi)); eauto.
      - intros u' p' x Hne Hp' Hx Hx'. eapply (sources d (inv_ok _ _ _ Hi) id u u' q p' x); eauto.
      - intros Ht (p1 & Hp1 & Hm1). apply Eh; [|done|congruence]. apply Z.eqb_eq. symmetry. by eapply Hh. }
    intros [] d1 Hi1 _. apply wp_then; [by apply wp_bump|]. intros [] d2 Hi2.
    apply wp_then; [|intros [] d3 Hi3; by apply wp_ret]. destruct (_ || _); [by apply wp_sfu|by apply wp_ret].
  - apply wp_then; [|intros [] d3 Hi3; by apply wp_ret]. destruct (_ && _); [by apply wp_sfu|by apply wp_ret].
Qed.
End Keep.

(** ** Requests *)
Inductive call_op (InputPeer : Type) :=
  | Create (pk hash user : Z) (p : place) (title : option pystr) (schedule_date : option Z)
  | Discard (id hash user : Z)
  | Start (id hash user : Z)
  | Join (id hash user : Z) (r : JoinRequest InputPeer) (random_ssrcs : list Z)
  | Present (id hash user : Z) (ssrc : option Z) (groups : option source_groups) (random_ssrcs : list Z)
  | StopPresenting (id hash user : Z)
  | EditPart (id hash editor : Z) (target : InputPeer) (r : EditRequest)
  | Leave (id hash user : Z)
  | LeaveAll (user : Z)
  | Settings (id hash user : Z) (join_muted_ : option bool) (reset_invite_hash : bool) (new_hash : pystr)
  | SetTitle (id hash user : Z) (title : pystr)
  | ExportInvite (id hash : Z) (can_self_unmute : bool) (new_hash : pystr)
  | CheckSources (id hash user : Z) (sources : list Z)
  | Speaking (id user : Z).
#[global] Arguments Create {_}. #[global] Arguments Discard {_}. #[global] Arguments Start {_}. #[global] Arguments Join {_}.
#[global] Arguments Present {_}. #[global] Arguments StopPresenting {_}. #[global] Arguments EditPart {_}.
#[global] Arguments Leave {_}. #[global] Arguments LeaveAll {_}. #[global] Arguments Settings {_}.
#[global] Arguments SetTitle {_}. #[global] Arguments ExportInvite {_}. #[global] Arguments CheckSources {_}.
#[global] Arguments Speaking {_}.

Section Requests.
Context {InputPeer : Type} (self : Z -> InputPeer -> bool) (from : Z -> InputPeer -> result peer) (sfu : bool) (ip : string).

Definition run_op (monotonic now : Z) (op : call_op InputPeer) : C unit :=
  match op with
  | Create pk hash user p title sched => create_group_call_handler sfu now pk hash user p title sched
  | Discard id hash user => discard_group_call sfu now id hash user
  | Start id hash user => start_scheduled_group_call now id hash user
  | Join id hash user r rs => join_group_call_handler self from sfu ip now id hash user r rs
  | Present id hash user ssrc groups rs => join_group_call_presentation_handler ip id hash user ssrc groups rs
  | StopPresenting id hash user => leave_group_call_presentation_handler id hash user
  | EditPart id hash editor target r => edit_group_call_participant_handler self from sfu now id hash editor target r
  | Leave id hash user => leave_group_call_handler sfu now id hash user
  | LeaveAll user => leave_all_group_calls_for_user sfu now user
  | Settings id hash user jm reset new_hash => toggle_group_call_settings id hash user jm reset new_hash
  | SetTitle id hash user title => edit_group_call_title id hash user title
  | ExportInvite id hash can new_hash => export_group_call_invite id hash can new_hash;; mret tt
  | CheckSources id hash user srcs => check_group_call id hash user srcs;; mret tt
  | Speaking id user => handle_sfu_speaking_callback monotonic id user
  end.

(** What the database and the random numbers give: a new row gets a new key, and one of the ten sources drawn is
    free. [h] is a participant whom nobody but himself edits. *)
Definition admissible (h : option (Z * Z)) (d : CallDb) (op : call_op InputPeer) : Prop :=
  match op with
  | Create pk _ _ _ _ _ => calls d !! pk = None
  | Join id _ user r rs => draws_ok d id user (jr_ssrc r) rs
  | Present id _ user ssrc _ rs => draws_ok d id user ssrc rs /\ ssrc <> Some (-1) /\ Forall (fun c => c <> -1) rs
  | EditPart id _ editor target _ => forall u q, h = Some (id, u) ->
      resolve_group_call_participant self from editor id target d = (Ok (u, q), d) -> editor = u
  | _ => True
  end.

Inductive call_step (h : option (Z * Z)) : CallDb -> CallDb -> Prop :=
  call_step_run monotonic now op d : admissible h d op -> call_step h d (run_op monotonic now op d).2.

Section Run.
Context (h : option (Z * Z)) (d0 : CallDb) (monotonic now : Z).
#[local] Abbreviation Inv := (Inv h d0).
#[local] Abbreviation keep m d := (wp h d0 m any d).

Ltac qt := apply wp_quiet; [solve [auto with gc | quiet] | done | ].
Ltac em := apply wp_then; [by apply wp_emit_any | intros [] ? ?].
Ltac opened := let H := fresh in qt; intros [g [p c]] H; apply open_run in H as [Hg Hn]; cbv zeta beta iota.

Lemma keep_create_handler pk hash user p title sched d : Inv d -> calls d !! pk = None ->
  keep (create_group_call_handler sfu now pk hash user p title sched) d.
Proof.
  intros Hi Hpk. unfold create_group_call_handler. qt. intros d' [= <-]. destruct (chats d !! p) as [c|]; [|by apply wp_raise].
  qt. intros [] _. apply wp_then; [by apply keep_create|]. intros [] d1 Hi1. em.
  destruct sched; [by apply wp_ret|by apply wp_emit_any].
Qed.

Lemma keep_discard id hash user d : Inv d -> keep (discard_group_call sfu now id hash user) d.
Proof.
  intros Hi. unfold discard_group_call. opened. qt. intros [] _.
  apply wp_assoc. apply wp_then.
  - split; [|done]. by apply wp_discard_all.
  - intros [] d1 Hi1. em. by apply wp_emit_any.
Qed.

Lemma keep_start id hash user d : Inv d -> keep (start_scheduled_group_call now id hash user) d.
Proof.
  intros Hi. unfold start_scheduled_group_call. qt. intros g [Hg Hn]%input_run. qt. intros [] Hst%ensure_run%bool_decide_eq_true.
  qt. intros [p c] _. qt. intros [] _. apply wp_then; [|intros [] d1 Hi1; em; by apply wp_emit_any].
  apply (keep_settings h d0 id g (fun g => next_version (with_times (Some now) (g_discarded_at g) g))); try done. cbn. lia.
Qed.

Lemma keep_join_handler id hash user r rs d : Inv d -> draws_ok d id user (jr_ssrc r) rs ->
  keep (join_group_call_handler self from sfu ip now id hash user r rs) d.
Proof.
  intros Hi Hd. unfold join_group_call_handler. qt. intros _ _. apply wp_then; [|intros [] d1 Hi1; by apply wp_emit_any].
  destruct (jr_video_stream r).
  - apply wp_then; [by apply keep_video|]. intros _ d1 Hi1. by apply wp_ret.
  - apply wp_then; [by apply keep_join|]. intros pj d1 Hi1. by apply wp_sfu.
Qed.

Lemma keep_leave_handler id hash user d : Inv d -> keep (leave_group_call_handler sfu now id hash user) d.
Proof.
  intros Hi. unfold leave_group_call_handler. qt. intros _ _. apply wp_then; [by apply keep_leave|]. intros [p|] d1 Hi1.
  - apply wp_then; [by apply keep_discard_empty|]. intros [] d2 Hi2; [by apply wp_emit_any|]. em. by apply wp_emit_any.
  - qt. intros [q|] _; [by apply wp_emit_any|by apply wp_ret].
Qed.

Lemma keep_speaking id user d : Inv d -> keep (handle_sfu_speaking_callback monotonic id user) d.
Proof.
  intros Hi. unfold handle_sfu_speaking_callback. qt. intros d' [= <-]. destruct (calls d !! id) as [g|]; [|by apply wp_ret].
  destruct (negb _); [by apply wp_ret|]. qt. intros [p|] _; [|by apply wp_ret]. qt. intros _ _.
  unfold notify_group_call_speaking. qt. intros g' _. destruct (negb _); [by apply wp_ret|]. qt. intros [q|] _; [|by apply wp_ret].
  destruct (_ || _); [by apply wp_ret|]. qt. intros d' [= <-]. match goal with |- keep (if ?c then _ else _) d => destruct c end;
    [by apply wp_ret|].
  apply wp_then; [apply wp_modify; [by apply (inv_same h d0 d)|done]|]. intros [] d1 Hi1. by apply wp_emit_any.
Qed.

Lemma keep_op op d : Inv d -> admissible h d op -> keep (run_op monotonic now op) d.
Proof.
  intros Hi Ha. destruct op; cbn [run_op admissible] in *.
  - by apply keep_create_handler.
  - by apply keep_discard.
  - by apply keep_start.
  - by apply keep_join_handler.
  - destruct Ha as (Hd & Hs & Hr). unfold join_group_call_presentation_handler. qt. intros g _.
    apply wp_then; [by apply keep_presentation|]. intros _ d1 Hi1. qt. intros _ _. by apply wp_emit_any.
  - unfold leave_group_call_presentation_handler. qt. intros _ _.
    apply wp_then; [by apply keep_leave_presentation|]. intros _ d1 Hi1. by apply wp_emit_any.
  - unfold edit_group_call_participant_handler. opened. apply wp_then; [by apply keep_edit|]. intros [[u q] ch] d1 Hi1.
    destruct ch; by apply wp_emit_any.
  - by apply keep_leave_handler.
  - unfold leave_all_group_calls_for_user. qt. intros d' [= <-]. by apply keep_leave_each.
  - unfold toggle_group_call_settings. opened. qt. intros [] _. apply wp_then; [|intros [] d1 Hi1; by apply wp_emit_any].
    by apply (keep_settings h d0 id g (fun g => next_version (with_settings _ _ _ g))); cbn; try lia.
  - unfold edit_group_call_title. opened. qt. intros [] _. apply wp_then; [|intros [] d1 Hi1; by apply wp_emit_any].
    by apply (keep_settings h d0 id g (fun g => next_version (with_settings _ _ _ g))); cbn; try lia.
  - apply wp_then; [|intros _ d1 Hi1; by apply wp_ret]. unfold export_group_call_invite. qt. intros g [Hg _]%input_run.
    destruct can_self_unmute; [|by apply wp_ret]. destruct (g_invite_hash g) as [k|]; [by apply wp_ret|].
    apply wp_then; [|intros [] d1 Hi1; by apply wp_ret].
    by apply (keep_settings h d0 id g (fun g => with_settings _ _ _ g)); cbn; try lia.
  - apply wp_quiet_any; [|done]. unfold check_group_call. quiet.
  - by apply keep_speaking.
Qed.

End Run.

Lemma keep_steps h d0 d d' : Inv h d0 d -> rtc (call_step h) d d' -> Inv h d0 d'.
Proof.
  intros Hi Hs. induction Hs as [d|d1 d2 d3 Hstep _ IH]; [done|]. destruct Hstep as [mono now op d Ha].
  apply IH. by apply keep_op.
Qed.

(** Requests at their times, one after the other *)
Fixpoint run_ops (ops : list (Z * call_op InputPeer)) (d : CallDb) : CallDb :=
  match ops with [] => d | (now, op) :: ops => run_ops ops (run_op now now op d).2 end.
Fixpoint all_admissible (h : option (Z * Z)) (ops : list (Z * call_op InputPeer)) (d : CallDb) : Prop :=
  match ops with [] => True | (now, op) :: ops => admissible h d op /\ all_admissible h ops (run_op now now op d).2 end.
Lemma run_ops_steps h ops d : all_admissible h ops d -> rtc (call_step h) d (run_ops ops d).
Proof.
  revert d. induction ops as [|[now op] ops IH]; intros d Ha; [done|]. destruct Ha as [Ha Hr].
  eapply rtc_l; [by apply call_step_run|]. by apply IH.
Qed.

Lemma Inv_start h d : calls_ok d -> Inv h d d.
Proof. intros Hok. split; [done|apply evolves_refl|done]. Qed.
(** ** Who manages a call *)
Definition may_manage (d : CallDb) (user : Z) (p : place) (c : ChatBase) : bool :=
  match members d !! (p, user) with
  | Some m => negb (Rights.left m) && ((creator_id c =? user) || (match p with InChat _ => is_admin m | InChannel _ => false end)
      || admin_has_permission c m Admin.MANAGE_CALL)
  | None => false
  end.

(** Who asks for an operation of the administrators, and in which chat *)
Definition manages (d : CallDb) (op : call_op InputPeer) : option (Z * place) :=
  match op with
  | Create _ _ user p _ _ => Some (user, p)
  | Discard id _ user | Start id _ user | Settings id _ user _ _ _ | SetTitle id _ user _ =>
    g ← calls d !! id; Some (user, g_place g)
  | EditPart id _ editor target _ =>
    match (resolve_group_call_participant self from editor id target d).1 with
    | Ok (u, _) => if u =? editor then None else g ← calls d !! id; Some (editor, g_place g)
    | Raise _ => None
    end
  | _ => None
  end.

Definition refuses {A} (m : C A) (d : CallDb) : Prop := exists e, m d = (Raise e, d).

Lemma refuses_quiet {A B} (m : C A) (f : A -> C B) d : quiet m -> (forall a, m d = (Ok a, d) -> refuses (f a) d) -> refuses (m ≫= f) d.
Proof.
  intros Hm Hf. specialize (Hm d). unfold refuses, mbind, M_bind in *. destruct (m d) as [[a|e] d']; cbn in *; subst; eauto.
Qed.
Lemma refuses_now {A B} (m : C A) (f : A -> C B) d : refuses m d -> refuses (m ≫= f) d.
Proof. intros [e H]. exists e. by apply M_bind_raise. Qed.

Lemma refuses_manage user p c d : may_manage d user p c = false -> refuses (ensure_can_manage_call user p c) d.
Proof.
  unfold may_manage, refuses, ensure_can_manage_call, get_participant_raise, ensure, mbind, M_bind. intros H.
  destruct (members d !! (p, user)) as [m|]; [|by eexists]. destruct (Rights.left m); [by eexists|]. cbn in H.
  destruct (creator_id c =? user); [done|]. cbn in H. apply orb_false_iff in H as [Ha Hp]. rewrite Hp.
  destruct p; [|by eexists]. rewrite Ha. by eexists.
Qed.

Lemma refuses_open {A} (id hash user : Z) (p : place) (c : ChatBase) (f : GroupCall * (place * ChatBase) -> C A) d : (g ← calls d !! id; Some (user, g_place g)) = Some (user, p) ->
  chats d !! p = Some c -> (forall g, refuses (A := A) (f (g, (p, c))) d) -> refuses (open_call id hash ≫= f) d.
Proof.
  intros Hp Hc Hf. apply refuses_quiet; [auto with gc|]. intros [g pc] H. pose proof (open_run _ _ _ _ _ H) as [Hg _].
  rewrite Hg in Hp. injection Hp as Hp. unfold open_call in H.
  destruct (get_from_input_raise id hash d) as [[g1|e] d1] eqn:E; [|by rewrite (M_bind_raise _ _ _ _ _ E) in H].
  assert (d1 = d) as -> by (pose proof (quiet_input_raise id hash d) as Hq; by rewrite E in Hq).
  rewrite (M_bind_step _ _ _ _ _ E) in H. destruct (input_run _ _ _ _ E) as [Hg1 _]. assert (g1 = g) as -> by congruence.
  unfold chat_of, mbind, M_bind in H. rewrite Hp, Hc in H. injection H as <-. apply Hf.
Qed.
End Requests.


(** A group with its creator 7 and a member 8; 7 opens a call, both join it, and 7 mutes 8. *)
Definition a_call_db : CallDb := MkCallDb ∅ ∅
  {[ InChat 1 := MkChatBase IsChat (pystr_of "group") [] 1 7 None 0 0 false ]}
  {[ (InChat 1, 7) := MkParticipant 7 0 0 0 0 [] 0 None false; (InChat 1, 8) := MkParticipant 8 7 0 0 0 [] 0 None false ]}
  ∅ ∅ [].
Definition a_join (user : Z) : JoinRequest Z := MkJoin Z user false true None (Some (100 + user)) None false.
Definition muting : list (Z * call_op Z) :=
  [(1, Create 5 99 7 (InChat 1) None None); (2, Join 5 99 7 (a_join 7) []); (3, Join 5 99 8 (a_join 8) []);
   (4, EditPart 5 99 7 8 (MkEdit (Some true) None None None None None))].
Definition unmuting : list (Z * call_op Z) :=
  [(5, Leave 5 99 8); (6, Join 5 99 8 (a_join 8) []); (7, EditPart 5 99 8 8 (MkEdit (Some false) None None None None None));
   (8, LeaveAll 7); (9, Leave 5 99 8)].
#[local] Abbreviation a_user := (fun _ u => Ok (UserPeer u)).
Lemma a_call_ok : calls_ok a_call_db.
Proof. split; cbn; intros *; rewrite lookup_empty; done. Qed.


(** An administrator's mute holds. Once a participant is muted by an administrator, every sequence of
    requests of anyone (his leaving and joining again, his own edits, the end of the call) in
    which nobody but himself edits him leaves him muted by the administrator: his row says muted, and the
    media server is told to pause him. *)
Theorem admin_mute_holds {InputPeer} (self : Z -> InputPeer -> bool) from sfu ip t d d' :
  calls_ok d -> admin_muted_at t d -> rtc (call_step self from sfu ip (Some t)) d d' ->
  exists p, parts d' !! t = Some p /\ muted (gp_mute p) = true /\ muted_by_admin (gp_mute p) = true /\
    should_pause_sfu_audio (gp_mute p) = true /\ can_self_unmute_participant (gp_mute p) = false.
Proof.
  intros Hok Ha Hs. destruct (keep_steps self from sfu ip (Some t) d d d' (Inv_start _ d Hok) Hs) as [Hok' _ Hh].
  destruct (Hh t eq_refl Ha) as (p & Hp & Hm). exists p. destruct t as [id u].
  destruct (mk_muted _ (mutes d' Hok' id u p Hp) Hm) as (Hmu & _ & _). split; [done|]. split; [done|]. split; [done|].
  unfold should_pause_sfu_audio, can_self_unmute_participant, is_admin_muted. by rewrite Hmu, Hm.
Qed.

Lemma admin_mute_holds_witness :
  let d := run_ops Z.eqb a_user true "ip" muting a_call_db in let d' := run_ops Z.eqb a_user true "ip" unmuting d in
  admin_muted_at (5, 8) d /\ exists p, parts d' !! (5, 8) = Some p /\ muted (gp_mute p) = true /\ muted_by_admin (gp_mute p) = true /\
    should_pause_sfu_audio (gp_mute p) = true /\ can_self_unmute_participant (gp_mute p) = false.
Proof.
  set (d := run_ops _ _ _ _ muting _). assert (admin_muted_at (5, 8) d) as Ha by (eexists; split; vm_compute; reflexivity).
  split; [exact Ha|]. apply (admin_mute_holds Z.eqb a_user true "ip" (5, 8) d); [|exact Ha|].
  - apply (inv_ok None a_call_db). apply (keep_steps Z.eqb a_user true "ip" None a_call_db a_call_db).
    + apply Inv_start, a_call_ok.
    + apply run_ops_steps. vm_compute; repeat split; intros; discriminate.
  - apply run_ops_steps. vm_compute. repeat split; intros; first [discriminate|congruence].
Defined.

(** Who is not a current member that created the chat, is an administrator of the basic group, or has the right to
    manage calls cannot create, discard or start a call, change its settings or title, or edit another
    participant: the request raises, and nothing is written or sent. *)
Theorem call_management {InputPeer} (self : Z -> InputPeer -> bool) from sfu ip monotonic now op d user p c :
  manages self from d op = Some (user, p) -> chats d !! p = Some c -> may_manage d user p c = false ->
  refuses (run_op self from sfu ip monotonic now op) d.
Proof.
  intros Hm Hc Hno%refuses_manage. destruct op; cbn [manages run_op] in *; try done.
  - injection Hm as -> ->. unfold create_group_call_handler. apply refuses_quiet; [auto with gc|]. intros d' [= <-].
    rewrite Hc. by apply refuses_now.
  - unfold discard_group_call. assert (user0 = user) as -> by (destruct (calls d !! id); cbn in Hm; congruence).
    eapply refuses_open; eauto. intros g. by apply refuses_now.
  - unfold start_scheduled_group_call. apply refuses_quiet; [auto with gc|]. intros g [Hg _]%input_run. rewrite Hg in Hm.
    injection Hm as -> Hp. apply refuses_quiet; [auto with gc|]. intros _ _. apply refuses_quiet; [auto with gc|].
    intros pc Hpc. unfold chat_of in Hpc. rewrite Hp, Hc in Hpc. injection Hpc as <-. by apply refuses_now.
  - unfold edit_group_call_participant_handler.
    destruct (resolve_group_call_participant self from editor id target d).1 as [[u q]|e] eqn:Er; [|done].
    destruct (u =? editor) eqn:Eu; [done|]. assert (editor = user) as -> by (destruct (calls d !! id); cbn in Hm; congruence).
    eapply refuses_open; eauto. intros g. apply refuses_now. unfold edit_group_call_participant.
    apply refuses_quiet; [auto with gc|]. intros g' _. apply refuses_quiet; [auto with gc|]. intros _ _.
    apply refuses_quiet; [auto with gc|]. intros [u' q'] Hr. rewrite Hr in Er. injection Er as -> ->. cbv zeta. rewrite Eu.
    by apply refuses_now.
  - unfold toggle_group_call_settings. assert (user0 = user) as -> by (destruct (calls d !! id); cbn in Hm; congruence).
    eapply refuses_open; eauto. intros g. by apply refuses_now.
  - unfold edit_group_call_title. assert (user0 = user) as -> by (destruct (calls d !! id); cbn in Hm; congruence).
    eapply refuses_open; eauto. intros g. by apply refuses_now.
Qed.

Lemma call_management_witness :
  refuses (run_op Z.eqb a_user true "ip" 10 10 (Discard 5 99 8)) (run_ops Z.eqb a_user true "ip" muting a_call_db).
Proof.
  apply (call_management Z.eqb a_user true "ip" 10 10 (Discard 5 99 8) _ 8 (InChat 1)
    (MkChatBase IsChat (pystr_of "group") [] 1 7 None 0 0 false)); by vm_compute.
Defined.
