(* ===== verification/Privacy.v ===== *)
(** Privacy rules ([piltover/db/models/privacy_rule.py], [set_privacy] of
    [piltover/app/handlers/account.py], the key enumeration of [piltover/db/enums.py]).

    The tables are maps and sets, the cache a map from the strings [cache_key] builds. [check_access_hash]
    ([AccessHash.v]) for the asking user is an argument. *)
From stdpp Require Import pretty.
From Stdlib Require Import Ascii.
From S2P Require Import Prelude.

(** ** Keys *)
Inductive PrivacyRuleKeyType :=
  | STATUS_TIMESTAMP | CHAT_INVITE | PHONE_CALL | PHONE_P2P | FORWARDS | PROFILE_PHOTO | PHONE_NUMBER | ADDED_BY_PHONE
  | VOICE_MESSAGE | ABOUT | BIRTHDAY | NO_PAID_MESSAGES | GIFTS_AUTOSAVE.
#[export] Instance key_eq_dec : EqDecision PrivacyRuleKeyType.
Proof. solve_decision. Defined.

Definition key_value (k : PrivacyRuleKeyType) : Z :=
  match k with
  | STATUS_TIMESTAMP => 0 | CHAT_INVITE => 1 | PHONE_CALL => 2 | PHONE_P2P => 3 | FORWARDS => 4 | PROFILE_PHOTO => 5
  | PHONE_NUMBER => 6 | ADDED_BY_PHONE => 7 | VOICE_MESSAGE => 8 | ABOUT => 9 | BIRTHDAY => 10 | NO_PAID_MESSAGES => 11
  | GIFTS_AUTOSAVE => 12
  end.
Definition all_keys : list PrivacyRuleKeyType :=
  [STATUS_TIMESTAMP; CHAT_INVITE; PHONE_CALL; PHONE_P2P; FORWARDS; PROFILE_PHOTO; PHONE_NUMBER; ADDED_BY_PHONE;
   VOICE_MESSAGE; ABOUT; BIRTHDAY; NO_PAID_MESSAGES; GIFTS_AUTOSAVE].
#[export] Instance key_countable : Countable PrivacyRuleKeyType.
Proof.
  refine (inj_countable (fun k => Z.to_nat (key_value k)) (fun n => all_keys !! n) _). by intros [].
Defined.

(** The keys of [_PRIVACY_ENUM_KEY_TO_TL] *)
Definition _PRIVACY_ENUM_KEY_TO_TL : list PrivacyRuleKeyType :=
  [STATUS_TIMESTAMP; CHAT_INVITE; PHONE_CALL; PHONE_P2P; FORWARDS; PROFILE_PHOTO; PHONE_NUMBER; ADDED_BY_PHONE;
   VOICE_MESSAGE; ABOUT; BIRTHDAY].
Definition key_to_tl (k : PrivacyRuleKeyType) : result PrivacyRuleKeyType :=
  if decide (k ∈ _PRIVACY_ENUM_KEY_TO_TL) then Ok k else Raise KeyError.

(** ** Rows *)
Record PrivacyRule := MkRule { r_id : Z; allow_all : bool; allow_contacts : bool; r_version : Z }.

Record PrivacyDb := MkPrivacyDb {
  rules : gmap (Z * PrivacyRuleKeyType) PrivacyRule;  (* unique by user and key *)
  exceptions : gmap (Z * Z) bool;                    (* unique by rule and user: [allow] *)
  contacts : gset (Z * Z);                           (* owner and target *)
  accounts : gset Z;
  cache : gmap string bool;
  next_rule : Z;
}.
Abbreviation P := (M PrivacyDb).

Definition with_rules (r : gmap (Z * PrivacyRuleKeyType) PrivacyRule) (d : PrivacyDb) : PrivacyDb :=
  MkPrivacyDb r (exceptions d) (contacts d) (accounts d) (cache d) (next_rule d).
Definition with_exceptions (e : gmap (Z * Z) bool) (d : PrivacyDb) : PrivacyDb :=
  MkPrivacyDb (rules d) e (contacts d) (accounts d) (cache d) (next_rule d).
Definition with_contacts (c : gset (Z * Z)) (d : PrivacyDb) : PrivacyDb :=
  MkPrivacyDb (rules d) (exceptions d) c (accounts d) (cache d) (next_rule d).
Definition with_cache (c : gmap string bool) (d : PrivacyDb) : PrivacyDb :=
  MkPrivacyDb (rules d) (exceptions d) (contacts d) (accounts d) c (next_rule d).

Definition default_allow_all (k : PrivacyRuleKeyType) : bool := negb (bool_decide (k = PHONE_NUMBER)).
Definition default_allow_contacts (k : PrivacyRuleKeyType) : bool := bool_decide (k = PHONE_NUMBER).

(** A new row, with the key the database gives it *)
Definition insert_rule (user : Z) (k : PrivacyRuleKeyType) (all with_contacts_ : bool) (d : PrivacyDb) : PrivacyDb :=
  MkPrivacyDb (<[(user, k) := MkRule (next_rule d) all with_contacts_ 0]> (rules d)) (exceptions d) (contacts d) (accounts d)
    (cache d) (next_rule d + 1).

Definition create_default (user : Z) (d : PrivacyDb) (k : PrivacyRuleKeyType) : PrivacyDb :=
  match rules d !! (user, k) with
  | Some _ => d
  | None => insert_rule user k (default_allow_all k) (default_allow_contacts k) d
  end.
(** [bulk_create(..., ignore_conflicts=True)] *)
Definition create_defaults_for_user (user : Z) : P unit := modify (fun d => foldl (create_default user) d _PRIVACY_ENUM_KEY_TO_TL).

(** ** Setting rules *)
Inductive input_user := InputUser (user_id access_hash : Z) | OtherInputUser.
Inductive InputPrivacyRule :=
  | InputPrivacyValueAllowAll
  | InputPrivacyValueAllowContacts
  | InputPrivacyValueAllowUsers (users : list input_user)
  | InputPrivacyValueDisallowUsers (users : list input_user)
  | OtherInputRule.

Section SetRules.
(** [check_access_hash] for the asking user and his authorization *)
Context (access_ok : Z -> Z -> bool).

Definition add_uid (user : Z) (result_ : gset Z) (u : input_user) : gset Z :=
  match u with
  | OtherInputUser => result_
  | InputUser id hash => if id =? user then result_ else if access_ok id hash then {[id]} ∪ result_ else result_
  end.
Definition _inputusers_to_uids (user : Z) (input_users : list input_user) (existing_set : gset Z) : gset Z :=
  foldl (add_uid user) existing_set input_users.

Record parsed_rules := MkParsed { pr_all : bool; pr_contacts : bool; pr_allow : gset Z; pr_disallow : gset Z }.
Definition parse_rule (user : Z) (p : parsed_rules) (r : InputPrivacyRule) : parsed_rules :=
  match r with
  | InputPrivacyValueAllowAll => MkParsed true (pr_contacts p) (pr_allow p) (pr_disallow p)
  | InputPrivacyValueAllowContacts => MkParsed (pr_all p) true (pr_allow p) (pr_disallow p)
  | InputPrivacyValueAllowUsers us => MkParsed (pr_all p) (pr_contacts p) (_inputusers_to_uids user us (pr_allow p)) (pr_disallow p)
  | InputPrivacyValueDisallowUsers us => MkParsed (pr_all p) (pr_contacts p) (pr_allow p) (_inputusers_to_uids user us (pr_disallow p))
  | OtherInputRule => p
  end.
Definition parse_rules (user : Z) (rs : list InputPrivacyRule) : parsed_rules := foldl (parse_rule user) (MkParsed false false ∅ ∅) rs.

(** [update_or_create]: the row, and whether it is new *)
Definition update_or_create_rule (user : Z) (k : PrivacyRuleKeyType) (all with_contacts_ : bool) : P (PrivacyRule * bool) := fun d =>
  match rules d !! (user, k) with
  | Some r =>
    let r := MkRule (r_id r) all with_contacts_ (r_version r) in
    (Ok (r, false), with_rules (<[(user, k) := r]> (rules d)) d)
  | None =>
    let d' := insert_rule user k all with_contacts_ d in
    (Ok (MkRule (next_rule d) all with_contacts_ 0, true), d')
  end.

(** One user of [all_users]: created, updated, or left as he is *)
Definition put_exception (rule : Z) (existing : gmap (Z * Z) bool) (allow_users : gset Z) (e : gmap (Z * Z) bool) (user : Z) : gmap (Z * Z) bool :=
  let allow := bool_decide (user ∈ allow_users) in
  match existing !! (rule, user) with
  | Some a => if Bool.eqb a allow then e else <[(rule, user) := allow]> e
  | None => <[(rule, user) := allow]> e
  end.

Definition update_exceptions (rule : Z) (created : bool) (p : parsed_rules) : P unit := modify (fun d =>
  let all_users := pr_allow p ∪ pr_disallow p in
  if decide (all_users = ∅) then with_exceptions (filter (fun kv => kv.1.1 <> rule) (exceptions d)) d
  else
    let kept := filter (fun kv => kv.1.1 = rule -> kv.1.2 ∈ all_users) (exceptions d) in
    let existing := if (created : bool) then ∅ else filter (fun kv => kv.1.1 = rule) kept in
    with_exceptions (foldl (put_exception rule existing (pr_allow p)) kept (elements (all_users ∩ accounts d))) d).

(** [filter(id=rule.id).update(version=F("version") + 1)] *)
Definition bump_version (rule : Z) : P unit := modify (fun d =>
  with_rules ((fun r => if r_id r =? rule then MkRule (r_id r) (allow_all r) (allow_contacts r) (r_version r + 1) else r) <$> rules d) d).

Definition update_from_tl (user : Z) (k : PrivacyRuleKeyType) (rs : list InputPrivacyRule) : P Z :=
  let p := parse_rules user rs in
  transaction (
    rc ← update_or_create_rule user k (pr_all p) (pr_contacts p);
    update_exceptions (r_id rc.1) rc.2 p;;
    bump_version (r_id rc.1);;
    mret (r_id rc.1)).

(** [set_privacy] up to the update it sends, whose [key] is [key_to_tl] *)
Definition set_privacy (user : Z) (k : PrivacyRuleKeyType) (rs : list InputPrivacyRule) : P PrivacyRuleKeyType :=
  ensure (length rs <=? 100)%nat (ErrorRpc400 "PRIVACY_TOO_LONG");;
  update_from_tl user k rs;;
  lift_result (key_to_tl k).
End SetRules.

(** ** Showing rules *)
Inductive TLPrivacyRule :=
  | PrivacyValueAllowAll | PrivacyValueDisallowAll | PrivacyValueAllowContacts
  | PrivacyValueAllowUsers (users : list Z) | PrivacyValueDisallowUsers (users : list Z).

Definition exceptions_of (rule : Z) (d : PrivacyDb) : list (Z * bool) :=
  (fun kv => (kv.1.2, kv.2)) <$> map_to_list (filter (fun kv => kv.1.1 = rule) (exceptions d)).

Definition to_tl_rules (r : PrivacyRule) (excs : list (Z * bool)) : list TLPrivacyRule :=
  let allow_users := (filter (fun e => e.2 = true) excs).*1 in
  let disallow_users := (filter (fun e => e.2 = false) excs).*1 in
  (if allow_all r then [PrivacyValueAllowAll]
   else if allow_contacts r then [PrivacyValueDisallowAll; PrivacyValueAllowContacts] else [PrivacyValueDisallowAll])
  ++ (match allow_users with [] => [] | _ => [PrivacyValueAllowUsers allow_users] end)
  ++ (match disallow_users with [] => [] | _ => [PrivacyValueDisallowUsers disallow_users] end).

Definition get_privacy_internal (k : PrivacyRuleKeyType) (user : Z) : P (list TLPrivacyRule) := gets (fun d =>
  match rules d !! (user, k) with
  | None => if default_allow_all k then [PrivacyValueAllowAll] else [PrivacyValueDisallowAll; PrivacyValueAllowContacts]
  | Some r => to_tl_rules r (exceptions_of (r_id r) d)
  end).

(** ** Access *)
Definition cache_key (this_user rule_user : Z) (k : PrivacyRuleKeyType) (version : Z) : string :=
  "privacy-rule:" ++ pretty rule_user ++ ":" ++ pretty (key_value k) ++ ":" ++ pretty version ++ ":" ++ pretty this_user.

(** [get_or_none(id=...)] *)
Definition rule_by_id (id : Z) (d : PrivacyDb) : option ((Z * PrivacyRuleKeyType) * PrivacyRule) :=
  head (map_to_list (filter (fun kv => r_id kv.2 = id) (rules d))).

Definition is_contact (d : PrivacyDb) (owner target : Z) : bool := bool_decide ((owner, target) ∈ contacts d).

(** What a rule says to a user; [contact] is whether he is a contact of its owner *)
Definition rule_allows (d : PrivacyDb) (r : PrivacyRule) (this_user : Z) (contact : bool) : bool :=
  match exceptions d !! (r_id r, this_user) with
  | Some allow => allow
  | None => allow_all r || allow_contacts r && contact
  end.

(** [has_access_to] in three parts, between which other requests may run: the rule's id and version and a look into the
    cache, the rule itself, and the write to the cache *)
Inductive lookup_result := Known (access : bool) | ReadRule (id version : Z).
Definition access_lookup (current target : Z) (k : PrivacyRuleKeyType) : P lookup_result := gets (fun d =>
  if current =? target then Known true
  else match rules d !! (target, k) with
  | None => Known (if default_allow_all k then true else is_contact d target current)
  | Some rule_simple =>
    match cache d !! cache_key current target k (r_version rule_simple) with
    | Some cached => Known cached
    | None => ReadRule (r_id rule_simple) (r_version rule_simple)
    end
  end).
Definition access_read (current target id : Z) : P bool := gets (fun d =>
  match rule_by_id id d with
  | None => false
  | Some (_, r) => rule_allows d r current (is_contact d target current)
  end).
Definition access_store (current target : Z) (k : PrivacyRuleKeyType) (version : Z) (access : bool) : P unit :=
  modify (fun d => with_cache (<[cache_key current target k version := access]> (cache d)) d).

Definition has_access_to (current target : Z) (k : PrivacyRuleKeyType) : P bool :=
  l ← access_lookup current target k;
  match l with
  | Known access => mret access
  | ReadRule id version => access ← access_read current target id; access_store current target k version access;; mret access
  end.

(** ** [has_access_to_bulk] *)
Inductive target := ById (user : Z) | ByUser (user : Z) (bot : bool).
#[export] Instance target_eq_dec : EqDecision target.
Proof. solve_decision. Defined.
Definition target_id (t : target) : Z := match t with ById u | ByUser u _ => u end.
Definition is_bot (t : target) : bool := match t with ByUser _ b => b | ById _ => false end.

Abbreviation answers := (gmap Z (gmap PrivacyRuleKeyType bool)).
(** [results[user][key] = access] *)
Definition put_answer (res : answers) (user : Z) (k : PrivacyRuleKeyType) (access : bool) : result answers :=
  match res !! user with Some m => Ok (<[user := <[k := access]> m]> res) | None => Raise KeyError end.
Definition all_true (keys : list PrivacyRuleKeyType) : gmap PrivacyRuleKeyType bool := list_to_map ((fun k => (k, true)) <$> keys).

Definition skip_bot (keys : list PrivacyRuleKeyType) (st : gset Z * answers) (t : target) : gset Z * answers :=
  if is_bot t then (st.1 ∖ {[target_id t]}, <[target_id t := all_true keys]> st.2) else st.

Abbreviation rule_row := (((Z * PrivacyRuleKeyType) * PrivacyRule)%type).

(** The loop over the cached answers: results, rules to read, and what is left over *)
Fixpoint use_cached (rs : list rule_row) (cached : list (option bool)) (res : answers) (not_cached : list Z)
    (leftover : gset (Z * PrivacyRuleKeyType)) : result (answers * list Z * gset (Z * PrivacyRuleKeyType)) :=
  match rs, cached with
  | (uk, r) :: rs, Some allowed :: cached =>
    res ← put_answer res uk.1 uk.2 allowed; use_cached rs cached res not_cached (leftover ∖ {[uk]})
  | (uk, r) :: rs, None :: cached => use_cached rs cached res (not_cached ++ [r_id r]) leftover
  | _, _ => Ok (res, not_cached, leftover)
  end.

(** The loop over the rules that were read *)
Fixpoint use_rules (d : PrivacyDb) (this_user : Z) (contacts_ : gset Z) (rs : list rule_row) (res : answers)
    (leftover : gset (Z * PrivacyRuleKeyType)) (to_cache : list (string * bool))
    : result (answers * gset (Z * PrivacyRuleKeyType) * list (string * bool)) :=
  match rs with
  | [] => Ok (res, leftover, to_cache)
  | (uk, r) :: rs =>
    let access := rule_allows d r this_user (bool_decide (uk.1 ∈ contacts_)) in
    res ← put_answer res uk.1 uk.2 access;
    use_rules d this_user contacts_ rs res (leftover ∖ {[uk]}) (to_cache ++ [(cache_key this_user uk.1 uk.2 (r_version r), access)])
  end.

(** The loop over what is left over: [user_id in contacts] raises when [contacts] is [None]. *)
Fixpoint use_defaults (contacts_ : option (gset Z)) (left_ : list (Z * PrivacyRuleKeyType)) (res : answers) : result answers :=
  match left_ with
  | [] => Ok res
  | (u, k) :: left_ =>
    access ← (if default_allow_all k then Ok true
              else match contacts_ with Some c => Ok (bool_decide (u ∈ c)) | None => Raise TypeError end);
    res ← put_answer res u k access;
    use_defaults contacts_ left_ res
  end.

(** The contacts, read when a rule must be and they are not given *)
Definition fetch_contacts (d : PrivacyDb) (this_user : Z) (user_ids : gset Z) (not_cached_ids : list Z) (contacts_ : option (gset Z)) : option (gset Z) :=
  match not_cached_ids, contacts_ with
  | _ :: _, None => Some (set_map fst (filter (fun ot => ot.2 = this_user /\ ot.1 ∈ user_ids) (contacts d)))
  | _, _ => contacts_
  end.

(** From the query of the rules on *)
Definition ask_rules (this_user : Z) (keys : list PrivacyRuleKeyType) (contacts_ : option (gset Z)) (user_ids : gset Z) (results : answers) : P answers :=
  d ← get;
  let rules_simple := map_to_list (filter (fun kv => kv.1.1 ∈ user_ids /\ kv.1.2 ∈ keys) (rules d)) in
  let cached_all := (fun kv => cache d !! cache_key this_user kv.1.1 kv.1.2 (r_version kv.2)) <$> rules_simple in
  let leftover : gset (Z * PrivacyRuleKeyType) := list_to_set (u ← elements user_ids; k ← keys; [(u, k)]) in
  rnl ← lift_result (use_cached rules_simple cached_all results [] leftover);
  let '(results, not_cached_ids, leftover) := rnl in
  let contacts_ := fetch_contacts d this_user user_ids not_cached_ids contacts_ in
  let rules_read := map_to_list (filter (fun kv => r_id kv.2 ∈ not_cached_ids) (rules d)) in
  rlc ← lift_result (use_rules d this_user (default ∅ contacts_) rules_read results leftover []);
  let '(results, leftover, to_cache) := rlc in
  results ← lift_result (use_defaults contacts_ (elements leftover) results);
  modify (fun d => with_cache (foldl (fun c kb => <[kb.1 := kb.2]> c) (cache d) to_cache) d);;
  mret results.

Definition has_access_to_bulk (users : list target) (this_user : Z) (keys : list PrivacyRuleKeyType) (contacts_ : option (gset Z)) : P answers :=
  match keys with
  | [] => mret ∅
  | _ =>
    let user_ids : gset Z := list_to_set (target_id <$> users) in
    let results : answers := gset_to_gmap ∅ user_ids in
    let '(user_ids, results) := (if decide (this_user ∈ user_ids)
      then (user_ids ∖ {[this_user]}, <[this_user := all_true keys]> results) else (user_ids, results)) in
    let '(user_ids, results) := foldl (skip_bot keys) (user_ids, results) users in
    if decide (user_ids = ∅) then mret results else ask_rules this_user keys contacts_ user_ids results
  end.

(** The contact rows that [delete_contacts] deletes *)
Definition delete_contact_rows (owner : Z) (user_to_fetch_ids : gset Z) : P unit := modify (fun d =>
  with_contacts (filter (fun ot => ~ (ot.1 = owner /\ ot.2 ∈ user_to_fetch_ids)) (contacts d)) d).

(** ** What the rules say, without a cache *)
Definition allowed (d : PrivacyDb) (this_user owner : Z) (k : PrivacyRuleKeyType) : bool :=
  if this_user =? owner then true
  else match rules d !! (owner, k) with
  | None => if default_allow_all k then true else is_contact d owner this_user
  | Some r => rule_allows d r this_user (is_contact d owner this_user)
  end.

Record db_ok (d : PrivacyDb) : Prop := {
  ids_unique : forall k k' r r', rules d !! k = Some r -> rules d !! k' = Some r' -> r_id r = r_id r' -> k = k';
  ids_used : forall k r, rules d !! k = Some r -> r_id r < next_rule d;
  exc_used : forall i u a, exceptions d !! (i, u) = Some a -> i < next_rule d /\ u ∈ accounts d;
}.

(** A cached answer is about a version of the rule that exists or has existed, and right if it is about the present one. *)
Definition entry_ok (d : PrivacyDb) (this_user owner : Z) (k : PrivacyRuleKeyType) (version : Z) (b : bool) : Prop :=
  exists r, rules d !! (owner, k) = Some r /\ version <= r_version r /\
    (version = r_version r -> b = rule_allows d r this_user (is_contact d owner this_user)).
Definition cache_ok (d : PrivacyDb) : Prop := forall c t k v b, cache d !! cache_key c t k v = Some b -> entry_ok d c t k v b.

(** Everything but the cache *)
Definition same_tables (d d' : PrivacyDb) : Prop :=
  rules d' = rules d /\ exceptions d' = exceptions d /\ contacts d' = contacts d /\ accounts d' = accounts d /\ next_rule d' = next_rule d.

(** ** Cache keys are different for different questions *)
Abbreviation colon_free := (free_of ":"%char).
Lemma colon_split a b x y : colon_free a -> colon_free b -> a +:+ (":" +:+ x) = b +:+ (":" +:+ y) -> a = b /\ x = y.
Proof. apply free_split. Qed.
Lemma colon_free_N n s : colon_free s -> colon_free (pretty_N_go n s).
Proof.
  revert s. induction (N.lt_wf_0 n) as [n _ IH]; intros s Hs. destruct (decide (n = 0)%N) as [->|Hn]; [done|].
  rewrite pretty_N_go_step by lia. apply IH; [by apply N.div_lt; lia|]. cbn. split; [|done].
  unfold pretty_N_char. by repeat case_match.
Qed.
Lemma colon_free_pretty (z : Z) : colon_free (pretty z).
Proof.
  assert (forall p : positive, colon_free (pretty p)) as Hp.
  { intros p. unfold pretty, pretty_positive, pretty, pretty_N. case_decide; [done|]. by apply colon_free_N. }
  destruct z as [|p|p]; cbn; [done|apply Hp|]. split; [done|apply Hp].
Qed.

Lemma key_value_inj k k' : key_value k = key_value k' -> k = k'.
Proof. by destruct k, k'. Qed.

Lemma cache_key_inj c t k v c' t' k' v' : cache_key c t k v = cache_key c' t' k' v' -> c = c' /\ t = t' /\ k = k' /\ v = v'.
Proof.
  unfold cache_key. intros H. apply (inj (String.append "privacy-rule:")) in H.
  apply colon_split in H as [Ht H]; [|apply colon_free_pretty..].
  apply colon_split in H as [Hk H]; [|apply colon_free_pretty..].
  apply colon_split in H as [Hv Hc]; [|apply colon_free_pretty..].
  apply (inj pretty) in Ht, Hk, Hv, Hc. by apply key_value_inj in Hk.
Qed.

(** ** Reading *)
Lemma rule_by_id_spec d uk r : db_ok d -> rules d !! uk = Some r -> rule_by_id (r_id r) d = Some (uk, r).
Proof.
  intros [Hu _ _] Hr. unfold rule_by_id.
  assert (filter (fun kv => r_id kv.2 = r_id r) (rules d) = {[uk := r]}) as ->.
  { apply map_eq. intros k. apply option_eq. intros r'. rewrite map_lookup_filter_Some, lookup_singleton_Some. split.
    - intros [Hk Hi]. cbn in Hi. assert (k = uk) as -> by (by eapply Hu). split; [done|congruence].
    - by intros [<- <-]. }
  by rewrite map_to_list_singleton.
Qed.

Lemma cache_put d c t k v b : cache_ok d -> entry_ok d c t k v b ->
  cache_ok (with_cache (<[cache_key c t k v := b]> (cache d)) d).
Proof.
  intros Hc He c' t' k' v' b'. cbn. destruct (decide (cache_key c t k v = cache_key c' t' k' v')) as [Heq|Hne].
  - rewrite Heq, lookup_insert_eq. intros [= <-]. by apply cache_key_inj in Heq as (<- & <- & <- & <-).
  - rewrite lookup_insert_ne by done. apply Hc.
Qed.

Lemma lookup_known d c t k b : cache_ok d -> access_lookup c t k d = (Ok (Known b), d) -> b = allowed d c t k.
Proof.
  intros Hc. unfold access_lookup, gets, allowed. destruct (c =? t); [by intros [= <-]|].
  destruct (rules d !! (t, k)) as [r|] eqn:Er; [|by intros [= <-]].
  destruct (cache d !! _) as [b'|] eqn:Eb; [|done]. intros [= <-]. apply Hc in Eb as (r' & Hr' & _ & Hv).
  assert (r' = r) as -> by congruence. by apply Hv.
Qed.

Lemma lookup_read d c t k id v : access_lookup c t k d = (Ok (ReadRule id v), d) ->
  c <> t /\ exists r, rules d !! (t, k) = Some r /\ r_id r = id /\ r_version r = v.
Proof.
  unfold access_lookup, gets. destruct (c =? t) eqn:E; [done|]. b2p. destruct (rules d !! (t, k)) as [r|] eqn:Er; [|done].
  destruct (cache d !! _); [done|]. intros [= <- <-]. split; [done|]. by exists r.
Qed.

Lemma read_rule d c t k r : db_ok d -> rules d !! (t, k) = Some r ->
  access_read c t (r_id r) d = (Ok (rule_allows d r c (is_contact d t c)), d).
Proof. intros Hd Hr. unfold access_read, gets. by rewrite (rule_by_id_spec d (t, k) r). Qed.

Lemma has_access_spec d c t k : db_ok d -> cache_ok d ->
  exists d', has_access_to c t k d = (Ok (allowed d c t k), d') /\ same_tables d d' /\ cache_ok d'.
Proof.
  intros Hd Hc. unfold has_access_to. destruct (access_lookup c t k d) as [[l|e] d1] eqn:El; [|done].
  assert (d1 = d) as -> by (unfold access_lookup, gets in El; congruence). rewrite (M_bind_step _ _ _ _ _ El). destruct l as [b|id v].
  - apply lookup_known in El as ->; [|done]. by exists d.
  - destruct (lookup_read _ _ _ _ _ _ El) as (Hne & r & Hr & <- & <-). rewrite (M_bind_step _ _ _ _ _ (read_rule d c t k r Hd Hr)).
    eexists. split; [|split].
    + unfold allowed. rewrite (proj2 (Z.eqb_neq c t)), Hr by done. reflexivity.
    + done.
    + apply cache_put; [done|]. by exists r.
Qed.

(** ** Writing *)
Lemma put_exceptions rule existing allow_users l e :
  (forall u a, existing !! (rule, u) = Some a -> e !! (rule, u) = Some a \/ e !! (rule, u) = Some (bool_decide (u ∈ allow_users))) ->
  let e' := foldl (put_exception rule existing allow_users) e l in
  (forall u, e' !! (rule, u) = if decide (u ∈ l) then Some (bool_decide (u ∈ allow_users)) else e !! (rule, u)) /\
  (forall i u, i <> rule -> e' !! (i, u) = e !! (i, u)).
Proof.
  revert e. induction l as [|w l IH]; intros e He; [by split|]. cbn [foldl].
  set (e1 := put_exception rule existing allow_users e w).
  assert (e1 !! (rule, w) = Some (bool_decide (w ∈ allow_users)) /\ forall iu, iu <> (rule, w) -> e1 !! iu = e !! iu) as [Hw Ho].
  { unfold e1, put_exception. destruct (existing !! (rule, w)) as [a|] eqn:E.
    - destruct (Bool.eqb a _) eqn:Ea.
      + apply Bool.eqb_prop in Ea as ->. split; [|done]. by destruct (He w _ E).
      + split; [by rewrite lookup_insert_eq|]. intros iu Hne. by rewrite lookup_insert_ne.
    - split; [by rewrite lookup_insert_eq|]. intros iu Hne. by rewrite lookup_insert_ne. }
  destruct (IH e1) as [IH1 IH2].
  { intros u a Hu. destruct (decide (u = w)) as [->|Hne]; [by right|]. rewrite Ho by congruence. by apply He. }
  split.
  - intros u. rewrite IH1. destruct (decide (u = w)) as [->|Hne].
    + rewrite Hw. destruct (decide (w ∈ w :: l)) as [_|Hn]; [by destruct (decide (w ∈ l))|]. exfalso. apply Hn. by left.
    + rewrite Ho by congruence. apply decide_ext. rewrite elem_of_cons. tauto.
  - intros i u Hi. rewrite IH2 by done. apply Ho. congruence.
Qed.

(** What [update_from_tl] leaves of the tables *)
Record updated (user : Z) (k : PrivacyRuleKeyType) (p : parsed_rules) (d d' : PrivacyDb) (r : PrivacyRule) : Prop := {
  up_rule : rules d' !! (user, k) = Some r;
  up_allow : allow_all r = pr_all p /\ allow_contacts r = pr_contacts p;
  up_version : forall r0, rules d !! (user, k) = Some r0 -> r_id r = r_id r0 /\ r_version r = r_version r0 + 1;
  up_new : rules d !! (user, k) = None -> r_id r = next_rule d;
  up_others : forall uk, uk <> (user, k) -> rules d' !! uk = rules d !! uk;
  up_exceptions : forall u, exceptions d' !! (r_id r, u) =
    if decide (u ∈ (pr_allow p ∪ pr_disallow p) ∩ accounts d) then Some (bool_decide (u ∈ pr_allow p)) else None;
  up_other_exceptions : forall i u, i <> r_id r -> exceptions d' !! (i, u) = exceptions d !! (i, u);
  up_same : contacts d' = contacts d /\ accounts d' = accounts d /\ cache d' = cache d;
  up_next : next_rule d <= next_rule d' /\ (rules d !! (user, k) = None -> next_rule d < next_rule d');
}.

Lemma update_exceptions_spec d rule created p :
  (created = true -> forall u, exceptions d !! (rule, u) = None) -> (forall u a, exceptions d !! (rule, u) = Some a -> u ∈ accounts d) ->
  let d' := (update_exceptions rule created p d).2 in
  (forall u, exceptions d' !! (rule, u) =
    if decide (u ∈ (pr_allow p ∪ pr_disallow p) ∩ accounts d) then Some (bool_decide (u ∈ pr_allow p)) else None) /\
  (forall i u, i <> rule -> exceptions d' !! (i, u) = exceptions d !! (i, u)).
Proof.
  intros Hnew Hacc. unfold update_exceptions, modify. cbn. set (all := pr_allow p ∪ pr_disallow p).
  destruct (decide (all = ∅)) as [Hall|Hall]; cbn.
  - split.
    + intros u. rewrite decide_False by set_solver. apply map_lookup_filter_None. right. intros a _ H. by apply H.
    + intros i u Hi. apply option_eq. intros a. rewrite map_lookup_filter_Some. cbn. naive_solver.
  - set (kept := filter _ (exceptions d)). set (existing := if created then ∅ else _).
    destruct (put_exceptions rule existing (pr_allow p) (elements (all ∩ accounts d)) kept) as [H1 H2].
    { intros u a. unfold existing. destruct created; [by rewrite lookup_empty|]. intros [H _]%map_lookup_filter_Some. by left. }
    split.
    + intros u. rewrite H1. rewrite (decide_ext _ _ _ _ (elem_of_elements (all ∩ accounts d) u)). case_decide as Hu; [done|].
      apply map_lookup_filter_None. destruct (exceptions d !! (rule, u)) as [a|] eqn:E; [right|by left].
      intros a' _ Hk. cbn in Hk. apply Hu, elem_of_intersection. split; [by apply Hk|by eapply Hacc].
    + intros i u Hi. rewrite H2 by done. apply option_eq. intros a. unfold kept. rewrite map_lookup_filter_Some. cbn. naive_solver.
Qed.

Section Update.
Context (access_ok : Z -> Z -> bool).
#[local] Abbreviation parse := (parse_rules access_ok).

Lemma update_spec d user k rs : db_ok d -> exists id d' r,
  update_from_tl access_ok user k rs d = (Ok id, d') /\ updated user k (parse user rs) d d' r.
Proof.
  intros Hd. pose proof Hd as [Hu Hi He]. unfold update_from_tl. set (p := parse user rs).
  set (body := update_or_create_rule user k _ _ ≫= _).
  enough (exists id d' r, body d = (Ok id, d') /\ updated user k p d d' r) as (id & d' & r & Hb & Hup).
  { exists id, d', r. split; [|done]. by apply transaction_ok. }
  unfold body, update_or_create_rule, mbind at 1, M_bind at 1. destruct (rules d !! (user, k)) as [r0|] eqn:Er.
  - set (r1 := MkRule (r_id r0) _ _ _). set (d1 := with_rules _ d). cbn [fst snd].
    destruct (update_exceptions_spec d1 (r_id r1) false p) as [H1 H2]; [done|by intros u a Ha; eapply He|].
    set (d2 := (update_exceptions (r_id r1) false p d1).2) in *.
    assert (update_exceptions (r_id r1) false p d1 = (Ok tt, d2)) as E by done. rewrite (M_bind_step _ _ _ _ _ E).
    assert (rules d2 = <[(user, k) := r1]> (rules d) /\ contacts d2 = contacts d /\ accounts d2 = accounts d /\ cache d2 = cache d
      /\ next_rule d2 = next_rule d) as (Hr2 & Hs2 & Ha2 & Hc2 & Hn2).
    { unfold d2, update_exceptions, modify. cbn. by case_decide. }
    clearbody d2. eexists _, _, (MkRule (r_id r0) (pr_all p) (pr_contacts p) (r_version r0 + 1)). split; [reflexivity|]. split; cbn; try done.
    + rewrite Hr2, lookup_fmap, lookup_insert_eq. cbn. by rewrite Z.eqb_refl.
    + intros r' Hr'. assert (r' = r0) as -> by congruence. done.
    + congruence.
    + intros uk Hne. rewrite Hr2, lookup_fmap, lookup_insert_ne by done. destruct (rules d !! uk) as [r|] eqn:E'; [|done]. cbn.
      destruct (r_id r =? r_id r0) eqn:Eid; [|done]. b2p. exfalso. apply Hne. by eapply Hu.
    + rewrite Hn2. split; [lia|congruence].
  - set (d1 := insert_rule user k _ _ d). set (r1 := MkRule (next_rule d) _ _ 0). cbn [fst snd].
    destruct (update_exceptions_spec d1 (r_id r1) true p) as [H1 H2].
    { intros _ u. destruct (exceptions d1 !! (r_id r1, u)) as [a|] eqn:E; [|done]. cbn in E. apply He in E. lia. }
    { intros u a Ha. by eapply He. }
    set (d2 := (update_exceptions (r_id r1) true p d1).2) in *.
    assert (update_exceptions (r_id r1) true p d1 = (Ok tt, d2)) as E by done. rewrite (M_bind_step _ _ _ _ _ E).
    assert (rules d2 = <[(user, k) := r1]> (rules d) /\ contacts d2 = contacts d /\ accounts d2 = accounts d /\ cache d2 = cache d
      /\ next_rule d2 = next_rule d + 1) as (Hr2 & Hs2 & Ha2 & Hc2 & Hn2).
    { unfold d2, update_exceptions, modify. cbn. by case_decide. }
    clearbody d2. eexists _, _, (MkRule (next_rule d) (pr_all p) (pr_contacts p) 1). split; [reflexivity|]. split; cbn; try done.
    + rewrite Hr2, lookup_fmap, lookup_insert_eq. cbn. by rewrite Z.eqb_refl.
    + congruence.
    + intros uk Hne. rewrite Hr2, lookup_fmap, lookup_insert_ne by done. destruct (rules d !! uk) as [r|] eqn:E'; [|done]. cbn.
      destruct (r_id r =? next_rule d) eqn:Eid; [|done]. b2p. apply Hi in E'. lia.
    + rewrite Hn2. lia.
Qed.
End Update.

Lemma updated_db_ok user k p d d' r : db_ok d -> updated user k p d d' r -> db_ok d'.
Proof.
  intros [Hu Hi He] [Hr _ Hver Hnew Ho Hex Hoe (Hs & Ha & _) [Hn Hn']].
  assert (forall uk r', uk <> (user, k) -> rules d !! uk = Some r' -> r_id r' <> r_id r) as Hdiff.
  { intros uk r' Hne Hr' Heq. destruct (rules d !! (user, k)) as [r0|] eqn:E.
    - destruct (Hver r0 eq_refl) as [Hid _]. apply Hne. eapply Hu; [done|done|]. congruence.
    - specialize (Hnew eq_refl). apply Hi in Hr'. lia. }
  assert (r_id r < next_rule d') as Hlt.
  { destruct (rules d !! (user, k)) as [r0|] eqn:E.
    - destruct (Hver r0 eq_refl) as [Hid _]. apply Hi in E. lia.
    - rewrite (Hnew eq_refl). by apply Hn'. }
  split.
  - intros uk uk' r1 r2 H1 H2 Heq. destruct (decide (uk = (user, k))) as [->|Hne], (decide (uk' = (user, k))) as [->|Hne']; [done| | |].
    + rewrite Ho in H2 by done. exfalso. eapply Hdiff; [exact Hne'|exact H2|]. congruence.
    + rewrite Ho in H1 by done. exfalso. eapply Hdiff; [exact Hne|exact H1|]. congruence.
    + rewrite Ho in H1, H2 by done. by eapply Hu.
  - intros uk r1 H1. destruct (decide (uk = (user, k))) as [->|Hne]; [congruence|]. rewrite Ho in H1 by done. apply Hi in H1. lia.
  - intros i u a Hia. rewrite Ha. destruct (decide (i = r_id r)) as [->|Hne].
    + split; [done|]. rewrite Hex in Hia. case_decide as Hin; [|done]. by apply elem_of_intersection in Hin as [_ ?].
    + rewrite Hoe in Hia by done. apply He in Hia as [? ?]. split; [lia|done].
Qed.

Lemma updated_entry user k p d d' r c t k' v b : db_ok d -> updated user k p d d' r -> entry_ok d c t k' v b -> entry_ok d' c t k' v b.
Proof.
  intros Hd Hup (r0 & Hr0 & Hv & Hb). pose proof Hd as [Hu Hi He]. destruct (decide ((t, k') = (user, k))) as [Heq|Hne].
  - rewrite Heq in Hr0. destruct (up_version _ _ _ _ _ _ Hup r0 Hr0) as [_ Hv']. exists r. rewrite Heq.
    split; [apply (up_rule _ _ _ _ _ _ Hup)|]. split; lia.
  - exists r0. rewrite (up_others _ _ _ _ _ _ Hup) by done. split; [done|]. split; [done|]. intros Heq. rewrite (Hb Heq).
    unfold rule_allows, is_contact. destruct (up_same _ _ _ _ _ _ Hup) as (-> & _).
    rewrite (up_other_exceptions _ _ _ _ _ _ Hup); [done|]. intros Hid. destruct (rules d !! (user, k)) as [r1|] eqn:E.
    + destruct (up_version _ _ _ _ _ _ Hup r1 E) as [Hid' _]. apply Hne. eapply Hu; [done|done|]. congruence.
    + pose proof (up_new _ _ _ _ _ _ Hup E) as Hn. apply Hi in Hr0. lia.
Qed.

(** ** Requests and their interleavings *)
(** A change that keeps every valid entry and invents none *)
Record extends (d d' : PrivacyDb) : Prop := {
  ext_ok : db_ok d';
  ext_entry : forall c t k v b, entry_ok d c t k v b -> entry_ok d' c t k v b;
  ext_rule : forall uk r, rules d !! uk = Some r -> exists r', rules d' !! uk = Some r' /\ r_id r' = r_id r /\ r_version r <= r_version r';
  ext_cache : cache_ok d -> cache_ok d';
}.

Lemma extends_refl d : db_ok d -> extends d d.
Proof. intros Hd. split; auto. intros uk r Hr. exists r. repeat split; [done|lia]. Qed.
Lemma extends_trans d1 d2 d3 : extends d1 d2 -> extends d2 d3 -> extends d1 d3.
Proof.
  intros [O1 E1 R1 C1] [O2 E2 R2 C2]. split; auto. intros uk r Hr. destruct (R1 uk r Hr) as (r' & Hr' & Hi & Hv).
  destruct (R2 uk r' Hr') as (r'' & Hr'' & Hi' & Hv'). exists r''. split; [done|]. split; [congruence|lia].
Qed.

Lemma extends_updated user k p d d' r : db_ok d -> updated user k p d d' r -> extends d d'.
Proof.
  intros Hd Hup. split.
  - by eapply updated_db_ok.
  - intros. by eapply updated_entry.
  - intros uk r0 Hr0. destruct (decide (uk = (user, k))) as [->|Hne].
    + exists r. destruct (up_version _ _ _ _ _ _ Hup r0 Hr0). split; [by apply (up_rule _ _ _ _ _ _ Hup)|]. split; [done|lia].
    + exists r0. rewrite (up_others _ _ _ _ _ _ Hup) by done. repeat split; [done|lia].
  - intros Hc c t k' v b. destruct (up_same _ _ _ _ _ _ Hup) as (_ & _ & ->). intros Hb. eapply updated_entry; eauto.
Qed.

(** A write to the cache only *)
Lemma extends_cache d d' : db_ok d -> same_tables d d' -> cache_ok d' -> extends d d'.
Proof.
  intros Hd (Hr & He & Hs & Ha & Hn) Hc.
  assert (forall c t k v b, entry_ok d c t k v b -> entry_ok d' c t k v b) as Hent.
  { intros c t k v b (r & H1 & H2 & H3). exists r. unfold rule_allows, is_contact in *. by rewrite Hr, He, Hs. }
  split; [|done| |done].
  - destruct Hd as [Hu Hi Hx]. split; rewrite ?Hr, ?He, ?Ha, ?Hn; auto.
  - intros uk r Hrr. exists r. rewrite Hr. repeat split; [done|lia].
Qed.

Lemma extends_insert user k a c d : db_ok d -> rules d !! (user, k) = None -> extends d (insert_rule user k a c d).
Proof.
  intros [Hu Hi He] Hno.
  assert (forall c' t k' v b, entry_ok d c' t k' v b -> entry_ok (insert_rule user k a c d) c' t k' v b) as Hent.
  { intros c' t k' v b (r & H1 & H2 & H3). exists r. cbn. rewrite lookup_insert_ne by congruence. done. }
  split; [split|done| |].
  - cbn. intros uk uk' r r'. destruct (decide ((user, k) = uk)) as [<-|Hne], (decide ((user, k) = uk')) as [<-|Hne'];
      rewrite ?lookup_insert_eq, ?lookup_insert_ne by done; try done.
    + intros [= <-] Hr' Heq. apply Hi in Hr'. cbn in Heq. lia.
    + intros Hr' [= <-] Heq. apply Hi in Hr'. cbn in Heq. lia.
    + apply Hu.
  - cbn. intros uk r. destruct (decide ((user, k) = uk)) as [<-|Hne].
    + rewrite lookup_insert_eq. intros [= <-]. cbn. lia.
    + rewrite lookup_insert_ne by done. intros Hr. apply Hi in Hr. lia.
  - cbn. intros i u x Hx. apply He in Hx as [? ?]. split; [lia|done].
  - intros uk r Hr. exists r. cbn. rewrite lookup_insert_ne by congruence. repeat split; [done|lia].
  - intros Hc c' t k' v b Hb. apply Hent. by apply Hc.
Qed.

Lemma extends_defaults user d : db_ok d -> extends d (create_defaults_for_user user d).2.
Proof.
  unfold create_defaults_for_user, modify. cbn [snd]. generalize _PRIVACY_ENUM_KEY_TO_TL as l. intros l.
  revert d. induction l as [|k l IH]; intros d Hd; [by apply extends_refl|]. cbn [foldl].
  assert (extends d (create_default user d k)) as He.
  { unfold create_default. destruct (rules d !! (user, k)) eqn:E; [by apply extends_refl|by apply extends_insert]. }
  eapply extends_trans; [exact He|]. apply IH, (ext_ok _ _ He).
Qed.

(** ** [has_access_to_bulk] answers as [has_access_to] does *)
Definition answer (res : answers) (u : Z) (k : PrivacyRuleKeyType) : option bool := m ← res !! u; m !! k.

Lemma all_true_spec keys k : k ∈ keys -> all_true keys !! k = Some true.
Proof.
  intros Hk. destruct (all_true keys !! k) as [b|] eqn:E.
  - apply elem_of_list_to_map_2, list_elem_of_fmap in E as (k' & [= -> ->] & _). done.
  - apply not_elem_of_list_to_map_2 in E. exfalso. apply E. rewrite <- list_fmap_compose. apply list_elem_of_fmap. by exists k.
Qed.

Lemma skip_bots keys users ids res :
  let st := foldl (skip_bot keys) (ids, res) users in
  (forall u, u ∈ st.1 <-> u ∈ ids /\ ByUser u true ∉ users) /\
  (forall u, st.2 !! u = if decide (ByUser u true ∈ users) then Some (all_true keys) else res !! u).
Proof.
  revert ids res. induction users as [|t users IH]; intros ids res; cbn [foldl].
  - split; [set_solver|]. intros u. by rewrite decide_False by set_solver.
  - destruct (skip_bot keys (ids, res) t) as [ids1 res1] eqn:E. destruct (IH ids1 res1) as [H1 H2]. unfold skip_bot in E.
    destruct t as [w|w [|]]; cbn in E; injection E as <- <-.
    + split; intros u; [rewrite H1; set_solver|]. rewrite H2. apply decide_ext. set_solver.
    + split; intros u; [rewrite H1; set_solver|]. rewrite H2. destruct (decide (w = u)) as [->|Hne].
      * rewrite lookup_insert_eq. rewrite (decide_True (P := _ ∈ _ :: _)) by set_solver. by case_decide.
      * rewrite lookup_insert_ne by done. apply decide_ext. set_solver.
    + split; intros u; [rewrite H1; set_solver|]. rewrite H2. apply decide_ext. set_solver.
Qed.

Section Bulk.
Context (d : PrivacyDb) (this_user : Z) (keys : list PrivacyRuleKeyType) (ids : gset Z) (res0 : answers).
Context (Hthis : this_user ∉ ids).

Record bulk_inv (res : answers) (leftover : gset (Z * PrivacyRuleKeyType)) : Prop := {
  bk_dom : forall u, u ∈ ids -> is_Some (res !! u);
  bk_done : forall u k, u ∈ ids -> k ∈ keys -> (u, k) ∉ leftover -> answer res u k = Some (allowed d this_user u k);
  bk_frozen : forall u, u ∉ ids -> res !! u = res0 !! u;
}.

Lemma put_answer_ok res leftover u k : bulk_inv res leftover -> u ∈ ids ->
  exists res', put_answer res u k (allowed d this_user u k) = Ok res' /\ bulk_inv res' (leftover ∖ {[(u, k)]}).
Proof.
  intros [Hdom Hdone Hfr] Hu. destruct (Hdom u Hu) as [m Hm]. unfold put_answer. rewrite Hm. eexists. split; [done|]. split.
  - intros w Hw. destruct (decide (u = w)) as [<-|Hne]; [by rewrite lookup_insert_eq|]. rewrite lookup_insert_ne by done. by apply Hdom.
  - intros w k' Hw Hk Hl. unfold answer. destruct (decide (u = w)) as [<-|Hne].
    + rewrite lookup_insert_eq. cbn. destruct (decide (k = k')) as [<-|Hnk]; [by rewrite lookup_insert_eq|].
      rewrite lookup_insert_ne by done. specialize (Hdone u k' Hu Hk). unfold answer in Hdone. rewrite Hm in Hdone. apply Hdone.
      intros Hin. apply Hl. apply elem_of_difference. split; [done|]. rewrite elem_of_singleton. congruence.
    + rewrite lookup_insert_ne by done. apply Hdone; try done. intros Hin. apply Hl. apply elem_of_difference.
      split; [done|]. rewrite elem_of_singleton. congruence.
  - intros w Hw. rewrite lookup_insert_ne by congruence. by apply Hfr.
Qed.

(** A row of the asked keys and users *)
Definition asked (kv : rule_row) : Prop := rules d !! kv.1 = Some kv.2 /\ kv.1.1 ∈ ids /\ kv.1.2 ∈ keys.

Lemma asked_allowed kv : asked kv -> allowed d this_user kv.1.1 kv.1.2 = rule_allows d kv.2 this_user (is_contact d kv.1.1 this_user).
Proof using Hthis.
  intros (Hr & Hu & _). unfold allowed. rewrite (proj2 (Z.eqb_neq _ _)) by congruence.
  destruct kv as [[u k] r]. cbn in *. by rewrite Hr.
Qed.

Lemma use_cached_ok rs : cache_ok d -> Forall asked rs -> forall res nc leftover, bulk_inv res leftover ->
  exists res' nc' leftover', use_cached rs ((fun kv => cache d !! cache_key this_user kv.1.1 kv.1.2 (r_version kv.2)) <$> rs) res nc leftover
      = Ok (res', nc', leftover') /\ bulk_inv res' leftover' /\ leftover' ⊆ leftover /\
    (forall kv, kv ∈ rs -> kv.1 ∉ leftover' \/ r_id kv.2 ∈ nc') /\
    (forall i, i ∈ nc' <-> i ∈ nc \/ i ∈ nc' /\ exists kv, kv ∈ rs /\ r_id kv.2 = i).
Proof using Hthis.
  intros Hc Hrs. induction Hrs as [|[uk r] rs Ha Hrs IH]; intros res nc leftover Hi; cbn [use_cached fmap list_fmap].
  - exists res, nc, leftover. split; [done|]. split; [done|]. split; [done|]. split; [set_solver|]. naive_solver.
  - destruct (cache d !! _) as [b|] eqn:Eb; cbn [use_cached].
    + assert (b = allowed d this_user uk.1 uk.2) as ->.
      { apply Hc in Eb as (r' & Hr' & _ & Hv). cbn in *. destruct Ha as (Hr & Hu & Hk). cbn in *. destruct uk as [u k]. cbn in *.
        assert (r' = r) as -> by congruence. rewrite Hv by done. symmetry. by apply (asked_allowed (u, k, r)). }
      destruct (put_answer_ok res leftover uk.1 uk.2 Hi) as (res1 & E1 & Hi1); [by apply Ha|]. cbn. rewrite E1. cbn.
      rewrite <- surjective_pairing in Hi1. destruct (IH res1 nc _ Hi1) as (res' & nc' & l' & E & Hi' & Hl & Hin & Hnc).
      exists res', nc', l'. split; [done|]. split; [done|]. split; [set_solver|]. split.
      * intros kv [->|Hkv]%elem_of_cons; [left; set_solver|by apply Hin].
      * intros i. rewrite Hnc. set_solver.
    + destruct (IH res (nc ++ [r_id r]) leftover Hi) as (res' & nc' & l' & E & Hi' & Hl & Hin & Hnc).
      exists res', nc', l'. split; [done|]. split; [done|]. split; [done|]. split.
      * intros kv [->|Hkv]%elem_of_cons; [|by apply Hin]. right. apply Hnc. left. set_solver.
      * intros i. split; [|set_solver]. intros Hi0. apply Hnc in Hi0 as Hi1. destruct Hi1 as [Hi1|[_ (kv & Hkv & <-)]].
        -- apply elem_of_app in Hi1 as [Hi1|Hi1%list_elem_of_singleton]; [by left|]. right. split; [done|]. exists (uk, r). split; [by left|done].
        -- right. split; [done|]. exists kv. split; [by right|done].
Qed.

Lemma use_rules_ok contacts_ rs : Forall asked rs -> (forall u, u ∈ ids -> u ∈ contacts_ <-> (u, this_user) ∈ contacts d) ->
  forall res leftover tc, bulk_inv res leftover -> (forall kb, kb ∈ tc -> exists c t k v, kb.1 = cache_key c t k v /\ entry_ok d c t k v kb.2) ->
  exists res' leftover' tc', use_rules d this_user contacts_ rs res leftover tc = Ok (res', leftover', tc') /\ bulk_inv res' leftover' /\
    leftover' ⊆ leftover /\ (forall kv, kv ∈ rs -> kv.1 ∉ leftover') /\
    (forall kb, kb ∈ tc' -> exists c t k v, kb.1 = cache_key c t k v /\ entry_ok d c t k v kb.2).
Proof using Hthis.
  intros Hrs Hcon. induction Hrs as [|[uk r] rs Ha Hrs IH]; intros res leftover tc Hi Htc; cbn [use_rules].
  - exists res, leftover, tc. split; [done|]. split; [done|]. split; [done|]. split; [set_solver|done].
  - assert (bool_decide (uk.1 ∈ contacts_) = is_contact d uk.1 this_user) as ->.
    { apply bool_decide_ext. apply Hcon. apply Ha. }
    pose proof (asked_allowed _ Ha) as Hal. cbn in Hal. cbv zeta. rewrite <- Hal.
    destruct (put_answer_ok res leftover uk.1 uk.2 Hi) as (res1 & E1 & Hi1); [by apply Ha|]. cbn. rewrite E1. cbn.
    rewrite <- surjective_pairing in Hi1. edestruct (IH res1 _ (tc ++ [(cache_key this_user uk.1 uk.2 (r_version r), allowed d this_user uk.1 uk.2)]) Hi1)
      as (res' & l' & tc' & E & Hi' & Hl & Hin & Htc').
    { intros kb [Hkb|Hkb]%elem_of_app; [by apply Htc|]. apply list_elem_of_singleton in Hkb as ->. eexists _, _, _, _. split; [done|]. cbn. rewrite Hal.
      exists r. destruct Ha as (Hr & _). cbn in Hr. by rewrite <- surjective_pairing. }
    exists res', l', tc'. split; [done|]. split; [done|]. split; [set_solver|]. split; [|done].
    intros kv [->|Hkv]%elem_of_cons; [cbn; set_solver|by apply Hin].
Qed.

Lemma use_defaults_ok contacts_ l : (forall u k, (u, k) ∈ l -> u ∈ ids /\ rules d !! (u, k) = None) ->
  (forall u k, (u, k) ∈ l -> default_allow_all k = false -> exists s, contacts_ = Some s /\ bool_decide (u ∈ s) = is_contact d u this_user) ->
  forall res leftover, bulk_inv res leftover ->
  exists res', use_defaults contacts_ l res = Ok res' /\ bulk_inv res' (leftover ∖ list_to_set l).
Proof using Hthis.
  induction l as [|[u k] l IH]; intros Hl Hcon res leftover Hi; cbn [use_defaults].
  - exists res. split; [done|]. destruct Hi as [H1 H2 H3]. split; [done| |done]. intros. apply H2; [done..|]. set_solver.
  - destruct (Hl u k) as [Hu Hno]; [by left|].
    assert ((if default_allow_all k then Ok true else match contacts_ with Some c => Ok (bool_decide (u ∈ c)) | None => Raise TypeError end)
      = Ok (allowed d this_user u k)) as ->.
    { unfold allowed. rewrite (proj2 (Z.eqb_neq _ _)), Hno by congruence. destruct (default_allow_all k) eqn:E; [done|].
      destruct (Hcon u k) as (s & -> & ->); [by left|done|done]. }
    destruct (put_answer_ok res leftover u k Hi Hu) as (res1 & E1 & Hi1). cbn. rewrite E1. cbn.
    destruct (IH ltac:(intros; apply Hl; by right) ltac:(intros ? ? ?; apply Hcon; by right) res1 _ Hi1) as (res' & E & [H1 H2 H3]).
    exists res'. split; [done|]. split; [done| |done]. intros. apply H2; [done..|]. set_solver.
Qed.
End Bulk.

Lemma cache_puts d tc : cache_ok d -> (forall kb, kb ∈ tc -> exists c t k v, kb.1 = cache_key c t k v /\ entry_ok d c t k v kb.2) ->
  cache_ok (with_cache (foldl (fun c kb => <[kb.1 := kb.2]> c) (cache d) tc) d).
Proof.
  revert d. induction tc as [|[s b] tc IH]; intros d Hc Htc; cbn [foldl]; [exact Hc|].
  destruct (Htc (s, b)) as (c & t & k & v & Hs & He); [by left|]. cbn in Hs, He. subst s.
  refine (IH (with_cache (<[cache_key c t k v := b]> (cache d)) d) _ _); [by apply cache_put|].
  intros kb Hkb. by apply Htc; right.
Qed.

(** [contacts], if given, are the asked users that have [this_user] as a contact; without them [PHONE_NUMBER] is not asked. *)
Definition contacts_known (d : PrivacyDb) (users : list target) (this_user : Z) (keys : list PrivacyRuleKeyType) (c : option (gset Z)) : Prop :=
  match c with
  | Some s => forall t, t ∈ users -> target_id t ∈ s <-> (target_id t, this_user) ∈ contacts d
  | None => PHONE_NUMBER ∉ keys
  end.

Lemma pairs_spec (ids : gset Z) (keys : list PrivacyRuleKeyType) u k :
  (u, k) ∈ (list_to_set (u ← elements ids; k ← keys; [(u, k)]) : gset (Z * PrivacyRuleKeyType)) <-> u ∈ ids /\ k ∈ keys.
Proof.
  rewrite elem_of_list_to_set, list_elem_of_bind. split.
  - intros (w & Hin & Hw). apply list_elem_of_bind in Hin as (k' & Hin & Hk). apply list_elem_of_singleton in Hin as [= -> ->].
    by apply elem_of_elements in Hw.
  - intros [Hu Hk]. exists u. split; [|by apply elem_of_elements]. apply list_elem_of_bind. exists k. split; [by left|done].
Qed.

Lemma default_keys k : default_allow_all k = false -> k = PHONE_NUMBER.
Proof. by destruct k. Qed.

Lemma ask_rules_spec d users this_user keys c (ids : gset Z) (res0 : answers) : db_ok d -> cache_ok d -> this_user ∉ ids ->
  (forall u, u ∈ ids -> exists t, t ∈ users /\ target_id t = u) -> contacts_known d users this_user keys c ->
  (forall u, u ∈ ids -> is_Some (res0 !! u)) ->
  exists res d', ask_rules this_user keys c ids res0 d = (Ok res, d') /\ same_tables d d' /\ cache_ok d' /\
    (forall u k, u ∈ ids -> k ∈ keys -> answer res u k = Some (allowed d this_user u k)) /\
    (forall u, u ∉ ids -> res !! u = res0 !! u).
Proof.
  intros Hd Hc Hthis Hids Hcon Hres0. unfold ask_rules. unfold get at 1, mbind at 1, M_bind at 1. cbv iota beta.
  set (rs := map_to_list _). set (lo := list_to_set _). cbv zeta.
  assert (forall kv, kv ∈ rs <-> asked d keys ids kv) as Hrs.
  { intros [[u k] r]. unfold rs, asked. rewrite elem_of_map_to_list, map_lookup_filter_Some. done. }
  destruct (use_cached_ok d this_user keys ids res0 Hthis rs Hc) with (res := res0) (nc := @nil Z) (leftover := lo)
    as (res1 & nc & lo1 & E1 & Hi1 & Hlo1 & Hin1 & Hnc).
  { apply Forall_forall. intros kv Hkv. by apply Hrs. }
  { split; [done| |done]. intros u k Hu Hk Hn. exfalso. apply Hn. by apply pairs_spec. }
  rewrite E1, lift_step. cbv iota beta zeta. set (c' := fetch_contacts d this_user ids nc c).
  set (rr := map_to_list (filter (fun kv => r_id kv.2 ∈ nc) (rules d))).
  assert (forall kv, kv ∈ rr <-> rules d !! kv.1 = Some kv.2 /\ r_id kv.2 ∈ nc) as Hrr.
  { intros [uk r]. unfold rr. rewrite elem_of_map_to_list, map_lookup_filter_Some. done. }
  assert (Forall (asked d keys ids) rr) as Hasked.
  { apply Forall_forall. intros [uk r] [Hr Hi]%Hrr. cbn in *. apply Hnc in Hi as [Hi|[_ (kv & Hkv & Hid)]]; [by apply elem_of_nil in Hi|].
    apply Hrs in Hkv as (Hkr & Hku & Hkk). assert (uk = kv.1) as -> by (by eapply (ids_unique d Hd)).
    split; [exact Hr|done]. }
  assert (forall s, c' = Some s -> forall u, u ∈ ids -> u ∈ s <-> (u, this_user) ∈ contacts d) as Hc'.
  { intros s Hs u Hu. destruct (Hids u Hu) as (t & Ht & <-). destruct c as [s0|].
    - assert (c' = Some s0) as Hc0 by (unfold c', fetch_contacts; by destruct nc). assert (s = s0) as -> by congruence. by apply Hcon.
    - unfold c', fetch_contacts in Hs. destruct nc; [done|]. injection Hs as <-. rewrite elem_of_map. split.
      + intros ([o w] & Ho & Hf). apply elem_of_filter in Hf as [[Hw _] Hin]. cbn in *. by subst.
      + intros Hin. exists (target_id t, this_user). split; [done|]. by apply elem_of_filter. }
  assert (rr <> [] -> is_Some c') as Hsome.
  { intros Hne. unfold c', fetch_contacts. destruct nc as [|i nc]; [|by destruct c; eauto]. exfalso. apply Hne. unfold rr.
    apply map_to_list_empty_iff, map_empty. intros k. apply map_lookup_filter_None. right.
    intros r _ Hk. by apply elem_of_nil in Hk. }
  assert (exists res2 lo2 tc, use_rules d this_user (default ∅ c') rr res1 lo1 [] = Ok (res2, lo2, tc) /\ bulk_inv d this_user keys ids res0 res2 lo2 /\
    lo2 ⊆ lo1 /\ (forall kv, kv ∈ rr -> kv.1 ∉ lo2) /\
    (forall kb, kb ∈ tc -> exists c t k v, kb.1 = cache_key c t k v /\ entry_ok d c t k v kb.2)) as (res2 & lo2 & tc & E2 & Hi2 & Hlo2 & Hin2 & Htc).
  { destruct (decide (rr = [])) as [Hr0|Hne].
    - rewrite Hr0. exists res1, lo1, []. split; [done|]. split; [done|]. split; [done|]. split; [set_solver|]. intros kb Hkb. by apply elem_of_nil in Hkb.
    - destruct (Hsome Hne) as [s Hs]. rewrite Hs. apply use_rules_ok; try done; [by apply Hc'|].
      intros kb Hkb. by apply elem_of_nil in Hkb. }
  rewrite E2, lift_step. cbv iota beta.
  assert (forall u k, (u, k) ∈ elements lo2 -> (u ∈ ids /\ k ∈ keys) /\ rules d !! (u, k) = None) as Hleft.
  { intros u k Hin. apply elem_of_elements in Hin. assert (u ∈ ids /\ k ∈ keys) as Huk by (apply pairs_spec; by apply Hlo1, Hlo2).
    split; [done|]. destruct (rules d !! (u, k)) as [r|] eqn:Er; [exfalso|done].
    destruct (Hin1 (u, k, r)) as [Hn|Hn]; [by apply Hrs|by apply Hn, Hlo2|]. apply (Hin2 (u, k, r)); [|done]. by apply Hrr. }
  destruct (use_defaults_ok d this_user keys ids res0 Hthis c' (elements lo2)) with (res := res2) (leftover := lo2) as (res3 & E3 & [H31 H32 H33]).
  { intros u k Hin. by destruct (Hleft u k Hin) as [[? _] ?]. }
  { intros u k Hin Hk%default_keys. destruct (Hleft u k Hin) as [[Hu Hkk] _]. subst k. destruct c as [s|]; [|by apply Hcon in Hkk].
    exists s. assert (c' = Some s) as Hc0 by (unfold c', fetch_contacts; by destruct nc). split; [done|]. apply bool_decide_ext. by apply Hc'. }
  { done. }
  rewrite E3, lift_step. cbv iota beta. eexists _, _. split; [reflexivity|].
  split; [done|]. split; [by apply cache_puts|]. split; [|done]. intros u k Hu Hk. apply H32; [done..|].
  intros Hin. apply elem_of_difference in Hin as [Hin Hn]. apply Hn. apply elem_of_list_to_set. by apply elem_of_elements.
Qed.

Lemma bulk_answers d users this_user keys c : db_ok d -> cache_ok d -> contacts_known d users this_user keys c ->
  exists res d', has_access_to_bulk users this_user keys c d = (Ok res, d') /\ same_tables d d' /\ cache_ok d' /\
    (forall t k, t ∈ users -> k ∈ keys -> answer res (target_id t) k =
       Some (if decide (ByUser (target_id t) true ∈ users) then true else allowed d this_user (target_id t) k)) /\
    (forall u, (forall t, t ∈ users -> target_id t <> u) -> res !! u = None).
Proof.
  intros Hd Hc Hcon. unfold has_access_to_bulk. destruct keys as [|k0 keys'].
  { exists ∅, d. split; [done|]. split; [done|]. split; [done|]. split; [|done]. intros t k _ Hk. by apply elem_of_nil in Hk. }
  set (keys := k0 :: keys') in *. cbv zeta. set (all := list_to_set (target_id <$> users)).
  assert (forall u, u ∈ all <-> exists t, t ∈ users /\ target_id t = u) as Hall.
  { intros u. unfold all. rewrite elem_of_list_to_set, list_elem_of_fmap. naive_solver. }
  destruct (if decide (this_user ∈ all) then _ else _) as [ids1 res1] eqn:E1.
  assert (ids1 = all ∖ {[this_user]} /\ (forall u, u ∈ ids1 -> is_Some (res1 !! u)) /\
    (this_user ∈ all -> res1 !! this_user = Some (all_true keys)) /\ (forall u, u ∉ all -> res1 !! u = None)) as (Hids1 & Hres1 & Hthis & Hres0).
  { case_decide; injection E1 as <- <-.
    - split; [done|]. split; [|split; [by rewrite lookup_insert_eq|]].
      + intros u Hu. rewrite lookup_insert_ne by set_solver. rewrite lookup_gset_to_gmap, option_guard_True by set_solver. by eexists.
      + intros u Hu. rewrite lookup_insert_ne by set_solver. by rewrite lookup_gset_to_gmap, option_guard_False by done.
    - split; [set_solver|]. split; [|split; [done|]]; intros u Hu; rewrite lookup_gset_to_gmap; [rewrite option_guard_True by done; by eexists|by rewrite option_guard_False]. }
  destruct (foldl (skip_bot keys) (ids1, res1) users) as [ids2 res2] eqn:E2. destruct (skip_bots keys users ids1 res1) as [H1 H2].
  rewrite E2 in H1, H2. cbn [fst snd] in H1, H2.
  assert (forall t k, t ∈ users -> k ∈ keys -> target_id t ∉ ids2 -> answer res2 (target_id t) k =
    Some (if decide (ByUser (target_id t) true ∈ users) then true else allowed d this_user (target_id t) k)) as Hout.
  { intros t k Ht Hk Hn. unfold answer. rewrite H2. destruct (decide (ByUser _ true ∈ users)) as [Hb|Hb]; [by apply all_true_spec|].
    assert (target_id t = this_user) as Ht'. { destruct (decide (target_id t = this_user)); [done|]. exfalso. apply Hn, H1. split; [|done].
      rewrite Hids1. apply elem_of_difference. split; [by apply Hall; exists t|by rewrite elem_of_singleton]. }
    rewrite Ht', Hthis by (rewrite <- Ht'; apply Hall; by exists t). change (all_true keys !! k = Some (allowed d this_user this_user k)). rewrite all_true_spec by done. unfold allowed.
    by rewrite Z.eqb_refl. }
  assert (forall u, (forall t, t ∈ users -> target_id t <> u) -> u ∉ ids2 /\ res2 !! u = None) as Hnone.
  { intros u Hu. assert (u ∉ all) as Hn by (rewrite Hall; intros (t & Ht & E); by apply (Hu t)). split; [rewrite H1, Hids1; set_solver|].
    rewrite H2, decide_False; [by apply Hres0|]. intros Hb. by apply (Hu _ Hb). }
  destruct (decide (ids2 = ∅)) as [He|He].
  { exists res2, d. split; [done|]. split; [done|]. split; [done|]. split; [|intros u Hu; by apply Hnone]. intros t k Ht Hk. apply Hout; [done..|]. rewrite He. set_solver. }
  destruct (ask_rules_spec d users this_user keys c ids2 res2) as (res & d' & E & Hs & Hc' & Hin & Hfr); try done.
  - intros Hi. apply H1 in Hi as [Hi _]. rewrite Hids1 in Hi. set_solver.
  - intros u Hu. apply H1 in Hu as [Hu _]. rewrite Hids1 in Hu. apply elem_of_difference in Hu as [Hu _]. by apply Hall.
  - intros u Hu. rewrite H2. destruct (decide (ByUser u true ∈ users)); [by eexists|]. apply H1 in Hu as [Hu _]. by apply Hres1.
  - exists res, d'. split; [done|]. split; [done|]. split; [done|]. split; [|intros u [Hn Hr]%Hnone; by rewrite Hfr]. intros t k Ht Hk.
    destruct (decide (target_id t ∈ ids2)) as [Hi|Hn].
    + rewrite Hin by done. rewrite decide_False; [done|]. by apply H1 in Hi as [_ ?].
    + unfold answer. rewrite Hfr by done. by apply Hout.
Qed.

Lemma bulk_spec d users this_user keys c : db_ok d -> cache_ok d -> contacts_known d users this_user keys c ->
  exists res d', has_access_to_bulk users this_user keys c d = (Ok res, d') /\ same_tables d d' /\ cache_ok d' /\
    (forall t k, t ∈ users -> k ∈ keys -> answer res (target_id t) k =
       Some (if decide (ByUser (target_id t) true ∈ users) then true else allowed d this_user (target_id t) k)).
Proof. intros Hd Hc Hcon. destruct (bulk_answers d users this_user keys c Hd Hc Hcon) as (res & d' & E & Hs & Hc' & Ha & _). by exists res, d'. Qed.

(** ** Concurrent requests *)
(** A request of [has_access_to] that waits for the database: the rule to be read, or the answer to be cached *)
Inductive waiting :=
  | Reading (current target : Z) (k : PrivacyRuleKeyType) (id version : Z)
  | Storing (current target : Z) (k : PrivacyRuleKeyType) (version : Z) (access : bool).

(** Every request runs up to its next wait; contacts do not change. *)
Inductive privacy_step : PrivacyDb * list waiting -> PrivacyDb * list waiting -> Prop :=
  | step_lookup c t k id v d w : access_lookup c t k d = (Ok (ReadRule id v), d) -> privacy_step (d, w) (d, w ++ [Reading c t k id v])
  | step_read i c t k id v b d w : w !! i = Some (Reading c t k id v) -> access_read c t id d = (Ok b, d) ->
      privacy_step (d, w) (d, <[i := Storing c t k v b]> w)
  | step_store i c t k v b d w : w !! i = Some (Storing c t k v b) -> privacy_step (d, w) ((access_store c t k v b d).2, delete i w)
  | step_set access_ok user k rs d w : privacy_step (d, w) ((set_privacy access_ok user k rs d).2, w)
  | step_defaults user d w : privacy_step (d, w) ((create_defaults_for_user user d).2, w)
  | step_bulk users this keys c d w : contacts_known d users this keys c -> privacy_step (d, w) ((has_access_to_bulk users this keys c d).2, w).

Definition waiting_ok (d : PrivacyDb) (x : waiting) : Prop :=
  match x with
  | Reading c t k id v => exists r, rules d !! (t, k) = Some r /\ r_id r = id /\ v <= r_version r
  | Storing c t k v b => entry_ok d c t k v b
  end.
Definition system_ok (s : PrivacyDb * list waiting) : Prop := db_ok s.1 /\ cache_ok s.1 /\ Forall (waiting_ok s.1) s.2.

Lemma waiting_extends d d' w : extends d d' -> Forall (waiting_ok d) w -> Forall (waiting_ok d') w.
Proof.
  intros He Hw. eapply Forall_impl; [exact Hw|]. intros [c t k id v|c t k v b]; cbn.
  - intros (r & Hr & <- & Hv). destruct (ext_rule _ _ He _ _ Hr) as (r' & Hr' & Hi & Hv'). exists r'. split; [done|]. split; [done|lia].
  - apply (ext_entry _ _ He).
Qed.

Lemma system_extends d d' w w' : system_ok (d, w) -> extends d d' -> (Forall (waiting_ok d') w -> Forall (waiting_ok d') w') -> system_ok (d', w').
Proof.
  intros (Hd & Hc & Hw) He Hw'. split; [by apply (ext_ok _ _ He)|]. split; [by apply (ext_cache _ _ He)|]. apply Hw'.
  by eapply waiting_extends.
Qed.

Lemma set_privacy_extends access_ok user k rs d : db_ok d -> extends d (set_privacy access_ok user k rs d).2.
Proof.
  intros Hd. unfold set_privacy, ensure. destruct (length rs <=? 100)%nat; [|by apply extends_refl].
  destruct (update_spec access_ok d user k rs Hd) as (id & d' & r & E & Hup). apply extends_updated in Hup; [|done].
  unfold mbind, M_bind, mret, M_ret. cbn. rewrite E. done.
Qed.

Lemma privacy_step_ok s s' : system_ok s -> privacy_step s s' -> system_ok s'.
Proof.
  intros Hs Hstep. pose proof Hs as (Hd & Hc & Hw).
  destruct Hstep as [c t k id v d w Hl|i c t k id v b d w Hi Hr|i c t k v b d w Hi|ok user k rs d w|user d w|users this keys c d w Hcon]; cbn in Hd, Hc, Hw.
  - apply lookup_read in Hl as (_ & r & Hr & <- & <-). eapply system_extends; [exact Hs|by apply extends_refl|]. intros Hw'.
    apply Forall_app. split; [done|]. apply Forall_singleton. cbn. exists r. repeat split; [done|lia].
  - eapply system_extends; [exact Hs|by apply extends_refl|]. intros Hw'. apply Forall_insert; [done|]. cbn.
    rewrite Forall_lookup in Hw. destruct (Hw i _ Hi) as (r & Hrr & <- & Hv). rewrite (read_rule d c t k r Hd Hrr) in Hr.
    injection Hr as <-. by exists r.
  - rewrite Forall_lookup in Hw. pose proof (Hw i _ Hi) as He. cbn in He.
    eapply system_extends; [exact Hs| |intros Hw'; by apply Forall_delete]. apply extends_cache; [done..|]. by apply cache_put.
  - eapply system_extends; [exact Hs|by apply set_privacy_extends|done].
  - eapply system_extends; [exact Hs|by apply extends_defaults|done].
  - destruct (bulk_spec d users this keys c Hd Hc Hcon) as (res & d' & E & Ht & Hc' & _). rewrite E. cbn.
    eapply system_extends; [exact Hs|by apply extends_cache|done].
Qed.

(** C15: an answer about access is never older than the rule. From tables in order and an empty cache, whatever
    requests read rules, wait, set rules, add default rules or ask in bulk, and however they interleave (a rule may change
    between the moments in which a request reads its version, reads it, and caches the answer): every cached answer for
    the present version of a rule is what the rule says now, so that [has_access_to] and a bulk
    question return what the tables say. Contacts do not change meanwhile. *)
Theorem privacy_cache_coherent d s : db_ok d -> cache d = ∅ -> rtc privacy_step (d, []) s ->
  cache_ok s.1 /\ (forall c t k, (has_access_to c t k s.1).1 = Ok (allowed s.1 c t k)) /\
  (forall users this keys c, contacts_known s.1 users this keys c -> exists res, (has_access_to_bulk users this keys c s.1).1 = Ok res /\
     forall t k, t ∈ users -> k ∈ keys -> ByUser (target_id t) true ∉ users -> answer res (target_id t) k = Some (allowed s.1 this (target_id t) k)).
Proof.
  intros Hd Hc Hs. assert (system_ok (d, [])) as H0.
  { split; [done|]. split; [|by apply Forall_nil]. intros c t k v b. cbn. by rewrite Hc, lookup_empty. }
  assert (system_ok s) as (Hd' & Hc' & _).
  { remember (d, []) as s0 eqn:E. clear E Hd Hc. induction Hs as [s|s1 s2 s3 Hstep _ IH]; [done|]. apply IH. by eapply privacy_step_ok. }
  split; [done|]. split.
  - intros c t k. destruct (has_access_spec s.1 c t k Hd' Hc') as (d' & E & _). by rewrite E.
  - intros users this keys c Hcon. destruct (bulk_spec s.1 users this keys c Hd' Hc' Hcon) as (res & d' & E & _ & _ & Ha).
    exists res. rewrite E. split; [done|]. intros t k Ht Hk Hb. rewrite Ha by done. by rewrite decide_False.
Qed.


(** ** Setting, showing and setting again *)
(** What the parsed rules say to a user other than their owner *)
Definition says (p : parsed_rules) (accounts_ : gset Z) (viewer : Z) (contact : bool) : bool :=
  if decide (viewer ∈ accounts_ /\ viewer ∈ pr_allow p) then true
  else if decide (viewer ∈ accounts_ /\ viewer ∈ pr_disallow p) then false
  else pr_all p || pr_contacts p && contact.

Lemma updated_allowed user k p d d' r viewer : updated user k p d d' r -> viewer <> user ->
  allowed d' viewer user k = says p (accounts d) viewer (is_contact d user viewer).
Proof.
  intros [Hr [Ha Hc] _ _ _ Hex _ (Hs & _) _] Hne. unfold allowed, says. rewrite (proj2 (Z.eqb_neq _ _)) by done. rewrite Hr.
  unfold rule_allows, is_contact. rewrite Hex, Ha, Hc, Hs.
  destruct (decide (viewer ∈ accounts d)) as [Hacc|Hacc].
  - destruct (decide (viewer ∈ pr_allow p)) as [Hal|Hal].
    + rewrite decide_True, bool_decide_eq_true_2 by set_solver. by rewrite decide_True.
    + rewrite (decide_False (P := _ /\ viewer ∈ pr_allow p)) by tauto. destruct (decide (viewer ∈ pr_disallow p)) as [Hdi|Hdi].
      * rewrite decide_True, bool_decide_eq_false_2 by set_solver. by rewrite decide_True.
      * rewrite decide_False by set_solver. by rewrite decide_False by tauto.
  - rewrite !decide_False by set_solver. done.
Qed.

Lemma updated_allowed_other user k p d d' r viewer owner k' : db_ok d -> updated user k p d d' r -> (owner, k') <> (user, k) ->
  allowed d' viewer owner k' = allowed d viewer owner k'.
Proof.
  intros Hd Hup Hne. unfold allowed. destruct (viewer =? owner); [done|]. rewrite (up_others _ _ _ _ _ _ Hup) by done.
  unfold is_contact. destruct (up_same _ _ _ _ _ _ Hup) as (-> & _). destruct (rules d !! (owner, k')) as [r1|] eqn:E; [|done].
  unfold rule_allows. rewrite (up_other_exceptions _ _ _ _ _ _ Hup); [done|]. intros Hid.
  destruct (rules d !! (user, k)) as [r0|] eqn:E0.
  - destruct (up_version _ _ _ _ _ _ Hup r0 E0) as [Hid' _]. apply Hne. eapply (ids_unique d Hd); [done|done|congruence].
  - pose proof (up_new _ _ _ _ _ _ Hup E0). pose proof (ids_used d Hd _ _ E). lia.
Qed.

Section Meaning.
Context (access_ok : Z -> Z -> bool).

Lemma uids_no_self user us s : user ∉ s -> user ∉ _inputusers_to_uids access_ok user us s.
Proof.
  revert s. induction us as [|u us IH]; intros s Hs; [done|]. apply IH. destruct u as [id hash|]; cbn; [|done].
  destruct (id =? user) eqn:E; [done|]. b2p. destruct (access_ok id hash); [|done]. set_solver.
Qed.
Lemma parse_no_self user rs : (user ∉ pr_allow (parse_rules access_ok user rs)) /\ (user ∉ pr_disallow (parse_rules access_ok user rs)).
Proof.
  unfold parse_rules. assert ((user ∉ pr_allow (MkParsed false false ∅ ∅)) /\ (user ∉ pr_disallow (MkParsed false false ∅ ∅))) as H by (cbn; set_solver).
  revert H. generalize (MkParsed false false ∅ ∅) as p. induction rs as [|r rs IH]; intros p H; [done|]. apply IH.
  destruct r; cbn; try done; destruct H; split; try done; by apply uids_no_self.
Qed.

(** The rules a client shows, sent back *)
Definition as_input (hash : Z -> Z) (r : TLPrivacyRule) : InputPrivacyRule :=
  match r with
  | PrivacyValueAllowAll => InputPrivacyValueAllowAll
  | PrivacyValueDisallowAll => OtherInputRule
  | PrivacyValueAllowContacts => InputPrivacyValueAllowContacts
  | PrivacyValueAllowUsers us => InputPrivacyValueAllowUsers ((fun u => InputUser u (hash u)) <$> us)
  | PrivacyValueDisallowUsers us => InputPrivacyValueDisallowUsers ((fun u => InputUser u (hash u)) <$> us)
  end.

Lemma uids_of hash user us s : (forall u, u ∈ us -> u <> user /\ access_ok u (hash u) = true) ->
  _inputusers_to_uids access_ok user ((fun u => InputUser u (hash u)) <$> us) s = list_to_set us ∪ s.
Proof.
  revert s. induction us as [|u us IH]; intros s Hus; cbn; [set_solver|]. destruct (Hus u) as [Hne Hok]; [by left|].
  rewrite (proj2 (Z.eqb_neq _ _)), Hok by done. unfold _inputusers_to_uids in IH. rewrite IH by (intros; apply Hus; by right). set_solver.
Qed.

Lemma parse_shown hash user r excs : (forall e, e ∈ excs -> e.1 <> user /\ access_ok e.1 (hash e.1) = true) ->
  parse_rules access_ok user (as_input hash <$> to_tl_rules r excs) =
  MkParsed (allow_all r) (negb (allow_all r) && allow_contacts r)
    (list_to_set (filter (fun e => e.2 = true) excs).*1) (list_to_set (filter (fun e => e.2 = false) excs).*1).
Proof.
  intros He. assert (forall b u, u ∈ (filter (fun e => e.2 = b) excs).*1 -> u <> user /\ access_ok u (hash u) = true) as Hb.
  { intros b u Hu. apply list_elem_of_fmap in Hu as (e & -> & [_ Hin]%list_elem_of_filter). by apply He. }
  pose proof (Hb true) as H1. pose proof (Hb false) as H2. unfold to_tl_rules, parse_rules.
  set (us := (filter (fun e => e.2 = true) excs).*1) in *. set (ds := (filter (fun e => e.2 = false) excs).*1) in *.
  rewrite !fmap_app, !foldl_app.
  assert (foldl (parse_rule access_ok user) (MkParsed false false ∅ ∅) (as_input hash <$>
    (if allow_all r then [PrivacyValueAllowAll] else if allow_contacts r then [PrivacyValueDisallowAll; PrivacyValueAllowContacts]
     else [PrivacyValueDisallowAll])) = MkParsed (allow_all r) (negb (allow_all r) && allow_contacts r) ∅ ∅) as ->.
  { by destruct (allow_all r), (allow_contacts r). }
  assert (forall p, pr_allow p = ∅ -> foldl (parse_rule access_ok user) p (as_input hash <$> match us with [] => [] | _ => [PrivacyValueAllowUsers us] end)
    = MkParsed (pr_all p) (pr_contacts p) (list_to_set us) (pr_disallow p)) as Hu.
  { intros p Hp. destruct us as [|u us'] eqn:Eu; [by destruct p; cbn in *; subst|]. rewrite <- Eu in *. cbn. f_equal.
    rewrite uids_of by done. rewrite Hp. set_solver. }
  rewrite Hu by done. cbn [pr_all pr_contacts pr_disallow].
  destruct ds as [|v ds'] eqn:Ed; [done|]. rewrite <- Ed in *. cbn. f_equal. rewrite uids_of by done. set_solver.
Qed.

Lemma exceptions_of_spec d i u a : (u, a) ∈ exceptions_of i d <-> exceptions d !! (i, u) = Some a.
Proof.
  unfold exceptions_of. rewrite list_elem_of_fmap. split.
  - intros ([[j w] b] & [= -> ->] & Hin). apply elem_of_map_to_list, map_lookup_filter_Some in Hin as [Hin Hj]. cbn in *. by subst.
  - intros H. exists (i, u, a). split; [done|]. apply elem_of_map_to_list. by apply map_lookup_filter_Some.
Qed.
End Meaning.

(** What setting rules means. [update_from_tl] of a list of rules succeeds; afterwards every user but the owner gets
    access to the key exactly as the list says (a user named by both kinds of exceptions is allowed, exceptions come
    before the general rule, the general rule is everybody if it is in the list, else the contacts if they are, else nobody), and the access
    to every other key and user is as before. The rules shown by [get_privacy], sent back with the right access
    hashes, leave everybody's access unchanged. *)
Theorem set_privacy_meaning access_ok hash user k rs d : db_ok d -> cache_ok d -> (forall u, access_ok u (hash u) = true) ->
  exists id d', update_from_tl access_ok user k rs d = (Ok id, d') /\
    (forall viewer, viewer <> user -> (has_access_to viewer user k d').1 =
       Ok (says (parse_rules access_ok user rs) (accounts d) viewer (is_contact d user viewer))) /\
    (forall viewer owner k', (owner, k') <> (user, k) -> (has_access_to viewer owner k' d').1 = (has_access_to viewer owner k' d).1) /\
    exists shown id' d'', get_privacy_internal k user d' = (Ok shown, d') /\
      update_from_tl access_ok user k (as_input hash <$> shown) d' = (Ok id', d'') /\
      forall viewer owner k', (has_access_to viewer owner k' d'').1 = (has_access_to viewer owner k' d').1.
Proof.
  intros Hd Hc Hok. destruct (update_spec access_ok d user k rs Hd) as (id & d' & r & E & Hup). exists id, d'. split; [done|].
  pose proof (extends_updated _ _ _ _ _ _ Hd Hup) as He. pose proof (ext_ok _ _ He) as Hd'. pose proof (ext_cache _ _ He Hc) as Hc'.
  assert (forall e c t k', db_ok e -> cache_ok e -> (has_access_to c t k' e).1 = Ok (allowed e c t k')) as Hacc.
  { intros e c t k' H1 H2. destruct (has_access_spec e c t k' H1 H2) as (e' & Ee & _). by rewrite Ee. }
  split; [|split].
  - intros viewer Hne. rewrite Hacc by done. f_equal. by eapply updated_allowed.
  - intros viewer owner k' Hne. rewrite !Hacc by done. f_equal. by eapply updated_allowed_other.
  - set (shown := to_tl_rules r (exceptions_of (r_id r) d')).
    destruct (update_spec access_ok d' user k (as_input hash <$> shown) Hd') as (id' & d'' & r' & E' & Hup'). exists shown, id', d''.
    pose proof (extends_updated _ _ _ _ _ _ Hd' Hup') as He'.
    split; [unfold get_privacy_internal, gets; by rewrite (up_rule _ _ _ _ _ _ Hup)|]. split; [done|]. intros viewer owner k'.
    rewrite !Hacc; [|done..|apply (ext_ok _ _ He')|by apply (ext_cache _ _ He')]. f_equal.
    destruct (decide ((owner, k') = (user, k))) as [[= -> ->]|Hne]; [|by eapply updated_allowed_other].
    destruct (decide (viewer = user)) as [->|Hne]; [unfold allowed; by rewrite Z.eqb_refl|].
    rewrite (updated_allowed _ _ _ _ _ _ _ Hup' Hne). unfold shown. rewrite parse_shown.
    2: { intros [u a] Hin. split; [|done]. apply exceptions_of_spec in Hin. rewrite (up_exceptions _ _ _ _ _ _ Hup) in Hin.
         case_decide as Hu; [|done]. cbn. intros ->. destruct (parse_no_self access_ok user rs). set_solver. }
    unfold allowed. rewrite (proj2 (Z.eqb_neq _ _)), (up_rule _ _ _ _ _ _ Hup) by done. unfold rule_allows, says. cbn.
    assert (forall b, viewer ∈ (list_to_set (filter (fun e => e.2 = b) (exceptions_of (r_id r) d')).*1 : gset Z) <->
      exceptions d' !! (r_id r, viewer) = Some b) as Hin.
    { intros b. rewrite elem_of_list_to_set, list_elem_of_fmap. split.
      - intros ([u a] & -> & [Ha Hx]%list_elem_of_filter). cbn in *. subst. by apply exceptions_of_spec.
      - intros Hx. exists (viewer, b). split; [done|]. apply list_elem_of_filter. split; [done|]. by apply exceptions_of_spec. }
    destruct (exceptions d' !! (r_id r, viewer)) as [b|] eqn:Eb.
    + destruct (exc_used d' Hd' _ _ _ Eb) as [_ Hacc']. destruct b.
      * rewrite decide_True; [done|]. split; [done|]. by apply Hin.
      * rewrite decide_False, decide_True; [done| |]; [split; [done|]; by apply Hin|]. intros [_ Hx]. apply Hin in Hx. done.
    + rewrite !decide_False; [|intros [_ Hx]; apply Hin in Hx; done..]. by destruct (allow_all r).
Qed.

(** Where the code does not do what it means to. A contact deleted after his access was asked for keeps the access
    that only contacts have: the cached answer is under a version that contacts do not change. Setting a key that has no
    form in [_PRIVACY_ENUM_KEY_TO_TL] (NO_PAID_MESSAGES, GIFTS_AUTOSAVE) stores the rule and then raises
    [KeyError]. A bulk question about the phone number of a user without a rule raises [TypeError] when the
    contacts are not given and no rule had to be read. *)
Theorem privacy_hazards access_ok d : db_ok d -> cache d = ∅ ->
  (forall c t k r, c <> t -> rules d !! (t, k) = Some r -> allow_all r = false -> allow_contacts r = true ->
     exceptions d !! (r_id r, c) = None -> (t, c) ∈ contacts d ->
     let d' := (delete_contact_rows t {[c]} (has_access_to c t k d).2).2 in
     allowed d' c t k = false /\ (has_access_to c t k d').1 = Ok true) /\
  (forall user k rs, k ∉ _PRIVACY_ENUM_KEY_TO_TL -> (length rs <= 100)%nat -> exists d' r,
     set_privacy access_ok user k rs d = (Raise KeyError, d') /\ rules d' !! (user, k) = Some r /\
     allow_all r = pr_all (parse_rules access_ok user rs)) /\
  (forall this u, u <> this -> rules d !! (u, PHONE_NUMBER) = None ->
     has_access_to_bulk [ById u] this [PHONE_NUMBER] None d = (Raise TypeError, d)).
Proof.
  intros Hd Hc. split; [|split].
  - intros c t k r Hne Hr Ha Hcon Hex Hin.
    assert (has_access_to c t k d = (Ok true, (access_store c t k (r_version r) true d).2)) as ->.
    { unfold has_access_to. assert (access_lookup c t k d = (Ok (ReadRule (r_id r) (r_version r)), d)) as El.
      { unfold access_lookup, gets. by rewrite (proj2 (Z.eqb_neq _ _)), Hr, Hc, lookup_empty. }
      rewrite (M_bind_step _ _ _ _ _ El). rewrite (M_bind_step _ _ _ _ _ (read_rule d c t k r Hd Hr)).
      unfold rule_allows, is_contact. by rewrite Hex, Ha, Hcon, bool_decide_eq_true_2. }
    cbn. split.
    + unfold allowed. rewrite (proj2 (Z.eqb_neq _ _)) by done. cbn. rewrite Hr. unfold rule_allows, is_contact. cbn. rewrite Hex, Ha, Hcon. cbn.
      apply bool_decide_eq_false_2. rewrite elem_of_filter. intros [Hn _]. apply Hn. cbn. set_solver.
    + set (d' := with_contacts _ _). assert (access_lookup c t k d' = (Ok (Known true), d')) as El.
      { unfold access_lookup, gets. rewrite (proj2 (Z.eqb_neq _ _)) by done. cbn. by rewrite Hr, lookup_insert_eq. }
      unfold has_access_to. by rewrite (M_bind_step _ _ _ _ _ El).
  - intros user k rs Hk Hl. destruct (update_spec access_ok d user k rs Hd) as (id & d' & r & E & Hup). exists d', r.
    split; [|split; [apply (up_rule _ _ _ _ _ _ Hup)|apply (up_allow _ _ _ _ _ _ Hup)]].
    unfold set_privacy, ensure. rewrite (proj2 (Nat.leb_le _ _)) by done. unfold mbind, M_bind, mret, M_ret. rewrite E.
    unfold lift_result, key_to_tl. by rewrite decide_False.
  - intros this u Hne Hno. unfold has_access_to_bulk. rewrite decide_False by set_solver. cbn [foldl skip_bot is_bot].
    rewrite decide_False by set_solver. unfold ask_rules. unfold get at 1, mbind at 1, M_bind at 1. cbv iota beta zeta.
    assert (filter (fun kv : rule_row => kv.1.1 ∈ (list_to_set (target_id <$> [ById u]) : gset Z) /\ kv.1.2 ∈ [PHONE_NUMBER]) (rules d) = ∅) as ->.
    { apply map_empty. intros [w k]. apply map_lookup_filter_None. right. intros r Hr [Hw Hk]. cbn in *.
      assert (w = u) as -> by set_solver. apply list_elem_of_singleton in Hk as ->. congruence. }
    rewrite map_to_list_empty. cbn [fmap list_fmap use_cached]. rewrite lift_step. unfold fetch_contacts.
    assert (filter (fun kv : rule_row => r_id kv.2 ∈ @nil Z) (rules d) = ∅) as ->.
    { apply map_empty. intros uk. apply map_lookup_filter_None. right. intros r _ Hn. by apply elem_of_nil in Hn. }
    rewrite map_to_list_empty. cbn [use_rules]. rewrite lift_step.
    set (lo := list_to_set _). assert (lo = {[(u, PHONE_NUMBER)]}) as ->.
    { apply leibniz_equiv. intros [w k]. unfold lo. rewrite pairs_spec. set_solver. }
    by rewrite elements_singleton.
Qed.

(** ** A small database: 1 shows his birthday to his contacts, of whom 2 is one *)
Definition a_privacy_db : PrivacyDb := MkPrivacyDb {[ (1, BIRTHDAY) := MkRule 10 false true 4 ]} {[ (10, 3) := true ]} {[ (1, 2) ]}
  {[1; 2; 3]} ∅ 11.
Lemma a_privacy_ok : db_ok a_privacy_db.
Proof.
  split; cbn.
  - by intros ? ? ? ? [<- <-]%lookup_singleton_Some [<- <-]%lookup_singleton_Some.
  - by intros ? ? [<- <-]%lookup_singleton_Some.
  - intros i u a [[= <- <-] _]%lookup_singleton_Some. by vm_compute.
Qed.
Lemma a_cache_ok : cache_ok a_privacy_db.
Proof. intros c t k v b. cbn. by rewrite lookup_empty. Qed.

Lemma privacy_cache_coherent_witness :
  let s := ((set_privacy (fun _ _ => true) 1 BIRTHDAY [InputPrivacyValueAllowUsers [InputUser 3 0]] a_privacy_db).2,
            [Reading 2 1 BIRTHDAY 10 4]) in
  cache_ok s.1 /\ (forall c t k, (has_access_to c t k s.1).1 = Ok (allowed s.1 c t k)) /\
  (forall users this keys c, contacts_known s.1 users this keys c -> exists res, (has_access_to_bulk users this keys c s.1).1 = Ok res /\
     forall t k, t ∈ users -> k ∈ keys -> ByUser (target_id t) true ∉ users -> answer res (target_id t) k = Some (allowed s.1 this (target_id t) k)).
Proof.
  apply (privacy_cache_coherent a_privacy_db); [exact a_privacy_ok|reflexivity|].
  eapply rtc_l; [apply (step_lookup 2 1 BIRTHDAY 10 4); by vm_compute|]. eapply rtc_l; [apply step_set|]. apply rtc_refl.
Defined.


Lemma set_privacy_meaning_witness : exists id d',
  update_from_tl (fun _ _ => true) 1 BIRTHDAY [InputPrivacyValueAllowUsers [InputUser 3 0]] a_privacy_db = (Ok id, d') /\
  (has_access_to 2 1 BIRTHDAY d').1 = Ok false /\ (has_access_to 3 1 BIRTHDAY d').1 = Ok true.
Proof.
  destruct (set_privacy_meaning (fun _ _ => true) (fun _ => 0) 1 BIRTHDAY [InputPrivacyValueAllowUsers [InputUser 3 0]] a_privacy_db
    a_privacy_ok a_cache_ok (fun _ => eq_refl)) as (id & d' & E & H & _).
  exists id, d'. split; [exact E|]. split; (rewrite H by done; by vm_compute).
Defined.

Lemma privacy_hazards_witness : let d' := (delete_contact_rows 1 {[2]} (has_access_to 2 1 BIRTHDAY a_privacy_db).2).2 in
  allowed d' 2 1 BIRTHDAY = false /\ (has_access_to 2 1 BIRTHDAY d').1 = Ok true.
Proof.
  destruct (privacy_hazards (fun _ _ => true) a_privacy_db a_privacy_ok eq_refl) as (H & _ & _).
  apply (H 2 1 BIRTHDAY (MkRule 10 false true 4)); by vm_compute.
Defined.
