(* ===== verification/Peers.v ===== *)
(** Peers ([piltover/db/models/peer.py]): the rows that say which dialog partner a user has, how the input peers of
    requests are resolved to them, and how they are shown.

    Tables are maps; access hashes are those of [AccessHash.v]. *)
From S2P Require Import Prelude PyBytes AccessHash.

Inductive PeerType := SELF | USER | CHAT | CHANNEL.
#[export] Instance PeerType_eq_dec : EqDecision PeerType.
Proof. solve_decision. Defined.

(** Input users, peers and channels, as far as the code tells them apart *)
Inductive InputPeer :=
  | InputEmpty                                   (* InputUserEmpty, InputPeerEmpty, InputChannelEmpty *)
  | InputSelf                                    (* InputPeerSelf, InputUserSelf *)
  | InputUser (user access_hash : Z)             (* InputPeerUser, InputUser *)
  | InputUserFromMessage (user : Z)
  | InputChat (chat : Z)
  | InputChannel (channel access_hash : Z)       (* InputPeerChannel, InputChannel *)
  | InputOther.

Record Peer := MkPeer {
  p_owner : option Z; p_type : PeerType; p_user : option Z; p_chat : option Z; p_channel : option Z;
  p_blocked_at : option Z; p_out_max_read_id : Z }.
Record UserRow := MkUserRow { bot : bool; user_deleted : bool }.
Record ChatRow := MkChatRow { chat_deleted : bool; migrated : bool }.

Record PeerDb := MkPeerDb {
  peers : gmap Z Peer; users : gmap Z UserRow; chats : gmap Z ChatRow;
  channels : gmap Z bool;                        (* deleted *)
  channel_members : gset (Z * Z);                (* channel and user, not left *)
  next_peer : Z }.
Abbreviation D := (M PeerDb).

Definition with_peers (p : gmap Z Peer) (n : Z) (d : PeerDb) : PeerDb :=
  MkPeerDb p (users d) (chats d) (channels d) (channel_members d) n.

(** ** Queries *)
(** [get_or_none] of the rows that satisfy the test *)
Definition matching (f : Z * Peer -> bool) (d : PeerDb) : list (Z * Peer) := map_to_list (filter (fun kv => f kv = true) (peers d)).
Definition get_or_none (f : PeerDb -> Z * Peer -> bool) : D (option (Z * Peer)) := fun d =>
  match matching (f d) d with [] => (Ok None, d) | [kv] => (Ok (Some kv), d) | _ => (Raise RuntimeError, d) end.
(** [get] *)
Definition get_peer (f : PeerDb -> Z * Peer -> bool) : D (Z * Peer) :=
  p ← get_or_none f; match p with Some p => mret p | None => raise DoesNotExist end.

Definition owner_user (owner user : Z) (kv : Z * Peer) : bool := bool_decide (p_owner kv.2 = Some owner) && bool_decide (p_user kv.2 = Some user).
Definition owner_chat (owner chat : Z) (kv : Z * Peer) : bool := bool_decide (p_owner kv.2 = Some owner) && bool_decide (p_chat kv.2 = Some chat).
Definition of_channel (channel : Z) (kv : Z * Peer) : bool := bool_decide (p_channel kv.2 = Some channel).
Definition is_user_with (f : UserRow -> bool) (d : PeerDb) (user : Z) : bool := default false (f <$> users d !! user).
Definition chat_with (f : ChatRow -> bool) (d : PeerDb) (chat : Z) : bool := default false (f <$> chats d !! chat).
Definition live_channel (d : PeerDb) (channel : Z) : bool := bool_decide (channels d !! channel = Some false).

Section Resolve.
Context (hmac_sha256 : bytes -> bytes) (payload : signed_kind -> Z -> Z -> Z -> bytes).
(** [request_ctx.get().auth_id] *)
Context (auth_id : Z).
#[local] Abbreviation check k user target h := (check_access_hash hmac_sha256 payload k user auth_id target h).

Definition input_is_self (user : Z) (i : InputPeer) : bool :=
  match i with InputSelf => true | InputUser u _ | InputUserFromMessage u => u =? user | _ => false end.

Definition type_and_id_from_input (user : Z) (i : InputPeer) : result (option (PeerType * Z)) :=
  match i with
  | InputEmpty => Ok None
  | InputSelf => Ok (Some (SELF, user))
  | InputUser u h =>
    if u =? user then Ok (Some (SELF, user))
    else ok ← check KUser user u h; if (ok : bool) then Ok (Some (USER, u)) else Ok None
  | InputChat c => Ok (Some (CHAT, norm_id c))
  | InputChannel c h =>
    let c := norm_id c in
    if h =? 0 then Ok (Some (CHANNEL, c))
    else ok ← check KChannel user c h; if (ok : bool) then Ok (Some (CHANNEL, c)) else Ok None
  | InputUserFromMessage _ | InputOther => Raise (ErrorRpc 400 "PEER_ID_NOT_SUPPORTED")
  end.

Definition type_and_id_from_input_raise (user : Z) (i : InputPeer) (error_message : string) (error_code : Z) : result (PeerType * Z) :=
  info ← type_and_id_from_input user i;
  match info with Some info => Ok info | None => Raise (ErrorRpc error_code error_message) end.

(** A query that is not run yet *)
Inductive query :=
  | GetSelf
  | GetUser (user : Z) (allow_bot : bool)
  | GetChat (chat : Z) (allow_migrated : bool)
  | GetMemberChannel (channel : Z)
  | GetChannel (channel : Z).

Definition run_query (user : Z) (q : query) : D (option (Z * Peer)) :=
  match q with
  | GetSelf => p ← get_peer (fun _ => owner_user user user); mret (Some p)
  | GetUser u allow_bot => get_or_none (fun d kv => owner_user user u kv && (allow_bot || is_user_with (fun r => negb (bot r)) d u))
  | GetChat c allow_migrated => get_or_none (fun d kv => owner_chat user c kv &&
      chat_with (fun r => negb (chat_deleted r) && (allow_migrated || negb (migrated r))) d c)
  | GetMemberChannel c => get_or_none (fun d kv => of_channel c kv && live_channel d c && bool_decide ((c, user) ∈ channel_members d))
  | GetChannel c => get_or_none (fun d kv => of_channel c kv && live_channel d c)
  end.

Definition excluded (peer_types : option (list PeerType)) (t : PeerType) : bool :=
  match peer_types with Some ts => bool_decide (t ∉ ts) | None => false end.

Definition query_from_input_peer (user : Z) (i : InputPeer) (allow_bot allow_migrated_chat : bool) (peer_types : option (list PeerType))
    : result (option query) :=
  match i with
  | InputEmpty => Ok None
  | InputSelf => if excluded peer_types SELF then Ok None else Ok (Some GetSelf)
  | InputUser u h =>
    if u =? user then if excluded peer_types SELF then Ok None else Ok (Some GetSelf)
    else if excluded peer_types USER then Ok None
    else ok ← check KUser user u h; if (ok : bool) then Ok (Some (GetUser u allow_bot)) else Ok None
  | InputChat c => if excluded peer_types CHAT then Ok None else Ok (Some (GetChat (norm_id c) allow_migrated_chat))
  | InputChannel c h =>
    if excluded peer_types CHANNEL then Ok None
    else let c := norm_id c in
    if h =? 0 then Ok (Some (GetMemberChannel c))
    else ok ← check KChannel user c h; if (ok : bool) then Ok (Some (GetChannel c)) else Ok None
  | InputUserFromMessage _ | InputOther => Raise (ErrorRpc 400 "PEER_ID_NOT_SUPPORTED")
  end.

(** [create]: the table refuses a second row of an owner and user or chat, and of a channel. *)
Definition conflicts (p q : Peer) : bool :=
  (bool_decide (is_Some (p_owner p)) && bool_decide (p_owner p = p_owner q) &&
     ((bool_decide (is_Some (p_user p)) && bool_decide (p_user p = p_user q)) || (bool_decide (is_Some (p_chat p)) && bool_decide (p_chat p = p_chat q))))
  || (bool_decide (is_Some (p_channel p)) && bool_decide (p_channel p = p_channel q)).
Definition create_peer (p : Peer) : D (Z * Peer) := fun d =>
  if bool_decide (map_Forall (fun _ q => conflicts p q = false) (peers d))
  then (Ok (next_peer d, p), with_peers (<[next_peer d := p]> (peers d)) (next_peer d + 1) d)
  else (Raise RuntimeError, d).

Definition get_or_create_for_user (owner user : Z) : D (Z * Peer) :=
  p ← get_or_none (fun _ => owner_user owner user);
  match p with
  | Some p => mret p
  | None => create_peer (MkPeer (Some owner) USER (Some user) None None None 0)
  end.

(** The answer when there is no query: a known user that is deleted *)
Definition deleted_user_peer (user : Z) (i : InputPeer) (allow_bot : bool) : D (option (Z * Peer)) :=
  match i with
  | InputUser u _ =>
    p ← run_query user (GetUser u allow_bot);
    d ← get;
    match p with
    | Some p => if is_user_with user_deleted d u then mret (Some p) else mret None
    | None => mret None
    end
  | _ => mret None
  end.

(** The peer of another user, created if the user is there *)
Definition user_peer (user u : Z) (q : query) (allow_bot : bool) : D (option (Z * Peer)) :=
  p ← run_query user q;
  match p with
  | Some p => mret (Some p)
  | None =>
    d ← get;
    match users d !! u with
    | None => mret None
    | Some target =>
      if user_deleted target || (negb allow_bot && bot target) then mret None
      else p ← get_or_create_for_user user u; mret (Some p)
    end
  end.

Definition _from_input_peer (user : Z) (i : InputPeer) (allow_bot allow_migrated_chat : bool) (peer_types : option (list PeerType))
    : D (option (Z * Peer)) :=
  q ← lift_result (query_from_input_peer user i allow_bot allow_migrated_chat peer_types);
  match q with
  | None => deleted_user_peer user i allow_bot
  | Some q =>
    match i with
    | InputUser u _ => if u =? user then run_query user q else user_peer user u q allow_bot
    | _ => run_query user q
    end
  end.

Definition from_input_peer_raise (user : Z) (i : InputPeer) (message : string) (code : Z) (allow_migrated_chat : bool)
    (peer_types : option (list PeerType)) : D (Z * Peer) :=
  p ← _from_input_peer user i true allow_migrated_chat peer_types;
  match p with
  | Some p => mret p
  | None =>
    d ← get;
    match i with
    | InputUser u _ => if is_user_with user_deleted d u then raise (ErrorRpc 400 "INPUT_USER_DEACTIVATED") else raise (ErrorRpc code message)
    | _ => raise (ErrorRpc code message)
    end
  end.

Definition from_chat_id_raise (user chat : Z) (message : string) (allow_migrated : bool) : D (Z * Peer) :=
  p ← run_query user (GetChat (norm_id chat) allow_migrated);
  match p with Some p => mret p | None => raise (ErrorRpc 400 message) end.

Definition query_from_input_user_or_raise (user : Z) (i : InputPeer) (error_message : string) : D (Z * Peer) :=
  if input_is_self user i then get_peer (fun _ => owner_user user user)
  else match i with
  | InputUser u h =>
    ok ← lift_result (check KUser user u h);
    if (ok : bool) then get_peer (fun _ => owner_user user u) else raise (ErrorRpc 400 "PEER_ID_INVALID")
  | _ => raise (ErrorRpc 400 error_message)
  end.
End Resolve.

(** ** Other operations *)
Definition user_row (id : Z) : D UserRow := fun d => match users d !! id with Some u => (Ok u, d) | None => (Raise DoesNotExist, d) end.

Definition get_opposite (p : Peer) (allow_blocked : bool) : D (list (Z * Peer)) :=
  match p_type p, p_user p, p_owner p with
  | USER, Some user, Some owner =>
    if user =? 777000 then mret []
    else
      opposite ← get_or_create_for_user user owner;
      if bool_decide (is_Some (p_blocked_at opposite.2)) && negb allow_blocked then mret []
      else user_row owner;; user_row user;; mret [opposite]
  | CHAT, _, _ => gets (matching (fun kv => negb (bool_decide (p_owner kv.2 = p_owner p)) && bool_decide (p_chat kv.2 = p_chat p)))
  | _, _, _ => mret []
  end.

Definition update_max_read_id (id : Z) (p : Peer) (new_max_read_id : Z) : D Peer :=
  if new_max_read_id <=? p_out_max_read_id p then mret p
  else
    let raise_ (q : Peer) := MkPeer (p_owner q) (p_type q) (p_user q) (p_chat q) (p_channel q) (p_blocked_at q) new_max_read_id in
    modify (fun d => with_peers (alter (fun q => if p_out_max_read_id q <? new_max_read_id then raise_ q else q) id (peers d)) (next_peer d) d);;
    mret (raise_ p).

(** [block_unblock] of [handlers/contacts.py] on the row it found *)
Definition set_blocked (id : Z) (p : Peer) (to_block : bool) (now : Z) : D unit :=
  if Bool.eqb (bool_decide (is_Some (p_blocked_at p))) to_block then mret tt
  else modify (fun d => with_peers (alter (fun q => MkPeer (p_owner q) (p_type q) (p_user q) (p_chat q) (p_channel q)
         (if to_block then Some now else None) (p_out_max_read_id q)) id (peers d)) (next_peer d) d).

(** Rows that other code creates: of a new account, a chat and its members, a channel *)
Definition create_self (user : Z) : D (Z * Peer) := create_peer (MkPeer (Some user) SELF (Some user) None None None 0).
Definition create_chat_peer (owner chat : Z) : D (Z * Peer) := create_peer (MkPeer (Some owner) CHAT None (Some chat) None None 0).
Definition create_channel_peer (channel : Z) : D (Z * Peer) := create_peer (MkPeer None CHANNEL None None (Some channel) None 0).

(** ** Showing *)
Definition chat_make_id_from (id : Z) : Z := id * 2.
Definition channel_make_id_from (id : Z) : Z := id * 2 + 1.
Inductive TLPeer := PeerUser (user : Z) | PeerChat (chat : Z) | PeerChannel (channel : Z).

(** An attribute that must not be [None] *)
Definition need (x : option Z) : result Z := match x with Some x => Ok x | None => Raise TypeError end.

Definition peer_to_tl (p : Peer) : result TLPeer :=
  match p_type p with
  | SELF => PeerUser <$> need (p_owner p)
  | USER => PeerUser <$> need (p_user p)
  | CHAT => (fun c => PeerChat (chat_make_id_from c)) <$> need (p_chat p)
  | CHANNEL => (fun c => PeerChannel (channel_make_id_from c)) <$> need (p_channel p)
  end.
Definition target_id_raw (p : Peer) : option Z :=
  match p_type p with SELF | USER => p_user p | CHAT => p_chat p | CHANNEL => p_channel p end.

Definition to_input_peer_cls (t : PeerType) (user chat channel : option Z) (self_is_user : bool) : result InputPeer :=
  match t with
  | SELF => if self_is_user then (fun u => InputUser u (-1)) <$> need user else Ok InputSelf
  | USER => (fun u => InputUser u (-1)) <$> need user
  | CHAT => (fun c => InputChat (chat_make_id_from c)) <$> need chat
  | CHANNEL => (fun c => InputChannel (channel_make_id_from c) (-1)) <$> need channel
  end.
Definition to_input_peer (p : Peer) (self_is_user : bool) : result InputPeer :=
  to_input_peer_cls (p_type p) (p_user p) (p_chat p) (p_channel p) self_is_user.

Definition is_self (p : Peer) : bool := bool_decide (is_Some (p_owner p)) && bool_decide (is_Some (p_user p)) && bool_decide (p_owner p = p_user p).
Definition is_user (p : Peer) : bool := bool_decide (is_Some (p_owner p)) && bool_decide (is_Some (p_user p)) && negb (bool_decide (p_owner p = p_user p)).
Definition is_chat (p : Peer) : bool := bool_decide (is_Some (p_owner p)) && bool_decide (is_Some (p_chat p)).
Definition is_channel (p : Peer) : bool := bool_decide (p_owner p = None) && bool_decide (is_Some (p_channel p)).

(** ** The type of a peer says which of its columns are set *)
Inductive peer_typed : Peer -> Prop :=
  | typed_self u b m : peer_typed (MkPeer (Some u) SELF (Some u) None None b m)
  | typed_user o u b m : o <> u -> peer_typed (MkPeer (Some o) USER (Some u) None None b m)
  | typed_chat o c b m : peer_typed (MkPeer (Some o) CHAT None (Some c) None b m)
  | typed_channel c b m : peer_typed (MkPeer None CHANNEL None None (Some c) b m).

Record db_typed (d : PeerDb) : Prop := {
  rows_typed : forall id p, peers d !! id = Some p -> peer_typed p;
  rows_unique : forall id id' p p', peers d !! id = Some p -> peers d !! id' = Some p' -> id <> id' -> conflicts p p' = false;
  ids_below : forall id p, peers d !! id = Some p -> id < next_peer d;
}.

(** The columns that say whose peer of whom a row is *)
Definition peer_columns (p : Peer) := (p_owner p, p_type p, p_user p, p_chat p, p_channel p).

(** Rows stay the peers they are, and what was read stays read. *)
Record grows (d d' : PeerDb) : Prop := {
  gr_typed : db_typed d';
  gr_rows : forall id p, peers d !! id = Some p -> exists p', peers d' !! id = Some p' /\ peer_columns p' = peer_columns p /\
    p_out_max_read_id p <= p_out_max_read_id p';
  gr_others : users d' = users d /\ chats d' = chats d /\ channels d' = channels d /\ channel_members d' = channel_members d;
}.

Lemma grows_refl d : db_typed d -> grows d d.
Proof. intros Hd. split; [done| |done]. intros id p Hp. exists p. split; [done|]. split; [done|lia]. Qed.
Lemma grows_trans d1 d2 d3 : grows d1 d2 -> grows d2 d3 -> grows d1 d3.
Proof.
  intros [T1 R1 (U1 & C1 & K1 & M1)] [T2 R2 (U2 & C2 & K2 & M2)]. split; [done| |repeat split; congruence].
  intros id p Hp. destruct (R1 id p Hp) as (p' & Hp' & Hc & Hm). destruct (R2 id p' Hp') as (p'' & Hp'' & Hc' & Hm').
  exists p''. split; [done|]. split; [congruence|lia].
Qed.

Lemma conflicts_sym p q : conflicts p q = conflicts q p.
Proof.
  unfold conflicts. assert (forall a b : option Z, bool_decide (is_Some a) && bool_decide (a = b) = bool_decide (is_Some b) && bool_decide (b = a)) as H.
  { intros a b. repeat case_bool_decide; subst; try done; congruence. }
  rewrite (H (p_owner p)), (H (p_user p)), (H (p_chat p)), (H (p_channel p)). done.
Qed.

(** ** Queries of rows that are unique *)
Lemma get_or_none_one f d : (forall kv kv', peers d !! kv.1 = Some kv.2 -> peers d !! kv'.1 = Some kv'.2 -> f d kv = true -> f d kv' = true -> kv.1 = kv'.1) ->
  exists r, get_or_none f d = (Ok r, d) /\
    match r with
    | Some kv => peers d !! kv.1 = Some kv.2 /\ f d kv = true
    | None => forall kv, peers d !! kv.1 = Some kv.2 -> f d kv = false
    end.
Proof.
  intros Hone. unfold get_or_none. assert (forall kv, kv ∈ matching (f d) d <-> peers d !! kv.1 = Some kv.2 /\ f d kv = true) as Hm.
  { intros [k p]. unfold matching. rewrite elem_of_map_to_list, map_lookup_filter_Some. done. }
  pose proof (NoDup_fst_map_to_list (filter (fun kv => f d kv = true) (peers d))) as Hnd. fold (matching (f d) d) in Hnd.
  destruct (matching (f d) d) as [|kv [|kv' l]].
  - exists None. split; [done|]. intros kv Hkv. destruct (f d kv) eqn:E; [|done]. exfalso. destruct (Hm kv) as [_ H].
    specialize (H (conj Hkv E)). by apply elem_of_nil in H.
  - exists (Some kv). split; [done|]. apply Hm. by left.
  - exfalso. destruct (Hm kv) as [[H1 H2] _]; [by left|]. destruct (Hm kv') as [[H1' H2'] _]; [by right; left|].
    cbn in Hnd. apply NoDup_cons in Hnd as [Hni _]. apply Hni. rewrite (Hone kv kv') by done. by left.
Qed.

Lemma get_or_none_ext f g d : (forall kv, f d kv = g d kv) -> get_or_none f d = get_or_none g d.
Proof.
  intros H. unfold get_or_none. assert (matching (f d) d = matching (g d) d) as ->; [|done].
  unfold matching. f_equal. apply map_filter_ext. intros i x _. by rewrite H.
Qed.

Section Typed.
Context (d : PeerDb) (Hd : db_typed d).

Lemma one_owner_user o u (g : PeerDb -> Z * Peer -> bool) : exists r, get_or_none (fun d kv => owner_user o u kv && g d kv) d = (Ok r, d) /\
  match r with
  | Some kv => peers d !! kv.1 = Some kv.2 /\ p_owner kv.2 = Some o /\ p_user kv.2 = Some u /\ g d kv = true
  | None => forall kv, peers d !! kv.1 = Some kv.2 -> owner_user o u kv && g d kv = false
  end.
Proof using Hd.
  destruct (get_or_none_one (fun d kv => owner_user o u kv && g d kv) d) as (r & E & Hr).
  - intros kv kv' H1 H2 H3 H4. unfold owner_user in *. b2p. destruct (decide (kv.1 = kv'.1)) as [|Hne]; [done|exfalso].
    pose proof (rows_unique d Hd _ _ _ _ H1 H2 Hne) as Hc. unfold conflicts in Hc.
    assert (p_owner kv.2 = Some o /\ p_owner kv'.2 = Some o /\ p_user kv.2 = Some u /\ p_user kv'.2 = Some u) as (Ho & Ho' & Hu & Hu') by done.
    rewrite Ho, Ho', Hu, Hu' in Hc. rewrite !bool_decide_eq_true_2 in Hc by (done || by eexists). done.
  - exists r. split; [done|]. destruct r as [kv|]; [|done]. destruct Hr as [H1 H2]. unfold owner_user in H2. b2p. done.
Qed.

Lemma one_owner_chat o c (g : PeerDb -> Z * Peer -> bool) : exists r, get_or_none (fun d kv => owner_chat o c kv && g d kv) d = (Ok r, d) /\
  match r with
  | Some kv => peers d !! kv.1 = Some kv.2 /\ p_owner kv.2 = Some o /\ p_chat kv.2 = Some c /\ g d kv = true
  | None => True
  end.
Proof using Hd.
  destruct (get_or_none_one (fun d kv => owner_chat o c kv && g d kv) d) as (r & E & Hr).
  - intros kv kv' H1 H2 H3 H4. unfold owner_chat in *. b2p. destruct (decide (kv.1 = kv'.1)) as [|Hne]; [done|exfalso].
    pose proof (rows_unique d Hd _ _ _ _ H1 H2 Hne) as Hc. unfold conflicts in Hc.
    assert (p_owner kv.2 = Some o /\ p_owner kv'.2 = Some o /\ p_chat kv.2 = Some c /\ p_chat kv'.2 = Some c) as (Ho & Ho' & Hu & Hu') by done.
    rewrite Ho, Ho', Hu, Hu', (bool_decide_eq_true_2 (is_Some (Some c))), (bool_decide_eq_true_2 (Some c = Some c)) in Hc by (done || by eexists).
    rewrite (bool_decide_eq_true_2 (is_Some (Some o))), (bool_decide_eq_true_2 (Some o = Some o)) in Hc by (done || by eexists).
    cbn [andb] in Hc. rewrite orb_true_r in Hc. done.
  - exists r. split; [done|]. destruct r as [kv|]; [|done]. destruct Hr as [H1 H2]. unfold owner_chat in H2. b2p. done.
Qed.

Lemma one_channel c (g : PeerDb -> Z * Peer -> bool) : exists r, get_or_none (fun d kv => of_channel c kv && g d kv) d = (Ok r, d) /\
  match r with
  | Some kv => peers d !! kv.1 = Some kv.2 /\ p_channel kv.2 = Some c /\ g d kv = true
  | None => True
  end.
Proof using Hd.
  destruct (get_or_none_one (fun d kv => of_channel c kv && g d kv) d) as (r & E & Hr).
  - intros kv kv' H1 H2 H3 H4. unfold of_channel in *. b2p. destruct (decide (kv.1 = kv'.1)) as [|Hne]; [done|exfalso].
    pose proof (rows_unique d Hd _ _ _ _ H1 H2 Hne) as Hc. unfold conflicts in Hc.
    assert (p_channel kv.2 = Some c /\ p_channel kv'.2 = Some c) as [Hk Hk'] by done.
    rewrite Hk, Hk', (bool_decide_eq_true_2 (is_Some (Some c))), (bool_decide_eq_true_2 (Some c = Some c)) in Hc by (done || by eexists).
    cbn [andb] in Hc. rewrite orb_true_r in Hc. done.
  - exists r. split; [done|]. destruct r as [kv|]; [|done]. destruct Hr as [H1 H2]. unfold of_channel in H2. b2p. done.
Qed.

(** ** Creating a row *)
Lemma create_peer_grows p : peer_typed p -> grows d (create_peer p d).2 /\
  forall kv d', create_peer p d = (Ok kv, d') -> kv = (next_peer d, p) /\ peers d' !! kv.1 = Some p.
Proof using Hd.
  intros Hp. unfold create_peer. case_bool_decide as Hno; cbn; [|by split; [apply grows_refl|]].
  assert (peers d !! next_peer d = None) as Hfresh.
  { destruct (peers d !! next_peer d) eqn:E; [|done]. apply (ids_below d Hd) in E. lia. }
  split.
  - split; [split|..]; cbn; try done.
    + intros id q. destruct (decide (next_peer d = id)) as [<-|Hne]; [rewrite lookup_insert_eq; by intros [= <-]|].
      rewrite lookup_insert_ne by done. apply (rows_typed d Hd).
    + intros id id' q q'. destruct (decide (next_peer d = id)) as [<-|Hne], (decide (next_peer d = id')) as [<-|Hne'];
        rewrite ?lookup_insert_eq, ?lookup_insert_ne by done; try done.
      * intros [= <-] Hq' _. by apply (Hno _ _ Hq').
      * intros Hq [= <-] _. rewrite conflicts_sym. by apply (Hno _ _ Hq).
      * apply (rows_unique d Hd).
    + intros id q. destruct (decide (next_peer d = id)) as [<-|Hne]; [lia|].
      rewrite lookup_insert_ne by done. intros Hq. apply (ids_below d Hd) in Hq. lia.
    + intros id q Hq. exists q. rewrite lookup_insert_ne by congruence. split; [done|]. split; [done|lia].
  - intros kv d' [= <- <-]. cbn. split; [done|]. by rewrite lookup_insert_eq.
Qed.

Lemma get_or_create_spec o u : o <> u -> grows d (get_or_create_for_user o u d).2 /\
  (forall kv d', get_or_create_for_user o u d = (Ok kv, d') -> peers d' !! kv.1 = Some kv.2 /\ p_owner kv.2 = Some o /\ p_user kv.2 = Some u /\ p_type kv.2 = USER) /\
  exists kv, (get_or_create_for_user o u d).1 = Ok kv.
Proof using Hd.
  intros Hne. unfold get_or_create_for_user. destruct (one_owner_user o u (fun _ _ => true)) as (r & E & Hr).
  assert (get_or_none (fun _ => owner_user o u) d = (Ok r, d)) as E'.
  { rewrite <- E. apply get_or_none_ext. intros kv. by rewrite andb_true_r. }
  rewrite (M_bind_step _ _ _ _ _ E'). destruct r as [kv|].
  - destruct Hr as (Hp & Ho & Hu & _). split; [by apply grows_refl|]. split; [|by exists kv]. intros kv' d' [= <- <-].
    split; [done|]. split; [done|]. split; [done|]. pose proof (rows_typed d Hd _ _ Hp) as Ht. destruct kv as [k p]. cbn in *. by destruct Ht; simplify_eq/=.
  - assert (peer_typed (MkPeer (Some o) USER (Some u) None None None 0)) as Ht by (by constructor).
    destruct (create_peer_grows _ Ht) as [Hg Hk]. split; [done|]. split.
    + intros kv d' Hkv. destruct (Hk kv d' Hkv) as [-> Hp]. done.
    + unfold create_peer. rewrite bool_decide_eq_true_2; [by eexists|]. intros id q Hq. specialize (Hr (id, q) Hq).
      rewrite andb_true_r in Hr. unfold owner_user in Hr. cbn in Hr. unfold conflicts. cbn.
      rewrite !orb_false_r.
      rewrite <- Hr. f_equal; apply bool_decide_ext; split; congruence.
Qed.
End Typed.

Lemma typed_owner_user p o u : peer_typed p -> p_owner p = Some o -> p_user p = Some u -> p_type p = if decide (o = u) then SELF else USER.
Proof. intros [] Ho Hu; simplify_eq/=; by case_decide. Qed.
Lemma typed_owner_chat p o c : peer_typed p -> p_owner p = Some o -> p_chat p = Some c -> p_type p = CHAT.
Proof. by intros [] Ho Hu; simplify_eq/=. Qed.
Lemma typed_of_channel p c : peer_typed p -> p_channel p = Some c -> p_type p = CHANNEL.
Proof. by intros [] Ho; simplify_eq/=. Qed.

(** ** Who gets which peer *)
Section Access.
Context (hmac_sha256 : bytes -> bytes) (payload : signed_kind -> Z -> Z -> Z -> bytes) (auth_id : Z).
Context (hmac_32 : forall m, length (hmac_sha256 m) = 32%nat).
#[local] Abbreviation check k user target h := (check_access_hash hmac_sha256 payload k user auth_id target h).
#[local] Abbreviation from_input := (_from_input_peer hmac_sha256 payload auth_id).

Definition entitled (d : PeerDb) (user : Z) (i : InputPeer) (p : Peer) : Prop :=
  match i with
  | InputSelf => p_type p = SELF /\ p_owner p = Some user
  | InputUser u h => p_owner p = Some user /\ p_user p = Some u /\
      if decide (user = u) then p_type p = SELF
      else p_type p = USER /\ (check KUser user u h = Ok true \/ is_user_with user_deleted d u = true)
  | InputChat c => p_type p = CHAT /\ p_owner p = Some user /\ p_chat p = Some (norm_id c) /\
      chat_with (fun r => negb (chat_deleted r)) d (norm_id c) = true
  | InputChannel c h => p_type p = CHANNEL /\ p_channel p = Some (norm_id c) /\ live_channel d (norm_id c) = true /\
      (if h =? 0 then (norm_id c, user) ∈ channel_members d else check KChannel user (norm_id c) h = Ok true)
  | _ => False
  end.

Definition finds (d : PeerDb) (user : Z) (i : InputPeer) (m : D (option (Z * Peer))) : Prop :=
  grows d (m d).2 /\ (forall kv, (m d).1 = Ok (Some kv) -> peers (m d).2 !! kv.1 = Some kv.2 /\ entitled d user i kv.2) /\
  (m d).1 <> Raise RuntimeError.

Lemma finds_nothing d user i m : db_typed d -> m d = (Ok None, d) -> finds d user i m.
Proof. intros Hd E. unfold finds. rewrite E. cbn. split; [by apply grows_refl|]. done. Qed.
Lemma finds_raise d user i m e : db_typed d -> m d = (Raise e, d) -> e <> RuntimeError -> finds d user i m.
Proof. intros Hd E He. unfold finds. rewrite E. cbn. split; [by apply grows_refl|]. split; [done|congruence]. Qed.
Lemma finds_row d user i m kv : db_typed d -> m d = (Ok (Some kv), d) -> peers d !! kv.1 = Some kv.2 -> entitled d user i kv.2 -> finds d user i m.
Proof. intros Hd E Hp He. unfold finds. rewrite E. cbn. split; [by apply grows_refl|]. split; [by intros ? [= <-]|done]. Qed.

Lemma check_ok k user target h : exists b, check k user target h = Ok b.
Proof using hmac_32. destruct (check_access_hash_spec hmac_sha256 payload hmac_32 k user auth_id target h) as (h0 & _ & E). eauto. Qed.

(** The row of a pair of users *)
Lemma user_query d user u ab : db_typed d -> exists r, run_query user (GetUser u ab) d = (Ok r, d) /\
  forall kv, r = Some kv -> peers d !! kv.1 = Some kv.2 /\ p_owner kv.2 = Some user /\ p_user kv.2 = Some u /\
    p_type kv.2 = if decide (user = u) then SELF else USER.
Proof.
  intros Hd. destruct (one_owner_user d Hd user u (fun d _ => ab || is_user_with (fun r => negb (bot r)) d u)) as (r & E & Hr).
  exists r. split; [exact E|]. intros kv ->. destruct Hr as (Hp & Ho & Hu & _). split; [done|]. split; [done|]. split; [done|].
  eapply typed_owner_user; eauto using rows_typed.
Qed.
Lemma self_query d user : db_typed d -> (exists kv, run_query user GetSelf d = (Ok (Some kv), d) /\ peers d !! kv.1 = Some kv.2 /\
    p_owner kv.2 = Some user /\ p_user kv.2 = Some user /\ p_type kv.2 = SELF) \/ run_query user GetSelf d = (Raise DoesNotExist, d).
Proof.
  intros Hd. destruct (one_owner_user d Hd user user (fun _ _ => true)) as (r & E & Hr).
  assert (get_or_none (fun _ => owner_user user user) d = (Ok r, d)) as E'.
  { rewrite <- E. apply get_or_none_ext. intros kv. by rewrite andb_true_r. }
  unfold run_query, get_peer, mbind, M_bind. rewrite E'. destruct r as [kv|]; [left|by right].
  destruct Hr as (Hp & Ho & Hu & _). exists kv. split; [done|]. split; [done|]. split; [done|]. split; [done|].
  rewrite (typed_owner_user kv.2 user user); [by rewrite decide_True| |done|done]. by eapply rows_typed.
Qed.

Lemma deleted_finds d user u h ab : db_typed d -> finds d user (InputUser u h) (deleted_user_peer user (InputUser u h) ab).
Proof.
  intros Hd. destruct (user_query d user u ab Hd) as (r & E & Hr). cbn [deleted_user_peer].
  destruct r as [kv|].
  - destruct (Hr kv eq_refl) as (Hp & Ho & Hu & Ht). destruct (is_user_with user_deleted d u) eqn:Ed.
    + apply (finds_row _ _ _ _ kv); [done| |done|].
      * rewrite (M_bind_step _ _ _ _ _ E). unfold get, mbind, M_bind. by rewrite Ed.
      * cbn. split; [done|]. split; [done|]. destruct (decide (user = u)); [done|]. auto.
    + apply finds_nothing; [done|]. rewrite (M_bind_step _ _ _ _ _ E). unfold get, mbind, M_bind. by rewrite Ed.
  - apply finds_nothing; [done|]. by rewrite (M_bind_step _ _ _ _ _ E).
Qed.

Lemma self_finds d user i : db_typed d -> i = InputSelf \/ (exists h, i = InputUser user h) -> finds d user i (run_query user GetSelf).
Proof.
  intros Hd Hi. destruct (self_query d user Hd) as [(kv & E & Hp & Ho & Hu & Ht)|E]; [|by eapply finds_raise].
  eapply finds_row; [done|exact E|done|]. destruct Hi as [->|[h ->]]; cbn; [done|]. by rewrite decide_True.
Qed.

Lemma user_finds d user u h ab : db_typed d -> u <> user -> check KUser user u h = Ok true ->
  finds d user (InputUser u h) (user_peer user u (GetUser u ab) ab).
Proof.
  intros Hd Hne Hh. destruct (user_query d user u ab Hd) as (r & E & Hr). unfold user_peer, finds.
  rewrite (M_bind_step _ _ _ _ _ E). destruct r as [kv|].
  - destruct (Hr kv eq_refl) as (Hp & Ho & Hu & Ht). cbn. split; [by apply grows_refl|]. split; [|done]. intros ? [= <-].
    split; [done|]. split; [done|]. split; [done|]. rewrite decide_False in Ht by done. rewrite decide_False by done. auto.
  - unfold get at 1 2 3 4, mbind at 1 3 5 7, M_bind at 1 3 5 7. cbv iota beta.
    destruct (users d !! u) as [target|]; [|by apply finds_nothing].
    destruct (user_deleted target || _); [by apply finds_nothing|].
    destruct (get_or_create_spec d Hd user u ltac:(congruence)) as (Hg & Hk & kv & Hok).
    unfold mbind, M_bind. destruct (get_or_create_for_user user u d) as [r d'] eqn:Eg. cbn in *. subst r. cbn. split; [done|]. split; [|done].
    intros ? [= <-]. destruct (Hk kv d' eq_refl) as (Hp & Ho & Hu & Ht). split; [done|]. split; [done|]. split; [done|].
    rewrite decide_False by done. auto.
Qed.

Lemma from_input_finds d user i ab am pt : db_typed d -> finds d user i (from_input user i ab am pt).
Proof using hmac_32.
  intros Hd. unfold _from_input_peer, query_from_input_peer. destruct i as [| |u h|u|c|c h|].
  - by apply finds_nothing.
  - destruct (excluded pt SELF); [by apply finds_nothing|]. apply self_finds; auto.
  - destruct (u =? user) eqn:E; b2p.
    + subst u. destruct (excluded pt SELF); [by apply deleted_finds|]. apply self_finds; eauto.
    + destruct (excluded pt USER); [by apply deleted_finds|]. destruct (check_ok KUser user u h) as [[] Eb]; rewrite Eb; [|by apply deleted_finds].
      by apply user_finds.
  - by eapply finds_raise.
  - destruct (excluded pt CHAT); [by apply finds_nothing|].
    destruct (one_owner_chat d Hd user (norm_id c) (fun d _ => chat_with (fun r => negb (chat_deleted r) && (am || negb (migrated r))) d (norm_id c)))
      as ([kv|] & E & Hr); [|by apply finds_nothing]. destruct Hr as (Hp & Ho & Hc & Hw).
    eapply finds_row; [done|exact E|done|]. cbn. split; [eapply typed_owner_chat; eauto using rows_typed|]. split; [done|]. split; [done|].
    unfold chat_with in *. destruct (chats d !! norm_id c) as [r|]; cbn in *; [|done]. by apply andb_prop in Hw as [-> _].
  - destruct (excluded pt CHANNEL); [by apply finds_nothing|]. cbv zeta. destruct (h =? 0) eqn:Eh.
    + destruct (one_channel d Hd (norm_id c) (fun d _ => live_channel d (norm_id c) && bool_decide ((norm_id c, user) ∈ channel_members d)))
        as ([kv|] & E & Hr); [|apply finds_nothing; [done|]].
      * destruct Hr as (Hp & Hc & Hw). b2p. eapply (finds_row _ _ _ _ kv); [done| |done|].
        -- etrans; [|exact E]. apply get_or_none_ext. intros kv'. by rewrite andb_assoc.
        -- cbn. rewrite Eh. split; [eapply typed_of_channel; eauto using rows_typed|]. done.
      * etrans; [|exact E]. apply get_or_none_ext. intros kv'. by rewrite andb_assoc.
    + destruct (check_ok KChannel user (norm_id c) h) as [[] Eb]; rewrite Eb; [|by apply finds_nothing].
      destruct (one_channel d Hd (norm_id c) (fun d _ => live_channel d (norm_id c))) as ([kv|] & E & Hr); [|by apply finds_nothing].
      destruct Hr as (Hp & Hc & Hw). eapply finds_row; [done|exact E|done|]. cbn. rewrite Eh. split; [eapply typed_of_channel; eauto using rows_typed|]. done.
  - by eapply finds_raise.
Qed.

(** ** Every operation keeps the rows typed *)
Lemma raise_grows d user i msg code am pt : db_typed d -> grows d (from_input_peer_raise hmac_sha256 payload auth_id user i msg code am pt d).2.
Proof using hmac_32.
  intros Hd. destruct (from_input_finds d user i true am pt Hd) as (Hg & _ & _). unfold from_input_peer_raise, mbind, M_bind.
  destruct (from_input user i true am pt d) as [[[kv|]|e] d']; cbn in *; [done| |done]. destruct i; try done. by case_match.
Qed.

Inductive peer_op :=
  | FromInput (user : Z) (i : InputPeer) (msg : string) (code : Z) (allow_migrated : bool) (peer_types : option (list PeerType))
  | GetOrCreate (owner user : Z)
  | Opposite (p : Peer) (allow_blocked : bool)
  | MaxRead (id : Z) (p : Peer) (new_max_read_id : Z)
  | SetBlocked (id : Z) (p : Peer) (to_block : bool) (now : Z)
  | NewAccount (user : Z)
  | NewChatMember (owner chat : Z)
  | NewChannel (channel : Z).

Definition run_peer_op (op : peer_op) : D unit :=
  match op with
  | FromInput user i msg code am pt => from_input_peer_raise hmac_sha256 payload auth_id user i msg code am pt;; mret tt
  | GetOrCreate owner user => get_or_create_for_user owner user;; mret tt
  | Opposite p ab => get_opposite p ab;; mret tt
  | MaxRead id p m => update_max_read_id id p m;; mret tt
  | SetBlocked id p b now => set_blocked id p b now
  | NewAccount user => create_self user;; mret tt
  | NewChatMember owner chat => create_chat_peer owner chat;; mret tt
  | NewChannel channel => create_channel_peer channel;; mret tt
  end.

(** A peer object comes from a row, and no one is put into contact with himself. *)
Definition op_allowed (op : peer_op) : Prop :=
  match op with GetOrCreate owner user => owner <> user | Opposite p _ => peer_typed p | _ => True end.

Lemma alter_grows d f id : db_typed d -> (forall p, peer_columns (f p) = peer_columns p /\ p_out_max_read_id p <= p_out_max_read_id (f p)) ->
  grows d (with_peers (alter f id (peers d)) (next_peer d) d).
Proof.
  intros [Ht Hu Hb] Hf.
  assert (forall id' p', alter f id (peers d) !! id' = Some p' -> exists p, peers d !! id' = Some p /\ peer_columns p' = peer_columns p) as Hold.
  { intros id' p'. destruct (decide (id = id')) as [<-|Hne]; [rewrite lookup_alter_eq|rewrite lookup_alter_ne by done; by eauto].
    destruct (peers d !! id) as [p|]; [|done]. intros [= <-]. exists p. split; [done|]. by apply Hf. }
  split; [split|..]; cbn; try done.
  - intros id' p' Hp'. destruct (Hold id' p' Hp') as (p & Hp & Hc). apply Ht in Hp. destruct p'. unfold peer_columns in Hc. cbn in Hc.
    destruct Hp; cbn in Hc; injection Hc as -> -> -> -> ->; by constructor.
  - intros i j pi pj Hi Hj Hne. destruct (Hold i pi Hi) as (qi & Hqi & Hci), (Hold j pj Hj) as (qj & Hqj & Hcj).
    rewrite <- (Hu i j qi qj Hqi Hqj Hne). unfold peer_columns, conflicts in *. injection Hci as -> _ -> -> ->. by injection Hcj as -> _ -> -> ->.
  - intros id' p' Hp'. destruct (Hold id' p' Hp') as (p & Hp & _). by eapply Hb.
  - intros id' p Hp. destruct (decide (id = id')) as [<-|Hne].
    + exists (f p). rewrite lookup_alter_eq, Hp. split; [done|]. apply Hf.
    + exists p. rewrite lookup_alter_ne by done. split; [done|]. split; [done|lia].
Qed.

Lemma op_grows op d : db_typed d -> op_allowed op -> grows d (run_peer_op op d).2.
Proof using hmac_32.
  intros Hd Hop. assert (forall A (m : D A), grows d (m d).2 -> grows d ((m;; mret tt) d).2) as Hignore.
  { intros A m Hm. unfold mbind, M_bind. by destruct (m d) as [[a|e] d']. }
  destruct op as [user i msg code am pt|owner user|p ab|id p m|id p b now|user|owner chat|channel]; cbn in *.
  - apply Hignore. by apply raise_grows.
  - apply Hignore. by apply get_or_create_spec.
  - apply Hignore. unfold get_opposite. destruct Hop as [u b m|o u b m Hne|o c b m|c b m]; cbn; try by apply grows_refl.
    destruct (u =? 777000); [by apply grows_refl|]. destruct (get_or_create_spec d Hd u o ltac:(congruence)) as (Hg & _ & _).
    unfold mbind, M_bind. destruct (get_or_create_for_user u o d) as [[kv|e] d']; cbn in *; [|done].
    destruct (_ && _); [done|]. unfold user_row. destruct (users d' !! o); [|done]. by destruct (users d' !! u).
  - apply Hignore. unfold update_max_read_id. destruct (m <=? p_out_max_read_id p) eqn:E; [by apply grows_refl|].
    apply alter_grows; [done|]. intros q. destruct (p_out_max_read_id q <? m) eqn:Eq; b2p; cbn; (split; [done|lia]).
  - unfold set_blocked. destruct (Bool.eqb _ _); [by apply grows_refl|]. apply alter_grows; [done|]. intros q. cbn. split; [done|lia].
  - apply Hignore. apply create_peer_grows; [done|constructor].
  - apply Hignore. apply create_peer_grows; [done|constructor].
  - apply Hignore. apply create_peer_grows; [done|constructor].
Qed.

Inductive peer_step : PeerDb -> PeerDb -> Prop := peer_step_run op d : op_allowed op -> peer_step d (run_peer_op op d).2.
End Access.


(** C16: who gets a peer is entitled to it. Whenever an input peer is resolved to a row, the row is in the table and is of the asking user and of the
    partner that the input names: himself; a user whose access hash is the one made for this user and authorization, or
    who is deleted and already a partner (then without a look at the hash or the wanted types); a chat that is not
    deleted; or a channel that is not deleted and either has the right access hash or, for hash 0, the user as a member.
    Resolving never fails for an ambiguous row, and other inputs are never resolved. *)
Theorem peer_access hmac_sha256 payload auth_id d user i msg code am pt : (forall m, length (hmac_sha256 m) = 32%nat) -> db_typed d ->
  let rd := from_input_peer_raise hmac_sha256 payload auth_id user i msg code am pt d in
  rd.1 <> Raise RuntimeError /\
  forall kv, rd.1 = Ok kv -> peers rd.2 !! kv.1 = Some kv.2 /\ entitled hmac_sha256 payload auth_id d user i kv.2.
Proof.
  intros Hh Hd. cbv zeta. destruct (from_input_finds hmac_sha256 payload auth_id Hh d user i true am pt Hd) as (_ & Hf & Hn).
  unfold from_input_peer_raise, mbind, M_bind. destruct (_from_input_peer hmac_sha256 payload auth_id user i true am pt d) as [[[kv|]|e] d']; cbn in *.
  - split; [done|]. intros ? [= <-]. by apply Hf.
  - destruct i; cbn; try done. by destruct (is_user_with _ _ _).
  - split; [congruence|done].
Qed.

(** An input peer that the server sends comes back as the same peer. For a row of the table that [user] may hold (his own, or a channel's), the input
    peer made of it, with the placeholder hash replaced for this user and authorization as the generated writers do, is
    resolved to the row's type and target; a chat's and a channel's shown ids are never equal. *)
Theorem peer_roundtrip hmac_sha256 payload auth_id user p self_is_user : (forall m, length (hmac_sha256 m) = 32%nat) -> peer_typed p ->
  (p_owner p = Some user \/ p_owner p = None) ->
  (exists i i', to_input_peer p self_is_user = Ok i /\
    match i with
    | InputUser u h => exists h', written_access_hash hmac_sha256 payload KUser u h (MkCtx user auth_id false) = Ok h' /\ i' = InputUser u h'
    | InputChannel c h => exists h', written_access_hash hmac_sha256 payload KChannel c h (MkCtx user auth_id false) = Ok h' /\ i' = InputChannel c h'
    | _ => i' = i
    end /\
    exists t, target_id_raw p = Some t /\ type_and_id_from_input hmac_sha256 payload auth_id user i' = Ok (Some (p_type p, t))) /\
  forall a b, chat_make_id_from a <> channel_make_id_from b.
Proof.
  intros Hh Hp Hown. split; [|unfold chat_make_id_from, channel_make_id_from; lia].
  assert (forall k target, exists h', make_access_hash hmac_sha256 payload k user auth_id target = Ok h') as Hmake.
  { intros k target. by apply make_access_hash_ok. }
  assert (forall k target h', make_access_hash hmac_sha256 payload k user auth_id target = Ok h' ->
    check_access_hash hmac_sha256 payload k user auth_id target h' = Ok true) as Hcheck.
  { intros k target h' E. unfold check_access_hash. rewrite E. cbn. by rewrite Z.eqb_refl. }
  destruct Hp as [u b m|o u b m Hne|o c b m|c b m]; cbn in Hown.
  - destruct Hown as [[= ->]|]; [|done]. destruct self_is_user.
    + destruct (Hmake KUser user) as [h' E]. exists (InputUser user (-1)), (InputUser user h'). split; [done|]. split; [by exists h'|].
      exists user. split; [done|]. cbn. by rewrite Z.eqb_refl.
    + exists InputSelf, InputSelf. split; [done|]. split; [done|]. by exists user.
  - destruct Hown as [[= ->]|]; [|done]. destruct (Hmake KUser u) as [h' E]. exists (InputUser u (-1)), (InputUser u h'). split; [done|].
    split; [by exists h'|]. exists u. split; [done|]. unfold type_and_id_from_input. rewrite (proj2 (Z.eqb_neq u user)) by congruence. by rewrite (Hcheck _ _ _ E).
  - exists (InputChat (chat_make_id_from c)), (InputChat (chat_make_id_from c)). split; [done|]. split; [done|]. exists c. split; [done|].
    cbn. unfold norm_id, chat_make_id_from. by rewrite Z.div_mul.
  - assert (norm_id (channel_make_id_from c) = c) as Hn by (unfold norm_id, channel_make_id_from; Z.div_mod_to_equations; lia).
    destruct (Hmake KChannel c) as [h' E]. exists (InputChannel (channel_make_id_from c) (-1)), (InputChannel (channel_make_id_from c) h'). split; [done|].
    split; [exists h'; split; [|done]; unfold written_access_hash, fill_access_hash_calc; cbn; by rewrite Hn|].
    exists c. split; [done|]. unfold type_and_id_from_input. cbv zeta. rewrite Hn. destruct (h' =? 0); [done|]. by rewrite (Hcheck _ _ _ E).
Qed.

(** ** A table with the users 7 and 8, and 7's row of himself *)
Definition a_peer_db : PeerDb := MkPeerDb {[ 1 := MkPeer (Some 7) SELF (Some 7) None None None 0 ]}
  {[ 7 := MkUserRow false false; 8 := MkUserRow false false ]} ∅ ∅ ∅ 2.
Definition a_hmac (m : bytes) : bytes := replicate 32 Byte.x01.
Definition a_payload (k : signed_kind) (a b c : Z) : bytes := [].
(** What [a_hmac] makes of everything *)
Definition a_hash : Z := 0x0101010101010101.
Lemma a_peer_db_typed : db_typed a_peer_db.
Proof.
  split; cbn.
  - intros id p [<- <-]%lookup_singleton_Some. constructor.
  - by intros id id' p p' [<- <-]%lookup_singleton_Some [<- <-]%lookup_singleton_Some.
  - by intros id p [<- <-]%lookup_singleton_Some.
Qed.


Lemma peer_access_witness :
  let rd := from_input_peer_raise a_hmac a_payload 1 7 (InputUser 8 a_hash) "" 400 false None a_peer_db in
  rd.1 <> Raise RuntimeError /\
  forall kv, rd.1 = Ok kv -> peers rd.2 !! kv.1 = Some kv.2 /\ entitled a_hmac a_payload 1 a_peer_db 7 (InputUser 8 a_hash) kv.2.
Proof. exact (peer_access a_hmac a_payload 1 a_peer_db 7 (InputUser 8 a_hash) "" 400 false None (fun _ => eq_refl) a_peer_db_typed). Defined.

Lemma peer_roundtrip_witness : exists i i', to_input_peer (MkPeer None CHANNEL None None (Some 5) None 0) false = Ok i /\
  match i with
  | InputUser u h => exists h', written_access_hash a_hmac a_payload KUser u h (MkCtx 7 1 false) = Ok h' /\ i' = InputUser u h'
  | InputChannel c h => exists h', written_access_hash a_hmac a_payload KChannel c h (MkCtx 7 1 false) = Ok h' /\ i' = InputChannel c h'
  | _ => i' = i
  end /\
  exists t, Some 5 = Some t /\ type_and_id_from_input a_hmac a_payload 1 7 i' = Ok (Some (CHANNEL, t)).
Proof.
  exact (proj1 (peer_roundtrip a_hmac a_payload 1 7 (MkPeer None CHANNEL None None (Some 5) None 0) false (fun _ => eq_refl)
    (typed_channel 5 None 0) (or_intror eq_refl))).
Defined.
