(* ===== verification/Phone.v ===== *)
(** Phone calls: [piltover/app/handlers/phone.py], [piltover/db/models/phone_call.py], [piltover/tl/to_format/phone_call.py], the parts of
    [piltover/app/utils/spam_block.py] they ask, and [phone_call_update] and [phone_signaling_update] of
    [piltover/app/utils/updates_manager.py].

    Time is in microseconds. Peers are those of [Peers.v], privacy rules those of [Privacy.v]. The bytes of the column [protocol] are of a type of their own, with the
    generated codec of [PhoneCallProtocol] as a parameter. What is sent is a log. Every request runs alone. *)
From stdpp Require Import gmap sorting strings pretty.
From S2P Require Import Prelude PyBytes AccessHash Sequences Peers Privacy.
Open Scope Z_scope.

(** ** Rows *)
Inductive CallDiscardReason := MISSED | DISCONNECT | HANGUP | BUSY.

Record CallUser := MkCallUser { cu_system : bool; cu_spam_blocked : bool }.
Record CallAuth := MkCallAuth { ca_user : Z; ca_allow_call_requests : bool }.
Record PhoneCallProtocol := MkProtocol { udp_p2p : bool; udp_reflector : bool; min_layer : Z; max_layer : Z; library_versions : list string }.

(** ** Versions *)
Definition SUPPORTED_LIBRARY_VERSIONS : list string :=
  ["2.4.4"; "2.7.7"; "4.0.0"; "5.0.0"; "7.0.0"; "8.0.0"; "9.0.0"; "11.0.0"; "12.0.0"; "13.0.0"]%string.
Definition is_supported (version : string) : bool := bool_decide (version ∈ SUPPORTED_LIBRARY_VERSIONS).
Definition _normalize_library_versions (versions : list string) : list string :=
  match filter (fun v => is_supported v = true) versions with [] => ["2.4.4"%string] | supported => supported end.

(** [tuple(map(int, version.split(".")))], for numbers in ASCII digits *)
Definition digit (c : Ascii.ascii) : option Z :=
  let n := Z.of_nat (Ascii.nat_of_ascii c) in if (48 <=? n) && (n <=? 57) then Some (n - 48) else None.
Fixpoint version_nums (current : option Z) (s : string) : result (list Z) :=
  match s with
  | EmptyString => match current with Some n => Ok [n] | None => Raise ValueError end
  | String c s =>
    if bool_decide (c = Ascii.ascii_of_nat 46) then match current with Some n => r ← version_nums None s; Ok (n :: r) | None => Raise ValueError end
    else match digit c with Some k => version_nums (Some (10 * default 0 current + k)) s | None => Raise ValueError end
  end.
Definition version_string (l : list Z) : string := String.concat "."%string (pretty <$> l).

(** The order of tuples *)
Fixpoint lex_le (a b : list Z) : bool :=
  match a, b with
  | [], _ => true
  | _ :: _, [] => false
  | x :: a, y :: b => (x <? y) || ((x =? y) && lex_le a b)
  end.
Definition tuple_le (a b : list Z) : Prop := lex_le a b = true.
#[export] Instance tuple_le_dec : RelDecision tuple_le := fun a b => decide (lex_le a b = true).

Section Protocol.
(** [list] of a set *)
Context (list_of_set : gset string -> list string).

Definition set_of (l : list string) : gset string := list_to_set l.
Definition _pick_merged_library_versions (a b : PhoneCallProtocol) (final : bool) : result (list string) :=
  let merged := list_of_set (set_of (library_versions a) ∩ set_of (library_versions b) ∩ set_of SUPPORTED_LIBRARY_VERSIONS) in
  let merged := match merged with
    | [] => _normalize_library_versions (list_of_set (set_of (library_versions a) ∪ set_of (library_versions b))) | _ => merged end in
  if negb final then Ok merged
  else
    versions_num ← mapM (version_nums None) merged;
    match last (merge_sort tuple_le versions_num) with
    | Some v => Ok [version_string v]
    | None => Raise IndexError
    end.

(** The protocol comes back with its library versions normalized. *)
Definition _check_protocol (p : PhoneCallProtocol) : result PhoneCallProtocol :=
  raise_if (negb (udp_p2p p) && negb (udp_reflector p)) (ErrorRpc 400 "CALL_PROTOCOL_FLAGS_INVALID");;
  raise_if (max_layer p <? min_layer p) (ErrorRpc 400 "CALL_PROTOCOL_LAYER_INVALID");;
  raise_if ((min_layer p <? 65) || (200 <? max_layer p)) (ErrorRpc 400 "CALL_PROTOCOL_LAYER_INVALID");;
  Ok (MkProtocol (udp_p2p p) (udp_reflector p) (min_layer p) (max_layer p) (_normalize_library_versions (library_versions p))).

Definition _merge_protocols (a b : PhoneCallProtocol) (final : bool) : result PhoneCallProtocol :=
  let merged_min_layer := Z.max (min_layer a) (min_layer b) in
  let merged_max_layer := Z.min (max_layer a) (max_layer b) in
  raise_if (merged_max_layer <? merged_min_layer) (ErrorRpc 406 "CALL_PROTOCOL_COMPAT_LAYER_INVALID");;
  versions ← _pick_merged_library_versions a b final;
  raise_if (bool_decide (versions = [])) (ErrorRpc 406 "CALL_PROTOCOL_COMPAT_LAYER_INVALID");;
  Ok (MkProtocol (udp_p2p a || udp_p2p b) (udp_reflector a || udp_reflector b) merged_min_layer merged_max_layer versions).
(** *** What comes of checking and merging *)
Definition proto_ok (p : PhoneCallProtocol) : Prop :=
  (udp_p2p p || udp_reflector p = true) /\ 65 <= min_layer p <= max_layer p /\ max_layer p <= 200 /\
  library_versions p <> [] /\ Forall (fun v => v ∈ SUPPORTED_LIBRARY_VERSIONS) (library_versions p).

Lemma normalized vs : _normalize_library_versions vs <> [] /\ Forall (fun v => v ∈ SUPPORTED_LIBRARY_VERSIONS) (_normalize_library_versions vs).
Proof.
  unfold _normalize_library_versions. destruct (filter _ vs) as [|v l] eqn:E; (split; [done|]).
  - repeat constructor.
  - rewrite <- E. apply Forall_forall. intros x [Hx _]%list_elem_of_filter. unfold is_supported in Hx. by b2p.
Qed.

Lemma raise_if_ok c e u : raise_if c e = Ok u -> c = false.
Proof. by destruct c. Qed.
Ltac guards H := repeat apply result_bind_ok in H as (?u & ?E%raise_if_ok & H).

Lemma check_protocol_ok p q : _check_protocol p = Ok q -> proto_ok q /\ min_layer q = min_layer p /\ max_layer q = max_layer p /\
  library_versions q = _normalize_library_versions (library_versions p).
Proof.
  unfold _check_protocol. intros H. guards H. injection H as <-. unfold proto_ok. cbn. destruct (normalized (library_versions p)) as [H1 H2]. b2p.
  split_and!; try done; try lia. by destruct (udp_p2p p), (udp_reflector p).
Qed.

(** The numbers of a supported version, and back *)
Lemma supported_nums v : v ∈ SUPPORTED_LIBRARY_VERSIONS -> exists l, version_nums None v = Ok l /\ version_string l = v.
Proof.
  intros Hv. repeat (apply elem_of_cons in Hv as [->|Hv]; [eexists; split; [vm_compute; reflexivity|vm_compute; reflexivity]|]). by apply not_elem_of_nil in Hv.
Qed.

Lemma parsed_versions vs : Forall (fun v => v ∈ SUPPORTED_LIBRARY_VERSIONS) vs ->
  exists ls, mapM (version_nums None) vs = (Ok ls : result _) /\ Forall2 (fun v l => version_nums None v = Ok l /\ version_string l = v) vs ls.
Proof.
  induction 1 as [|v vs Hv _ (ls & IH & Hls)]; [by exists []|]. destruct (supported_nums v Hv) as (l & El & Es).
  exists (l :: ls). split; [|by constructor]. cbn [mapM]. rewrite El. cbn [mbind result_bind]. by rewrite IH.
Qed.

(** [lex_le] is a total order. *)
Lemma lex_le_refl a : lex_le a a = true.
Proof. induction a as [|x a IH]; [done|]. cbn. by rewrite Z.eqb_refl, IH, orb_true_r. Qed.
#[local] Instance tuple_le_trans : Transitive tuple_le.
Proof.
  intros a. induction a as [|x a IH]; intros [|y b] [|z c] H1 H2; try done. unfold tuple_le in *. cbn in *.
  apply orb_prop in H1 as [H1|H1], H2 as [H2|H2]; b2p; apply orb_true_iff; [left; lia..|]. right.
  rewrite (IH b c) by done. rewrite andb_true_r. lia.
Qed.
#[local] Instance tuple_le_total : Total tuple_le.
Proof.
  intros a. induction a as [|x a IH]; intros [|y b]; [by left..|by right|]. unfold tuple_le in *. cbn.
  destruct (Z.lt_trichotomy x y) as [H|[->|H]].
  - left. by rewrite (proj2 (Z.ltb_lt _ _)).
  - rewrite Z.eqb_refl. destruct (IH b) as [->| ->]; [left|right]; by rewrite orb_true_r.
  - right. by rewrite (proj2 (Z.ltb_lt _ _)).
Qed.

(** The last of the sorted tuples is the greatest. *)
Lemma last_sorted l : l <> [] -> exists m, last (merge_sort tuple_le l) = Some m /\ m ∈ l /\ forall x, x ∈ l -> tuple_le x m.
Proof.
  intros Hl. pose proof (merge_sort_Permutation tuple_le l) as Hp. pose proof (StronglySorted_merge_sort tuple_le l) as Hs.
  destruct (last (merge_sort tuple_le l)) as [m|] eqn:E.
  - exists m. split; [done|]. split; [rewrite <- Hp; by apply last_Some_elem_of|]. intros x Hx. rewrite <- Hp in Hx.
    apply last_Some in E as [l' E]. rewrite E in Hs, Hx. apply elem_of_app in Hx as [Hx| ->%list_elem_of_singleton]; [|apply lex_le_refl].
    clear -Hs Hx. induction l' as [|y l' IH]; [by apply not_elem_of_nil in Hx|]. cbn in Hs. inversion Hs as [|? ? Hs' Hall]; subst.
    apply elem_of_cons in Hx as [->|Hx]; [|by apply IH]. rewrite Forall_forall in Hall. apply Hall, elem_of_app. right. by left.
  - apply last_None in E. rewrite E in Hp. by apply Permutation_nil in Hp.
Qed.

Context (Hlist : forall s, list_of_set s ≡ₚ elements s).

Lemma elem_of_list_of_set s v : v ∈ list_of_set s <-> v ∈ s.
Proof using Hlist. by rewrite Hlist, elem_of_elements. Qed.

(** The versions both sides support *)
Definition common_versions (a b : PhoneCallProtocol) : gset string :=
  set_of (library_versions a) ∩ set_of (library_versions b) ∩ set_of SUPPORTED_LIBRARY_VERSIONS.
(** [v] is among them, and none of them is greater. *)
Definition best_version (s : gset string) (v : string) : Prop :=
  v ∈ s /\ forall w, w ∈ s -> exists lv lw, version_nums None v = Ok lv /\ version_nums None w = Ok lw /\ tuple_le lw lv.

Lemma pick_ok a b final : exists vs, _pick_merged_library_versions a b final = Ok vs /\ vs <> [] /\
  Forall (fun v => v ∈ SUPPORTED_LIBRARY_VERSIONS) vs /\
  (common_versions a b <> ∅ -> if final then exists v, vs = [v] /\ best_version (common_versions a b) v else forall v, v ∈ vs <-> v ∈ common_versions a b).
Proof using Hlist.
  unfold _pick_merged_library_versions. fold (common_versions a b).
  assert (exists merged, match list_of_set (common_versions a b) with [] => _normalize_library_versions (list_of_set (set_of (library_versions a) ∪ set_of (library_versions b))) | _ :: _ => list_of_set (common_versions a b) end = merged /\
    merged <> [] /\ Forall (fun v => v ∈ SUPPORTED_LIBRARY_VERSIONS) merged /\ (common_versions a b <> ∅ -> forall v, v ∈ merged <-> v ∈ common_versions a b)) as (merged & -> & Hne & Hsup & Hcom).
  { destruct (list_of_set (common_versions a b)) as [|v l] eqn:E.
    - destruct (normalized (list_of_set (set_of (library_versions a) ∪ set_of (library_versions b)))) as [H1 H2]. eexists. split_and!; [done..|].
      intros []. apply set_eq. intros v. rewrite <- elem_of_list_of_set, E. set_solver.
    - exists (v :: l). rewrite <- E. split_and!; [done|by rewrite E| |].
      + apply Forall_forall. intros x Hx%elem_of_list_of_set. unfold common_versions, set_of in Hx. apply elem_of_intersection in Hx as [_ Hx].
        by apply elem_of_list_to_set in Hx.
      + intros _ w. apply elem_of_list_of_set. }
  destruct final; cbn [negb]; [|by exists merged].
  destruct (parsed_versions merged Hsup) as (ls & -> & Hls). cbn [mbind result_bind].
  destruct (last_sorted ls) as (m & -> & Hm & Hmax). { intros ->. by apply Forall2_nil_inv_r in Hls. }
  destruct (list_elem_of_lookup_1 _ _ Hm) as [i Hi]. destruct (Forall2_lookup_r _ _ _ _ _ Hls Hi) as (v & Hv & Ev & <-).
  assert (version_string m ∈ merged) as Hin by (by eapply list_elem_of_lookup_2).
  eexists. split; [done|]. split; [done|]. split; [apply Forall_singleton; rewrite Forall_forall in Hsup; by apply Hsup|].
  intros Hc. eexists. split; [done|]. split; [by apply Hcom|]. intros w Hw%Hcom; [|done].
  destruct (list_elem_of_lookup_1 _ _ Hw) as [j Hj]. destruct (Forall2_lookup_l _ _ _ _ _ Hls Hj) as (lw & Hlw & Ew & _).
  exists m, lw. split_and!; [done..|]. apply Hmax. by eapply list_elem_of_lookup_2.
Qed.

Lemma merge_ok a b final p : proto_ok a -> proto_ok b -> _merge_protocols a b final = Ok p -> proto_ok p.
Proof using Hlist.
  intros (Ha1 & Ha2 & Ha3 & _) (Hb1 & Hb2 & Hb3 & _) H. unfold _merge_protocols in H. destruct (pick_ok a b final) as (vs & E & Hne & Hs & _). rewrite E in H.
  guards H. cbn [mbind result_bind] in H. guards H. injection H as <-. b2p. unfold proto_ok. cbn in *. split_and!; try done; try lia. destruct (udp_p2p a); [done|]. cbn in *. rewrite Ha1. by rewrite orb_true_r.
Qed.
End Protocol.

Definition _DH_BYTES_LEN : nat := 256.
Definition _validate_dh_bytes (data : bytes) (error_message : string) : result unit :=
  raise_if (bool_decide (data = []) || (_DH_BYTES_LEN <? length data)%nat) (ErrorRpc 400 error_message).

Section Phone.
Context (hmac_sha256 : bytes -> bytes) (payload : signed_kind -> Z -> Z -> Z -> bytes).
Context (sha256 : bytes -> bytes) (public_ip : string).
Context (list_of_set : gset string -> list string).
(** The column [protocol], [PhoneCallProtocol.write] and [PhoneCallProtocol.read]; [None] where it raises [InvalidConstructorException] *)
Context {raw : Type} (write_protocol : PhoneCallProtocol -> raw) (read_protocol : raw -> option PhoneCallProtocol).

Record PhoneCall := MkCall {
  pc_access_hash : Z; pc_created_at : Z; pc_started_at : option Z;
  pc_from_user : Z; pc_from_sess : Z; pc_to_user : Z; pc_to_sess : option Z;
  pc_g_a_hash : bytes; pc_g_a : option bytes; pc_g_b : option bytes; pc_key_fp : option Z;
  pc_discard_reason : option CallDiscardReason; pc_duration : option Z; pc_protocol : raw }.

(** ** The call as it is sent *)
Inductive Connection := PhoneConnectionWebrtc (id : Z) (ip : string) (port : Z) | PhoneConnection (id : Z) (ip : string) (port : Z) (peer_tag : bytes).
Record CallCommon := MkCommon { cc_id : Z; cc_access_hash : Z; cc_date : Z; cc_admin_id : Z; cc_participant_id : Z; cc_protocol : PhoneCallProtocol }.
Inductive TLPhoneCall :=
  | PhoneCallDiscarded (id : Z) (reason : option CallDiscardReason) (duration : option Z)
  | PhoneCallWaiting (c : CallCommon)
  | PhoneCallRequested (c : CallCommon) (g_a_hash : bytes)
  | PhoneCallAccepted (c : CallCommon) (g_b : bytes)
  | TLPhoneCallOk (c : CallCommon) (g_a_or_b : bytes) (key_fingerprint : Z) (connections : list Connection) (start_date : Z).

(** What [PhoneCall.to_tl] returns: a discarded call, or one that is formatted for whom it is sent to *)
Inductive PhoneCallTl := TlCallDiscarded (id : Z) (reason : CallDiscardReason) (duration : option Z) | PhoneCallToFormat (id : Z) (c : PhoneCall) (protocol : PhoneCallProtocol).

Definition timestamp (t : Z) : Z := Z.quot t 1000000.

Definition call_to_tl (id : Z) (c : PhoneCall) : PhoneCallTl :=
  match pc_discard_reason c with
  | Some reason => TlCallDiscarded id reason (pc_duration c)
  | None => match read_protocol (pc_protocol c) with
    | None => TlCallDiscarded id DISCONNECT None
    | Some protocol => PhoneCallToFormat id c protocol
    end
  end.

Definition _STUN_SERVERS : list (Z * string) :=
  [(1, "stun.l.google.com"); (2, "stun1.l.google.com"); (3, "stun2.l.google.com"); (4, "stun3.l.google.com"); (5, "stun4.l.google.com")]%string.
Definition _connections (id : Z) (start_date : option Z) : list Connection :=
  match start_date with
  | None => []
  | Some _ =>
    let peer_tag := take 16 (sha256 (String.list_byte_of_string ("call:" ++ pretty id))) in
    ((fun ih => PhoneConnectionWebrtc ih.1 ih.2 19302) <$> _STUN_SERVERS) ++ [PhoneConnection 111 public_ip 22345 peer_tag]
  end.

Record CallCtx := MkCallCtx { cx_auth_id : Z; cx_user_id : Z }.

(** [bytes] that are required and [None] *)
Definition need_bytes (b : option bytes) : result bytes := match b with Some b => Ok b | None => Raise TypeError end.

Definition call_write (ctx : CallCtx) (t : PhoneCallTl) : result TLPhoneCall :=
  match t with
  | TlCallDiscarded id reason duration => Ok (PhoneCallDiscarded id (Some reason) duration)
  | PhoneCallToFormat id c protocol =>
    let common := MkCommon id (pc_access_hash c) (timestamp (pc_created_at c)) (pc_from_user c) (pc_to_user c) protocol in
    let start_date := timestamp <$> pc_started_at c in
    let ok g := TLPhoneCallOk common g (default 0 (pc_key_fp c)) (_connections id start_date) (default 0 start_date) in
    if cx_user_id ctx =? pc_from_user c then
      match pc_to_sess c, pc_g_a c with
      | None, _ => Ok (PhoneCallWaiting common)
      | Some _, None => g_b ← need_bytes (pc_g_b c); Ok (PhoneCallAccepted common g_b)
      | Some _, Some _ => g_b ← need_bytes (pc_g_b c); Ok (ok g_b)
      end
    else if cx_user_id ctx =? pc_to_user c then
      match pc_to_sess c with
      | None => Ok (PhoneCallRequested common (pc_g_a_hash c))
      | Some s =>
        if s =? cx_auth_id ctx then
          match pc_g_a c with None => Ok (PhoneCallWaiting common) | Some g_a => Ok (ok g_a) end
        else Ok (PhoneCallDiscarded id None None)
      end
    else Raise Unreachable
  end.

(** ** The state *)
Inductive call_event :=
  | SentCall (sessions : list Z) (call : PhoneCallTl)
  | SentSignaling (session call_id : Z) (data : bytes)
  | SentMessage (owner call_id : Z) (reason : CallDiscardReason) (duration : option Z).

Record PhoneDb := MkPhoneDb {
  phone_calls_enabled : bool;
  ph_peers : PeerDb; ph_privacy : PrivacyDb;
  ph_users : gmap Z CallUser; ph_auths : gmap Z CallAuth;
  calls : gmap Z PhoneCall; next_call : Z;
  wrote : gset (Z * Z);                       (* whoever wrote a message in the dialog with whom *)
  ph_state : gmap Z Z;                        (* the pts of each user *)
  call_updates : list (Z * Z * Z);            (* the PHONE_CALL rows: user, pts, call *)
  call_log : list call_event }.
Abbreviation C_ := (M PhoneDb).

Definition with_calls (c : gmap Z PhoneCall) (n : Z) (d : PhoneDb) : PhoneDb :=
  MkPhoneDb (phone_calls_enabled d) (ph_peers d) (ph_privacy d) (ph_users d) (ph_auths d) c n (wrote d) (ph_state d) (call_updates d) (call_log d).
Definition with_call_peers (p : PeerDb) (d : PhoneDb) : PhoneDb :=
  MkPhoneDb (phone_calls_enabled d) p (ph_privacy d) (ph_users d) (ph_auths d) (calls d) (next_call d) (wrote d) (ph_state d) (call_updates d) (call_log d).
Definition with_call_privacy (p : PrivacyDb) (d : PhoneDb) : PhoneDb :=
  MkPhoneDb (phone_calls_enabled d) (ph_peers d) p (ph_users d) (ph_auths d) (calls d) (next_call d) (wrote d) (ph_state d) (call_updates d) (call_log d).
Definition with_call_state (w : gset (Z * Z)) (s : gmap Z Z) (u : list (Z * Z * Z)) (l : list call_event) (d : PhoneDb) : PhoneDb :=
  MkPhoneDb (phone_calls_enabled d) (ph_peers d) (ph_privacy d) (ph_users d) (ph_auths d) (calls d) (next_call d) w s u l.

Definition on_peers {A} (m : D A) : C_ A := fun d => let '(r, p) := m (ph_peers d) in (r, with_call_peers p d).
Definition on_privacy {A} (m : P A) : C_ A := fun d => let '(r, p) := m (ph_privacy d) in (r, with_call_privacy p d).
Definition on_pts {A} (m : Pts.P A) : C_ A := fun d => let '(r, s) := m (ph_state d) in (r, with_call_state (wrote d) s (call_updates d) (call_log d) d).
Definition log_event (e : call_event) : C_ unit := modify (fun d => with_call_state (wrote d) (ph_state d) (call_updates d) (call_log d ++ [e]) d).
Definition save_call (id : Z) (c : PhoneCall) : C_ unit := modify (fun d => with_calls (<[id := c]> (calls d)) (next_call d) d).

(** [upd.phone_call_update], with the sessions named *)
Definition phone_call_update (user_id id : Z) (c : PhoneCall) (sessions : list Z) : C_ PhoneCallTl :=
  new_pts ← on_pts (Pts.add_pts user_id 1);
  modify (fun d => with_call_state (wrote d) (ph_state d) (call_updates d ++ [(user_id, new_pts, id)]) (call_log d) d);;
  log_event (SentCall sessions (call_to_tl id c));;
  mret (call_to_tl id c).

Definition phone_signaling_update (session_id call_id : Z) (data : bytes) : C_ unit := log_event (SentSignaling session_id call_id data).

Definition _call_sessions_for_user (user_id : Z) (d : PhoneDb) : list Z :=
  fst <$> map_to_list (filter (fun ka => ca_user ka.2 = user_id /\ ca_allow_call_requests ka.2 = true) (ph_auths d)).

(** ** Spam blocks *)
Definition user_spam_blocked (user_id : Z) (d : PhoneDb) : bool := default false (cu_spam_blocked <$> ph_users d !! user_id).
Definition user_is_bot (user_id : Z) (d : PhoneDb) : bool := default false (bot <$> users (ph_peers d) !! user_id).
Definition called (from_user to_user : Z) (d : PhoneDb) : bool :=
  existsb (fun kc => (pc_from_user kc.2 =? from_user) && (pc_to_user kc.2 =? to_user)) (map_to_list (calls d)).
Definition peer_has_incoming_contact (p : Peer) (user_id : Z) (d : PhoneDb) : bool :=
  match p_type p, p_user p with
  | USER, Some other_id => bool_decide ((other_id, user_id) ∈ wrote d) || called other_id user_id d
  | _, _ => false
  end.

(** [check_user_spam_blocked], for the peer of a user who is no bot *)
Definition check_user_spam_blocked (user_id : Z) (p : Peer) : C_ unit :=
  d ← get;
  ensure (user_is_bot user_id d || negb (user_spam_blocked user_id d) || peer_has_incoming_contact p user_id d) (ErrorRpc 400 "PEER_FLOOD").

(** ** Service messages *)
Definition peer_of (owner user : Z) : C_ (option (Z * Peer)) := on_peers (get_or_none (fun _ => owner_user owner user)).

(** [upd.send_message] for one owner's message *)
Definition send_message (owner call_id : Z) (reason : CallDiscardReason) (duration : option Z) : C_ unit :=
  on_pts (Pts.add_pts owner 1);;
  log_event (SentMessage owner call_id reason duration).

(** The first owner is [requester_id]'s, if it is there; the result says whether its updates are returned. *)
Definition _send_call_service_messages (id : Z) (c : PhoneCall) (reason : CallDiscardReason) (requester_id : option Z) : C_ bool :=
  d ← get;
  let from_user := pc_from_user c in
  allowed ← (if negb (user_is_bot from_user d) && user_spam_blocked from_user d then
      caller_peer ← peer_of from_user (pc_to_user c);
      d ← get;
      mret (match caller_peer with None => false | Some p => peer_has_incoming_contact p.2 from_user d end)
    else mret true);
  if negb allowed then mret false
  else
    peer ← on_peers (get_or_create_for_user from_user (pc_to_user c));
    opposite ← on_peers (get_opposite peer.2 false);
    modify (fun d => with_call_state ({[ (from_user, pc_to_user c) ]} ∪ wrote d) (ph_state d) (call_updates d) (call_log d) d);;
    let owners := omap (fun p => p_owner p.2) (peer :: opposite) in
    let is_requester o := bool_decide (Some o = requester_id) in
    mapM (fun o => send_message o id reason (pc_duration c)) (filter (fun o => is_requester o = true) owners);;
    mapM (fun o => send_message o id reason (pc_duration c)) (filter (fun o => is_requester o = false) owners);;
    mret (existsb is_requester owners).

(** ** Handlers *)
Definition discarded_with (reason : CallDiscardReason) (duration : option Z) (c : PhoneCall) : PhoneCall :=
  MkCall (pc_access_hash c) (pc_created_at c) (pc_started_at c) (pc_from_user c) (pc_from_sess c) (pc_to_user c) (pc_to_sess c) (pc_g_a_hash c)
    (pc_g_a c) (pc_g_b c) (pc_key_fp c) (Some reason) duration (pc_protocol c).

Definition is_stale (from_user_id to_user_id : Z) (c : PhoneCall) : bool :=
  (pc_from_user c =? from_user_id) && (pc_to_user c =? to_user_id) && bool_decide (pc_discard_reason c = None) && bool_decide (pc_started_at c = None).

Definition discard_stale (from_user_id : Z) (ic : Z * PhoneCall) : C_ unit :=
  let call := discarded_with HANGUP (pc_duration ic.2) ic.2 in
  save_call ic.1 call;;
  _send_call_service_messages ic.1 call HANGUP (Some from_user_id);;
  d ← get;
  let callee_sessions := _call_sessions_for_user (pc_to_user call) d in
  phone_call_update (pc_from_user call) ic.1 call [pc_from_sess call];;
  if bool_decide (callee_sessions = []) then mret tt
  else phone_call_update (pc_to_user call) ic.1 call callee_sessions;; mret tt.

Definition _discard_stale_outgoing_calls (from_user_id to_user_id : Z) : C_ unit :=
  d ← get;
  mapM (discard_stale from_user_id) (filter (fun ic => is_stale from_user_id to_user_id ic.2 = true) (map_to_list (calls d)));; mret tt.

Definition auth_of_user (auth_id user_id : Z) : C_ unit :=
  d ← get;
  match ph_auths d !! auth_id with
  | Some a => ensure (ca_user a =? user_id) DoesNotExist
  | None => raise DoesNotExist
  end.

Record RequestCall := MkRequestCall { rc_user_id : InputPeer; rc_g_a_hash : bytes; rc_protocol : PhoneCallProtocol }.

(** [access_hash] is what [call_gen_access_hash] draws. *)
Definition request_call (cx : CallCtx) (now access_hash : Z) (r : RequestCall) : C_ PhoneCallTl :=
  d ← get;
  ensure (phone_calls_enabled d) (ErrorRpc 403 "CALL_PROTOCOL_COMPAT_LAYER_INVALID");;
  protocol ← lift_result (_check_protocol (rc_protocol r));
  ensure (length (rc_g_a_hash r) =? 32)%nat (ErrorRpc 400 "G_A_HASH_INVALID");;
  let user := cx_user_id cx in
  peer ← on_peers (from_input_peer_raise hmac_sha256 payload (cx_auth_id cx) user (rc_user_id r) "USER_ID_INVALID" 400 false (Some [USER]));
  target_id ← lift_result (need (p_user peer.2));
  target ← on_peers (user_row target_id);
  d ← get;
  ensure (negb (user_deleted target)) (ErrorRpc 400 "INPUT_USER_DEACTIVATED");;
  ensure (negb (bot target || default false (cu_system <$> ph_users d !! target_id))) (ErrorRpc 400 "USER_ID_INVALID");;
  ensure (bool_decide (p_blocked_at peer.2 = None)) (ErrorRpc 403 "USER_IS_BLOCKED");;
  access ← on_privacy (has_access_to user target_id PHONE_CALL);
  ensure access (ErrorRpc 403 "USER_PRIVACY_RESTRICTED");;
  check_user_spam_blocked user peer.2;;
  auth_of_user (cx_auth_id cx) user;;
  d ← get;
  let target_authorizations := _call_sessions_for_user target_id d in
  _discard_stale_outgoing_calls user target_id;;
  let missed := bool_decide (target_authorizations = []) in
  d ← get;
  let id := next_call d in
  let call := MkCall access_hash now None user (cx_auth_id cx) target_id None (rc_g_a_hash r) None None None (if missed then Some MISSED else None) None
    (write_protocol protocol) in
  modify (with_calls (<[id := call]> (calls d)) (id + 1));;
  (if missed then _send_call_service_messages id call MISSED (Some user);; mret tt else mret tt);;
  phone_call_update user id call [cx_auth_id cx];;
  (if missed then mret tt else phone_call_update target_id id call target_authorizations;; mret tt);;
  mret (call_to_tl id call).

Record InputPhoneCall := MkInputCall { ic_id : Z; ic_access_hash : Z }.

(** The row of a call that satisfies a test *)
Definition find_call (peer : InputPhoneCall) (f : PhoneCall -> bool) (d : PhoneDb) : option PhoneCall :=
  match calls d !! ic_id peer with
  | Some c => if (pc_access_hash c =? ic_access_hash peer) && f c then Some c else None
  | None => None
  end.

Definition is_active (c : PhoneCall) : bool := bool_decide (pc_discard_reason c = None).
Definition takes_part (user_id auth_id : Z) (c : PhoneCall) : bool :=
  ((pc_from_user c =? user_id) && (pc_from_sess c =? auth_id)) || (pc_to_user c =? user_id).
Definition _get_call (cx : CallCtx) (peer : InputPhoneCall) (active_only : bool) (d : PhoneDb) : option PhoneCall :=
  find_call peer (fun c => (negb active_only || is_active c) && takes_part (cx_user_id cx) (cx_auth_id cx) c) d.

(** The updates a handler returns: the call, and whether those of the service message were merged into them *)
Definition _finalize_discard (now id : Z) (call : PhoneCall) (user_id : Z) (reason : CallDiscardReason) (send_service_message : bool) : C_ (PhoneCallTl * bool) :=
  let first_discard := is_active call in
  let call := if first_discard
    then discarded_with reason (match pc_started_at call with Some started => Some (Z.quot (now - started) 1000000) | None => pc_duration call end) call else call in
  (if first_discard then save_call id call else mret tt);;
  service_updates ← (if first_discard && send_service_message then _send_call_service_messages id call reason (Some user_id) else mret false);
  d ← get;
  let target_authorizations := match pc_to_sess call with None => _call_sessions_for_user (pc_to_user call) d | Some s => [s] end in
  phone_call_update (pc_to_user call) id call target_authorizations;;
  result ← phone_call_update user_id id call [pc_from_sess call];
  mret (result, service_updates).

(** [is_disconnect]: the reason of the request is [PhoneCallDiscardReasonDisconnect]. *)
Definition discard_call (cx : CallCtx) (now : Z) (peer : InputPhoneCall) (is_disconnect : bool) : C_ (PhoneCallTl * bool) :=
  d ← get;
  match _get_call cx peer false d with
  | None => raise (ErrorRpc 400 "CALL_PEER_INVALID")
  | Some call =>
    if negb (is_active call) then r ← phone_call_update (cx_user_id cx) (ic_id peer) call [pc_from_sess call]; mret (r, false)
    else
      let reason := match pc_to_sess call with
        | None => if cx_user_id cx =? pc_from_user call then MISSED else BUSY
        | Some _ => if is_disconnect then DISCONNECT else HANGUP
        end in
      _finalize_discard now (ic_id peer) call (cx_user_id cx) reason true
  end.

(** [call.protocol_tl_raise()] *)
Definition protocol_tl_raise (c : PhoneCall) : result PhoneCallProtocol :=
  match read_protocol (pc_protocol c) with Some p => Ok p | None => Raise (ErrorRpc 500 "PROTOCOL_INVALID") end.

Record AcceptCall := MkAcceptCall { ac_peer : InputPhoneCall; ac_g_b : bytes; ac_protocol : PhoneCallProtocol }.

Definition accepted_by (session : Z) (g_b : bytes) (protocol : raw) (c : PhoneCall) : PhoneCall :=
  MkCall (pc_access_hash c) (pc_created_at c) (pc_started_at c) (pc_from_user c) (pc_from_sess c) (pc_to_user c) (Some session) (pc_g_a_hash c)
    (pc_g_a c) (Some g_b) (pc_key_fp c) (pc_discard_reason c) (pc_duration c) protocol.

Definition accept_call (cx : CallCtx) (r : AcceptCall) : C_ PhoneCallTl :=
  lift_result (_validate_dh_bytes (ac_g_b r) "G_B_INVALID");;
  offered ← lift_result (_check_protocol (ac_protocol r));
  let id := ic_id (ac_peer r) in
  call ← transaction (
    d ← get;
    match find_call (ac_peer r) (fun c => (pc_to_user c =? cx_user_id cx) && is_active c) d with
    | None => raise (ErrorRpc 400 "CALL_PEER_INVALID")
    | Some call =>
      ensure (bool_decide (pc_g_b call = None)) (ErrorRpc 400 "CALL_ALREADY_ACCEPTED");;
      ensure (match pc_to_sess call with Some s => s =? cx_auth_id cx | None => true end) (ErrorRpc 400 "CALL_ALREADY_ACCEPTED");;
      auth_of_user (cx_auth_id cx) (cx_user_id cx);;
      mine ← lift_result (protocol_tl_raise call);
      merged ← lift_result (_merge_protocols list_of_set mine offered false);
      let call := accepted_by (cx_auth_id cx) (ac_g_b r) (write_protocol merged) call in
      save_call id call;; mret call
    end);
  d ← get;
  let target_authorizations := _call_sessions_for_user (pc_to_user call) d in
  phone_call_update (cx_user_id cx) id call target_authorizations;;
  phone_call_update (pc_from_user call) id call [pc_from_sess call];;
  mret (call_to_tl id call).

Record ConfirmCall := MkConfirmCall { cf_peer : InputPhoneCall; cf_g_a : bytes; cf_key_fingerprint : Z; cf_protocol : PhoneCallProtocol }.

Definition confirmed_with (g_a : bytes) (key_fp : Z) (protocol : raw) (now : Z) (c : PhoneCall) : PhoneCall :=
  MkCall (pc_access_hash c) (pc_created_at c) (Some now) (pc_from_user c) (pc_from_sess c) (pc_to_user c) (pc_to_sess c) (pc_g_a_hash c)
    (Some g_a) (pc_g_b c) (Some key_fp) (pc_discard_reason c) (pc_duration c) protocol.

Definition callers_call (cx : CallCtx) (peer : InputPhoneCall) (d : PhoneDb) : option PhoneCall :=
  find_call peer (fun c => (pc_from_user c =? cx_user_id cx) && is_active c) d.

(** The first half: the row is there, accepted, and the key is the one that was promised. [None] is a call that was confirmed before. *)
Definition confirm_check (cx : CallCtx) (r : ConfirmCall) : C_ (PhoneCallProtocol * option PhoneCallTl) :=
  lift_result (_validate_dh_bytes (cf_g_a r) "G_A_INVALID");;
  offered ← lift_result (_check_protocol (cf_protocol r));
  d ← get;
  match callers_call cx (cf_peer r) d with
  | None => raise (ErrorRpc 400 "CALL_PEER_INVALID")
  | Some call =>
    ensure (bool_decide (is_Some (pc_g_b call))) (ErrorRpc 400 "CALL_PEER_INVALID");;
    ensure (bool_decide (sha256 (cf_g_a r) = pc_g_a_hash call)) (ErrorRpc 400 "G_A_INVALID");;
    mret (offered, if bool_decide (is_Some (pc_g_a call)) then Some (call_to_tl (ic_id (cf_peer r)) call) else None)
  end.

(** The second half reads the row again under its lock. *)
Definition confirm_store (cx : CallCtx) (now : Z) (r : ConfirmCall) (offered : PhoneCallProtocol) : C_ PhoneCallTl :=
  let id := ic_id (cf_peer r) in
  call ← transaction (
    d ← get;
    match callers_call cx (cf_peer r) d with
    | None => raise (ErrorRpc 400 "CALL_PEER_INVALID")
    | Some call =>
      if bool_decide (is_Some (pc_g_a call)) then mret (inl call)
      else
        mine ← lift_result (protocol_tl_raise call);
        merged ← lift_result (_merge_protocols list_of_set mine offered true);
        let call := confirmed_with (cf_g_a r) (cf_key_fingerprint r) (write_protocol merged) now call in
        save_call id call;; mret (inr call)
    end);
  match call with
  | inl call => mret (call_to_tl id call)
  | inr call =>
    phone_call_update (cx_user_id cx) id call [pc_from_sess call];;
    (match pc_to_sess call with Some s => phone_call_update (pc_to_user call) id call [s];; mret tt | None => mret tt end);;
    mret (call_to_tl id call)
  end.

Definition confirm_call (cx : CallCtx) (now : Z) (r : ConfirmCall) : C_ PhoneCallTl :=
  checked ← confirm_check cx r;
  match checked.2 with Some answer => mret answer | None => confirm_store cx now r checked.1 end.

Definition received_by (session : Z) (c : PhoneCall) : PhoneCall :=
  MkCall (pc_access_hash c) (pc_created_at c) (pc_started_at c) (pc_from_user c) (pc_from_sess c) (pc_to_user c) (Some session) (pc_g_a_hash c)
    (pc_g_a c) (pc_g_b c) (pc_key_fp c) (pc_discard_reason c) (pc_duration c) (pc_protocol c).

(** The call to be claimed, if there is one *)
Definition received_check (cx : CallCtx) (peer : InputPhoneCall) : C_ (option PhoneCall) := gets (fun d =>
  match find_call peer (fun c => (pc_to_user c =? cx_user_id cx) && is_active c && bool_decide (pc_g_b c = None)) d with
  | Some call => if decide (pc_to_sess call = None) then Some call else None
  | None => None
  end).

(** [save(update_fields=["to_sess_id"])] writes one column of the row. *)
Definition received_store (cx : CallCtx) (peer : InputPhoneCall) (call : PhoneCall) : C_ unit :=
  auth_of_user (cx_auth_id cx) (cx_user_id cx);;
  let call := received_by (cx_auth_id cx) call in
  modify (fun d => with_calls (alter (received_by (cx_auth_id cx)) (ic_id peer) (calls d)) (next_call d) d);;
  d ← get;
  let other_sessions := filter (fun s => s <> cx_auth_id cx) (_call_sessions_for_user (cx_user_id cx) d) in
  if bool_decide (other_sessions = []) then mret tt else phone_call_update (cx_user_id cx) (ic_id peer) call other_sessions;; mret tt.

Definition received_call (cx : CallCtx) (peer : InputPhoneCall) : C_ bool :=
  call ← received_check cx peer;
  match call with None => mret true | Some call => received_store cx peer call;; mret true end.

Definition send_signaling_data (cx : CallCtx) (peer : InputPhoneCall) (data : bytes) : C_ bool :=
  if bool_decide (data = []) then mret true
  else
    d ← get;
    match _get_call cx peer true d with
    | None => mret true
    | Some call =>
      let session_id := if cx_user_id cx =? pc_from_user call then pc_to_sess call else Some (pc_from_sess call) in
      match session_id with
      | None => mret true
      | Some s => phone_signaling_update s (ic_id peer) data;; mret true
      end
    end.

(** ** Rows that are as they should be *)
Record row_ok (c : PhoneCall) : Prop := {
  ro_g_b : is_Some (pc_g_b c) -> is_Some (pc_to_sess c);
  ro_g_a : forall g_a, pc_g_a c = Some g_a -> sha256 g_a = pc_g_a_hash c /\ is_Some (pc_g_b c) /\ is_Some (pc_started_at c) /\ is_Some (pc_key_fp c);
  ro_fresh : pc_g_a c = None -> pc_started_at c = None /\ pc_key_fp c = None;
  ro_duration : is_Some (pc_duration c) -> is_Some (pc_discard_reason c) /\ is_Some (pc_started_at c);
  ro_protocol : exists p, read_protocol (pc_protocol c) = Some p /\ proto_ok p;
}.

Record calls_ok (d : PhoneDb) : Prop := {
  co_below : forall id c, calls d !! id = Some c -> id < next_call d;
  co_rows : forall id c, calls d !! id = Some c -> row_ok c;
}.

(** What a request may do to a call *)
Inductive changed (cx : CallCtx) : PhoneCall -> PhoneCall -> Prop :=
  | ch_received c : pc_to_user c = cx_user_id cx -> is_active c = true -> pc_g_b c = None -> pc_to_sess c = None ->
      changed cx c (received_by (cx_auth_id cx) c)
  | ch_accepted c g_b protocol : pc_to_user c = cx_user_id cx -> is_active c = true -> pc_g_b c = None -> pc_g_a c = None ->
      pc_to_sess c = None \/ pc_to_sess c = Some (cx_auth_id cx) -> changed cx c (accepted_by (cx_auth_id cx) g_b protocol c)
  | ch_confirmed c g_a key_fp protocol now : pc_from_user c = cx_user_id cx -> is_active c = true -> is_Some (pc_g_b c) -> pc_g_a c = None ->
      sha256 g_a = pc_g_a_hash c -> changed cx c (confirmed_with g_a key_fp protocol now c)
  | ch_discarded c reason duration : is_active c = true ->
      takes_part (cx_user_id cx) (cx_auth_id cx) c = true \/ (pc_from_user c = cx_user_id cx /\ pc_started_at c = None) ->
      changed cx c (discarded_with reason duration c).

Definition new_call (cx : CallCtx) (c : PhoneCall) : Prop :=
  pc_from_user c = cx_user_id cx /\ pc_from_sess c = cx_auth_id cx /\ pc_to_sess c = None /\ pc_g_a c = None /\ pc_g_b c = None.

Record justified (cx : CallCtx) (d d' : PhoneDb) : Prop := {
  ju_old : forall id c, calls d !! id = Some c -> exists c', calls d' !! id = Some c' /\ rtc (changed cx) c c';
  ju_new : forall id c', calls d !! id = None -> calls d' !! id = Some c' -> exists c, new_call cx c /\ rtc (changed cx) c c';
}.

(** ** Programs that leave the calls alone *)
Definition keeps {A} (m : C_ A) : Prop := forall d, calls (m d).2 = calls d /\ next_call (m d).2 = next_call d.

Lemma unmoved_bind {A B} (m : C_ A) (f : A -> C_ B) : keeps m -> (forall a, keeps (f a)) -> keeps (m ≫= f).
Proof.
  intros Hm Hf d. destruct (Hm d) as [H1 H2]. unfold mbind, M_bind. destruct (m d) as [[a|e] d1]; cbn in *; [|done].
  destruct (Hf a d1) as [H3 H4]. split; congruence.
Qed.
Lemma unmoved_ret {A} (a : A) : keeps (mret a). Proof. done. Qed.
Lemma unmoved_raise {A} e : keeps (raise (A := A) e). Proof. done. Qed.
Lemma unmoved_get : keeps get. Proof. done. Qed.
Lemma unmoved_gets {A} (f : PhoneDb -> A) : keeps (gets f). Proof. done. Qed.
Lemma unmoved_lift {A} (r : result A) : keeps (lift_result r). Proof. done. Qed.
Lemma unmoved_ensure b e : keeps (ensure b e). Proof. by destruct b. Qed.
Lemma unmoved_modify f : (forall d, calls (f d) = calls d /\ next_call (f d) = next_call d) -> keeps (modify f).
Proof. intros H d. apply H. Qed.
Lemma unmoved_mapM {A B} (f : A -> C_ B) l : (forall a, keeps (f a)) -> keeps (mapM f l).
Proof. intros Hf. induction l as [|a l IH]; [apply unmoved_ret|]. cbn. apply unmoved_bind; [done|]. intros b. apply unmoved_bind; [done|]. intros. apply unmoved_ret. Qed.
Lemma unmoved_on_peers {A} (m : D A) : keeps (on_peers m). Proof. intros d. unfold on_peers. by destruct (m (ph_peers d)). Qed.
Lemma unmoved_on_privacy {A} (m : P A) : keeps (on_privacy m). Proof. intros d. unfold on_privacy. by destruct (m (ph_privacy d)). Qed.
Lemma unmoved_on_pts {A} (m : Pts.P A) : keeps (on_pts m). Proof. intros d. unfold on_pts. by destruct (m (ph_state d)). Qed.

Create HintDb phone.
#[local] Hint Resolve unmoved_ret unmoved_raise unmoved_get unmoved_gets unmoved_lift unmoved_ensure unmoved_on_peers unmoved_on_privacy unmoved_on_pts : phone.
Ltac keeps := repeat first
  [ progress eauto with phone | apply unmoved_bind; [|intros ?] | apply unmoved_mapM; intros ? | apply unmoved_modify; done
  | case_match | progress unfold log_event, peer_of, check_user_spam_blocked, auth_of_user ].

Lemma unmoved_phone_call_update u id c l : keeps (phone_call_update u id c l).
Proof. unfold phone_call_update. keeps. Qed.
#[local] Hint Resolve unmoved_phone_call_update : phone.
Lemma unmoved_send_message o id r t : keeps (send_message o id r t).
Proof. unfold send_message. keeps. Qed.
#[local] Hint Resolve unmoved_send_message : phone.
Lemma unmoved_service id c r o : keeps (_send_call_service_messages id c r o).
Proof. unfold _send_call_service_messages. keeps. Qed.
#[local] Hint Resolve unmoved_service : phone.
Lemma unmoved_check_spam u p : keeps (check_user_spam_blocked u p).
Proof. keeps. Qed.
Lemma unmoved_auth a u : keeps (auth_of_user a u).
Proof. keeps. Qed.
#[local] Hint Resolve unmoved_check_spam unmoved_auth : phone.

(** ** Programs whose changes of calls are justified *)
Lemma justified_refl cx d d' : calls d' = calls d -> justified cx d d'.
Proof. intros E. split; intros id c; rewrite E; [eauto using rtc_refl|congruence]. Qed.
Lemma justified_trans cx d1 d2 d3 : justified cx d1 d2 -> justified cx d2 d3 -> justified cx d1 d3.
Proof.
  intros [O1 N1] [O2 N2]. split.
  - intros id c Hc. destruct (O1 id c Hc) as (c' & Hc' & H1). destruct (O2 id c' Hc') as (c'' & Hc'' & H2). exists c''. split; [done|by etransitivity].
  - intros id c3 H1 H3. destruct (calls d2 !! id) as [c2|] eqn:E.
    + destruct (N1 id c2 H1 E) as (c & Hn & Hs). destruct (O2 id c2 E) as (c' & Hc' & H2). assert (c' = c3) as -> by congruence.
      exists c. split; [done|by etransitivity].
    + by apply (N2 id).
Qed.

Definition fine (cx : CallCtx) {A} (m : C_ A) : Prop := forall d, calls_ok d -> calls_ok (m d).2 /\ justified cx d (m d).2.

Lemma unmoved_ok d d' : calls d' = calls d -> next_call d' = next_call d -> calls_ok d -> calls_ok d'.
Proof. intros E1 E2 [H1 H2]. split; intros id c; rewrite E1, ?E2; eauto. Qed.
Lemma unmoved_fine cx {A} (m : C_ A) : keeps m -> fine cx m.
Proof. intros Hm d Hd. destruct (Hm d) as [H1 H2]. split; [by eapply unmoved_ok|by apply justified_refl]. Qed.
Lemma fine_bind cx {A B} (m : C_ A) (f : A -> C_ B) : fine cx m -> (forall a, fine cx (f a)) -> fine cx (m ≫= f).
Proof.
  intros Hm Hf d Hd. destruct (Hm d Hd) as [H1 H2]. unfold mbind, M_bind. destruct (m d) as [[a|e] d1]; cbn in *; [|done].
  destruct (Hf a d1 H1) as [H3 H4]. split; [done|by eapply justified_trans].
Qed.
(** After a look at the state *)
Lemma fine_get cx {A} (f : PhoneDb -> C_ A) : (forall d, calls_ok d -> calls_ok (f d d).2 /\ justified cx d (f d d).2) -> fine cx (get ≫= f).
Proof. done. Qed.
Lemma fine_transaction cx {A} (m : C_ A) : fine cx m -> fine cx (transaction m).
Proof. intros Hm d Hd. destruct (Hm d Hd) as [H1 H2]. unfold transaction. destruct (m d) as [[a|e] d1]; cbn in *; [done|]. split; [done|by apply justified_refl]. Qed.

(** A run whose changes are justified *)
Definition good (cx : CallCtx) (d : PhoneDb) {A} (x : result A * PhoneDb) : Prop := calls_ok x.2 /\ justified cx d x.2.
Lemma good_stop cx d {A} (r : result A) : calls_ok d -> good cx d (r, d).
Proof. intros Hd. split; [done|by apply justified_refl]. Qed.
Lemma good_reads cx d {A B} (m : C_ A) (f : A -> C_ B) : calls_ok d -> (m d).2 = d -> (forall a, (m d).1 = Ok a -> good cx d (f a d)) -> good cx d ((m ≫= f) d).
Proof.
  intros Hd Hm Hf. unfold mbind, M_bind. destruct (m d) as [[a|e] d1]; cbn in *; subst; [by apply Hf|by apply good_stop].
Qed.
Lemma reads_ensure b e d : (ensure (S := PhoneDb) b e d).2 = d. Proof. by destruct b. Qed.
Lemma reads_lift {A} (r : result A) d : (lift_result (S := PhoneDb) r d).2 = d. Proof. done. Qed.
Lemma reads_auth a u d : (auth_of_user a u d).2 = d.
Proof. unfold auth_of_user. rewrite get_bind. destruct (ph_auths d !! a); [apply reads_ensure|done]. Qed.

Lemma good_bind cx d {A B} (m : C_ A) (f : A -> C_ B) : good cx d (m d) -> (forall a d1, m d = (Ok a, d1) -> calls_ok d1 -> good cx d1 (f a d1)) ->
  good cx d ((m ≫= f) d).
Proof.
  intros [H1 H2] Hf. unfold mbind, M_bind. destruct (m d) as [[a|e] d1]; [|done]. destruct (Hf a d1) as [H3 H4]; [done..|].
  split; [done|by eapply justified_trans].
Qed.

(** A lookup that went before the change decides what the change is made to. *)
Lemma save_call_ok cx d id c c' : calls_ok d -> calls d !! id = Some c -> changed cx c c' -> row_ok c' ->
  calls_ok (save_call id c' d).2 /\ justified cx d (save_call id c' d).2.
Proof.
  intros [H1 H2] Hc Hch Hok. split; split; cbn.
  - intros id0 c0 [[<- <-]|[Hne H0]]%lookup_insert_Some; eauto.
  - intros id0 c0 [[<- <-]|[Hne H0]]%lookup_insert_Some; eauto.
  - intros id0 c0 H0. destruct (decide (id0 = id)) as [->|Hne].
    + exists c'. rewrite lookup_insert_eq. split; [done|]. assert (c0 = c) as -> by congruence. by apply rtc_once.
    + exists c0. rewrite lookup_insert_ne by done. split; [done|apply rtc_refl].
  - intros id0 c0 Hn [[<- <-]|[Hne H0]]%lookup_insert_Some; congruence.
Qed.

Lemma find_call_Some peer f d c : find_call peer f d = Some c -> calls d !! ic_id peer = Some c /\ pc_access_hash c = ic_access_hash peer /\ f c = true.
Proof. unfold find_call. intros H. destruct (calls d !! ic_id peer) as [c0|]; [|done]. if_in H; [|done]. simplify_eq/=. by b2p. Qed.

Context (Hlist : forall s, list_of_set s ≡ₚ elements s) (Hcodec : forall p, read_protocol (write_protocol p) = Some p).

Lemma row_received cx c : row_ok c -> row_ok (received_by (cx_auth_id cx) c).
Proof. intros [H1 H2 H3 H4 H5]. split; cbn; [by intros _; eexists|done..]. Qed.

Lemma row_accepted cx g_b p c : row_ok c -> proto_ok p -> row_ok (accepted_by (cx_auth_id cx) g_b (write_protocol p) c).
Proof using Hcodec.
  intros [H1 H2 H3 H4 H5] Hp. split; cbn; [by intros _; eexists| |done|done|by exists p]. intros g_a Hg. destruct (H2 g_a Hg) as (? & _ & ?).
  split; [done|]. by split; [eexists|].
Qed.

Lemma row_confirmed g_a key_fp p now c : row_ok c -> proto_ok p -> pc_discard_reason c = None -> is_Some (pc_g_b c) -> sha256 g_a = pc_g_a_hash c ->
  row_ok (confirmed_with g_a key_fp (write_protocol p) now c).
Proof using Hcodec.
  intros [H1 H2 H3 H4 H5] Hp Hd Hb Hg. split; cbn; [done| |done| |by exists p].
  - intros g [= <-]. split; [done|]. split; [done|]. by split; eexists.
  - intros Hx. destruct (H4 Hx) as [[? ?] _]. congruence.
Qed.

Lemma row_discarded reason duration c : row_ok c -> (is_Some duration -> is_Some (pc_started_at c)) -> row_ok (discarded_with reason duration c).
Proof. intros [H1 H2 H3 H4 H5] Hd. split; cbn; [done..| |done]. intros Hx. split; [by eexists|by apply Hd]. Qed.

(** A call of which no row was there *)
Lemma create_ok cx d c : calls_ok d -> new_call cx c -> row_ok c ->
  let d' := with_calls (<[next_call d := c]> (calls d)) (next_call d + 1) d in calls_ok d' /\ justified cx d d'.
Proof.
  intros [H1 H2] Hn Hok. assert (calls d !! next_call d = None) as Hfresh by (destruct (calls d !! next_call d) as [c0|] eqn:E; [apply H1 in E; lia|done]).
  split; split; cbn.
  - intros id c0 [[<- <-]|[Hne H0]]%lookup_insert_Some; [lia|apply H1 in H0; lia].
  - intros id c0 [[<- <-]|[Hne H0]]%lookup_insert_Some; eauto.
  - intros id c0 H0. exists c0. rewrite lookup_insert_ne by congruence. split; [done|apply rtc_refl].
  - intros id c0 Hno [[<- <-]|[Hne H0]]%lookup_insert_Some; [|congruence]. exists c. split; [done|apply rtc_refl].
Qed.

(** *** The requests *)
Lemma fine_keeps_after cx {A B} (m : C_ A) (f : A -> C_ B) d : calls_ok (m d).2 /\ justified cx d (m d).2 -> (forall a, keeps (f a)) ->
  calls_ok ((m ≫= f) d).2 /\ justified cx d ((m ≫= f) d).2.
Proof.
  intros [H1 H2] Hf. unfold mbind, M_bind. destruct (m d) as [[a|e] d1]; cbn in *; [|done].
  destruct (unmoved_fine cx _ (Hf a) d1 H1) as [H3 H4]. split; [done|by eapply justified_trans].
Qed.

Lemma stale_save cx c : is_stale (cx_user_id cx) (pc_to_user c) c = true -> changed cx c (discarded_with HANGUP (pc_duration c) c).
Proof. intros H. unfold is_stale in H. b2p. apply ch_discarded; [by apply bool_decide_eq_true|by right]. Qed.

Lemma discard_stale_ok cx id c d : calls_ok d -> calls d !! id = Some c -> is_stale (cx_user_id cx) (pc_to_user c) c = true ->
  let d' := (discard_stale (cx_user_id cx) (id, c) d).2 in
  calls_ok d' /\ justified cx d d' /\ forall id', id' <> id -> calls d' !! id' = calls d !! id'.
Proof.
  intros Hd Hc Hs. set (c' := discarded_with HANGUP (pc_duration c) c).
  destruct (save_call_ok cx d id c c' Hd Hc (stale_save cx c Hs)) as [H1 H2].
  { apply row_discarded; [by eapply co_rows|]. intros Hx. apply (ro_duration c); [by eapply co_rows|done]. }
  unfold discard_stale. cbn zeta. cbn [fst snd]. fold c'. rewrite (M_bind_step _ _ d tt (save_call id c' d).2) by done.
  match goal with |- context [(?m (save_call id c' d).2).2] => assert (keeps m) as Hk by keeps end.
  destruct (Hk (save_call id c' d).2) as [Hk1 Hk2]. split_and!.
  - by eapply unmoved_ok.
  - eapply justified_trans; [exact H2|by apply justified_refl].
  - intros id' Hne. rewrite Hk1. cbn. by rewrite lookup_insert_ne.
Qed.

Lemma discard_all_stale cx l : forall d, calls_ok d -> NoDup l.*1 ->
  (forall id c, (id, c) ∈ l -> calls d !! id = Some c /\ is_stale (cx_user_id cx) (pc_to_user c) c = true) ->
  calls_ok (mapM (discard_stale (cx_user_id cx)) l d).2 /\ justified cx d (mapM (discard_stale (cx_user_id cx)) l d).2.
Proof.
  induction l as [|[id c] l IH]; intros d Hd Hnd Hl; [split; [done|by apply justified_refl]|].
  cbn in Hnd. apply NoDup_cons in Hnd as [Hni Hnd]. destruct (Hl id c) as [Hc Hs]; [by left|].
  destruct (discard_stale_ok cx id c d Hd Hc Hs) as (H1 & H2 & H3). cbn [mapM]. apply good_bind; [done|]. intros u d1 E Hd1. rewrite E in *. cbn [snd] in *.
  apply fine_keeps_after; [|done]. apply IH; [done|done|]. intros id' c' Hin. destruct (Hl id' c') as [? ?]; [by right|]. split; [|done].
  rewrite H3; [done|]. intros ->. apply Hni. apply list_elem_of_fmap. by exists (id, c').
Qed.

Lemma fine_discard_stale cx to_user : fine cx (_discard_stale_outgoing_calls (cx_user_id cx) to_user).
Proof.
  apply fine_get. intros d Hd. apply fine_keeps_after; [|intros; keeps]. apply discard_all_stale; [done| |].
  - set (P := fun ic : Z * PhoneCall => is_stale (cx_user_id cx) to_user ic.2 = true). change (NoDup (filter P (map_to_list (calls d))).*1).
    apply NoDup_fmap_fst; [|apply NoDup_filter, NoDup_map_to_list]. intros id c c' [_ H%elem_of_map_to_list]%list_elem_of_filter [_ H'%elem_of_map_to_list]%list_elem_of_filter.
    congruence.
  - intros id c [Hs Hin%elem_of_map_to_list]%list_elem_of_filter. cbn in Hs. split; [done|]. unfold is_stale in *.
    rewrite !andb_true_iff, !Z.eqb_eq in *. tauto.
Qed.

(** What was checked before a program is known in it. *)
Lemma fine_lift cx {A B} (r : result A) (f : A -> C_ B) : (forall a, r = Ok a -> fine cx (f a)) -> fine cx (lift_result r ≫= f).
Proof. intros Hf d Hd. destruct r as [a|e]; [by apply Hf|]. split; [done|by apply justified_refl]. Qed.
Lemma fine_after cx {A B} (m : C_ A) (f : A -> C_ B) : fine cx m -> (forall a, keeps (f a)) -> fine cx (m ≫= f).
Proof. intros Hm Hf. apply fine_bind; [done|]. intros a. by apply unmoved_fine. Qed.
Lemma fine_modify cx {B} g (f : unit -> C_ B) d : calls_ok (g d) /\ justified cx d (g d) -> keeps (f tt) ->
  calls_ok ((modify g ≫= f) d).2 /\ justified cx d ((modify g ≫= f) d).2.
Proof. intros H Hf. apply fine_keeps_after; [exact H|by intros []]. Qed.

Lemma fine_request cx now access_hash r : fine cx (request_call cx now access_hash r).
Proof using Hcodec.
  unfold request_call. apply fine_bind; [by apply unmoved_fine|intros d0]. apply fine_bind; [apply unmoved_fine; keeps|intros _].
  apply fine_lift. intros protocol Hp%check_protocol_ok. destruct Hp as [Hp _].
  repeat (apply fine_bind; [solve [apply unmoved_fine; keeps]|intros ?]). apply fine_bind; [apply fine_discard_stale|intros _].
  apply fine_get. intros d Hd. cbn zeta. apply fine_modify; [|keeps]. apply create_ok; [done..|]. split; cbn; [by intros []|done|done|by intros []|].
  exists protocol. split; [apply Hcodec|done].
Qed.

Lemma fine_discard cx now peer is_disconnect : fine cx (discard_call cx now peer is_disconnect).
Proof.
  apply fine_get. intros d Hd. unfold _get_call. destruct (find_call _ _ d) as [c|] eqn:E; [|by apply (unmoved_fine cx (raise _) (unmoved_raise _))].
  apply find_call_Some in E as (Hc & _ & Ht). cbn in Ht. destruct (is_active c) eqn:Ha; cbn [negb]; [|apply unmoved_fine; [keeps|done]].
  set (reason := match pc_to_sess c with Some _ => _ | None => _ end). unfold _finalize_discard. rewrite Ha. cbn zeta. cbn [andb].
  apply fine_keeps_after; [|intros; keeps]. eapply save_call_ok; [done..| |].
  - apply ch_discarded; [done|by left].
  - pose proof (co_rows d Hd _ _ Hc) as Hr. apply row_discarded; [done|]. destruct (pc_started_at c) eqn:Es; [by eexists|]. intros Hx. destruct (ro_duration c Hr Hx) as [_ H]. by rewrite Es in H.
Qed.

Lemma fine_accept cx r : fine cx (accept_call cx r).
Proof using Hlist Hcodec.
  unfold accept_call. apply fine_lift. intros _ _. apply fine_lift. intros offered [Ho _]%check_protocol_ok. cbn zeta.
  apply fine_after; [|intros; keeps]. apply fine_transaction, fine_get. intros d Hd.
  destruct (find_call _ _ d) as [c|] eqn:E; [|by apply (unmoved_fine cx (raise _) (unmoved_raise _))].
  apply find_call_Some in E as (Hc & _ & Ht). cbn in Ht. apply andb_prop in Ht as [Hto Hact]. b2p.
  apply good_reads; [done|apply reads_ensure|]. intros u Hgb. apply good_reads; [done|apply reads_ensure|]. intros v Hs.
  apply good_reads; [done|apply reads_auth|]. intros _ _. pose proof (co_rows d Hd _ _ Hc) as Hr. destruct (ro_protocol c Hr) as (p & Ep & Hp).
  apply good_reads; [done|done|]. unfold protocol_tl_raise. rewrite Ep. intros mine [= <-].
  apply good_reads; [done|done|]. intros merged Hm%merge_ok; [|done..].
  apply (fine_keeps_after cx (save_call _ _)); [|intros; keeps]. eapply save_call_ok; [done..| |by apply row_accepted].
  assert (pc_g_b c = None) as Hb by (by case_bool_decide). apply ch_accepted; [done..| |].
  - destruct (pc_g_a c) as [g_a|] eqn:Eg; [|done]. destruct (ro_g_a c Hr g_a Eg) as (_ & [x Hx] & _). congruence.
  - destruct (pc_to_sess c) as [s|]; [right|by left]. cbn in Hs. destruct (Z.eqb_spec s (cx_auth_id cx)); [by subst|done].
Qed.

Lemma fine_received cx peer : fine cx (received_call cx peer).
Proof.
  intros d Hd. unfold received_call. apply good_reads; [done|done|]. unfold received_check. cbn. intros call [= <-].
  destruct (find_call _ _ d) as [c|] eqn:E; [|by apply good_stop]. case_decide as Hs; [|by apply good_stop].
  apply find_call_Some in E as (Hc & _ & Ht). cbn in Ht. b2p.
  apply fine_keeps_after; [|intros; keeps]. unfold received_store. apply good_reads; [done|apply reads_auth|]. intros _ _. cbn zeta.
  apply fine_modify; [|keeps].
  assert (alter (received_by (cx_auth_id cx)) (ic_id peer) (calls d) = <[ic_id peer := received_by (cx_auth_id cx) c]> (calls d)) as ->.
  { apply map_eq. intros id. destruct (decide (id = ic_id peer)) as [->|Hne]; [by rewrite lookup_alter_eq, lookup_insert_eq, Hc|by rewrite lookup_alter_ne, lookup_insert_ne]. }
  apply (save_call_ok cx d (ic_id peer) c); [done..| |by apply row_received, (co_rows d Hd (ic_id peer))].
  by apply ch_received.
Qed.

Lemma fine_signaling cx peer data : fine cx (send_signaling_data cx peer data).
Proof. apply unmoved_fine. unfold send_signaling_data, phone_signaling_update. keeps. Qed.

(** What a confirmation waits with between its halves *)
Definition waiting_confirm : Type := CallCtx * ConfirmCall * PhoneCallProtocol.
Definition confirm_ready (d : PhoneDb) (w : waiting_confirm) : Prop :=
  let '(cx, r, offered) := w in
  proto_ok offered /\ exists c, calls d !! ic_id (cf_peer r) = Some c /\ is_Some (pc_g_b c) /\ sha256 (cf_g_a r) = pc_g_a_hash c.

(** Set once, and kept *)
Definition kept {A} (x y : option A) : Prop := x = None \/ y = x.
Record settled (c c' : PhoneCall) : Prop := {
  se_same : pc_access_hash c' = pc_access_hash c /\ pc_from_user c' = pc_from_user c /\ pc_from_sess c' = pc_from_sess c /\ pc_to_user c' = pc_to_user c /\
    pc_g_a_hash c' = pc_g_a_hash c;
  se_once : kept (pc_to_sess c) (pc_to_sess c') /\ kept (pc_g_b c) (pc_g_b c') /\ kept (pc_g_a c) (pc_g_a c') /\ kept (pc_discard_reason c) (pc_discard_reason c');
  se_key : is_Some (pc_g_a c) -> pc_key_fp c' = pc_key_fp c /\ pc_started_at c' = pc_started_at c /\ pc_protocol c' = pc_protocol c;
  se_over : is_Some (pc_discard_reason c) -> c' = c;
}.

Lemma settled_refl c : settled c c.
Proof. split; [done| |done|done]. by split_and!; right. Qed.
Lemma kept_trans {A} (x y z : option A) : kept x y -> kept y z -> kept x z.
Proof. unfold kept. intros [-> | ->] [H|H]; subst; auto. Qed.
Lemma settled_trans c1 c2 c3 : settled c1 c2 -> settled c2 c3 -> settled c1 c3.
Proof.
  intros [S1 (O1 & O2 & O3 & O4) K1 V1] [S2 (P1 & P2 & P3 & P4) K2 V2]. split.
  - destruct S1 as (? & ? & ? & ? & ?), S2 as (? & ? & ? & ? & ?). by split_and!; etransitivity.
  - by split_and!; eapply kept_trans.
  - intros Hx. destruct (K1 Hx) as (? & ? & ?). destruct K2 as (? & ? & ?); [|by split_and!; etransitivity].
    destruct O3 as [E|E]; [rewrite E in Hx; by destruct Hx|by rewrite E].
  - intros Hx. rewrite (V1 Hx) in *. auto.
Qed.

Lemma changed_settled cx c c' : changed cx c c' -> settled c c'.
Proof.
  intros Hch. assert (is_active c = true) as Ha by (by destruct Hch). unfold is_active in Ha. apply bool_decide_eq_true in Ha.
  assert (is_Some (pc_discard_reason c) -> c' = c) as Hover by (rewrite Ha; by intros []). assert (forall A (x : option A), kept x x) as Hk by (by right).
  destruct Hch as [c Hto _ Hb Hs|c g_b protocol Hto _ Hb Hg Hs|c g_a key_fp protocol now Hfrom _ Hb Hg Hsha|c reason duration _ _]; split; try done; cbn.
  - split_and!; [by left|apply Hk..].
  - split_and!; [by destruct Hs; [left|right]|by left|apply Hk..].
  - rewrite Hg. by intros [].
  - split_and!; [apply Hk..|by left|apply Hk].
  - rewrite Hg. by intros [].
  - split_and!; [apply Hk..|by left].
Qed.

Lemma rtc_settled cx c c' : rtc (changed cx) c c' -> settled c c'.
Proof. induction 1 as [|c1 c2 c3 H _ IH]; [apply settled_refl|]. eapply settled_trans; [by eapply changed_settled|done]. Qed.
Lemma justified_settled cx d d' id c : justified cx d d' -> calls d !! id = Some c -> exists c', calls d' !! id = Some c' /\ settled c c'.
Proof. intros [Hold _] Hc. destruct (Hold id c Hc) as (c' & Hc' & Hrtc). exists c'. split; [done|by eapply rtc_settled]. Qed.

(** *** The two halves of a confirmation *)
Lemma confirm_check_spec cx r d offered : confirm_check cx r d = (Ok (offered, None), d) -> confirm_ready d (cx, r, offered).
Proof.
  unfold confirm_check. intros E. apply M_bind_ok in E as (u & d1 & E1 & E). injection E1 as E1 <-. apply M_bind_ok in E as (p & d1 & E2 & E).
  injection E2 as E2 <-. apply check_protocol_ok in E2 as [Hp _]. rewrite get_bind in E. unfold callers_call in E.
  destruct (find_call _ _ d) as [c|] eqn:Hf; [|done]. apply find_call_Some in Hf as (Hc & _ & _).
  rewrite ensure_bind in E. if_in E; [|done]. rewrite ensure_bind in E. if_in E; [|done]. b2p. injection E as -> _. split; [done|]. by exists c.
Qed.

Lemma confirm_check_reads cx r d : (confirm_check cx r d).2 = d.
Proof.
  unfold confirm_check, ensure, raise. unfold_monads. by repeat (case_match; simplify_eq/=).
Qed.

Lemma confirm_store_good cx now r offered d : calls_ok d -> confirm_ready d (cx, r, offered) -> good cx d (confirm_store cx now r offered d).
Proof using Hlist Hcodec.
  intros Hd (Ho & c & Hc & Hb & Hsha). unfold confirm_store. cbn zeta. apply fine_keeps_after; [|intros []; keeps].
  match goal with |- context [transaction ?m d] => assert (good cx d (m d)) as Hg end.
  { rewrite get_bind. unfold callers_call. destruct (find_call _ _ d) as [c0|] eqn:Hf; [|by apply good_stop].
    apply find_call_Some in Hf as (Hc0 & _ & Ht). cbn in Ht. assert (c0 = c) as -> by congruence. apply andb_prop in Ht as [Hfrom Ha]. b2p.
    case_bool_decide as Hga; [by apply good_stop|]. pose proof (co_rows d Hd _ _ Hc) as Hr. destruct (ro_protocol c Hr) as (p & Ep & Hp).
    apply good_reads; [done|done|]. unfold protocol_tl_raise. rewrite Ep. intros mine [= <-]. apply good_reads; [done|done|]. intros merged Hm%merge_ok; [|done..].
    apply (fine_keeps_after cx (save_call _ _)); [|intros; keeps]. assert (pc_g_a c = None) as Hnone by (destruct (pc_g_a c); [by destruct Hga; eexists|done]).
    eapply save_call_ok; [done..| |]; [by apply ch_confirmed|]. apply row_confirmed; try done. unfold is_active in Ha. by b2p. }
  unfold transaction. match goal with |- context [?m d] => destruct (m d) as [[a|e] d1] end; [done|]. by apply good_stop.
Qed.

Lemma confirm_ready_later cx d d' w : justified cx d d' -> confirm_ready d w -> confirm_ready d' w.
Proof.
  destruct w as [[cx' r] offered]. intros Hj (Hp & c & Hc & Hb & Hsha). split; [done|]. destruct (justified_settled cx d d' _ _ Hj Hc) as (c' & Hc' & [S O _ _]).
  exists c'. split; [done|]. destruct O as (_ & [Hn|Hk] & _); [rewrite Hn in Hb; by destruct Hb|]. destruct S as (_ & _ & _ & _ & ->). by rewrite Hk.
Qed.

(** ** The system: requests, confirmations in two halves, and changes of everything but calls by other handlers *)
Inductive call_op :=
  | OpRequest (now access_hash : Z) (r : RequestCall)
  | OpDiscard (now : Z) (peer : InputPhoneCall) (is_disconnect : bool)
  | OpAccept (r : AcceptCall)
  | OpReceived (peer : InputPhoneCall)
  | OpSignaling (peer : InputPhoneCall) (data : bytes).
Definition run_call_op (cx : CallCtx) (op : call_op) (d : PhoneDb) : PhoneDb :=
  match op with
  | OpRequest now access_hash r => (request_call cx now access_hash r d).2
  | OpDiscard now peer b => (discard_call cx now peer b d).2
  | OpAccept r => (accept_call cx r d).2
  | OpReceived peer => (received_call cx peer d).2
  | OpSignaling peer data => (send_signaling_data cx peer data d).2
  end.

Definition call_system : Type := PhoneDb * list waiting_confirm.
Inductive call_step : CallCtx -> call_system -> call_system -> Prop :=
  | st_request cx op d ws : call_step cx (d, ws) (run_call_op cx op d, ws)
  | st_check cx r offered d ws : confirm_check cx r d = (Ok (offered, None), d) -> call_step cx (d, ws) (d, (cx, r, offered) :: ws)
  | st_store cx r offered now d ws1 ws2 : call_step cx (d, ws1 ++ (cx, r, offered) :: ws2) ((confirm_store cx now r offered d).2, ws1 ++ ws2)
  | st_other cx d d' ws : calls d' = calls d -> next_call d' = next_call d -> call_step cx (d, ws) (d', ws).

Definition call_system_ok (s : call_system) : Prop := calls_ok s.1 /\ Forall (confirm_ready s.1) s.2.

Lemma op_good cx op d : calls_ok d -> calls_ok (run_call_op cx op d) /\ justified cx d (run_call_op cx op d).
Proof using Hlist Hcodec. intros Hd. destruct op; [by apply fine_request|by apply fine_discard|by apply fine_accept|by apply fine_received|by apply fine_signaling]. Qed.

Lemma call_step_ok cx s s' : call_system_ok s -> call_step cx s s' -> call_system_ok s' /\ justified cx s.1 s'.1.
Proof using Hlist Hcodec.
  intros [Hd Hw] Hs. destruct Hs as [cx op d ws|cx r offered d ws E|cx r offered now d ws1 ws2|cx d d' ws E1 E2]; cbn [fst snd] in *.
  - destruct (op_good cx op d Hd) as [H1 H2]. split; [|done]. split; [done|]. eapply Forall_impl; [exact Hw|]. intros w. by apply (confirm_ready_later cx).
  - split; [|by apply justified_refl]. split; [done|]. constructor; [by apply confirm_check_spec|done].
  - apply Forall_app in Hw as [Hw1 Hw2]. apply Forall_cons in Hw2 as [Hr Hw2].
    destruct (confirm_store_good cx now r offered d Hd Hr) as [H1 H2]. split; [|done]. split; [done|]. cbn [snd].
    apply Forall_app. split; (eapply Forall_impl; [eassumption|]); intros w; by apply (confirm_ready_later cx).
  - assert (justified cx d d') as Hj by by apply justified_refl. split; [|done]. split; [by eapply unmoved_ok|].
    eapply Forall_impl; [exact Hw|]. intros w. by apply (confirm_ready_later cx).
Qed.


(** ** A call that comes about *)
Definition call_posted (u id : Z) (c : PhoneCall) (l : list Z) (d : PhoneDb) : PhoneDb :=
  let p := default 0 (ph_state d !! u) in
  with_call_state (wrote d) (<[u := p + 1]> (ph_state d)) (call_updates d ++ [(u, p + 1, id)]) (call_log d ++ [SentCall l (call_to_tl id c)]) d.

Lemma phone_call_update_run u id c l d : is_Some (ph_state d !! u) -> phone_call_update u id c l d = (Ok (call_to_tl id c), call_posted u id c l d).
Proof.
  intros [p Hp]. unfold phone_call_update, call_posted, log_event. rewrite Hp. unfold on_pts, Pts.add_pts, transaction, Pts.get_pts. unfold_monads. cbn [Z.leb Z.compare Pos.compare Pos.compare_cont]. by rewrite Hp.
Qed.
Lemma posted_has_pts u v id c l d : is_Some (ph_state d !! v) -> is_Some (ph_state (call_posted u id c l d) !! v).
Proof. intros Hv. cbn. destruct (decide (u = v)) as [->|Hne]; [by rewrite lookup_insert_eq|by rewrite lookup_insert_ne]. Qed.

Lemma find_call_run peer f d c : calls d !! ic_id peer = Some c -> pc_access_hash c = ic_access_hash peer -> f c = true -> find_call peer f d = Some c.
Proof. intros Hc Ha Hf. unfold find_call. rewrite Hc, Ha, Z.eqb_refl. cbn [andb]. by rewrite Hf. Qed.

(** A layer that both offers contain *)
Definition speaks (p : PhoneCallProtocol) (layer : Z) : Prop := min_layer p <= layer <= max_layer p.

Lemma merge_run a b final layer : speaks a layer -> speaks b layer -> exists p vs, _merge_protocols list_of_set a b final = Ok p /\
  _pick_merged_library_versions list_of_set a b final = Ok vs /\ library_versions p = vs /\
  min_layer p = Z.max (min_layer a) (min_layer b) /\ max_layer p = Z.min (max_layer a) (max_layer b) /\ speaks p layer.
Proof using Hlist.
  intros [Ha1 Ha2] [Hb1 Hb2]. destruct (pick_ok list_of_set Hlist a b final) as (vs & E & Hne & _). unfold _merge_protocols. rewrite E.
  unfold raise_if. rewrite (proj2 (Z.ltb_ge _ _)) by lia. cbn [mbind result_bind]. rewrite bool_decide_eq_false_2 by done. cbn [mbind result_bind].
  eexists _, vs. split_and!; [done..|]. split; cbn; lia.
Qed.

Record offers (r : AcceptCall) (cx : CallCtx) (d : PhoneDb) (c : PhoneCall) (mine offered : PhoneCallProtocol) (layer : Z) : Prop := {
  of_row : calls d !! ic_id (ac_peer r) = Some c;
  of_hash : pc_access_hash c = ic_access_hash (ac_peer r);
  of_callee : pc_to_user c = cx_user_id cx;
  of_active : pc_discard_reason c = None;
  of_free : pc_g_b c = None /\ (pc_to_sess c = None \/ pc_to_sess c = Some (cx_auth_id cx));
  of_auth : exists a, ph_auths d !! cx_auth_id cx = Some a /\ ca_user a = cx_user_id cx;
  of_g_b : _validate_dh_bytes (ac_g_b r) "G_B_INVALID" = Ok tt;
  of_protocol : _check_protocol (ac_protocol r) = Ok offered;
  of_mine : read_protocol (pc_protocol c) = Some mine;
  of_layer : speaks mine layer /\ speaks offered layer;
  of_pts : is_Some (ph_state d !! pc_from_user c) /\ is_Some (ph_state d !! pc_to_user c);
}.

Lemma accept_run r cx d c mine offered layer : offers r cx d c mine offered layer -> exists merged d',
  _merge_protocols list_of_set mine offered false = Ok merged /\ speaks merged layer /\
  let id := ic_id (ac_peer r) in let c' := accepted_by (cx_auth_id cx) (ac_g_b r) (write_protocol merged) c in
  accept_call cx r d = (Ok (call_to_tl id c'), d') /\ calls d' = <[id := c']> (calls d) /\ ph_state d' = ph_state (call_posted (pc_from_user c) id c' [] (call_posted (pc_to_user c) id c' [] d)) /\
  last (call_log d') = Some (SentCall [pc_from_sess c] (call_to_tl id c')).
Proof using Hlist.
  intros [Hrow Hhash Hto Hact [Hgb Hts] (a & Ha & Hau) Hg Hp Hm [Hl1 Hl2] [Hp1 Hp2]]. destruct (merge_run mine offered false layer Hl1 Hl2) as (merged & vs & Em & _ & _ & _ & _ & Hsp).
  exists merged. set (id := ic_id (ac_peer r)). set (c' := accepted_by (cx_auth_id cx) (ac_g_b r) (write_protocol merged) c).
  set (d1 := (save_call id c' d).2). eexists. split; [done|]. split; [done|]. cbn zeta.
  unfold accept_call. rewrite Hg, lift_step, Hp, lift_step. cbn zeta. fold id.
  assert (transaction (d0 ← get;
    match find_call (ac_peer r) (fun c => (pc_to_user c =? cx_user_id cx) && is_active c) d0 with
    | None => raise (ErrorRpc 400 "CALL_PEER_INVALID")
    | Some call =>
      ensure (bool_decide (pc_g_b call = None)) (ErrorRpc 400 "CALL_ALREADY_ACCEPTED");;
      ensure (match pc_to_sess call with Some s => s =? cx_auth_id cx | None => true end) (ErrorRpc 400 "CALL_ALREADY_ACCEPTED");;
      auth_of_user (cx_auth_id cx) (cx_user_id cx);;
      mine ← lift_result (protocol_tl_raise call);
      merged ← lift_result (_merge_protocols list_of_set mine offered false);
      let call := accepted_by (cx_auth_id cx) (ac_g_b r) (write_protocol merged) call in
      save_call id call;; mret call
    end) d = (Ok c', d1)) as Htr.
  { unfold transaction. rewrite get_bind, (find_call_run _ _ _ c) by (try done; unfold is_active; by rewrite Hto, Hact, Z.eqb_refl).
    rewrite ensure_bind, bool_decide_eq_true_2 by done. rewrite ensure_bind.
    replace (match pc_to_sess c with Some s => s =? cx_auth_id cx | None => true end) with true by (destruct Hts as [-> | ->]; [done|by rewrite Z.eqb_refl]).
    unfold auth_of_user. unfold mbind at 1, M_bind at 1. rewrite get_bind, Ha, Hau. unfold ensure. rewrite Z.eqb_refl. cbn [mret M_ret].
    unfold protocol_tl_raise. rewrite Hm, lift_step, Em, lift_step. done. }
  rewrite (M_bind_step _ _ _ _ _ Htr). rewrite get_bind. cbn zeta.
  rewrite (M_bind_step _ _ _ _ _ (phone_call_update_run (cx_user_id cx) id c' _ d1 ltac:(rewrite <- Hto; done))).
  rewrite (M_bind_step _ _ _ _ _ (phone_call_update_run (pc_from_user c') id c' _ _ (posted_has_pts _ _ _ _ _ d1 Hp1))).
  split; [done|]. split; [done|]. split; [cbn; by rewrite Hto|]. cbn. by rewrite last_snoc.
Qed.

Lemma confirm_run r cx now d c mine offered layer session g_b : calls d !! ic_id (cf_peer r) = Some c -> pc_access_hash c = ic_access_hash (cf_peer r) ->
  pc_from_user c = cx_user_id cx -> pc_discard_reason c = None -> pc_g_b c = Some g_b -> pc_g_a c = None -> pc_to_sess c = Some session ->
  sha256 (cf_g_a r) = pc_g_a_hash c -> _validate_dh_bytes (cf_g_a r) "G_A_INVALID" = Ok tt -> _check_protocol (cf_protocol r) = Ok offered ->
  read_protocol (pc_protocol c) = Some mine -> speaks mine layer -> speaks offered layer ->
  is_Some (ph_state d !! pc_from_user c) -> is_Some (ph_state d !! pc_to_user c) ->
  exists merged d', _merge_protocols list_of_set mine offered true = Ok merged /\ speaks merged layer /\
  let id := ic_id (cf_peer r) in let c' := confirmed_with (cf_g_a r) (cf_key_fingerprint r) (write_protocol merged) now c in
  confirm_call cx now r d = (Ok (call_to_tl id c'), d') /\
  exists log, call_log d' = log ++ [SentCall [pc_from_sess c] (call_to_tl id c'); SentCall [session] (call_to_tl id c')].
Proof using Hlist.
  intros Hrow Hhash Hfrom Hact Hgb Hga Hts Hsha Hg Hp Hm Hl1 Hl2 Hp1 Hp2. destruct (merge_run mine offered true layer Hl1 Hl2) as (merged & vs & Em & _ & _ & _ & _ & Hsp).
  exists merged. set (id := ic_id (cf_peer r)). set (c' := confirmed_with (cf_g_a r) (cf_key_fingerprint r) (write_protocol merged) now c).
  set (d1 := (save_call id c' d).2). eexists. split; [done|]. split; [done|]. cbn zeta.
  assert (callers_call cx (cf_peer r) d = Some c) as Hc by (apply find_call_run; [done|done|]; unfold is_active; by rewrite Hfrom, Hact, Z.eqb_refl).
  assert (confirm_check cx r d = (Ok (offered, None), d)) as Hcheck.
  { unfold confirm_check. rewrite Hg, lift_step, Hp, lift_step, get_bind, Hc, ensure_bind, Hgb, bool_decide_eq_true_2 by eauto.
    by rewrite ensure_bind, bool_decide_eq_true_2, Hga, bool_decide_eq_false_2 by (done || by intros []). }
  unfold confirm_call. rewrite (M_bind_step _ _ _ _ _ Hcheck). cbn [fst snd]. unfold confirm_store. cbn zeta. fold id.
  assert (transaction (d0 ← get;
    match callers_call cx (cf_peer r) d0 with
    | None => raise (ErrorRpc 400 "CALL_PEER_INVALID")
    | Some call =>
      if bool_decide (is_Some (pc_g_a call)) then mret (inl call)
      else
        mine ← lift_result (protocol_tl_raise call);
        merged ← lift_result (_merge_protocols list_of_set mine offered true);
        let call := confirmed_with (cf_g_a r) (cf_key_fingerprint r) (write_protocol merged) now call in
        save_call id call;; mret (inr call)
    end) d = (Ok (inr c'), d1)) as Htr.
  { unfold transaction. rewrite get_bind, Hc, Hga, bool_decide_eq_false_2 by (by intros []). unfold protocol_tl_raise. by rewrite Hm, lift_step, Em, lift_step. }
  rewrite (M_bind_step _ _ _ _ _ Htr). cbv beta iota.
  rewrite (M_bind_step _ _ _ _ _ (phone_call_update_run (cx_user_id cx) id c' _ d1 ltac:(rewrite <- Hfrom; done))).
  change (pc_to_sess c') with (pc_to_sess c). rewrite Hts.
  unfold mbind at 1 2, M_bind at 1 2. rewrite (phone_call_update_run (pc_to_user c') id c' _ _ (posted_has_pts _ _ _ _ _ d1 Hp2)).
  split; [done|]. cbn. rewrite <- app_assoc. by eexists.
Qed.

(** C37: A call comes about: when the callee's free call is accepted by one of the callee's sessions with a valid key, and the caller then confirms with the key whose hash was promised, and some
    protocol layer is in all three offers, both requests succeed. The caller learns the callee's key at once; after the confirmation the caller sees the callee's key and the accepting session the
    caller's, with the same fingerprint, protocol, connections and start; the callee's other sessions see the call gone, and both parties' sessions are told. The protocol has that layer, and if the three
    offers have supported versions in common, its version is the greatest of these. *)
Theorem call_established ra ca d c mine offered layer rb cb now offered' :
  offers ra ca d c mine offered layer -> cf_peer rb = ac_peer ra -> pc_from_user c = cx_user_id cb -> pc_from_user c <> pc_to_user c -> pc_g_a c = None ->
  sha256 (cf_g_a rb) = pc_g_a_hash c -> _validate_dh_bytes (cf_g_a rb) "G_A_INVALID" = Ok tt -> _check_protocol (cf_protocol rb) = Ok offered' -> speaks offered' layer ->
  exists d1 accepted d2 confirmed common common' connections log,
    accept_call ca ra d = (Ok accepted, d1) /\ confirm_call cb now rb d1 = (Ok confirmed, d2) /\
    (forall s, call_write (MkCallCtx s (pc_from_user c)) accepted = Ok (PhoneCallAccepted common' (ac_g_b ra))) /\
    (forall s, call_write (MkCallCtx s (pc_from_user c)) confirmed = Ok (TLPhoneCallOk common (ac_g_b ra) (cf_key_fingerprint rb) connections (timestamp now))) /\
    (forall s, call_write (MkCallCtx s (pc_to_user c)) confirmed =
       Ok (if s =? cx_auth_id ca then TLPhoneCallOk common (cf_g_a rb) (cf_key_fingerprint rb) connections (timestamp now) else PhoneCallDiscarded (ic_id (ac_peer ra)) None None)) /\
    call_log d2 = log ++ [SentCall [pc_from_sess c] confirmed; SentCall [cx_auth_id ca] confirmed] /\
    speaks (cc_protocol common) layer /\
    (common_versions mine offered ∩ set_of (library_versions offered') <> ∅ ->
     exists v, library_versions (cc_protocol common) = [v] /\ best_version (common_versions mine offered ∩ set_of (library_versions offered')) v).
Proof using Hlist Hcodec.
  intros Ho Hpeer Hfrom Hne Hga Hsha Hg Hp Hl. destruct (accept_run _ _ _ _ _ _ _ Ho) as (m1 & d1 & Em1 & Hs1 & Hacc & Hcalls & Hst & _).
  set (id := ic_id (ac_peer ra)) in *. set (c1 := accepted_by (cx_auth_id ca) (ac_g_b ra) (write_protocol m1) c) in *. destruct Ho.
  destruct (confirm_run rb cb now d1 c1 m1 offered' layer (cx_auth_id ca) (ac_g_b ra)) as (m2 & d2 & Em2 & Hs2 & Hconf & log & Hlog); try done.
  { rewrite Hpeer. fold id. rewrite Hcalls. apply lookup_insert_eq. }
  { rewrite Hpeer. done. }
  { apply Hcodec. }
  1-2: rewrite Hst; apply posted_has_pts, posted_has_pts; naive_solver.
  rewrite Hpeer in Hconf, Hlog. fold id in Hconf, Hlog. set (c2 := confirmed_with (cf_g_a rb) (cf_key_fingerprint rb) (write_protocol m2) now c1) in *.
  assert (call_to_tl id c1 = PhoneCallToFormat id c1 m1) as E1 by (unfold call_to_tl; cbn; by rewrite of_active0, Hcodec).
  assert (call_to_tl id c2 = PhoneCallToFormat id c2 m2) as E2 by (unfold call_to_tl; cbn; by rewrite of_active0, Hcodec).
  rewrite E1 in Hacc. rewrite E2 in Hconf, Hlog.
  exists d1, (PhoneCallToFormat id c1 m1), d2, (PhoneCallToFormat id c2 m2). do 3 eexists. exists log. split_and!; [done|done| | | |done| |].
  - intros s. cbn. rewrite Z.eqb_refl, Hga. done.
  - intros s. cbn. rewrite Z.eqb_refl. done.
  - intros s. cbn. rewrite (proj2 (Z.eqb_neq _ _)), Z.eqb_refl by done. rewrite Z.eqb_sym. by destruct (s =? cx_auth_id ca).
  - done.
  - intros Hc. cbn [cc_protocol]. destruct (pick_ok list_of_set Hlist mine offered false) as (vs1 & Ev1 & _ & _ & Hvs1).
    destruct (merge_run mine offered false layer) as (m1' & vs1' & Em1' & Ev1' & Hlv1 & _); [apply of_layer0..|]. assert (m1' = m1) as -> by congruence. assert (vs1' = vs1) as -> by congruence.
    destruct (pick_ok list_of_set Hlist m1 offered' true) as (vs2 & Ev2 & _ & _ & Hvs2).
    destruct (merge_run m1 offered' true layer) as (m2' & vs2' & Em2' & Ev2' & Hlv2 & _); [done..|]. assert (m2' = m2) as -> by congruence. assert (vs2' = vs2) as -> by congruence.
    assert (common_versions m1 offered' = common_versions mine offered ∩ set_of (library_versions offered')) as Ec.
    { apply set_eq. intros v. unfold common_versions at 1, set_of at 1. rewrite !elem_of_intersection, elem_of_list_to_set, Hlv1, Hvs1 by (intros E; apply Hc; rewrite E; set_solver).
      unfold common_versions. set_solver. }
    rewrite Hlv2, <- Ec. apply Hvs2. by rewrite Ec.
Qed.

(** *** What [ReceivedCall] does to the callee's other sessions *)
(** Once a session has acknowledged a call, the others cannot accept it, although nobody has. *)
Lemma claimed_elsewhere r cx d c s offered : calls d !! ic_id (ac_peer r) = Some c -> pc_access_hash c = ic_access_hash (ac_peer r) ->
  pc_to_user c = cx_user_id cx -> pc_discard_reason c = None -> pc_g_b c = None -> pc_to_sess c = Some s -> s <> cx_auth_id cx ->
  _validate_dh_bytes (ac_g_b r) "G_B_INVALID" = Ok tt -> _check_protocol (ac_protocol r) = Ok offered ->
  accept_call cx r d = (Raise (ErrorRpc 400 "CALL_ALREADY_ACCEPTED"), d).
Proof.
  intros Hrow Hhash Hto Hact Hgb Hts Hne Hg Hp. unfold accept_call. rewrite Hg, lift_step, Hp, lift_step. apply M_bind_raise. unfold transaction.
  rewrite get_bind, (find_call_run _ _ _ c) by (try done; unfold is_active; by rewrite Hto, Hact, Z.eqb_refl).
  by rewrite ensure_bind, bool_decide_eq_true_2, ensure_bind, Hts, (proj2 (Z.eqb_neq _ _)) by done.
Qed.

(** Until it is accepted, the caller's view of such a call cannot be written. *)
Lemma claimed_unwritable id c p s a : pc_discard_reason c = None -> read_protocol (pc_protocol c) = Some p -> pc_to_sess c = Some s -> pc_g_a c = None -> pc_g_b c = None ->
  call_write (MkCallCtx a (pc_from_user c)) (call_to_tl id c) = Raise TypeError.
Proof. intros Hd Hp Hs Ha Hb. unfold call_to_tl. rewrite Hd, Hp. cbn. by rewrite Z.eqb_refl, Hs, Ha, Hb. Qed.
End Phone.

(** ** An example *)
Definition a_protocol : PhoneCallProtocol := MkProtocol true true 65 92 ["2.4.4"; "11.0.0"; "7.0.0"]%string.
Definition a_call : PhoneCall (raw := PhoneCallProtocol) := MkCall 77 1000000 None 7 70 8 None (replicate 32 Byte.x01) None None None None None a_protocol.
Definition a_phone_db : PhoneDb (raw := PhoneCallProtocol) :=
  MkPhoneDb true (MkPeerDb ∅ ∅ ∅ ∅ ∅ 1) (MkPrivacyDb ∅ ∅ ∅ ∅ ∅ 1) ∅ {[ 70 := MkCallAuth 7 true; 80 := MkCallAuth 8 true; 81 := MkCallAuth 8 true ]}
    {[ 5 := a_call ]} 6 ∅ {[ 7 := 1; 8 := 1 ]} [] [].
Definition an_accept : AcceptCall := MkAcceptCall (MkInputCall 5 77) [Byte.x02] a_protocol.
Definition a_confirm : ConfirmCall := MkConfirmCall (MkInputCall 5 77) [Byte.x03] 99 a_protocol.
Abbreviation a_sha256 := (fun _ : bytes => replicate 32 Byte.x01).

Lemma a_phone_db_ok : calls_ok a_sha256 (fun p => Some p) a_phone_db.
Proof.
  split; intros id c; cbn [calls a_phone_db]; intros [<- <-]%lookup_singleton_Some; [done|]. split; try done; try (by intros []).
  exists a_protocol. split; [done|]. unfold proto_ok. cbn. split_and!; try done; try lia. repeat constructor.
Qed.

(** Two sessions of the callee: the second reads the call, the first accepts it, and the second's acknowledgement then takes the call from it. *)
Example received_race :
  let d := a_phone_db in
  let '(r, d1) := received_check (MkCallCtx 81 8) (MkInputCall 5 77) d in
  let d2 := (accept_call elements id (fun p => Some p) (MkCallCtx 80 8) an_accept d1).2 in
  match r with
  | Ok (Some call) =>
    let d3 := (received_store (fun p => Some p) (MkCallCtx 81 8) (MkInputCall 5 77) call d2).2 in
    (fun c => (pc_to_sess c, pc_g_b c)) <$> calls d3 !! 5 = Some (Some 81, Some [Byte.x02])
  | _ => False
  end.
Proof. vm_compute. reflexivity. Qed.

Definition no_confirms : list waiting_confirm := [].

Lemma call_established_witness : exists d1 accepted d2 confirmed,
  accept_call elements id (fun p => Some p) (MkCallCtx 80 8) an_accept a_phone_db = (Ok accepted, d1) /\
  confirm_call a_sha256 elements id (fun p => Some p) (MkCallCtx 70 7) 3000000 a_confirm d1 = (Ok confirmed, d2).
Proof.
  destruct (call_established a_sha256 "10.0.0.1" elements id (fun p => Some p) (fun s => reflexivity _) (fun p => eq_refl) an_accept (MkCallCtx 80 8) a_phone_db
    a_call a_protocol a_protocol 80 a_confirm (MkCallCtx 70 7) 3000000 a_protocol) as (d1 & accepted & d2 & confirmed & _ & _ & _ & _ & H1 & H2 & _).
  - split; try reflexivity.
    + split; [reflexivity|left; reflexivity].
    + exists (MkCallAuth 8 true). split; reflexivity.
    + unfold speaks. cbn. split; lia.
    + split; eexists; reflexivity.
  - reflexivity.
  - reflexivity.
  - discriminate.
  - reflexivity.
  - reflexivity.
  - reflexivity.
  - reflexivity.
  - unfold speaks. cbn. lia.
  - exists d1, accepted, d2, confirmed. split; [exact H1|exact H2].
Defined.
