(* ===== verification/Upload.v ===== *)
(** Uploading and downloading files ([piltover/app/handlers/upload.py], [piltover/db/models/uploading_file.py],
    [piltover/storage/local_file.py]).

    The disk maps a directory and a file name to bytes; a part's name is made as the code makes it. libmagic and the UUIDs are
    arguments, access hashes and references those of [AccessHash.v], input peers those of [Peers.v].
    A write to disk does not fail. *)
From stdpp Require Import pretty sorting.
From Stdlib Require Import Ascii.
From S2P Require Import Prelude PyBytes TlPrimitives AccessHash Peers.

(** ** Storage *)
Inductive StorageType := PHOTO | DOCUMENT.
Inductive dir := Uploading | Stored (t : StorageType).
#[export] Instance StorageType_eq_dec : EqDecision StorageType.
Proof. solve_decision. Defined.
#[export] Instance dir_eq_dec : EqDecision dir.
Proof. solve_decision. Defined.
#[export] Instance dir_countable : Countable dir.
Proof.
  refine (inj_countable' (fun x => match x with Uploading => 0%nat | Stored PHOTO => 1%nat | Stored DOCUMENT => 2%nat end)
    (fun n => match n with 0%nat => Uploading | 1%nat => Stored PHOTO | _ => Stored DOCUMENT end) _). by intros [|[]].
Defined.
Abbreviation disk := (gmap (dir * string) bytes).

Definition with_suffix (file_id : string) (suffix : option Z) : string :=
  match suffix with Some s => file_id +:+ "-" +:+ pretty s | None => file_id end.
Definition part_name (file_id : string) (part_id : Z) : string :=
  if 0 <? part_id then file_id +:+ ".part" +:+ pretty part_id else file_id.

(** [f.write(data)] at the start of a file opened with ["r+b"] *)
Definition overwrite (data old : bytes) : bytes := data ++ drop (length data) old.

Definition save_part (file_id : string) (part_id : Z) (data : bytes) : M disk unit := modify (fun k =>
  let path := (Uploading, part_name file_id part_id) in <[path := overwrite data (default [] (k !! path))]> k).

Definition read_file (path : dir * string) : M disk bytes := fun k =>
  match k !! path with Some b => (Ok b, k) | None => (Raise FileNotFoundError, k) end.
Definition rename (src dst : dir * string) : M disk unit := b ← read_file src; modify (fun k => <[dst := b]> (delete src k)).

(** The loop that appends the parts from [part_id] on, [n] of them *)
Fixpoint append_parts (file_id : string) (dst : dir * string) (part_id : Z) (n : nat) : M disk unit :=
  match n with
  | O => mret tt
  | S n =>
    b ← read_file (Uploading, file_id +:+ ".part" +:+ pretty part_id);
    modify (fun k => delete (Uploading, file_id +:+ ".part" +:+ pretty part_id) (<[dst := default [] (k !! dst) ++ b]> k));;
    append_parts file_id dst (part_id + 1) n
  end.

Definition finalize_upload_as (file_id : string) (as_ : StorageType) (parts_num : Z) : M disk unit :=
  rename (Uploading, file_id) (Stored as_, file_id);;
  if parts_num <=? 1 then mret tt else append_parts file_id (Stored as_, file_id) 1 (Z.to_nat (parts_num - 1)).

(** [f.read(length)] reads everything for a negative length. *)
Definition read_at (offset len : Z) (b : bytes) : bytes :=
  let rest := drop (Z.to_nat offset) b in if len <? 0 then rest else take (Z.to_nat len) rest.
Definition get_part (t : StorageType) (file_id : string) (offset len : Z) (suffix : option Z) (k : disk) : option bytes :=
  b ← k !! (Stored t, with_suffix file_id suffix); Some (read_at offset len b).

(** ** Rows *)
Record UploadingFile := MkUploading { u_id : Z; u_physical_id : string; u_total_parts : Z; u_mime : option string }.
Inductive FileType := DOCUMENT_FILE (kind : Z) | PHOTO_FILE | ENCRYPTED.
#[export] Instance FileType_eq_dec : EqDecision FileType.
Proof. solve_decision. Defined.
Record File := MkFile {
  f_physical_id : string; f_mime_type : string; f_size : Z; f_type : FileType;
  f_constant_access_hash : option Z; f_constant_file_ref : option bytes; f_photo_sizes : option (list Z) }.

Record UploadDb := MkUploadDb {
  uploading : gmap (Z * Z) UploadingFile;       (* unique by user and file id *)
  uparts : gmap (Z * Z) Z;                      (* unique by uploading file and part: its size *)
  on_disk : disk;
  files : gmap Z File;
  user_photos : gset (Z * Z); chat_photos : gset (Z * Z); channel_photos : gset (Z * Z);   (* file and owner *)
  set_thumbs : gset (Z * Z);                    (* file and sticker set *)
  next_upload : Z; next_file : Z }.
Abbreviation U := (M UploadDb).

Definition with_uploading (u : gmap (Z * Z) UploadingFile) (n : Z) (d : UploadDb) : UploadDb :=
  MkUploadDb u (uparts d) (on_disk d) (files d) (user_photos d) (chat_photos d) (channel_photos d) (set_thumbs d) n (next_file d).
Definition with_uparts (p : gmap (Z * Z) Z) (d : UploadDb) : UploadDb :=
  MkUploadDb (uploading d) p (on_disk d) (files d) (user_photos d) (chat_photos d) (channel_photos d) (set_thumbs d) (next_upload d) (next_file d).
Definition with_disk (k : disk) (d : UploadDb) : UploadDb :=
  MkUploadDb (uploading d) (uparts d) k (files d) (user_photos d) (chat_photos d) (channel_photos d) (set_thumbs d) (next_upload d) (next_file d).
Definition with_files (f : gmap Z File) (n : Z) (d : UploadDb) : UploadDb :=
  MkUploadDb (uploading d) (uparts d) (on_disk d) f (user_photos d) (chat_photos d) (channel_photos d) (set_thumbs d) (next_upload d) n.
Definition storage {A} (m : M disk A) : U A := fun d => let '(r, k) := m (on_disk d) in (r, with_disk k d).

(** ** [save_file_part] *)
(** [SaveBigFilePart] has the number of parts, [SaveFilePart] has not. *)
Record SaveFilePart := MkSave { s_file_id : Z; s_file_part : Z; s_bytes : bytes; s_file_total_parts : option Z }.

(** *** MIME types, by libmagic or by the first bytes of a file *)
Definition ascii_bytes (s : string) : bytes := String.list_byte_of_string s.
(** [header[i:j] == s] *)
Definition slice_is (i j : nat) (s : bytes) (header : bytes) : bool := bool_decide (take (j - i) (drop i header) = s).

Definition _detect_buffer_mime_fallback (header : bytes) : option string :=
  if starts_with (ascii_bytes "OggS") header then Some "audio/ogg"
  else if starts_with [Byte.xff; Byte.xd8; Byte.xff] header then Some "image/jpeg"
  else if starts_with ([Byte.x89] ++ ascii_bytes "PNG" ++ [Byte.x0d; Byte.x0a; Byte.x1a; Byte.x0a]) header then Some "image/png"
  else if slice_is 0 6 (ascii_bytes "GIF87a") header || slice_is 0 6 (ascii_bytes "GIF89a") header then Some "image/gif"
  else if (12 <=? length header)%nat && slice_is 0 4 (ascii_bytes "RIFF") header && slice_is 8 12 (ascii_bytes "WEBP") header then Some "image/webp"
  else if starts_with (ascii_bytes "%PDF-") header then Some "application/pdf"
  else if starts_with (ascii_bytes "ID3") header || existsb (fun b => slice_is 0 2 [Byte.xff; b] header) [Byte.xfb; Byte.xf3; Byte.xf2]
    then Some "audio/mpeg"
  else if starts_with [Byte.x1a; Byte.x45; Byte.xdf; Byte.xa3] header then Some "video/webm"
  else if (12 <=? length header)%nat && slice_is 4 8 (ascii_bytes "ftyp") header then
    if existsb (fun b => slice_is 8 12 (ascii_bytes b) header) ["qt  "; "moov"; "wide"] then Some "video/quicktime" else Some "video/mp4"
  else None.

(** The tags of the storage types ([storage.FileJpeg] and so on) *)
Inductive StorageFileType := FileJpeg | FileGif | FilePng | FilePdf | FileMp3 | FileMov | FileMp4 | FileWebp | FilePartial | FileUnknown.
Definition MIME_TO_TL (mime : string) : option StorageFileType :=
  let table : list (string * StorageFileType) :=
    [("image/jpeg", FileJpeg); ("image/gif", FileGif); ("image/png", FilePng); ("application/pdf", FilePdf); ("audio/mpeg", FileMp3);
     ("audio/ogg", FileMp3); ("video/quicktime", FileMov); ("video/mp4", FileMp4); ("image/webp", FileWebp)]%string in
  snd <$> List.find (fun x => bool_decide (x.1 = mime)) table.

Section Save.
(** [magic.from_buffer], if it is there and does not raise *)
Context (magic : bytes -> option string).

Definition detect_buffer_mime (data : bytes) : option string :=
  match data with
  | [] => None
  | _ =>
    let header := take 4096 data in
    match magic header with
    | Some mime => if bool_decide (mime <> "") && bool_decide (mime <> "application/octet-stream")%string then Some mime
        else _detect_buffer_mime_fallback header
    | None => _detect_buffer_mime_fallback header
    end
  end.

Definition part_ids (d : UploadDb) (file : Z) : list Z := (fun kv => kv.1.2) <$> map_to_list (filter (fun kv => kv.1.1 = file) (uparts d)).
Definition last_part_id (d : UploadDb) (file : Z) : option Z :=
  match part_ids d file with [] => None | p :: ps => Some (foldr Z.max p ps) end.

(** [get_or_create], with the MIME type of the first part; [physical] is a new UUID. *)
Definition uploading_file (physical : string) (user : Z) (r : SaveFilePart) : U UploadingFile := fun d =>
  let mime := if (s_file_part r =? 0) && negb (bool_decide (s_bytes r = [])) then detect_buffer_mime (s_bytes r) else None in
  match uploading d !! (user, s_file_id r) with
  | None =>
    let f := MkUploading (next_upload d) physical (default 0 (s_file_total_parts r)) mime in
    (Ok f, with_uploading (<[(user, s_file_id r) := f]> (uploading d)) (next_upload d + 1) d)
  | Some f =>
    if (s_file_part r =? 0) && bool_decide (u_mime f = None) && bool_decide (is_Some mime) then
      let f := MkUploading (u_id f) (u_physical_id f) (u_total_parts f) mime in
      (Ok f, with_uploading (<[(user, s_file_id r) := f]> (uploading d)) (next_upload d) d)
    else (Ok f, d)
  end.

(** [size % 1024 != 0 or 524288 % size != 0] *)
Definition maybe_last (size : Z) : result bool :=
  if negb (size mod 1024 =? 0) then Ok true else if size =? 0 then Raise ZeroDivisionError else Ok (negb (524288 mod size =? 0)).

Definition save_file_part (physical : string) (user : Z) (r : SaveFilePart) : U bool :=
  file ← uploading_file physical user r;
  d ← get;
  ensure (negb ((0 <? u_total_parts file) && bool_decide (s_file_total_parts r = None))) (ErrorRpc 400 "FILE_PART_INVALID");;
  ensure (negb ((0 <? u_total_parts file) && (negb (bool_decide (s_file_total_parts r = Some (u_total_parts file))) || (u_total_parts file <=? s_file_part r))))
    (ErrorRpc 400 "FILE_PART_INVALID");;
  let size := Z.of_nat (length (s_bytes r)) in
  match uparts d !! (u_id file, s_file_part r) with
  | Some existing => if size =? existing then mret true else raise (ErrorRpc 400 "FILE_PART_INVALID")
  | None =>
    last ← lift_result (maybe_last size);
    ensure (negb ((last : bool) && match last_part_id d (u_id file) with Some l => s_file_part r <=? l | None => false end))
      (ErrorRpc 400 "FILE_PART_SIZE_INVALID");;
    ensure (size <=? 524288) (ErrorRpc 400 "FILE_PART_TOO_BIG");;
    ensure (negb (size =? 0)) (ErrorRpc 400 "FILE_PART_EMPTY");;
    modify (fun d => with_uparts (<[(u_id file, s_file_part r) := size]> (uparts d)) d);;
    storage (save_part (u_physical_id file) (s_file_part r) (s_bytes r));;
    mret true
  end.
End Save.

(** ** [UploadingFile.finalize_upload] *)
Definition by_part (a b : Z * Z) : Prop := a.1 <= b.1.
#[export] Instance by_part_dec : RelDecision by_part.
Proof. intros a b. unfold by_part. apply _. Defined.
Definition parts_of (d : UploadDb) (file : Z) : list (Z * Z) :=
  merge_sort by_part ((fun kv => (kv.1.2, kv.2)) <$> map_to_list (filter (fun kv => kv.1.1 = file) (uparts d))).

(** The parts after the first follow each other; their sizes are added to [size]. *)
Fixpoint check_parts (previous : Z) (parts : list (Z * Z)) (size : Z) : result Z :=
  match parts with
  | [] => Ok size
  | (part_id, psize) :: parts =>
    if part_id - 1 =? previous then check_parts part_id parts (size + psize)
    else Raise (ErrorRpc 400 ("FILE_PART_" +:+ pretty (part_id - 1) +:+ "_MISSING"))
  end.

(** Up to the thumbnails: the new row, with the number of the parts checked against [parts_num] *)
Definition finalize_upload (file : UploadingFile) (fallback_mime : string) (file_type : FileType) (parts_num : option Z) (force_fallback_mime : bool)
    : U (Z * File) :=
  d ← get;
  let parts := parts_of d (u_id file) in
  let n := Z.of_nat (length parts) in
  ensure (negb (((0 <? u_total_parts file) && negb (u_total_parts file =? n)) || (n =? 0))) (ErrorRpc 400 "FILE_PARTS_INVALID");;
  ensure (match parts_num with Some p => p =? n | None => true end) (ErrorRpc 400 "FILE_PARTS_INVALID");;
  match parts with
  | [] => raise IndexError
  | (first, fsize) :: rest =>
    ensure (first =? 0) (ErrorRpc 400 "FILE_PART_0_MISSING");;
    size ← lift_result (check_parts first rest fsize);
    let f := MkFile (u_physical_id file) (if force_fallback_mime then fallback_mime else default fallback_mime (u_mime file)) size file_type None None None in
    storage (finalize_upload_as (u_physical_id file) (if decide (file_type = PHOTO_FILE) then PHOTO else DOCUMENT) n);;
    d ← get;
    modify (fun d => with_files (<[next_file d := f]> (files d)) (next_file d + 1) d);;
    mret (next_file d, f)
  end.

(** ** [get_file] *)
Definition ONE_KB : Z := 1024.
Definition ONE_MB : Z := 1024 * 1024.
Definition FOUR_KB : Z := ONE_KB * 4.

(** The letter of a thumbnail size *)
Definition PHOTOSIZE_TO_INT (size : string) : option Z :=
  match size with
  | "a" => Some 160 | "b" => Some 320 | "c" => Some 640 | "d" => Some 1280
  | "s" => Some 100 | "m" => Some 320 | "x" => Some 800 | "y" => Some 1280 | "w" => Some 2560 | _ => None
  end%string.

(** ** Sticker sets ([Stickerset.from_input_q]) *)
Inductive StickerSetOfficialType := ANIMATED_EMOJI | DICE_BASKETBALL | DICE_DIE | DICE_TARGET | EMOJI_ANIMATIONS | GENERIC_ANIMATIONS
  | USER_STATUSES | TOPIC_ICONS | DICE_FOOTBALL | DICE_SLOTMACHINE | DICE_BOWLING | EMOJI_CATEGORIES | RESTRICTED_EMOJI.
#[export] Instance official_eq_dec : EqDecision StickerSetOfficialType.
Proof. solve_decision. Defined.
Inductive InputStickerSet :=
  | InputStickerSetEmpty | InputStickerSetID (id access_hash : Z) | InputStickerSetShortName (short_name : string)
  | InputStickerSetDice (emoticon : string) | InputStickerSetAnimatedEmoji | InputStickerSetAnimatedEmojiAnimations
  | InputStickerSetEmojiGenericAnimations | InputStickerSetEmojiDefaultStatuses | InputStickerSetEmojiDefaultTopicIcons
  | InputStickerSetPremiumGifts | InputStickerSetEmojiChannelDefaultStatuses.
Record Stickerset := MkStickerset { ss_short_name : option string; ss_official_type : option StickerSetOfficialType; ss_deleted : bool }.

(** The emoticons are the UTF-8 bytes of U+1F3C0, U+1F3B2, U+1F3AF, U+26BD, U+26BD U+FE0F, U+1F3B0 and U+1F3B3. *)
Definition EMOTICON_TO_DICE_ENUM (emoticon : string) : option StickerSetOfficialType :=
  let table : list (string * StickerSetOfficialType) :=
    [("🏀", DICE_BASKETBALL); ("🎲", DICE_DIE); ("🎯", DICE_TARGET); ("⚽", DICE_FOOTBALL); ("⚽️", DICE_FOOTBALL); ("🎰", DICE_SLOTMACHINE);
     ("🎳", DICE_BOWLING)]%string in
  snd <$> List.find (fun x => bool_decide (x.1 = emoticon)) table.
Definition OFFICIAL_TL_SET_TO_ENUM (s : InputStickerSet) : option StickerSetOfficialType :=
  match s with
  | InputStickerSetAnimatedEmoji => Some ANIMATED_EMOJI
  | InputStickerSetAnimatedEmojiAnimations => Some EMOJI_ANIMATIONS
  | InputStickerSetEmojiGenericAnimations => Some GENERIC_ANIMATIONS
  | InputStickerSetEmojiDefaultStatuses => Some USER_STATUSES
  | InputStickerSetEmojiDefaultTopicIcons => Some TOPIC_ICONS
  | _ => None
  end.

Inductive FileLocation :=
  | InputDocumentFileLocation (id access_hash : Z) (file_reference : bytes) (thumb_size : string)
  | InputPhotoFileLocation (id access_hash : Z) (file_reference : bytes) (thumb_size : string)
  | InputPeerPhotoFileLocation (big : bool) (peer : InputPeer) (photo_id : Z)
  | InputEncryptedFileLocation (id access_hash : Z)
  | InputStickerSetThumb (stickerset : InputStickerSet) (thumb_version : Z)
  | OtherLocation.
Record GetFile := MkGetFile { g_location : FileLocation; g_offset : Z; g_limit : Z; g_precise : bool }.

Section Download.
Context (hmac_sha256 : bytes -> bytes) (payload : signed_kind -> Z -> Z -> Z -> bytes) (auth_id expire now : Z).
Context (stickersets : gmap Z Stickerset).

(** The sets (id and row) that a sticker set input means, if it is valid *)
Definition from_input_q (user : Z) (s : InputStickerSet) : result (option (Z -> Stickerset -> bool)) :=
  let of_type t := Some (fun (_ : Z) r => bool_decide (ss_official_type r = Some t) && negb (ss_deleted r)) in
  match s with
  | InputStickerSetEmpty => Ok None
  | InputStickerSetID id hash =>
    ok ← check_access_hash hmac_sha256 payload KStickerset user auth_id id hash;
    Ok (if (ok : bool) then Some (fun i r => (i =? id) && negb (ss_deleted r)) else None)
  | InputStickerSetShortName name => Ok (Some (fun _ r => bool_decide (ss_short_name r = Some name) && negb (ss_deleted r)))
  | InputStickerSetDice emoticon => Ok (match EMOTICON_TO_DICE_ENUM emoticon with Some t => of_type t | None => None end)
  | _ => Ok (match OFFICIAL_TL_SET_TO_ENUM s with Some t => of_type t | None => None end)
  end.

Definition get_file_checks (r : GetFile) : result unit :=
  let check_div := if g_precise r then ONE_KB else FOUR_KB in
  _ ← raise_if (match g_location r with OtherLocation => true | _ => false end) (ErrorRpc 400 "LOCATION_INVALID");
  _ ← raise_if ((g_limit r <? 0) || (ONE_MB <? g_limit r)) (ErrorRpc 400 "LIMIT_INVALID");
  _ ← raise_if (negb (g_offset r / ONE_MB =? (g_offset r + g_limit r - 1) / ONE_MB)) (ErrorRpc 400 "LIMIT_INVALID");
  _ ← raise_if (g_offset r <? 0) (ErrorRpc 400 "OFFSET_INVALID");
  _ ← raise_if (negb (g_offset r mod check_div =? 0)) (ErrorRpc 400 "OFFSET_INVALID");
  raise_if (negb (g_limit r mod check_div =? 0)) (ErrorRpc 400 "LIMIT_INVALID").

(** The condition on the file's row *)
Definition file_query (user : Z) (l : FileLocation) (d : UploadDb) : result (Z * File -> bool) :=
  let invalid : exn := ErrorRpc 400 "LOCATION_INVALID" in
  match l with
  | InputPeerPhotoFileLocation _ peer photo =>
    info ← type_and_id_from_input hmac_sha256 payload auth_id user peer;
    match info with
    | None => Raise invalid
    | Some (SELF, p) | Some (USER, p) => Ok (fun kf => (kf.1 =? photo) && bool_decide ((kf.1, p) ∈ user_photos d))
    | Some (CHAT, p) => Ok (fun kf => (kf.1 =? photo) && bool_decide ((kf.1, p) ∈ chat_photos d))
    | Some (CHANNEL, p) => Ok (fun kf => (kf.1 =? photo) && bool_decide ((kf.1, p) ∈ channel_photos d))
    end
  | InputEncryptedFileLocation id hash =>
    ok ← check_access_hash hmac_sha256 payload KFile user auth_id id hash;
    if (ok : bool) then Ok (fun kf => (kf.1 =? id) && bool_decide (f_type kf.2 = ENCRYPTED)) else Raise invalid
  | InputStickerSetThumb set version =>
    set_q ← from_input_q user set;
    match set_q with
    | None => Raise invalid
    | Some q => Ok (fun kf => (kf.1 =? version) ||
        existsb (fun fs => (fs.1 =? kf.1) && match stickersets !! fs.2 with Some row => q fs.2 row | None => false end) (elements (set_thumbs d)))
    end
  | InputDocumentFileLocation id hash ref _ | InputPhotoFileLocation id hash ref _ =>
    vc ← is_file_ref_valid hmac_sha256 expire now ref user id;
    let '(valid, const) := vc in
    if negb (valid : bool) then Raise (ErrorRpc 400 "FILE_REFERENCE_EXPIRED")
    else if (const : bool) then Ok (fun kf => (kf.1 =? id) && negb (bool_decide (f_type kf.2 = ENCRYPTED)) &&
        bool_decide (f_constant_access_hash kf.2 = Some hash) && bool_decide (f_constant_file_ref kf.2 = Some (drop 12 ref)))
    else
      ok ← check_access_hash hmac_sha256 payload KFile user auth_id id hash;
      if (ok : bool) then Ok (fun kf => (kf.1 =? id) && negb (bool_decide (f_type kf.2 = ENCRYPTED))) else Raise invalid
  | OtherLocation => Raise invalid
  end.

Definition find_file (q : Z * File -> bool) (d : UploadDb) : result (option (Z * File)) :=
  match map_to_list (filter (fun kf => q kf = true) (files d)) with [] => Ok None | [kf] => Ok (Some kf) | _ => Raise RuntimeError end.

Definition is_photo_location (l : FileLocation) : bool :=
  match l with InputPhotoFileLocation _ _ _ _ | InputPeerPhotoFileLocation _ _ _ | InputStickerSetThumb _ _ => true
  | InputDocumentFileLocation _ _ _ thumb => negb (bool_decide (thumb = "")) | _ => false end.

(** [min(available, key=lambda x: abs(x - size))], the first of the nearest *)
Definition nearest (size : Z) (x y : Z) : Z := if Z.abs (y - size) <? Z.abs (x - size) then y else x.
Definition photo_size (l : FileLocation) (available : list Z) : result Z :=
  size ← (match l with
    | InputPhotoFileLocation _ _ _ t | InputDocumentFileLocation _ _ _ t =>
      match PHOTOSIZE_TO_INT t with Some s => Ok s | None => Raise KeyError end
    | InputStickerSetThumb _ _ => Ok 100
    | InputPeerPhotoFileLocation big _ _ => Ok (if big then 640 else 160)
    | _ => Raise Unreachable end);
  match available with
  | [] => Raise ValueError
  | a :: rest => if bool_decide (size ∈ available) then Ok size else Ok (foldl (nearest size) a rest)
  end.

Definition get_file (user : Z) (r : GetFile) (d : UploadDb) : result (StorageFileType * bytes) :=
  _ ← get_file_checks r;
  q ← file_query user (g_location r) d;
  found ← find_file q d;
  match found with
  | None => Raise (ErrorRpc 400 (match g_location r with InputStickerSetThumb _ _ => "LOCATION_INVALID" | _ => "FILE_REFERENCE_EXPIRED" end))
  | Some (_, file) =>
    if f_size file <=? g_offset r then Ok (FilePartial, [])
    else if is_photo_location (g_location r) then
      match f_photo_sizes file with
      | None | Some [] => Raise (ErrorRpc 400 "LOCATION_INVALID")
      | Some available =>
        size ← photo_size (g_location r) available;
        Ok (FileJpeg, default [] (get_part PHOTO (f_physical_id file) (g_offset r) (g_limit r) (Some size) (on_disk d)))
      end
    else
      let data := default [] (get_part DOCUMENT (f_physical_id file) (g_offset r) (g_limit r) None (on_disk d)) in
      Ok (if negb (Z.of_nat (length data) =? f_size file) then FilePartial else default FileUnknown (MIME_TO_TL (f_mime_type file)), data)
  end.
End Download.

(** ** Names *)
Abbreviation dot_free := (free_of "."%char).

Lemma part_name_inj a b p q : dot_free a -> dot_free b -> part_name a p = part_name b q -> a = b /\ (p = q \/ (p <= 0 /\ q <= 0)).
Proof.
  intros Ha Hb. unfold part_name. destruct (0 <? p) eqn:Ep, (0 <? q) eqn:Eq; b2p; intros H.
  - change (a +:+ String "." ("part" +:+ pretty p) = b +:+ String "." ("part" +:+ pretty q)) in H.
    apply free_split in H as [-> H]; [|done..]. split; [done|]. left. apply (inj (String.append "part")) in H. by apply (inj pretty) in H.
  - exfalso. apply (free_app "." a ("part" +:+ pretty p)). change (dot_free (a +:+ ".part" +:+ pretty p)). by rewrite H.
  - exfalso. apply (free_app "." b ("part" +:+ pretty q)). change (dot_free (b +:+ ".part" +:+ pretty q)). by rewrite <- H.
  - split; [done|]. right. lia.
Qed.
Lemma part_name_pos a p : 0 < p -> part_name a p = a +:+ ".part" +:+ pretty p.
Proof. intros Hp. unfold part_name. by rewrite (proj2 (Z.ltb_lt _ _)). Qed.
Lemma part_name_base a p : p <= 0 -> part_name a p = a.
Proof. intros Hp. unfold part_name. by rewrite (proj2 (Z.ltb_ge _ _)). Qed.

(** ** The disk *)
Lemma append_parts_spec fid dst bs : dot_free fid -> dst.1 <> Uploading -> forall p k c, 0 < p ->
  k !! dst = Some c -> (forall i b, bs !! i = Some b -> k !! (Uploading, part_name fid (p + Z.of_nat i)) = Some b) ->
  exists k', append_parts fid dst p (length bs) k = (Ok tt, k') /\ k' !! dst = Some (c ++ mjoin bs) /\
    (forall path, path <> dst -> (forall q, p <= q -> path <> (Uploading, part_name fid q)) -> k' !! path = k !! path) /\
    (forall path b, k' !! path = Some b -> path = dst \/ k !! path = Some b).
Proof.
  intros Hfid Hdst. induction bs as [|b bs IH]; intros p k c Hp Hc Hbs; cbn [append_parts length].
  { exists k. split; [done|]. split; [by rewrite app_nil_r|]. split; [done|]. auto. }
  set (path := (Uploading, fid +:+ ".part" +:+ pretty p)).
  assert (path = (Uploading, part_name fid p)) as Hpath by (unfold path; by rewrite part_name_pos).
  assert (k !! path = Some b) as Hb. { rewrite Hpath. specialize (Hbs 0%nat b eq_refl). by rewrite Z.add_0_r in Hbs. }
  assert (path <> dst) as Hne by (intros <-; by apply Hdst).
  unfold read_file, mbind, M_bind, modify. rewrite Hb, Hc. cbn [default].
  set (k1 := delete path (<[dst := c ++ b]> k)).
  destruct (IH (p + 1) k1 (c ++ b)) as (k' & E & Hd & Hsame & Hsub); [lia| | |].
  - unfold k1. rewrite lookup_delete_ne by done. by rewrite lookup_insert_eq.
  - intros i b' Hb'. unfold k1. specialize (Hbs (S i) b' Hb'). rewrite <- Hbs.
    replace (p + Z.of_nat (S i)) with (p + 1 + Z.of_nat i) by lia. rewrite lookup_delete_ne, lookup_insert_ne; [done| |].
    + intros Heq. apply Hdst. by rewrite Heq.
    + rewrite Hpath. intros [= Heq]. apply part_name_inj in Heq as [_ [Heq|Heq]]; [lia|lia|done|done].
  - exists k'. split; [exact E|]. split; [rewrite Hd; by rewrite <- app_assoc|]. split.
    + intros q Hq Hn. rewrite Hsame by (auto; intros; apply Hn; lia). unfold k1.
      rewrite lookup_delete_ne; [by rewrite lookup_insert_ne|]. rewrite Hpath. intros Heq. by apply (Hn p).
    + intros q b' Hq. destruct (Hsub q b' Hq) as [->|Hq']; [by left|]. unfold k1 in Hq'.
      apply lookup_delete_Some in Hq' as [_ Hq']. apply lookup_insert_Some in Hq' as [[<- _]|[_ Hq']]; auto.
Qed.

(** Finalizing moves the first part and appends the others. *)
Lemma finalize_as_spec fid t b0 bs k : dot_free fid -> k !! (Uploading, fid) = Some b0 ->
  (forall i b, bs !! i = Some b -> k !! (Uploading, part_name fid (1 + Z.of_nat i)) = Some b) ->
  exists k', finalize_upload_as fid t (Z.of_nat (S (length bs))) k = (Ok tt, k') /\ k' !! (Stored t, fid) = Some (b0 ++ mjoin bs) /\
    k' !! (Uploading, fid) = None /\
    (forall path, path.2 <> fid -> (forall q, 0 < q -> path.2 <> part_name fid q) -> k' !! path = k !! path) /\
    (forall path b, k' !! path = Some b -> path = (Stored t, fid) \/ k !! path = Some b).
Proof.
  intros Hfid Hb Hbs. unfold finalize_upload_as, rename, read_file. unfold mbind, M_bind. rewrite Hb. unfold modify at 1.
  set (k1 := <[(Stored t, fid) := b0]> (delete (Uploading, fid) k)).
  destruct (append_parts_spec fid (Stored t, fid) bs Hfid ltac:(done) 1 k1 b0) as (k' & E & Hd & Hsame & Hsub); [lia| | |].
  - unfold k1. by rewrite lookup_insert_eq.
  - intros i b Hi. unfold k1. rewrite lookup_insert_ne by done. rewrite lookup_delete_ne; [by apply Hbs|].
    intros [= Heq]. rewrite <- (part_name_base fid 0) in Heq at 1 by lia. apply part_name_inj in Heq as [_ [?|?]]; [lia|lia|done|done].
  - exists k'. split.
    { destruct (_ <=? 1) eqn:El; b2p.
      - destruct bs; [|cbn in El; lia]. cbn in E. exact E.
      - replace (Z.to_nat (Z.of_nat (S (length bs)) - 1)) with (length bs) by lia. exact E. }
    split; [exact Hd|]. split.
    + rewrite Hsame; [unfold k1; rewrite lookup_insert_ne by done; by rewrite lookup_delete_eq|done|].
      intros q Hq [= Heq]. rewrite <- (part_name_base fid 0) in Heq at 1 by lia. apply part_name_inj in Heq as [_ [?|?]]; [lia|lia|done|done].
    + split.
      * intros path Hn Hq. rewrite Hsame.
        -- unfold k1. rewrite lookup_insert_ne, lookup_delete_ne; [done| |]; intros <-; by apply Hn.
        -- intros ->. by apply Hn.
        -- intros q Hle ->. apply (Hq q); [lia|done].
      * intros path b Hp. destruct (Hsub path b Hp) as [->|Hp']; [by left|]. unfold k1 in Hp'.
        apply lookup_insert_Some in Hp' as [[<- _]|[_ Hp']]; [by left|]. apply lookup_delete_Some in Hp' as [_ Hp']. by right.
Qed.

(** ** The parts of a file *)
Lemma parts_of_spec d u p s : (p, s) ∈ parts_of d u <-> uparts d !! (u, p) = Some s.
Proof.
  unfold parts_of. rewrite merge_sort_Permutation, list_elem_of_fmap. split.
  - intros ([[u' p'] s'] & [= -> ->] & H). apply elem_of_map_to_list, map_lookup_filter_Some in H as [H Hu]. cbn in *. by subst.
  - intros H. exists (u, p, s). split; [done|]. apply elem_of_map_to_list. by apply map_lookup_filter_Some.
Qed.

Lemma check_parts_ok parts : forall previous size total, check_parts previous parts size = Ok total ->
  (forall i x, parts !! i = Some x -> x.1 = previous + 1 + Z.of_nat i) /\ total = foldr (fun x n => x.2 + n) size parts.
Proof.
  induction parts as [|[p s] parts IH]; intros previous size total; cbn [check_parts foldr]; [by intros [= <-]|].
  destruct (p - 1 =? previous) eqn:E; [|done]. b2p. intros H. apply IH in H as [Hi ->]. split.
  - intros [|i] x; cbn; [intros [= <-]; cbn; lia|]. intros Hx. rewrite (Hi i x Hx). lia.
  - clear. cbn [snd]. induction parts as [|x parts IH]; cbn [foldr]; [lia|]. rewrite IH. lia.
Qed.

(** ** The system: sent parts and finished files *)
Definition storage_of (t : FileType) : StorageType := if decide (t = PHOTO_FILE) then PHOTO else DOCUMENT.

(** The tables, with what was first accepted as each part and what was finished as each file *)
Record upload_state := MkUploadState { udb : UploadDb; sent : gmap (Z * Z) bytes; finished : gmap Z (StorageType * bytes) }.

Definition record_part (user : Z) (r : SaveFilePart) (res : result bool) (d : UploadDb) (s : gmap (Z * Z) bytes) : gmap (Z * Z) bytes :=
  match res, uploading d !! (user, s_file_id r) with
  | Ok true, Some f => match s !! (u_id f, s_file_part r) with None => <[(u_id f, s_file_part r) := s_bytes r]> s | Some _ => s end
  | _, _ => s
  end.

Definition part_bytes (s : gmap (Z * Z) bytes) (u : Z) (x : Z * Z) : bytes := default [] (s !! (u, x.1)).
(** The parts of a file, in their order *)
Definition assembled (d : UploadDb) (s : gmap (Z * Z) bytes) (u : Z) : bytes := mjoin (part_bytes s u <$> parts_of d u).

Definition fresh_physical (physical : string) (d : UploadDb) : Prop :=
  dot_free physical /\ forall k f, uploading d !! k = Some f -> u_physical_id f <> physical.

Section System.
Context (detect : bytes -> option string).

Inductive upload_step : upload_state -> upload_state -> Prop :=
  | step_save d s fin physical user r res d' : fresh_physical physical d ->
      save_file_part detect physical user r d = (res, d') ->
      upload_step (MkUploadState d s fin) (MkUploadState d' (record_part user r res d' s) fin)
  | step_refused d s fin k file fallback t n force e d' : uploading d !! k = Some file ->
      finalize_upload file fallback t n force d = (Raise e, d') ->
      upload_step (MkUploadState d s fin) (MkUploadState d' s fin)
  | step_finalize d s fin k file fallback t n force i F d' : uploading d !! k = Some file ->
      finalize_upload file fallback t n force d = (Ok (i, F), d') ->
      upload_step (MkUploadState d s fin) (MkUploadState d' s (<[i := (storage_of t, assembled d s (u_id file))]> fin)).
End System.

(** The ids of the rows, all that the invariant needs of them *)
Definition ids (d : UploadDb) : gmap (Z * Z) (Z * string) := (fun f => (u_id f, u_physical_id f)) <$> uploading d.
Definition finalised (d : UploadDb) (physical : string) : Prop := exists i F, files d !! i = Some F /\ f_physical_id F = physical.
Definition nonneg (d : UploadDb) (u : Z) : Prop := forall p s, uparts d !! (u, p) = Some s -> 0 <= p.

Record upload_ok (x : upload_state) : Prop := {
  ok_ids k u ph : ids (udb x) !! k = Some (u, ph) -> u < next_upload (udb x) /\ dot_free ph;
  ok_unique k k' u u' ph ph' : ids (udb x) !! k = Some (u, ph) -> ids (udb x) !! k' = Some (u', ph') -> u = u' \/ ph = ph' -> k = k';
  ok_parts u p n : uparts (udb x) !! (u, p) = Some n -> (exists k ph, ids (udb x) !! k = Some (u, ph)) /\ 0 < n <= 524288 /\
    exists b, sent x !! (u, p) = Some b /\ Z.of_nat (length b) = n;
  ok_sent up b : sent x !! up = Some b -> is_Some (uparts (udb x) !! up);
  ok_open k u ph : ids (udb x) !! k = Some (u, ph) -> ~ finalised (udb x) ph -> nonneg (udb x) u ->
    forall p, 0 <= p -> on_disk (udb x) !! (Uploading, part_name ph p) = sent x !! (u, p);
  ok_files i F : files (udb x) !! i = Some F -> i < next_file (udb x) /\ exists k u c,
    ids (udb x) !! k = Some (u, f_physical_id F) /\ finished x !! i = Some (storage_of (f_type F), c) /\ f_size F = Z.of_nat (length c) /\
    on_disk (udb x) !! (Stored (storage_of (f_type F)), f_physical_id F) = Some c /\ is_Some (sent x !! (u, 0)) /\
    (nonneg (udb x) u -> on_disk (udb x) !! (Uploading, f_physical_id F) = None);
  ok_names path b : on_disk (udb x) !! path = Some b -> exists k u ph q, ids (udb x) !! k = Some (u, ph) /\ path.2 = part_name ph q;
  ok_finished i tc : finished x !! i = Some tc -> is_Some (files (udb x) !! i) }.

Lemma ids_row d k f : uploading d !! k = Some f -> ids d !! k = Some (u_id f, u_physical_id f).
Proof. intros H. unfold ids. by rewrite lookup_fmap, H. Qed.
Lemma ids_fresh ph d k u ph' : fresh_physical ph d -> ids d !! k = Some (u, ph') -> ph' <> ph.
Proof. intros [_ H]. unfold ids. rewrite lookup_fmap. destruct (uploading d !! k) as [f|] eqn:E; [|done]. intros [= _ <-]. by apply (H k). Qed.

(** ** The row of an upload *)
Definition same_tables (d d' : UploadDb) : Prop :=
  uparts d' = uparts d /\ on_disk d' = on_disk d /\ files d' = files d /\ next_file d' = next_file d.

Lemma uploading_file_spec detect ph user r d : exists f d', uploading_file detect ph user r d = (Ok f, d') /\
  uploading d' !! (user, s_file_id r) = Some f /\ same_tables d d' /\
  ((next_upload d' = next_upload d /\ ids d' = ids d) \/
   (ids d !! (user, s_file_id r) = None /\ u_id f = next_upload d /\ u_physical_id f = ph /\ next_upload d' = next_upload d + 1 /\
    ids d' = <[(user, s_file_id r) := (next_upload d, ph)]> (ids d))).
Proof.
  unfold uploading_file, same_tables. destruct (uploading d !! (user, s_file_id r)) as [f|] eqn:E.
  - destruct (_ && _ && _).
    + eexists _, _. split; [reflexivity|]. cbn. split; [by rewrite lookup_insert_eq|]. split; [done|]. left. split; [done|].
      unfold ids. cbn. rewrite fmap_insert. cbn. apply insert_id. by rewrite lookup_fmap, E.
    + exists f, d. split; [done|]. split; [exact E|]. split; [done|]. by left.
  - eexists _, _. split; [reflexivity|]. cbn. split; [by rewrite lookup_insert_eq|]. split; [done|]. right.
    repeat (split; [first [done|unfold ids; by rewrite lookup_fmap, E]|]). unfold ids. cbn. by rewrite fmap_insert.
Qed.

Lemma upload_ok_same d d' s fin : same_tables d d' -> ids d' = ids d -> next_upload d' = next_upload d ->
  upload_ok (MkUploadState d s fin) -> upload_ok (MkUploadState d' s fin).
Proof.
  intros (Hp & Hk & Hf & Hn) Hi Hu [H1 H2 H3 H4 H5 H6 H7 H8]. cbn in *.
  split; unfold finalised, nonneg in *; cbn; rewrite ?Hp, ?Hk, ?Hf, ?Hn, ?Hi, ?Hu; eauto.
Qed.

Lemma upload_ok_new d d' s fin k ph : fresh_physical ph d -> same_tables d d' -> ids d !! k = None -> next_upload d' = next_upload d + 1 ->
  ids d' = <[k := (next_upload d, ph)]> (ids d) -> upload_ok (MkUploadState d s fin) -> upload_ok (MkUploadState d' s fin).
Proof.
  intros Hfresh (Hp & Hk & Hf & Hn) Hnone Hu Hi [H1 H2 H3 H4 H5 H6 H7 H8]. cbn in *.
  assert (forall k0 x, ids d !! k0 = Some x -> ids d' !! k0 = Some x) as Hold.
  { intros k0 x Hx. rewrite Hi. rewrite lookup_insert_ne; [done|]. intros <-. congruence. }
  assert (forall u p, next_upload d <= u -> s !! (u, p) = None) as Hsent.
  { intros u p Hle. destruct (s !! (u, p)) as [b|] eqn:E; [|done]. apply H4 in E as [n E]. apply H3 in E as [(k0 & ph0 & E) _].
    apply H1 in E as [E _]. lia. }
  split; unfold finalised, nonneg in *; cbn; rewrite ?Hp, ?Hk, ?Hf, ?Hn, ?Hu.
  - intros k0 u0 ph0. rewrite Hi. intros [[_ [= <- <-]]|[_ E]]%lookup_insert_Some; [split; [lia|apply Hfresh]|].
    apply H1 in E as [? ?]. split; [lia|done].
  - intros k1 k2 u1 u2 ph1 ph2. rewrite Hi.
    intros [[<- [= <- <-]]|[N1 E1]]%lookup_insert_Some [[<- [= <- <-]]|[N2 E2]]%lookup_insert_Some Hor; [done| | |by eapply H2]; exfalso.
    + destruct Hor as [<-| <-]; [apply H1 in E2 as [? _]; lia|by apply (ids_fresh _ _ _ _ _ Hfresh E2)].
    + destruct Hor as [->| ->]; [apply H1 in E1 as [? _]; lia|by apply (ids_fresh _ _ _ _ _ Hfresh E1)].
  - intros u p n E. destruct (H3 u p n E) as [(k0 & ph0 & E0) ?]. split; [eauto|done].
  - exact H4.
  - intros k0 u0 ph0. rewrite Hi. intros [[_ [= <- <-]]|[_ E]]%lookup_insert_Some; [|by apply (H5 k0)].
    intros _ _ p _. rewrite Hsent by lia. apply eq_None_not_Some. intros [b E]. apply H7 in E as (k1 & u1 & ph1 & q & E1 & E2). cbn in E2.
    apply part_name_inj in E2 as [-> _]; [by apply (ids_fresh _ _ _ _ _ Hfresh E1)|apply Hfresh|by apply H1 in E1 as [_ ?]].
  - intros i F E. destruct (H6 i F E) as (? & k0 & u0 & c & E0 & ?). split; [done|]. exists k0, u0, c. split; [auto|done].
  - intros path b E. destruct (H7 path b E) as (k0 & u0 & ph0 & q & E0 & ?). exists k0, u0, ph0, q. split; [auto|done].
  - exact H8.
Qed.

Lemma uploading_file_ok detect ph user r d s fin f d' : fresh_physical ph d -> uploading_file detect ph user r d = (Ok f, d') ->
  upload_ok (MkUploadState d s fin) ->
  upload_ok (MkUploadState d' s fin) /\ uploading d' !! (user, s_file_id r) = Some f /\ same_tables d d'.
Proof.
  intros Hfresh E Hok. destruct (uploading_file_spec detect ph user r d) as (f0 & d0 & E0 & Hrow & Hsame & Hids).
  rewrite E in E0. injection E0 as <- <-. split; [|done]. destruct Hids as [[? ?]|(? & ? & ? & ? & ?)].
  - by eapply upload_ok_same.
  - by eapply upload_ok_new.
Qed.

(** ** A new part *)
Definition put_part (ph : string) (u p : Z) (b : bytes) (d : UploadDb) : UploadDb :=
  with_disk (<[(Uploading, part_name ph p) := overwrite b (default [] (on_disk d !! (Uploading, part_name ph p)))]> (on_disk d))
    (with_uparts (<[(u, p) := Z.of_nat (length b)]> (uparts d)) d).

Lemma upload_ok_part d s fin k u ph p b : ids d !! k = Some (u, ph) -> uparts d !! (u, p) = None -> 0 < Z.of_nat (length b) <= 524288 ->
  upload_ok (MkUploadState d s fin) -> upload_ok (MkUploadState (put_part ph u p b d) (<[(u, p) := b]> s) fin).
Proof.
  intros Hk Hnew Hlen [H1 H2 H3 H4 H5 H6 H7 H8]. cbn in *.
  assert (forall v, nonneg (put_part ph u p b d) v -> nonneg d v /\ (v = u -> 0 <= p)) as Hnn.
  { intros v Hv. split.
    - intros q n E. apply (Hv q n). cbn. rewrite lookup_insert_ne; [done|]. intros [= <- <-]. congruence.
    - intros ->. apply (Hv p (Z.of_nat (length b))). cbn. apply lookup_insert_eq. }
  assert (s !! (u, p) = None) as Hs.
  { apply eq_None_not_Some. intros [b' E]. apply H4 in E as [n E]. congruence. }
  assert (forall path k' u' ph' q, ids d !! k' = Some (u', ph') -> k' <> k -> path = (Uploading, part_name ph' q) ->
    (Uploading, part_name ph p) <> path) as Hother.
  { intros path k' u' ph' q E Hne -> [= Heq]. apply part_name_inj in Heq as [-> _]; [|by apply H1 in Hk as [_ ?]|by apply H1 in E as [_ ?]].
    apply Hne. eapply H2; eauto. }
  split; cbn; unfold ids in *; cbn; try done.
  - intros u' p' n [[[= <- <-] <-]|[_ E]]%lookup_insert_Some.
    + split; [eauto|]. split; [done|]. exists b. by rewrite lookup_insert_eq.
    + destruct (H3 u' p' n E) as (? & ? & b' & E' & ?). split; [done|]. split; [done|]. exists b'. split; [|done].
      rewrite lookup_insert_ne; [done|]. intros [= <- <-]. congruence.
  - intros up b' [[<- _]|[_ E]]%lookup_insert_Some; [by rewrite lookup_insert_eq|]. apply H4 in E as [n E].
    destruct (decide (up = (u, p))) as [->|Hne]; [by rewrite lookup_insert_eq|by rewrite lookup_insert_ne].
  - intros k' u' ph' E Hf Hv q Hq. apply Hnn in Hv as [Hv Hp]. destruct (decide (k' = k)) as [->|Hne].
    + rewrite Hk in E. injection E as <- <-. specialize (Hp eq_refl). destruct (decide (q = p)) as [->|Hqp].
      * rewrite !lookup_insert_eq. unfold overwrite. rewrite (H5 k u ph Hk Hf Hv p Hq), Hs. cbn. by rewrite drop_nil, app_nil_r.
      * rewrite !lookup_insert_ne; [by apply (H5 k)|by intros [= ?]|]. intros [= Heq].
        apply H1 in Hk as [_ Hd]. apply part_name_inj in Heq as [_ ?]; [lia|done..].
    + rewrite !lookup_insert_ne; [by apply (H5 k')| |by eapply Hother].
      intros [= -> _]. apply Hne. eapply H2; eauto.
  - intros i F E. destruct (H6 i F E) as (Hlt & k' & u' & c & Ei & Ef & Hsz & Ed & H0 & Hup). split; [done|]. exists k', u', c.
    split; [done|]. split; [done|]. split; [done|]. split; [by rewrite lookup_insert_ne|]. split.
    + destruct (decide ((u', 0) = (u, p))) as [->|Hne]; [by rewrite lookup_insert_eq|by rewrite lookup_insert_ne].
    + intros Hv. apply Hnn in Hv as [Hv Hp]. rewrite <- (Hup Hv). apply lookup_insert_ne. intros [= Heq].
      rewrite <- (part_name_base (f_physical_id F) 0) in Heq by lia.
      apply part_name_inj in Heq as [Hph Hle]; [|by apply H1 in Hk as [_ ?]|by apply H1 in Ei as [_ ?]].
      assert (k' = k) as -> by (eapply H2; eauto). assert (u' = u) as -> by congruence. specialize (Hp eq_refl).
      assert (p = 0) as -> by lia. rewrite Hs in H0. by destruct H0.
  - intros path b' [[<- _]|[_ E]]%lookup_insert_Some; [exists k, u, ph, p; by rewrite Hk|by apply H7 in E].
Qed.

(** What a save does, once its row is there: a refusal or a repetition changes nothing more, a new part is written. *)
Lemma save_cases detect ph user r d f d1 res d' : uploading_file detect ph user r d = (Ok f, d1) ->
  save_file_part detect ph user r d = (res, d') ->
  (d' = d1 /\ (res = Ok true -> uparts d1 !! (u_id f, s_file_part r) = Some (Z.of_nat (length (s_bytes r))))) \/
  (res = Ok true /\ uparts d1 !! (u_id f, s_file_part r) = None /\ 0 < Z.of_nat (length (s_bytes r)) <= 524288 /\
   d' = put_part (u_physical_id f) (u_id f) (s_file_part r) (s_bytes r) d1).
Proof.
  intros E. unfold save_file_part. rewrite (M_bind_step _ _ _ _ _ E), get_bind, !ensure_bind.
  destruct (negb _); [|intros [= <- <-]; by left]. destruct (negb _); [|intros [= <- <-]; by left].
  cbv zeta. destruct (uparts d1 !! (u_id f, s_file_part r)) as [n|] eqn:Ep.
  { destruct (_ =? n) eqn:En; intros [= <- <-]; left; split; [done| |done|done]. b2p. by subst. }
  unfold maybe_last. set (n := Z.of_nat (length (s_bytes r))). set (g := fun last : bool => _).
  assert (forall last, g last d1 = (res, d') -> (d' = d1 /\ (res = Ok true -> None = Some n)) \/
    (res = Ok true /\ None = @None Z /\ 0 < n <= 524288 /\ d' = put_part (u_physical_id f) (u_id f) (s_file_part r) (s_bytes r) d1)) as Hg.
  { intros last. unfold g. rewrite !ensure_bind. destruct (negb (_ && _)); [|intros [= <- <-]; by left].
    destruct (n <=? 524288) eqn:E1; [|intros [= <- <-]; by left]. destruct (n =? 0) eqn:E2; [intros [= <- <-]; by left|].
    b2p. intros [= <- <-]. right. split; [done|]. split; [done|]. split; [lia|done]. }
  destruct (n mod 1024 =? 0); cbn [negb]; [|exact (Hg true)].
  destruct (n =? 0); [intros [= <- <-]; by left|exact (Hg _)].
Qed.

Lemma save_ok detect ph user r d s fin res d' : fresh_physical ph d -> save_file_part detect ph user r d = (res, d') ->
  upload_ok (MkUploadState d s fin) -> upload_ok (MkUploadState d' (record_part user r res d' s) fin).
Proof.
  intros Hfresh E Hok. destruct (uploading_file_spec detect ph user r d) as (f & d1 & E1 & _).
  destruct (uploading_file_ok _ _ _ _ _ _ _ _ _ Hfresh E1 Hok) as (Hok1 & Hrow & _). unfold record_part.
  destruct (save_cases _ _ _ _ _ _ _ _ _ E1 E) as [[-> Hres]|(-> & Hnone & Hlen & ->)].
  - rewrite Hrow. destruct res as [[]|]; [|done|done]. specialize (Hres eq_refl).
    destruct (ok_parts _ Hok1 _ _ _ Hres) as (_ & _ & b & Hb & _). cbn in Hb. by rewrite Hb.
  - cbn [put_part uploading with_disk with_uparts]. rewrite Hrow. destruct (s !! _) as [b|] eqn:Eb.
    + destruct (ok_sent _ Hok1 _ _ Eb) as [n Hn]. cbn in Hn. congruence.
    + by eapply upload_ok_part; [apply ids_row| | |].
Qed.

(** ** Finishing a file *)
Lemma finalize_cases file fb t n force d res d' : finalize_upload file fb t n force d = (res, d') ->
  (d' = d /\ exists e, res = Raise e) \/
  exists s0 rest total, parts_of d (u_id file) = (0, s0) :: rest /\ check_parts 0 rest s0 = Ok total /\
    let '(r, k) := finalize_upload_as (u_physical_id file) (storage_of t) (Z.of_nat (length (parts_of d (u_id file)))) (on_disk d) in
    match r with
    | Raise e => res = Raise e /\ d' = with_disk k d
    | Ok _ => exists mime, let F := MkFile (u_physical_id file) mime total t None None None in
        res = Ok (next_file d, F) /\ d' = with_files (<[next_file d := F]> (files d)) (next_file d + 1) (with_disk k d)
    end.
Proof.
  unfold finalize_upload. rewrite get_bind. cbv zeta. rewrite !ensure_bind.
  destruct (negb _); [|intros [= <- <-]; left; eauto].
  destruct (match n with Some _ => _ | None => true end); [|intros [= <- <-]; left; eauto].
  destruct (parts_of d (u_id file)) as [|[first s0] rest]; [intros [= <- <-]; left; eauto|]. rewrite ensure_bind.
  destruct (first =? 0) eqn:E0; [|intros [= <- <-]; left; eauto]. b2p. subst first.
  destruct (check_parts 0 rest s0) as [total|] eqn:Ec; [|intros [= <- <-]; left; eauto]. rewrite lift_step. intros E. right.
  exists s0, rest, total. split; [done|]. split; [done|]. unfold storage, mbind at 1, M_bind at 1 in E. fold (storage_of t) in E.
  destruct (finalize_upload_as _ _ _ _) as [[[]|e] k]; injection E as <- <-; [by eexists|done].
Qed.

(** What the check of the parts' numbers gives *)
Lemma checked_parts d u s0 rest total : parts_of d u = (0, s0) :: rest -> check_parts 0 rest s0 = Ok total ->
  (forall i x, parts_of d u !! i = Some x -> x.1 = Z.of_nat i /\ uparts d !! (u, Z.of_nat i) = Some x.2) /\ nonneg d u /\
  total = foldr (fun x n => x.2 + n) 0 (parts_of d u).
Proof.
  intros E Hc. apply check_parts_ok in Hc as [Hi ->].
  assert (forall i x, parts_of d u !! i = Some x -> x.1 = Z.of_nat i) as Hnum.
  { rewrite E. intros [|i] x; cbn; [by intros [= <-]|]. intros Hx. rewrite (Hi i x Hx). lia. }
  split; [|split].
  - intros i [p n] Hx. pose proof (Hnum i _ Hx) as Hp. cbn in *. subst p. split; [done|]. apply parts_of_spec. by eapply list_elem_of_lookup_2.
  - intros p n Hp. apply parts_of_spec in Hp. apply list_elem_of_lookup in Hp as [i Hx]. specialize (Hnum i _ Hx). cbn in Hnum. lia.
  - rewrite E. cbn [foldr snd]. clear. induction rest as [|x rest IH]; cbn [foldr]; [lia|]. rewrite IH. lia.
Qed.

Lemma assembled_length d s fin u : upload_ok (MkUploadState d s fin) ->
  (forall i x, parts_of d u !! i = Some x -> x.1 = Z.of_nat i /\ uparts d !! (u, Z.of_nat i) = Some x.2) ->
  Z.of_nat (length (assembled d s u)) = foldr (fun x n => x.2 + n) 0 (parts_of d u).
Proof.
  intros Hok Hi. unfold assembled.
  assert (forall x, x ∈ parts_of d u -> Z.of_nat (length (part_bytes s u x)) = x.2) as Hx.
  { intros x Hx. apply list_elem_of_lookup in Hx as [i Hx]. destruct (Hi i x Hx) as [Hn Hp]. unfold part_bytes. rewrite Hn.
    destruct (ok_parts _ Hok _ _ _ Hp) as (_ & _ & b & Hb & Hl). cbn in Hb. by rewrite Hb. }
  revert Hx. clear. induction (parts_of d u) as [|x l IH]; [done|]. intros Hx. cbn [fmap list_fmap mjoin list_join foldr].
  rewrite length_app, Nat2Z.inj_add, Hx by apply list_elem_of_here. rewrite <- IH; [done|]. intros y Hy. apply Hx. by apply list_elem_of_further.
Qed.

(** A finished file leaves its upload without its first part, so it is finished once. *)
Lemma finalize_upload_spec d s fin k file fb t n force res d' : uploading d !! k = Some file -> upload_ok (MkUploadState d s fin) ->
  finalize_upload file fb t n force d = (res, d') ->
  (d' = d /\ exists e, res = Raise e) \/
  exists mime, let u := u_id file in let ph := u_physical_id file in
    let F := MkFile ph mime (Z.of_nat (length (assembled d s u))) t None None None in
    res = Ok (next_file d, F) /\ ~ finalised d ph /\ nonneg d u /\ is_Some (s !! (u, 0)) /\
    (forall i x, parts_of d u !! i = Some x -> x.1 = Z.of_nat i /\ uparts d !! (u, Z.of_nat i) = Some x.2) /\
    exists k', d' = with_files (<[next_file d := F]> (files d)) (next_file d + 1) (with_disk k' d) /\
      k' !! (Stored (storage_of t), ph) = Some (assembled d s u) /\ k' !! (Uploading, ph) = None /\
      (forall path, path.2 <> ph -> (forall q, 0 < q -> path.2 <> part_name ph q) -> k' !! path = on_disk d !! path) /\
      (forall path b, k' !! path = Some b -> path = (Stored (storage_of t), ph) \/ on_disk d !! path = Some b).
Proof.
  intros Hrow Hok E. apply ids_row in Hrow. destruct (finalize_cases _ _ _ _ _ _ _ _ E) as [?|(s0 & rest & total & Hparts & Hc & Hcase)]; [by left|].
  destruct (checked_parts _ _ _ _ _ Hparts Hc) as (Hi & Hnn & ->). rewrite <- (assembled_length _ _ _ _ Hok Hi) in Hcase.
  set (u := u_id file) in *. set (ph := u_physical_id file) in *.
  destruct (Hi 0%nat (0, s0)) as [_ Hp0]; [by rewrite Hparts|]. change (Z.of_nat 0) with 0 in Hp0. cbn in Hp0.
  destruct (ok_parts _ Hok _ _ _ Hp0) as (_ & _ & b0 & Hb0 & _). cbn in Hb0.
  destruct (ok_ids _ Hok _ _ _ Hrow) as [_ Hdot].
  destruct (on_disk d !! (Uploading, ph)) as [b|] eqn:Eb.
  2: { left. unfold finalize_upload_as, rename, read_file, mbind, M_bind in Hcase. rewrite Eb in Hcase.
       destruct Hcase as [-> ->]. split; [by destruct d|eauto]. }
  right. assert (~ finalised d ph) as Hnf.
  { intros (i & F & EF & HF). destruct (ok_files _ Hok _ _ EF) as (_ & k' & u' & c & Ei & _ & _ & _ & _ & Hup). cbn in *. rewrite HF in *.
    assert (k' = k) as -> by (eapply (ok_unique _ Hok); eauto). assert (u' = u) as -> by (pose proof (eq_trans (eq_sym Ei) Hrow) as [=]; done). rewrite (Hup Hnn) in Eb. done. }
  pose proof (ok_open _ Hok _ _ _ Hrow Hnf Hnn) as Hopen. cbn in Hopen.
  assert (b = b0) as ->. { specialize (Hopen 0 ltac:(lia)). rewrite part_name_base in Hopen by lia. congruence. }
  destruct (finalize_as_spec ph (storage_of t) b0 (part_bytes s u <$> rest) (on_disk d) Hdot Eb) as (k' & Ek & Hst & Hup & Hsame & Hsub).
  { intros i b. rewrite list_lookup_fmap. destruct (rest !! i) as [x|] eqn:Ex; [|done]. intros [= <-].
    destruct (Hi (S i) x) as [Hx Hpx]; [by rewrite Hparts|]. replace (Z.of_nat (S i)) with (1 + Z.of_nat i) in Hx, Hpx by lia.
    rewrite Hopen by lia. destruct (ok_parts _ Hok _ _ _ Hpx) as (_ & _ & b & Hb & _). cbn in Hb. unfold part_bytes. by rewrite Hx, Hb. }
  rewrite length_fmap in Ek. assert (length (parts_of d u) = S (length rest)) as Hlen by (by rewrite Hparts). rewrite Hlen, Ek in Hcase. destruct Hcase as (mime & -> & ->).
  exists mime. cbv zeta. split; [done|]. split; [done|]. split; [done|]. split; [eauto|]. split; [done|]. exists k'. split; [done|].
  split; [|done]. rewrite Hst. unfold assembled. rewrite Hparts. cbn. unfold part_bytes at 2. cbn [fst]. by rewrite Hb0.
Qed.

Lemma finalize_ok d s fin k file fb t n force i F d' : uploading d !! k = Some file -> upload_ok (MkUploadState d s fin) ->
  finalize_upload file fb t n force d = (Ok (i, F), d') ->
  upload_ok (MkUploadState d' s (<[i := (storage_of t, assembled d s (u_id file))]> fin)).
Proof.
  intros Hrow Hok E. destruct (finalize_upload_spec _ _ _ _ _ _ _ _ _ _ _ Hrow Hok E) as [[_ [e He]]|(mime & Hres & Hnf & Hnn & H0 & _ & k' & -> & Hst & Hup & Hsame & Hsub)]; [done|].
  injection Hres as -> ->.
  apply ids_row in Hrow. destruct (ok_ids _ Hok _ _ _ Hrow) as [_ Hdot]. destruct Hok as [H1 H2 H3 H4 H5 H6 H7 H8]. cbn in *.
  set (u := u_id file) in *. set (ph := u_physical_id file) in *.
  assert (forall k0 u0 ph0 q dr, ids d !! k0 = Some (u0, ph0) -> ph0 <> ph -> k' !! (dr, part_name ph0 q) = on_disk d !! (dr, part_name ph0 q)) as Hother.
  { intros k0 u0 ph0 q dr E0 Hne. assert (dot_free ph0) as Hd0 by (by apply H1 in E0 as [_ ?]). apply Hsame; cbn.
    - rewrite <- (part_name_base ph 0) by lia. by intros [? _]%part_name_inj.
    - intros q' _. by intros [? _]%part_name_inj. }
  assert (files d !! next_file d = None) as Hnone.
  { apply eq_None_not_Some. intros [F0 E0]. apply H6 in E0 as [? _]. lia. }
  split; cbn; unfold ids in *; cbn; try done.
  - intros k0 u0 ph0 E0 Hf Hv p Hp. assert (ph0 <> ph) as Hne.
    { intros ->. apply Hf. eexists _, _. cbn. split; [apply lookup_insert_eq|done]. }
    rewrite (Hother _ _ _ _ _ E0 Hne). apply (H5 k0); [done| |done|done]. intros (i0 & F0 & E1 & E2). apply Hf. exists i0, F0. cbn.
    split; [|done]. rewrite lookup_insert_ne; [done|]. intros <-. congruence.
  - intros i0 F0 [[<- <-]|[Hne E0]]%lookup_insert_Some.
    + split; [lia|]. exists k, u. eexists. split; [exact Hrow|]. rewrite lookup_insert_eq. cbn. by split_and!.
    + destruct (H6 i0 F0 E0) as (Hlt & k0 & u0 & c & Ei & Ef & Hsz & Ed & Hs0 & Hupl). split; [lia|]. exists k0, u0, c.
      assert (f_physical_id F0 <> ph) as Hneph by (intros Heq; apply Hnf; exists i0, F0; done).
      pose proof (Hother _ _ _ 0 (Stored (storage_of (f_type F0))) Ei Hneph) as Hst0. pose proof (Hother _ _ _ 0 Uploading Ei Hneph) as Hup0.
      rewrite part_name_base in Hst0, Hup0 by lia. rewrite Hst0, Hup0, lookup_insert_ne by done. by split_and!.
  - intros path b [->|E0]%Hsub; [|by apply H7 in E0]. by exists k, u, ph, 0.
  - intros i0 tc [[<- _]|[Hne E0]]%lookup_insert_Some; [by rewrite lookup_insert_eq|]. rewrite lookup_insert_ne by done. by eapply H8.
Qed.

(** A step keeps the invariant, and no finished file changes. *)
Lemma upload_step_ok detect x y : upload_step detect x y -> upload_ok x -> upload_ok y.
Proof.
  intros [d s fin ph user r res d' Hf E|d s fin k file fb t n force e d' Hr E|d s fin k file fb t n force i F d' Hr E] Hok.
  - by eapply save_ok.
  - destruct (finalize_upload_spec _ _ _ _ _ _ _ _ _ _ _ Hr Hok E) as [[-> _]|(? & [=] & _)]. done.
  - by eapply finalize_ok.
Qed.
Lemma upload_step_kept detect x y i tc : upload_step detect x y -> upload_ok x -> finished x !! i = Some tc -> finished y !! i = Some tc.
Proof.
  intros [d s fin ph user r res d' Hf E|d s fin k file fb t n force e d' Hr E|d s fin k file fb t n force i' F d' Hr E] Hok; cbn; [done|done|].
  intros Hi. destruct (finalize_upload_spec _ _ _ _ _ _ _ _ _ _ _ Hr Hok E) as [[_ [? [=]]]|(mime & [= -> _] & _)].
  rewrite lookup_insert_ne; [done|]. intros <-. destruct (ok_finished _ Hok _ _ Hi) as [F0 E0]. apply (ok_files _ Hok) in E0 as [? _]. cbn in *. lia.
Qed.

(** ** Reading a file *)
Lemma get_file_checks_iff r : get_file_checks r = Ok tt <->
  g_location r <> OtherLocation /\ 0 <= g_limit r <= ONE_MB /\ 0 <= g_offset r /\
  g_offset r / ONE_MB = (g_offset r + g_limit r - 1) / ONE_MB /\
  (let unit_ := if g_precise r then ONE_KB else FOUR_KB in g_offset r mod unit_ = 0 /\ g_limit r mod unit_ = 0).
Proof.
  unfold get_file_checks. cbv zeta. set (un := if g_precise r then ONE_KB else FOUR_KB). clearbody un. unfold raise_if.
  destruct (match g_location r with OtherLocation => true | _ => false end) eqn:El.
  { split; [done|]. intros [H _]. by destruct (g_location r). }
  assert (g_location r <> OtherLocation) as Hl by (by destruct (g_location r)).
  destruct ((g_limit r <? 0) || (ONE_MB <? g_limit r)) eqn:E1; cbn [mbind result_bind].
  { split; [done|]. intros (_ & H & _). apply orb_true_iff in E1 as [E1|E1]; b2p; lia. }
  destruct (negb (g_offset r / ONE_MB =? _)) eqn:E2; cbn [mbind result_bind]; [split; [done|]; intros (_ & _ & _ & H & _); b2p; lia|].
  destruct (g_offset r <? 0) eqn:E3; cbn [mbind result_bind]; [split; [done|]; b2p; lia|].
  destruct (negb (g_offset r mod un =? 0)) eqn:E4; cbn [mbind result_bind]; [split; [done|]; b2p; lia|].
  destruct (negb (g_limit r mod un =? 0)) eqn:E5; [split; [done|]; b2p; lia|]. b2p. split; [|done]. intros _. split_and!; (done || lia).
Qed.

Lemma find_file_one q i F d : files d !! i = Some F -> (forall j G, files d !! j = Some G -> q (j, G) = bool_decide (j = i)) ->
  find_file q d = Ok (Some (i, F)).
Proof.
  intros HF Hq. unfold find_file. assert (filter (fun kf => q kf = true) (files d) = {[i := F]}) as ->.
  { apply map_eq. intros j. apply option_eq. intros G. rewrite map_lookup_filter_Some, lookup_singleton_Some. split.
    - intros [HG H]. rewrite (Hq _ _ HG), bool_decide_eq_true in H. subst j. by simplify_eq.
    - intros [<- <-]. split; [done|]. rewrite (Hq _ _ HF). by apply bool_decide_eq_true. }
  by rewrite map_to_list_singleton.
Qed.

Lemma read_at_length off len b : 0 <= len -> Z.of_nat (length (read_at off len b)) <= len.
Proof. intros H. unfold read_at. destruct (len <? 0) eqn:E; b2p; [lia|]. rewrite length_take. lia. Qed.

(** Chunk after chunk, everything is read. *)
Lemma chunks_join (c : bytes) n k : mjoin ((fun j => take n (drop (j * n) c)) <$> seq 0 k) = take (k * n) c.
Proof.
  induction k as [|k IH]; [done|]. rewrite seq_S, fmap_app, join_app, IH. cbn. rewrite app_nil_r.
  by rewrite take_take_drop, Nat.add_comm.
Qed.

Section Reading.
Context (hmac_sha256 : bytes -> bytes) (payload : signed_kind -> Z -> Z -> Z -> bytes) (auth_id expire now : Z) (stickersets : gmap Z Stickerset).

Lemma get_file_chunk x i F c user ref hash L j : upload_ok x -> files (udb x) !! i = Some F -> finished x !! i = Some (DOCUMENT, c) ->
  f_type F <> ENCRYPTED -> is_file_ref_valid hmac_sha256 expire now ref user i = Ok (true, false) ->
  check_access_hash hmac_sha256 payload KFile user auth_id i hash = Ok true ->
  0 < L -> (FOUR_KB | L) -> (L | ONE_MB) -> exists ty,
  get_file hmac_sha256 payload auth_id expire now stickersets user
    (MkGetFile (InputDocumentFileLocation i hash ref "") (Z.of_nat j * L) L false) (udb x) =
  Ok (ty, take (Z.to_nat L) (drop (j * Z.to_nat L) c)).
Proof.
  intros Hok HF Hfin Hty Href Hhash HL [a Ha] [m Hm].
  destruct (ok_files _ Hok _ _ HF) as (_ & k & u & c' & _ & Hfin' & Hsz & Hd & _). rewrite Hfin in Hfin'. injection Hfin' as Hst <-.
  unfold get_file. rewrite (proj2 (get_file_checks_iff _)).
  2: { cbn [g_location g_limit g_offset g_precise]. assert (0 < m) by (unfold ONE_MB in *; nia). split_and!; [done|lia|unfold ONE_MB in *; nia|lia| | |].
       - rewrite Hm, (Z.mul_comm m), <- !Z.div_div by lia. rewrite Z.div_mul by lia. f_equal.
         replace (Z.of_nat j * L + L - 1) with (Z.of_nat j * L + (L - 1)) by lia. rewrite Z.div_add_l, (Z.div_small (L - 1)) by lia. lia.
       - rewrite Ha, Z.mul_assoc. by apply Z.mod_mul.
       - rewrite Ha. by apply Z.mod_mul. }
  cbn [mbind result_bind g_location file_query]. rewrite Href. cbn [mbind result_bind negb]. rewrite Hhash. cbn [mbind result_bind].
  rewrite (find_file_one _ i F _ HF).
  2: { intros j' G HG. cbn. destruct (decide (j' = i)) as [->|Hne].
       - assert (G = F) as -> by congruence. rewrite Z.eqb_refl. cbn. rewrite (bool_decide_eq_false_2 _ Hty). by rewrite bool_decide_eq_true_2.
       - rewrite (proj2 (Z.eqb_neq _ _) Hne). symmetry. by apply bool_decide_eq_false_2. }
  cbn [mbind result_bind is_photo_location g_offset g_limit]. rewrite Hsz.
  assert (Z.to_nat (Z.of_nat j * L) = (j * Z.to_nat L)%nat) as Hoff by lia.
  destruct (_ <=? _) eqn:Ele; b2p.
  - eexists. rewrite drop_ge, take_nil; [done|]. lia.
  - eexists. unfold get_part. cbn. rewrite Hst, Hd. cbn. unfold read_at. rewrite Hoff.
    destruct (L <? 0) eqn:El; b2p; [lia|done].
Qed.
End Reading.

Lemma finalize_counts file fb t n force d x d' : finalize_upload file fb t n force d = (Ok x, d') ->
  (0 < u_total_parts file -> u_total_parts file = Z.of_nat (length (parts_of d (u_id file)))) /\
  (forall p, n = Some p -> p = Z.of_nat (length (parts_of d (u_id file)))).
Proof.
  unfold finalize_upload. rewrite get_bind. cbv zeta. rewrite !ensure_bind.
  destruct (negb (_ || _)) eqn:E1; [|done]. apply negb_true_iff, orb_false_iff in E1 as [E1 _].
  assert (0 < u_total_parts file -> u_total_parts file = Z.of_nat (length (parts_of d (u_id file)))) as Ht.
  { intros Ht. apply Z.ltb_lt in Ht. rewrite Ht in E1. cbn in E1. b2p. done. }
  destruct n as [p|]; [|done]. destruct (p =? _) eqn:E2; [|done]. b2p. intros _. split; [done|]. by intros p' [= <-].
Qed.

(** Nothing is uploaded yet *)
Definition upload_start (d : UploadDb) : Prop := uploading d = ∅ /\ uparts d = ∅ /\ on_disk d = ∅ /\ files d = ∅.

Lemma upload_start_ok d : upload_start d -> upload_ok (MkUploadState d ∅ ∅).
Proof.
  intros (Hu & Hp & Hk & Hf). assert (ids d = ∅) as Hi by (unfold ids; rewrite Hu; apply fmap_empty).
  split; unfold finalised, nonneg; cbn; rewrite ?Hi, ?Hp, ?Hk, ?Hf; intros *; rewrite ?lookup_empty; try done.
Qed.
Lemma upload_reach_ok detect x y : rtc (upload_step detect) x y -> upload_ok x -> upload_ok y.
Proof. induction 1 as [|x y z H _ IH]; [done|]. intros Hx. apply IH. by eapply upload_step_ok. Qed.
Lemma upload_reach_kept detect x y i tc : rtc (upload_step detect) x y -> upload_ok x -> finished x !! i = Some tc -> finished y !! i = Some tc.
Proof.
  induction 1 as [|x y z H _ IH]; [done|]. intros Hx Hi. apply IH; [by eapply upload_step_ok|by eapply upload_step_kept].
Qed.
Lemma finished_file x i t c : upload_ok x -> finished x !! i = Some (t, c) -> exists F, files (udb x) !! i = Some F /\
  t = storage_of (f_type F) /\ f_size F = Z.of_nat (length c) /\ on_disk (udb x) !! (Stored t, f_physical_id F) = Some c.
Proof.
  intros Hok Hi. destruct (ok_finished _ Hok _ _ Hi) as [F HF]. exists F. split; [done|].
  destruct (ok_files _ Hok _ _ HF) as (_ & k & u & c' & _ & Hf & Hs & Hd & _). rewrite Hi in Hf. injection Hf as -> <-. done.
Qed.

(** C22: uploads keep what was sent. Parts of any number of files may be sent in any order, by any users, repeated or refused, and finished at
    any time. Finishing an upload either raises and changes nothing, or makes a file whose bytes are the parts that were first accepted, in the
    order of their numbers 0, 1, 2, ... without a gap, as many as were announced and asked for, and whose size is theirs; an upload that was
    finished is not finished again. The bytes of a file that was made are never changed by what is uploaded later. *)
Theorem upload_integrity detect d0 x : upload_start d0 -> rtc (upload_step detect) (MkUploadState d0 ∅ ∅) x ->
  (forall k file fb t n force res d', uploading (udb x) !! k = Some file -> finalize_upload file fb t n force (udb x) = (res, d') ->
    let parts := parts_of (udb x) (u_id file) in let c := assembled (udb x) (sent x) (u_id file) in
    match res with
    | Raise _ => d' = udb x
    | Ok (i, F) => (forall j p, parts !! j = Some p -> p.1 = Z.of_nat j /\ is_Some (sent x !! (u_id file, Z.of_nat j))) /\
        (0 < u_total_parts file -> u_total_parts file = Z.of_nat (length parts)) /\ (forall p, n = Some p -> p = Z.of_nat (length parts)) /\
        files (udb x) !! i = None /\ files d' !! i = Some F /\ f_size F = Z.of_nat (length c) /\
        on_disk d' !! (Stored (storage_of (f_type F)), f_physical_id F) = Some c
    end /\ (finalised (udb x) (u_physical_id file) -> exists e, res = Raise e)) /\
  (forall i t c y, finished x !! i = Some (t, c) -> rtc (upload_step detect) x y -> exists F, files (udb y) !! i = Some F /\
     f_size F = Z.of_nat (length c) /\ on_disk (udb y) !! (Stored t, f_physical_id F) = Some c).
Proof.
  intros Hstart Hreach. pose proof (upload_reach_ok _ _ _ Hreach (upload_start_ok _ Hstart)) as Hok. destruct x as [d s fin]. cbn. split.
  - intros k file fb t n force res d' Hrow E. destruct (finalize_upload_spec _ _ _ _ _ _ _ _ _ _ _ Hrow Hok E)
      as [[-> [e ->]]|(mime & -> & Hnf & _ & _ & Hi & k' & -> & Hst & _)]; [by eauto|]. split; [|by intros H%Hnf].
    destruct (finalize_counts _ _ _ _ _ _ _ _ E) as [Ht Hn]. cbn.
    split; [|split; [exact Ht|split; [exact Hn|split; [|split; [apply lookup_insert_eq|split; [done|exact Hst]]]]]].
    + intros j p Hp. destruct (Hi j p Hp) as [? Hup]. split; [done|].
      destruct (ok_parts _ Hok _ _ _ Hup) as (_ & _ & b & Hb & _). cbn in Hb. by rewrite Hb.
    + apply eq_None_not_Some. intros [F HF]. apply (ok_files _ Hok) in HF as [? _]. cbn in *. lia.
  - intros i t c y Hi Hy. apply (upload_reach_kept _ _ _ _ _ Hy Hok) in Hi. apply (upload_reach_ok _ _ _ Hy) in Hok.
    destruct (finished_file _ _ _ _ Hok Hi) as (F & ? & _ & ? & ?). eauto.
Qed.

(** C23: a document is downloaded as it was uploaded. In every state that uploads lead to, whoever has the access hash and a valid file
    reference of a finished document gets all its bytes, chunk after chunk, for every chunk length that is a multiple of 4 KiB and divides
    1 MiB; together the chunks are the parts that were sent. *)
Theorem upload_roundtrip detect d0 x hmac_sha256 payload auth_id expire now stickersets i F c user ref hash L n :
  upload_start d0 -> rtc (upload_step detect) (MkUploadState d0 ∅ ∅) x ->
  files (udb x) !! i = Some F -> finished x !! i = Some (DOCUMENT, c) -> f_type F <> ENCRYPTED ->
  is_file_ref_valid hmac_sha256 expire now ref user i = Ok (true, false) ->
  check_access_hash hmac_sha256 payload KFile user auth_id i hash = Ok true ->
  0 < L -> (FOUR_KB | L) -> (L | ONE_MB) -> f_size F <= Z.of_nat n * L ->
  let chunk j := get_file hmac_sha256 payload auth_id expire now stickersets user
    (MkGetFile (InputDocumentFileLocation i hash ref "") (Z.of_nat j * L) L false) (udb x) in
  exists answers, mapM chunk (seq 0 n) = Ok answers /\ mjoin (snd <$> answers) = c.
Proof.
  intros Hstart Hreach HF Hfin Hty Href Hhash HL H4 H1 Hn chunk. pose proof (upload_reach_ok _ _ _ Hreach (upload_start_ok _ Hstart)) as Hok.
  destruct (finished_file _ _ _ _ Hok Hfin) as (F' & HF' & _ & Hsz & _). assert (F' = F) as -> by congruence.
  assert (forall js, exists answers, mapM chunk js = Ok answers /\ snd <$> answers = (fun j => take (Z.to_nat L) (drop (j * Z.to_nat L) c)) <$> js) as Hjs.
  { induction js as [|j js (answers & E & Es)]; [by exists []|].
    destruct (get_file_chunk hmac_sha256 payload auth_id expire now stickersets x i F c user ref hash L j) as [ty Ej]; [done..|].
    exists ((ty, take (Z.to_nat L) (drop (j * Z.to_nat L) c)) :: answers). change (chunk j = Ok (ty, take (Z.to_nat L) (drop (j * Z.to_nat L) c))) in Ej.
    cbn [mapM fmap list_fmap]. split; [|by rewrite <- Es]. rewrite Ej. cbn [mbind result_bind]. by rewrite E. }
  destruct (Hjs (seq 0 n)) as (answers & E & Es). exists answers. split; [done|]. rewrite Es, chunks_join. apply take_ge. nia.
Qed.

(** What is read is bounded. A request is refused exactly when its location is not supported, its limit is negative or above 1 MiB, its
    offset is negative, one of them is not a multiple of the unit (4 KiB, 1 KiB for a precise one), or the range crosses a multiple of 1 MiB
    (an empty range counts as crossing one when it starts there); and whatever is answered has at most the asked number of bytes. *)
Theorem get_file_bounds hmac_sha256 payload auth_id expire now stickersets user r d :
  let unit_ := if g_precise r then ONE_KB else FOUR_KB in
  (get_file_checks r = Ok tt <-> g_location r <> OtherLocation /\ 0 <= g_limit r <= ONE_MB /\ 0 <= g_offset r /\
     g_offset r / ONE_MB = (g_offset r + g_limit r - 1) / ONE_MB /\ g_offset r mod unit_ = 0 /\ g_limit r mod unit_ = 0) /\
  (g_limit r = 0 -> g_offset r mod ONE_MB = 0 -> get_file_checks r <> Ok tt) /\
  forall ty data, get_file hmac_sha256 payload auth_id expire now stickersets user r d = Ok (ty, data) ->
    get_file_checks r = Ok tt /\ Z.of_nat (length data) <= g_limit r <= 1048576.
Proof.
  cbv zeta. split; [apply get_file_checks_iff|]. split.
  - intros Hl Ho. rewrite get_file_checks_iff. intros (_ & _ & _ & H & _). rewrite Hl in H. apply Z.mod_divide in Ho as [z Hz]; [|done].
    rewrite Hz, Z.div_mul in H by done. replace (z * ONE_MB + 0 - 1) with ((z - 1) * ONE_MB + (ONE_MB - 1)) in H by lia.
    rewrite Z.div_add_l, (Z.div_small (ONE_MB - 1)) in H by done. lia.
  - intros ty data. unfold get_file. destruct (get_file_checks r) as [[]|] eqn:Ec; [|done]. pose proof (proj1 (get_file_checks_iff r) Ec) as (_ & Hl & _).
    intros H. split; [done|]. unfold ONE_MB in Hl. split; [|lia]. cbn [mbind result_bind] in H.
    assert (forall t ph suffix, Z.of_nat (length (default [] (get_part t ph (g_offset r) (g_limit r) suffix (on_disk d)))) <= g_limit r) as Hpart.
    { intros t ph suffix. unfold get_part. destruct (on_disk d !! _) as [b|]; cbn; [apply read_at_length|]; lia. }
    destruct (file_query _ _ _ _ _ _ _ _) as [q|]; [|done]. cbn [mbind result_bind] in H. destruct (find_file q d) as [[[i F]|]|]; [|done..].
    cbn [mbind result_bind] in H. destruct (_ <=? _); [by injection H as _ <-; cbn; lia|].
    destruct (is_photo_location _); [|by injection H as _ <-].
    destruct (f_photo_sizes F) as [[|a l]|]; [done| |done]. destruct (photo_size _ _) as [size|]; [|done]. by injection H as _ <-.
Qed.

Lemma empty_save_raises detect ph user r d res d' : s_bytes r = [] -> save_file_part detect ph user r d = (res, d') ->
  res <> Raise (ErrorRpc 400 "FILE_PART_EMPTY").
Proof.
  intros Hb. unfold save_file_part. destruct (uploading_file_spec detect ph user r d) as (f & d1 & E1 & _).
  rewrite (M_bind_step _ _ _ _ _ E1), get_bind, !ensure_bind, Hb. cbv zeta.
  destruct (negb _); [|by intros [= <- <-]]. destruct (negb _); [|by intros [= <- <-]].
  destruct (uparts d1 !! _) as [n|]; [destruct (_ =? n); by intros [= <- <-]|]. by intros [= <- <-].
Qed.

(** An empty part and other traps. An empty part is never answered with the error the code has for it: a new one divides by zero. A part
    with a negative number is written over the beginning of part 0, and its upload can then never be finished. And a request for the thumbnail of
    any valid sticker set (a short name is enough) gives any user any file that has photo sizes, whoever it belongs to, by its id alone: the
    conditions on the id and on the set are alternatives. *)
Theorem upload_hazards detect d0 x hmac_sha256 payload auth_id expire now stickersets : upload_start d0 ->
  rtc (upload_step detect) (MkUploadState d0 ∅ ∅) x ->
  (forall ph user r res d', s_bytes r = [] -> save_file_part detect ph user r (udb x) = (res, d') -> res <> Raise (ErrorRpc 400 "FILE_PART_EMPTY") /\
     (s_file_total_parts r = None -> uploading (udb x) !! (user, s_file_id r) = None -> res = Raise ZeroDivisionError)) /\
  (forall ph user r d' f, s_file_part r < 0 -> save_file_part detect ph user r (udb x) = (Ok true, d') -> uploading (udb x) !! (user, s_file_id r) = Some f ->
     u_mime f <> None -> uparts (udb x) !! (u_id f, s_file_part r) = None ->
     on_disk d' !! (Uploading, u_physical_id f) = Some (overwrite (s_bytes r) (default [] (on_disk (udb x) !! (Uploading, u_physical_id f)))) /\
     forall fb t n force, exists e, finalize_upload f fb t n force d' = (Raise e, d')) /\
  (forall user name offset limit precise i F a l, let r := MkGetFile (InputStickerSetThumb (InputStickerSetShortName name) i) offset limit precise in
     get_file_checks r = Ok tt -> offset < f_size F -> files (udb x) !! i = Some F -> f_photo_sizes F = Some (a :: l) -> set_thumbs (udb x) = ∅ ->
     exists data, get_file hmac_sha256 payload auth_id expire now stickersets user r (udb x) = Ok (FileJpeg, data)).
Proof.
  intros Hstart Hreach. pose proof (upload_reach_ok _ _ _ Hreach (upload_start_ok _ Hstart)) as Hok. destruct x as [d s fin]. cbn in *. split_and!.
  - intros ph user r res d' Hb E. split; [by eapply empty_save_raises|]. intros Ht Hrow. revert E. unfold save_file_part.
    set (f := MkUploading (next_upload d) ph 0 None).
    assert (uploading_file detect ph user r d = (Ok f, with_uploading (<[(user, s_file_id r) := f]> (uploading d)) (next_upload d + 1) d)) as Ef.
    { unfold uploading_file. by rewrite Hrow, Ht, Hb, andb_false_r. }
    rewrite (M_bind_step _ _ _ _ _ Ef), get_bind, !ensure_bind, Hb. cbn [u_total_parts f u_id uparts with_uploading Z.ltb Z.compare andb negb].
    destruct (uparts d !! (next_upload d, s_file_part r)) as [n|] eqn:Ep; [|by intros [= <- <-]].
    destruct (ok_parts _ Hok _ _ _ Ep) as ((k & ph' & Hk) & _). apply (ok_ids _ Hok) in Hk as [Hk _]. cbn in Hk. lia.
  - intros ph user r d' f Hneg E Hrow Hmime Hnew.
    assert (uploading_file detect ph user r d = (Ok f, d)) as Ef.
    { unfold uploading_file. rewrite Hrow, (bool_decide_eq_false_2 _ Hmime), andb_false_r. done. }
    destruct (save_cases _ _ _ _ _ _ _ _ _ Ef E) as [[_ H]|(_ & _ & Hlen & ->)]; [specialize (H eq_refl); congruence|]. split.
    + cbn. rewrite part_name_base by lia. apply lookup_insert_eq.
    + intros fb t n force. destruct (finalize_upload _ _ _ _ _ _) as [res d'] eqn:Ez.
      destruct (finalize_upload_spec (put_part (u_physical_id f) (u_id f) (s_file_part r) (s_bytes r) d) _ _ (user, s_file_id r) f _ _ _ _ _ _ Hrow (upload_ok_part _ _ _ _ _ _ _ _ (ids_row _ _ _ Hrow) Hnew Hlen Hok) Ez)
        as [[-> [e ->]]|(mime & _ & _ & Hnn & _)]; [by exists e|]. specialize (Hnn (s_file_part r) (Z.of_nat (length (s_bytes r)))). cbn in Hnn.
      rewrite lookup_insert_eq in Hnn. specialize (Hnn eq_refl). lia.
  - intros user name offset limit precise i F a l Hc Hlt HF Hps Hth. unfold get_file. rewrite Hc. cbn [mbind result_bind g_location file_query from_input_q].
    rewrite Hth, elements_empty. rewrite (find_file_one _ i F _ HF).
    2: { intros j G _. cbn. rewrite orb_false_r. destruct (decide (j = i)) as [->|Hne]; [rewrite Z.eqb_refl; symmetry; by apply bool_decide_eq_true_2|].
         rewrite (proj2 (Z.eqb_neq _ _) Hne). symmetry. by apply bool_decide_eq_false_2. }
    cbn [mbind result_bind is_photo_location g_offset g_limit g_location]. rewrite (proj2 (Z.leb_gt _ _) Hlt), Hps. unfold photo_size.
    cbn [mbind result_bind]. destruct (bool_decide _); cbn; eauto.
Qed.

(** ** An upload of two parts *)
Definition sample_detect (_ : bytes) : option string := Some "image/png"%string.
Definition sample_start : UploadDb := MkUploadDb ∅ ∅ ∅ ∅ ∅ ∅ ∅ ∅ 1 1.
Definition sample_part (i : Z) : SaveFilePart :=
  MkSave 5 i (if i =? 0 then replicate 1024 Byte.x41 else [Byte.x42; Byte.x43]) None.
Definition sample_save (physical : string) (i : Z) (x : upload_state) : upload_state :=
  let m := save_file_part sample_detect physical 7 (sample_part i) (udb x) in
  MkUploadState m.2 (record_part 7 (sample_part i) m.1 m.2 (sent x)) (finished x).
Definition sample_sent : upload_state := sample_save "q" 0 (sample_save "p" 1 (MkUploadState sample_start ∅ ∅)).
Definition sample_row : UploadingFile := MkUploading 1 "p" 0 (Some "image/png"%string).
Definition sample_finish : result (Z * File) * UploadDb :=
  finalize_upload sample_row "text/plain" (DOCUMENT_FILE 0) (Some 2) false (udb sample_sent).
Definition sample_done : upload_state :=
  MkUploadState sample_finish.2 (sent sample_sent) (<[1 := (DOCUMENT, assembled (udb sample_sent) (sent sample_sent) 1)]> (finished sample_sent)).

Lemma sample_save_step physical i x : fresh_physical physical (udb x) -> upload_step sample_detect x (sample_save physical i x).
Proof. destruct x as [d s fin]. intros H. apply (step_save _ _ _ _ physical 7 (sample_part i)); [done|apply surjective_pairing]. Qed.

Lemma sample_sent_reached : rtc (upload_step sample_detect) (MkUploadState sample_start ∅ ∅) sample_sent.
Proof.
  apply (rtc_l _ _ (sample_save "p" 1 (MkUploadState sample_start ∅ ∅))); [|apply rtc_once]; apply sample_save_step.
  - split; [cbn; by split_and!|]. intros k f. by vm_compute.
  - split; [cbn; by split_and!|]. intros k f Hk. apply ids_row in Hk.
    assert (ids (udb (sample_save "p" 1 (MkUploadState sample_start ∅ ∅))) = {[(7, 5) := (1, "p"%string)]}) as Hi by (by vm_compute).
    rewrite Hi in Hk. apply lookup_singleton_Some in Hk as [_ [= _ <-]]. done.
Qed.
Lemma sample_done_reached : rtc (upload_step sample_detect) (MkUploadState sample_start ∅ ∅) sample_done.
Proof.
  eapply rtc_r; [apply sample_sent_reached|]. unfold sample_done.
  assert (exists F, sample_finish.1 = Ok (1, F)) as [F HF] by (eexists; vm_compute; reflexivity).
  destruct sample_sent as [d s fin] eqn:Es. unfold sample_finish in *. rewrite Es in *. cbn [udb sent finished] in *.
  apply (step_finalize sample_detect d s fin (7, 5) sample_row "text/plain" (DOCUMENT_FILE 0) (Some 2) false 1 F).
  - assert (uploading (udb sample_sent) !! (7, 5) = Some sample_row) as H by (by vm_compute). by rewrite Es in H.
  - rewrite <- HF. apply surjective_pairing.
Qed.

Lemma upload_integrity_witness : exists F, sample_finish.1 = Ok (1, F) /\ f_size F = 1026 /\
  on_disk (udb sample_done) !! (Stored DOCUMENT, "p"%string) = Some (replicate 1024 Byte.x41 ++ [Byte.x42; Byte.x43]).
Proof.
  assert (upload_start sample_start) as Hs by (by split_and!).
  pose proof (upload_integrity sample_detect sample_start sample_sent Hs sample_sent_reached) as [H _].
  destruct (upload_integrity sample_detect sample_start sample_done Hs sample_done_reached) as [_ H2].
  specialize (H (7, 5) sample_row "text/plain"%string (DOCUMENT_FILE 0) (Some 2) false sample_finish.1 sample_finish.2).
  destruct (H2 1 DOCUMENT (replicate 1024 Byte.x41 ++ [Byte.x42; Byte.x43]) sample_done) as (F & HF & Hz & Hd);
    [by vm_compute|apply rtc_refl|].
  exists F. assert (f_size F = 1026) as Hsz by (rewrite Hz; by vm_compute). split_and!; [|done|by vm_compute].
  assert (files (udb sample_done) !! 1 = match sample_finish.1 with Ok (_, F) => Some F | Raise _ => None end) as HF' by (by vm_compute).
  rewrite HF' in HF. destruct H as [H _]; [by vm_compute|apply surjective_pairing|].
  destruct (sample_finish.1) as [[i G]|e] eqn:Ef; [|done]. injection HF as ->. f_equal. f_equal.
  assert (match sample_finish.1 with Ok (i, _) => i = 1 | _ => False end) as Hi by (by vm_compute). by rewrite Ef in Hi.
Defined.

Definition sample_hmac (_ : bytes) : bytes := replicate 32 Byte.x00.
Lemma upload_roundtrip_witness : exists answers, mapM (fun j => get_file sample_hmac (fun _ _ _ _ => []) 1 240 1760000000 ∅ 9
    (MkGetFile (InputDocumentFileLocation 1 0 (le_bytes 4 1760000000 ++ sample_hmac []) "") (Z.of_nat j * 4096) 4096 false) (udb sample_done)) (seq 0 1) = Ok answers /\
  mjoin (snd <$> answers) = replicate 1024 Byte.x41 ++ [Byte.x42; Byte.x43].
Proof.
  assert (exists F, files (udb sample_done) !! 1 = Some F /\ f_type F <> ENCRYPTED /\ f_size F = 1026) as (F & HF & Hty & Hsz).
  { eexists. split; [vm_compute; reflexivity|]. split; [done|]. by vm_compute. }
  apply (upload_roundtrip sample_detect sample_start sample_done sample_hmac (fun _ _ _ _ => []) 1 240 1760000000 ∅ 1 F
    (replicate 1024 Byte.x41 ++ [Byte.x42; Byte.x43]) 9 (le_bytes 4 1760000000 ++ sample_hmac []) 0 4096 1%nat).
  - by split_and!.
  - apply sample_done_reached.
  - exact HF.
  - by vm_compute.
  - exact Hty.
  - by vm_compute.
  - by vm_compute.
  - lia.
  - exists 1. done.
  - exists 256. done.
  - lia.
Defined.

Lemma upload_hazards_witness :
  (save_file_part sample_detect "p" 7 (MkSave 6 0 [] None) (udb sample_sent)).1 = Raise ZeroDivisionError.
Proof.
  destruct (upload_hazards sample_detect sample_start sample_sent sample_hmac (fun _ _ _ _ => []) 1 240 0 ∅) as [H _];
    [by split_and!|apply sample_sent_reached|].
  destruct (save_file_part sample_detect "p" 7 (MkSave 6 0 [] None) (udb sample_sent)) as [res d'] eqn:E.
  apply (H "p"%string 7 (MkSave 6 0 [] None) res d'); [done|exact E|done|by vm_compute].
Defined.

Lemma get_file_bounds_witness : exists ty data,
  get_file sample_hmac (fun _ _ _ _ => []) 1 240 1760000000 ∅ 9
    (MkGetFile (InputDocumentFileLocation 1 0 (le_bytes 4 1760000000 ++ sample_hmac []) "") 0 1024 true) (udb sample_done) = Ok (ty, data) /\
  Z.of_nat (length data) <= 1024 <= 1048576.
Proof.
  destruct (get_file_bounds sample_hmac (fun _ _ _ _ => []) 1 240 1760000000 ∅ 9
    (MkGetFile (InputDocumentFileLocation 1 0 (le_bytes 4 1760000000 ++ sample_hmac []) "") 0 1024 true) (udb sample_done)) as (_ & _ & H).
  exists FilePartial, (replicate 1024 Byte.x41). split; [by vm_compute|]. apply (H FilePartial). by vm_compute.
Defined.
