(* ===== verification/Password.v ===== *)
(** Two-step verification: SRP ([piltover/utils/srp.py], [piltover/db/models/srp_session.py], [user_password.py],
    [user_password_reset.py], [check_password_internal] of [piltover/app/utils/utils.py]) and the password handlers of
    [piltover/app/handlers/account.py].

    SHA-256 and [powmod] are those of the interface [Crypto] of [Keygen.v]; random bytes and the time are arguments. *)
From Stdlib Require Import Init.Byte.
From S2P Require Import Prelude PyBytes TlPrimitives Session AuthKeys Keygen.

(** ** Rows *)
Record UserPassword := MkPassword {
  pw_salt1 : bytes; pw_salt2 : bytes; pw_password : option bytes; pw_hint : option string; pw_modified_at : Z }.
Record SrpSession := MkSrp { sr_priv_b : bytes; sr_created_at : Z; sr_password : Z }.
(** [UserAuthorization], unique by its key *)
Record Authorization := MkAuth { au_id : Z; au_user : Z; au_mfa_pending : bool; au_created_at : Z }.

Record PwDb := MkPw {
  passwords : gmap Z UserPassword;      (* by user *)
  srp_sessions : gmap Z SrpSession; next_srp : Z;   (* [sr_password] names the user of the password *)
  resets : gmap Z Z;                    (* by user: the date of the request *)
  auths : gmap Z Authorization }.       (* by key *)
Abbreviation P := (M PwDb).

Definition with_passwords (p : gmap Z UserPassword) (d : PwDb) : PwDb := MkPw p (srp_sessions d) (next_srp d) (resets d) (auths d).
Definition with_srp (s : gmap Z SrpSession) (n : Z) (d : PwDb) : PwDb := MkPw (passwords d) s n (resets d) (auths d).
Definition with_resets (r : gmap Z Z) (d : PwDb) : PwDb := MkPw (passwords d) (srp_sessions d) (next_srp d) r (auths d).
Definition with_auths (a : gmap Z Authorization) (d : PwDb) : PwDb := MkPw (passwords d) (srp_sessions d) (next_srp d) (resets d) a.

(** ** SRP *)
Definition btoi (b : bytes) : Z := from_bytes_be b.
Definition itob (i : Z) : result bytes := to_bytes_be 256 false i.

Inductive InputCheckPasswordSRP := InputCheckPasswordEmpty | InputCheckPassword (srp_id : Z) (A M1 : bytes).

(** New random bytes: two salts and a private exponent *)
Record Randoms := MkRandoms { r_salt1 : bytes; r_salt2 : bytes; r_priv_b : bytes }.

Section Srp.
Context `{Crypto}.

Definition salted_hash (data salt : bytes) : bytes := sha256 (salt ++ data ++ salt).
Definition PH1 (password salt1 salt2 : bytes) : bytes := salted_hash (salted_hash password salt1) salt2.
(** [pbkdf2 password salt rounds] *)
Definition PH2 (pbkdf2_hmac_sha512 : bytes -> bytes -> Z -> bytes) (password salt1 salt2 : bytes) : bytes :=
  salted_hash (pbkdf2_hmac_sha512 (PH1 password salt1 salt2) salt1 100000) salt2.

Definition SRP_K : result Z :=
  let '(p, g) := gen_safe_prime in
  pb ← itob p; gb ← itob g; mret (btoi (sha256 (pb ++ gb))).

(** [SrpSession.pub_B] *)
Definition pub_B (password : option bytes) (priv_b : bytes) : result bytes :=
  let '(p, g) := gen_safe_prime in
  k ← SRP_K;
  match password with
  | None => Raise TypeError
  | Some v => itob ((k * btoi v + powmod g (btoi priv_b) p) mod p)
  end.

(** [UserPassword.get_or_create], [get_session] *)
Definition get_or_create_password (rnd : Randoms) (now user : Z) : P UserPassword := fun d =>
  match passwords d !! user with
  | Some p => (Ok p, d)
  | None => let p := MkPassword (r_salt1 rnd) (r_salt2 rnd) None None now in (Ok p, with_passwords (<[user := p]> (passwords d)) d)
  end.

Definition live_session (now user : Z) (s : SrpSession) : Prop := sr_password s = user /\ now - 1800 < sr_created_at s.
#[export] Instance live_session_dec now user s : Decision (live_session now user s).
Proof. apply _. Defined.
Definition get_session (rnd : Randoms) (now user : Z) : P (Z * SrpSession) := fun d =>
  match map_to_list (filter (fun kv => live_session now user kv.2) (srp_sessions d)) with
  | [] => let s := MkSrp (r_priv_b rnd) now user in (Ok (next_srp d, s), with_srp (<[next_srp d := s]> (srp_sessions d)) (next_srp d + 1) d)
  | [x] => (Ok x, d)
  | _ => (Raise RuntimeError, d)
  end.

(** What is hashed into [M2]; [s_b] is the shared secret *)
Definition srp_proof (salt1 salt2 A B : bytes) (s_b : Z) : result bytes :=
  let '(p, g) := gen_safe_prime in
  sb ← itob s_b; pb ← itob p; gb ← itob g;
  mret (sha256 (xor (sha256 pb) (sha256 gb) ++ sha256 salt1 ++ sha256 salt2 ++ A ++ B ++ sha256 sb)).

Definition check_password_internal (rnd : Randoms) (now user : Z) (password : UserPassword) (check_ : option InputCheckPasswordSRP) : P unit :=
  match pw_password password with
  | None => mret tt
  | Some v =>
    match check_ with
    | None | Some InputCheckPasswordEmpty => raise (ErrorRpc 400 "PASSWORD_HASH_INVALID")
    | Some (InputCheckPassword srp_id A M1) =>
      sess ← get_session rnd now user;
      ensure (sess.1 =? srp_id) (ErrorRpc 400 "SRP_ID_INVALID");;
      let '(p, g) := gen_safe_prime in
      B ← lift_result (pub_B (Some v) (sr_priv_b sess.2));
      let u := sha256 (A ++ B) in
      let s_b := powmod (btoi A * powmod (btoi v) (btoi u) p) (btoi (sr_priv_b sess.2)) p in
      M2 ← lift_result (srp_proof (pw_salt1 password) (pw_salt2 password) A B s_b);
      ensure (bool_decide (M1 = M2)) (ErrorRpc 400 "PASSWORD_HASH_INVALID")
    end
  end.

(** ** Handlers *)
(** What [account.getPassword] shows of a password: its salts, [srp_B] and [srp_id] *)
Record TLPassword := MkTLPassword {
  tp_has_password : bool; tp_current_algo : option (bytes * bytes); tp_new_algo : bytes * bytes; tp_srp : option (Z * bytes); tp_hint : option string }.

Definition get_password (rnd : Randoms) (now user : Z) : P TLPassword :=
  password ← get_or_create_password rnd now user;
  let new_algo := (take 8 (pw_salt1 password), pw_salt2 password) in
  match pw_password password with
  | None => mret (MkTLPassword false None new_algo None (pw_hint password))
  | Some v =>
    sess ← get_session rnd now user;
    B ← lift_result (pub_B (Some v) (sr_priv_b sess.2));
    mret (MkTLPassword true (Some (pw_salt1 password, pw_salt2 password)) new_algo (Some (sess.1, B)) (pw_hint password))
  end.

Record NewSettings := MkNewSettings {
  n_new_algo : option (bytes * bytes);      (* the salts, for the one algorithm that is known *)
  n_new_password_hash : option bytes; n_hint : option string }.

Definition update_password_settings (rnd : Randoms) (now user : Z) (check_ : option InputCheckPasswordSRP) (new : NewSettings) : P bool :=
  password ← get_or_create_password rnd now user;
  check_password_internal rnd now user password check_;;
  match n_new_password_hash new with
  | None | Some [] =>
    ensure (bool_decide (is_Some (pw_password password))) (ErrorRpc 400 "NEW_SETTINGS_EMPTY");;
    modify (fun d => with_passwords (<[user := MkPassword (take 8 (pw_salt1 password)) (pw_salt2 password) None None (pw_modified_at password)]> (passwords d)) d);;
    modify (fun d => with_auths (filter (fun kv => ~ (au_user kv.2 = user /\ au_mfa_pending kv.2 = true)) (auths d)) d);;
    modify (fun d => with_resets (delete user (resets d)) d);;
    mret true
  | Some v =>
    let '(p, _) := gen_safe_prime in
    ensure (negb ((p <=? btoi v) || negb (length v =? 256)%nat)) (ErrorRpc 400 "NEW_SETTINGS_INVALID");;
    match n_new_algo new with
    | None => raise (ErrorRpc 400 "NEW_SETTINGS_INVALID")
    | Some (salt1, salt2) =>
      ensure (bool_decide (salt2 = pw_salt2 password) && bool_decide (take 8 salt1 = take 8 (pw_salt1 password)) && (length salt1 =? 40)%nat)
        (ErrorRpc 400 "NEW_SALT_INVALID");;
      modify (fun d => with_passwords (<[user := MkPassword salt1 (pw_salt2 password) (Some v) (n_hint new) now]> (passwords d)) d);;
      modify (fun d => with_resets (delete user (resets d)) d);;
      mret true
    end
  end.

Definition get_password_settings (rnd : Randoms) (now user : Z) (check_ : option InputCheckPasswordSRP) : P unit :=
  password ← get_or_create_password rnd now user;
  check_password_internal rnd now user password check_.

(** [true] when the password was reset, [false] with a date to wait for *)
Definition reset_password (srp_password_reset_wait_seconds now user : Z) : P (bool * Z) := fun d =>
  match passwords d !! user with
  | None => (Raise (ErrorRpc 400 "PASSWORD_EMPTY"), d)
  | Some _ =>
    let date := default now (resets d !! user) in
    let d := with_resets (<[user := date]> (resets d)) d in
    let reset_date := date + srp_password_reset_wait_seconds in
    if reset_date <? now then
      let d := with_passwords (delete user (passwords d)) d in
      let d := with_srp (filter (fun kv => sr_password kv.2 <> user) (srp_sessions d)) (next_srp d) d in   (* deleted with their password *)
      (Ok (true, reset_date), with_resets (delete user (resets d)) d)
    else (Ok (false, reset_date), d)
  end.

Definition decline_password_reset (user : Z) : P bool := fun d =>
  match resets d !! user with
  | None => (Raise (ErrorRpc 400 "RESET_REQUEST_MISSING"), d)
  | Some _ => (Ok true, with_resets (delete user (resets d)) d)
  end.
End Srp.

(** ** Facts *)
Lemma prime_range : 2 < CURRENT_DH_PRIME < 2 ^ 2048.
Proof. by vm_compute. Qed.
Lemma itob_ok z : 0 <= z < CURRENT_DH_PRIME -> exists b, itob z = Ok b /\ btoi b = z /\ length b = 256%nat.
Proof.
  intros Hz. destruct (to_bytes_be_ok 256 z) as [b Hb]; [pose proof prime_range; change (8 * Z.of_nat 256) with 2048; lia|].
  exists b. split; [exact Hb|]. split; [by apply (from_to_bytes_be 256)|by apply length_to_bytes_be in Hb].
Qed.

(** One live SRP session per user, now and later *)
Definition srp_unique (now : Z) (d : PwDb) : Prop := forall user i j s s', srp_sessions d !! i = Some s -> srp_sessions d !! j = Some s' ->
  live_session now user s -> live_session now user s' -> i = j.

Lemma live_later now now' user s : now <= now' -> live_session now' user s -> live_session now user s.
Proof. intros Hle [? ?]. split; [done|lia]. Qed.
Lemma srp_unique_later now now' d : now <= now' -> srp_unique now d -> srp_unique now' d.
Proof. intros Hle H user i j s s' Hi Hj Hs Hs'. eapply H; eauto using live_later. Qed.

Lemma map_filter_one {A} (Q : A -> Prop) `{!forall x, Decision (Q x)} (m : gmap Z A) i x : m !! i = Some x -> Q x ->
  (forall j y, m !! j = Some y -> Q y -> j = i) -> map_to_list (filter (fun kv => Q kv.2) m) = [(i, x)].
Proof.
  intros Hi Hx Hu. assert (filter (fun kv => Q kv.2) m = {[i := x]}) as ->; [|by rewrite map_to_list_singleton].
  apply map_eq. intros j. apply option_eq. intros y. rewrite map_lookup_filter_Some, lookup_singleton_Some. split.
  - intros [Hj Hy]. cbn in Hy. pose proof (Hu j y Hj Hy). subst j. split; congruence.
  - by intros [<- <-].
Qed.

Lemma btoi_nonneg b : 0 <= btoi b.
Proof. unfold btoi, from_bytes_be, be_val. apply le_val_range. Qed.

Section Facts.
Context {CR : Crypto} {CL : CryptoLaws}.

(** What [get_session] returns is the session that every later call returns while it lives. *)
Lemma get_session_spec rnd now user d : srp_unique now d -> exists x d', get_session rnd now user d = (Ok x, d') /\
  live_session now user x.2 /\ srp_sessions d' !! x.1 = Some x.2 /\ srp_unique now d' /\ passwords d' = passwords d /\ resets d' = resets d /\ auths d' = auths d /\
  (d' = d \/ (x = (next_srp d, MkSrp (r_priv_b rnd) now user) /\ d' = with_srp (<[next_srp d := x.2]> (srp_sessions d)) (next_srp d + 1) d)).
Proof.
  intros Hu. unfold get_session. destruct (map_to_list _) as [|[i s] l] eqn:El.
  - exists (next_srp d, MkSrp (r_priv_b rnd) now user). eexists. split; [reflexivity|]. cbn.
    assert (forall j s, srp_sessions d !! j = Some s -> ~ live_session now user s) as Hnone.
    { intros j s Hj Hl. assert ((j, s) ∈ map_to_list (filter (fun kv => live_session now user kv.2) (srp_sessions d))) as H.
      { apply elem_of_map_to_list, map_lookup_filter_Some. by split. } rewrite El in H. by apply elem_of_nil in H. }
    split; [split; cbn; [done|lia]|]. split; [apply lookup_insert_eq|]. split; [|split_and!; auto].
    intros user' i j s s'. cbn. intros Hi Hj Hs Hs'. apply lookup_insert_Some in Hi as [[<- <-]|[Hni Hi]], Hj as [[<- <-]|[Hnj Hj]]; [done| | |by eapply Hu].
    + destruct Hs as [Hs _]. cbn in Hs. subst user'. by destruct (Hnone _ _ Hj).
    + destruct Hs' as [Hs' _]. cbn in Hs'. subst user'. by destruct (Hnone _ _ Hi).
  - assert (forall y, y ∈ (i, s) :: l -> srp_sessions d !! y.1 = Some y.2 /\ live_session now user y.2) as Hin.
    { intros [j s'] Hy. rewrite <- El in Hy. apply elem_of_map_to_list, map_lookup_filter_Some in Hy. done. }
    destruct (Hin (i, s)) as [Hi Hs]; [apply list_elem_of_here|]. cbn in *.
    rewrite (map_filter_one (live_session now user) (srp_sessions d) i s Hi Hs) in El by (intros j y Hj Hy; by eapply Hu).
    injection El as <-. exists (i, s), d. cbn. split_and!; auto.
Qed.

Lemma get_session_again rnd now user d i s : srp_unique now d -> srp_sessions d !! i = Some s -> live_session now user s ->
  get_session rnd now user d = (Ok (i, s), d).
Proof.
  intros Hu Hi Hs. unfold get_session. rewrite (map_filter_one (live_session now user) (srp_sessions d) i s Hi Hs); [done|].
  intros j y Hj Hy. by eapply Hu.
Qed.

#[local] Abbreviation p := CURRENT_DH_PRIME.
Lemma gen_safe_prime_eq : gen_safe_prime = (p, 3).
Proof. by vm_compute. Qed.

Lemma SRP_K_ok : exists k, SRP_K = Ok k.
Proof using Type.
  unfold SRP_K. rewrite gen_safe_prime_eq. destruct (to_bytes_be_ok 256 p) as [b Hb]; [pose proof prime_range; change (8 * Z.of_nat 256) with 2048; lia|].
  destruct (to_bytes_be_ok 256 3) as [b' Hb']; [change (8 * Z.of_nat 256) with 2048; lia|]. unfold itob. rewrite Hb. cbn [mbind result_bind]. rewrite Hb'. eauto.
Qed.

Lemma pub_B_ok v b : exists B k, SRP_K = Ok k /\ pub_B (Some v) b = Ok B /\ length B = 256%nat /\ btoi B = (k * btoi v + powmod 3 (btoi b) p) mod p.
Proof using Type.
  destruct SRP_K_ok as [k Hk]. unfold pub_B. rewrite gen_safe_prime_eq, Hk. cbn [mbind result_bind].
  destruct (itob_ok ((k * btoi v + powmod 3 (btoi b) p) mod p)) as (B & HB & Hv & Hl); [apply Z.mod_pos_bound; pose proof prime_range; lia|].
  exists B, k. auto.
Qed.

Lemma srp_proof_ok salt1 salt2 A B s : 0 <= s < p -> exists M, srp_proof salt1 salt2 A B s = Ok M.
Proof using Type.
  intros Hs. unfold srp_proof. rewrite gen_safe_prime_eq. destruct (itob_ok s Hs) as (sb & -> & _). cbn [mbind result_bind].
  unfold itob. destruct (to_bytes_be_ok 256 p) as [b ->]; [pose proof prime_range; change (8 * Z.of_nat 256) with 2048; lia|].
  destruct (to_bytes_be_ok 256 3) as [b' ->]; [change (8 * Z.of_nat 256) with 2048; lia|]. eauto.
Qed.

(** The secret that the server computes *)
Definition server_secret (v : bytes) (A B b : bytes) : Z := powmod (btoi A * powmod (btoi v) (btoi (sha256 (A ++ B))) p) (btoi b) p.

(** While its session lives, a check succeeds exactly with the right proof, and changes nothing. *)
Lemma srp_check_run rnd now user pw v i s B A M1 d : srp_unique now d -> srp_sessions d !! i = Some s -> live_session now user s ->
  pw_password pw = Some v -> pub_B (Some v) (sr_priv_b s) = Ok B ->
  check_password_internal rnd now user pw (Some (InputCheckPassword i A M1)) d =
    match srp_proof (pw_salt1 pw) (pw_salt2 pw) A B (server_secret v A B (sr_priv_b s)) with
    | Ok M2 => if bool_decide (M1 = M2) then (Ok tt, d) else (Raise (ErrorRpc 400 "PASSWORD_HASH_INVALID"), d)
    | Raise e => (Raise e, d)
    end.
Proof using Type.
  intros Hu Hi Hs Hv HB. unfold check_password_internal. rewrite Hv, (M_bind_step _ _ _ _ _ (get_session_again _ _ _ _ _ _ Hu Hi Hs)).
  cbn [fst snd]. rewrite ensure_bind, Z.eqb_refl, gen_safe_prime_eq, HB, lift_step. fold (server_secret v A B (sr_priv_b s)).
  unfold mbind, M_bind, lift_result. destruct (srp_proof _ _ _ _ _); [|done]. by unfold ensure; destruct (bool_decide _).
Qed.

(** ** The client, as the protocol describes it *)
Definition client_srp (salt1 salt2 srp_B : bytes) (x a : Z) : result (bytes * bytes) :=
  k ← SRP_K;
  A ← itob (3 ^ a mod p);
  let v := 3 ^ x mod p in
  let u := btoi (sha256 (A ++ srp_B)) in
  let t := (btoi srp_B - k * v mod p) mod p in
  M1 ← srp_proof salt1 salt2 A srp_B (t ^ (a + u * x) mod p);
  mret (A, M1).

(** The client's secret is the server's. *)
Lemma secrets_agree k x a b A B v : 0 <= x -> 0 <= a -> btoi A = 3 ^ a mod p -> btoi v = 3 ^ x mod p ->
  btoi B = (k * btoi v + powmod 3 (btoi b) p) mod p ->
  ((btoi B - k * (3 ^ x mod p) mod p) mod p) ^ (a + btoi (sha256 (A ++ B)) * x) mod p = server_secret v A B b.
Proof using CL.
  intros Hx Ha HA Hv HB. unfold server_secret. set (u := btoi (sha256 (A ++ B))).
  assert (0 <= u) as Hu by apply btoi_nonneg. assert (0 <= btoi b) as Hb by apply btoi_nonneg. assert (0 < p) as Hp by (by vm_compute).
  rewrite !powmod_spec in * by done. rewrite Hv in HB.
  assert ((btoi B - k * (3 ^ x mod p) mod p) mod p = 3 ^ btoi b mod p) as ->.
  { rewrite HB, <- Zminus_mod. transitivity ((3 ^ btoi b mod p) mod p); [f_equal; ring|apply Z.mod_mod; lia]. }
  rewrite Z.mod_pow_l, HA, Hv, Z.mod_pow_l. rewrite <- (Z.mod_pow_l (_ * _)).
  rewrite <- Z.mul_mod by lia. rewrite Z.mod_pow_l. f_equal.
  rewrite <- !Z.pow_mul_r by lia. rewrite <- Z.pow_add_r by lia. rewrite <- Z.pow_mul_r by lia. f_equal. lia.
Qed.

Lemma get_or_create_found rnd now user pw d : passwords d !! user = Some pw -> get_or_create_password rnd now user d = (Ok pw, d).
Proof using Type. intros H. unfold get_or_create_password. by rewrite H. Qed.

Lemma get_password_run rnd now user d pw v : srp_unique now d -> passwords d !! user = Some pw -> pw_password pw = Some v ->
  exists i s B d', get_password rnd now user d = (Ok (MkTLPassword true (Some (pw_salt1 pw, pw_salt2 pw)) (take 8 (pw_salt1 pw), pw_salt2 pw) (Some (i, B)) (pw_hint pw)), d') /\
    srp_sessions d' !! i = Some s /\ live_session now user s /\ srp_unique now d' /\ pub_B (Some v) (sr_priv_b s) = Ok B /\ passwords d' = passwords d /\ auths d' = auths d.
Proof using Type.
  intros Hu Hpw Hv. unfold get_password. rewrite (M_bind_step _ _ _ _ _ (get_or_create_found _ _ _ _ _ Hpw)), Hv. cbv zeta.
  destruct (get_session_spec rnd now user d Hu) as ([i s] & d' & E & Hs & Hi & Hu' & Hp & _ & Ha & _). rewrite (M_bind_step _ _ _ _ _ E). cbn [fst snd] in *.
  destruct (pub_B_ok v (sr_priv_b s)) as (B & k & _ & HB & _). rewrite HB, lift_step. exists i, s, B, d'. by split_and!.
Qed.

(** A 2048-bit number of zeros *)
Definition zero_A : bytes := replicate 256 x00.
Lemma zero_A_value : btoi zero_A = 0.
Proof. by vm_compute. Qed.

Lemma zero_secret v B b : 0 < btoi b -> server_secret v zero_A B b = 0.
Proof using CL. intros Hb. unfold server_secret. rewrite zero_A_value, Z.mul_0_l, powmod_spec by (lia || by vm_compute). rewrite Z.pow_0_l by lia. by vm_compute. Qed.
End Facts.

(** *** The password rows stay well formed *)
Definition password_row_ok (pw : UserPassword) : Prop := length (pw_salt2 pw) = 16%nat /\
  match pw_password pw with
  | None => length (pw_salt1 pw) = 8%nat /\ pw_hint pw = None
  | Some v => length (pw_salt1 pw) = 40%nat /\ length v = 256%nat /\ 0 <= btoi v < CURRENT_DH_PRIME
  end.
(** At the time [now], and at every later one *)
Record passwords_ok (now : Z) (d : PwDb) : Prop := {
  po_rows user pw : passwords d !! user = Some pw -> password_row_ok pw;
  po_unique : srp_unique now d;
  po_fresh i s : srp_sessions d !! i = Some s -> i < next_srp d }.

Definition randoms_ok (rnd : Randoms) : Prop := length (r_salt1 rnd) = 8%nat /\ length (r_salt2 rnd) = 16%nat.

Section Invariant.
Context {CR : Crypto} {CL : CryptoLaws} (now : Z).

Lemma po_frame d d' : passwords_ok now d -> passwords d' = passwords d -> srp_sessions d' = srp_sessions d -> next_srp d' = next_srp d -> passwords_ok now d'.
Proof using Type. intros [H1 H2 H3] Hp Hs Hn. split; unfold srp_unique; rewrite ?Hp, ?Hs, ?Hn; auto. Qed.
Lemma po_later now' d : now <= now' -> passwords_ok now d -> passwords_ok now' d.
Proof using Type. intros Hle [H1 H2 H3]. split; [done|by eapply srp_unique_later|done]. Qed.

Lemma po_password user pw d : password_row_ok pw -> passwords_ok now d -> passwords_ok now (with_passwords (<[user := pw]> (passwords d)) d).
Proof using Type. intros Hpw [H1 H2 H3]. split; [|done..]. intros u q. cbn. intros [[_ <-]|[_ Hq]]%lookup_insert_Some; [done|by eapply H1]. Qed.

Lemma po_get_or_create rnd user d r d' : randoms_ok rnd -> passwords_ok now d -> get_or_create_password rnd now user d = (r, d') ->
  exists pw, r = Ok pw /\ passwords d' !! user = Some pw /\ password_row_ok pw /\ passwords_ok now d' /\ auths d' = auths d /\ resets d' = resets d /\
    (passwords d !! user = Some pw /\ d' = d \/ passwords d !! user = None /\ pw_password pw = None).
Proof using Type.
  intros [Hr1 Hr2] Hok. unfold get_or_create_password. destruct (passwords d !! user) as [pw|] eqn:E; intros [= <- <-].
  - exists pw. split_and!; auto. by eapply po_rows.
  - eexists. split; [done|]. cbn. rewrite lookup_insert_eq. split_and!; auto; try done. by apply po_password.
Qed.

Lemma po_get_session rnd user d r d' : passwords_ok now d -> get_session rnd now user d = (r, d') ->
  passwords_ok now d' /\ passwords d' = passwords d /\ resets d' = resets d /\ auths d' = auths d.
Proof using Type.
  intros [H1 H2 H3] E. destruct (get_session_spec rnd now user d H2) as (x & d1 & E1 & _ & _ & Hu & Hp & Hr & Ha & Hd). rewrite E in E1. injection E1 as -> ->.
  split; [|done]. split; [by rewrite Hp|done|]. destruct Hd as [->|[-> ->]]; [done|]. intros i s. cbn.
  intros [[<- _]|[_ Hi]]%lookup_insert_Some; [lia|]. apply H3 in Hi. lia.
Qed.

(** A check may make a session, nothing else. *)
Lemma po_check rnd user pw c d r d' : passwords_ok now d -> check_password_internal rnd now user pw c d = (r, d') ->
  passwords_ok now d' /\ passwords d' = passwords d /\ resets d' = resets d /\ auths d' = auths d.
Proof using Type.
  intros Hok. unfold check_password_internal. destruct (pw_password pw) as [v|]; [|by intros [= <- <-]].
  destruct c as [[|i A M1]|]; [by intros [= <- <-]| |by intros [= <- <-]].
  unfold mbind at 1, M_bind at 1. destruct (get_session rnd now user d) as [[x|e] d1] eqn:E; pose proof (po_get_session _ _ _ _ _ Hok E) as H1; [|by intros [= <- <-]].
  rewrite ensure_bind. destruct (x.1 =? i); [|by intros [= <- <-]]. rewrite gen_safe_prime_eq. unfold mbind at 1, M_bind at 1, lift_result at 1.
  destruct (pub_B _ _) as [B|]; [|by intros [= <- <-]]. cbv zeta. unfold mbind, M_bind, lift_result. destruct (srp_proof _ _ _ _ _) as [M2|]; [|by intros [= <- <-]].
  unfold ensure. by destruct (bool_decide _); intros [= <- <-].
Qed.
End Invariant.

(** What a change of the settings does, when the check of the old password lets it *)
Lemma update_cases {CR : Crypto} rnd now user c new d res d' : randoms_ok rnd -> passwords_ok now d ->
  update_password_settings rnd now user c new d = (res, d') ->
  exists pw d1 d2 r, get_or_create_password rnd now user d = (Ok pw, d1) /\ passwords d1 !! user = Some pw /\ password_row_ok pw /\
    check_password_internal rnd now user pw c d1 = (r, d2) /\ passwords_ok now d2 /\ passwords d2 = passwords d1 /\ resets d2 = resets d /\ auths d2 = auths d /\
    ((exists e, res = Raise e /\ d' = d2) \/
     (res = Ok true /\ r = Ok tt /\ exists pw', password_row_ok pw' /\ pw_salt2 pw' = pw_salt2 pw /\ take 8 (pw_salt1 pw') = take 8 (pw_salt1 pw) /\
        passwords d' = <[user := pw']> (passwords d2) /\ resets d' = delete user (resets d) /\ passwords_ok now d' /\
        match n_new_password_hash new with
        | None | Some [] => pw_password pw' = None /\ is_Some (pw_password pw) /\ auths d' = filter (fun kv => ~ (au_user kv.2 = user /\ au_mfa_pending kv.2 = true)) (auths d)
        | Some v => pw_password pw' = Some v /\ auths d' = auths d
        end)).
Proof.
  intros Hr Hok E. unfold update_password_settings in E.
  destruct (get_or_create_password rnd now user d) as [r0 d1] eqn:E0. destruct (po_get_or_create _ _ _ _ _ _ Hr Hok E0) as (pw & -> & Hpw & Hrow & Hok1 & Ha1 & Hr1 & _).
  rewrite (M_bind_step _ _ _ _ _ E0) in E. destruct (check_password_internal rnd now user pw c d1) as [r d2] eqn:E1.
  destruct (po_check _ _ _ _ _ _ _ _ Hok1 E1) as (Hok2 & Hp2 & Hr2 & Ha2). exists pw, d1, d2, r. rewrite Hr2, Hr1, Ha2, Ha1.
  do 8 (split; [done|]). unfold mbind at 1, M_bind at 1 in E. rewrite E1 in E. destruct r as [[]|e]; [|injection E as <- <-; left; by exists e].
  assert (forall a q, password_row_ok q -> passwords_ok now (with_resets (delete user (resets d2)) (with_auths a (with_passwords (<[user := q]> (passwords d2)) d2)))) as Hwritten.
  { intros a q Hq. by apply (po_frame now (with_passwords (<[user := q]> (passwords d2)) d2)); [apply po_password|..]. }
  pose proof Hrow as [Hs2 Hrow']. destruct (n_new_password_hash new) as [[|b v]|] eqn:Ev.
  1,3: rewrite ensure_bind in E; destruct (bool_decide _) eqn:Eb; [|injection E as <- <-; left; by eexists]; b2p; right;
    destruct Eb as [v0 Hv0]; rewrite Hv0 in Hrow'; destruct Hrow' as (Hs1 & _);
    assert (password_row_ok (MkPassword (take 8 (pw_salt1 pw)) (pw_salt2 pw) None None (pw_modified_at pw))) as Hnew by
      (split; [done|]; cbn; by rewrite length_take, Hs1);
    injection E as <- <-; split; [done|]; split; [done|]; exists (MkPassword (take 8 (pw_salt1 pw)) (pw_salt2 pw) None None (pw_modified_at pw));
    rewrite <- Hr1, <- Hr2, <- Ha1, <- Ha2; split_and!; try done; [cbn; by rewrite take_take|by apply Hwritten].
  rewrite gen_safe_prime_eq, ensure_bind in E. destruct (negb _) eqn:E2; [|injection E as <- <-; left; by eexists]. b2p.
  destruct (n_new_algo new) as [[s1 s2]|]; [|injection E as <- <-; left; by eexists]. rewrite ensure_bind in E.
  destruct (_ && _ && _) eqn:E3; [|injection E as <- <-; left; by eexists]. b2p. right. injection E as <- <-. split; [done|]. split; [done|].
  assert (password_row_ok (MkPassword s1 (pw_salt2 pw) (Some (b :: v)) (n_hint new) now)) as Hnew.
  { split; [apply Hrow|]. cbn [pw_password pw_salt1]. pose proof (btoi_nonneg (b :: v)). split_and!; try done. }
  exists (MkPassword s1 (pw_salt2 pw) (Some (b :: v)) (n_hint new) now).
  rewrite <- Hr1, <- Hr2, <- Ha1, <- Ha2. split_and!; try done. by apply (Hwritten (auths d2)).
Qed.

(** C13: a client that knows the password logs in. Whoever gets [account.getPassword] and computes the proof as the protocol says, with the
    exponent [x] of the stored verifier and any exponent [a] of its own, passes the check as long as its SRP session lives (30 minutes), and
    the check changes nothing. *)
Theorem srp_login {CR : Crypto} {CL : CryptoLaws} rnd rnd' t0 t1 user d pw v x a :
  srp_unique t0 d -> passwords d !! user = Some pw -> pw_password pw = Some v -> 0 <= x -> btoi v = 3 ^ x mod CURRENT_DH_PRIME -> 0 <= a -> t0 <= t1 ->
  exists i B d', get_password rnd t0 user d =
      (Ok (MkTLPassword true (Some (pw_salt1 pw, pw_salt2 pw)) (take 8 (pw_salt1 pw), pw_salt2 pw) (Some (i, B)) (pw_hint pw)), d') /\
    exists s, srp_sessions d' !! i = Some s /\ sr_password s = user /\ (t1 - 1800 < sr_created_at s ->
      exists A M1, client_srp (pw_salt1 pw) (pw_salt2 pw) B x a = Ok (A, M1) /\
        check_password_internal rnd' t1 user pw (Some (InputCheckPassword i A M1)) d' = (Ok tt, d')).
Proof.
  intros Hu Hpw Hv Hx Hvx Ha Ht. destruct (get_password_run rnd t0 user d pw v Hu Hpw Hv) as (i & s & B & d' & E & Hi & [Hs1 Hs2] & Hu' & HB & _).
  exists i, B, d'. split; [exact E|]. exists s. split; [exact Hi|]. split; [exact Hs1|]. intros Hlive.
  destruct (pub_B_ok v (sr_priv_b s)) as (B' & k & Hk & HB' & _ & HBv). rewrite HB in HB'. injection HB' as <-.
  assert (0 < CURRENT_DH_PRIME) as Hp by (by vm_compute).
  destruct (itob_ok (3 ^ a mod CURRENT_DH_PRIME)) as (A & HA & HAv & _); [by apply Z.mod_pos_bound|].
  pose proof (secrets_agree k x a (sr_priv_b s) A B v Hx Ha HAv Hvx HBv) as Hsec.
  destruct (srp_proof_ok (pw_salt1 pw) (pw_salt2 pw) A B (server_secret v A B (sr_priv_b s))) as [M HM].
  { unfold server_secret. rewrite powmod_spec; [by apply Z.mod_pos_bound|apply btoi_nonneg|done]. }
  exists A, M. split.
  - unfold client_srp. rewrite Hk. cbn [mbind result_bind]. rewrite HA. cbn [mbind result_bind]. cbv zeta. by rewrite Hsec, HM.
  - rewrite (srp_check_run _ _ _ _ v i s B); [|by eapply srp_unique_later|done|by split|done|done]. rewrite HM. by rewrite bool_decide_eq_true_2.
Qed.

(** C14: the password can be done without. Whatever the password, a client that sends 256 zero bytes as its public value [A] knows the secret
    that the server computes, 0, and so the proof that passes the check, from nothing but the salts, [srp_id] and [srp_B] that
    [account.getPassword] sends to every session, also to one that waits for its password. *)
Theorem srp_zero_bypass {CR : Crypto} {CL : CryptoLaws} rnd rnd' now user d pw v :
  srp_unique now d -> passwords d !! user = Some pw -> pw_password pw = Some v ->
  exists i B d', get_password rnd now user d =
      (Ok (MkTLPassword true (Some (pw_salt1 pw, pw_salt2 pw)) (take 8 (pw_salt1 pw), pw_salt2 pw) (Some (i, B)) (pw_hint pw)), d') /\
    exists s M1, srp_sessions d' !! i = Some s /\ srp_proof (pw_salt1 pw) (pw_salt2 pw) zero_A B 0 = Ok M1 /\
      (0 < btoi (sr_priv_b s) -> check_password_internal rnd' now user pw (Some (InputCheckPassword i zero_A M1)) d' = (Ok tt, d')).
Proof.
  intros Hu Hpw Hv. destruct (get_password_run rnd now user d pw v Hu Hpw Hv) as (i & s & B & d' & E & Hi & Hs & Hu' & HB & _).
  exists i, B, d'. split; [exact E|]. destruct (srp_proof_ok (pw_salt1 pw) (pw_salt2 pw) zero_A B 0) as [M1 HM]; [pose proof prime_range; lia|].
  exists s, M1. split; [exact Hi|]. split; [exact HM|]. intros Hb.
  rewrite (srp_check_run _ _ _ _ v i s B) by done. rewrite (zero_secret v B _ Hb), HM. by rewrite bool_decide_eq_true_2.
Qed.

(** Password rows stay well formed and change only through a check. At every time, every operation on passwords leaves each row with a
    second salt of 16 bytes and either no password, no hint and a first salt of 8 bytes, or a verifier of 256 bytes below the prime and a first
    salt of 40 bytes; and at most one SRP session of a user is live. Settings are changed only after the check of the present password has
    passed; the salts the server chose are kept, and when the password is removed, so are the logins that waited for it. *)
Theorem password_invariant {CR : Crypto} now now' d : passwords_ok now d -> now <= now' ->
  (forall rnd user c new res d', randoms_ok rnd -> update_password_settings rnd now' user c new d = (res, d') -> passwords_ok now' d' /\
     (res = Ok true -> exists pw pw' d1 d2, get_or_create_password rnd now' user d = (Ok pw, d1) /\
        check_password_internal rnd now' user pw c d1 = (Ok tt, d2) /\ passwords d' !! user = Some pw' /\
        pw_salt2 pw' = pw_salt2 pw /\ take 8 (pw_salt1 pw') = take 8 (pw_salt1 pw) /\ resets d' !! user = None /\
        match n_new_password_hash new with
        | None | Some [] => pw_password pw' = None /\ (forall key au, auths d' !! key = Some au -> au_user au = user -> au_mfa_pending au = false)
        | Some v => pw_password pw' = Some v /\ auths d' = auths d
        end) /\
     (forall e, res = Raise e -> passwords d !! user <> None -> passwords d' = passwords d /\ auths d' = auths d)) /\
  (forall rnd user res d', randoms_ok rnd -> get_password rnd now' user d = (res, d') -> passwords_ok now' d') /\
  (forall wait user res d', reset_password wait now' user d = (res, d') -> passwords_ok now' d') /\
  (forall user res d', decline_password_reset user d = (res, d') -> passwords_ok now' d').
Proof.
  intros Hok0 Hle. assert (passwords_ok now' d) as Hok by (by eapply po_later). clear Hok0 Hle. split_and!.
  - intros rnd user c new res d' Hr E.
    destruct (update_cases _ _ _ _ _ _ _ _ Hr Hok E) as (pw & d1 & d2 & r & E0 & Hpw & _ & E1 & Hok2 & Hp2 & _ & Ha2 & Hcase).
    destruct (po_get_or_create _ _ _ _ _ _ Hr Hok E0) as (? & _ & _ & _ & _ & _ & _ & Hnew).
    destruct Hcase as [(e & -> & ->)|(-> & -> & pw' & _ & H2 & H1 & Hp & Hrs & Hok' & Hnp)].
    + split_and!; [done|done|]. intros e' _ Hsome. split; [|done]. rewrite Hp2. by destruct Hnew as [[_ ->]|[? _]].
    + split_and!; [done| |done]. intros _. exists pw, pw', d1, d2. split_and!; try done; [by rewrite Hp, lookup_insert_eq|by rewrite Hrs, lookup_delete_eq|].
      destruct (n_new_password_hash new) as [[|b v]|]; [|done|]; (destruct Hnp as (H & _ & ->); split; [done|];
        intros key au [_ Hau]%map_lookup_filter_Some Hu; cbn in Hau; destruct (au_mfa_pending au); [by destruct Hau|done]).
  - intros rnd user res d' Hr. unfold get_password. destruct (get_or_create_password rnd now' user d) as [r0 d1] eqn:E0.
    destruct (po_get_or_create _ _ _ _ _ _ Hr Hok E0) as (pw & -> & _ & _ & Hok1 & _). rewrite (M_bind_step _ _ _ _ _ E0). cbv zeta.
    destruct (pw_password pw) as [v|]; [|by intros [= <- <-]]. unfold mbind, M_bind, lift_result.
    destruct (get_session rnd now' user d1) as [[x|e] d2] eqn:E1; destruct (po_get_session _ _ _ _ _ _ Hok1 E1) as [Hok2 _]; [|by intros [= <- <-]].
    destruct (pub_B _ _); by intros [= <- <-].
  - intros wait user res d'. unfold reset_password. destruct (passwords d !! user); [|by intros [= <- <-]].
    destruct (_ <? now'); intros [= <- <-]; [|by eapply po_frame].
    destruct Hok as [H1 H2 H3]. split; cbn.
    + intros w q [_ Hq]%lookup_delete_Some. by eapply H1.
    + intros w i j s s'. cbn. intros [Hi _]%map_lookup_filter_Some [Hj _]%map_lookup_filter_Some. by eapply H2.
    + intros i s [Hi _]%map_lookup_filter_Some. by eapply H3.
  - intros user res d'. unfold decline_password_reset. destruct (resets d !! user); intros [= <- <-]; [by eapply po_frame|done].
Qed.

(** ** An account with a password: the exponent of its verifier is 2 *)
Definition sample_verifier : bytes := replicate 255 x00 ++ [x09].
Definition sample_password : UserPassword := MkPassword (replicate 40 x01) (replicate 16 x02) (Some sample_verifier) None 0.
Definition sample_randoms : Randoms := MkRandoms (replicate 8 x03) (replicate 16 x04) (replicate 255 x00 ++ [x05]).
Definition sample_accounts : PwDb := MkPw {[7 := sample_password]} ∅ 1 ∅ {[70 := MkAuth 1 7 true 0]}.

Lemma sample_accounts_unique now : srp_unique now sample_accounts.
Proof. intros u i j s s' Hi. cbn in Hi. by rewrite lookup_empty in Hi. Qed.

Lemma sample_session now : match @get_password toy_crypto sample_randoms now 7 sample_accounts with
  | (Ok (MkTLPassword _ _ _ (Some (i, _)) _), d') => i = 1 /\ srp_sessions d' !! i = Some (MkSrp (r_priv_b sample_randoms) now 7)
  | _ => False end.
Proof. vm_compute. split; reflexivity. Qed.

Lemma srp_login_witness : exists i B A M1 d', @client_srp toy_crypto (pw_salt1 sample_password) (pw_salt2 sample_password) B 2 11 = Ok (A, M1) /\
  @check_password_internal toy_crypto sample_randoms 1100 7 sample_password (Some (InputCheckPassword i A M1)) d' = (Ok tt, d').
Proof.
  destruct (@srp_login toy_crypto toy_laws sample_randoms sample_randoms 1000 1100 7 sample_accounts sample_password sample_verifier 2 11)
    as (i & B & d' & E & s & Hs & _ & H); [apply sample_accounts_unique|done|done|lia|by vm_compute|lia|lia|].
  assert (i = 1 /\ srp_sessions d' !! i = Some (MkSrp (r_priv_b sample_randoms) 1000 7)) as [-> Hs'].
  { pose proof (sample_session 1000) as Hg. rewrite E in Hg. exact Hg. }
  rewrite Hs' in Hs. injection Hs as <-. destruct (H ltac:(reflexivity)) as (A & M1 & HA & HM). exists 1, B, A, M1, d'. split; [exact HA|exact HM].
Defined.

Lemma srp_zero_bypass_witness : exists i M1 d',
  @check_password_internal toy_crypto sample_randoms 1000 7 sample_password (Some (InputCheckPassword i zero_A M1)) d' = (Ok tt, d').
Proof.
  destruct (@srp_zero_bypass toy_crypto toy_laws sample_randoms sample_randoms 1000 7 sample_accounts sample_password sample_verifier)
    as (i & B & d' & E & s & M1 & Hs & _ & H); [apply sample_accounts_unique|done|done|].
  exists i, M1, d'. apply H.
  pose proof (sample_session 1000) as Hg.
  rewrite E in Hg. destruct Hg as [-> Hs']. rewrite Hs' in Hs. injection Hs as <-. clear. vm_compute. reflexivity.
Defined.

(** Removing the password by way of the zero proof *)
Lemma password_invariant_witness : exists d', passwords_ok 1000 d' /\ passwords d' !! 7 = Some (MkPassword (replicate 8 x01) (replicate 16 x02) None None 0) /\ auths d' = ∅.
Proof.
  assert (passwords_ok 900 sample_accounts) as Hok.
  { split; [|apply sample_accounts_unique|intros i s H; cbn in H; by rewrite lookup_empty in H].
    intros u q H. cbn in H. apply lookup_singleton_Some in H as [_ <-]. split; [done|]. cbn [pw_password sample_password pw_salt1]. by vm_compute. }
  set (M1 := match @srp_proof toy_crypto (replicate 40 x01) (replicate 16 x02) zero_A (match @pub_B toy_crypto (Some sample_verifier) (r_priv_b sample_randoms) with Ok b => b | Raise _ => [] end) 0 with Ok m => m | Raise _ => [] end).
  set (run := @update_password_settings toy_crypto sample_randoms 1000 7 (Some (InputCheckPassword 1 zero_A M1)) (MkNewSettings None None None) sample_accounts).
  destruct (@password_invariant toy_crypto 900 1000 sample_accounts Hok ltac:(lia)) as [H _].
  destruct (H sample_randoms 7 (Some (InputCheckPassword 1 zero_A M1)) (MkNewSettings None None None) run.1 run.2) as [H1 _];
    [done|apply surjective_pairing|].
  exists run.2. split; [exact H1|]. clear. vm_compute. split; reflexivity.
Defined.
