(* ===== verification/AuthRateLimit.v ===== *)
(** The limits on sending codes and on signing in ([piltover/app/utils/auth_rate_limit.py]).

    The cache is an interface: what [aiocache] documents of keys that expire. Time is in microseconds. *)
From stdpp Require Import pretty.
From S2P Require Import Prelude.

Definition us (seconds : Z) : Z := seconds * 1000000.
(** [int(time())] *)
Definition int_time (t : Z) : Z := t / 1000000.

(** ** A cache whose keys expire *)
Class TtlCache (C : Type) := {
  cache_get : C -> Z -> string -> option Z;            (* at a time *)
  cache_set : C -> Z -> string -> Z -> Z -> C;         (* at a time: key, value, ttl in seconds *)
  cache_delete : C -> string -> C;
  get_set_same : forall c t t' k v ttl, t <= t' -> cache_get (cache_set c t k v ttl) t' k = if t' <? t + us ttl then Some v else None;
  get_set_other : forall c t t' k k' v ttl, k' <> k -> cache_get (cache_set c t k v ttl) t' k' = cache_get c t' k';
  get_delete_same : forall c t k, cache_get (cache_delete c k) t k = None;
  get_delete_other : forall c t k k', k' <> k -> cache_get (cache_delete c k) t k' = cache_get c t k';
  (* what is not set again only goes *)
  get_later : forall c t t' k v, t <= t' -> cache_get c t' k = Some v -> cache_get c t k = Some v }.

(** ** [_AuthRateLimit] of the configuration *)
Record AuthRateLimit := MkLimits {
  enabled : bool;
  send_code_min_interval_seconds : Z; send_code_per_ip_limit : Z; send_code_per_ip_window_seconds : Z;
  send_code_per_key_limit : Z; send_code_per_key_window_seconds : Z;
  sign_in_fail_limit : Z; sign_in_fail_window_seconds : Z; shadow_ban_fail_threshold : Z; shadow_ban_duration_seconds : Z }.

Definition default_limits : AuthRateLimit := MkLimits true 60 5 3600 20 3600 5 3600 15 86400.

(** The bounds of the fields' declarations *)
Definition limits_ok (cfg : AuthRateLimit) : Prop :=
  0 <= send_code_min_interval_seconds cfg /\ 1 <= send_code_per_ip_limit cfg /\ 60 <= send_code_per_ip_window_seconds cfg /\
  1 <= send_code_per_key_limit cfg /\ 60 <= send_code_per_key_window_seconds cfg /\ 1 <= sign_in_fail_limit cfg /\
  60 <= sign_in_fail_window_seconds cfg /\ 1 <= shadow_ban_fail_threshold cfg /\ 60 <= shadow_ban_duration_seconds cfg.

Definition _flood_wait {S A} (seconds : Z) : M S A := raise (ErrorRpc 420 ("FLOOD_WAIT_" +:+ pretty (Z.max seconds 1))).

Section Limits.
Context {C : Type} `{TtlCache C} (cfg : AuthRateLimit).

Definition send_last (ip : string) : string := "auth:send:last:" +:+ ip.
Definition send_ip (ip : string) : string := "auth:send:ip:" +:+ ip.
Definition send_key (key : Z) : string := "auth:send:key:" +:+ pretty key.
Definition fail_ip (ip : string) : string := "auth:fail:ip:" +:+ ip.
Definition fail_key (key : Z) : string := "auth:fail:key:" +:+ pretty key.
Definition shadow (ip : string) : string := "auth:shadow:" +:+ ip.

Definition _bump_counter (t : Z) (key : string) (window_seconds : Z) : M C Z := fun c =>
  let new_value := match cache_get c t key with None => 1 | Some current => current + 1 end in
  (Ok new_value, cache_set c t key new_value window_seconds).

Definition _seconds_until (t : Z) (key : string) (min_interval : Z) (c : C) : option Z :=
  last_sent ← cache_get c t key;
  let elapsed := int_time t - last_sent in
  if elapsed <? min_interval then Some (min_interval - elapsed) else None.

Definition at_limit (t : Z) (key : string) (limit : Z) (c : C) : bool :=
  match cache_get c t key with Some count => limit <=? count | None => false end.

Definition check_send_code_allowed (t : Z) (ip : string) (auth_key_id : option Z) : M C unit :=
  if negb (enabled cfg) then mret tt else
  c ← get;
  let wait := if 0 <? send_code_min_interval_seconds cfg then _seconds_until t (send_last ip) (send_code_min_interval_seconds cfg) c else None in
  match wait with Some w => _flood_wait w | None => mret tt end;;
  (if at_limit t (send_ip ip) (send_code_per_ip_limit cfg) c then _flood_wait (send_code_min_interval_seconds cfg) else mret tt);;
  match auth_key_id with
  | Some k => if at_limit t (send_key k) (send_code_per_key_limit cfg) c then _flood_wait (send_code_min_interval_seconds cfg) else mret tt
  | None => mret tt
  end.

Definition record_send_code (t : Z) (ip : string) (auth_key_id : option Z) : M C unit :=
  if negb (enabled cfg) then mret tt else
  modify (fun c => cache_set c t (send_last ip) (int_time t) (send_code_per_ip_window_seconds cfg));;
  _bump_counter t (send_ip ip) (send_code_per_ip_window_seconds cfg);;
  match auth_key_id with
  | Some k => _bump_counter t (send_key k) (send_code_per_key_window_seconds cfg);; mret tt
  | None => mret tt
  end.

Definition is_shadow_banned (t : Z) (ip : string) (c : C) : bool :=
  if negb (enabled cfg) then false else bool_decide (is_Some (cache_get c t (shadow ip))).

(** The failures that count: the greater of the two counters *)
Definition failures (t : Z) (ip : string) (auth_key_id : option Z) (c : C) : Z :=
  let f := match cache_get c t (fail_ip ip) with Some n => Z.max 0 n | None => 0 end in
  match auth_key_id with
  | Some k => match cache_get c t (fail_key k) with Some n => Z.max f n | None => f end
  | None => f
  end.

Definition check_sign_in_allowed (t : Z) (ip : string) (auth_key_id : option Z) : M C unit :=
  if negb (enabled cfg) then mret tt else
  c ← get;
  ensure (negb (is_shadow_banned t ip c)) (ErrorRpc 400 "PHONE_CODE_INVALID");;
  let f := failures t ip auth_key_id c in
  if sign_in_fail_limit cfg <=? f then _flood_wait (Z.min 600 (60 * (f - sign_in_fail_limit cfg + 1))) else mret tt.

Definition record_sign_in_failure (t : Z) (ip : string) (auth_key_id : option Z) : M C unit :=
  if negb (enabled cfg) then mret tt else
  ip_failures ← _bump_counter t (fail_ip ip) (sign_in_fail_window_seconds cfg);
  key_failures ← match auth_key_id with Some k => _bump_counter t (fail_key k) (sign_in_fail_window_seconds cfg) | None => mret 0 end;
  if shadow_ban_fail_threshold cfg <=? Z.max ip_failures key_failures
  then modify (fun c => cache_set c t (shadow ip) 1 (shadow_ban_duration_seconds cfg)) else mret tt.

Definition clear_sign_in_failures (ip : string) (auth_key_id : option Z) : M C unit :=
  if negb (enabled cfg) then mret tt else
  modify (fun c => cache_delete c (fail_ip ip));;
  match auth_key_id with Some k => modify (fun c => cache_delete c (fail_key k)) | None => mret tt end.
End Limits.

(** ** A guess of a code, as [sign_in] treats it: checked, then recorded or, when it was right, forgotten *)
Section Guesses.
Context {C : Type} `{TtlCache C} (cfg : AuthRateLimit).

Record guess := MkGuess { gs_time : Z; gs_ip : string; gs_key : option Z; gs_right : bool }.

Definition take_guess (g : guess) : M C unit :=
  check_sign_in_allowed cfg (gs_time g) (gs_ip g) (gs_key g);;
  if gs_right g then clear_sign_in_failures cfg (gs_ip g) (gs_key g) else record_sign_in_failure cfg (gs_time g) (gs_ip g) (gs_key g).

(** The wrong guesses from [ip] that are answered, and not refused *)
Fixpoint answered (ip : string) (l : list guess) (c : C) : Z :=
  match l with
  | [] => 0
  | g :: l =>
    let '(r, c') := take_guess g c in
    (match r with Ok _ => if bool_decide (gs_ip g = ip) && negb (gs_right g) then 1 else 0 | Raise _ => 0 end) + answered ip l c'
  end.
Fixpoint after (l : list guess) (c : C) : C := match l with [] => c | g :: l => after l (take_guess g c).2 end.

Fixpoint times_from (t : Z) (l : list guess) : Prop := match l with [] => True | g :: l => t <= gs_time g /\ times_from (gs_time g) l end.

Lemma check_sign_in_cases t ip key c : exists r, check_sign_in_allowed cfg t ip key c = (r, c) /\
  (r = Ok tt \/ exists e, r = Raise e) /\
  (enabled cfg = true -> (r = Ok tt <-> cache_get c t (shadow ip) = None /\ failures t ip key c < sign_in_fail_limit cfg)) /\
  (forall e, r = Raise e -> cache_get c t (shadow ip) = None ->
     e = ErrorRpc 420 ("FLOOD_WAIT_" +:+ pretty (Z.max (Z.min 600 (60 * (failures t ip key c - sign_in_fail_limit cfg + 1))) 1))).
Proof.
  unfold check_sign_in_allowed. destruct (enabled cfg) eqn:E; cbn [negb]; [|exists (Ok tt); split_and!; auto; done].
  rewrite get_bind, ensure_bind. unfold is_shadow_banned. rewrite E. cbn [negb].
  destruct (cache_get c t (shadow ip)) as [v|] eqn:Es.
  { rewrite bool_decide_eq_true_2 by eauto. cbn. eexists. split; [done|]. split; [eauto|]. split; [intros _; split; [done|by intros []]|done]. }
  rewrite bool_decide_eq_false_2 by (by intros []). cbn [negb]. cbv zeta. destruct (_ <=? _) eqn:El; b2p.
  - eexists. split; [done|]. split; [eauto|]. split; [intros _; split; [done|intros [_ ?]; lia]|]. by intros e [= <-] _.
  - exists (Ok tt). split; [done|]. split; [auto|]. split; [intros _; split; [split; [done|lia]|done]|done].
Qed.

Lemma failures_ip t ip key c n : cache_get c t (fail_ip ip) = Some n -> n <= failures t ip key c.
Proof. intros E. unfold failures. rewrite E. destruct key as [k|]; [destruct (cache_get c t (fail_key k))|]; lia. Qed.
Lemma failures_key t ip k c n : cache_get c t (fail_key k) = Some n -> n <= failures t ip (Some k) c.
Proof. intros E. unfold failures. rewrite E. destruct (cache_get c t (fail_ip ip)); lia. Qed.
Lemma failures_le t ip key c m : 0 <= m -> (forall n, cache_get c t (fail_ip ip) = Some n -> n <= m) ->
  (forall k n, key = Some k -> cache_get c t (fail_key k) = Some n -> n <= m) -> failures t ip key c <= m.
Proof.
  intros Hm Hi Hk. unfold failures. destruct (cache_get c t (fail_ip ip)) as [n|]; [specialize (Hi n eq_refl)|];
    (destruct key as [k|]; [destruct (cache_get c t (fail_key k)) as [n'|] eqn:Ek; [specialize (Hk k n' eq_refl Ek)|]|]); lia.
Qed.

(** The names of the counters are all different. *)
Lemma fail_ip_inj a b : fail_ip a = fail_ip b -> a = b.
Proof. unfold fail_ip. by intros H1%(inj (String.append _)). Qed.
Lemma fail_key_inj a b : fail_key a = fail_key b -> a = b.
Proof. unfold fail_key. by intros H1%(inj (String.append _))%(inj pretty). Qed.
Lemma names_differ ip ip' k : fail_ip ip <> fail_key k /\ fail_ip ip <> shadow ip' /\ fail_key k <> shadow ip /\ fail_ip ip <> send_ip ip' /\
  fail_ip ip <> send_last ip' /\ fail_ip ip <> send_key k.
Proof. by split_and!. Qed.

Lemma bump_spec t key w c : exists n, _bump_counter t key w c = (Ok n, cache_set c t key n w) /\
  n = match cache_get c t key with None => 1 | Some m => m + 1 end.
Proof. by eexists. Qed.

(** What recording a failure does to the counter of an address *)
Lemma record_ip t ip key c t' ip' : t <= t' ->
  cache_get (record_sign_in_failure cfg t ip key c).2 t' (fail_ip ip') =
    if enabled cfg && bool_decide (ip' = ip) then
      (if t' <? t + us (sign_in_fail_window_seconds cfg) then Some (match cache_get c t (fail_ip ip) with None => 1 | Some m => m + 1 end) else None)
    else cache_get c t' (fail_ip ip').
Proof.
  intros Ht. unfold record_sign_in_failure. destruct (enabled cfg); cbn [negb andb]; [|done].
  destruct (names_differ ip' ip (default 0 key)) as (Hk & Hs & _).
  unfold mbind, M_bind. destruct (bump_spec t (fail_ip ip) (sign_in_fail_window_seconds cfg) c) as (n & -> & Hn).
  set (c1 := cache_set c t (fail_ip ip) n (sign_in_fail_window_seconds cfg)).
  assert (forall c2, cache_get c2 t' (fail_ip ip') = cache_get c1 t' (fail_ip ip') ->
    cache_get c2 t' (fail_ip ip') = if bool_decide (ip' = ip) then if t' <? t + us (sign_in_fail_window_seconds cfg) then Some n else None else cache_get c t' (fail_ip ip')) as Hc.
  { intros c2 ->. unfold c1. destruct (decide (ip' = ip)) as [->|Hne].
    - by rewrite bool_decide_eq_true_2, get_set_same.
    - rewrite bool_decide_eq_false_2, get_set_other; [done| |done]. by intros ?%fail_ip_inj. }
  rewrite <- Hn. destruct key as [k|].
  - destruct (bump_spec t (fail_key k) (sign_in_fail_window_seconds cfg) c1) as (n' & -> & _).
    destruct (_ <=? _); cbn [modify mret M_ret snd]; apply Hc; rewrite ?get_set_other by (apply not_eq_sym || done; first [done | auto]); done.
  - cbn [mret M_ret]. destruct (_ <=? _); cbn [modify snd]; apply Hc; rewrite ?get_set_other by auto; done.
Qed.

Lemma clear_spec ip key c t name : cache_get (clear_sign_in_failures cfg ip key c).2 t name =
  if enabled cfg && (bool_decide (name = fail_ip ip) || match key with Some k => bool_decide (name = fail_key k) | None => false end) then None
  else cache_get c t name.
Proof.
  unfold clear_sign_in_failures. destruct (enabled cfg); cbn [negb andb]; [|done]. unfold mbind, M_bind, modify.
  assert (cache_get (cache_delete c (fail_ip ip)) t name = if bool_decide (name = fail_ip ip) then None else cache_get c t name) as Hc.
  { destruct (decide (name = fail_ip ip)) as [->|Hne]; [by rewrite bool_decide_eq_true_2, get_delete_same|]. by rewrite bool_decide_eq_false_2, get_delete_other. }
  destruct key as [k|]; cbn [mret M_ret snd]; [|by rewrite orb_false_r].
  destruct (decide (name = fail_key k)) as [->|Hne]; [rewrite get_delete_same, (bool_decide_eq_true_2 (fail_key k = fail_key k)) by done; by rewrite orb_true_r|].
  rewrite get_delete_other by done. rewrite (bool_decide_eq_false_2 _ Hne), orb_false_r. exact Hc.
Qed.

(** The counters after a failure: those of the address and of the key grow by one, and the ban is set only from the threshold on. *)
Lemma record_other t ip key c t' name : name <> fail_ip ip -> name <> shadow ip -> (forall k, key = Some k -> name <> fail_key k) ->
  cache_get (record_sign_in_failure cfg t ip key c).2 t' name = cache_get c t' name.
Proof.
  intros Hi Hs Hk. unfold record_sign_in_failure. destruct (enabled cfg); cbn [negb]; [|done]. unfold mbind, M_bind, _bump_counter at 1.
  destruct key as [k|]; unfold _bump_counter; cbn [mret M_ret]; (destruct (_ <=? _); cbn [modify mret M_ret snd]); rewrite ?get_set_other by auto; done.
Qed.

Definition bumped (t : Z) (name : string) (c : C) : Z := match cache_get c t name with None => 1 | Some m => m + 1 end.

Lemma record_key t ip k c t' : t <= t' -> enabled cfg = true ->
  cache_get (record_sign_in_failure cfg t ip (Some k) c).2 t' (fail_key k) =
    if t' <? t + us (sign_in_fail_window_seconds cfg) then Some (bumped t (fail_key k) c) else None.
Proof.
  intros Ht He. unfold record_sign_in_failure. rewrite He. cbn [negb]. unfold mbind, M_bind, _bump_counter.
  rewrite !get_set_other by done. fold (bumped t (fail_key k) c). destruct (_ <=? _); cbn [modify mret M_ret snd]; rewrite ?get_set_other by done; by rewrite get_set_same.
Qed.

Lemma record_shadow t ip key c t' ip' : enabled cfg = true ->
  Z.max (bumped t (fail_ip ip) c) (match key with Some k => bumped t (fail_key k) c | None => 0 end) < shadow_ban_fail_threshold cfg ->
  cache_get (record_sign_in_failure cfg t ip key c).2 t' (shadow ip') = cache_get c t' (shadow ip').
Proof.
  intros He Hlt. unfold record_sign_in_failure. rewrite He. cbn [negb]. unfold mbind, M_bind, _bump_counter.
  destruct key as [k|]; rewrite ?get_set_other by done; cbn [mret M_ret]; fold (bumped t (fail_ip ip) c); try fold (bumped t (fail_key k) c);
    rewrite (proj2 (Z.leb_gt _ _)) by done; cbn [modify mret M_ret snd]; by rewrite ?get_set_other.
Qed.

(** *** No counter exceeds the limit, and with a higher threshold nobody is banned *)
Record counters_ok (t : Z) (c : C) : Prop := {
  co_ip t' ip n : t <= t' -> cache_get c t' (fail_ip ip) = Some n -> 1 <= n <= sign_in_fail_limit cfg;
  co_key t' k n : t <= t' -> cache_get c t' (fail_key k) = Some n -> 1 <= n <= sign_in_fail_limit cfg;
  co_shadow t' ip : t <= t' -> cache_get c t' (shadow ip) = None }.

Context (cfg_ok : limits_ok cfg) (threshold_high : sign_in_fail_limit cfg < shadow_ban_fail_threshold cfg).

Lemma bumped_ok t name c : (forall n, cache_get c t name = Some n -> 1 <= n < sign_in_fail_limit cfg) -> 1 <= bumped t name c <= sign_in_fail_limit cfg.
Proof using cfg_ok. intros Hn. unfold bumped. destruct (cache_get c t name) as [n|]; [specialize (Hn n eq_refl); lia|]. destruct cfg_ok as (_ & _ & _ & _ & _ & ? & _). lia. Qed.

Lemma take_guess_ok t c g : counters_ok t c -> t <= gs_time g -> counters_ok (gs_time g) (take_guess g c).2.
Proof using cfg_ok threshold_high.
  intros [H1 H2 H3] Ht. assert (counters_ok (gs_time g) c) as Hlater by (split; intros; [eapply H1; [|eassumption]|eapply H2; [|eassumption]|eapply H3]; lia).
  unfold take_guess. destruct (check_sign_in_cases (gs_time g) (gs_ip g) (gs_key g) c) as (r & E & Hr & Hok & _).
  unfold mbind, M_bind. rewrite E. destruct Hr as [->|[e ->]]; [|exact Hlater].
  destruct (gs_right g).
  { split; intros t' x; [intros n Hle|intros n Hle|intros Hle]; rewrite clear_spec; destruct (enabled cfg && _); intros; try done; [eapply H1; [|eassumption]|eapply H2; [|eassumption]|eapply H3]; lia. }
  destruct (enabled cfg) eqn:He; [|unfold record_sign_in_failure; rewrite He; exact Hlater].
  destruct (proj1 (Hok eq_refl) eq_refl) as [_ Hf].
  assert (1 <= bumped (gs_time g) (fail_ip (gs_ip g)) c <= sign_in_fail_limit cfg) as Hbi.
  { apply bumped_ok. intros n Hn. pose proof (failures_ip _ _ (gs_key g) _ _ Hn). pose proof (H1 _ _ _ Ht Hn). lia. }
  assert (forall k, gs_key g = Some k -> 1 <= bumped (gs_time g) (fail_key k) c <= sign_in_fail_limit cfg) as Hbk.
  { intros k Hk. apply bumped_ok. intros n Hn. rewrite Hk in Hf. pose proof (failures_key _ (gs_ip g) _ _ _ Hn). pose proof (H2 _ _ _ Ht Hn). lia. }
  split.
  - intros t' ip n Hle. rewrite record_ip, He by done. cbn [andb]. fold (bumped (gs_time g) (fail_ip (gs_ip g)) c).
    destruct (bool_decide (ip = gs_ip g)); [|intros Hn; eapply H1; [|exact Hn]; lia]. destruct (_ <? _); [|done]. by intros [= <-].
  - intros t' k n Hle. destruct (decide (gs_key g = Some k)) as [Hk|Hk].
    + rewrite Hk, record_key by done. destruct (_ <? _); [|done]. intros [= <-]. by apply Hbk.
    + rewrite record_other; [intros Hn; eapply H2; [|exact Hn]; lia|done|done|]. intros k' Hk' Heq. apply fail_key_inj in Heq. congruence.
  - intros t' ip Hle. rewrite record_shadow; [eapply H3; lia|done|]. destruct (gs_key g) as [k|]; [specialize (Hbk k eq_refl)|]; lia.
Qed.

Lemma after_ok l : forall t c, counters_ok t c -> times_from t l -> exists t', t <= t' /\ counters_ok t' (after l c).
Proof using cfg_ok threshold_high.
  induction l as [|g l IH]; intros t c Hc; cbn; [exists t; split; [lia|done]|]. intros [Ht Hl].
  destruct (IH _ _ (take_guess_ok _ _ _ Hc Ht) Hl) as (t' & ? & ?). exists t'. split; [lia|done].
Qed.

Lemma take_guess_refused g c e c' : counters_ok (gs_time g) c -> take_guess g c = (Raise e, c') -> e = ErrorRpc 420 "FLOOD_WAIT_60".
Proof using cfg_ok threshold_high.
  intros Hc. unfold take_guess. destruct (check_sign_in_cases (gs_time g) (gs_ip g) (gs_key g) c) as (r & E & Hr & Hok & He).
  unfold mbind, M_bind. rewrite E. destruct Hr as [->|[e0 ->]].
  { destruct (gs_right g); [unfold clear_sign_in_failures|unfold record_sign_in_failure]; (destruct (enabled cfg); [|done]); cbn [negb]; unfold mbind, M_bind, modify, _bump_counter;
      destruct (gs_key g); cbn; try destruct (_ <=? _); done. }
  intros [= <- <-]. rewrite (He _ eq_refl) by (eapply co_shadow; [done|lia]).
  assert (failures (gs_time g) (gs_ip g) (gs_key g) c = sign_in_fail_limit cfg) as ->; [|rewrite Z.sub_diag; by vm_compute].
  assert (failures (gs_time g) (gs_ip g) (gs_key g) c <= sign_in_fail_limit cfg) as Hle.
  { destruct cfg_ok as (_ & _ & _ & _ & _ & ? & _). apply failures_le; [lia|intros n Hn; eapply co_ip in Hn; [|done|lia]; lia|].
    intros k n _ Hn. eapply co_key in Hn; [|done|lia]. lia. }
  destruct (enabled cfg) eqn:Hen.
  - destruct (Z.lt_ge_cases (failures (gs_time g) (gs_ip g) (gs_key g) c) (sign_in_fail_limit cfg)) as [Hlt|?]; [|lia].
    assert (Raise e0 = Ok tt); [|done]. apply (Hok eq_refl). split; [eapply co_shadow; [done|lia]|done].
  - unfold check_sign_in_allowed in E. rewrite Hen in E. done.
Qed.

Lemma take_guess_elsewhere ip g c t' : gs_ip g <> ip -> gs_time g <= t' -> cache_get (take_guess g c).2 t' (fail_ip ip) = cache_get c t' (fail_ip ip).
Proof.
  intros Hne Ht. unfold take_guess. destruct (check_sign_in_cases (gs_time g) (gs_ip g) (gs_key g) c) as (r & E & Hr & _).
  unfold mbind, M_bind. rewrite E. destruct Hr as [->|[e0 ->]]; [|done]. destruct (gs_right g).
  - rewrite clear_spec. rewrite bool_decide_eq_false_2 by (by intros ?%fail_ip_inj). destruct (gs_key g) as [k|]; [|by rewrite andb_false_r].
    rewrite bool_decide_eq_false_2 by done. by rewrite andb_false_r.
  - rewrite record_ip by done. by rewrite bool_decide_eq_false_2, andb_false_r.
Qed.

Lemma answered_bound ip deadline l : enabled cfg = true -> (forall g, g ∈ l -> gs_ip g = ip -> gs_right g = false) ->
  (forall g, g ∈ l -> gs_time g < deadline <= gs_time g + us (sign_in_fail_window_seconds cfg)) ->
  forall t c k, counters_ok t c -> times_from t l -> 0 <= k <= sign_in_fail_limit cfg ->
  (0 < k -> forall t', t <= t' < deadline -> exists m, cache_get c t' (fail_ip ip) = Some m /\ k <= m) ->
  answered ip l c <= sign_in_fail_limit cfg - k.
Proof using cfg_ok threshold_high.
  intros Hen. induction l as [|g l IH]; intros Hr Hw t c k Hc Ht Hk Hcount; cbn [answered]; [lia|]. cbn in Ht. destruct Ht as [Ht Hl].
  specialize (IH ltac:(intros; apply Hr; [by apply list_elem_of_further|done]) ltac:(intros; apply Hw; by apply list_elem_of_further)).
  destruct (Hw g) as [Hlt Hle]; [apply list_elem_of_here|]. pose proof (take_guess_ok t c g Hc Ht) as Hc'.
  destruct (take_guess g c) as [r c'] eqn:E. cbn in Hc'.
  destruct (decide (gs_ip g = ip)) as [Hip|Hip].
  - rewrite bool_decide_eq_true_2 by done. rewrite (Hr g) in * by (apply list_elem_of_here || done). cbn [andb negb].
    pose proof (Hr g ltac:(apply list_elem_of_here) Hip) as Hwrong. unfold take_guess in E. rewrite Hwrong in E. unfold mbind, M_bind in E.
    destruct (check_sign_in_cases (gs_time g) (gs_ip g) (gs_key g) c) as (r0 & E0 & Hr0 & Hok & _). rewrite E0 in E.
    destruct Hr0 as [->|[e ->]].
    + destruct (proj1 (Hok Hen) eq_refl) as [_ Hf]. pose proof (record_ip (gs_time g) (gs_ip g) (gs_key g) c) as Hrec. rewrite E in Hrec. cbn in Hrec.
      assert (k + 1 <= match cache_get c (gs_time g) (fail_ip ip) with None => 1 | Some m => m + 1 end <= sign_in_fail_limit cfg) as Hnew.
      { rewrite Hip in Hf. destruct (cache_get c (gs_time g) (fail_ip ip)) as [m|] eqn:Em.
        - pose proof (failures_ip _ _ (gs_key g) _ _ Em). pose proof (co_ip _ _ Hc _ _ _ Ht Em). destruct (decide (0 < k)) as [Hpos|]; [|lia].
          destruct (Hcount Hpos (gs_time g)) as (m' & Em' & ?); [lia|]. assert (m' = m) as -> by congruence. lia.
        - destruct (decide (0 < k)) as [Hpos|]; [destruct (Hcount Hpos (gs_time g)) as (m' & Em' & _); [lia|congruence]|].
          destruct cfg_ok as (_ & _ & _ & _ & _ & ? & _). lia. }
      specialize (IH (gs_time g) c' (k + 1) Hc' Hl ltac:(lia)).
      assert (answered ip l c' <= sign_in_fail_limit cfg - (k + 1)); [|destruct r; lia]. apply IH. intros _ t' Ht'.
      rewrite Hrec, Hen, Hip, bool_decide_eq_true_2 by (done || lia). cbn [andb]. rewrite (proj2 (Z.ltb_lt _ _)) by lia. eexists. split; [done|lia].
    + injection E as <- <-. specialize (IH (gs_time g) c k Hc' Hl Hk).
      assert (answered ip l c <= sign_in_fail_limit cfg - k); [|lia]. apply IH. intros Hpos t' Ht'. apply (Hcount Hpos). lia.
  - rewrite (bool_decide_eq_false_2 _ Hip). cbn [andb]. specialize (IH (gs_time g) c' k Hc' Hl Hk).
    assert (answered ip l c' <= sign_in_fail_limit cfg - k); [|destruct r; lia]. apply IH. intros Hpos t' Ht'.
    pose proof (take_guess_elsewhere ip g c t' Hip ltac:(lia)) as He. rewrite E in He. cbn in He. rewrite He. apply (Hcount Hpos). lia.
Qed.
End Guesses.


(** ** A cache in memory *)
Abbreviation memory := (gmap string (Z * Z)).   (* value and expiry *)
Definition memory_get (c : memory) (t : Z) (k : string) : option Z :=
  match c !! k with Some (v, expires) => if t <? expires then Some v else None | None => None end.
Definition memory_set (c : memory) (t : Z) (k : string) (v ttl : Z) : memory := <[k := (v, t + us ttl)]> c.
Definition memory_delete (c : memory) (k : string) : memory := delete k c.
#[export] Instance memory_cache : TtlCache memory.
Proof.
  refine {| cache_get := memory_get; cache_set := memory_set; cache_delete := memory_delete |}; unfold memory_get, memory_set, memory_delete.
  - intros c t t' k v ttl _. by rewrite lookup_insert_eq.
  - intros c t t' k k' v ttl Hne. by rewrite lookup_insert_ne.
  - intros c t k. by rewrite lookup_delete_eq.
  - intros c t k k' Hne. by rewrite lookup_delete_ne.
  - intros c t t' k v Ht. destruct (c !! k) as [[w e]|]; [|done]. destruct (t' <? e) eqn:E; [|done]. b2p. intros [= <-]. by rewrite (proj2 (Z.ltb_lt _ _)) by lia.
Defined.

(** Seven wrong guesses in seven seconds: five are answered. *)
Definition sample_guesses : list guess := (fun i => MkGuess (us i) "192.0.2.1" (Some 5) false) <$> seqZ 0 7.
