(* ===== verification/Login.v ===== *)
(** Logging in: [piltover/app/handlers/auth.py], [piltover/db/models/sentcode.py], [qr_login.py], [user_authorization.py].

    Time is in microseconds, as in [AuthRateLimit.v]; the SRP sessions of [Password.v] see it in seconds. Python's tables of Unicode digits,
    [int] on strings, the decryption of an MTProto packet and random values are parameters, and so is whether the service message with a
    code could be sent. A phone code hash comes as it is read: of a wrong length, not hexadecimal, or an id and a UUID. *)
From Stdlib Require Import Init.Byte.
From S2P Require Import Prelude PyBytes TlPrimitives Session AuthKeys Keygen Password AuthRateLimit.

(** ** Rows *)
Inductive PhoneCodePurpose := SIGNIN | SIGNUP | CHANGE_NUMBER | CANCEL_ACCOUNT_DELETION.
#[export] Instance purpose_eq_dec : EqDecision PhoneCodePurpose.
Proof. solve_decision. Defined.
Record SentCode := MkCode {
  sc_phone_number : pystr; sc_code : Z; sc_hash : Z; sc_expires_at : Z; sc_used : bool; sc_purpose : PhoneCodePurpose }.
Record QrLogin := MkQr { qr_created_at : Z; qr_key : Z; qr_nonce : Z; qr_auth : option Z }.
Record User := MkUser { us_phone_number : option pystr; us_admin : bool; us_deleted : bool }.

Inductive code_hash := WrongSize | Unreadable | HashOf (id uuid : Z).
Definition is_wrong_size (h : code_hash) : bool := match h with WrongSize => true | _ => false end.

Record LoginDb (C : Type) := MkLogin {
  codes : gmap Z SentCode; next_code : Z;
  users : gmap Z User; next_user : Z;
  pw : PwDb; next_auth : Z;                (* passwords and authorizations *)
  keys : KeyTables;
  qr_logins : gmap Z QrLogin; next_qr : Z;
  blocked_phones : gset pystr;
  bot_tokens : gmap Z pystr;               (* the token of each bot, by its user *)
  initialised : gset Z;                    (* users with a State, default privacy rules and a peer of themselves *)
  limits : C }.
Arguments MkLogin {C}. Arguments codes {C}. Arguments next_code {C}. Arguments users {C}. Arguments next_user {C}. Arguments pw {C}.
Arguments next_auth {C}. Arguments keys {C}. Arguments qr_logins {C}. Arguments next_qr {C}. Arguments blocked_phones {C}. Arguments bot_tokens {C}.
Arguments initialised {C}. Arguments limits {C}.

(** The request's context *)
Record Ctx := MkCtx {
  cx_ip : string; cx_auth_key_id : Z; cx_perm_auth_key_id : option Z; cx_auth_id : option Z; cx_user_id : option Z;
  cx_message_id : Z; cx_session_id : Z }.

(** The bytes of [BindAuthKeyInner] in the encrypted message, as far as they are checked *)
Record BindAuthKeyInner := MkBind { b_nonce : Z; b_temp_auth_key_id : Z; b_perm_auth_key_id : Z; b_temp_session_id : Z }.
Record InnerMessage := MkInner { im_seq_no : Z; im_length : Z; im_message_id : Z; im_obj : option BindAuthKeyInner }.

Section Login.
Context {C : Type} `{TtlCache C} `{Crypto} (cfg : AuthRateLimit).
Context (isdigit : Z -> bool) (int_ : pystr -> option Z).
Abbreviation L := (M (LoginDb C)).

Definition with_codes (c : gmap Z SentCode) (n : Z) (d : LoginDb C) : LoginDb C :=
  MkLogin c n (users d) (next_user d) (pw d) (next_auth d) (keys d) (qr_logins d) (next_qr d) (blocked_phones d) (bot_tokens d) (initialised d) (limits d).
Definition with_users (u : gmap Z User) (n : Z) (i : gset Z) (d : LoginDb C) : LoginDb C :=
  MkLogin (codes d) (next_code d) u n (pw d) (next_auth d) (keys d) (qr_logins d) (next_qr d) (blocked_phones d) (bot_tokens d) i (limits d).
Definition with_pw (p : PwDb) (n : Z) (d : LoginDb C) : LoginDb C :=
  MkLogin (codes d) (next_code d) (users d) (next_user d) p n (keys d) (qr_logins d) (next_qr d) (blocked_phones d) (bot_tokens d) (initialised d) (limits d).
Definition with_keys (k : KeyTables) (d : LoginDb C) : LoginDb C :=
  MkLogin (codes d) (next_code d) (users d) (next_user d) (pw d) (next_auth d) k (qr_logins d) (next_qr d) (blocked_phones d) (bot_tokens d) (initialised d) (limits d).
Definition with_qr (q : gmap Z QrLogin) (n : Z) (d : LoginDb C) : LoginDb C :=
  MkLogin (codes d) (next_code d) (users d) (next_user d) (pw d) (next_auth d) (keys d) q n (blocked_phones d) (bot_tokens d) (initialised d) (limits d).
Definition with_limits (c : C) (d : LoginDb C) : LoginDb C :=
  MkLogin (codes d) (next_code d) (users d) (next_user d) (pw d) (next_auth d) (keys d) (qr_logins d) (next_qr d) (blocked_phones d) (bot_tokens d) (initialised d) c.

Definition on_limits {A} (m : M C A) : L A := fun d => let '(r, c) := m (limits d) in (r, with_limits c d).
Definition on_pw {A} (m : P A) : L A := fun d => let '(r, p) := m (pw d) in (r, with_pw p (next_auth d) d).

(** ** Phone numbers and codes *)
Definition _validate_phone (phone_number : pystr) : result pystr :=
  let phone_number := filter (fun ch => isdigit ch = true) phone_number in
  match int_ phone_number with
  | Some n => if n <? 100000 then Raise (ErrorRpc 406 "PHONE_NUMBER_INVALID") else Ok phone_number
  | None => Raise (ErrorRpc 406 "PHONE_NUMBER_INVALID")
  end.
Definition is_phone_banned (phone_number : pystr) (d : LoginDb C) : bool := bool_decide (phone_number ∈ blocked_phones d).

Definition gen_expires_at (t : Z) : Z := int_time t + 5 * 60.

Definition get_code (number : pystr) (h : code_hash) (purpose : option PhoneCodePurpose) : L (option (Z * SentCode)) := fun d =>
  match h with
  | HashOf id uuid => (Ok (match codes d !! id with
      | Some c => if bool_decide (sc_hash c = uuid) && bool_decide (sc_phone_number c = number) && negb (sc_used c) &&
          match purpose with Some p => bool_decide (sc_purpose c = p) | None => true end then Some (id, c) else None
      | None => None end), d)
  | _ => (Raise ValueError, d)
  end.

Definition delete_code (id : Z) (d : LoginDb C) : LoginDb C := with_codes (delete id (codes d)) (next_code d) d.
Definition save_code (id : Z) (c : SentCode) (d : LoginDb C) : LoginDb C := with_codes (<[id := c]> (codes d)) (next_code d) d.

(** [code] is a number already, or a string *)
Definition check_raise (t : Z) (c : Z * SentCode) (code : option pystr) : L unit :=
  match code with
  | Some s => match int_ s with None => raise ValueError | Some n => ensure (sc_code c.2 =? n) (ErrorRpc 400 "PHONE_CODE_INVALID") end
  | None => mret tt
  end;;
  if us (sc_expires_at c.2) <? t then modify (delete_code c.1);; raise (ErrorRpc 400 "PHONE_CODE_EXPIRED") else mret tt.

Definition check_raise_cls (t : Z) (sent_code : option (Z * SentCode)) (code : option pystr) : L (Z * SentCode) :=
  match sent_code with None => raise (ErrorRpc 400 "PHONE_CODE_INVALID") | Some c => check_raise t c code;; mret c end.

(** ** Sending a code *)
Inductive SentCodeType := SentCodeTypeSms | SentCodeTypeApp.
Record TLSentCode := MkTLSentCode { ts_type : SentCodeType; ts_phone_code_hash : code_hash }.

(** [send_official_notification_message]: whether the service message with the code could be sent to a user *)
Context (notify : Z -> Z -> bool).

Definition user_by_phone (phone : pystr) (d : LoginDb C) : option Z :=
  match map_to_list (filter (fun ku => us_phone_number ku.2 = Some phone) (users d)) with [] => None | ku :: _ => Some ku.1 end.

(** [code] and [uuid] are the new code ([randint(1, 99999)]) and UUID. *)
Definition _send_or_resend_code (cx : Ctx) (t code uuid : Z) (phone_number : pystr) (h : option code_hash) : L TLSentCode :=
  phone_number ← lift_result (_validate_phone phone_number);
  d ← get;
  ensure (negb (is_phone_banned phone_number d)) (ErrorRpc 400 "PHONE_NUMBER_BANNED");;
  on_limits (check_send_code_allowed cfg t (cx_ip cx) (Some (cx_auth_key_id cx)));;
  id ← match h with
    | None =>
      d ← get;
      modify (with_codes (<[next_code d := MkCode phone_number code uuid (gen_expires_at t) false SIGNIN]> (codes d)) (next_code d + 1));;
      mret (next_code d)
    | Some h =>
      ensure (negb (is_wrong_size h)) (ErrorRpc 400 "PHONE_CODE_EMPTY");;
      c ← get_code phone_number h None;
      c ← check_raise_cls t c None;
      modify (save_code c.1 (MkCode (sc_phone_number c.2) code uuid (gen_expires_at t) (sc_used c.2) (sc_purpose c.2)));;
      mret c.1
    end;
  on_limits (record_send_code cfg t (cx_ip cx) (Some (cx_auth_key_id cx)));;
  d ← get;
  mret (MkTLSentCode (match user_by_phone phone_number d with Some u => if notify u code then SentCodeTypeApp else SentCodeTypeSms | None => SentCodeTypeSms end)
    (HashOf id uuid)).

Definition send_code (cx : Ctx) (t code uuid : Z) (phone_number : pystr) : L TLSentCode := _send_or_resend_code cx t code uuid phone_number None.
Definition resend_code (cx : Ctx) (t code uuid : Z) (phone_number : pystr) (h : code_hash) : L TLSentCode :=
  _send_or_resend_code cx t code uuid phone_number (Some h).

Definition cancel_code (t : Z) (phone_number : pystr) (h : code_hash) : L bool :=
  phone_number ← lift_result (_validate_phone phone_number);
  ensure (negb (is_wrong_size h)) (ErrorRpc 400 "PHONE_CODE_INVALID");;
  c ← get_code phone_number h None;
  c ← check_raise_cls t c None;
  modify (delete_code c.1);;
  mret true.

(** ** Authorizations *)
Definition auth_by_id (id : Z) (d : LoginDb C) : option (Z * Authorization) :=
  match map_to_list (filter (fun ka => au_id ka.2 = id) (auths (pw d))) with [] => None | ka :: _ => Some ka end.

(** The QR logins of deleted authorizations are deleted with them. *)
Definition keep_auths (keep : Z * Authorization -> bool) (d : LoginDb C) : LoginDb C :=
  let gone (q : QrLogin) : bool := match qr_auth q with
    | Some id => existsb (fun ka => (au_id ka.2 =? id) && negb (keep ka)) (map_to_list (auths (pw d))) | None => false end in
  with_qr (filter (fun kq => gone kq.2 = false) (qr_logins d)) (next_qr d)
    (with_pw (with_auths (filter (fun ka => keep ka = true) (auths (pw d))) (pw d)) (next_auth d) d).
Definition delete_auth_of_key (key : Z) : L unit := modify (keep_auths (fun ka => negb (ka.1 =? key))).

(** A key has one authorization: the database refuses a second one. *)
Definition create_auth (t key user : Z) (mfa_pending : bool) : L Authorization := fun d =>
  match auths (pw d) !! key with
  | Some _ => (Raise IntegrityError, d)
  | None =>
    let a := MkAuth (next_auth d) user mfa_pending t in
    (Ok a, with_pw (with_auths (<[key := a]> (auths (pw d))) (pw d)) (next_auth d + 1) d)
  end.

(** [AuthKey.get(id=...)] *)
Definition get_perm_key (id : option Z) : L Z := fun d =>
  match id with Some k => if bool_decide (is_Some (AuthKey (keys d) !! k)) then (Ok k, d) else (Raise DoesNotExist, d) | None => (Raise DoesNotExist, d) end.

Definition set_pending (key : Z) (pending : bool) (d : LoginDb C) : LoginDb C :=
  match auths (pw d) !! key with
  | Some a => with_pw (with_auths (<[key := MkAuth (au_id a) (au_user a) pending (au_created_at a)]> (auths (pw d))) (pw d)) (next_auth d) d
  | None => d
  end.

(** ** Signing in *)
Inductive AuthAnswer := AuthAuthorization (user : Z) | AuthorizationSignUpRequired.

Record SignIn := MkSignIn { si_phone_number : pystr; si_phone_code_hash : code_hash; si_phone_code : option pystr }.

(** The part up to the code, with the failures recorded *)
Definition sign_in_code (cx : Ctx) (t : Z) (r : SignIn) (phone_number code : pystr) : L (Z * SentCode) :=
  let failed := on_limits (record_sign_in_failure cfg t (cx_ip cx) (Some (cx_auth_key_id cx))) in
  c ← get_code phone_number (si_phone_code_hash r) (Some SIGNIN);
  match c with
  | None => failed;; raise (ErrorRpc 400 "PHONE_CODE_INVALID")
  | Some c =>
    res ← attempt (check_raise t c (Some code));
    match res with
    | Ok _ => mret c
    | Raise (ErrorRpc code message) => failed;; raise (ErrorRpc code message)
    | Raise e => raise e
    end
  end.

Definition sign_in (cx : Ctx) (rnd : Randoms) (t : Z) (r : SignIn) : L AuthAnswer :=
  ensure (negb (is_wrong_size (si_phone_code_hash r))) (ErrorRpc 400 "PHONE_CODE_INVALID");;
  match si_phone_code r with
  | None => raise (ErrorRpc 400 "PHONE_CODE_EMPTY")
  | Some code =>
    phone_number ← lift_result (_validate_phone (si_phone_number r));
    on_limits (check_sign_in_allowed cfg t (cx_ip cx) (Some (cx_auth_key_id cx)));;
    ensure (bool_decide (is_Some (int_ code))) (ErrorRpc 406 "PHONE_CODE_INVALID");;
    c ← sign_in_code cx t r phone_number code;
    modify (save_code c.1 (MkCode (sc_phone_number c.2) (sc_code c.2) (sc_hash c.2) (gen_expires_at t) false SIGNUP));;
    on_limits (clear_sign_in_failures cfg (cx_ip cx) (Some (cx_auth_key_id cx)));;
    d ← get;
    match user_by_phone phone_number d with
    | None => mret AuthorizationSignUpRequired
    | Some user =>
      password ← on_pw (get_or_create_password rnd (int_time t) user);
      key ← get_perm_key (cx_perm_auth_key_id cx);
      delete_auth_of_key key;;
      let pending := bool_decide (is_Some (pw_password password)) in
      create_auth t key user pending;;
      ensure (negb pending) (ErrorRpc 401 "SESSION_PASSWORD_NEEDED");;
      mret (AuthAuthorization user)
    end
  end.

Record SignUp := MkSignUp { su_phone_number : pystr; su_phone_code_hash : code_hash; su_first_name : pystr; su_last_name : option pystr }.

Definition sign_up (cx : Ctx) (t : Z) (r : SignUp) : L AuthAnswer :=
  ensure (negb (is_wrong_size (su_phone_code_hash r))) (ErrorRpc 400 "PHONE_CODE_INVALID");;
  phone_number ← lift_result (_validate_phone (su_phone_number r));
  d ← get;
  ensure (negb (is_phone_banned phone_number d)) (ErrorRpc 400 "PHONE_NUMBER_BANNED");;
  c ← get_code phone_number (su_phone_code_hash r) (Some SIGNUP);
  c ← check_raise_cls t c None;
  modify (save_code c.1 (MkCode (sc_phone_number c.2) (sc_code c.2) (sc_hash c.2) (sc_expires_at c.2) true (sc_purpose c.2)));;
  ensure (bool_decide (user_by_phone phone_number d = None)) (ErrorRpc 400 "PHONE_NUMBER_OCCUPIED");;
  ensure (negb (match su_first_name r with [] => true | _ => false end || (128 <? length (su_first_name r))%nat)) (ErrorRpc 400 "FIRSTNAME_INVALID");;
  ensure (match su_last_name r with Some l => negb (128 <? length l)%nat | None => true end) (ErrorRpc 400 "LASTNAME_INVALID");;
  d ← get;
  let make_admin := negb (existsb (fun ku => us_admin ku.2 && negb (us_deleted ku.2)) (map_to_list (users d))) in
  let user := next_user d in
  modify (with_users (<[user := MkUser (Some phone_number) make_admin false]> (users d)) (user + 1) ({[user]} ∪ initialised d));;
  key ← get_perm_key (cx_perm_auth_key_id cx);
  create_auth t key user false;;
  mret (AuthAuthorization user).

(** [UserAuthorization.get(id=ctx.auth_id)], and with [user_id=ctx.user_id] *)
Definition this_auth (cx : Ctx) : L (Z * Authorization) := fun d =>
  match cx_auth_id cx ≫= fun id => auth_by_id id d with Some ka => (Ok ka, d) | None => (Raise DoesNotExist, d) end.
Definition current_auth (cx : Ctx) : L (Z * Authorization) :=
  ka ← this_auth cx; ensure (bool_decide (cx_user_id cx = Some (au_user ka.2))) DoesNotExist;; mret ka.

Definition check_password (cx : Ctx) (rnd : Randoms) (t user : Z) (check_ : option InputCheckPasswordSRP) : L AuthAnswer :=
  ka ← current_auth cx;
  if negb (au_mfa_pending ka.2) then mret (AuthAuthorization user) else
  password ← on_pw (get_or_create_password rnd (int_time t) user);
  on_pw (check_password_internal rnd (int_time t) user password check_);;
  modify (set_pending ka.1 false);;
  mret (AuthAuthorization user).

Definition log_out (cx : Ctx) : L unit :=
  match cx_perm_auth_key_id cx with Some k => delete_auth_of_key k | None => mret tt end.

(** The keys, temporary ones too, that are told *)
Definition reset_authorizations (cx : Ctx) (t user : Z) : L (list Z) :=
  this ← this_auth cx;
  ensure (negb (t <? au_created_at this.2 + us 86400)) (ErrorRpc 406 "FRESH_RESET_AUTHORISATION_FORBIDDEN");;
  d ← get;
  let other (ka : Z * Authorization) := (au_user ka.2 =? user) && negb (bool_decide (cx_auth_id cx = Some (au_id ka.2))) in
  let perm := fst <$> filter (fun ka => other ka = true) (map_to_list (auths (pw d))) in
  let temp := fst <$> filter (fun kt => match tk_perm_key kt.2 with Some p => bool_decide (p ∈ perm) | None => false end = true) (map_to_list (TempAuthKey (keys d))) in
  modify (keep_auths (fun ka => negb (other ka)));;
  mret (perm ++ temp).

(** A bot's token is split at its colon: the digits before it, if they are digits, and what follows *)
Definition import_bot_authorization (cx : Ctx) (t : Z) (token_parts : list pystr) : L AuthAnswer :=
  match token_parts with
  | [bot_id; token_nonce] =>
    ensure (negb (match bot_id with [] => true | _ => false end) && forallb isdigit bot_id) (ErrorRpc 400 "ACCESS_TOKEN_INVALID");;
    match int_ bot_id with
    | None => raise ValueError
    | Some bot =>
      d ← get;
      ensure (bool_decide (is_Some (users d !! bot)) && bool_decide (bot_tokens d !! bot = Some token_nonce)) (ErrorRpc 400 "ACCESS_TOKEN_INVALID");;
      key ← get_perm_key (cx_perm_auth_key_id cx);
      delete_auth_of_key key;;
      create_auth t key bot false;;
      mret (AuthAuthorization bot)
    end
  | _ => raise (ErrorRpc 400 "ACCESS_TOKEN_INVALID")
  end.

(** ** QR logins *)
Definition EXPIRE_TIME : Z := 30.
Inductive LoginToken := MkLoginToken (expires : Z) (id nonce : Z) | LoginTokenSuccess (user : Z).

Definition export_login_token (cx : Ctx) (t nonce : Z) : L LoginToken := fun d =>
  match cx_auth_id cx with
  | Some id => match auth_by_id id d with
      | Some ka => if au_mfa_pending ka.2 then (Raise (ErrorRpc 401 "SESSION_PASSWORD_NEEDED"), d) else (Ok (LoginTokenSuccess (au_user ka.2)), d)
      | None => (Raise DoesNotExist, d) end
  | None =>
    let live (q : QrLogin) := bool_decide (Some (qr_key q) = cx_perm_auth_key_id cx) &&
      ((t - us EXPIRE_TIME <? qr_created_at q) || bool_decide (is_Some (qr_auth q))) in
    match map_to_list (filter (fun kq => live kq.2 = true) (qr_logins d)) with
    | [] =>
      match get_perm_key (cx_perm_auth_key_id cx) d with
      | (Raise e, d) => (Raise e, d)
      | (Ok k, d) => (Ok (MkLoginToken (int_time t + EXPIRE_TIME) (next_qr d) nonce), with_qr (<[next_qr d := MkQr t k nonce None]> (qr_logins d)) (next_qr d + 1) d)
      end
    | [(id, q)] =>
      match qr_auth q with
      | Some a => match auth_by_id a d with
          | Some ka => if au_mfa_pending ka.2 then (Raise (ErrorRpc 401 "SESSION_PASSWORD_NEEDED"), d) else (Ok (LoginTokenSuccess (au_user ka.2)), d)
          | None => (Ok (MkLoginToken (int_time (qr_created_at q) + EXPIRE_TIME) id (qr_nonce q)), d) end
      | None => (Ok (MkLoginToken (int_time (qr_created_at q) + EXPIRE_TIME) id (qr_nonce q)), d)
      end
    | _ => (Raise RuntimeError, d)
    end
  end.

(** [token]: the id and nonce in the token's 16 bytes, if it has as many. The answer has the keys that are told. *)
Definition accept_login_token (rnd : Randoms) (t user : Z) (token : option (Z * Z)) : L (Authorization * list Z) :=
  d ← get;
  match match token with Some (id, nonce) => match qr_logins d !! id with
      | Some q => if qr_nonce q =? nonce then Some (id, q) else None | None => None end | None => None end with
  | None => raise (ErrorRpc 400 "AUTH_TOKEN_INVALID")
  | Some (id, q) =>
    ensure (negb (bool_decide (is_Some (qr_auth q)))) (ErrorRpc 400 "AUTH_TOKEN_ALREADY_ACCEPTED");;
    ensure (negb (qr_created_at q + us EXPIRE_TIME <? t)) (ErrorRpc 400 "AUTH_TOKEN_EXPIRED");;
    password ← on_pw (get_or_create_password rnd (int_time t) user);
    auth ← create_auth t (qr_key q) user (bool_decide (is_Some (pw_password password)));
    modify (fun d => with_qr (<[id := MkQr (qr_created_at q) (qr_key q) (qr_nonce q) (Some (au_id auth))]> (qr_logins d)) (next_qr d) d);;
    mret (auth, qr_key q :: (fst <$> take 1 (filter (fun kt => tk_perm_key kt.2 = Some (qr_key q)) (map_to_list (TempAuthKey (keys d))))))
  end.

(** ** Binding a temporary key *)
(** What the packet is encrypted for, and how it is decrypted with a key *)
Context (decrypt : bytes -> bytes -> option InnerMessage).

Record BindTempAuthKey := MkBindTemp { bt_perm_auth_key_id : Z; bt_nonce : Z; bt_packet : option (Z * bytes) }.   (* an encrypted packet's key id and data *)

Definition bind_temp_auth_key (cx : Ctx) (t : Z) (r : BindTempAuthKey) : L bool :=
  ensure (negb (bool_decide (Some (cx_auth_key_id cx) = cx_perm_auth_key_id cx))) (ErrorRpc 400 "TEMP_AUTH_KEY_EMPTY");;
  ensure (bool_decide (cx_perm_auth_key_id cx = None)) (ErrorRpc 400 "TEMP_AUTH_KEY_ALREADY_BOUND");;
  d ← get;
  ensure (match TempAuthKey (keys d) !! cx_auth_key_id cx with Some k => int_time t <? tk_expires_at k | None => false end) (ErrorRpc 401 "AUTH_KEY_UNREGISTERED");;
  match bt_packet r with
  | None => raise (ErrorRpc 400 "ENCRYPTED_MESSAGE_INVALID")
  | Some (key_id, data) =>
    ensure (key_id =? bt_perm_auth_key_id r) (ErrorRpc 400 "ENCRYPTED_MESSAGE_INVALID");;
    match AuthKey (keys d) !! key_id with
    | None => raise (ErrorRpc 401 "AUTH_KEY_UNREGISTERED")
    | Some key =>
      let invalid : exn := ErrorRpc 400 "ENCRYPTED_MESSAGE_INVALID" in
      match decrypt (pk_auth_key key) data with
      | None => raise invalid
      | Some m =>
        ensure ((im_seq_no m =? 0) && (im_length m =? 40) && (im_message_id m =? cx_message_id cx)) invalid;;
        match im_obj m with
        | None => raise invalid
        | Some o =>
          ensure ((b_perm_auth_key_id o =? key_id) && (b_nonce o =? bt_nonce r) && (b_temp_session_id o =? cx_session_id cx) &&
            (b_temp_auth_key_id o =? cx_auth_key_id cx)) invalid;;
          modify (fun d => with_keys (MkKeyTables (AuthKey (keys d))
            (filter (fun kt => ~ (tk_perm_key kt.2 = Some key_id /\ kt.1 <> b_temp_auth_key_id o)) (TempAuthKey (keys d)))) d);;
          modify (fun d => with_keys (MkKeyTables (AuthKey (keys d))
            (alter (fun k => MkTempKey (tk_auth_key k) (tk_expires_at k) (Some key_id)) (b_temp_auth_key_id o) (TempAuthKey (keys d)))) d);;
          mret true
        end
      end
    end
  end.
End Login.

(** ** Requests *)
Inductive login_op :=
  | OpSendCode (cx : Ctx) (t code uuid : Z) (phone : pystr)
  | OpResendCode (cx : Ctx) (t code uuid : Z) (phone : pystr) (h : code_hash)
  | OpCancelCode (t : Z) (phone : pystr) (h : code_hash)
  | OpSignIn (cx : Ctx) (rnd : Randoms) (t : Z) (r : SignIn)
  | OpSignUp (cx : Ctx) (t : Z) (r : SignUp)
  | OpCheckPassword (cx : Ctx) (rnd : Randoms) (t user : Z) (check_ : option InputCheckPasswordSRP)
  | OpLogOut (cx : Ctx)
  | OpResetAuthorizations (cx : Ctx) (t user : Z)
  | OpImportBot (cx : Ctx) (t : Z) (token_parts : list pystr)
  | OpExportToken (cx : Ctx) (t nonce : Z)
  | OpAcceptToken (rnd : Randoms) (t user : Z) (token : option (Z * Z))
  | OpBindTempKey (cx : Ctx) (t : Z) (r : BindTempAuthKey).

Section Facts.
Context {C : Type} {TC : TtlCache C} {CR : Crypto} (cfg : AuthRateLimit) (isdigit : Z -> bool) (int_ : pystr -> option Z)
  (notify : Z -> Z -> bool) (decrypt : bytes -> bytes -> option InnerMessage).
Abbreviation L := (M (LoginDb C)).

Definition run_op (o : login_op) : L unit :=
  match o with
  | OpSendCode cx t code uuid phone => send_code cfg isdigit int_ notify cx t code uuid phone;; mret tt
  | OpResendCode cx t code uuid phone h => resend_code cfg isdigit int_ notify cx t code uuid phone h;; mret tt
  | OpCancelCode t phone h => cancel_code isdigit int_ t phone h;; mret tt
  | OpSignIn cx rnd t r => sign_in cfg isdigit int_ cx rnd t r;; mret tt
  | OpSignUp cx t r => sign_up isdigit int_ cx t r;; mret tt
  | OpCheckPassword cx rnd t user c => check_password cx rnd t user c;; mret tt
  | OpLogOut cx => log_out cx
  | OpResetAuthorizations cx t user => reset_authorizations cx t user;; mret tt
  | OpImportBot cx t parts => import_bot_authorization isdigit int_ cx t parts;; mret tt
  | OpExportToken cx t nonce => export_login_token cx t nonce;; mret tt
  | OpAcceptToken rnd t user token => accept_login_token rnd t user token;; mret tt
  | OpBindTempKey cx t r => bind_temp_auth_key decrypt cx t r;; mret tt
  end.

(** A key with an authorization that is not waiting for a password *)
Definition logged_in (d : LoginDb C) (key user : Z) : Prop :=
  exists a, auths (pw d) !! key = Some a /\ au_user a = user /\ au_mfa_pending a = false.
Definition has_password (d : LoginDb C) (user : Z) : Prop := exists p v, passwords (pw d) !! user = Some p /\ pw_password p = Some v.

(** A code that is in the table, for a purpose, with what a request says of it *)
Definition good_code (d : LoginDb C) (t : Z) (h : code_hash) (phone : pystr) (purpose : PhoneCodePurpose) (c : SentCode) : Prop :=
  exists id, h = HashOf id (sc_hash c) /\ codes d !! id = Some c /\ sc_phone_number c = phone /\ sc_used c = false /\ sc_purpose c = purpose /\
    t <= us (sc_expires_at c).

(** What must be so for a request to log a key in *)
Definition justified (o : login_op) (d : LoginDb C) (key user : Z) : Prop :=
  match o with
  | OpSignIn cx _ t r => cx_perm_auth_key_id cx = Some key /\ ~ has_password d user /\ exists phone code c,
      _validate_phone isdigit int_ (si_phone_number r) = Ok phone /\ si_phone_code r = Some code /\
      good_code d t (si_phone_code_hash r) phone SIGNIN c /\ int_ code = Some (sc_code c) /\ exists u, users d !! user = Some u /\ us_phone_number u = Some phone
  | OpSignUp cx t r => cx_perm_auth_key_id cx = Some key /\ user = next_user d /\ exists phone c,
      _validate_phone isdigit int_ (su_phone_number r) = Ok phone /\ good_code d t (su_phone_code_hash r) phone SIGNUP c /\
      (phone ∉ blocked_phones d) /\ forall u row, users d !! u = Some row -> us_phone_number row <> Some phone
  | OpCheckPassword cx rnd t u c => cx_user_id cx = Some user /\ exists a, auths (pw d) !! key = Some a /\ au_user a = user /\ cx_auth_id cx = Some (au_id a) /\
      exists p p1 p2, get_or_create_password rnd (int_time t) u (pw d) = (Ok p, p1) /\ check_password_internal rnd (int_time t) u p c p1 = (Ok tt, p2)
  | OpImportBot cx _ parts => cx_perm_auth_key_id cx = Some key /\ exists bot token, parts = [bot; token] /\ int_ bot = Some user /\ bot_tokens d !! user = Some token
  | OpAcceptToken _ t u token => user = u /\ ~ has_password d user /\ exists id q, token = Some (id, qr_nonce q) /\ qr_logins d !! id = Some q /\
      qr_key q = key /\ qr_auth q = None /\ t <= qr_created_at q + us EXPIRE_TIME
  | _ => False
  end.

(** *** What leaves the authorizations alone *)
Abbreviation keeps_auths a := (preserves (fun d : LoginDb C => auths (pw d) = a)).
Lemma keeps_on_limits {A} a (m : M C A) : keeps_auths a (on_limits m).
Proof. intros d Hd. unfold on_limits. by destruct (m (limits d)). Qed.
Lemma keeps_get_code a n h p : keeps_auths a (get_code n h p).
Proof. intros d Hd. by destruct h. Qed.
Lemma keeps_modify a f : (forall d : LoginDb C, auths (pw (f d)) = auths (pw d)) -> keeps_auths a (modify f).
Proof. intros Hf d Hd. cbn. by rewrite Hf. Qed.
Lemma keeps_check_raise a t c code : keeps_auths a (check_raise int_ t c code).
Proof.
  apply preserves_bind.
  - destruct code as [s|]; [destruct (int_ s); [apply preserves_ensure|apply preserves_raise]|apply preserves_ret].
  - intros _. destruct (_ <? t); [|apply preserves_ret]. apply preserves_bind; [by apply keeps_modify|intros _; apply preserves_raise].
Qed.
Lemma keeps_check_raise_cls a t c code : keeps_auths a (check_raise_cls int_ t c code).
Proof. destruct c; [|apply preserves_raise]. apply preserves_bind; [apply keeps_check_raise|intros _; apply preserves_ret]. Qed.

(** A part of a request that keeps the authorizations *)
Ltac keeps := repeat first
  [ apply preserves_ret | apply preserves_raise | apply preserves_lift | apply preserves_gets | apply preserves_ensure | apply keeps_on_limits
  | apply keeps_get_code | apply keeps_check_raise | apply keeps_check_raise_cls | apply keeps_modify; reflexivity
  | apply preserves_bind; [|intros ?] | by intros ?d ?Hd | case_match ].

Lemma keeps_send a cx t code uuid phone h : keeps_auths a (_send_or_resend_code cfg isdigit int_ notify cx t code uuid phone h).
Proof. unfold _send_or_resend_code. keeps. Qed.
Lemma keeps_cancel a t phone h : keeps_auths a (cancel_code isdigit int_ t phone h).
Proof. unfold cancel_code. keeps. Qed.
Lemma keeps_export a cx t nonce : keeps_auths a (export_login_token cx t nonce).
Proof. intros d Hd. unfold export_login_token, get_perm_key. repeat case_match; simplify_eq/=; done. Qed.
Lemma keeps_bind a cx t r : keeps_auths a (bind_temp_auth_key decrypt cx t r).
Proof. unfold bind_temp_auth_key. keeps. Qed.
Lemma keeps_password a rnd now user : keeps_auths a (on_pw (get_or_create_password rnd now user)).
Proof. intros d Hd. unfold on_pw, get_or_create_password. by destruct (passwords (pw d) !! user). Qed.
Lemma keeps_check a rnd now user p c : keeps_auths a (on_pw (check_password_internal rnd now user p c)).
Proof.
  assert (preserves (fun q => auths q = a) (check_password_internal rnd now user p c)) as Hp.
  { unfold check_password_internal. destruct (pw_password p) as [v|]; [|apply preserves_ret]. destruct c as [[]|]; try apply preserves_raise.
    apply preserves_bind.
    - intros q Hq. unfold get_session. by destruct (map_to_list _) as [|? []].
    - intros sess. apply preserves_bind; [apply preserves_ensure|intros _]. destruct gen_safe_prime. apply preserves_bind; [apply preserves_lift|intros B].
      apply preserves_bind; [apply preserves_lift|intros M2]. apply preserves_ensure. }
  intros d Hd. specialize (Hp (pw d) Hd). unfold on_pw. by destruct (check_password_internal _ _ _ _ _ (pw d)).
Qed.

(** Deleting never logs in. *)
Lemma keep_auths_logged keep (d : LoginDb C) key user : logged_in (keep_auths keep d) key user -> logged_in d key user.
Proof. intros (a & Ha & ?). cbn in Ha. apply map_lookup_filter_Some in Ha as [Ha _]. by exists a. Qed.

(** Reading a code finds one that is in the table. *)
Lemma get_code_found n h p (d : LoginDb C) id c d' : get_code n h (Some p) d = (Ok (Some (id, c)), d') ->
  d' = d /\ h = HashOf id (sc_hash c) /\ codes d !! id = Some c /\ sc_phone_number c = n /\ sc_used c = false /\ sc_purpose c = p.
Proof.
  destruct h as [| |i uuid]; [done..|]. cbn. destruct (codes d !! i) as [c0|] eqn:E; [|done]. destruct (_ && _) eqn:Eb; [|done].
  intros [= -> -> ->]. b2p. by subst.
Qed.
Lemma get_code_same n h p (d : LoginDb C) r d' : get_code n h p d = (r, d') -> d' = d.
Proof. destruct h; intros [= _ <-]; done. Qed.

Lemma check_raise_found t c code (d d' : LoginDb C) : check_raise int_ t c code d = (Ok tt, d') ->
  d' = d /\ t <= us (sc_expires_at c.2) /\ forall s, code = Some s -> int_ s = Some (sc_code c.2).
Proof.
  unfold check_raise. intros [(e & _ & ?)|([] & d1 & E1 & E2)]%M_bind_cases; [done|].
  destruct (us _ <? t) eqn:Et; [done|]. injection E2 as <-. b2p. split_and!; [|done|].
  - destruct code as [s|]; [|by injection E1]. destruct (int_ s) as [n|]; [|done]. unfold ensure in E1. destruct (_ =? n); [by injection E1|done].
  - intros s ->. destruct (int_ s) as [n|]; [|done]. unfold ensure in E1. destruct (_ =? n) eqn:En; [|done]. b2p. by subst.
Qed.

Lemma user_by_phone_found phone (d : LoginDb C) u : user_by_phone phone d = Some u -> exists row, users d !! u = Some row /\ us_phone_number row = Some phone.
Proof.
  unfold user_by_phone. destruct (map_to_list _) as [|[k row] l] eqn:E; [done|]. intros [= <-].
  assert ((k, row) ∈ map_to_list (filter (fun ku => us_phone_number ku.2 = Some phone) (users d))) as H by (rewrite E; apply list_elem_of_here).
  apply elem_of_map_to_list, map_lookup_filter_Some in H. by exists row.
Qed.
Lemma user_by_phone_none phone (d : LoginDb C) : user_by_phone phone d = None -> forall u row, users d !! u = Some row -> us_phone_number row <> Some phone.
Proof.
  unfold user_by_phone. destruct (map_to_list _) as [|ku l] eqn:E; [|done]. intros _ u row Hu Hp.
  assert ((u, row) ∈ map_to_list (filter (fun ku => us_phone_number ku.2 = Some phone) (users d))) as H by (by apply elem_of_map_to_list, map_lookup_filter_Some).
  rewrite E in H. by apply elem_of_nil in H.
Qed.

Lemma create_auth_cases t key user pending (d : LoginDb C) r d' : create_auth t key user pending d = (r, d') ->
  (d' = d /\ exists e, r = Raise e) \/ (exists a, r = Ok a /\ au_user a = user /\ au_mfa_pending a = pending /\ au_id a = next_auth d /\ auths (pw d) !! key = None /\
    d' = with_pw (with_auths (<[key := a]> (auths (pw d))) (pw d)) (next_auth d + 1) d).
Proof.
  unfold create_auth. destruct (auths (pw d) !! key) as [a0|]; intros [= <- <-]; [left; split; [done|by eexists]|].
  right. eexists. split; [done|]. by split_and!.
Qed.
Lemma create_auth_logged t key user pending (d : LoginDb C) r d' k u : create_auth t key user pending d = (r, d') -> logged_in d' k u -> ~ logged_in d k u ->
  k = key /\ u = user /\ pending = false.
Proof.
  intros [[-> _]|(a & _ & Hu & Hp & _ & _ & ->)]%create_auth_cases; [done|]. intros (a' & Ha' & Hu' & Hp') Hn. cbn in Ha'.
  apply lookup_insert_Some in Ha' as [[<- <-]|[_ Ha']]; [by subst|]. destruct Hn. by exists a'.
Qed.
Lemma logged_same (d d' : LoginDb C) k u : auths (pw d') = auths (pw d) -> logged_in d' k u -> logged_in d k u.
Proof. intros Ha (a & H & ?). rewrite Ha in H. by exists a. Qed.

Lemma on_limits_run {A} (m : M C A) (d : LoginDb C) : on_limits m d = ((m (limits d)).1, with_limits (m (limits d)).2 d).
Proof. unfold on_limits. by destruct (m (limits d)). Qed.

(** The row of a password, made when there is none *)
Lemma on_pw_password rnd now user (d : LoginDb C) : exists p q, on_pw (get_or_create_password rnd now user) d = (Ok p, with_pw q (next_auth d) d) /\
  auths q = auths (pw d) /\ get_or_create_password rnd now user (pw d) = (Ok p, q) /\ (pw_password p = None <-> ~ has_password d user).
Proof.
  unfold on_pw, get_or_create_password. destruct (passwords (pw d) !! user) as [p|] eqn:E; eexists _, _; (split; [reflexivity|]); cbn; (split; [done|]); (split; [done|]).
  - split; [intros Hn (p' & v & Hp & Hv); congruence|]. intros Hn. destruct (pw_password p) as [v|] eqn:Ev; [|done]. destruct Hn. by exists p, v.
  - split; [|done]. intros _ (p' & v & Hp & _). congruence.
Qed.

Lemma get_perm_key_cases id (d : LoginDb C) r d' : get_perm_key id d = (r, d') -> d' = d /\ forall k, r = Ok k -> id = Some k.
Proof.
  unfold get_perm_key. destruct id as [k|]; [|by intros [= <- <-]]. destruct (bool_decide _); intros [= <- <-]; (split; [done|]); [by intros k' [= <-]|done].
Qed.

Lemma sign_in_code_cases cx t r phone code (d : LoginDb C) res d' : sign_in_code cfg int_ cx t r phone code d = (res, d') ->
  match res with
  | Ok c => d' = d /\ good_code d t (si_phone_code_hash r) phone SIGNIN c.2 /\ si_phone_code_hash r = HashOf c.1 (sc_hash c.2) /\ codes d !! c.1 = Some c.2 /\
      int_ code = Some (sc_code c.2)
  | Raise _ => auths (pw d') = auths (pw d)
  end.
Proof.
  intros E. assert (auths (pw d') = auths (pw d)) as Hkeep.
  { assert (keeps_auths (auths (pw d)) (sign_in_code cfg int_ cx t r phone code)) as H.
    { unfold sign_in_code. keeps. apply preserves_attempt. keeps. } specialize (H d eq_refl). by rewrite E in H. }
  destruct res as [c|e]; [|done]. clear Hkeep. unfold sign_in_code in E.
  apply M_bind_cases in E as [(e & _ & ?)|(c0 & d1 & E1 & E2)]; [done|]. destruct c0 as [[id c0]|].
  2: { apply M_bind_cases in E2 as [(? & _ & ?)|(? & ? & _ & ?)]; done. }
  apply get_code_found in E1 as (-> & Hh & Hc & Hn & Hu & Hp).
  apply M_bind_cases in E2 as [(e & _ & ?)|(res & d2 & E2 & E3)]; [done|]. unfold attempt in E2.
  destruct (check_raise int_ t (id, c0) (Some code) d) as [[[]|e] d3] eqn:E4; injection E2 as <- <-.
  - injection E3 as <- <-. apply check_raise_found in E4 as (-> & Ht & Hcode). cbn in *. split; [done|]. split; [exists id; by split_and!|]. split_and!; auto.
  - destruct e; try done. apply M_bind_cases in E3 as [(? & _ & ?)|(? & ? & _ & ?)]; done.
Qed.

Lemma sign_in_logged cx rnd t r (d : LoginDb C) res d' k u : sign_in cfg isdigit int_ cx rnd t r d = (res, d') -> logged_in d' k u -> ~ logged_in d k u ->
  justified (OpSignIn cx rnd t r) d k u.
Proof.
  intros E Hl Hn. unfold sign_in in E. rewrite ensure_bind in E. destruct (negb _); [|by injection E as <- <-].
  destruct (si_phone_code r) as [code|] eqn:Ecode; [|by injection E as <- <-].
  destruct (_validate_phone isdigit int_ (si_phone_number r)) as [phone|e] eqn:Ephone; [rewrite lift_step in E|by injection E as <- <-].
  unfold mbind at 1, M_bind at 1 in E. rewrite on_limits_run in E.
  destruct (check_sign_in_allowed _ _ _ _ (limits d)) as [[[]|e] c1]; cbn [fst snd] in E; [|by injection E as <- <-].
  rewrite ensure_bind in E. destruct (bool_decide _); [|by injection E as <- <-].
  apply M_bind_cases in E as [(e & E & ->)|(c & d1 & E1 & E)]; [apply sign_in_code_cases in E; by apply (logged_same (with_limits c1 d)) in Hl|].
  apply sign_in_code_cases in E1 as (-> & Hgood & _ & _ & Hcode).
  unfold modify in E. unfold mbind at 1, M_bind at 1 in E. unfold mbind at 1, M_bind at 1 in E. rewrite on_limits_run in E.
  destruct (clear_sign_in_failures _ _ _ _) as [[[]|e] c2]; cbn [fst snd] in E; [|by injection E as <- <-]. rewrite get_bind in E.
  set (d2 := with_limits c2 _) in E. destruct (user_by_phone phone d2) as [user|] eqn:Euser; [|by injection E as <- <-].
  apply user_by_phone_found in Euser. change (users d2) with (users d) in Euser.
  destruct (on_pw_password rnd (int_time t) user d2) as (p & q & Ep & Hq & _ & Hp). unfold mbind at 1, M_bind at 1 in E. rewrite Ep in E.
  apply M_bind_cases in E as [(e & E & ->)|(key & d3 & E3 & E)].
  { apply get_perm_key_cases in E as [-> _]. apply (logged_same d) in Hl; [done|exact Hq]. }
  apply get_perm_key_cases in E3 as [-> Hkey]. unfold delete_auth_of_key, modify in E. unfold mbind at 1, M_bind at 1 in E.
  apply M_bind_cases in E as [(e & E & ->)|(a & d4 & E4 & E)].
  { apply create_auth_cases in E as [[-> _]|(? & ? & _)]; [|done]. apply keep_auths_logged in Hl. apply (logged_same d) in Hl; [done|exact Hq]. }
  assert (d' = d4) as ->. { rewrite ensure_bind in E. destruct (negb _); by injection E as <- <-. }
  destruct (create_auth_logged _ _ _ _ _ _ _ _ _ E4 Hl) as (-> & -> & Hpend).
  { intros Hl0. apply keep_auths_logged in Hl0. apply (logged_same d) in Hl0; [done|exact Hq]. }
  split; [by apply Hkey|]. split.
  - change (has_password d user) with (has_password d2 user). apply Hp. apply bool_decide_eq_false in Hpend. by destruct (pw_password p); [destruct Hpend|].
  - exists phone, code, c.2. split_and!; try done.
Qed.

Lemma sign_up_logged cx t r (d : LoginDb C) res d' k u : sign_up isdigit int_ cx t r d = (res, d') -> logged_in d' k u -> ~ logged_in d k u ->
  justified (OpSignUp cx t r) d k u.
Proof.
  intros E Hl Hn. unfold sign_up in E. rewrite ensure_bind in E. destruct (negb _); [|by injection E as <- <-].
  destruct (_validate_phone isdigit int_ (su_phone_number r)) as [phone|e] eqn:Ephone; [rewrite lift_step in E|by injection E as <- <-].
  rewrite get_bind, ensure_bind in E. destruct (negb (is_phone_banned phone d)) eqn:Eban; [|by injection E as <- <-].
  apply M_bind_cases in E as [(e & E & ->)|(c & d1 & E1 & E)]; [apply get_code_same in E; by subst|].
  apply M_bind_cases in E as [(e & E & ->)|(c' & d2 & E2 & E)].
  { pose proof (get_code_same _ _ _ _ _ _ E1) as ->. pose proof (keeps_check_raise_cls (auths (pw d)) t c None d eq_refl) as H. rewrite E in H. by apply (logged_same d) in Hl. }
  destruct c as [[id c]|]; [|done]. apply get_code_found in E1 as (-> & Hh & Hc & Hph & Hu & Hp).
  apply M_bind_cases in E2 as [(e & _ & ?)|([] & d3 & E2 & E3)]; [done|]. apply check_raise_found in E2 as (-> & Ht & _). injection E3 as <- <-. cbn in Ht.
  unfold modify in E. unfold mbind at 1, M_bind at 1 in E. rewrite !ensure_bind in E.
  destruct (bool_decide (user_by_phone phone d = None)) eqn:Enone; [|injection E as <- <-; by apply (logged_same d) in Hl]. apply bool_decide_eq_true in Enone.
  if_in E; [|injection E as <- <-; by apply (logged_same d) in Hl]. if_in E; [|injection E as <- <-; by apply (logged_same d) in Hl].
  rewrite get_bind in E. cbv zeta in E. unfold mbind at 1, M_bind at 1 in E.
  apply M_bind_cases in E as [(e & E & ->)|(key & d3 & E3 & E)]; [apply get_perm_key_cases in E as [-> _]; by apply (logged_same d) in Hl|].
  apply get_perm_key_cases in E3 as [-> Hkey].
  apply M_bind_cases in E as [(e & E & ->)|(a & d4 & E4 & E)].
  { apply create_auth_cases in E as [[-> _]|(? & ? & _)]; [|done]. by apply (logged_same d) in Hl. }
  injection E as <- <-. destruct (create_auth_logged _ _ _ _ _ _ _ _ _ E4 Hl) as (-> & -> & _); [intros Hl0; by apply (logged_same d) in Hl0|].
  split; [by apply Hkey|]. split; [done|]. exists phone, c. split; [done|]. split; [exists id; by split_and!|]. split; [|by apply user_by_phone_none].
  unfold is_phone_banned in Eban. b2p. done.
Qed.

Lemma auth_by_id_found id (d : LoginDb C) k a : auth_by_id id d = Some (k, a) -> auths (pw d) !! k = Some a /\ au_id a = id.
Proof.
  unfold auth_by_id. destruct (map_to_list _) as [|[k0 a0] l] eqn:E; [done|]. intros [= -> ->].
  assert ((k, a) ∈ map_to_list (filter (fun ka => au_id ka.2 = id) (auths (pw d)))) as H by (rewrite E; apply list_elem_of_here).
  by apply elem_of_map_to_list, map_lookup_filter_Some in H.
Qed.
Lemma this_auth_cases cx (d : LoginDb C) r d' : this_auth cx d = (r, d') -> d' = d /\ forall ka, r = Ok ka -> auths (pw d) !! ka.1 = Some ka.2 /\ cx_auth_id cx = Some (au_id ka.2).
Proof.
  unfold this_auth. destruct (cx_auth_id cx) as [id|]; [|by intros [= <- <-]]. cbn [mbind option_bind]. destruct (auth_by_id id d) as [[k a]|] eqn:E; intros [= <- <-]; (split; [done|]); [|done].
  intros ka [= <-]. apply auth_by_id_found in E as [? <-]. done.
Qed.

Lemma check_password_logged cx rnd t user c (d : LoginDb C) res d' k u : check_password cx rnd t user c d = (res, d') -> logged_in d' k u -> ~ logged_in d k u ->
  justified (OpCheckPassword cx rnd t user c) d k u.
Proof.
  intros E Hl Hn. unfold check_password in E.
  apply M_bind_cases in E as [(e & E & ->)|(ka & d1 & E1 & E)].
  { unfold current_auth in E. apply M_bind_cases in E as [(? & E & _)|(ka & d1 & E1 & E)]; [apply this_auth_cases in E as [-> _]; done|].
    apply this_auth_cases in E1 as [-> _]. rewrite ensure_bind in E. if_in E; by simplify_eq. }
  unfold current_auth in E1. apply M_bind_cases in E1 as [(? & _ & ?)|(ka' & d2 & E1 & E2)]; [done|]. apply this_auth_cases in E1 as [-> Hka].
  rewrite ensure_bind in E2. if_in_as E2 Eu; [|done]. injection E2 as -> <-. destruct (Hka ka eq_refl) as [Ha Hid]. b2p.
  destruct (negb (au_mfa_pending ka.2)); [by injection E as <- <-|].
  destruct (on_pw_password rnd (int_time t) user d) as (p & q & Ep & Hq & Egc & _). unfold mbind at 1, M_bind at 1 in E. rewrite Ep in E.
  set (dp := with_pw q (next_auth d) d) in E.
  apply M_bind_cases in E as [(e & E & ->)|([] & d3 & E3 & E)].
  { pose proof (keeps_check (auths (pw d)) rnd (int_time t) user p c dp Hq) as H. rewrite E in H. by apply (logged_same d) in Hl. }
  pose proof (keeps_check (auths (pw d)) rnd (int_time t) user p c dp Hq) as H. rewrite E3 in H. cbn in H. injection E as <- <-.
  assert (k = ka.1 /\ u = au_user ka.2) as [-> ->].
  { unfold set_pending in Hl. rewrite H, Ha in Hl. destruct Hl as (a & Hl & Hu & Hp). cbn in Hl.
    apply lookup_insert_Some in Hl as [[<- <-]|[_ Hl]]; [done|]. destruct Hn. by exists a. }
  split; [done|]. exists ka.2. split_and!; try done. exists p, q. unfold on_pw in E3.
  destruct (check_password_internal rnd (int_time t) user p c (pw dp)) as [r2 q2] eqn:Ec. injection E3 as -> _. exists q2. by split.
Qed.

Lemma import_logged cx t parts (d : LoginDb C) res d' k u : import_bot_authorization isdigit int_ cx t parts d = (res, d') -> logged_in d' k u -> ~ logged_in d k u ->
  justified (OpImportBot cx t parts) d k u.
Proof.
  intros E Hl Hn. unfold import_bot_authorization in E. destruct parts as [|b [|token [|]]]; try by injection E as <- <-.
  rewrite ensure_bind in E. destruct (_ && _); [|by injection E as <- <-]. destruct (int_ b) as [bot|] eqn:Ebot; [|by injection E as <- <-].
  rewrite get_bind, ensure_bind in E. destruct (_ && _) eqn:Etok; [|by injection E as <- <-]. b2p.
  apply M_bind_cases in E as [(e & E & ->)|(key & d3 & E3 & E)]; [by apply get_perm_key_cases in E as [-> _]|].
  apply get_perm_key_cases in E3 as [-> Hkey]. unfold delete_auth_of_key, modify in E. unfold mbind at 1, M_bind at 1 in E.
  apply M_bind_cases in E as [(e & E & ->)|(a & d4 & E4 & E)].
  { apply create_auth_cases in E as [[-> _]|(? & ? & _)]; [|done]. by apply keep_auths_logged in Hl. }
  injection E as <- <-. destruct (create_auth_logged _ _ _ _ _ _ _ _ _ E4 Hl) as (-> & -> & _); [by intros ?%keep_auths_logged|].
  split; [by apply Hkey|]. by exists b, token.
Qed.

Lemma accept_logged rnd t user token (d : LoginDb C) res d' k u : accept_login_token rnd t user token d = (res, d') -> logged_in d' k u -> ~ logged_in d k u ->
  justified (OpAcceptToken rnd t user token) d k u.
Proof.
  intros E Hl Hn. unfold accept_login_token in E. rewrite get_bind in E.
  destruct token as [[id nonce]|]; [|by injection E as <- <-]. destruct (qr_logins d !! id) as [q|] eqn:Eq; [|by injection E as <- <-].
  destruct (qr_nonce q =? nonce) eqn:Enon; [|by injection E as <- <-]. b2p. rewrite !ensure_bind in E.
  if_in_as E Eacc; [|by injection E as <- <-]. if_in_as E Eexp; [|by injection E as <- <-]. b2p.
  destruct (on_pw_password rnd (int_time t) user d) as (p & pq & Ep & Hq & _ & Hp). unfold mbind at 1, M_bind at 1 in E. rewrite Ep in E.
  apply M_bind_cases in E as [(e & E & ->)|(a & d4 & E4 & E)].
  { apply create_auth_cases in E as [[-> _]|(? & ? & _)]; [|done]. by apply (logged_same d) in Hl. }
  injection E as <- <-. apply (logged_same d4) in Hl; [|done].
  destruct (create_auth_logged _ _ _ _ _ _ _ _ _ E4 Hl) as (-> & -> & Hpend); [intros Hl0; by apply (logged_same d) in Hl0|].
  apply bool_decide_eq_false in Hpend. split; [done|]. split; [apply Hp; by destruct (pw_password p); [destruct Hpend|]|].
  exists id, q. split; [by subst|]. split; [done|]. split; [done|]. split; [|lia]. by destruct (qr_auth q); [destruct Eacc|].
Qed.

Lemma tail_run {A} (m : L A) (d : LoginDb C) r d' : (m ;; mret tt) d = (r, d') -> exists r0, m d = (r0, d').
Proof. unfold mbind, M_bind. destruct (m d) as [[a|e] d1]; intros [= _ <-]; by eexists. Qed.

Lemma reset_logged cx t user (d : LoginDb C) res d' k u : reset_authorizations cx t user d = (res, d') -> logged_in d' k u -> logged_in d k u.
Proof.
  intros E Hl. unfold reset_authorizations in E.
  apply M_bind_cases in E as [(e & E & ->)|(ka & d1 & E1 & E)]; [by apply this_auth_cases in E as [-> _]|]. apply this_auth_cases in E1 as [-> _].
  rewrite ensure_bind in E. if_in E; [|by injection E as <- <-]. rewrite get_bind in E. injection E as <- <-. by apply keep_auths_logged in Hl.
Qed.

(** C11: nobody is logged in without cause. Whatever request is made in whatever state: if afterwards a key is logged in for a user for whom it
    was not before, then the request was a sign-in with the key, with an unused, unexpired code that had been sent to the user's number, for a
    user without a password; or a sign-up with a code already verified for a number that is not banned and of no user, for the new user; or a
    check of the password of a login that waited for it, and the check passed; or the import of a bot with its token; or the user, who has no
    password, accepted the live QR token of that key. *)
Theorem login_justified o d res d' key user : run_op o d = (res, d') -> logged_in d' key user -> ~ logged_in d key user -> justified o d key user.
Proof.
  intros E Hl Hn.
  destruct o; cbn [run_op] in E; try apply tail_run in E as [r0 E];
    try (exfalso; match type of E with ?m d = _ => specialize (fun H : keeps_auths (auths (pw d)) m => H d eq_refl) as Hm end; rewrite E in Hm; apply Hn;
      apply (logged_same d d'); [apply Hm; first [apply keeps_send|apply keeps_cancel|apply keeps_export|apply keeps_bind]|done]).
  - by eapply sign_in_logged.
  - by eapply sign_up_logged.
  - by eapply check_password_logged.
  - exfalso. unfold log_out in E. destruct (cx_perm_auth_key_id cx) as [k|]; [|by injection E as <- <-]. injection E as <- <-. by apply keep_auths_logged in Hl.
  - exfalso. by apply (reset_logged _ _ _ _ _ _ _ _ E) in Hl.
  - by eapply import_logged.
  - by eapply accept_logged.
Qed.

(** *** The tables stay consistent *)
Record login_ok (d : LoginDb C) : Prop := {
  lo_auth_ids k k' a a' : auths (pw d) !! k = Some a -> auths (pw d) !! k' = Some a' -> au_id a = au_id a' -> k = k';
  lo_auth_fresh k a : auths (pw d) !! k = Some a -> au_id a < next_auth d;
  lo_users u row : users d !! u = Some row -> u < next_user d;
  lo_phones u u' row row' phone : users d !! u = Some row -> users d !! u' = Some row' -> us_phone_number row = Some phone ->
    us_phone_number row' = Some phone -> u = u';
  lo_qr id q a : qr_logins d !! id = Some q -> qr_auth q = Some a -> exists au, auths (pw d) !! qr_key q = Some au /\ au_id au = a;
  lo_temp k k' t t' p : TempAuthKey (keys d) !! k = Some t -> TempAuthKey (keys d) !! k' = Some t' -> tk_perm_key t = Some p -> tk_perm_key t' = Some p -> k = k' }.

(** The tables that the invariant is about *)
Definition lo_same (d d' : LoginDb C) : Prop := auths (pw d') = auths (pw d) /\ next_auth d' = next_auth d /\ users d' = users d /\ next_user d' = next_user d /\
  qr_logins d' = qr_logins d /\ keys d' = keys d.
Lemma login_ok_same d d' : lo_same d d' -> login_ok d -> login_ok d'.
Proof. intros (H1 & H2 & H3 & H4 & H5 & H6) [L1 L2 L3 L4 L5 L6]. split; rewrite ?H1, ?H2, ?H3, ?H4, ?H5, ?H6; auto. Qed.
Lemma same_step {A} (m : L A) d r d' : (preserves (lo_same d) m) -> m d = (r, d') -> lo_same d d'.
Proof. intros Hm E. assert (lo_same d d) as H by done. specialize (Hm d H). by rewrite E in Hm. Qed.

Lemma same_frame d0 d d' : lo_same d d' -> lo_same d0 d -> lo_same d0 d'.
Proof. intros (?&?&?&?&?&?) (?&?&?&?&?&?). split_and!; congruence. Qed.
Lemma same_on_limits {A} d0 (m : M C A) : preserves (lo_same d0) (on_limits m).
Proof. intros d. unfold on_limits. destruct (m (limits d)) as [r c]. by apply same_frame. Qed.
Lemma same_modify d0 f : (forall d, lo_same d (f d)) -> preserves (lo_same d0) (modify f).
Proof. intros Hf d. by apply same_frame. Qed.
Lemma same_get_code d0 n h p : preserves (lo_same d0) (get_code n h p).
Proof. intros d Hd. by destruct h. Qed.
Lemma same_check_raise d0 t c code : preserves (lo_same d0) (check_raise int_ t c code).
Proof.
  apply preserves_bind.
  - destruct code as [s|]; [destruct (int_ s); [apply preserves_ensure|apply preserves_raise]|apply preserves_ret].
  - intros _. destruct (_ <? t); [|apply preserves_ret]. apply preserves_bind; [by apply same_modify|intros _; apply preserves_raise].
Qed.
Lemma same_check_raise_cls d0 t c code : preserves (lo_same d0) (check_raise_cls int_ t c code).
Proof. destruct c; [|apply preserves_raise]. apply preserves_bind; [apply same_check_raise|intros _; apply preserves_ret]. Qed.
Lemma same_perm_key d0 k : preserves (lo_same d0) (get_perm_key k).
Proof. intros d. unfold get_perm_key. destruct k; [destruct (bool_decide _)|]; done. Qed.
Lemma same_password d0 rnd now user : preserves (lo_same d0) (on_pw (get_or_create_password rnd now user)).
Proof. intros d Hd. destruct (on_pw_password rnd now user d) as (p & q & -> & Hq & _). by apply (same_frame d0 d). Qed.
Lemma same_check d0 rnd now user p c : preserves (lo_same d0) (on_pw (check_password_internal rnd now user p c)).
Proof.
  intros d Hd. apply (same_frame d0 d); [|done]. pose proof (keeps_check (auths (pw d)) rnd now user p c d eq_refl) as H.
  unfold on_pw in *. destruct (check_password_internal rnd now user p c (pw d)). by split_and!.
Qed.

Ltac same := repeat first
  [ apply preserves_ret | apply preserves_raise | apply preserves_lift | apply preserves_gets | apply preserves_ensure | apply same_on_limits
  | apply same_get_code | apply same_check_raise | apply same_check_raise_cls | apply same_perm_key | apply same_password | apply same_check
  | apply same_modify; (intros; by split_and!) | apply preserves_attempt | apply preserves_bind; [|intros ?] | by intros ?d ?Hd | case_match ].

Lemma ok_keep keep d : login_ok d -> login_ok (keep_auths keep d).
Proof.
  intros [L1 L2 L3 L4 L5 L6]. split; cbn; try done.
  - intros k k' a a' [H1 _]%map_lookup_filter_Some [H2 _]%map_lookup_filter_Some. by eapply L1.
  - intros k a [H1 _]%map_lookup_filter_Some. by eapply L2.
  - intros id q a [H1 Hgone]%map_lookup_filter_Some Ha. cbn in Hgone. rewrite Ha in Hgone. destruct (L5 _ _ _ H1 Ha) as (au & Hau & Hid). exists au.
    split; [|done]. apply map_lookup_filter_Some. split; [done|]. destruct (keep (qr_key q, au)) eqn:Ek; [done|]. exfalso.
    assert (existsb (fun ka => (au_id ka.2 =? a) && negb (keep ka)) (map_to_list (auths (pw d))) = true) as He; [|congruence].
    apply existsb_exists. exists (qr_key q, au). split; [by apply list_elem_of_In, elem_of_map_to_list|]. cbn. rewrite Hid, Z.eqb_refl, Ek. done.
Qed.

Lemma ok_create t key user pending d r d' : create_auth t key user pending d = (r, d') -> login_ok d -> login_ok d' /\
  (forall a, r = Ok a -> auths (pw d') !! key = Some a) /\ users d' = users d /\ qr_logins d' = qr_logins d.
Proof.
  intros [[-> [e ->]]|(a & -> & _ & _ & Hid & Hnone & ->)]%create_auth_cases [L1 L2 L3 L4 L5 L6]; [by split|]. split.
  - split; cbn; try done.
    + intros k k' b b' [[<- <-]|[N1 H1]]%lookup_insert_Some [[<- <-]|[N2 H2]]%lookup_insert_Some Heq; [done| | |by eapply L1]; exfalso.
      * apply L2 in H2. lia.
      * apply L2 in H1. lia.
    + intros k b [[_ <-]|[_ H1]]%lookup_insert_Some; [lia|]. apply L2 in H1. lia.
    + intros id q b Hq Hb. destruct (L5 _ _ _ Hq Hb) as (au & Hau & ?). exists au. split; [|done]. rewrite lookup_insert_ne; [done|]. intros Heq. rewrite Heq in Hnone. congruence.
  - split; [|done]. intros b [= <-]. cbn. apply lookup_insert_eq.
Qed.

Lemma preserves_same {A} (m : L A) : (forall d, preserves (lo_same d) m) -> preserves login_ok m.
Proof. intros Hm d Hd. specialize (Hm d d). apply (login_ok_same d); [apply Hm; by split_and!|done]. Qed.

Lemma ok_user phone admin d : login_ok d -> (forall u row, users d !! u = Some row -> us_phone_number row <> Some phone) ->
  login_ok (with_users (<[next_user d := MkUser (Some phone) admin false]> (users d)) (next_user d + 1) ({[next_user d]} ∪ initialised d) d).
Proof.
  intros [L1 L2 L3 L4 L5 L6] Hnew. split; cbn; try done.
  - intros u row [[<- _]|[_ H]]%lookup_insert_Some; [lia|]. apply L3 in H. lia.
  - intros u u' row row' ph [[<- <-]|[_ H]]%lookup_insert_Some [[<- <-]|[_ H']]%lookup_insert_Some; cbn; [done| | |by eapply L4].
    + intros [= <-] Hp. by destruct (Hnew _ _ H').
    + intros Hp [= <-]. by destruct (Hnew _ _ H).
Qed.

Lemma ok_sign_in cx rnd t r : preserves login_ok (sign_in cfg isdigit int_ cx rnd t r).
Proof.
  unfold sign_in. apply preserves_bind; [apply preserves_ensure|intros _]. destruct (si_phone_code r) as [code|]; [|apply preserves_raise].
  apply preserves_bind; [apply preserves_lift|intros phone]. apply preserves_bind; [apply preserves_same; intros; same|intros _].
  apply preserves_bind; [apply preserves_ensure|intros _]. apply preserves_bind; [apply preserves_same; intros; unfold sign_in_code; same|intros c].
  apply preserves_bind; [apply preserves_same; intros; same|intros _]. apply preserves_bind; [apply preserves_same; intros; same|intros _].
  apply preserves_bind; [by intros d Hd|intros d]. destruct (user_by_phone phone d) as [user|]; [|apply preserves_ret].
  apply preserves_bind; [apply preserves_same; intros; same|intros p]. apply preserves_bind; [apply preserves_same; intros; same|intros key].
  apply preserves_bind; [apply preserves_modify; apply ok_keep|intros _]. apply preserves_bind.
  - intros d1 Hd1. destruct (create_auth _ _ _ _ d1) eqn:E. by apply ok_create in E as [? _].
  - intros _. apply preserves_bind; [apply preserves_ensure|intros _; apply preserves_ret].
Qed.

Lemma ok_sign_up cx t r : preserves login_ok (sign_up isdigit int_ cx t r).
Proof.
  unfold sign_up. apply preserves_bind; [apply preserves_ensure|intros _]. apply preserves_bind; [apply preserves_lift|intros phone].
  intros d Hd. rewrite get_bind, ensure_bind. destruct (negb _); [|done].
  assert (lo_same d d) as H1 by done. destruct (get_code phone (su_phone_code_hash r) (Some SIGNUP) d) as [rc d2] eqn:E1.
  assert (d2 = d) as -> by (by eapply get_code_same).
  unfold mbind at 1, M_bind at 1. rewrite E1. destruct rc as [c|]; [|by apply (login_ok_same d)].
  pose proof (same_check_raise_cls d t c None d H1) as H2. unfold mbind at 1, M_bind at 1. destruct (check_raise_cls _ _ _ _ d) as [[c'|] d2]; cbn [snd] in H2; [|by apply (login_ok_same d)].
  unfold modify. unfold mbind at 1, M_bind at 1. rewrite !ensure_bind. set (d3 := save_code _ _ d2). assert (lo_same d d3) as H3 by (by apply (same_frame d d2)).
  destruct (bool_decide (user_by_phone phone d = None)) eqn:En; [|by apply (login_ok_same d)]. apply bool_decide_eq_true in En.
  destruct (negb _); [|by apply (login_ok_same d)]. destruct (match su_last_name r with Some _ => _ | None => true end); [|by apply (login_ok_same d)].
  rewrite get_bind. cbv zeta. unfold mbind at 1, M_bind at 1. set (d4 := with_users _ _ _ d3).
  assert (login_ok d4) as H4.
  { apply ok_user; [by apply (login_ok_same d)|]. destruct H3 as (_ & _ & -> & _). by apply user_by_phone_none. }
  unfold mbind at 1, M_bind at 1. destruct (get_perm_key _ d4) as [[key|] d5] eqn:E5; apply get_perm_key_cases in E5 as [-> _]; [|done].
  unfold mbind, M_bind. destruct (create_auth _ _ _ _ d4) as [[a|] d6] eqn:E6; apply ok_create in E6 as [? _]; done.
Qed.

Lemma ok_set_pending key pending d : login_ok d -> login_ok (set_pending key pending d).
Proof.
  intros Hd. pose proof Hd as [L1 L2 L3 L4 L5 L6]. unfold set_pending. destruct (auths (pw d) !! key) as [a0|] eqn:E0; [|done]. split; cbn; try done.
  - intros k k' a a' [[<- <-]|[N1 H1]]%lookup_insert_Some [[<- <-]|[N2 H2]]%lookup_insert_Some; cbn; [done|by eapply L1|by eapply L1|by eapply L1].
  - intros k a [[<- <-]|[_ H1]]%lookup_insert_Some; cbn; by eapply L2.
  - intros id q b Hq Hb. destruct (L5 _ _ _ Hq Hb) as (au & Hau & ?). destruct (decide (key = qr_key q)) as [->|Hne].
    + eexists. rewrite lookup_insert_eq. split; [done|]. cbn. congruence.
    + exists au. by rewrite lookup_insert_ne.
Qed.

Lemma ok_export cx t nonce : preserves login_ok (export_login_token cx t nonce).
Proof.
  intros d Hd. unfold export_login_token. destruct (cx_auth_id cx); [destruct (auth_by_id _ d) as [ka|]; [destruct (au_mfa_pending _)|]; done|].
  destruct (map_to_list _) as [|[id q] []]; [|destruct (qr_auth q); [destruct (auth_by_id _ d) as [ka|]; [destruct (au_mfa_pending _)|]|]; done|done].
  destruct (get_perm_key _ d) as [[k|] d1] eqn:E; apply get_perm_key_cases in E as [-> _]; [|done].
  destruct Hd as [L1 L2 L3 L4 L5 L6]. split; cbn; try done. intros id q a [[_ <-]|[_ H]]%lookup_insert_Some; [done|by eapply L5].
Qed.

Lemma ok_accept rnd t user token : preserves login_ok (accept_login_token rnd t user token).
Proof.
  intros d Hd. unfold accept_login_token. rewrite get_bind. destruct token as [[id nonce]|]; [|done]. destruct (qr_logins d !! id) as [q|] eqn:Eq; [|done].
  destruct (qr_nonce q =? nonce); [|done]. rewrite !ensure_bind. destruct (negb _); [|done]. destruct (negb _); [|done].
  destruct (on_pw_password rnd (int_time t) user d) as (p & pq & Ep & Hq & _ & _). unfold mbind at 1, M_bind at 1. rewrite Ep.
  set (d1 := with_pw pq (next_auth d) d). assert (login_ok d1) as H1 by (apply (login_ok_same d); [split; [exact Hq|done]|done]).
  unfold mbind at 1, M_bind at 1. destruct (create_auth _ _ _ _ d1) as [[a|] d2] eqn:E2; destruct (ok_create _ _ _ _ _ _ _ E2 H1) as (H2 & Ha & _ & Hqr); [|done].
  unfold modify, mbind, M_bind, mret, M_ret. cbn [snd]. destruct H2 as [L1 L2 L3 L4 L5 L6]. split; cbn; try done. intros id' q' b [[_ <-]|[_ H]]%lookup_insert_Some; cbn; [|by eapply L5].
  intros [= <-]. exists a. split; [by apply Ha|done].
Qed.

Lemma ok_bind cx t r : preserves login_ok (bind_temp_auth_key decrypt cx t r).
Proof.
  unfold bind_temp_auth_key. do 2 (apply preserves_bind; [apply preserves_ensure|intros _]). intros d Hd. rewrite get_bind, ensure_bind.
  destruct (match TempAuthKey (keys d) !! _ with Some _ => _ | None => false end); [|done]. destruct (bt_packet r) as [[key_id data]|]; [|done]. rewrite ensure_bind.
  destruct (_ =? _); [|done]. destruct (AuthKey (keys d) !! key_id) as [key|]; [|done]. destruct (decrypt _ _) as [m|]; [|done]. rewrite ensure_bind.
  destruct (_ && _); [|done]. destruct (im_obj m) as [o|]; [|done]. rewrite ensure_bind. destruct (_ && _); [|done]. unfold modify, mbind, M_bind, mret, M_ret. cbn [snd].
  destruct Hd as [L1 L2 L3 L4 L5 L6]. split; cbn; try done. intros k k' u u' p.
  rewrite !lookup_alter_Some, !map_lookup_filter_Some. cbn.
  intros [(<- & v & Hv & ->)|(N1 & H1 & F1)] [(<- & v' & Hv' & ->)|(N2 & H2 & F2)]; cbn; [done| | |by eapply L6].
  - intros [= <-] Hp. exfalso. apply F2. split; [done|]. by intros ->.
  - intros Hp [= <-]. exfalso. apply F1. split; [done|]. by intros ->.
Qed.

Lemma ok_this cx : preserves login_ok (this_auth cx).
Proof. intros d Hd. destruct (this_auth cx d) as [r d1] eqn:E. by apply this_auth_cases in E as [-> _]. Qed.

Lemma ok_run_op o : preserves login_ok (run_op o).
Proof.
  assert (forall A (m : L A), preserves login_ok m -> preserves login_ok (m ;; mret tt)) as Ht.
  { intros A m Hm. apply preserves_bind; [done|intros _; apply preserves_ret]. }
  destruct o; cbn [run_op]; try apply Ht.
  - apply preserves_same. intros d. unfold send_code, _send_or_resend_code. same.
  - apply preserves_same. intros d. unfold resend_code, _send_or_resend_code. same.
  - apply preserves_same. intros d. unfold cancel_code. same.
  - apply ok_sign_in.
  - apply ok_sign_up.
  - unfold check_password. apply preserves_bind.
    { unfold current_auth. apply preserves_bind; [apply ok_this|intros ka]. apply preserves_bind; [apply preserves_ensure|intros _; apply preserves_ret]. }
    intros ka. destruct (negb _); [apply preserves_ret|]. apply preserves_bind; [apply preserves_same; intros; same|intros p].
    apply preserves_bind; [apply preserves_same; intros; same|intros _]. apply preserves_bind; [apply preserves_modify, ok_set_pending|intros _; apply preserves_ret].
  - unfold log_out. destruct (cx_perm_auth_key_id cx); [apply preserves_modify, ok_keep|apply preserves_ret].
  - unfold reset_authorizations. apply preserves_bind; [apply ok_this|intros this].
    apply preserves_bind; [apply preserves_ensure|intros _]. apply preserves_bind; [by intros d Hd|intros d]. cbv zeta.
    apply preserves_bind; [apply preserves_modify, ok_keep|intros _; apply preserves_ret].
  - unfold import_bot_authorization. destruct token_parts as [|b [|token [|]]]; try apply preserves_raise.
    apply preserves_bind; [apply preserves_ensure|intros _]. destruct (int_ b); [|apply preserves_raise]. apply preserves_bind; [by intros d Hd|intros d].
    apply preserves_bind; [apply preserves_ensure|intros _]. apply preserves_bind; [apply preserves_same; intros; same|intros key].
    apply preserves_bind; [apply preserves_modify, ok_keep|intros _]. apply preserves_bind; [|intros _; apply preserves_ret].
    intros d1 Hd1. destruct (create_auth _ _ _ _ d1) eqn:E. by apply ok_create in E as [? _].
  - apply ok_export.
  - apply ok_accept.
  - apply ok_bind.
Qed.

Definition run_ops (os : list login_op) (d : LoginDb C) : LoginDb C := foldl (fun d o => (run_op o d).2) d os.

(** The tables of logins stay consistent. Whatever requests are made, also ones that raise half-way: authorizations have ids of their own
    and no key has two; no number belongs to two users; a QR login that was accepted refers to an authorization that is there, of its own key,
    for as long as it is; and no permanent key is bound to two temporary ones. *)
Theorem login_tables os d : login_ok d -> login_ok (run_ops os d).
Proof. revert d. induction os as [|o os IH]; intros d Hd; [done|]. cbn. apply IH. by apply ok_run_op. Qed.

(** *** Logging in with a code *)
Lemma save_code_lookup id c (d : LoginDb C) : codes (save_code id c d) !! id = Some c.
Proof. apply lookup_insert_eq. Qed.

(** A sent code, typed in time at an address that may sign in *)
Lemma sign_in_right cx rnd t r (d : LoginDb C) phone code c id : _validate_phone isdigit int_ (si_phone_number r) = Ok phone -> si_phone_code r = Some code ->
  si_phone_code_hash r = HashOf id (sc_hash c) -> codes d !! id = Some c -> sc_phone_number c = phone -> sc_used c = false -> sc_purpose c = SIGNIN ->
  t <= us (sc_expires_at c) -> int_ code = Some (sc_code c) -> check_sign_in_allowed cfg t (cx_ip cx) (Some (cx_auth_key_id cx)) (limits d) = (Ok tt, limits d) ->
  exists c2, let d1 := with_limits c2 (save_code id (MkCode phone (sc_code c) (sc_hash c) (gen_expires_at t) false SIGNUP) d) in
  sign_in cfg isdigit int_ cx rnd t r d =
    match user_by_phone phone d with
    | None => (Ok AuthorizationSignUpRequired, d1)
    | Some user =>
      (password ← on_pw (get_or_create_password rnd (int_time t) user);
       key ← get_perm_key (cx_perm_auth_key_id cx);
       delete_auth_of_key key;;
       create_auth t key user (bool_decide (is_Some (pw_password password)));;
       ensure (negb (bool_decide (is_Some (pw_password password)))) (ErrorRpc 401 "SESSION_PASSWORD_NEEDED");;
       mret (AuthAuthorization user)) d1
    end.
Proof.
  intros Hp Hcode Hh Hc Hph Hu Hpur Ht Hint Hlim. unfold sign_in. rewrite ensure_bind, Hh. cbn [is_wrong_size negb]. rewrite Hcode, Hp, lift_step.
  assert (on_limits (check_sign_in_allowed cfg t (cx_ip cx) (Some (cx_auth_key_id cx))) d = (Ok tt, d)) as Hl.
  { rewrite on_limits_run, Hlim. cbn. by destruct d. }
  rewrite (M_bind_step _ _ _ _ _ Hl), ensure_bind, bool_decide_eq_true_2 by (by rewrite Hint).
  assert (sign_in_code cfg int_ cx t r phone code d = (Ok (id, c), d)) as Hsc.
  { assert (get_code phone (HashOf id (sc_hash c)) (Some SIGNIN) d = (Ok (Some (id, c)), d)) as Eg by
      (cbn; rewrite Hc, Hu, !bool_decide_eq_true_2 by done; done).
    unfold sign_in_code. rewrite Hh, (M_bind_step _ _ _ _ _ Eg).
    assert (check_raise int_ t (id, c) (Some code) d = (Ok tt, d)) as E.
    { unfold check_raise. rewrite Hint. cbn [snd]. rewrite Z.eqb_refl. cbn [ensure]. unfold mbind, M_bind, mret, M_ret. by rewrite (proj2 (Z.ltb_ge _ _)). }
    unfold mbind at 1, M_bind at 1, attempt. by rewrite E. }
  rewrite (M_bind_step _ _ _ _ _ Hsc). cbn [fst snd]. rewrite Hph. unfold modify. unfold mbind at 1, M_bind at 1. unfold mbind at 1, M_bind at 1. rewrite on_limits_run.
  assert ((clear_sign_in_failures cfg (cx_ip cx) (Some (cx_auth_key_id cx)) (limits (save_code id (MkCode phone (sc_code c) (sc_hash c) (gen_expires_at t) false SIGNUP) d))).1 = Ok tt) as ->.
  { unfold clear_sign_in_failures. by destruct (enabled cfg). }
  eexists. cbv zeta. rewrite get_bind. unfold user_by_phone at 1. cbn [users with_limits save_code with_codes]. fold (user_by_phone phone d). by destruct (user_by_phone phone d).
Qed.

Lemma sign_in_ok_code cx rnd t r (d : LoginDb C) a d' : sign_in cfg isdigit int_ cx rnd t r d = (Ok a, d') ->
  exists phone c, good_code d t (si_phone_code_hash r) phone SIGNIN c.
Proof.
  intros E. unfold sign_in in E. rewrite ensure_bind in E. if_in E; [|done]. destruct (si_phone_code r) as [code|]; [|done].
  destruct (_validate_phone isdigit int_ (si_phone_number r)) as [phone|e]; [rewrite lift_step in E|done].
  unfold mbind at 1, M_bind at 1 in E. rewrite on_limits_run in E. destruct (check_sign_in_allowed _ _ _ _ (limits d)) as [[[]|e] c1]; [|done].
  cbn [fst snd] in E. rewrite ensure_bind in E. if_in E; [|done]. apply M_bind_cases in E as [(e & _ & ?)|(c & d1 & E1 & _)]; [done|].
  apply sign_in_code_cases in E1 as (_ & Hgood & _). by exists phone, c.2.
Qed.

(** What follows the code for a user who is there *)
Lemma enter_run cx rnd t user key (d : LoginDb C) : cx_perm_auth_key_id cx = Some key -> is_Some (AuthKey (keys d) !! key) -> exists p q d2,
  get_or_create_password rnd (int_time t) user (pw d) = (Ok p, q) /\ (pw_password p = None <-> ~ has_password d user) /\
  (password ← on_pw (get_or_create_password rnd (int_time t) user);
       key ← get_perm_key (cx_perm_auth_key_id cx);
       delete_auth_of_key key;;
       create_auth t key user (bool_decide (is_Some (pw_password password)));;
       ensure (negb (bool_decide (is_Some (pw_password password)))) (ErrorRpc 401 "SESSION_PASSWORD_NEEDED");;
       mret (AuthAuthorization user)) d =
    (if bool_decide (is_Some (pw_password p)) then Raise (ErrorRpc 401 "SESSION_PASSWORD_NEEDED") else Ok (AuthAuthorization user), d2) /\
  codes d2 = codes d /\
  exists a, auths (pw d2) !! key = Some a /\ au_user a = user /\ au_mfa_pending a = bool_decide (is_Some (pw_password p)).
Proof.
  intros Hcx Hkey. destruct (on_pw_password rnd (int_time t) user d) as (p & q & Ep & Hq & Eg & Hp). rewrite (M_bind_step _ _ _ _ _ Ep).
  exists p, q. set (d1 := with_pw q (next_auth d) d). assert (get_perm_key (cx_perm_auth_key_id cx) d1 = (Ok key, d1)) as Ek.
  { unfold get_perm_key. rewrite Hcx. by rewrite bool_decide_eq_true_2. } rewrite (M_bind_step _ _ _ _ _ Ek). unfold delete_auth_of_key, modify. unfold mbind at 1, M_bind at 1.
  set (d2 := keep_auths _ d1). assert (auths (pw d2) !! key = None) as Hnone.
  { cbn. apply map_lookup_filter_None. right. intros a _. cbn. by rewrite Z.eqb_refl. }
  assert (exists a d3, create_auth t key user (bool_decide (is_Some (pw_password p))) d2 = (Ok a, d3) /\ au_user a = user /\
    au_mfa_pending a = bool_decide (is_Some (pw_password p)) /\ auths (pw d3) !! key = Some a /\ codes d3 = codes d2) as (a & d3 & Ec & Hu & Hpe & Ha & Hco).
  { unfold create_auth. rewrite Hnone. eexists _, _. split; [reflexivity|]. cbn. by rewrite lookup_insert_eq. }
  rewrite (M_bind_step _ _ _ _ _ Ec), ensure_bind. exists d3. split; [done|]. split; [done|]. split; [by destruct (bool_decide _)|]. split; [by rewrite Hco|].
  by exists a.
Qed.

Lemma check_send_same t ip key (c : C) r c' : check_send_code_allowed cfg t ip key c = (r, c') -> c' = c.
Proof.
  intros E. assert (preserves (fun c0 => c0 = c) (check_send_code_allowed cfg t ip key)) as Hp; [|specialize (Hp c eq_refl); by rewrite E in Hp].
  unfold check_send_code_allowed, _flood_wait. repeat first [apply preserves_ret|apply preserves_raise|apply preserves_bind; [|intros ?]|case_match|by intros ?d ?Hd].
Qed.
Lemma record_send_ok t ip key (c : C) : exists c', record_send_code cfg t ip key c = (Ok tt, c').
Proof. unfold record_send_code. destruct (negb (enabled cfg)); [by eexists|]. destruct key; by eexists. Qed.

Lemma send_code_run cx t code uuid p phone (d : LoginDb C) : _validate_phone isdigit int_ p = Ok phone -> is_phone_banned phone d = false ->
  (check_send_code_allowed cfg t (cx_ip cx) (Some (cx_auth_key_id cx)) (limits d)).1 = Ok tt ->
  exists ty c, send_code cfg isdigit int_ notify cx t code uuid p d = (Ok (MkTLSentCode ty (HashOf (next_code d) uuid)),
    with_limits c (with_codes (<[next_code d := MkCode phone code uuid (gen_expires_at t) false SIGNIN]> (codes d)) (next_code d + 1) d)).
Proof.
  intros Hp Hban Hlim. unfold send_code, _send_or_resend_code. rewrite Hp, lift_step, get_bind, ensure_bind, Hban. cbn [negb].
  assert (on_limits (check_send_code_allowed cfg t (cx_ip cx) (Some (cx_auth_key_id cx))) d = (Ok tt, d)) as Hl.
  { rewrite on_limits_run. destruct (check_send_code_allowed _ _ _ _ (limits d)) as [r c] eqn:E. pose proof (check_send_same _ _ _ _ _ _ E) as ->.
    cbn in *. rewrite Hlim. by destruct d. }
  rewrite (M_bind_step _ _ _ _ _ Hl). unfold modify. set (d1 := with_codes _ _ d).
  destruct (record_send_ok t (cx_ip cx) (Some (cx_auth_key_id cx)) (limits d1)) as [c Hc]. eexists _, c.
  unfold mbind at 1, M_bind at 1. unfold mbind at 1, M_bind at 1, get at 1. unfold mbind at 1, M_bind at 1, mret at 1, M_ret at 1. fold d1.
  unfold mbind at 1, M_bind at 1. rewrite on_limits_run, Hc. cbn [fst snd]. rewrite get_bind. reflexivity.
Qed.

Lemma sign_up_used cx t r (d : LoginDb C) id uuid c : su_phone_code_hash r = HashOf id uuid -> codes d !! id = Some c -> sc_used c = true ->
  exists e, (sign_up isdigit int_ cx t r d).1 = Raise e.
Proof.
  intros Hh Hc Hu. unfold sign_up. rewrite ensure_bind, Hh. cbn [is_wrong_size negb].
  destruct (_validate_phone isdigit int_ (su_phone_number r)) as [phone|e]; [rewrite lift_step|by exists e]. rewrite get_bind, ensure_bind.
  destruct (negb _); [|by eexists]. assert (get_code phone (HashOf id uuid) (Some SIGNUP) d = (Ok None, d)) as E.
  { cbn. rewrite Hc, Hu. cbn. by rewrite andb_false_r. } rewrite (M_bind_step _ _ _ _ _ E). by eexists.
Qed.

Lemma sign_in_used cx rnd t r (d : LoginDb C) id uuid c : si_phone_code_hash r = HashOf id uuid -> codes d !! id = Some c -> sc_purpose c = SIGNUP ->
  exists e, (sign_in cfg isdigit int_ cx rnd t r d).1 = Raise e.
Proof.
  intros Hh Hc Hp. destruct (sign_in cfg isdigit int_ cx rnd t r d) as [[a|e] d'] eqn:E; [|by exists e].
  apply sign_in_ok_code in E as (phone & c' & id' & Hh' & Hc' & _ & _ & Hp' & _). rewrite Hh in Hh'. injection Hh' as <- _. congruence.
Qed.

Lemma sign_up_right cx t r (d : LoginDb C) id c phone key : _validate_phone isdigit int_ (su_phone_number r) = Ok phone -> is_phone_banned phone d = false ->
  su_phone_code_hash r = HashOf id (sc_hash c) -> codes d !! id = Some c -> sc_phone_number c = phone -> sc_used c = false -> sc_purpose c = SIGNUP ->
  t <= us (sc_expires_at c) -> user_by_phone phone d = None -> su_first_name r <> [] -> (length (su_first_name r) <= 128)%nat ->
  (forall l, su_last_name r = Some l -> (length l <= 128)%nat) -> cx_perm_auth_key_id cx = Some key -> is_Some (AuthKey (keys d) !! key) -> auths (pw d) !! key = None ->
  exists d', sign_up isdigit int_ cx t r d = (Ok (AuthAuthorization (next_user d)), d') /\ logged_in d' key (next_user d) /\
    exists c', codes d' !! id = Some c' /\ sc_used c' = true.
Proof.
  intros Hp Hban Hh Hc Hph Hu Hpu Ht Hnone Hf1 Hf2 Hl Hcx Hkey Ha. unfold sign_up. rewrite ensure_bind, Hh. cbn [is_wrong_size negb].
  rewrite Hp, lift_step, get_bind, ensure_bind, Hban. cbn [negb].
  assert (get_code phone (HashOf id (sc_hash c)) (Some SIGNUP) d = (Ok (Some (id, c)), d)) as Eg by (cbn; rewrite Hc, Hu, !bool_decide_eq_true_2 by done; done).
  rewrite (M_bind_step _ _ _ _ _ Eg). assert (check_raise_cls int_ t (Some (id, c)) None d = (Ok (id, c), d)) as Ec.
  { cbn. unfold check_raise, mbind, M_bind, mret, M_ret. cbn [snd]. by rewrite (proj2 (Z.ltb_ge _ _)). }
  rewrite (M_bind_step _ _ _ _ _ Ec). cbn [fst snd]. unfold modify. unfold mbind at 1, M_bind at 1. rewrite !ensure_bind, bool_decide_eq_true_2 by done.
  assert (negb (match su_first_name r with [] => true | _ :: _ => false end || (128 <? length (su_first_name r))%nat) = true) as ->.
  { destruct (su_first_name r); [done|]. cbn [orb]. apply negb_true_iff, Nat.ltb_ge. done. }
  assert (match su_last_name r with Some l => negb (128 <? length l)%nat | None => true end = true) as ->.
  { destruct (su_last_name r) as [l|]; [|done]. apply negb_true_iff, Nat.ltb_ge. by apply Hl. }
  rewrite get_bind. cbv zeta. unfold mbind at 1, M_bind at 1. set (d2 := with_users _ _ _ _).
  assert (get_perm_key (cx_perm_auth_key_id cx) d2 = (Ok key, d2)) as Ek by (unfold get_perm_key; rewrite Hcx; by rewrite bool_decide_eq_true_2).
  rewrite (M_bind_step _ _ _ _ _ Ek). unfold mbind, M_bind, create_auth. change (auths (pw d2)) with (auths (pw d)). rewrite Ha. eexists. split; [reflexivity|].
  split; [eexists; cbn; by rewrite lookup_insert_eq|]. eexists. cbn. by rewrite lookup_insert_eq.
Qed.

(** C12: a code that was sent logs in, once. After a code has been sent to a number that is valid and not banned, whoever gives it back within its
    five minutes, from an address that may sign in and with a registered key, is logged in as the number's user; or, if the user has a
    password, the key waits for it; or, if the number has no user, may sign up within five minutes, once, and is then logged in as a new user.
    The code is then used up: no sign-in with its hash succeeds again. *)
Theorem login_flow cx t1 code uuid p phone d : _validate_phone isdigit int_ p = Ok phone -> is_phone_banned phone d = false ->
  (check_send_code_allowed cfg t1 (cx_ip cx) (Some (cx_auth_key_id cx)) (limits d)).1 = Ok tt ->
  exists ty id d1, send_code cfg isdigit int_ notify cx t1 code uuid p d = (Ok (MkTLSentCode ty (HashOf id uuid)), d1) /\ id = next_code d /\
  forall cx2 rnd t2 key s, t2 <= us (int_time t1 + 300) -> int_ s = Some code -> cx_perm_auth_key_id cx2 = Some key -> is_Some (AuthKey (keys d) !! key) ->
    (check_sign_in_allowed cfg t2 (cx_ip cx2) (Some (cx_auth_key_id cx2)) (limits d1)).1 = Ok tt ->
    exists res d2, sign_in cfg isdigit int_ cx2 rnd t2 (MkSignIn p (HashOf id uuid) (Some s)) d1 = (res, d2) /\
    match user_by_phone phone d with
    | Some u => (~ has_password d u -> res = Ok (AuthAuthorization u) /\ logged_in d2 key u) /\
        (has_password d u -> res = Raise (ErrorRpc 401 "SESSION_PASSWORD_NEEDED") /\
           exists a, auths (pw d2) !! key = Some a /\ au_user a = u /\ au_mfa_pending a = true)
    | None => res = Ok AuthorizationSignUpRequired /\ forall t3 first last, t3 <= us (int_time t2 + 300) -> auths (pw d) !! key = None ->
        first <> [] -> (length first <= 128)%nat -> (forall l, last = Some l -> (length l <= 128)%nat) ->
        exists d3, sign_up isdigit int_ cx2 t3 (MkSignUp p (HashOf id uuid) first last) d2 = (Ok (AuthAuthorization (next_user d)), d3) /\ logged_in d3 key (next_user d) /\
          forall t4 cx4 r, su_phone_code_hash r = HashOf id uuid -> exists e, (sign_up isdigit int_ cx4 t4 r d3).1 = Raise e
    end /\ (forall cx3 rnd3 t3 r, si_phone_code_hash r = HashOf id uuid -> exists e, (sign_in cfg isdigit int_ cx3 rnd3 t3 r d2).1 = Raise e).
Proof.
  intros Hp Hban Hlim. destruct (send_code_run cx t1 code uuid p phone d Hp Hban Hlim) as (ty & c & E). exists ty, (next_code d).
  eexists. split; [exact E|]. split; [done|]. set (d1 := with_limits c _). intros cx2 rnd t2 key s Ht Hs Hcx Hkey Hsl.
  set (sc := MkCode phone code uuid (gen_expires_at t1) false SIGNIN).
  assert (codes d1 !! next_code d = Some sc) as Hsc by (cbn; apply lookup_insert_eq).
  assert (check_sign_in_allowed cfg t2 (cx_ip cx2) (Some (cx_auth_key_id cx2)) (limits d1) = (Ok tt, limits d1)) as Hsl'.
  { destruct (check_sign_in_cases cfg t2 (cx_ip cx2) (Some (cx_auth_key_id cx2)) (limits d1)) as (r & Er & _). rewrite Er in Hsl |- *. cbn in Hsl. by subst. }
  destruct (sign_in_right cx2 rnd t2 (MkSignIn p (HashOf (next_code d) uuid) (Some s)) d1 phone s sc (next_code d) Hp eq_refl eq_refl Hsc eq_refl eq_refl eq_refl Ht Hs Hsl') as [c2 Es].
  cbv zeta in Es. set (d2 := with_limits c2 _) in Es. change (user_by_phone phone d1) with (user_by_phone phone d) in Es.
  set (sc2 := MkCode phone code uuid (gen_expires_at t2) false SIGNUP).
  assert (codes d2 !! next_code d = Some sc2) as Hsc2 by (cbn; apply lookup_insert_eq).
  destruct (user_by_phone phone d) as [u|] eqn:Eu.
  - destruct (enter_run cx2 rnd t2 u key d2 Hcx Hkey) as (pwd & q & d3 & _ & Hpw & Er & Hco & a & Ha & Hau & Hpe).
    rewrite Er in Es. eexists _, d3. split; [exact Es|]. split; [split|].
    + intros Hno. assert (pw_password pwd = None) as Hnone by (by apply Hpw). rewrite Hnone in *. split; [done|]. by exists a.
    + intros Hyes. destruct (pw_password pwd) as [v|]; [|by destruct (proj1 Hpw eq_refl)]. split; [done|]. by exists a.
    + intros cx3 rnd3 t3 r Hr. apply (sign_in_used _ _ _ _ _ (next_code d) uuid sc2); [done| |done]. by rewrite Hco.
  - eexists _, d2. split; [exact Es|]. split; [split; [done|]|].
    + intros t3 first last Ht3 Hau Hf1 Hf2 Hl.
      destruct (sign_up_right cx2 t3 (MkSignUp p (HashOf (next_code d) uuid) first last) d2 (next_code d) sc2 phone key) as (d3 & E3 & Hlog & c' & Hc' & Hused); try done.
      exists d3. split; [exact E3|]. split; [exact Hlog|]. intros t4 cx4 r Hr. by apply (sign_up_used _ _ _ _ (next_code d) uuid c').
    + intros cx3 rnd3 t3 r Hr. by apply (sign_in_used _ _ _ _ _ (next_code d) uuid sc2).
Qed.
End Facts.

(** ** An account with a number and no password *)
#[local] Existing Instance toy_crypto.
Definition sample_isdigit (c : Z) : bool := (48 <=? c) && (c <=? 57).
Definition sample_int (s : pystr) : option Z :=
  if forallb sample_isdigit s && negb (match s with [] => true | _ => false end) then Some (foldl (fun n c => 10 * n + (c - 48)) 0 s) else None.
Definition sample_phone : pystr := [52; 57; 49; 53; 49; 49; 50; 51].
Definition sample_cx : Ctx := MkCtx "192.0.2.1" 70 (Some 70) None None 0 0.
Definition sample_db : LoginDb memory :=
  MkLogin ∅ 1 {[7 := MkUser (Some sample_phone) false false]} 8 (MkPw ∅ ∅ 1 ∅ ∅) 1 (MkKeyTables {[70 := MkPermKey [] 133]} ∅) ∅ 1 ∅ ∅ {[7]} ∅.
Definition sample_decrypt (_ _ : bytes) : option InnerMessage := None.
Definition sample_run (o : login_op) (d : LoginDb memory) : result unit * LoginDb memory :=
  run_op default_limits sample_isdigit sample_int (fun _ _ => true) sample_decrypt o d.
Definition sample_sent : LoginDb memory := (sample_run (OpSendCode sample_cx (us 1000) 12345 99 sample_phone) sample_db).2.
Definition sample_sign_in : login_op := OpSignIn sample_cx (MkRandoms [] [] []) (us 1010) (MkSignIn sample_phone (HashOf 1 99) (Some [49; 50; 51; 52; 53])).

Lemma login_justified_witness : (sample_run sample_sign_in sample_sent).1 = Ok tt /\
  justified (C := memory) sample_isdigit sample_int sample_sign_in sample_sent 70 7.
Proof.
  split; [by vm_compute|].
  apply (login_justified (C := memory) default_limits sample_isdigit sample_int (fun _ _ => true) sample_decrypt sample_sign_in sample_sent
    (sample_run sample_sign_in sample_sent).1 (sample_run sample_sign_in sample_sent).2 70 7).
  - apply surjective_pairing.
  - exists (MkAuth 1 7 false (us 1010)). by vm_compute.
  - intros (a & Ha & _). by vm_compute in Ha.
Defined.

Lemma sample_db_ok : login_ok sample_db.
Proof.
  split; cbn; intros *; rewrite ?lookup_empty, ?lookup_singleton_Some; try done.
  - by intros [<- _].
  - by intros [<- _] [<- _].
Qed.
Lemma login_tables_witness : exists d : LoginDb memory, auths (pw d) !! 70 = Some (MkAuth 1 7 false (us 1010)) /\ login_ok d.
Proof.
  eexists. split; [|exact (login_tables (C := memory) default_limits sample_isdigit sample_int (fun _ _ => true) sample_decrypt
    [OpSendCode sample_cx (us 1000) 12345 99 sample_phone; sample_sign_in] sample_db sample_db_ok)]. by vm_compute.
Defined.

Lemma login_flow_witness : exists res (d : LoginDb memory), sign_in default_limits sample_isdigit sample_int sample_cx (MkRandoms [] [] []) (us 1010)
    (MkSignIn sample_phone (HashOf 1 99) (Some [49; 50; 51; 52; 53])) sample_sent = (res, d) /\ res = Ok (AuthAuthorization 7) /\ logged_in d 70 7.
Proof.
  destruct (login_flow (C := memory) default_limits sample_isdigit sample_int (fun _ _ => true)
    sample_cx (us 1000) 12345 99 sample_phone sample_phone sample_db) as (ty & id & d1 & E & -> & H); [by vm_compute..|].
  assert (d1 = sample_sent) as ->.
  { unfold sample_sent, sample_run. cbn [run_op]. unfold mbind, M_bind. rewrite E. reflexivity. }
  destruct (H sample_cx (MkRandoms [] [] []) (us 1010) 70 [49; 50; 51; 52; 53]) as (res & d2 & Es & Hu & _); [by vm_compute|by vm_compute|done|by eexists|by vm_compute|].
  exists res, d2. split; [exact Es|]. replace (user_by_phone sample_phone sample_db) with (Some 7) in Hu by (by vm_compute). apply Hu.
  intros (p & v & Hp & _). by vm_compute in Hp.
Defined.
