(* ===== verification/Secret.v ===== *)
(** Secret chats: [piltover/app/handlers/messages/secret.py], [piltover/db/models/encrypted_chat.py], [secret_update.py],
    [piltover/tl/to_format/encrypted_chat.py], and the part of [updates.getDifference] ([piltover/app/handlers/updates.py]) that hands out
    secret updates.

    Secret updates are rows in the order of their primary keys, which is the order in which they were created and the one in which a query
    without [order_by] gives them. Access hashes are those of [AccessHash.v], input peers those of [Peers.v], uploads those of [Upload.v]. *)
From stdpp Require Import sorting.
From Stdlib Require Import Init.Byte.
From S2P Require Import Prelude PyBytes TlPrimitives AccessHash Peers Upload AuthKeys Keygen Sequences.

(** ** Rows *)
Record SecretUser := MkSecretUser { su_deleted : bool; su_bot : bool }.
Record SecretAuth := MkSecretAuth { sa_user : Z; sa_allow_encrypted_requests : bool; sa_upd_qts : Z }.

Record EncryptedChat := MkChat {
  ec_access_hash : Z; ec_created_at : Z;
  ec_from_user : Z; ec_from_sess : Z; ec_to_user : Z; ec_to_sess : option Z;
  ec_g_a : bytes; ec_g_b : bytes; ec_key_fp : option Z;
  ec_discarded : bool; ec_history_deleted : bool }.

Inductive SecretUpdateType := NEW_MESSAGE | HISTORY_READ.
Record SecretUpdate := MkSecretUpdate {
  up_id : Z; up_qts : Z; up_type : SecretUpdateType; up_date : Z; up_authorization : Z; up_chat : Z; up_data : option bytes;
  up_message_random_id : option Z; up_message_is_service : bool; up_message_file : option Z }.

Record EncryptedFile := MkEncFile { ef_file : Z; ef_key_fingerprint : Z }.

(** ** What clients see *)
Inductive TLEncryptedChat :=
  | EncryptedChatDiscarded (id : Z) (history_deleted : bool)
  | EncryptedChatWaiting (id access_hash date admin_id participant_id : Z)
  | EncryptedChatRequested (id access_hash date admin_id participant_id : Z) (g_a : bytes)
  | EncryptedChatOk (id access_hash date admin_id participant_id : Z) (g_a_or_b : bytes) (key_fingerprint : Z).

(** What [EncryptedChat.to_tl] returns: a discarded chat, or one that is formatted for whom it is sent to *)
Inductive EncryptedChatTl := TlDiscarded (id : Z) (history_deleted : bool) | EncryptedChatToFormat (id : Z) (c : EncryptedChat).

Record TLEncryptedFile := MkTLEncFile { te_id : Z; te_access_hash : Z; te_size : Z; te_key_fingerprint : Z }.
Inductive TLSecret :=
  | UpdateNewEncryptedMessage (service : bool) (random_id : option Z) (chat_id date : Z) (data : option bytes) (file : option TLEncryptedFile) (qts : Z)
  | UpdateEncryptedMessagesRead (chat_id max_date date : Z).

Inductive dest := ToUser (user : Z) | ToAuth (auth : Z).
Inductive note := UpdateEncryption (c : EncryptedChatTl) | NoteSecret (u : TLSecret) | UpdateEncryptedChatTyping (chat_id : Z).

Record SecretDb := MkSecretDb {
  s_users : gmap Z SecretUser;
  s_auths : gmap Z SecretAuth;
  s_chats : gmap Z EncryptedChat; next_chat : Z;
  secret_updates : list SecretUpdate; next_update : Z;
  enc_files : gmap Z EncryptedFile; next_enc : Z;
  s_uploads : UploadDb;
  s_state : gmap Z Z;                          (* the pts of each user *)
  encryption_updates : list (Z * Z * Z);       (* the UPDATE_ENCRYPTION rows: user, pts, chat *)
  pushed : list (dest * note) }.
Abbreviation S_ := (M SecretDb).

Definition with_auths (a : gmap Z SecretAuth) (d : SecretDb) : SecretDb :=
  MkSecretDb (s_users d) a (s_chats d) (next_chat d) (secret_updates d) (next_update d) (enc_files d) (next_enc d) (s_uploads d) (s_state d)
    (encryption_updates d) (pushed d).
Definition with_chats (c : gmap Z EncryptedChat) (n : Z) (d : SecretDb) : SecretDb :=
  MkSecretDb (s_users d) (s_auths d) c n (secret_updates d) (next_update d) (enc_files d) (next_enc d) (s_uploads d) (s_state d)
    (encryption_updates d) (pushed d).
Definition with_updates (u : list SecretUpdate) (n : Z) (d : SecretDb) : SecretDb :=
  MkSecretDb (s_users d) (s_auths d) (s_chats d) (next_chat d) u n (enc_files d) (next_enc d) (s_uploads d) (s_state d)
    (encryption_updates d) (pushed d).
Definition with_enc_files (f : gmap Z EncryptedFile) (n : Z) (d : SecretDb) : SecretDb :=
  MkSecretDb (s_users d) (s_auths d) (s_chats d) (next_chat d) (secret_updates d) (next_update d) f n (s_uploads d) (s_state d)
    (encryption_updates d) (pushed d).
Definition with_uploads (u : UploadDb) (d : SecretDb) : SecretDb :=
  MkSecretDb (s_users d) (s_auths d) (s_chats d) (next_chat d) (secret_updates d) (next_update d) (enc_files d) (next_enc d) u (s_state d)
    (encryption_updates d) (pushed d).
Definition with_state (s : gmap Z Z) (e : list (Z * Z * Z)) (p : list (dest * note)) (d : SecretDb) : SecretDb :=
  MkSecretDb (s_users d) (s_auths d) (s_chats d) (next_chat d) (secret_updates d) (next_update d) (enc_files d) (next_enc d) (s_uploads d) s e p.

Definition on_uploads {A} (m : U A) : S_ A := fun d => let '(r, u) := m (s_uploads d) in (r, with_uploads u d).
Definition on_state {A} (m : Pts.P A) : S_ A := fun d => let '(r, s) := m (s_state d) in (r, with_state s (encryption_updates d) (pushed d) d).
Definition push (t : dest) (n : note) : S_ unit := modify (fun d => with_state (s_state d) (encryption_updates d) (pushed d ++ [(t, n)]) d).

(** [request_ctx.get().auth_id] and [user_id]; the handlers' [user_id] is the latter. *)
Record SecretCtx := MkSecretCtx { sx_auth_id : Z; sx_user_id : Z }.

(** ** The chat as it is sent *)
Definition chat_to_tl (id : Z) (c : EncryptedChat) : EncryptedChatTl :=
  if ec_discarded c then TlDiscarded id (ec_history_deleted c) else EncryptedChatToFormat id c.

(** [g_b or None] was stored as [g_b], so an empty one is written as empty bytes. *)
Definition chat_write (ctx : SecretCtx) (t : EncryptedChatTl) : result TLEncryptedChat :=
  match t with
  | TlDiscarded id h => Ok (EncryptedChatDiscarded id h)
  | EncryptedChatToFormat id c =>
    let ok g := EncryptedChatOk id (ec_access_hash c) (ec_created_at c) (ec_from_user c) (ec_to_user c) g (default 0 (ec_key_fp c)) in
    if sx_user_id ctx =? ec_from_user c then
      match ec_to_sess c with
      | None => Ok (EncryptedChatWaiting id (ec_access_hash c) (ec_created_at c) (ec_from_user c) (ec_to_user c))
      | Some _ => Ok (ok (ec_g_b c))
      end
    else if sx_user_id ctx =? ec_to_user c then
      match ec_to_sess c with
      | None => Ok (EncryptedChatRequested id (ec_access_hash c) (ec_created_at c) (ec_from_user c) (ec_to_user c) (ec_g_a c))
      | Some s => if s =? sx_auth_id ctx then Ok (ok (ec_g_a c)) else Ok (EncryptedChatDiscarded id true)
      end
    else Raise Unreachable
  end.

(** [upd.encryption_update]: the chat's earlier update of the user is replaced. *)
Definition encryption_update (user_id id : Z) (c : EncryptedChat) : S_ unit :=
  new_pts ← on_state (Pts.add_pts user_id 1);
  modify (fun d => with_state (s_state d)
    (filter (fun u => ~ (u.1.1 = user_id /\ u.2 = id)) (encryption_updates d) ++ [(user_id, new_pts, id)]) (pushed d) d);;
  push (ToUser user_id) (UpdateEncryption (chat_to_tl id c)).

(** ** Requesting, accepting and discarding *)
Definition _check_g_a_or_b (g_a_or_b_bytes : bytes) : bool :=
  let '(dh_p, dh_g) := gen_safe_prime in
  let g_a_or_b := from_bytes_be g_a_or_b_bytes in
  if negb ((1 <? g_a_or_b) && (g_a_or_b <? dh_p - 1)) then false
  else if negb ((2 ^ (2048 - 64) <? g_a_or_b) && (g_a_or_b <? dh_p - 2 ^ (2048 - 64))) then false
  else true.

Section Secret.
Context (hmac_sha256 : bytes -> bytes) (payload : signed_kind -> Z -> Z -> Z -> bytes).
(** [default=gen_access_hash()]: drawn once, when the class is defined *)
Context (chat_access_hash : Z).
(** Whether a foreign key that was not fetched and is null [is None] *)
Context (unfetched_is_none : bool).

Definition is_user_peer (i : InputPeer) : bool := match i with InputUser _ _ | InputUserFromMessage _ => true | _ => false end.

Definition auth_of (auth_id user_id : Z) (d : SecretDb) : option SecretAuth :=
  match s_auths d !! auth_id with Some a => if sa_user a =? user_id then Some a else None | None => None end.

Record RequestEncryption := MkRequestEncryption { re_user_id : InputPeer; re_g_a : bytes }.

Definition request_encryption (cx : SecretCtx) (now : Z) (r : RequestEncryption) : S_ EncryptedChatTl :=
  ensure (is_user_peer (re_user_id r)) (ErrorRpc 400 "USER_ID_INVALID");;
  ensure (_check_g_a_or_b (re_g_a r)) (ErrorRpc 400 "DH_G_A_INVALID");;
  tu ← lift_result (type_and_id_from_input_raise hmac_sha256 payload (sx_auth_id cx) (sx_user_id cx) (re_user_id r) "USER_ID_INVALID" 400);
  ensure (bool_decide (tu.1 = USER)) (ErrorRpc 400 "USER_ID_INVALID");;
  d ← get;
  match s_users d !! tu.2 with
  | Some u =>
    ensure (negb (su_deleted u || su_bot u)) (ErrorRpc 400 "USER_ID_INVALID");;
    if existsb (fun ka => (sa_user ka.2 =? tu.2) && sa_allow_encrypted_requests ka.2) (map_to_list (s_auths d)) then
      match auth_of (sx_auth_id cx) (sx_user_id cx) d with
      | None => raise IntegrityError
      | Some _ =>
        let c := MkChat chat_access_hash now (sx_user_id cx) (sx_auth_id cx) tu.2 None (re_g_a r) [] None false false in
        modify (with_chats (<[next_chat d := c]> (s_chats d)) (next_chat d + 1));;
        encryption_update tu.2 (next_chat d) c;;
        mret (chat_to_tl (next_chat d) c)
      end
    else mret (TlDiscarded 0 false)
  | None => raise (ErrorRpc 400 "USER_ID_INVALID")
  end.

Definition save_chat (id : Z) (c : EncryptedChat) : S_ unit := modify (fun d => with_chats (<[id := c]> (s_chats d)) (next_chat d) d).

Record InputEncryptedChat := MkInputChat { ic_chat_id : Z; ic_access_hash : Z }.
Record AcceptEncryption := MkAccept { ae_peer : InputEncryptedChat; ae_g_b : bytes; ae_key_fingerprint : Z }.

Definition accept_encryption (cx : SecretCtx) (r : AcceptEncryption) : S_ EncryptedChatTl :=
  ensure (_check_g_a_or_b (ae_g_b r)) (ErrorRpc 400 "DH_G_B_INVALID");;
  let id := ic_chat_id (ae_peer r) in
  c ← transaction (
    d ← get;
    match s_chats d !! id with
    | None => raise (ErrorRpc 400 "CHAT_ID_INVALID")
    | Some c =>
      ensure ((ec_access_hash c =? ic_access_hash (ae_peer r)) && (ec_to_user c =? sx_user_id cx)) (ErrorRpc 400 "CHAT_ID_INVALID");;
      ensure (bool_decide (ec_to_sess c = None)) (ErrorRpc 400 "ENCRYPTION_ALREADY_ACCEPTED");;
      ensure (negb (ec_discarded c)) (ErrorRpc 400 "ENCRYPTION_ALREADY_DECLINED");;
      match auth_of (sx_auth_id cx) (sx_user_id cx) d with
      | None => raise DoesNotExist
      | Some _ =>
        let c := MkChat (ec_access_hash c) (ec_created_at c) (ec_from_user c) (ec_from_sess c) (ec_to_user c) (Some (sx_auth_id cx))
          (ec_g_a c) (ae_g_b r) (Some (ae_key_fingerprint r)) (ec_discarded c) (ec_history_deleted c) in
        save_chat id c;; mret c
      end
    end);
  encryption_update (ec_from_user c) id c;;
  encryption_update (sx_user_id cx) id c;;
  mret (chat_to_tl id c).

Record DiscardEncryption := MkDiscard { de_chat_id : Z; de_delete_history : bool }.

Definition may_discard (cx : SecretCtx) (c : EncryptedChat) : bool :=
  ((ec_from_user c =? sx_user_id cx) && (ec_from_sess c =? sx_auth_id cx)) || (ec_to_user c =? sx_user_id cx).

Definition discard_encryption (cx : SecretCtx) (r : DiscardEncryption) : S_ EncryptedChatTl :=
  let id := de_chat_id r in
  c ← transaction (
    d ← get;
    match s_chats d !! id with
    | None => raise (ErrorRpc 400 "ENCRYPTION_ID_INVALID")
    | Some c =>
      ensure (may_discard cx c) (ErrorRpc 400 "ENCRYPTION_ID_INVALID");;
      ensure (negb ((ec_to_user c =? sx_user_id cx) && match ec_to_sess c with Some s => negb (s =? sx_auth_id cx) | None => false end))
        (ErrorRpc 400 "ENCRYPTION_ALREADY_ACCEPTED");;
      ensure (negb (ec_discarded c)) (ErrorRpc 400 "ENCRYPTION_ALREADY_DECLINED");;
      let c := MkChat (ec_access_hash c) (ec_created_at c) (ec_from_user c) (ec_from_sess c) (ec_to_user c) (ec_to_sess c)
        (ec_g_a c) (ec_g_b c) (ec_key_fp c) true (de_delete_history r) in
      save_chat id c;; mret c
    end);
  encryption_update (ec_from_user c) id c;;
  encryption_update (sx_user_id cx) id c;;
  mret (TlDiscarded id (de_delete_history r)).

(** ** Sending *)
Definition is_party (cx : SecretCtx) (c : EncryptedChat) : bool :=
  ((ec_from_user c =? sx_user_id cx) && (ec_from_sess c =? sx_auth_id cx)) ||
  ((ec_to_user c =? sx_user_id cx) && bool_decide (ec_to_sess c = Some (sx_auth_id cx))).

(** [chat.to_sess] was not fetched. *)
Definition to_sess_is_none (c : EncryptedChat) : bool := bool_decide (ec_to_sess c = None) && unfetched_is_none.

Definition _get_secret_chat (cx : SecretCtx) (peer : InputEncryptedChat) : S_ EncryptedChat :=
  d ← get;
  match s_chats d !! ic_chat_id peer with
  | None => raise (ErrorRpc 400 "CHAT_ID_INVALID")
  | Some c =>
    ensure (is_party cx c && (ec_access_hash c =? ic_access_hash peer) && negb (to_sess_is_none c)) (ErrorRpc 400 "CHAT_ID_INVALID");;
    ensure (negb (ec_discarded c)) (ErrorRpc 400 "ENCRYPTION_DECLINED");;
    mret c
  end.

Definition other_sess (cx : SecretCtx) (c : EncryptedChat) : option Z :=
  if ec_to_user c =? sx_user_id cx then Some (ec_from_sess c) else ec_to_sess c.

Inductive InputEncryptedFile :=
  | InputEncryptedFileEmpty
  | InputEncryptedFileUploaded (id key_fingerprint : Z)         (* and [InputEncryptedFileBigUploaded] *)
  | InputEncryptedFileId (id access_hash : Z).

(** The row of [EncryptedFile] and the file it is of *)
Definition encrypted_file (file : Z) (d : SecretDb) : result (option Z) :=
  match map_to_list (filter (fun kf => ef_file kf.2 = file) (enc_files d)) with
  | [] => Ok None
  | [kf] => Ok (match files (s_uploads d) !! file with
      | Some f => if decide (f_type f = ENCRYPTED) then Some kf.1 else None | None => None end)
  | _ => Raise RuntimeError
  end.

Definition _resolve_file (cx : SecretCtx) (input_file : InputEncryptedFile) : S_ (option Z) :=
  match input_file with
  | InputEncryptedFileEmpty => mret None
  | InputEncryptedFileUploaded id key_fingerprint =>
    d ← get;
    match uploading (s_uploads d) !! (sx_user_id cx, id) with
    | None => raise (ErrorRpc 400 "FILE_EMTPY")
    | Some uploaded_file =>
      file ← on_uploads (finalize_upload uploaded_file "application/vnd.encrypted" ENCRYPTED None true);
      d ← get;
      modify (with_enc_files (<[next_enc d := MkEncFile file.1 key_fingerprint]> (enc_files d)) (next_enc d + 1));;
      mret (Some (next_enc d))
    end
  | InputEncryptedFileId id access_hash =>
    ok ← lift_result (check_access_hash hmac_sha256 payload KFile (sx_user_id cx) (sx_auth_id cx) id access_hash);
    ensure ok (ErrorRpc 400 "FILE_EMTPY");;
    d ← get;
    e ← lift_result (encrypted_file id d);
    match e with None => raise (ErrorRpc 400 "FILE_EMTPY") | Some e => mret (Some e) end
  end.

Definition enc_file_to_tl (e : Z) (d : SecretDb) : option TLEncryptedFile :=
  match enc_files d !! e with
  | Some ef => (fun f => MkTLEncFile (ef_file ef) (-1) (f_size f) (ef_key_fingerprint ef)) <$> files (s_uploads d) !! ef_file ef
  | None => None
  end.

Definition secret_to_tl (u : SecretUpdate) (d : SecretDb) : result TLSecret :=
  match up_type u with
  | NEW_MESSAGE =>
    Ok (UpdateNewEncryptedMessage (up_message_is_service u) (up_message_random_id u) (up_chat u) (up_date u) (up_data u)
      (if up_message_is_service u then None else e ← up_message_file u; enc_file_to_tl e d) (up_qts u))
  | HISTORY_READ =>
    data ← match up_data u with Some data => Ok data | None => Raise TypeError end;
    max_date ← read_bytes Long data true;
    Ok (UpdateEncryptedMessagesRead (up_chat u) max_date (up_date u))
  end.

(** The update's number: the first of the two steps of sending *)
Definition _inc_qts (auth_id : option Z) : S_ (Z * Z) :=
  transaction (
    d ← get;
    match auth_id with
    | None => raise DoesNotExist
    | Some id =>
      match s_auths d !! id with
      | None => raise DoesNotExist
      | Some a =>
        let a := MkSecretAuth (sa_user a) (sa_allow_encrypted_requests a) (sa_upd_qts a + 1) in
        modify (with_auths (<[id := a]> (s_auths d)));; mret (id, sa_upd_qts a)
      end
    end).

(** [SecretUpdate.create] and [upd.send_encrypted_update]: the second step *)
Definition post_update (now : Z) (other_auth : Z * Z) (type : SecretUpdateType) (chat : Z) (data : option bytes) (random_id : option Z)
    (service : bool) (file : option Z) : S_ unit :=
  d ← get;
  let u := MkSecretUpdate (next_update d) other_auth.2 type now other_auth.1 chat data random_id service file in
  modify (with_updates (secret_updates d ++ [u]) (next_update d + 1));;
  d ← get;
  t ← lift_result (secret_to_tl u d);
  push (ToAuth other_auth.1) (NoteSecret t).

Inductive SendKind := SendEncrypted | SendEncryptedService | SendEncryptedFile (file : InputEncryptedFile).
Record SendRequest := MkSend { se_peer : InputEncryptedChat; se_random_id : Z; se_data : bytes; se_kind : SendKind }.
Definition is_service (k : SendKind) : bool := match k with SendEncryptedService => true | _ => false end.

Definition send_encrypted (cx : SecretCtx) (now : Z) (r : SendRequest) : S_ unit :=
  chat ← _get_secret_chat cx (se_peer r);
  file ← match se_kind r with SendEncryptedFile f => _resolve_file cx f | _ => mret None end;
  other_auth ← _inc_qts (other_sess cx chat);
  post_update now other_auth NEW_MESSAGE (ic_chat_id (se_peer r)) (Some (se_data r)) (Some (se_random_id r)) (is_service (se_kind r)) file.

(** [now] is [time()] in whole seconds, which decides the comparison with the whole number [max_date]. *)
Definition read_encrypted_history (cx : SecretCtx) (now : Z) (peer : InputEncryptedChat) (max_date : Z) : S_ bool :=
  chat ← _get_secret_chat cx peer;
  ensure (negb (now <? max_date)) (ErrorRpc 400 "MAX_DATE_INVALID");;
  other_auth ← _inc_qts (other_sess cx chat);
  data ← lift_result (int_write Long max_date true);
  post_update now other_auth HISTORY_READ (ic_chat_id peer) (Some data) None false None;;
  mret true.

Definition set_encrypted_typing (cx : SecretCtx) (peer : InputEncryptedChat) (typing : bool) : S_ bool :=
  chat ← _get_secret_chat cx peer;
  (if typing then match other_sess cx chat with
    | Some a => push (ToAuth a) (UpdateEncryptedChatTyping (ic_chat_id peer)) | None => mret tt end else mret tt);;
  mret true.

(** ** Receiving *)
Definition queue (auth : Z) (d : SecretDb) : list SecretUpdate := filter (fun u => up_authorization u = auth) (secret_updates d).

Definition received_queue (cx : SecretCtx) (max_qts : Z) : S_ (list Z) :=
  d ← get;
  match auth_of (sx_auth_id cx) (sx_user_id cx) d with
  | None => raise DoesNotExist
  | Some current_auth =>
    ensure (negb ((sa_upd_qts current_auth <? max_qts) || (max_qts <=? 0))) (ErrorRpc 400 "MAX_QTS_INVALID");;
    let random_ids := omap up_message_random_id (filter (fun u => up_qts u <= max_qts) (queue (sx_auth_id cx) d)) in
    modify (fun d => with_updates (filter (fun u => ~ (up_authorization u = sx_auth_id cx /\ up_qts u <= max_qts)) (secret_updates d)) (next_update d) d);;
    mret random_ids
  end.

(** [.order_by("-qts").first()] *)
Definition last_by_qts (l : list SecretUpdate) : option SecretUpdate :=
  foldl (fun best u => match best with Some b => if up_qts b <? up_qts u then Some u else best | None => Some u end) None l.

Definition new_secret (auth qts : Z) (d : SecretDb) : list SecretUpdate :=
  let last_local_secret_id := match last_by_qts (filter (fun u => up_qts u <= qts) (queue auth d)) with Some u => up_id u | None => 0 end in
  filter (fun u => last_local_secret_id < up_id u) (queue auth d).

(** The secret updates of [getDifference] *)
Definition secret_difference (auth qts : Z) (d : SecretDb) : result (list TLSecret) := mapM (fun u => secret_to_tl u d) (new_secret auth qts d).

(** ** Runs *)
(** [OpLogOut] is the deletion of an authorization, with the chats and updates that refer to it; [OpUploads] stands for what the handlers of
    [Upload.v] do to their own tables, and [OpLogIn] for a new authorization. *)
Inductive secret_op :=
  | OpRequest (cx : SecretCtx) (now : Z) (r : RequestEncryption)
  | OpAccept (cx : SecretCtx) (r : AcceptEncryption)
  | OpDiscard (cx : SecretCtx) (r : DiscardEncryption)
  | OpSend (cx : SecretCtx) (now : Z) (r : SendRequest)
  | OpRead (cx : SecretCtx) (now : Z) (peer : InputEncryptedChat) (max_date : Z)
  | OpTyping (cx : SecretCtx) (peer : InputEncryptedChat) (typing : bool)
  | OpReceived (cx : SecretCtx) (max_qts : Z)
  | OpLogOut (auth : Z)
  | OpLogIn (auth user : Z)
  | OpUploads (u : UploadDb).

Definition touches_auth (auth : Z) (c : EncryptedChat) : bool := (ec_from_sess c =? auth) || bool_decide (ec_to_sess c = Some auth).

Definition log_out_auth (auth : Z) (d : SecretDb) : SecretDb :=
  let kept := filter (fun kc => touches_auth auth kc.2 = false) (s_chats d) in
  with_updates (filter (fun u => up_authorization u <> auth /\ is_Some (kept !! up_chat u)) (secret_updates d)) (next_update d)
    (with_chats kept (next_chat d) (with_auths (delete auth (s_auths d)) d)).

Definition log_in_auth (auth user : Z) (d : SecretDb) : SecretDb :=
  match s_auths d !! auth with Some _ => d | None => with_auths (<[auth := MkSecretAuth user true 0]> (s_auths d)) d end.

Definition run_op (o : secret_op) : S_ unit :=
  match o with
  | OpRequest cx now r => request_encryption cx now r;; mret tt
  | OpAccept cx r => accept_encryption cx r;; mret tt
  | OpDiscard cx r => discard_encryption cx r;; mret tt
  | OpSend cx now r => send_encrypted cx now r
  | OpRead cx now peer max_date => read_encrypted_history cx now peer max_date;; mret tt
  | OpTyping cx peer typing => set_encrypted_typing cx peer typing;; mret tt
  | OpReceived cx max_qts => received_queue cx max_qts;; mret tt
  | OpLogOut auth => modify (log_out_auth auth)
  | OpLogIn auth user => modify (log_in_auth auth user)
  | OpUploads u => modify (with_uploads u)
  end.
Definition run_ops (os : list secret_op) (d : SecretDb) : SecretDb := foldl (fun d o => (run_op o d).2) d os.

(** ** What a request may do to chats, authorizations and updates *)
Definition core (d : SecretDb) := (s_auths d, s_chats d, next_chat d, secret_updates d, next_update d).

Definition accepted (c : EncryptedChat) (sess : Z) (g_b : bytes) (key_fp : Z) : EncryptedChat :=
  MkChat (ec_access_hash c) (ec_created_at c) (ec_from_user c) (ec_from_sess c) (ec_to_user c) (Some sess) (ec_g_a c) g_b (Some key_fp)
    (ec_discarded c) (ec_history_deleted c).
Definition discarded (c : EncryptedChat) (delete_history : bool) : EncryptedChat :=
  MkChat (ec_access_hash c) (ec_created_at c) (ec_from_user c) (ec_from_sess c) (ec_to_user c) (ec_to_sess c) (ec_g_a c) (ec_g_b c) (ec_key_fp c)
    true delete_history.
Definition incremented (a : SecretAuth) : SecretAuth := MkSecretAuth (sa_user a) (sa_allow_encrypted_requests a) (sa_upd_qts a + 1).
Definition inc_auth (t : Z) (a : SecretAuth) (d : SecretDb) : SecretDb := with_auths (<[t := incremented a]> (s_auths d)) d.

Definition posted (u : SecretUpdate) (t : Z) (a : SecretAuth) (d : SecretDb) : SecretDb :=
  with_updates (secret_updates d ++ [u]) (next_update d + 1) (inc_auth t a d).

(** An update that says what its kind has to say *)
Definition update_shape (u : SecretUpdate) : Prop :=
  match up_type u with
  | NEW_MESSAGE => is_Some (up_message_random_id u)
  | HISTORY_READ => exists data, up_data u = Some data /\ length data = 8%nat
  end.

Inductive secret_step : secret_op -> SecretDb -> SecretDb -> Prop :=
  | step_none o d d' : core d' = core d -> secret_step o d d'
  | step_request cx now r d d' to : to <> sx_user_id cx -> _check_g_a_or_b (re_g_a r) = true ->
      is_Some (auth_of (sx_auth_id cx) (sx_user_id cx) d) ->
      core d' = core (with_chats (<[next_chat d := MkChat chat_access_hash now (sx_user_id cx) (sx_auth_id cx) to None (re_g_a r) [] None false false]>
        (s_chats d)) (next_chat d + 1) d) ->
      secret_step (OpRequest cx now r) d d'
  | step_accept cx r d d' c : s_chats d !! ic_chat_id (ae_peer r) = Some c -> ec_to_user c = sx_user_id cx -> ec_to_sess c = None ->
      ec_discarded c = false -> _check_g_a_or_b (ae_g_b r) = true -> is_Some (auth_of (sx_auth_id cx) (sx_user_id cx) d) ->
      core d' = core (with_chats (<[ic_chat_id (ae_peer r) := accepted c (sx_auth_id cx) (ae_g_b r) (ae_key_fingerprint r)]> (s_chats d)) (next_chat d) d) ->
      secret_step (OpAccept cx r) d d'
  | step_discard cx r d d' c : s_chats d !! de_chat_id r = Some c -> may_discard cx c = true -> (ec_to_sess c = None \/ is_party cx c = true) ->
      ec_discarded c = false ->
      core d' = core (with_chats (<[de_chat_id r := discarded c (de_delete_history r)]> (s_chats d)) (next_chat d) d) ->
      secret_step (OpDiscard cx r) d d'
  | step_send cx now r d d' c u t a : s_chats d !! ic_chat_id (se_peer r) = Some c -> is_party cx c = true -> ec_discarded c = false ->
      other_sess cx c = Some t -> s_auths d !! t = Some a ->
      up_id u = next_update d -> up_qts u = sa_upd_qts a + 1 -> up_authorization u = t -> up_chat u = ic_chat_id (se_peer r) -> update_shape u ->
      up_type u = NEW_MESSAGE -> up_data u = Some (se_data r) -> up_message_random_id u = Some (se_random_id r) ->
      core d' = core (posted u t a d) -> secret_step (OpSend cx now r) d d'
  | step_read cx now peer max_date d d' c u t a : s_chats d !! ic_chat_id peer = Some c -> is_party cx c = true -> ec_discarded c = false ->
      other_sess cx c = Some t -> s_auths d !! t = Some a ->
      up_id u = next_update d -> up_qts u = sa_upd_qts a + 1 -> up_authorization u = t -> up_chat u = ic_chat_id peer -> update_shape u ->
      up_type u = HISTORY_READ -> core d' = core (posted u t a d) -> secret_step (OpRead cx now peer max_date) d d'
  | step_read_gap cx now peer max_date d d' t a : s_auths d !! t = Some a -> core d' = core (inc_auth t a d) ->
      secret_step (OpRead cx now peer max_date) d d'
  | step_received cx max_qts d d' : is_Some (auth_of (sx_auth_id cx) (sx_user_id cx) d) ->
      core d' = core (with_updates (filter (fun u => ~ (up_authorization u = sx_auth_id cx /\ up_qts u <= max_qts)) (secret_updates d)) (next_update d) d) ->
      secret_step (OpReceived cx max_qts) d d'
  | step_log_out auth d : secret_step (OpLogOut auth) d (log_out_auth auth d)
  | step_log_in auth user d : secret_step (OpLogIn auth user) d (log_in_auth auth user d).

Lemma encryption_update_core user id c d : core (encryption_update user id c d).2 = core d.
Proof.
  unfold encryption_update, push, on_state. unfold_monads. destruct (Pts.add_pts user 1 (s_state d)) as [[pts|e] s]; reflexivity.
Qed.

(** A computation that leaves the core alone *)
Definition keeps_core {A} (m : S_ A) : Prop := forall k, preserves (fun d => core d = k) m.

Lemma keeps_core_eq {A} (m : S_ A) d : keeps_core m -> core (m d).2 = core d.
Proof. intros H. by apply H. Qed.
Lemma keeps_core_bind {A B} (m : S_ A) (f : A -> S_ B) : keeps_core m -> (forall a, keeps_core (f a)) -> keeps_core (m ≫= f).
Proof. intros Hm Hf k. apply preserves_bind; [apply Hm|intros a; apply Hf]. Qed.
Lemma keeps_core_push t n : keeps_core (push t n).
Proof. by intros k d. Qed.
Lemma keeps_core_notice user id c : keeps_core (encryption_update user id c).
Proof. intros k d <-. apply encryption_update_core. Qed.
Lemma keeps_core_uploads {A} (m : U A) : keeps_core (on_uploads m).
Proof. intros k d <-. unfold on_uploads. by destruct (m (s_uploads d)). Qed.
Lemma keeps_core_ret {A} (a : A) : keeps_core (mret a).
Proof. by intros k d. Qed.
Lemma keeps_core_raise {A} e : keeps_core (raise (A := A) e).
Proof. by intros k d. Qed.
Lemma keeps_core_lift {A} (r : result A) : keeps_core (lift_result r).
Proof. by intros k d. Qed.
Lemma keeps_core_ensure b e : keeps_core (ensure b e).
Proof. intros k d H. by destruct b. Qed.
Lemma keeps_core_get : keeps_core get.
Proof. by intros k d. Qed.
Create HintDb core_db.
#[local] Hint Resolve keeps_core_bind keeps_core_push keeps_core_notice keeps_core_uploads keeps_core_ret keeps_core_raise keeps_core_lift
  keeps_core_ensure keeps_core_get : core_db.

Lemma keeps_core_chat cx peer : keeps_core (_get_secret_chat cx peer).
Proof. unfold _get_secret_chat. apply keeps_core_bind; [auto with core_db|]. intros d. case_match; auto with core_db. Qed.
Lemma keeps_core_file cx f : keeps_core (_resolve_file cx f).
Proof.
  destruct f as [|id key_fp|id h]; cbn [_resolve_file]; auto with core_db.
  - apply keeps_core_bind; [auto with core_db|]. intros d. case_match; [|auto with core_db].
    apply keeps_core_bind; [auto with core_db|]. intros file. apply keeps_core_bind; [auto with core_db|]. intros d'. by intros k x <-.
  - apply keeps_core_bind; [auto with core_db|]. intros ok. apply keeps_core_bind; [auto with core_db|]. intros _.
    apply keeps_core_bind; [auto with core_db|]. intros d. apply keeps_core_bind; [auto with core_db|]. intros e. case_match; auto with core_db.
Qed.

Lemma bind_ret_state {A} (m : S_ A) d : ((m;; mret tt) d).2 = (m d).2.
Proof. unfold_monads. by destruct (m d) as [[]]. Qed.

Lemma core_auths d d' : core d = core d' -> s_auths d = s_auths d'.
Proof. by intros [= ? ? ? ? ?]. Qed.
Lemma core_chats d d' : core d = core d' -> s_chats d = s_chats d'.
Proof. by intros [= ? ? ? ? ?]. Qed.

(** ** Every request makes one of the steps *)
Lemma request_step cx now r d : secret_step (OpRequest cx now r) d (request_encryption cx now r d).2.
Proof.
  unfold request_encryption, type_and_id_from_input_raise, ensure. unfold_monads. destruct (is_user_peer _); [|by apply step_none].
  destruct (_check_g_a_or_b (re_g_a r)) eqn:Hg; [|by apply step_none].
  destruct (type_and_id_from_input _ _ _ _ _) as [[[t to]|]|e] eqn:Ht; cbn [fst snd]; [|by apply step_none..].
  destruct (bool_decide (t = USER)) eqn:Hu; [|by apply step_none]. apply bool_decide_eq_true in Hu as ->.
  destruct (s_users d !! to) as [[del bt]|]; [|by apply step_none]. cbn [su_deleted su_bot]. destruct (negb (del || bt)); [|by apply step_none].
  destruct (existsb _ _); [|by apply step_none]. destruct (auth_of _ _ d) as [a|] eqn:Ha; [|by apply step_none].
  match goal with |- context [with_chats ?c ?n d] => set (d1 := with_chats c n d) end.
  apply step_request with to.
  - intros ->. unfold type_and_id_from_input in Ht. destruct (re_user_id r); inv_ok Ht. b2p. congruence.
  - done.
  - eauto.
  - match goal with |- context [encryption_update ?u ?i ?c d1] => pose proof (encryption_update_core u i c d1) as Hc; destruct (encryption_update u i c d1) as [[[]|e] d2] end;
      exact Hc.
Qed.

(** The two notices after a chat was saved *)
Lemma notices_core {A} u1 u2 id c (a : A) d :
  core ((encryption_update u1 id c;; encryption_update u2 id c;; mret a) d).2 = core d.
Proof. apply keeps_core_eq. auto 6 with core_db. Qed.

Lemma accept_step cx r d : secret_step (OpAccept cx r) d (accept_encryption cx r d).2.
Proof.
  unfold accept_encryption, transaction. rewrite ensure_bind. destruct (_check_g_a_or_b _) eqn:Hg; [|by apply step_none].
  unfold mbind at 1, M_bind at 1. rewrite get_bind.
  destruct (s_chats d !! _) as [c|] eqn:Hc; [|by apply step_none]. rewrite !ensure_bind.
  destruct (_ && _) eqn:Hp; [|by apply step_none]. rewrite ?ensure_bind. destruct (bool_decide _) eqn:Hs; [|by apply step_none].
  rewrite ?ensure_bind. destruct (negb _) eqn:Hd; [|by apply step_none].
  destruct (auth_of _ _ d) as [a|] eqn:Ha; [|by apply step_none]. b2p.
  eapply step_accept; eauto. etrans; [apply notices_core|reflexivity].
Qed.

Lemma discard_step cx r d : secret_step (OpDiscard cx r) d (discard_encryption cx r d).2.
Proof.
  unfold discard_encryption, transaction. unfold mbind at 1, M_bind at 1. rewrite get_bind.
  destruct (s_chats d !! _) as [c|] eqn:Hc; [|by apply step_none]. rewrite !ensure_bind.
  destruct (may_discard cx c) eqn:Hp; [|by apply step_none]. rewrite ?ensure_bind.
  destruct (negb (_ && _)) eqn:Hs; [|by apply step_none]. rewrite ?ensure_bind.
  destruct (negb (ec_discarded c)) eqn:Hd; [|by apply step_none].
  eapply step_discard; [done..| | |].
  - unfold may_discard in Hp. unfold is_party. destruct (ec_to_sess c) as [s|]; [right|by left].
    destruct (ec_to_user c =? sx_user_id cx); [|by rewrite orb_false_r in Hp; rewrite Hp].
    rewrite (bool_decide_eq_true_2 (Some s = _)); [by rewrite orb_true_r|]. cbn in Hs. apply negb_true_iff, negb_false_iff in Hs. b2p. congruence.
  - by b2p.
  - etrans; [apply notices_core|reflexivity].
Qed.

Lemma get_chat_run cx peer d r d' : _get_secret_chat cx peer d = (r, d') ->
  d' = d /\ forall c, r = Ok c -> s_chats d !! ic_chat_id peer = Some c /\ is_party cx c = true /\ ec_discarded c = false.
Proof.
  unfold _get_secret_chat, ensure. unfold_monads. intros E. repeat case_match; simplify_eq; b2p; (split; [done|]); intros ? [= <-]; auto.
Qed.

Lemma inc_qts_run o d r d' : _inc_qts o d = (r, d') ->
  ((exists e, r = Raise e) /\ d' = d) \/ exists t a, o = Some t /\ s_auths d !! t = Some a /\ r = Ok (t, sa_upd_qts a + 1) /\ d' = inc_auth t a d.
Proof.
  unfold _inc_qts, transaction. unfold_monads. intros E. repeat case_match; simplify_eq; [right; by eexists _, _|left; eauto..].
Qed.

Lemma post_update_core now t type chat data rid service file d : 
  core (post_update now t type chat data rid service file d).2 =
  core (with_updates (secret_updates d ++ [MkSecretUpdate (next_update d) t.2 type now t.1 chat data rid service file]) (next_update d + 1) d).
Proof.
  unfold post_update. rewrite get_bind. unfold_monads.
  by destruct (secret_to_tl _ _).
Qed.

Lemma core_posted u t a d d1 d2 : core d1 = core d -> core d2 = core (with_updates (secret_updates (inc_auth t a d1) ++ [u]) (next_update d1 + 1) (inc_auth t a d1)) ->
  core d2 = core (posted u t a d).
Proof. by intros [= ? ? ? ? ?] ->; unfold posted, core; cbn; congruence. Qed.

Lemma send_step cx now r d : secret_step (OpSend cx now r) d (send_encrypted cx now r d).2.
Proof.
  destruct (send_encrypted cx now r d) as [res d'] eqn:E. unfold send_encrypted in E. cbn [snd].
  apply M_bind_cases in E as [(e & E & ->)|(c & d0 & E & E')].
  { apply get_chat_run in E as [-> _]. by apply step_none. }
  apply get_chat_run in E as [-> Hc]. destruct (Hc c eq_refl) as (Hl & Hp & Hd). clear Hc.
  assert (Hf : keeps_core (match se_kind r with SendEncryptedFile f => _resolve_file cx f | _ => mret None end))
    by (case_match; auto using keeps_core_file with core_db).
  apply M_bind_cases in E' as [(e & E & ->)|(file & d1 & E & E')].
  { apply step_none. pose proof (keeps_core_eq _ d Hf) as Hk. by rewrite E in Hk. }
  assert (Hk : core d1 = core d) by (pose proof (keeps_core_eq _ d Hf) as Hk; by rewrite E in Hk). clear E Hf.
  apply M_bind_cases in E' as [(e & E & ->)|(oa & d2 & E & E')].
  { apply inc_qts_run in E as [[_ ->]|(t & a & _ & _ & [=] & _)]. by apply step_none. }
  apply inc_qts_run in E as [[[e [=]] _]|(t & a & Ho & Ha & [= ->] & ->)].
  rewrite (core_auths _ _ Hk) in Ha. pose proof (post_update_core now (t, sa_upd_qts a + 1) NEW_MESSAGE (ic_chat_id (se_peer r)) (Some (se_data r))
    (Some (se_random_id r)) (is_service (se_kind r)) file (inc_auth t a d1)) as Hpost. rewrite E' in Hpost. cbn [snd] in Hpost.
  eapply step_send; [eassumption..| | | | | | | | |exact (core_posted _ _ _ _ _ _ Hk Hpost)]; cbn; try done.
  by injection Hk.
Qed.

Lemma read_step cx now peer max_date d : secret_step (OpRead cx now peer max_date) d (read_encrypted_history cx now peer max_date d).2.
Proof.
  destruct (read_encrypted_history cx now peer max_date d) as [res d'] eqn:E. unfold read_encrypted_history in E. cbn [snd].
  apply M_bind_cases in E as [(e & E & ->)|(c & d0 & E & E')].
  { apply get_chat_run in E as [-> _]. by apply step_none. }
  apply get_chat_run in E as [-> Hc]. destruct (Hc c eq_refl) as (Hl & Hp & Hd). clear Hc. rewrite ensure_bind in E'.
  if_in E'; [|simplify_eq/=; by apply step_none].
  apply M_bind_cases in E' as [(e & E & ->)|(oa & d1 & E & E')].
  { apply inc_qts_run in E as [[_ ->]|(t & a & _ & _ & [=] & _)]. by apply step_none. }
  apply inc_qts_run in E as [[[e [=]] _]|(t & a & Ho & Ha & [= ->] & ->)].
  apply M_bind_cases in E' as [(e & E & ->)|(data & d1 & E & E')]; unfold lift_result in E; injection E as Hw <-; [by eapply step_read_gap|].
  pose proof (post_update_core now (t, sa_upd_qts a + 1) HISTORY_READ (ic_chat_id peer) (Some data) None false None (inc_auth t a d)) as Hpost.
  assert (d' = (post_update now (t, sa_upd_qts a + 1) HISTORY_READ (ic_chat_id peer) (Some data) None false None (inc_auth t a d)).2) as ->.
  { revert E'. unfold mbind, M_bind. destruct (post_update _ _ _ _ _ _ _ _ _) as [[[]|e] d2]; by intros [= _ <-]. }
  eapply step_read; [eassumption..| | | | | | |exact Hpost]; cbn; try done.
  exists data. split; [done|]. apply to_bytes_le_length in Hw. exact Hw.
Qed.

Lemma keeps_core_typing cx peer typing : keeps_core (set_encrypted_typing cx peer typing).
Proof.
  apply keeps_core_bind; [apply keeps_core_chat|]. intros c. apply keeps_core_bind; [|auto with core_db].
  destruct typing, (other_sess cx c); auto with core_db.
Qed.

Lemma received_step cx max_qts d : secret_step (OpReceived cx max_qts) d (received_queue cx max_qts d).2.
Proof.
  unfold received_queue, ensure. unfold_monads. destruct (auth_of _ _ d) as [a|] eqn:Ha; [|by apply step_none].
  destruct (negb _); [|by apply step_none]. apply step_received; [by rewrite Ha|done].
Qed.

Lemma run_op_step o d : secret_step o d (run_op o d).2.
Proof.
  destruct o; cbn [run_op]; rewrite ?bind_ret_state;
    auto using request_step, accept_step, discard_step, send_step, read_step, received_step.
  - apply step_none, keeps_core_eq, keeps_core_typing.
  - apply step_log_out.
  - apply step_log_in.
  - by apply step_none.
Qed.

(** ** The invariant *)
Definition party_auth (auth user : Z) (d : SecretDb) : Prop := exists a, s_auths d !! auth = Some a /\ sa_user a = user.

Record chat_ok (d : SecretDb) (c : EncryptedChat) : Prop := {
  chat_two : ec_from_user c <> ec_to_user c;
  chat_from : party_auth (ec_from_sess c) (ec_from_user c) d;
  chat_g_a : _check_g_a_or_b (ec_g_a c) = true;
  chat_to : match ec_to_sess c with
    | None => ec_g_b c = [] /\ ec_key_fp c = None
    | Some s => party_auth s (ec_to_user c) d /\ _check_g_a_or_b (ec_g_b c) = true /\ is_Some (ec_key_fp c) end;
  chat_history : ec_discarded c = false -> ec_history_deleted c = false }.

Record update_ok (d : SecretDb) (u : SecretUpdate) : Prop := {
  update_id : 0 < up_id u < next_update d;
  update_auth : exists a, s_auths d !! up_authorization u = Some a /\ 1 <= up_qts u <= sa_upd_qts a;
  update_chat : exists c, s_chats d !! up_chat u = Some c /\ touches_auth (up_authorization u) c = true /\ is_Some (ec_to_sess c);
  update_form : update_shape u }.

(** Ids grow, and so do the numbers within one authorization's queue. *)
Definition before (u v : SecretUpdate) : Prop := up_id u < up_id v /\ (up_authorization u = up_authorization v -> up_qts u < up_qts v).

Record secret_ok (d : SecretDb) : Prop := {
  ok_chats : forall i c, s_chats d !! i = Some c -> i < next_chat d /\ chat_ok d c;
  ok_auths : forall i a, s_auths d !! i = Some a -> 0 <= sa_upd_qts a;
  ok_next : 0 < next_update d;
  ok_updates : Forall (update_ok d) (secret_updates d);
  ok_sorted : StronglySorted before (secret_updates d) }.

Lemma auth_of_party auth user d : is_Some (auth_of auth user d) <-> party_auth auth user d.
Proof.
  unfold auth_of, party_auth. destruct (s_auths d !! auth) as [a|]; [destruct (Z.eqb_spec (sa_user a) user)|]; split; intros H.
  - by exists a.
  - by eexists.
  - by destruct H.
  - destruct H as (? & [= <-] & ?). congruence.
  - by destruct H.
  - by destruct H as (? & ? & ?).
Qed.

Lemma ok_core d d' : core d' = core d -> secret_ok d -> secret_ok d'.
Proof.
  intros [= Ha Hc Hn Hu Hi] [H1 H2 H3 H4 H5].
  assert (Hp : forall x y, party_auth x y d -> party_auth x y d') by (unfold party_auth; by rewrite Ha).
  split; rewrite ?Ha, ?Hc, ?Hn, ?Hu, ?Hi; auto.
  - intros i c Hl. destruct (H1 i c Hl) as [? [Q1 Q2 Q3 Q4 Q5]]. split; [done|]. split; auto.
    destruct (ec_to_sess c); [|done]. naive_solver.
  - eapply Forall_impl; [exact H4|]. intros u [Q1 Q2 Q3 Q4]. split; rewrite ?Ha, ?Hc, ?Hi; auto.
Qed.

Definition auths_grow (d d' : SecretDb) : Prop := forall x a, s_auths d !! x = Some a ->
  exists a', s_auths d' !! x = Some a' /\ sa_user a' = sa_user a /\ sa_upd_qts a <= sa_upd_qts a'.
Definition chats_grow (d d' : SecretDb) : Prop := forall i c, s_chats d !! i = Some c ->
  exists c', s_chats d' !! i = Some c' /\ ec_from_sess c' = ec_from_sess c /\ (is_Some (ec_to_sess c) -> ec_to_sess c' = ec_to_sess c).

Lemma party_mono d d' x y : auths_grow d d' -> party_auth x y d -> party_auth x y d'.
Proof. intros Hg (a & Ha & <-). destruct (Hg x a Ha) as (a' & ? & ? & _). by exists a'. Qed.
Lemma chat_ok_mono d d' c : auths_grow d d' -> chat_ok d c -> chat_ok d' c.
Proof. intros Hg [? ? ? Ht ?]. split; eauto using party_mono. destruct (ec_to_sess c); [|done]. destruct Ht as (? & ?). eauto using party_mono. Qed.
Lemma update_ok_mono d d' u : auths_grow d d' -> chats_grow d d' -> next_update d <= next_update d' -> update_ok d u -> update_ok d' u.
Proof.
  intros Ha Hc Hn [? (a & Hl & ?) (c & Hlc & Ht & Hs) ?]. split; [lia| | |done].
  - destruct (Ha _ _ Hl) as (a' & ? & _ & ?). exists a'. split; [done|lia].
  - destruct (Hc _ _ Hlc) as (c' & ? & Hf & Hto). exists c'. unfold touches_auth. rewrite Hf, Hto by done. auto.
Qed.

Lemma ok_grow d d' new : secret_ok d -> auths_grow d d' -> chats_grow d d' -> next_update d <= next_update d' ->
  (forall i c, s_chats d' !! i = Some c -> s_chats d !! i = Some c /\ next_chat d <= next_chat d' \/ i < next_chat d' /\ chat_ok d' c) ->
  (forall i a, s_auths d' !! i = Some a -> 0 <= sa_upd_qts a) ->
  secret_updates d' = secret_updates d ++ new -> Forall (update_ok d') new -> StronglySorted before (secret_updates d ++ new) ->
  secret_ok d'.
Proof.
  intros [H1 H2 H3 H4 H5] Ha Hc Hn Hcs Has Hu Hnew Hs. split; [|done|lia| |by rewrite Hu].
  - intros i c Hl. destruct (Hcs i c Hl) as [[Hl' ?]|]; [|done]. destruct (H1 i c Hl') as [? ?]. split; [lia|by eapply chat_ok_mono].
  - rewrite Hu, Forall_app. split; [|done]. eapply Forall_impl; [exact H4|]. intros u. by apply update_ok_mono.
Qed.

Lemma grow_same_auths d d' : s_auths d' = s_auths d -> auths_grow d d'.
Proof. intros E x a H. rewrite E. eauto with lia. Qed.
Lemma grow_same_chats d d' : s_chats d' = s_chats d -> chats_grow d d'.
Proof. intros E i c H. rewrite E. eauto. Qed.

Lemma ok_new_chat d c : secret_ok d -> chat_ok d c -> secret_ok (with_chats (<[next_chat d := c]> (s_chats d)) (next_chat d + 1) d).
Proof.
  intros H Hc. apply (ok_grow d _ []);
    [done|by apply grow_same_auths| |cbn; lia| |exact (ok_auths _ H)|symmetry; apply app_nil_r|constructor|rewrite app_nil_r; by apply ok_sorted].
  - intros i c' Hl. exists c'. cbn. rewrite lookup_insert_ne; [auto|]. intros <-. apply ok_chats in Hl; [lia|done].
  - intros i c'. cbn. intros [[<- <-]|[_ Hl]]%lookup_insert_Some; [right; split; [lia|apply (chat_ok_mono d); [by apply grow_same_auths|done]]|left; split; [done|lia]].
Qed.

Lemma ok_set_chat d i c c' : secret_ok d -> s_chats d !! i = Some c -> chat_ok d c' -> ec_from_sess c' = ec_from_sess c ->
  (is_Some (ec_to_sess c) -> ec_to_sess c' = ec_to_sess c) -> secret_ok (with_chats (<[i := c']> (s_chats d)) (next_chat d) d).
Proof.
  intros H Hl Hc Hf Ht. apply (ok_grow d _ []);
    [done|by apply grow_same_auths| |cbn; lia| |exact (ok_auths _ H)|symmetry; apply app_nil_r|constructor|rewrite app_nil_r; by apply ok_sorted].
  - intros j c1 Hj. cbn. destruct (decide (i = j)) as [<-|Hne]; [|rewrite lookup_insert_ne by done; eauto].
    rewrite lookup_insert_eq. exists c'. simplify_eq. auto.
  - intros j c1. cbn. intros [[<- <-]|[_ Hj]]%lookup_insert_Some; [right|left; split; [done|lia]].
    apply ok_chats in Hl; [|done]. split; [lia|apply (chat_ok_mono d); [by apply grow_same_auths|done]].
Qed.

Lemma inc_grows t a d : s_auths d !! t = Some a -> auths_grow d (inc_auth t a d).
Proof.
  intros Ha x b Hb. cbn. destruct (decide (t = x)) as [<-|Hne]; [|rewrite lookup_insert_ne by done; exists b; split_and!; [done..|lia]].
  rewrite lookup_insert_eq. exists (incremented a). cbn. split; [done|]. split; [congruence|]. simplify_eq. lia.
Qed.
Lemma inc_nonneg t a d : secret_ok d -> s_auths d !! t = Some a -> forall i b, <[t := incremented a]> (s_auths d) !! i = Some b -> 0 <= sa_upd_qts b.
Proof. intros H Ha i b [[<- <-]|[_ Hl]]%lookup_insert_Some; cbn; eauto using ok_auths. apply ok_auths in Ha; [lia|done]. Qed.

Lemma ok_inc d t a : secret_ok d -> s_auths d !! t = Some a -> secret_ok (inc_auth t a d).
Proof.
  intros H Ha. apply (ok_grow d _ []);
    [done|by apply inc_grows|by apply grow_same_chats|cbn; lia| |by apply inc_nonneg|symmetry; apply app_nil_r|constructor|rewrite app_nil_r; by apply ok_sorted].
  intros i c Hl. left. split; [done|cbn; lia].
Qed.

Lemma ok_posted d c u t a : secret_ok d -> s_auths d !! t = Some a -> s_chats d !! up_chat u = Some c -> touches_auth t c = true ->
  is_Some (ec_to_sess c) -> up_id u = next_update d -> up_qts u = sa_upd_qts a + 1 -> up_authorization u = t -> update_shape u ->
  secret_ok (posted u t a d).
Proof.
  intros H Ha Hc Ht Hs Hi Hq Hu Hf. pose proof (ok_auths _ H _ _ Ha) as Ha0. pose proof (ok_next _ H) as Hn.
  apply (ok_grow d _ [u]); [done|by apply inc_grows|by apply grow_same_chats|cbn; lia| |by apply inc_nonneg|done| |].
  - intros i c' Hl. left. split; [done|cbn; lia].
  - constructor; [|constructor]. split; [cbn; lia| |by exists c; rewrite Hu|done].
    exists (incremented a). rewrite Hu. cbn. rewrite lookup_insert_eq. split; [done|lia].
  - apply StronglySorted_app_2; [|by apply ok_sorted|by repeat constructor]. intros v w Hv ->%list_elem_of_singleton.
    pose proof (ok_updates _ H) as Hall. rewrite Forall_forall in Hall. destruct (Hall v Hv) as [Hvi (b & Hb & Hbq) _ _]. split; [lia|].
    intros Hsame. rewrite Hsame, Hu in Hb. simplify_eq. lia.
Qed.

Lemma sorted_filter {A} (R : A -> A -> Prop) (P : A -> Prop) `{forall x, Decision (P x)} l : StronglySorted R l -> StronglySorted R (filter P l).
Proof.
  induction 1 as [|x l Hs IH Hf]; [constructor|]. rewrite filter_cons. case_decide; [|done]. constructor; [done|].
  rewrite Forall_forall in *. intros y Hy. apply Hf. by apply list_elem_of_filter in Hy as [_ ?].
Qed.

(** Rows disappear from the tables. *)
Lemma ok_received d cx max_qts : secret_ok d ->
  secret_ok (with_updates (filter (fun u => ~ (up_authorization u = sx_auth_id cx /\ up_qts u <= max_qts)) (secret_updates d)) (next_update d) d).
Proof.
  intros [H1 H2 H3 H4 H5]. split; cbn; [|done..| |by apply sorted_filter].
  - intros i c Hl. destruct (H1 i c Hl). split; [done|]. apply (chat_ok_mono d); [by apply grow_same_auths|done].
  - apply Forall_forall. intros u [_ Hu]%list_elem_of_filter. rewrite Forall_forall in H4.
    apply (update_ok_mono d); [by apply grow_same_auths|by apply grow_same_chats|done|by apply H4].
Qed.

Lemma ok_log_out d auth : secret_ok d -> secret_ok (log_out_auth auth d).
Proof.
  intros [H1 H2 H3 H4 H5].
  assert (Hp : forall x y, x <> auth -> party_auth x y d -> party_auth x y (log_out_auth auth d)).
  { intros x y Hx (a & Ha & <-). exists a. cbn. by rewrite lookup_delete_ne. }
  split; cbn; [| |done| |by apply sorted_filter].
  - intros i c [Hl Ht]%map_lookup_filter_Some. destruct (H1 i c Hl) as [? [Q1 Q2 Q3 Q4 Q5]]. split; [done|]. unfold touches_auth in Ht. cbn in Ht. b2p.
    split; [done|by apply Hp|done| |done]. destruct (ec_to_sess c) as [s|]; [|done]. destruct Q4. split; [|done]. apply Hp; [congruence|done].
  - intros i a [_ Hl]%lookup_delete_Some. by eapply H2.
  - apply Forall_forall. intros u [[Hne [c Hc]] Hu]%list_elem_of_filter. rewrite Forall_forall in H4.
    destruct (H4 u Hu) as [Q1 (a & Ha & Hq) (c' & Hc' & Hts) Q4]. split; cbn; [done| | |done].
    + exists a. by rewrite lookup_delete_ne.
    + exists c. split; [done|]. apply map_lookup_filter_Some in Hc as [Hc _]. by simplify_eq.
Qed.

Lemma ok_log_in d auth user : secret_ok d -> secret_ok (log_in_auth auth user d).
Proof.
  intros H. unfold log_in_auth. destruct (s_auths d !! auth) eqn:E; [done|].
  assert (Hg : auths_grow d (with_auths (<[auth := MkSecretAuth user true 0]> (s_auths d)) d)).
  { intros x b Hb. exists b. cbn. rewrite lookup_insert_ne by congruence. split_and!; [done..|lia]. }
  apply (ok_grow d _ []); [done|done|by apply grow_same_chats|cbn; lia| | |symmetry; apply app_nil_r|constructor|rewrite app_nil_r; by apply ok_sorted].
  - intros i c Hl. left. split; [done|cbn; lia].
  - intros i b. cbn. intros [[<- <-]|[_ Hl]]%lookup_insert_Some; [done|by eapply ok_auths].
Qed.

(** ** Parties and their sessions *)
Lemma party_sessions cx c d t : chat_ok d c -> is_party cx c = true -> other_sess cx c = Some t -> exists s, ec_to_sess c = Some s /\
  ((sx_auth_id cx = ec_from_sess c /\ sx_user_id cx = ec_from_user c /\ t = s) \/ (sx_auth_id cx = s /\ sx_user_id cx = ec_to_user c /\ t = ec_from_sess c)).
Proof.
  intros [Htwo _ _ _ _]. unfold is_party, other_sess. intros [H|H]%orb_prop Ho; b2p.
  - destruct (Z.eqb_spec (ec_to_user c) (sx_user_id cx)); [congruence|]. exists t. auto.
  - exists (sx_auth_id cx). split; [done|]. right. split_and!; [done..|].
    replace (ec_to_user c =? sx_user_id cx) with true in Ho by (symmetry; by apply Z.eqb_eq). congruence.
Qed.

Lemma party_touches cx c d t : chat_ok d c -> is_party cx c = true -> other_sess cx c = Some t -> touches_auth t c = true /\ is_Some (ec_to_sess c).
Proof.
  intros Hc Hp Ho. destruct (party_sessions cx c d t Hc Hp Ho) as (s & Hs & [(_ & _ & ->)|(_ & _ & ->)]); (split; [|by eexists]); unfold touches_auth.
  - rewrite (bool_decide_eq_true_2 _ Hs). apply orb_true_r.
  - by rewrite Z.eqb_refl.
Qed.

(** ** Every step keeps the invariant *)
Lemma step_ok o d d' : secret_ok d -> secret_step o d d' -> secret_ok d'.
Proof.
  intros H Hs. destruct Hs.
  - by eapply ok_core.
  - eapply ok_core; [eassumption|]. apply ok_new_chat; [done|]. split; cbn; auto. by apply auth_of_party.
  - eapply ok_core; [eassumption|]. destruct (ok_chats _ H _ _ H0) as [_ [Q1 Q2 Q3 Q4 Q5]].
    apply (ok_set_chat d _ c); [done..| |done|]; cbn; [|intros [? ?]; congruence].
    split; cbn; auto. split_and!; [|done|by eexists]. rewrite H1. by apply auth_of_party.
  - eapply ok_core; [eassumption|]. destruct (ok_chats _ H _ _ H0) as [_ [Q1 Q2 Q3 Q4 Q5]].
    apply (ok_set_chat d _ c); [done..| |done|done]. by split.
  - eapply ok_core; [eassumption|]. destruct (ok_chats _ H _ _ H0) as [_ Hc]. destruct (party_touches _ _ _ _ Hc H1 H3) as [Ht Hi].
    apply (ok_posted d c); congruence.
  - eapply ok_core; [eassumption|]. destruct (ok_chats _ H _ _ H0) as [_ Hc]. destruct (party_touches _ _ _ _ Hc H1 H3) as [Ht Hi].
    apply (ok_posted d c); congruence.
  - eapply ok_core; [eassumption|]. by apply ok_inc.
  - eapply ok_core; [eassumption|]. by apply ok_received.
  - by apply ok_log_out.
  - by apply ok_log_in.
Qed.

Lemma run_op_ok o d : secret_ok d -> secret_ok (run_op o d).2.
Proof. intros H. eapply step_ok; [exact H|apply run_op_step]. Qed.
Lemma run_ops_ok os d : secret_ok d -> secret_ok (run_ops os d).
Proof. revert d. induction os as [|o os IH]; intros d H; [done|]. apply IH. by apply run_op_ok. Qed.

(** ** What happens to a chat *)
Inductive chat_moves (i : Z) (c : EncryptedChat) : secret_op -> EncryptedChat -> Prop :=
  | chat_stays o : chat_moves i c o c
  | chat_accepted cx r : i = ic_chat_id (ae_peer r) -> ec_to_user c = sx_user_id cx -> ec_to_sess c = None -> ec_discarded c = false ->
      _check_g_a_or_b (ae_g_b r) = true -> chat_moves i c (OpAccept cx r) (accepted c (sx_auth_id cx) (ae_g_b r) (ae_key_fingerprint r))
  | chat_discarded cx r : i = de_chat_id r -> may_discard cx c = true -> (ec_to_sess c = None \/ is_party cx c = true) -> ec_discarded c = false ->
      chat_moves i c (OpDiscard cx r) (discarded c (de_delete_history r)).

(** The session that sends *)
Definition sender_of (o : secret_op) : option SecretCtx := match o with OpSend cx _ _ | OpRead cx _ _ _ => Some cx | _ => None end.

Definition chat_evolution (o : secret_op) (d d' : SecretDb) : Prop := forall i c, s_chats d !! i = Some c ->
  (exists c', s_chats d' !! i = Some c' /\ chat_moves i c o c') \/ exists auth, o = OpLogOut auth /\ touches_auth auth c = true.
Definition chat_origin (o : secret_op) (d d' : SecretDb) : Prop := forall i c', s_chats d' !! i = Some c' -> s_chats d !! i = None ->
  exists cx now r to, o = OpRequest cx now r /\ to <> sx_user_id cx /\ _check_g_a_or_b (re_g_a r) = true /\
    c' = MkChat chat_access_hash now (sx_user_id cx) (sx_auth_id cx) to None (re_g_a r) [] None false false.
Definition update_origin (o : secret_op) (d d' : SecretDb) : Prop := forall u, u ∈ secret_updates d' -> u ∈ secret_updates d \/
  exists cx c s, sender_of o = Some cx /\ s_chats d !! up_chat u = Some c /\ ec_discarded c = false /\ ec_to_sess c = Some s /\
    ((sx_auth_id cx = ec_from_sess c /\ sx_user_id cx = ec_from_user c /\ up_authorization u = s) \/
     (sx_auth_id cx = s /\ sx_user_id cx = ec_to_user c /\ up_authorization u = ec_from_sess c)).

Lemma evolution_same o d d' : s_chats d' = s_chats d -> chat_evolution o d d' /\ chat_origin o d d'.
Proof. intros E. split; intros i c; rewrite E; [left; exists c; split; [done|constructor]|congruence]. Qed.
Lemma evolution_set o d d' i c c' : s_chats d !! i = Some c -> s_chats d' = <[i := c']> (s_chats d) -> chat_moves i c o c' ->
  chat_evolution o d d' /\ chat_origin o d d'.
Proof.
  intros Hl E Hm. split; intros j x; rewrite E.
  - intros Hx. left. destruct (decide (i = j)) as [<-|Hne]; [rewrite lookup_insert_eq; simplify_eq; eauto|].
    rewrite lookup_insert_ne by done. exists x. split; [done|constructor].
  - intros [[<- <-]|[_ Hj]]%lookup_insert_Some; congruence.
Qed.

Lemma step_chats o d d' : secret_ok d -> secret_step o d d' -> chat_evolution o d d' /\ chat_origin o d d'.
Proof.
  intros H Hs. destruct Hs;
    try (apply evolution_same; match goal with E : core _ = core _ |- _ => by rewrite (core_chats _ _ E) end).
  - match goal with E : core _ = core _ |- _ => apply core_chats in E; cbn in E; rename E into Hc end. split; intros i x; rewrite Hc.
    + intros Hx. left. exists x. split; [|constructor]. rewrite lookup_insert_ne; [done|]. intros <-. apply (ok_chats _ H) in Hx. lia.
    + intros [[<- <-]|[_ Hj]]%lookup_insert_Some Hn; [|congruence]. by exists cx, now, r, to.
  - eapply (evolution_set _ _ _ (ic_chat_id (ae_peer r)) c); [done|match goal with E : core _ = core _ |- _ => exact (core_chats _ _ E) end|by constructor].
  - eapply (evolution_set _ _ _ (de_chat_id r) c); [done|match goal with E : core _ = core _ |- _ => exact (core_chats _ _ E) end|by constructor].
  - split; intros i c; cbn.
    + intros Hl. destruct (touches_auth auth c) eqn:Ht; [right; eauto|]. left. exists c. split; [by apply map_lookup_filter_Some|constructor].
    + intros [Hl _]%map_lookup_filter_Some. congruence.
  - apply evolution_same. unfold log_in_auth. by case_match.
Qed.

Lemma core_updates d d' : core d = core d' -> secret_updates d = secret_updates d'.
Proof. by intros [= ? ? ? ? ?]. Qed.

Lemma step_updates o d d' : secret_ok d -> secret_step o d d' -> update_origin o d d'.
Proof.
  intros H Hs v. destruct Hs; try match goal with E : core _ = core _ |- _ => rewrite (core_updates _ _ E) end; cbn; try (by left).
  - intros [Hv| ->%list_elem_of_singleton]%elem_of_app; [by left|right]. destruct (ok_chats _ H _ _ H0) as [_ Hc].
    destruct (party_sessions _ _ _ _ Hc H1 H3) as (s & Hs & Hcase). exists cx, c, s. split_and!; [done|congruence|done|done|]. naive_solver.
  - intros [Hv| ->%list_elem_of_singleton]%elem_of_app; [by left|right]. destruct (ok_chats _ H _ _ H0) as [_ Hc].
    destruct (party_sessions _ _ _ _ Hc H1 H3) as (s & Hs & Hcase). exists cx, c, s. split_and!; [done|congruence|done|done|]. naive_solver.
  - intros [_ Hv]%list_elem_of_filter. by left.
  - intros [_ Hv]%list_elem_of_filter. by left.
  - unfold log_in_auth. case_match; by left.
Qed.


(** ** The queue of an authorization *)
Lemma sorted_members {A} (R : A -> A -> Prop) l u v : StronglySorted R l -> u ∈ l -> v ∈ l -> u = v \/ R u v \/ R v u.
Proof.
  induction 1 as [|x l Hs IH Hf]; [by intros ?%not_elem_of_nil|]. rewrite Forall_forall in Hf.
  intros [->|Hu]%elem_of_cons [->|Hv]%elem_of_cons; auto.
Qed.

Lemma filter_on_members {A} (P Q : A -> Prop) `{forall x, Decision (P x)} `{forall x, Decision (Q x)} (l : list A) :
  (forall x, x ∈ l -> P x <-> Q x) -> filter P l = filter Q l.
Proof.
  induction l as [|x l IH]; intros Hpq; [done|]. assert (Hx := Hpq x ltac:(left)). rewrite !filter_cons, IH by (intros; apply Hpq; by right).
  repeat case_decide; tauto.
Qed.

Lemma last_by_qts_spec l : match last_by_qts l with None => l = [] | Some b => b ∈ l /\ forall u, u ∈ l -> up_qts u <= up_qts b end.
Proof.
  induction l as [|x l IH] using rev_ind; [done|]. unfold last_by_qts in *. rewrite foldl_app. cbn.
  destruct (foldl _ None l) as [b|].
  - destruct IH as [Hb Hmax]. destruct (up_qts b <? up_qts x) eqn:E; b2p; (split; [apply elem_of_app; auto using list_elem_of_here|]);
      intros u [Hu| ->%list_elem_of_singleton]%elem_of_app; try specialize (Hmax u Hu); lia.
  - subst l. split; [by left|]. intros u ->%list_elem_of_singleton. lia.
Qed.

Definition queue_before (u v : SecretUpdate) : Prop := up_id u < up_id v /\ up_qts u < up_qts v.

Lemma queue_sorted auth d : secret_ok d -> StronglySorted queue_before (queue auth d).
Proof.
  intros H. assert (Hs : StronglySorted before (queue auth d)) by (apply sorted_filter, ok_sorted; done).
  assert (Hq : Forall (fun u => up_authorization u = auth) (queue auth d)) by (apply Forall_forall; by intros u [? _]%list_elem_of_filter).
  induction Hs as [|u l Hs IH Hf]; [constructor|]. inversion Hq as [|? ? Hu Hl]; subst. constructor; [by apply IH|].
  rewrite Forall_forall in *. intros v Hv. destruct (Hf v Hv) as [? Hlt]. split; [done|]. apply Hlt. by rewrite (Hl v Hv).
Qed.

Lemma queue_ok auth d u : secret_ok d -> u ∈ queue auth d -> update_ok d u.
Proof. intros H [_ Hu]%list_elem_of_filter. pose proof (ok_updates _ H) as Hall. rewrite Forall_forall in Hall. by apply Hall. Qed.

(** What [getDifference] selects by id is what the client asked for by number. *)
Lemma new_secret_eq auth qts d : secret_ok d -> new_secret auth qts d = filter (fun u => qts < up_qts u) (queue auth d).
Proof.
  intros H. unfold new_secret. pose proof (queue_sorted auth d H) as Hs.
  pose proof (last_by_qts_spec (filter (fun u => up_qts u <= qts) (queue auth d))) as Hlast.
  destruct (last_by_qts _) as [b|]; apply filter_on_members; intros u Hu.
  - destruct Hlast as [[Hbq Hb]%list_elem_of_filter Hmax]. split; intros Hlt.
    + destruct (decide (qts < up_qts u)); [done|]. assert (up_qts u <= up_qts b) by (apply Hmax, list_elem_of_filter; split; [lia|done]).
      destruct (sorted_members _ _ _ _ Hs Hu Hb) as [->|[[]|[]]]; lia.
    + destruct (sorted_members _ _ _ _ Hs Hu Hb) as [->|[[]|[]]]; lia.
  - destruct (update_id _ _ (queue_ok auth d u H Hu)). split; [intros _|lia]. destruct (decide (qts < up_qts u)); [done|].
    assert (Hin : u ∈ filter (fun u => up_qts u <= qts) (queue auth d)) by (apply list_elem_of_filter; split; [lia|done]).
    rewrite Hlast in Hin. by apply not_elem_of_nil in Hin.
Qed.

Lemma update_written d u : update_ok d u -> is_Some (match secret_to_tl u d with Ok t => Some t | Raise _ => None end).
Proof.
  intros [_ _ _ Hf]. unfold update_shape in Hf. unfold secret_to_tl. destruct (up_type u); [by eexists|].
  destruct Hf as (data & -> & Hl). cbn -[read_bytes]. rewrite (read_bytes_exact Long data true) by exact Hl. by eexists.
Qed.

Lemma mapM_written d l : (forall u, u ∈ l -> update_ok d u) -> exists ts, mapM (fun u => secret_to_tl u d) l = Ok ts /\
  Forall2 (fun u t => secret_to_tl u d = Ok t) l ts.
Proof.
  induction l as [|u l IH]; intros H; [exists []; split; [done|constructor]|].
  destruct (IH ltac:(intros v Hv; apply H; by right)) as (ts & E & Hts). destruct (update_written d u (H u ltac:(left))) as [t Ht].
  destruct (secret_to_tl u d) as [t'|] eqn:Et; [|done]. exists (t' :: ts). split; [|by constructor].
  cbn -[secret_to_tl]. rewrite Et. cbn -[secret_to_tl]. by rewrite E.
Qed.


(** ** A message waits until it is acknowledged *)
Definition pending (u : SecretUpdate) (s1 s2 : Z) (d : SecretDb) : Prop := u ∈ secret_updates d /\
  exists c, s_chats d !! up_chat u = Some c /\ ec_from_sess c = s1 /\ ec_to_sess c = Some s2.
Definition leaves_alone (u : SecretUpdate) (s1 s2 : Z) (o : secret_op) : Prop :=
  match o with
  | OpReceived cx max_qts => sx_auth_id cx <> up_authorization u \/ max_qts < up_qts u
  | OpLogOut auth => auth <> s1 /\ auth <> s2
  | _ => True
  end.

Lemma moves_sessions i c o c' s : chat_moves i c o c' -> ec_to_sess c = Some s -> ec_from_sess c' = ec_from_sess c /\ ec_to_sess c' = Some s.
Proof. intros [] Hs; cbn; split; congruence. Qed.

Lemma pending_step u s1 s2 o d d' : secret_ok d -> (up_authorization u = s1 \/ up_authorization u = s2) -> leaves_alone u s1 s2 o ->
  secret_step o d d' -> pending u s1 s2 d -> pending u s1 s2 d'.
Proof.
  intros H Hu Ho Hs (Hin & c & Hl & Hf & Ht). destruct (step_chats _ _ _ H Hs) as [He _]. split.
  - destruct Hs; cbn [leaves_alone] in Ho; try match goal with E : core _ = core _ |- _ => rewrite (core_updates _ _ E) end; cbn; rewrite ?elem_of_app; auto.
    + apply list_elem_of_filter. split; [|done]. intros [E1 E2]. destruct Ho; [congruence|lia].
    + apply list_elem_of_filter. split; [|done]. split; [intros E1; destruct Hu, Ho; congruence|]. exists c. apply map_lookup_filter_Some. split; [done|].
      unfold touches_auth. cbn. rewrite Ht, Hf. apply orb_false_iff. split; [apply Z.eqb_neq; destruct Ho; congruence|apply bool_decide_eq_false; destruct Ho; congruence].
    + unfold log_in_auth. by case_match.
  - destruct (He _ _ Hl) as [(c' & Hl' & Hm)|(auth & -> & Htouch)].
    + destruct (moves_sessions _ _ _ _ _ Hm Ht). exists c'. split_and!; [done|congruence|done].
    + exfalso. cbn in Ho. unfold touches_auth in Htouch. apply orb_prop in Htouch as [E|E]; b2p; destruct Ho; congruence.
Qed.

Lemma pending_runs u s1 s2 os d : secret_ok d -> (up_authorization u = s1 \/ up_authorization u = s2) -> Forall (leaves_alone u s1 s2) os ->
  pending u s1 s2 d -> pending u s1 s2 (run_ops os d).
Proof.
  intros H Hu Ho. revert d H. induction Ho as [|o os Ho Hos IH]; intros d H Hp; [done|]. apply IH; [by apply run_op_ok|].
  eapply pending_step; [exact H|done..|apply run_op_step|done].
Qed.

(** Sending by a session of an accepted, undiscarded chat *)
Definition the_update (cx : SecretCtx) (now : Z) (r : SendRequest) (t qts : Z) (file : option Z) (d : SecretDb) : SecretUpdate :=
  MkSecretUpdate (next_update d) qts NEW_MESSAGE now t (ic_chat_id (se_peer r)) (Some (se_data r)) (Some (se_random_id r)) (is_service (se_kind r)) file.

Lemma get_chat_ok cx peer d c : s_chats d !! ic_chat_id peer = Some c -> is_party cx c = true -> ec_access_hash c = ic_access_hash peer ->
  is_Some (ec_to_sess c) -> ec_discarded c = false -> _get_secret_chat cx peer d = (Ok c, d).
Proof.
  intros Hl Hp Hh [s Hs] Hd. unfold _get_secret_chat, to_sess_is_none, ensure. unfold_monads. rewrite Hl, Hp, Hs, Hd, (proj2 (Z.eqb_eq _ _) Hh). done.
Qed.
Lemma inc_qts_ok t a d : s_auths d !! t = Some a -> _inc_qts (Some t) d = (Ok (t, sa_upd_qts a + 1), inc_auth t a d).
Proof. intros Ha. unfold _inc_qts, transaction. unfold_monads. by rewrite Ha. Qed.

Lemma file_pushed cx f k : preserves (fun d => pushed d = k) (_resolve_file cx f).
Proof.
  assert (Hu : forall A (m : U A), preserves (fun d => pushed d = k) (on_uploads m)) by (intros A m d <-; unfold on_uploads; by destruct (m _)).
  destruct f as [|id key_fp|id h]; cbn [_resolve_file];
    repeat first [apply preserves_bind|match goal with |- forall _, _ => intros ? end|case_match]; auto using preserves_ensure; by intros d <-.
Qed.

(** What comes before the two steps of sending *)
Lemma send_prefix cx now r d c t a : s_chats d !! ic_chat_id (se_peer r) = Some c -> is_party cx c = true ->
  ec_access_hash c = ic_access_hash (se_peer r) -> is_Some (ec_to_sess c) -> ec_discarded c = false -> other_sess cx c = Some t -> s_auths d !! t = Some a ->
  match se_kind r with SendEncryptedFile f => is_ok (_resolve_file cx f d).1 = true | _ => True end ->
  exists file d1, core d1 = core d /\ pushed d1 = pushed d /\
    send_encrypted cx now r d = post_update now (t, sa_upd_qts a + 1) NEW_MESSAGE (ic_chat_id (se_peer r)) (Some (se_data r)) (Some (se_random_id r))
      (is_service (se_kind r)) file (inc_auth t a d1).
Proof.
  intros Hl Hp Hh Hs Hd Ho Ha Hfile. unfold send_encrypted. rewrite (M_bind_step _ _ _ _ _ (get_chat_ok cx (se_peer r) d c Hl Hp Hh Hs Hd)).
  assert (exists file d1, match se_kind r with SendEncryptedFile f => _resolve_file cx f | _ => mret None end d = (Ok file, d1) /\
    core d1 = core d /\ pushed d1 = pushed d) as (file & d1 & E & Hc & Hpu).
  { destruct (se_kind r) as [| |f]; [by eexists _, _..|]. pose proof (keeps_core_eq _ d (keeps_core_file cx f)) as Hk.
    pose proof (file_pushed cx f _ d eq_refl) as Hq. destruct (_resolve_file cx f d) as [[file|e] d1]; [|done]. by exists file, d1. }
  exists file, d1. split; [done|]. split; [done|]. rewrite (M_bind_step _ _ _ _ _ E), Ho.
  by rewrite (M_bind_step _ _ _ _ _ (inc_qts_ok t a d1 ltac:(by rewrite (core_auths _ _ Hc)))).
Qed.


(** ** From the request to the chat *)
Lemma encryption_update_ok user id c d p : s_state d !! user = Some p -> exists d', encryption_update user id c d = (Ok tt, d') /\ core d' = core d /\
  s_users d' = s_users d /\ s_state d' = <[user := p + 1]> (s_state d) /\ pushed d' = pushed d ++ [(ToUser user, UpdateEncryption (chat_to_tl id c))].
Proof.
  intros Hp. unfold encryption_update, on_state, Pts.add_pts, Pts.get_pts, transaction, push. unfold_monads. cbn. rewrite Hp. by eexists.
Qed.

Lemma request_ok cx now r d to : let c := MkChat chat_access_hash now (sx_user_id cx) (sx_auth_id cx) to None (re_g_a r) [] None false false in
  is_user_peer (re_user_id r) = true -> _check_g_a_or_b (re_g_a r) = true ->
  type_and_id_from_input_raise hmac_sha256 payload (sx_auth_id cx) (sx_user_id cx) (re_user_id r) "USER_ID_INVALID" 400 = Ok (USER, to) ->
  s_users d !! to = Some (MkSecretUser false false) -> party_auth (sx_auth_id cx) (sx_user_id cx) d ->
  (exists a x, s_auths d !! x = Some a /\ sa_user a = to /\ sa_allow_encrypted_requests a = true) ->
  request_encryption cx now r d = (encryption_update to (next_chat d) c;; mret (EncryptedChatToFormat (next_chat d) c))
    (with_chats (<[next_chat d := c]> (s_chats d)) (next_chat d + 1) d).
Proof.
  intros c Hi Hg Ht Hu Ha (a & x & Hx & Hau & Hallow). apply auth_of_party in Ha as [b Hb].
  unfold request_encryption, ensure. unfold_monads. rewrite Hi, Hg, Ht. cbn [fst snd]. rewrite bool_decide_eq_true_2 by done. rewrite Hu.
  cbn [su_deleted su_bot orb negb].
  replace (existsb _ _) with true; [by rewrite Hb|]. symmetry. apply existsb_exists. exists (x, a).
  split; [by apply list_elem_of_In, elem_of_map_to_list|]. cbn. by rewrite Hallow, (proj2 (Z.eqb_eq _ _) Hau).
Qed.

Lemma accept_ok cx r d c : let id := ic_chat_id (ae_peer r) in let c' := accepted c (sx_auth_id cx) (ae_g_b r) (ae_key_fingerprint r) in
  _check_g_a_or_b (ae_g_b r) = true -> s_chats d !! id = Some c -> ec_access_hash c = ic_access_hash (ae_peer r) -> ec_to_user c = sx_user_id cx ->
  ec_to_sess c = None -> ec_discarded c = false -> party_auth (sx_auth_id cx) (sx_user_id cx) d ->
  accept_encryption cx r d = (encryption_update (ec_from_user c) id c';; encryption_update (sx_user_id cx) id c';; mret (EncryptedChatToFormat id c'))
    (with_chats (<[id := c']> (s_chats d)) (next_chat d) d).
Proof.
  intros id c' Hg Hl Hh Hu Hs Hd Ha. apply auth_of_party in Ha as [b Hb].
  unfold accept_encryption, transaction, ensure, save_chat, chat_to_tl. unfold_monads. fold id.
  rewrite Hg, Hl, (proj2 (Z.eqb_eq _ _) Hh), (proj2 (Z.eqb_eq _ _) Hu), Hs, Hd. cbn [andb negb]. rewrite bool_decide_eq_true_2 by done. rewrite Hb.
  subst c'. unfold accepted. cbn [ec_from_user ec_discarded]. by rewrite Hd.
Qed.

Lemma accept_again cx r d c s : _check_g_a_or_b (ae_g_b r) = true -> s_chats d !! ic_chat_id (ae_peer r) = Some c -> ec_access_hash c = ic_access_hash (ae_peer r) ->
  ec_to_user c = sx_user_id cx -> ec_to_sess c = Some s -> accept_encryption cx r d = (Raise (ErrorRpc 400 "ENCRYPTION_ALREADY_ACCEPTED"), d).
Proof.
  intros Hg Hl Hh Hu Hs. unfold accept_encryption, transaction, ensure. unfold_monads.
  by rewrite Hg, Hl, (proj2 (Z.eqb_eq _ _) Hh), (proj2 (Z.eqb_eq _ _) Hu), Hs.
Qed.

(** A request that names a user who takes secret chats, answered by one of his sessions, opens the chat: each of the two sessions gets the other's
    public value and the same fingerprint, the invited user's other sessions see a discarded chat, strangers nothing, and nobody can accept it again. *)
Theorem secret_handshake cxa cxb now to h g_a g_b fp d : secret_ok d -> let id := next_chat d in
  party_auth (sx_auth_id cxa) (sx_user_id cxa) d -> party_auth (sx_auth_id cxb) to d -> sx_user_id cxb = to -> to <> sx_user_id cxa ->
  (exists a x, s_auths d !! x = Some a /\ sa_user a = to /\ sa_allow_encrypted_requests a = true) ->
  s_users d !! to = Some (MkSecretUser false false) ->
  check_access_hash hmac_sha256 payload KUser (sx_user_id cxa) (sx_auth_id cxa) to h = Ok true ->
  is_Some (s_state d !! to) -> is_Some (s_state d !! sx_user_id cxa) ->
  _check_g_a_or_b g_a = true -> _check_g_a_or_b g_b = true ->
  exists c1 d1 c2 d2,
    request_encryption cxa now (MkRequestEncryption (InputUser to h) g_a) d = (Ok c1, d1) /\
    pushed d1 = pushed d ++ [(ToUser to, UpdateEncryption c1)] /\
    (forall x, chat_write (MkSecretCtx x to) c1 = Ok (EncryptedChatRequested id chat_access_hash now (sx_user_id cxa) to g_a)) /\
    accept_encryption cxb (MkAccept (MkInputChat id chat_access_hash) g_b fp) d1 = (Ok c2, d2) /\
    pushed d2 = pushed d1 ++ [(ToUser (sx_user_id cxa), UpdateEncryption c2); (ToUser to, UpdateEncryption c2)] /\
    chat_write cxa c2 = Ok (EncryptedChatOk id chat_access_hash now (sx_user_id cxa) to g_b fp) /\
    chat_write cxb c2 = Ok (EncryptedChatOk id chat_access_hash now (sx_user_id cxa) to g_a fp) /\
    (forall x, x <> sx_auth_id cxb -> chat_write (MkSecretCtx x to) c2 = Ok (EncryptedChatDiscarded id true)) /\
    (forall x u, u <> sx_user_id cxa -> u <> to -> chat_write (MkSecretCtx x u) c2 = Raise Unreachable) /\
    (forall cx g f, _check_g_a_or_b g = true -> sx_user_id cx = to ->
      accept_encryption cx (MkAccept (MkInputChat id chat_access_hash) g f) d2 = (Raise (ErrorRpc 400 "ENCRYPTION_ALREADY_ACCEPTED"), d2)).
Proof.
  intros H id Ha Hb Hbu Hne (a0 & x0 & Hx0 & Hu0 & Hallow) Huser Hhash [pb Hpb] [pa Hpa] Hga Hgb.
  pose (c := MkChat chat_access_hash now (sx_user_id cxa) (sx_auth_id cxa) to None g_a [] None false false).
  pose (d0 := with_chats (<[id := c]> (s_chats d)) (id + 1) d).
  destruct (encryption_update_ok to id c d0 pb Hpb) as (d1 & E1 & Hc1 & Hu1 & Hs1 & Hp1).
  pose (c' := accepted c (sx_auth_id cxb) g_b fp).
  pose (d1' := with_chats (<[id := c']> (s_chats d1)) (next_chat d1) d1).
  assert (Hpa1 : s_state d1' !! sx_user_id cxa = Some pa) by (cbn; by rewrite Hs1, lookup_insert_ne).
  destruct (encryption_update_ok (sx_user_id cxa) id c' d1' pa Hpa1) as (d2 & E2 & Hc2 & Hu2 & Hs2 & Hp2).
  assert (Hpb2 : s_state d2 !! to = Some (pb + 1)) by (rewrite Hs2, lookup_insert_ne by done; cbn; by rewrite Hs1, lookup_insert_eq).
  destruct (encryption_update_ok to id c' d2 (pb + 1) Hpb2) as (d3 & E3 & Hc3 & Hu3 & Hs3 & Hp3).
  assert (Hneq : (to =? sx_user_id cxa) = false) by (by apply Z.eqb_neq).
  assert (Hl1 : s_chats d1 !! id = Some c) by (rewrite (core_chats _ _ Hc1); apply lookup_insert_eq).
  assert (Hb1 : party_auth (sx_auth_id cxb) (sx_user_id cxb) d1) by (unfold party_auth; by rewrite (core_auths _ _ Hc1), Hbu).
  exists (EncryptedChatToFormat id c), d1, (EncryptedChatToFormat id c'), d3. split_and!.
  - rewrite (request_ok _ _ _ _ to); [exact (M_bind_step _ _ _ _ _ E1)|done..| |done|done|by exists a0, x0].
    unfold type_and_id_from_input_raise, type_and_id_from_input. cbn [re_user_id]. by rewrite Hneq, Hhash.
  - exact Hp1.
  - intros x. cbn. by rewrite Hneq, Z.eqb_refl.
  - rewrite (accept_ok _ _ _ c) by done. rewrite (M_bind_step _ _ _ _ _ E2), Hbu. exact (M_bind_step _ _ _ _ _ E3).
  - rewrite Hp3, Hp2. by rewrite <- app_assoc.
  - cbn. by rewrite Z.eqb_refl.
  - cbn. by rewrite Hbu, Hneq, !Z.eqb_refl.
  - intros x Hx. cbn. by rewrite Hneq, Z.eqb_refl, (proj2 (Z.eqb_neq _ _) (not_eq_sym Hx)).
  - intros x u H1 H2. cbn. by rewrite (proj2 (Z.eqb_neq _ _) H1), (proj2 (Z.eqb_neq _ _) H2).
  - intros cx g f Hg Hcx. apply (accept_again _ _ _ c' (sx_auth_id cxb)); [done| |done|done|done].
    rewrite (core_chats _ _ Hc3), (core_chats _ _ Hc2). apply lookup_insert_eq.
Qed.

(** Taking the number and creating the row are two steps: when two sends overtake each other in between, a client that got the first message is
    not given the second one. *)
Lemma overtaken_update now chat r1 r2 b1 b2 d t a : s_auths d !! t = Some a -> queue t d = [] ->
  exists d', (x1 ← _inc_qts (Some t); x2 ← _inc_qts (Some t); post_update now x2 NEW_MESSAGE chat (Some b2) (Some r2) false None;;
      post_update now x1 NEW_MESSAGE chat (Some b1) (Some r1) false None) d = (Ok tt, d') /\
    exists u, u ∈ queue t d' /\ up_qts u = sa_upd_qts a + 2 /\ up_data u = Some b2 /\ new_secret t (sa_upd_qts a + 1) d' = [].
Proof.
  intros Ha Hq. rewrite (M_bind_step _ _ _ _ _ (inc_qts_ok t a d Ha)).
  rewrite (M_bind_step _ _ _ _ _ (inc_qts_ok t (incremented a) (inc_auth t a d) ltac:(apply lookup_insert_eq))). cbn [sa_upd_qts incremented].
  eexists. split; [unfold post_update, push; unfold_monads; cbn; reflexivity|].
  pose (u2 := MkSecretUpdate (next_update d) (sa_upd_qts a + 1 + 1) NEW_MESSAGE now t chat (Some b2) (Some r2) false None).
  pose (u1 := MkSecretUpdate (next_update d + 1) (sa_upd_qts a + 1) NEW_MESSAGE now t chat (Some b1) (Some r1) false None).
  match goal with |- context [queue t ?x] => assert (E : queue t x = [u2; u1]) end.
  { unfold queue in *. cbn. rewrite !filter_app, Hq. cbn. by destruct (decide (t = t)). }
  exists u2. rewrite E. split_and!; [by left|cbn; lia|done|]. unfold new_secret. rewrite E. subst u1 u2.
  repeat (cbn in *; case_decide; try lia). done.
Qed.
End Secret.

(** ** A run *)
Definition sample_g : bytes := x01 :: replicate 255 x00.
Definition sample_secret_db : SecretDb := MkSecretDb
  (<[1 := MkSecretUser false false]> {[2 := MkSecretUser false false]})
  (<[10 := MkSecretAuth 1 true 0]> (<[20 := MkSecretAuth 2 true 0]> {[21 := MkSecretAuth 2 true 0]}))
  {[5 := MkChat 77 0 1 10 2 (Some 20) sample_g sample_g (Some 9) false false]} 6 [] 1 ∅ 1
  sample_start (<[1 := 0]> {[2 := 0]}) [] [].
Definition sample_secret_hmac (_ : bytes) : bytes := replicate 32 x00.
Definition sample_payload (_ : signed_kind) (_ _ _ : Z) : bytes := [].
Definition sample_sender : SecretCtx := MkSecretCtx 10 1.
Definition sample_receiver : SecretCtx := MkSecretCtx 20 2.
Definition sample_message : SendRequest := MkSend (MkInputChat 5 77) 1234 [x2a] SendEncrypted.

Lemma sample_secret_ok : secret_ok sample_secret_db.
Proof.
  split; cbn; [| |lia|constructor|constructor].
  - intros i c [<- <-]%lookup_singleton_Some. split; [lia|]. split; cbn; [lia|by eexists|vm_compute; reflexivity| |done].
    split_and!; [by eexists|vm_compute; reflexivity|by eexists].
  - intros i a. rewrite !lookup_insert_Some, lookup_singleton_Some. intros [[_ <-]|[_ [[_ <-]|[_ [_ <-]]]]]; cbn; lia.
Qed.


Definition sample_delivered : SecretDb := (run_op sample_secret_hmac sample_payload 77 true (OpSend sample_sender 100 sample_message) sample_secret_db).2.



Lemma secret_handshake_witness : exists c d', request_encryption sample_secret_hmac sample_payload 77 sample_sender 100 (MkRequestEncryption (InputUser 2 0) sample_g)
  sample_secret_db = (Ok c, d').
Proof.
  destruct (secret_handshake sample_secret_hmac sample_payload 77 sample_sender sample_receiver 100 2 0 sample_g sample_g 9 sample_secret_db)
    as (c1 & d1 & _ & _ & E & _).
  - exact sample_secret_ok.
  - by eexists.
  - by eexists.
  - reflexivity.
  - cbn. lia.
  - by exists (MkSecretAuth 2 true 0), 20.
  - reflexivity.
  - vm_compute. reflexivity.
  - by eexists.
  - by eexists.
  - vm_compute. reflexivity.
  - vm_compute. reflexivity.
  - exists c1, d1. exact E.
Defined.
