(* ===== verification/Worker.v ===== *)
(** The worker ([piltover/worker.py]): how handlers are registered, what a request has to satisfy before its handler runs, and what becomes of the
    handler's outcome. [CallRpc] and [RpcResponse] are those of [Gateway.v], whose parameter [run_task] this component implements.

    The state is the request context and a store that handlers may change as they like. Finding the user of an authorization, the generated
    [check_for_ctx_values] and the way of a response through a result backend that is not in memory are parameters. *)
From S2P Require Import Prelude PyBytes TlPrimitives TlObject Session AuthKeys Broker SessionManager ClientSend Gateway.

(** ** [ReqHandlerFlags] *)
Definition NONE : Z := 0.
Definition AUTH_NOT_REQUIRED : Z := Z.shiftl 1 0.
Definition ALLOW_MFA_PENDING : Z := Z.shiftl 1 1.
Definition BOT_NOT_ALLOWED : Z := Z.shiftl 1 2.
Definition REFRESH_SESSION : Z := Z.shiftl 1 3.
Definition USER_NOT_ALLOWED : Z := Z.shiftl 1 4.
Definition INTERNAL : Z := Z.shiftl 1 5.
Definition DONT_FETCH_USER : Z := Z.shiftl 1 6.
Definition FETCH_USER_WITH_USERNAME : Z := Z.shiftl 1 7.

(** [request_ctx]'s value, as far as it is not the worker itself *)
Record RequestContext := MkRequestContext {
  rc_auth_key_id : option Z; rc_perm_auth_key_id : option Z; rc_message_id : Z; rc_session_id : Z; rc_obj : tlval; rc_layer : Z;
  rc_auth_id : option Z; rc_user_id : option Z; rc_ip : pystr }.

(** [NeedContextValuesContext]: the sets that [check_for_ctx_values] fills *)
Record NeedContextValuesContext := MkNeed {
  poll_answers : list Z; chat_participants_ : list Z; channel_participants : list Z; need_users : list Z; channel_messages : list Z }.
Definition nonempty (l : list Z) : bool := negb (bool_decide (l = [])).
Definition need_any (n : NeedContextValuesContext) : bool :=
  nonempty (poll_answers n) || nonempty (chat_participants_ n) || nonempty (channel_participants n) || nonempty (need_users n) || nonempty (channel_messages n).
Definition ids_or_none (l : list Z) : tlval := if nonempty l then VInts l else VNone.
Definition need_to_tl (n : NeedContextValuesContext) (obj : tlval) : tlval :=
  VObj ID_NeedsContextValues [obj; ids_or_none (poll_answers n); ids_or_none (chat_participants_ n); ids_or_none (channel_participants n);
    ids_or_none (need_users n); ids_or_none (channel_messages n); VNone].

Section Worker.
Context {St User : Type}.
Abbreviation WS := (option RequestContext * St)%type.

(** The keyword arguments of a handler: those it has *)
Record Kwargs := MkKwargs { kw_request : option tlval; kw_user : option (option User); kw_user_id : option (option Z) }.
Record RequestHandler := MkHandler {
  func : Kwargs -> M WS (option tlval); flags : Z; has_request_arg : bool; has_user_arg : bool; has_user_id_arg : bool }.

Definition has_flag (h : RequestHandler) (f : Z) : bool := negb (Z.land (flags h) f =? 0).
Definition auth_required (h : RequestHandler) : bool := negb (has_flag h AUTH_NOT_REQUIRED).
Definition allow_mfa_pending (h : RequestHandler) : bool := has_flag h ALLOW_MFA_PENDING.
Definition bots_not_allowed (h : RequestHandler) : bool := has_flag h BOT_NOT_ALLOWED.
Definition refresh_session (h : RequestHandler) : bool := has_flag h REFRESH_SESSION.
Definition users_not_allowed (h : RequestHandler) : bool := has_flag h USER_NOT_ALLOWED.
Definition is_internal (h : RequestHandler) : bool := has_flag h INTERNAL.
Definition dont_fetch_user (h : RequestHandler) : bool := has_flag h DONT_FETCH_USER.
Definition prefetch_username (h : RequestHandler) : bool := has_flag h FETCH_USER_WITH_USERNAME.

Context (id_of_user : User -> Z).

(** [RequestHandler.__call__] *)
Definition handler_kwargs (h : RequestHandler) (request : tlval) (user : option User) (user_id : option Z) : Kwargs :=
  MkKwargs (if has_request_arg h then Some request else None) (if has_user_arg h then Some user else None)
    (if has_user_id_arg h then Some (match user_id with Some i => Some i | None => id_of_user <$> user end) else None).
Definition handler_call (h : RequestHandler) (request : tlval) (user : option User) (user_id : option Z) : M WS (option tlval) :=
  func h (handler_kwargs h request user user_id).

(** ** [MessageHandler] *)
Record MessageHandler := MkMessageHandler { mh_registered : bool; request_handlers : gmap Z RequestHandler }.
Definition new_MessageHandler : MessageHandler := MkMessageHandler false ∅.

(** The decorator of [on_request]: a handler of the same request is overridden. *)
Definition on_request (typ : Z) (h : RequestHandler) (self : MessageHandler) : MessageHandler :=
  MkMessageHandler (mh_registered self) (<[typ := h]> (request_handlers self)).

(** [self.register_handler(handler, clear)]: the two objects afterwards *)
Definition register_handler (self handler : MessageHandler) (clear : bool) : result (MessageHandler * MessageHandler) :=
  if mh_registered handler then Raise RuntimeError
  else Ok (MkMessageHandler (mh_registered self) (request_handlers handler ∪ request_handlers self),
           MkMessageHandler true (if clear then ∅ else request_handlers handler)).

Fixpoint register_handlers (self : MessageHandler) (handlers : list MessageHandler) : result MessageHandler :=
  match handlers with
  | [] => Ok self
  | h :: handlers => r ← register_handler self h true; register_handlers r.1 handlers
  end.

(** ** Requests *)
(** [User.get_or_none(id=..., userauthorizations__id=...)]; [select_related("username")] does not change which row it is. *)
Context (find_user : Z -> Z -> St -> option User).
Context (check_for_ctx_values : tlval -> NeedContextValuesContext).
(** Whether the result backend is in memory, and otherwise [response.write().hex()], as the gateway reads it back *)
Context (in_memory : bool) (through_wire : tlval -> result tlval) (through_wire_response : RpcResponse -> result RpcResponse).

Definition get_user (call : CallRpc) (allow_mfa : bool) (s : St) : result (option User) :=
  match cr_user_id call, cr_auth_id call with
  | Some user_id, Some auth_id =>
    if cr_mfa_pending call && negb allow_mfa then Raise (ErrorRpc 401 "SESSION_PASSWORD_NEEDED") else Ok (find_user user_id auth_id s)
  | _, _ => Ok None
  end.

Definition finish (r : RpcResponse) : result RpcResponse := if in_memory then Ok r else through_wire_response r.
Definition _err_response (req_msg_id code : Z) (message : string) : result RpcResponse :=
  finish (MkRpcResponse (RpcResult req_msg_id (RpcError code message)) None false).

(** [request_ctx.set(...)], the call, and [request_ctx.reset(ctx_token)] *)
Definition in_context {A} (c : RequestContext) (m : M WS A) : M WS A := fun '(old, s) => let '(r, (_, s')) := m (Some c, s) in (r, (old, s')).

(** What the handler returned or raised, as an object *)
Definition outcome (r : result (option tlval)) : tlval :=
  match r with
  | Ok (Some result) => result
  | Ok None => RpcError 500 "NOT_IMPLEMENTED"
  | Raise (ErrorRpc code message) => RpcError code message
  | Raise _ => RpcError 500 "Server error"
  end.

Definition is_rpc_error (v : tlval) : bool := bool_decide (tlid v = ID_RpcError).

Definition with_context_values (result_obj result : tlval) : tlval :=
  if is_rpc_error result then result_obj
  else let ctx := check_for_ctx_values result_obj in if need_any ctx then need_to_tl ctx result_obj else result_obj.

Definition context_of (call : CallRpc) : RequestContext :=
  MkRequestContext (cr_auth_key_id call) (cr_perm_auth_key_id call) (cr_message_id call) (cr_session_id call) (cr_obj call) (cr_layer call)
    (cr_auth_id call) (cr_user_id call) (if bool_decide (cr_ip call = []) then pystr_of "127.0.0.1" else cr_ip call).

(** From the context on *)
Definition run_handler (h : RequestHandler) (call : CallRpc) (user : option User) : M WS (result RpcResponse) :=
  r ← attempt (in_context (context_of call) (handler_call h (cr_obj call) user (cr_user_id call)));
  let result := outcome r in
  let result_obj := with_context_values (RpcResult (cr_message_id call) result) result in
  mret (finish (MkRpcResponse result_obj None (refresh_session h))).

Definition is_zero_or_none (o : option Z) : bool := match o with None => true | Some z => z =? 0 end.

(** What the tests before the handler decide: an error, or the user to run it with *)
Definition _handle_tl_rpc (table : gmap Z RequestHandler) (call : CallRpc) : M WS (result RpcResponse) :=
  let refuse code message := mret (_err_response (cr_message_id call) code message) in
  match table !! tlid (cr_obj call) with
  | None => refuse 500 "NOT_IMPLEMENTED"%string
  | Some handler =>
    if is_internal handler then refuse 500 "NOT_IMPLEMENTED"%string
    else if cr_is_bot call && bots_not_allowed handler then refuse 400 "BOT_METHOD_INVALID"%string
    else if negb (cr_is_bot call) && users_not_allowed handler then refuse 400 "USER_BOT_REQUIRED"%string
    else if (auth_required handler || has_user_arg handler) && negb (dont_fetch_user handler) then
      s ← get;
      match get_user call (allow_mfa_pending handler) s.2 with
      | Raise (ErrorRpc code message) => refuse code message
      | Raise e => raise e
      | Ok user =>
        if bool_decide (user = None) && auth_required handler then refuse 401 "AUTH_KEY_UNREGISTERED"%string
        else run_handler handler call user
      end
    else if dont_fetch_user handler && auth_required handler then
      if is_zero_or_none (cr_user_id call) then refuse 401 "AUTH_KEY_UNREGISTERED"%string
      else if cr_mfa_pending call && negb (allow_mfa_pending handler) then refuse 401 "SESSION_PASSWORD_NEEDED"%string
      else run_handler handler call None
    else run_handler handler call None
  end.

(** ** Internal requests *)
Record CallRpcInternal := MkCallRpcInternal { ci_obj : tlval; ci_as_auth_id : option Z; ci_as_user : option Z }.

Definition finish_internal (v : tlval) : result tlval := if in_memory then Ok v else through_wire v.
Definition _err_response_internal (code : Z) (message : string) : result tlval := finish_internal (RpcError code message).

Definition context_of_internal (layer : Z) (call : CallRpcInternal) : RequestContext :=
  MkRequestContext (Some 0) (Some 0) 0 0 (ci_obj call) layer (Some (default 0 (ci_as_auth_id call))) (Some (default 0 (ci_as_user call))) (pystr_of "127.0.0.1").

Definition _handle_tl_rpc_internal (table : gmap Z RequestHandler) (layer : Z) (call : CallRpcInternal) : M WS (result tlval) :=
  match table !! tlid (ci_obj call) with
  | None => mret (_err_response_internal 500 "NOT_IMPLEMENTED")
  | Some handler =>
    if negb (is_internal handler) then mret (_err_response_internal 500 "ERROR_METHOD_NOT_INTERNAL")
    else
      r ← attempt (in_context (context_of_internal layer call) (handler_call handler (ci_obj call) None None));
      mret (finish_internal (outcome r))
  end.

(** ** Who gets through *)
Record admitted (h : RequestHandler) (call : CallRpc) (s : St) (user : option User) : Prop := {
  adm_external : is_internal h = false;
  adm_bot : if cr_is_bot call then bots_not_allowed h = false else users_not_allowed h = false;
  adm_auth : auth_required h = true -> is_Some (cr_user_id call) /\ (dont_fetch_user h = true \/ is_Some user);
  adm_pending : auth_required h = true \/ is_Some user -> cr_mfa_pending call = true -> allow_mfa_pending h = true;
  adm_user : forall u, user = Some u -> exists i a, cr_user_id call = Some i /\ cr_auth_id call = Some a /\ find_user i a s = Some u }.

(** Why a request is refused *)
Inductive refused (table : gmap Z RequestHandler) (call : CallRpc) (s : St) : Z -> string -> Prop :=
  | refused_unknown : table !! tlid (cr_obj call) = None -> refused table call s 500 "NOT_IMPLEMENTED"
  | refused_internal h : table !! tlid (cr_obj call) = Some h -> is_internal h = true -> refused table call s 500 "NOT_IMPLEMENTED"
  | refused_bot h : table !! tlid (cr_obj call) = Some h -> cr_is_bot call = true -> bots_not_allowed h = true -> refused table call s 400 "BOT_METHOD_INVALID"
  | refused_human h : table !! tlid (cr_obj call) = Some h -> cr_is_bot call = false -> users_not_allowed h = true ->
      refused table call s 400 "USER_BOT_REQUIRED"
  | refused_pending h : table !! tlid (cr_obj call) = Some h -> cr_mfa_pending call = true -> allow_mfa_pending h = false ->
      auth_required h = true \/ has_user_arg h = true -> refused table call s 401 "SESSION_PASSWORD_NEEDED"
  | refused_stranger h : table !! tlid (cr_obj call) = Some h -> auth_required h = true ->
      match cr_user_id call with
      | None => True
      | Some i => if dont_fetch_user h then i = 0 else match cr_auth_id call with Some a => find_user i a s = None | None => True end
      end -> refused table call s 401 "AUTH_KEY_UNREGISTERED".

Lemma in_context_run {A} c (m : M WS A) old s : exists r s', in_context c m (old, s) = (r, (old, s')) /\ exists inner, m (Some c, s) = (r, (inner, s')).
Proof. unfold in_context. destruct (m (Some c, s)) as [r [inner s']]. eauto. Qed.

Lemma run_handler_run h call user old s : exists r s', run_handler h call user (old, s) =
    (Ok (finish (MkRpcResponse (with_context_values (RpcResult (cr_message_id call) (outcome r)) (outcome r)) None (refresh_session h))), (old, s')) /\
  exists inner, handler_call h (cr_obj call) user (cr_user_id call) (Some (context_of call), s) = (r, (inner, s')).
Proof.
  unfold run_handler, attempt. destruct (in_context_run (context_of call) (handler_call h (cr_obj call) user (cr_user_id call)) old s) as (r & s' & E & Hin).
  exists r, s'. split; [|done]. unfold_monads. by rewrite E.
Qed.

Lemma get_user_ok call allow s user : get_user call allow s = Ok user -> (is_Some user -> cr_mfa_pending call = true -> allow = true) /\
  (is_Some user -> is_Some (cr_user_id call)) /\ (forall u, user = Some u -> exists i a, cr_user_id call = Some i /\ cr_auth_id call = Some a /\ find_user i a s = Some u) /\
  (user = None -> match cr_user_id call, cr_auth_id call with Some i, Some a => find_user i a s = None | _, _ => True end).
Proof.
  unfold get_user. destruct (cr_user_id call) as [i|]; [destruct (cr_auth_id call) as [a|]|]; [|intros [= <-]; split_and!; [intros []|intros []| |]; done..].
  destruct (cr_mfa_pending call && negb allow) eqn:E; [done|]. intros [= <-]. split_and!; [|eauto| |done].
  - intros _ Hm. rewrite Hm in E. by destruct allow.
  - intros u Hu. by exists i, a.
Qed.
Lemma get_user_raise call allow s e : get_user call allow s = Raise e -> e = ErrorRpc 401 "SESSION_PASSWORD_NEEDED" /\ cr_mfa_pending call = true /\ allow = false.
Proof.
  unfold get_user. destruct (cr_user_id call), (cr_auth_id call); try discriminate. destruct (cr_mfa_pending call), allow; cbn; try discriminate. by intros [= <-].
Qed.

(** The two ways a request can end *)
Inductive rpc_answer (table : gmap Z RequestHandler) (call : CallRpc) (s : St) : result RpcResponse -> St -> Prop :=
  | answer_refused code message : refused table call s code message -> rpc_answer table call s (_err_response (cr_message_id call) code message) s
  | answer_handled h user r inner s' : table !! tlid (cr_obj call) = Some h -> admitted h call s user ->
      handler_call h (cr_obj call) user (cr_user_id call) (Some (context_of call), s) = (r, (inner, s')) ->
      rpc_answer table call s
        (finish (MkRpcResponse (with_context_values (RpcResult (cr_message_id call) (outcome r)) (outcome r)) None (refresh_session h))) s'.

Lemma run_handler_answer table h call user old s : table !! tlid (cr_obj call) = Some h -> admitted h call s user ->
  exists answer s', run_handler h call user (old, s) = (Ok answer, (old, s')) /\ rpc_answer table call s answer s'.
Proof.
  intros Hh Ha. destruct (run_handler_run h call user old s) as (r & s' & E & inner & Hi). eexists _, s'. split; [exact E|]. by eapply answer_handled.
Qed.

Lemma refused_answer table call old s code message : refused table call s code message ->
  exists answer s', (mret (_err_response (cr_message_id call) code message) : M WS (result RpcResponse)) (old, s) = (Ok answer, (old, s')) /\
    rpc_answer table call s answer s'.
Proof. intros H. eexists _, s. split; [reflexivity|]. by constructor. Qed.

(** C2: a request reaches a handler only when it is registered and not internal, made for this kind of account, and, where it needs an
    authorization, comes from a user (whose row with this authorization was found, unless the handler waives that) with no second factor pending that the
    handler does not allow; a handler is never given another user than the one of the authorization. Every other request changes nothing and is answered
    with the error that says which of these it lacks. The handler runs in the context of its request, the context of the caller is back afterwards
    whatever it raises, and the answer is its result, its error, or an error 500. *)
Theorem rpc_gate table call old s : exists answer s', _handle_tl_rpc table call (old, s) = (Ok answer, (old, s')) /\ rpc_answer table call s answer s'.
Proof.
  unfold _handle_tl_rpc. destruct (table !! _) as [h|] eqn:Hh; [|apply refused_answer; by constructor].
  destruct (is_internal h) eqn:Hi; [apply refused_answer; by eapply refused_internal|].
  destruct (cr_is_bot call && bots_not_allowed h) eqn:Hb; [b2p; apply refused_answer; by eapply refused_bot|].
  destruct (negb (cr_is_bot call) && users_not_allowed h) eqn:Hu; [b2p; apply refused_answer; by eapply refused_human|].
  assert (Hkind : if cr_is_bot call then bots_not_allowed h = false else users_not_allowed h = false) by (by destruct (cr_is_bot call)).
  destruct (_ && negb (dont_fetch_user h)) eqn:Hf.
  - rewrite get_bind. cbn [snd]. apply andb_prop in Hf as [Hneed Hfetch]. apply orb_prop in Hneed. b2p.
    destruct (get_user call (allow_mfa_pending h) s) as [user|e] eqn:Eg.
    2: { destruct (get_user_raise _ _ _ _ Eg) as (-> & ? & ?). apply refused_answer. by eapply refused_pending. }
    destruct (get_user_ok _ _ _ _ Eg) as (Hp & Hid & Hrow & Hnone). destruct (bool_decide (user = None) && auth_required h) eqn:Hn.
    { b2p. apply refused_answer. apply (refused_stranger _ _ _ h); [done..|]. specialize (Hnone ltac:(done)).
      destruct (cr_user_id call); [|done]. by rewrite Hfetch. }
    apply run_handler_answer; [done|]. split; try done.
    + intros Ha. rewrite Ha, andb_true_r in Hn. b2p. destruct user as [u|]; [|done]. split; [by apply Hid|right; by eexists].
    + intros [Ha|Hs]; [|by apply Hp]. rewrite Ha, andb_true_r in Hn. b2p. destruct user as [u|]; [|done]. apply Hp. by eexists.
  - destruct (dont_fetch_user h && auth_required h) eqn:Hd.
    + b2p. destruct (is_zero_or_none (cr_user_id call)) eqn:Hz.
      { apply refused_answer. apply (refused_stranger _ _ _ h); [done..|]. destruct (cr_user_id call) as [i|]; [|done].
        replace (dont_fetch_user h) with true by done. by apply Z.eqb_eq. }
      destruct (cr_mfa_pending call && negb (allow_mfa_pending h)) eqn:Hm; [b2p; apply refused_answer; apply (refused_pending _ _ _ h); auto|].
      apply run_handler_answer; [done|]. split; try done.
      * intros _. split; [|by left]. unfold is_zero_or_none in Hz. destruct (cr_user_id call); [by eexists|done].
      * intros _ Hp. rewrite Hp in Hm. by destruct (allow_mfa_pending h).
    + apply run_handler_answer; [done|]. assert (Hna : auth_required h = false).
      { destruct (auth_required h); [|done]. by destruct (dont_fetch_user h). }
      split; try done; [by rewrite Hna|]. intros [Ha|[? [=]]]. congruence.
Qed.

(** An internal request runs only handlers that are internal, as the user it names, and every other one is refused without an effect; its errors
    are mapped like those of a client's request, and the context of the caller is back afterwards. *)
Theorem rpc_internal table layer call old s : exists answer s', _handle_tl_rpc_internal table layer call (old, s) = (Ok answer, (old, s')) /\
  match table !! tlid (ci_obj call) with
  | Some h => if is_internal h then exists r inner, handler_call h (ci_obj call) None None (Some (context_of_internal layer call), s) = (r, (inner, s')) /\
        answer = finish_internal (outcome r)
      else s' = s /\ answer = _err_response_internal 500 "ERROR_METHOD_NOT_INTERNAL"
  | None => s' = s /\ answer = _err_response_internal 500 "NOT_IMPLEMENTED"
  end.
Proof.
  unfold _handle_tl_rpc_internal. destruct (table !! _) as [h|]; [|by eexists _, s]. destruct (is_internal h); [|by eexists _, s]. cbn [negb].
  destruct (in_context_run (context_of_internal layer call) (handler_call h (ci_obj call) None None) old s) as (r & s' & E & inner & Hi).
  eexists _, s'. split; [|by eexists _, _]. unfold attempt. unfold_monads. by rewrite E.
Qed.

(** ** Registration *)
Lemma register_handlers_map hs self w : register_handlers self hs = Ok w ->
  request_handlers w = foldl (fun acc h => request_handlers h ∪ acc) (request_handlers self) hs.
Proof.
  revert self. induction hs as [|h hs IH]; intros self; cbn; [by intros [= <-]|]. unfold register_handler.
  destruct (mh_registered h); [done|]. cbn. intros E. by rewrite (IH _ E).
Qed.


Lemma foldl_union_miss hs (acc : gmap Z RequestHandler) id : Forall (fun h => request_handlers h !! id = None) hs ->
  foldl (fun acc h => request_handlers h ∪ acc) acc hs !! id = acc !! id.
Proof.
  intros H. revert acc. induction H as [|h hs Hh _ IH]; intros acc; [done|]. cbn. rewrite IH. by apply lookup_union_r.
Qed.

(** Of all handlers of a request the one registered last answers it. *)
Lemma last_registered self w hs1 h hs2 id rh : register_handlers self (hs1 ++ h :: hs2) = Ok w -> request_handlers h !! id = Some rh ->
  Forall (fun h => request_handlers h !! id = None) hs2 -> request_handlers w !! id = Some rh.
Proof.
  intros Hr Hh Hmiss. rewrite (register_handlers_map _ _ _ Hr), foldl_app. cbn. rewrite foldl_union_miss by done. by apply lookup_union_Some_l.
Qed.

Lemma pending_refused table call old s h : table !! tlid (cr_obj call) = Some h -> is_internal h = false ->
  cr_is_bot call = false -> users_not_allowed h = false -> auth_required h = true -> allow_mfa_pending h = false ->
  cr_mfa_pending call = true -> (exists u, cr_user_id call = Some u /\ u <> 0) -> is_Some (cr_auth_id call) ->
  _handle_tl_rpc table call (old, s) = (Ok (_err_response (cr_message_id call) 401 "SESSION_PASSWORD_NEEDED"), (old, s)).
Proof.
  intros Hh Hi Hb Hu Ha Hm Hp (u & Hid & Hu0) [a Haid]. unfold _handle_tl_rpc, get_user. rewrite Hh, Hi, Hb, Hu, Ha, Hm, Hp, Hid, Haid. cbn [andb orb negb].
  destruct (dont_fetch_user h); cbn; [|done]. by rewrite (proj2 (Z.eqb_neq _ _) Hu0).
Qed.
End Worker.

(** ** The worker behind the gateway *)
Section Behind.
Context {LR : Lru} {User : Type} (id_of_user : User -> Z) (find_user : Z -> Z -> World -> option User)
  (check_for_ctx_values : tlval -> NeedContextValuesContext) (in_memory : bool) (through_wire_response : RpcResponse -> result RpcResponse)
  (table : gmap Z (@RequestHandler World User)) (slow : CallRpc -> bool).

(** The task [handle_tl_rpc], as [Gateway.v] waits for it *)
Definition worker_task (call : CallRpc) : W (bool * task_result) := fun w =>
  let '(r, (_, w)) := _handle_tl_rpc id_of_user find_user check_for_ctx_values in_memory through_wire_response table call (None, w) in
  (Ok (slow call, match r with Ok (Ok response) => TaskResponse response | _ => TaskError end), w).

Context (objects : Z -> option Combinator) (ContextValues : Type) (write : SerializationContext ContextValues -> tlval -> result bytes)
  (resolve_context_values : World -> tlval -> option ContextValues) (max_layer time : Z).

(** C3: whatever a session asks for whose login still waits for the second factor, through the gateway and the worker: unless the handler allows it or
    needs no authorization, the answer is 401 SESSION_PASSWORD_NEEDED, no handler runs, and neither the database nor the connection changes. *)
Theorem pending_login_confined (c ref message_id : Z) obj s a h g :
  heap (world g) !! ref = Some s -> auth_data s = Some a -> _auth_gate time c (default 0 (auth_key_id a)) obj g = (Ok GateOk, g) -> is_Some (clients g !! c) ->
  mfa_pending (auth s) = true -> is_bot (auth s) = false -> (exists u, user_id (auth s) = Some u /\ u <> 0) -> is_Some (auth_id (auth s)) ->
  table !! tlid obj = Some h -> is_internal h = false -> users_not_allowed h = false -> auth_required h = true -> allow_mfa_pending h = false ->
  in_memory = true -> (forall call, slow call = false) ->
  request_task objects ContextValues write resolve_context_values max_layer worker_task time c ref message_id obj g =
    (Ok (Some (RpcResult message_id (RpcError 401 "SESSION_PASSWORD_NEEDED"))), g).
Proof.
  intros Hs Had Hgate [cl Hcl] Hpend Hbot Huser Hauth Hh Hi Hun Har Hal Hmem Hslow.
  assert (Hsess : on_world (session_at ref) g = (Ok s, g)) by (unfold on_world, session_at; rewrite Hs; by rewrite with_world_id).
  assert (Hclient : client_at c g = (Ok cl, g)) by (unfold client_at; by rewrite Hcl).
  unfold request_task. rewrite (M_bind_step _ _ _ _ _ Hsess), Had, (M_bind_step _ _ _ _ _ Hgate), (M_bind_step _ _ _ _ _ Hclient).
  assert (Htask : on_world (worker_task (call_rpc cl s a message_id obj)) g =
    (Ok (false, TaskResponse (MkRpcResponse (RpcResult message_id (RpcError 401 "SESSION_PASSWORD_NEEDED")) None false)), g)).
  { unfold on_world, worker_task. rewrite (pending_refused _ _ _ _ _ table (call_rpc cl s a message_id obj) None (world g) h Hh Hi Hbot Hun Har Hal Hpend Huser Hauth).
    rewrite Hslow. unfold _err_response, finish. rewrite Hmem. by rewrite with_world_id. }
  unfold attempt, _wait_result_with_ack. unfold mbind at 1, M_bind at 1. rewrite (M_bind_step _ _ _ _ _ Htask). done.
Qed.
End Behind.

(** ** A table and requests *)
Definition sample_store : Type := bool.
Definition sample_handler (flags : Z) : @RequestHandler sample_store Z :=
  MkHandler (fun kw => modify (fun '(c, _) => (c, true));; mret (Some (VInt 7))) flags true true true.
Definition sample_table : gmap Z (@RequestHandler sample_store Z) := {[ 40 := sample_handler BOT_NOT_ALLOWED; 41 := sample_handler INTERNAL ]}.
Definition sample_call (pending : bool) : CallRpc := MkCallRpc (VObj 40 []) 200 (Some 3) (Some 3) 7 99 (Some 70) (Some 5) false pending [].
Definition sample_find (user auth : Z) (_ : sample_store) : option Z := if (user =? 5) && (auth =? 70) then Some 5 else None.
Definition sample_need (_ : tlval) : NeedContextValuesContext := MkNeed [] [] [] [] [].

Example sample_runs : _handle_tl_rpc (fun u => u) sample_find sample_need true Ok sample_table (sample_call false) (None, false) =
  (Ok (Ok (MkRpcResponse (RpcResult 99 (VInt 7)) None false)), (None, true)).
Proof. vm_compute. reflexivity. Qed.
Example sample_refused : (_handle_tl_rpc (fun u => u) sample_find sample_need true Ok sample_table (sample_call true) (None, false)).2 = (None, false).
Proof. vm_compute. reflexivity. Qed.

Definition pending_session : Session :=
  with_auth (MkAuthState (Some 5) (Some 70) false true 0 ∅ 0 None) quiet_session.
Definition pending_gw : Gw :=
  MkGw (MkWorld {[ 1 := pending_session ]} ∅ (MkBroker ∅ ∅ ∅ ∅ ∅ ∅) ∅ (MkKeyTables {[ 3 := MkPermKey (zero_bytes 256) 200 ]} ∅) ∅ ∅ ∅ ∅)
    {[ 0 := demo_client None ]} [] ∅.
Definition gateway_handler : @RequestHandler World Z := MkHandler (fun _ => raise KeyError) BOT_NOT_ALLOWED true true false.

Lemma pending_login_confined_witness :
  request_task (fun _ => None) unit demo_write demo_resolve 200
    (worker_task (fun u => u) (fun _ _ _ => None) sample_need true Ok {[ 40 := gateway_handler ]} (fun _ => false)) 0 0 1 44 (VObj 40 []) pending_gw =
    (Ok (Some (RpcResult 44 (RpcError 401 "SESSION_PASSWORD_NEEDED"))), pending_gw).
Proof.
  pose (LR := demo_lru).
  apply (pending_login_confined (fun u => u) (fun _ _ _ => None) sample_need true Ok {[ 40 := gateway_handler ]} (fun _ => false)
    (fun _ => None) unit demo_write demo_resolve 200 0 0 1 44 (VObj 40 []) pending_session (new_AuthData (Some 3) (Some (zero_bytes 256)) (Some 3)) gateway_handler pending_gw).
  - reflexivity.
  - reflexivity.
  - vm_compute. reflexivity.
  - by eexists.
  - reflexivity.
  - reflexivity.
  - exists 5. split; [reflexivity|discriminate].
  - by eexists.
  - reflexivity.
  - reflexivity.
  - reflexivity.
  - reflexivity.
  - reflexivity.
  - reflexivity.
  - reflexivity.
Defined.
