(* ===== verification/Utf16.v ===== *)
(** UTF-16 as the code uses it: [s.encode("utf-16le")], [b.decode("utf-16le")] with the strict error handler, lengths in code units, and slices that
    are taken in code units. *)
From Stdlib Require Import Init.Byte.
From S2P Require Import Prelude PyBytes.

(** [s] as a string of code points *)
Definition text_of (s : string) : pystr := (fun b => byte_val b) <$> String.list_byte_of_string s.

Definition unit_bytes (u : Z) : bytes := le_bytes 2 u.
Definition utf16_char (c : Z) : bytes :=
  if c <? 0x10000 then unit_bytes c else unit_bytes (0xD800 + (c - 0x10000) / 1024) ++ unit_bytes (0xDC00 + (c - 0x10000) mod 1024).

(** [s.encode("utf-16le")] *)
Fixpoint utf16_encode (s : pystr) : result bytes :=
  match s with
  | [] => Ok []
  | c :: s => if is_scalar c then bs ← utf16_encode s; Ok (utf16_char c ++ bs) else Raise UnicodeError
  end.

(** [b.decode("utf-16le")] *)
Fixpoint utf16_decode (b : bytes) : result pystr :=
  match b with
  | [] => Ok []
  | b0 :: b1 :: r =>
    let u := le_val [b0; b1] in
    if (u <? 0xD800) || (0xDFFF <? u) then push_char u (utf16_decode r)
    else if 0xDC00 <=? u then Raise UnicodeError
    else match r with
      | b2 :: b3 :: r =>
        let v := le_val [b2; b3] in
        if (0xDC00 <=? v) && (v <=? 0xDFFF) then push_char (0x10000 + (u - 0xD800) * 1024 + (v - 0xDC00)) (utf16_decode r)
        else Raise UnicodeError
      | _ => Raise UnicodeError
      end
  | _ => Raise UnicodeError
  end.

(** The number of code units of a string without lone surrogates *)
Fixpoint units (s : pystr) : Z := match s with [] => 0 | c :: s => utf16_units c + units s end.

(** [len(s.encode("utf-16le")) // 2] *)
Definition utf16_len (s : pystr) : result Z := b ← utf16_encode s; Ok (Z.of_nat (length b) / 2).

(** The slice [b[i:j]] of Python, with its treatment of negative and large positions *)
Definition slice_bound (n i : Z) : Z := if i <? 0 then Z.max 0 (n + i) else Z.min n i.
Definition slice {A} (i j : Z) (l : list A) : list A :=
  let n := Z.of_nat (length l) in
  let a := slice_bound n i in let b := slice_bound n j in
  take (Z.to_nat (b - a)) (drop (Z.to_nat a) l).

(** [text.encode("utf-16le")[offset * 2:(offset + length) * 2].decode("utf-16le")] *)
Definition utf16_slice (text : pystr) (offset length : Z) : result pystr :=
  u16 ← utf16_encode text; utf16_decode (slice (offset * 2) ((offset + length) * 2) u16).

Definition scalars (s : pystr) : Prop := Forall (fun c => is_scalar c = true) s.

Lemma units_app s t : units (s ++ t) = units s + units t.
Proof. induction s as [|c s IH]; cbn; [done|]. rewrite IH. lia. Qed.
Lemma units_nonneg s : 0 <= units s.
Proof. induction s as [|c s IH]; cbn; [lia|]. pose proof (utf16_units_bounds c). lia. Qed.

Lemma length_utf16_char c : Z.of_nat (length (utf16_char c)) = 2 * utf16_units c.
Proof. unfold utf16_char, utf16_units, unit_bytes. destruct (c <? 0x10000); [|rewrite length_app]; by rewrite !length_le_bytes. Qed.

Lemma utf16_encode_ok s : scalars s -> exists b, utf16_encode s = Ok b /\ Z.of_nat (length b) = 2 * units s.
Proof.
  induction 1 as [|c s Hc _ (b & IH & Hl)]; [by exists []|]. cbn. rewrite Hc, IH. cbn. eexists. split; [reflexivity|].
  rewrite length_app, Nat2Z.inj_add, length_utf16_char. lia.
Qed.

Lemma utf16_encode_app s t : scalars s -> scalars t -> exists a b, utf16_encode s = Ok a /\ utf16_encode t = Ok b /\ utf16_encode (s ++ t) = Ok (a ++ b).
Proof.
  intros Hs Ht. destruct (utf16_encode_ok t Ht) as (b & Eb & _). induction Hs as [|c s Hc Hs (a & b' & IHa & IHb & IH)].
  - exists [], b. auto.
  - rewrite Eb in IHb. injection IHb as <-. exists (utf16_char c ++ a), b. cbn. rewrite Hc, IHa, IH. cbn. by rewrite <- app_assoc.
Qed.

Lemma utf16_len_ok s : scalars s -> utf16_len s = Ok (units s).
Proof. intros H. destruct (utf16_encode_ok s H) as (b & E & Hl). unfold utf16_len. rewrite E. cbn. rewrite Hl. f_equal. rewrite Z.mul_comm. apply Z.div_mul. lia. Qed.

Lemma unit_bytes_two u : exists b0 b1, unit_bytes u = [b0; b1] /\ (0 <= u < 65536 -> le_val [b0; b1] = u).
Proof.
  exists (byte_of u), (byte_of (u / 256)). split; [done|]. intros Hu.
  change [byte_of u; byte_of (u / 256)] with (le_bytes 2 u). rewrite le_val_bytes. by apply Z.mod_small.
Qed.

Lemma utf16_decode_char c r : is_scalar c = true -> utf16_decode (utf16_char c ++ r) = push_char c (utf16_decode r).
Proof.
  intros Hc. unfold is_scalar in Hc. unfold utf16_char. destruct (c <? 0x10000) eqn:E; b2p.
  - destruct (unit_bytes_two c) as (b0 & b1 & -> & Hv). cbn -[le_val]. rewrite Hv by (apply orb_prop in Hc as []; b2p; lia).
    replace ((c <? 55296) || (57343 <? c)) with true; [done|]. symmetry. apply orb_true_iff. rewrite !Z.ltb_lt. apply orb_prop in Hc as []; b2p; lia.
  - assert (Hr : 0x10000 <= c <= 0x10FFFF) by (apply orb_prop in Hc as []; b2p; lia).
    set (h := (c - 65536) / 1024). set (l := (c - 65536) mod 1024).
    assert (Hh : 0 <= h < 1024) by (unfold h; split; [apply Z.div_pos; lia|apply Z.div_lt_upper_bound; lia]).
    assert (Hl : 0 <= l < 1024) by (apply Z.mod_pos_bound; lia).
    destruct (unit_bytes_two (55296 + h)) as (b0 & b1 & -> & Hv). destruct (unit_bytes_two (56320 + l)) as (b2 & b3 & -> & Hw).
    cbn -[le_val]. rewrite Hv, Hw by lia.
    replace ((55296 + h <? 55296) || (57343 <? 55296 + h)) with false by (symmetry; apply orb_false_iff; split; apply Z.ltb_ge; lia).
    replace (56320 <=? 55296 + h) with false by (symmetry; apply Z.leb_gt; lia).
    replace ((56320 <=? 56320 + l) && (56320 + l <=? 57343)) with true by (symmetry; apply andb_true_iff; split; apply Z.leb_le; lia).
    pose proof (Z.div_mod (c - 65536) 1024 ltac:(lia)) as Hdm. fold h l in Hdm. unfold push_char. do 2 f_equal. lia.
Qed.

Lemma utf16_decode_encode s b : scalars s -> utf16_encode s = Ok b -> utf16_decode b = Ok s.
Proof.
  intros Hs. revert b. induction Hs as [|c s Hc Hs IH]; intros b; cbn; [by intros [= <-]|]. rewrite Hc.
  destruct (utf16_encode s) as [b'|]; [|done]. intros [= <-]. rewrite utf16_decode_char by done. by rewrite (IH b' eq_refl).
Qed.

Lemma slice_mid {A} (a b c : list A) : slice (Z.of_nat (length a)) (Z.of_nat (length a) + Z.of_nat (length b)) (a ++ b ++ c) = b.
Proof.
  unfold slice, slice_bound. rewrite !length_app, !Nat2Z.inj_add.
  replace (Z.of_nat (length a) <? 0) with false by (symmetry; apply Z.ltb_ge; lia).
  replace (Z.of_nat (length a) + Z.of_nat (length b) <? 0) with false by (symmetry; apply Z.ltb_ge; lia).
  rewrite !Z.min_r by lia. rewrite Nat2Z.id, drop_app_length. replace (_ - _) with (Z.of_nat (length b)) by lia. by rewrite Nat2Z.id, take_app_length.
Qed.

(** A slice between the lengths of two prefixes is what lies between them. *)
Lemma utf16_slice_mid a b c : scalars a -> scalars b -> scalars c -> utf16_slice (a ++ b ++ c) (units a) (units b) = Ok b.
Proof.
  intros Ha Hb Hc. unfold utf16_slice. assert (Hbc : scalars (b ++ c)) by (by apply Forall_app).
  destruct (utf16_encode_app a (b ++ c) Ha Hbc) as (ea & ebc & Ea & Ebc & ->).
  destruct (utf16_encode_app b c Hb Hc) as (eb & ec & Eb & Ec & E). rewrite E in Ebc. injection Ebc as <-. cbn.
  destruct (utf16_encode_ok a Ha) as (a' & Ea' & La). destruct (utf16_encode_ok b Hb) as (b' & Eb' & Lb).
  rewrite Ea in Ea'. injection Ea' as <-. rewrite Eb in Eb'. injection Eb' as <-.
  replace (units a * 2) with (Z.of_nat (length ea)) by lia. replace ((units a + units b) * 2) with (Z.of_nat (length ea) + Z.of_nat (length eb)) by lia.
  rewrite slice_mid. by apply utf16_decode_encode.
Qed.
