(* ===== verification/FormatText.v ===== *)
(** Text templates with entities: [piltover/app/utils/formatable_text_with_entities.py].

    Positions in a template are counted in code points, those of the entities that come out in UTF-16 code units. Replacement fields that are not plain
    names are left to a parameter, as the rest of the language of [str.format]. *)
From stdpp Require Import gmap.
From S2P Require Import Prelude PyBytes Utf16.

(** ** Delimiters *)
Definition BOLD_DELIM : pystr := text_of "**".
Definition ITALIC_DELIM : pystr := text_of "__".
Definition UNDERLINE_DELIM : pystr := text_of "--".
Definition STRIKE_DELIM : pystr := text_of "~~".
Definition SPOILER_DELIM : pystr := text_of "||".
Definition CODE_DELIM : pystr := text_of "`".
Definition URL_START : pystr := text_of "<a>".
Definition URL_END : pystr := text_of "</a>".
Definition COMMAND_START : pystr := text_of "<c>".
Definition COMMAND_END : pystr := text_of "</c>".
Definition USERNAME_START : pystr := text_of "<u>".
Definition USERNAME_END : pystr := text_of "</u>".

Definition DELIMS : list (pystr * pystr) :=
  [(BOLD_DELIM, BOLD_DELIM); (ITALIC_DELIM, ITALIC_DELIM); (UNDERLINE_DELIM, UNDERLINE_DELIM); (STRIKE_DELIM, STRIKE_DELIM);
   (SPOILER_DELIM, SPOILER_DELIM); (CODE_DELIM, CODE_DELIM); (URL_START, URL_END); (COMMAND_START, COMMAND_END); (USERNAME_START, USERNAME_END)].

(** [TYPES], by the delimiter that opens *)
Definition TYPES : list (pystr * Z) :=
  [(BOLD_DELIM, 0xbd610bc9); (ITALIC_DELIM, 0x826f8b60); (UNDERLINE_DELIM, 0x9c4e7e8b); (STRIKE_DELIM, 0xbf0693d4); (SPOILER_DELIM, 0x32ca960f);
   (CODE_DELIM, 0x28a20571); (URL_START, 0x6ed02538); (COMMAND_START, 0x6cef8ac7); (USERNAME_START, 0xfa04579d)].
Definition type_of (delim : pystr) : result Z := match list_find (fun kv => kv.1 = delim) TYPES with Some (_, kv) => Ok kv.2 | None => Raise KeyError end.

(** [s.startswith(p)] *)
Definition startswith (p s : pystr) : bool := bool_decide (take (length p) s = p).
(** [s.index(p)]; [None] where it raises [ValueError] *)
Fixpoint index (p s : pystr) : option nat :=
  if startswith p s then Some O else match s with [] => None | _ :: s => S <$> index p s end.

Definition LBRACE : Z := 123.
Definition RBRACE : Z := 125.
Definition field (name : pystr) : pystr := [LBRACE] ++ name ++ [RBRACE].

(** The test at one position, for a pair of delimiters *)
Definition delim_at (rest : pystr) (d : pystr * pystr) : bool :=
  if decide (d.1 = d.2) then
    match d.1 with
    | dchar :: _ => bool_decide (head rest = Some dchar) && bool_decide (rest !! (length d.1 - 1)%nat = Some dchar)
    | [] => false
    end
  else startswith d.1 rest.
Definition find_delim (rest : pystr) : option (pystr * pystr) := snd <$> list_find (fun d => delim_at rest d = true) DELIMS.

(** ** Parsing *)
Abbreviation depends := (gmap pystr Z).
Definition depend (d : depends) (name : pystr) : depends := <[name := default 0 (d !! name) + 1]> d.
Record Entity := MkEntity { e_type : Z; e_offset : nat; e_length : nat; offset_depends : depends; length_depends : depends }.

(** The names of the fields in what a pair of delimiters encloses: the inner loop *)
Fixpoint fields_in (fuel : nat) (s : pystr) : list pystr :=
  match fuel with
  | O => []
  | S fuel =>
    match index [LBRACE] s with
    | None => []
    | Some start =>
      let s := drop start s in
      match index [RBRACE] s with
      | None => []
      | Some close => take (close - 1) (drop 1 s) :: fields_in fuel (drop close s)
      end
    end
  end.

(** [_parse_entities] from a position on: [rest] is the text from there *)
Fixpoint parse_entities (fuel : nat) (rest result_text : pystr) (depends_on : depends) (entities : list Entity) : result (pystr * list Entity) :=
  match fuel with
  | O => Raise OutOfFuel
  | S fuel =>
    match rest with
    | [] => Ok (result_text, entities)
    | c :: rest1 =>
      if (c =? LBRACE) && negb (bool_decide (rest1 = [])) then
        match index [RBRACE] rest with
        | None => Raise ValueError
        | Some close =>
          let fmt_name := take (close - 1) rest1 in
          parse_entities fuel (drop (S close) rest) (result_text ++ field fmt_name) (depend depends_on fmt_name) entities
        end
      else
        match find_delim rest with
        | None => parse_entities fuel rest1 (result_text ++ [c]) depends_on entities
        | Some (got_delim, need_delim) =>
          let rest := drop (length got_delim) rest in
          match index need_delim rest with
          | None => parse_entities fuel (drop 1 rest) (result_text ++ got_delim) depends_on entities
          | Some n =>
            let content := take n rest in
            let names := fields_in (length content) content in
            match type_of got_delim with
            | Raise e => Raise e
            | Ok type_ =>
              parse_entities fuel (drop (n + length need_delim) rest) (result_text ++ content) (foldl depend depends_on names)
                (entities ++ [MkEntity type_ (length result_text) n depends_on (foldl depend ∅ names)])
            end
          end
        end
    end
  end.

(** [FormatableTextWithEntities(text)] *)
Definition FormatableTextWithEntities (text : pystr) : result (pystr * list Entity) := parse_entities (S (length text)) text [] ∅ [].

(** ** Formatting *)
(** The UTF-16 position of every code point, and of the end *)
Fixpoint build_from (last : Z) (text : pystr) : result (list Z) :=
  match text with [] => Ok [last] | c :: text => l ← utf16_len [c]; r ← build_from (last + l) text; Ok (last :: r) end.
Definition build_u8_to_u16 (text : pystr) : result (list Z) := build_from 0 text.

Abbreviation options := (gmap pystr pystr).
Definition option_of (opts : options) (name : pystr) : result pystr := match opts !! name with Some v => Ok v | None => Raise KeyError end.
Definition _placeholder_delta (fmt_name replacement : pystr) : result Z := a ← utf16_len replacement; b ← utf16_len (field fmt_name); Ok (a - b).

Fixpoint add_deltas (opts : options) (l : list (pystr * Z)) (base : Z) : result Z :=
  match l with
  | [] => Ok base
  | (fmt_name, count) :: l => v ← option_of opts fmt_name; delta ← _placeholder_delta fmt_name v; add_deltas opts l (base + delta * count)
  end.

Record FormattedEntity := MkFormatted { f_type : Z; f_offset : Z; f_length : Z }.
Definition at_ (l : list Z) (i : nat) : result Z := match l !! i with Some z => Ok z | None => Raise KeyError end.

(** [Entity.format] *)
Definition entity_format (e : Entity) (template_text : pystr) (fmt_options : options) : result FormattedEntity :=
  u8_to_u16 ← build_u8_to_u16 template_text;
  u16_offset ← at_ u8_to_u16 (e_offset e);
  u16_end ← at_ u8_to_u16 (e_offset e + e_length e);
  offset ← add_deltas fmt_options (map_to_list (offset_depends e)) u16_offset;
  length ← add_deltas fmt_options (map_to_list (length_depends e)) (u16_end - u16_offset);
  Ok (MkFormatted (e_type e) offset length).

Section Format.
(** Replacement fields that are not plain names *)
Context (complex_field : pystr -> options -> result pystr).

Definition is_letter (c : Z) : bool := ((65 <=? c) && (c <=? 90)) || ((97 <=? c) && (c <=? 122)) || (c =? 95).
Definition is_name (s : pystr) : bool := match s with [] => false | c :: s => is_letter c && forallb (fun c => is_letter c || ((48 <=? c) && (c <=? 57))) s end.

(** [text.format( **kwargs)] *)
Fixpoint str_format (fuel : nat) (text : pystr) (kwargs : options) : result pystr :=
  match fuel with
  | O => Raise OutOfFuel
  | S fuel =>
    match text with
    | [] => Ok []
    | c :: rest =>
      if c =? LBRACE then
        match rest with
        | [] => Raise ValueError
        | c' :: rest' =>
          if c' =? LBRACE then push_char LBRACE (str_format fuel rest' kwargs)
          else match index [RBRACE] rest with
            | None => Raise ValueError
            | Some n => v ← (if is_name (take n rest) then option_of kwargs (take n rest) else complex_field (take n rest) kwargs);
                r ← str_format fuel (drop (S n) rest) kwargs; Ok (v ++ r)
            end
        end
      else if c =? RBRACE then
        match rest with
        | c' :: rest' => if c' =? RBRACE then push_char RBRACE (str_format fuel rest' kwargs) else Raise ValueError
        | [] => Raise ValueError
        end
      else push_char c (str_format fuel rest kwargs)
    end
  end.

(** [FormatableTextWithEntities.format], with values that are strings *)
Definition format (t : pystr * list Entity) (kwargs : options) : result (pystr * list FormattedEntity) :=
  text ← str_format (S (length t.1)) t.1 kwargs;
  es ← mapM (fun e => entity_format e t.1 kwargs) t.2;
  Ok (text, es).

(** Making a template and formatting it *)
Definition format_template (template : pystr) (kwargs : options) : result (pystr * list FormattedEntity) :=
  t ← FormatableTextWithEntities template; format t kwargs.

Example emoji_offsets : format_template (text_of "Hello " ++ [0x1F44B] ++ text_of " **world**") ∅ =
  Ok (text_of "Hello " ++ [0x1F44B] ++ text_of " world", [MkFormatted 0xbd610bc9 9 5]).
Proof. vm_compute. reflexivity. Qed.
Example with_placeholders : format_template (text_of "Here it is: {name} <u>@{username}</u>.")
    (<[text_of "name" := text_of "TestBot"]> {[text_of "username" := text_of "mybot"]}) =
  Ok (text_of "Here it is: TestBot @mybot.", [MkFormatted 0xfa04579d 20 6]).
Proof. vm_compute. reflexivity. Qed.
(** A delimiter that is never closed swallows the character after it. *)
Example unmatched_delimiter : format_template (text_of "a -- b") ∅ = Ok (text_of "a --b", []).
Proof. vm_compute. reflexivity. Qed.

(** ** Templates as their authors think of them *)
Inductive piece := Lit (s : pystr) | Hole (name : pystr).
Inductive item := Piece (p : piece) | Marked (d : pystr * pystr) (ps : list piece).

Definition source_piece (p : piece) : pystr := match p with Lit s => s | Hole n => field n end.
Definition source_pieces (ps : list piece) : pystr := mjoin (source_piece <$> ps).
Definition source_item (i : item) : pystr := match i with Piece p => source_piece p | Marked d ps => d.1 ++ source_pieces ps ++ d.2 end.
Definition source (items : list item) : pystr := mjoin (source_item <$> items).

Definition pieces_of (i : item) : list piece := match i with Piece p => [p] | Marked _ ps => ps end.
Definition all_pieces (items : list item) : list piece := mjoin (pieces_of <$> items).
Definition names (ps : list piece) : list pystr := omap (fun p => match p with Hole n => Some n | Lit _ => None end) ps.

Definition filled (opts : options) (p : piece) : pystr := match p with Lit s => s | Hole n => default [] (opts !! n) end.
Definition filled_pieces (opts : options) (ps : list piece) : pystr := mjoin (filled opts <$> ps).

(** What is marked, after which pieces *)
Fixpoint marks (before : list piece) (items : list item) : list (list piece * (pystr * pystr) * list piece) :=
  match items with
  | [] => []
  | Piece p :: items => marks (before ++ [p]) items
  | Marked d ps :: items => (before, d, ps) :: marks (before ++ ps) items
  end.

(** A literal has no braces, and no delimiter begins in it. *)
Fixpoint lit_ok (s rest : pystr) : bool :=
  match s with
  | [] => true
  | c :: s => negb (c =? LBRACE) && negb (c =? RBRACE) && bool_decide (find_delim (c :: s ++ rest) = None) && lit_ok s rest
  end.
Definition no_braces (s : pystr) : bool := forallb (fun c => negb (c =? LBRACE) && negb (c =? RBRACE)) s.
Definition inner_ok (p : piece) : bool := match p with Lit s => no_braces s | Hole n => is_name n end.
Definition item_ok (i : item) (rest : pystr) : bool :=
  match i with
  | Piece (Lit s) => lit_ok s rest
  | Piece (Hole n) => is_name n
  | Marked d ps => forallb inner_ok ps && bool_decide (find_delim (source_item i ++ rest) = Some d) &&
      bool_decide (index d.2 (source_pieces ps ++ d.2 ++ rest) = Some (length (source_pieces ps)))
  end.
Fixpoint items_ok (items : list item) : bool := match items with [] => true | i :: items => item_ok i (source items) && items_ok items end.

(** ** Searching *)
Lemma startswith_one c s : startswith [c] s = match s with c' :: _ => c' =? c | [] => false end.
Proof.
  unfold startswith. destruct s as [|c' s]; [by apply bool_decide_eq_false_2|]. cbn. destruct (Z.eqb_spec c' c) as [->|Hne].
  - by apply bool_decide_eq_true_2.
  - apply bool_decide_eq_false_2. congruence.
Qed.

Lemma index_skip c s t : forallb (fun x => negb (x =? c)) s = true -> index [c] (s ++ t) = (Nat.add (length s)) <$> index [c] t.
Proof.
  induction s as [|x s IH]; intros H; [cbn [app]; by destruct (index [c] t)|]. cbn in H. b2p. cbn [app index]. rewrite startswith_one.
  replace (x =? c) with false by (symmetry; by apply Z.eqb_neq). rewrite IH by done. by destruct (index [c] t).
Qed.
Lemma index_here c t : index [c] (c :: t) = Some 0%nat.
Proof. cbn [index]. by rewrite startswith_one, Z.eqb_refl. Qed.

Lemma no_braces_l s : no_braces s = true -> forallb (fun x => negb (x =? LBRACE)) s = true.
Proof. unfold no_braces. rewrite !forallb_forall. intros H x Hx. specialize (H x Hx). by apply andb_prop in H as [? ?]. Qed.
Lemma no_braces_r s : no_braces s = true -> forallb (fun x => negb (x =? RBRACE)) s = true.
Proof. unfold no_braces. rewrite !forallb_forall. intros H x Hx. specialize (H x Hx). by apply andb_prop in H as [? ?]. Qed.

Lemma is_letter_range c : is_letter c || ((48 <=? c) && (c <=? 57)) = true -> 48 <= c <= 122.
Proof. unfold is_letter. intros H. repeat (apply orb_prop in H as [H|H]); b2p; lia. Qed.
Lemma name_no_braces n : is_name n = true -> no_braces n = true /\ n <> [].
Proof.
  destruct n as [|c n]; [done|]. intros H. split; [|done]. cbn in H. apply andb_prop in H as [Hc Hn]. unfold no_braces. cbn.
  assert (Hx : forall x, is_letter x || ((48 <=? x) && (x <=? 57)) = true -> negb (x =? LBRACE) && negb (x =? RBRACE) = true).
  { intros x Hx. apply is_letter_range in Hx. unfold LBRACE, RBRACE. rewrite !(proj2 (Z.eqb_neq _ _)) by lia. done. }
  rewrite Hx by (by rewrite Hc). apply forallb_forall. intros x Hin. apply Hx. rewrite forallb_forall in Hn. by apply Hn.
Qed.

Lemma index_field n t : is_name n = true -> index [RBRACE] (field n ++ t) = Some (S (length n)).
Proof.
  intros Hn. destruct (name_no_braces n Hn) as [Hb _]. unfold field. replace (([LBRACE] ++ n ++ [RBRACE]) ++ t) with ((LBRACE :: n) ++ RBRACE :: t)
    by (cbn; by rewrite <- app_assoc).
  rewrite index_skip by (cbn; by apply no_braces_r). rewrite index_here. cbn. f_equal. lia.
Qed.

(** ** The fields of what is marked *)
Lemma fields_skip fuel s t : forallb (fun x => negb (x =? LBRACE)) s = true -> fields_in fuel (s ++ t) = fields_in fuel t.
Proof.
  intros Hs. destruct fuel as [|fuel]; [done|]. cbn [fields_in]. rewrite index_skip by done. destruct (index [LBRACE] t) as [i|]; [|done].
  cbn [fmap option_fmap option_map]. by rewrite drop_app_add.
Qed.

Lemma fields_names ps fuel : forallb inner_ok ps = true -> (length (names ps) <= fuel)%nat -> fields_in fuel (source_pieces ps) = names ps.
Proof.
  revert fuel. induction ps as [|p ps IH]; intros fuel Hok Hf.
  - destruct fuel; done.
  - cbn in Hok. apply andb_prop in Hok as [Hp Hps]. change (source_pieces (p :: ps)) with (source_piece p ++ source_pieces ps).
    destruct p as [s|n]; cbn [source_piece inner_ok] in *.
    + rewrite fields_skip by (by apply no_braces_l). by apply IH.
    + change (names (Hole n :: ps)) with (n :: names ps) in *. cbn [length] in Hf. destruct fuel as [|fuel]; [lia|]. cbn [fields_in].
      assert (E : index [LBRACE] (field n ++ source_pieces ps) = Some 0%nat) by apply index_here. rewrite E, drop_0, index_field by done.
      replace (S (length n) - 1)%nat with (length n) by lia.
      f_equal.
      * change (drop 1 (field n ++ source_pieces ps)) with ((n ++ [RBRACE]) ++ source_pieces ps). by rewrite <- app_assoc, take_app_length.
      * change (drop (S (length n)) (field n ++ source_pieces ps)) with (drop (length n) ((n ++ [RBRACE]) ++ source_pieces ps)).
        rewrite <- app_assoc, drop_app_length, fields_skip by done. apply IH; [done|lia].
Qed.

(** ** Parsing a template *)
Fixpoint entities_of (len : nat) (dep : depends) (items : list item) : list Entity :=
  match items with
  | [] => []
  | Piece p :: items => entities_of (len + length (source_piece p)) (foldl depend dep (names [p])) items
  | Marked d ps :: items =>
    MkEntity (match type_of d.1 with Ok t => t | Raise _ => 0 end) len (length (source_pieces ps)) dep (foldl depend ∅ (names ps)) ::
    entities_of (len + length (source_pieces ps)) (foldl depend dep (names ps)) items
  end.

Lemma source_pieces_cons p ps : source_pieces (p :: ps) = source_piece p ++ source_pieces ps.
Proof. done. Qed.
Lemma source_pieces_app ps qs : source_pieces (ps ++ qs) = source_pieces ps ++ source_pieces qs.
Proof. unfold source_pieces. by rewrite fmap_app, join_app. Qed.
Lemma all_pieces_cons i items : all_pieces (i :: items) = pieces_of i ++ all_pieces items.
Proof. done. Qed.

Lemma find_delim_in rest d : find_delim rest = Some d -> d ∈ DELIMS /\ delim_at rest d = true.
Proof.
  unfold find_delim. destruct (list_find _ DELIMS) as [[i d']|] eqn:E; [|done]. cbn. intros [= ->].
  apply list_find_Some in E as (Hl & Hd & _). split; [by eapply list_elem_of_lookup_2|done].
Qed.

Lemma delim_facts d : d ∈ DELIMS -> is_ok (type_of d.1) = true /\ exists c, head d.1 = Some c /\ (c =? LBRACE) = false /\ d.2 <> [].
Proof.
  intros Hd. repeat (apply elem_of_cons in Hd as [->|Hd]); try (split; [vm_compute; reflexivity|]; eexists; split_and!; [reflexivity|reflexivity|discriminate]).
  by apply not_elem_of_nil in Hd.
Qed.

Lemma names_length ps : (length (names ps) <= length (source_pieces ps))%nat.
Proof.
  induction ps as [|[s|n] ps IH]; [done| |]; rewrite source_pieces_cons, length_app.
  - change (names (Lit s :: ps)) with (names ps). lia.
  - change (names (Hole n :: ps)) with (n :: names ps). unfold field. cbn. rewrite length_app. cbn. lia.
Qed.

Lemma parse_lit s : forall fuel rest shown dep es, lit_ok s rest = true -> (length s <= fuel)%nat ->
  parse_entities fuel (s ++ rest) shown dep es = parse_entities (fuel - length s) rest (shown ++ s) dep es.
Proof.
  induction s as [|c s IH]; intros fuel rest shown dep es Hok Hf; [by rewrite app_nil_r, Nat.sub_0_r|].
  cbn [lit_ok] in Hok. cbn [length] in Hf. b2p. destruct fuel as [|fuel]; [lia|]. cbn [app parse_entities]. rewrite (proj2 (Z.eqb_neq _ _)) by done. cbn [andb].
  match goal with H : find_delim _ = None |- _ => rewrite H end. rewrite IH by (done || lia). by rewrite <- app_assoc.
Qed.

Lemma parse_hole n fuel rest shown dep es : is_name n = true ->
  parse_entities (S fuel) (field n ++ rest) shown dep es = parse_entities fuel rest (shown ++ field n) (depend dep n) es.
Proof.
  intros Hn. pose proof (index_field n rest Hn) as Hi. unfold field in Hi |- *. cbn [app] in Hi |- *. cbn [parse_entities].
  rewrite Z.eqb_refl. cbn [andb]. destruct (name_no_braces n Hn) as [_ Hne]. rewrite bool_decide_eq_false_2 by (by destruct n). cbn [negb]. rewrite Hi.
  replace (S (length n) - 1)%nat with (length n) by lia. rewrite <- !app_assoc. rewrite take_app_length.
  cbn [drop]. change ([RBRACE] ++ rest) with (RBRACE :: rest). replace (S (length n)) with (length n + 1)%nat by lia. by rewrite drop_app_add.
Qed.

Lemma parse_marked d ps fuel rest shown dep es : item_ok (Marked d ps) rest = true ->
  parse_entities (S fuel) (source_item (Marked d ps) ++ rest) shown dep es =
  parse_entities fuel rest (shown ++ source_pieces ps) (foldl depend dep (names ps))
    (es ++ [MkEntity (match type_of d.1 with Ok t => t | Raise _ => 0 end) (length shown) (length (source_pieces ps)) dep (foldl depend ∅ (names ps))]).
Proof.
  cbn [item_ok]. intros H. b2p. match goal with H : find_delim _ = _ |- _ => rename H into Hd end.
  match goal with H : index _ _ = _ |- _ => rename H into Hi end. match goal with H : forallb _ _ = _ |- _ => rename H into Hps end.
  destruct (find_delim_in _ _ Hd) as [Hin _]. destruct (delim_facts d Hin) as (Htype & c & Hhead & Hc & _).
  assert (Hsrc : source_item (Marked d ps) ++ rest = d.1 ++ source_pieces ps ++ d.2 ++ rest) by (cbn; by rewrite <- !app_assoc).
  rewrite Hsrc in Hd |- *. destruct (d.1 ++ source_pieces ps ++ d.2 ++ rest) as [|c' rest1] eqn:E; [by destruct d.1|].
  assert (c' = c) as -> by (destruct d.1; cbn in E, Hhead; congruence). cbn [parse_entities]. rewrite Hc. cbn [andb]. rewrite Hd. destruct d as [o e]. cbn [fst snd] in *.
  rewrite <- E, drop_app_length, Hi, take_app_length. destruct (type_of o) as [t|]; [|done].
  rewrite fields_names by (done || apply names_length). f_equal. by rewrite drop_app_add, drop_app_length.
Qed.

Lemma parse_items items : forall fuel shown dep es, items_ok items = true -> (length (source items) < fuel)%nat ->
  parse_entities fuel (source items) shown dep es = Ok (shown ++ source_pieces (all_pieces items), es ++ entities_of (length shown) dep items).
Proof.
  induction items as [|i items IH]; intros fuel shown dep es Hok Hf.
  { destruct fuel; [lia|]. cbn. by rewrite !app_nil_r. }
  cbn [items_ok] in Hok. apply andb_prop in Hok as [Hi Hok]. change (source (i :: items)) with (source_item i ++ source items) in *.
  rewrite length_app in Hf. rewrite all_pieces_cons, source_pieces_app, app_assoc. destruct i as [[s|n]|d ps].
  - cbn [source_item source_piece] in *. rewrite parse_lit by (done || lia). rewrite IH by (done || lia). rewrite length_app.
    cbn [pieces_of entities_of source_piece]. by rewrite source_pieces_cons, app_nil_r.
  - cbn [source_item source_piece item_ok] in *. destruct fuel as [|fuel]; [lia|]. rewrite parse_hole by done. unfold field in Hf. cbn in Hf.
    rewrite IH by (done || lia). rewrite length_app. cbn [pieces_of entities_of source_piece]. by rewrite source_pieces_cons, app_nil_r.
  - destruct fuel as [|fuel]; [lia|]. rewrite parse_marked by done.
    assert (0 < length (source_item (Marked d ps)))%nat.
    { cbn [item_ok] in Hi. apply andb_prop in Hi as [Hi _]. apply andb_prop in Hi as [_ Hi]. apply bool_decide_eq_true in Hi.
      destruct (find_delim_in _ _ Hi) as [Hin _]. destruct (delim_facts d Hin) as (_ & c & Hh & _). cbn. rewrite length_app. destruct d.1; [done|cbn; lia]. }
    rewrite IH by (done || lia). cbn [pieces_of entities_of]. rewrite length_app. do 2 f_equal. by rewrite <- app_assoc.
Qed.

Lemma parse_template items : items_ok items = true ->
  FormatableTextWithEntities (source items) = Ok (source_pieces (all_pieces items), entities_of 0 ∅ items).
Proof. intros H. unfold FormatableTextWithEntities. rewrite parse_items by (done || lia). done. Qed.

(** ** Positions *)
Lemma build_from_ok text last : scalars text -> exists l, build_from last text = Ok l /\ length l = S (length text) /\
  forall i, (i <= length text)%nat -> l !! i = Some (last + units (take i text)).
Proof.
  intros H. revert last. induction H as [|c text Hc Ht IH]; intros last.
  - exists [last]. split_and!; [done|done|]. intros i Hi. cbn in Hi. destruct i; [|lia]. cbn. f_equal. lia.
  - cbn [build_from]. rewrite utf16_len_ok by (constructor; [done|constructor]). cbn [mbind result_bind].
    destruct (IH (last + units [c])) as (l & -> & Hl & Hat). exists (last :: l). split_and!; [done|cbn; lia|].
    intros i Hi. destruct i as [|i]; [cbn; f_equal; lia|]. cbn [lookup list_lookup]. cbn in Hi. change (l !! i = Some (last + units (take (S i) (c :: text)))).
    rewrite Hat by lia. f_equal. cbn. lia.
Qed.

(** ** Deltas *)
Definition delta (opts : options) (n : pystr) : Z := units (default [] (opts !! n)) - units (field n).
Definition total (opts : options) (l : list (pystr * Z)) : Z := foldr (fun nc acc => delta opts nc.1 * nc.2 + acc) 0 l.
Definition known (opts : options) (n : pystr) : Prop := scalars (field n) /\ exists v, opts !! n = Some v /\ scalars v.

Lemma add_deltas_ok opts l base : Forall (fun nc => known opts nc.1) l -> add_deltas opts l base = Ok (base + total opts l).
Proof.
  intros H. revert base. induction H as [|[n k] l (Hn & v & Hv & Hs) _ IH]; intros base; [cbn; f_equal; lia|].
  cbn [fst] in Hn, Hv. cbn [add_deltas]. unfold option_of, _placeholder_delta. rewrite Hv. cbn [mbind result_bind]. rewrite !utf16_len_ok by done. cbn [mbind result_bind].
  rewrite IH. unfold total, delta. cbn. rewrite Hv. cbn. f_equal. lia.
Qed.

Lemma total_perm opts l l' : l ≡ₚ l' -> total opts l = total opts l'.
Proof. unfold total; induction 1; cbn [foldr]; lia. Qed.

Lemma total_depend opts d n : total opts (map_to_list (depend d n)) = total opts (map_to_list d) + delta opts n.
Proof.
  unfold depend. destruct (d !! n) as [k|] eqn:E; cbn [default].
  - assert (Hold : total opts (map_to_list d) = delta opts n * k + total opts (map_to_list (delete n d)))
      by (rewrite <- (total_perm _ _ _ (map_to_list_delete d n k E)); done).
    assert (Hnew : total opts (map_to_list (<[n := k + 1]> d)) = delta opts n * (k + 1) + total opts (map_to_list (delete n d)))
      by (rewrite <- insert_delete_eq, (total_perm _ _ _ (map_to_list_insert _ _ _ (lookup_delete_eq d n))); done).
    unfold id. lia.
  - rewrite (total_perm _ _ _ (map_to_list_insert d n _ E)). unfold total. cbn [foldr fst snd]. lia.
Qed.

Lemma total_depends opts ns d : total opts (map_to_list (foldl depend d ns)) = total opts (map_to_list d) + foldr (fun n acc => delta opts n + acc) 0 ns.
Proof. revert d. induction ns as [|n ns IH]; intros d; cbn; [lia|]. rewrite IH, total_depend. lia. Qed.

Lemma depends_known opts ns d : Forall (known opts) ns -> map_Forall (fun n _ => known opts n) d -> map_Forall (fun n _ => known opts n) (foldl depend d ns).
Proof. intros H. revert d. induction H as [|n ns Hn _ IH]; intros d Hd; cbn; [done|]. apply IH. by apply map_Forall_insert_2. Qed.

Lemma deltas_filled opts ps : Forall (known opts) (names ps) ->
  units (source_pieces ps) + foldr (fun n acc => delta opts n + acc) 0 (names ps) = units (filled_pieces opts ps).
Proof.
  induction ps as [|[s|n] ps IH]; intros H; [done| |].
  - change (names (Lit s :: ps)) with (names ps) in *. rewrite source_pieces_cons. change (filled_pieces opts (Lit s :: ps)) with (s ++ filled_pieces opts ps).
    rewrite !units_app. cbn [source_piece]. specialize (IH H). lia.
  - change (names (Hole n :: ps)) with (n :: names ps) in *. rewrite source_pieces_cons.
    change (filled_pieces opts (Hole n :: ps)) with (default [] (opts !! n) ++ filled_pieces opts ps). rewrite !units_app. cbn [source_piece foldr].
    inversion H; subst. specialize (IH ltac:(done)). unfold delta at 1. lia.
Qed.

(** ** [str.format] on the text of a template *)
Lemma str_format_lit s t : forall fuel opts, no_braces s = true -> (length s <= fuel)%nat ->
  str_format fuel (s ++ t) opts = app s <$> str_format (fuel - length s) t opts.
Proof.
  induction s as [|c s IH]; intros fuel opts Hs Hf.
  - rewrite Nat.sub_0_r. cbn [app]. by destruct (str_format fuel t opts).
  - unfold no_braces in Hs. cbn [forallb] in Hs. apply andb_prop in Hs as [Hc Hs]. b2p. destruct fuel as [|fuel]; [cbn in Hf; lia|]. cbn [app str_format length] in *.
    rewrite !(proj2 (Z.eqb_neq _ _)) by done. rewrite IH by (done || lia). cbn [Nat.sub]. by destruct (str_format _ t opts).
Qed.

Lemma str_format_hole n t fuel opts : is_name n = true -> is_Some (opts !! n) ->
  str_format (S fuel) (field n ++ t) opts = app (default [] (opts !! n)) <$> str_format fuel t opts.
Proof.
  intros Hn [v Hv]. destruct (name_no_braces n Hn) as [Hb Hne]. unfold field. cbn [app str_format]. rewrite Z.eqb_refl, <- app_assoc.
  assert (Hidx : index [RBRACE] (n ++ [RBRACE] ++ t) = Some (length n)) by (rewrite index_skip by (by apply no_braces_r); cbn [app]; rewrite index_here; cbn; f_equal; lia).
  destruct n as [|c n]; [done|]. cbn [app]. assert (Hc : (c =? LBRACE) = false) by (unfold no_braces in Hb; cbn [forallb] in Hb; apply andb_prop in Hb as [Hb _]; apply andb_prop in Hb as [Hb _]; by apply negb_true_iff in Hb).
  rewrite Hc. change (c :: n ++ RBRACE :: t) with ((c :: n) ++ [RBRACE] ++ t). rewrite Hidx, take_app_length, Hn. unfold option_of. rewrite Hv. cbn [mbind result_bind default].
  replace (S (length (c :: n))) with (length (c :: n) + 1)%nat by lia. rewrite drop_app_add. change (drop 1 ([RBRACE] ++ t)) with t. by destruct (str_format fuel t opts).
Qed.

Lemma str_format_pieces ps : forall fuel opts, forallb inner_ok ps = true -> Forall (fun n => is_Some (opts !! n)) (names ps) ->
  (length (source_pieces ps) < fuel)%nat -> str_format fuel (source_pieces ps) opts = Ok (filled_pieces opts ps).
Proof.
  induction ps as [|p ps IH]; intros fuel opts Hok Hn Hf; [by destruct fuel; [lia|]|].
  cbn [forallb] in Hok. apply andb_prop in Hok as [Hp Hps]. rewrite source_pieces_cons, length_app in *. destruct p as [s|n]; cbn [source_piece inner_ok] in *.
  - rewrite str_format_lit by (done || lia). rewrite IH by (done || lia). done.
  - change (names (Hole n :: ps)) with (n :: names ps) in Hn. inversion Hn; subst. destruct fuel as [|fuel]; [lia|].
    rewrite str_format_hole by done. unfold field in Hf. cbn in Hf. rewrite IH by (done || lia). done.
Qed.

Lemma items_inner items : items_ok items = true -> forallb inner_ok (all_pieces items) = true.
Proof.
  induction items as [|i items IH]; [done|]. cbn [items_ok]. intros [Hi Hok]%andb_prop. rewrite all_pieces_cons, forallb_app, IH by done. rewrite andb_true_r.
  destruct i as [[s|n]|d ps]; cbn [item_ok pieces_of forallb inner_ok] in *; rewrite ?andb_true_r; [|done|].
  - clear -Hi. generalize dependent (source items). induction s as [|c s IH]; intros rest H; [done|]. cbn [lit_ok] in H. b2p.
    unfold no_braces. cbn [forallb]. rewrite !(proj2 (Z.eqb_neq _ _)) by done. by apply (IH rest).
  - by apply andb_prop in Hi as [[? _]%andb_prop _].
Qed.

(** ** Formatting a template *)
(** An entity covers what its delimiters enclosed. *)
Definition covers (opts : options) (text : pystr) (m : list piece * (pystr * pystr) * list piece) (e : FormattedEntity) : Prop :=
  type_of m.1.2.1 = Ok (f_type e) /\ f_offset e = units (filled_pieces opts m.1.1) /\ utf16_slice text (f_offset e) (f_length e) = Ok (filled_pieces opts m.2).

Lemma filled_app opts ps qs : filled_pieces opts (ps ++ qs) = filled_pieces opts ps ++ filled_pieces opts qs.
Proof. unfold filled_pieces. by rewrite fmap_app, join_app. Qed.
Lemma names_app ps qs : names (ps ++ qs) = names ps ++ names qs.
Proof. apply omap_app. Qed.

Definition piece_known (opts : options) (p : piece) : Prop := match p with Lit s => scalars s | Hole n => known opts n end.
Lemma known_names opts ps : Forall (piece_known opts) ps -> Forall (known opts) (names ps).
Proof. induction 1 as [|[s|n] ps Hp _ IH]; [constructor|done|by constructor]. Qed.
Lemma known_source opts ps : Forall (piece_known opts) ps -> scalars (source_pieces ps).
Proof. induction 1 as [|[s|n] ps Hp _ IH]; [constructor| |]; rewrite source_pieces_cons; apply Forall_app; [done|by destruct Hp]. Qed.
Lemma known_filled opts ps : Forall (piece_known opts) ps -> scalars (filled_pieces opts ps).
Proof.
  induction 1 as [|[s|n] ps Hp _ IH]; [constructor| |]; apply Forall_app; (split; [|exact IH]); [done|]. destruct Hp as (_ & v & Hv & Hs). cbn. by rewrite Hv.
Qed.

Lemma entity_formatted opts b ps after t : Forall (piece_known opts) (b ++ ps ++ after) ->
  let text := source_pieces (b ++ ps ++ after) in
  entity_format (MkEntity t (length (source_pieces b)) (length (source_pieces ps)) (foldl depend ∅ (names b)) (foldl depend ∅ (names ps))) text opts =
  Ok (MkFormatted t (units (filled_pieces opts b)) (units (filled_pieces opts ps))).
Proof.
  intros Hk text. pose proof (known_source _ _ Hk) as Hs. apply Forall_app in Hk as [Hb [Hps _]%Forall_app].
  assert (Htext : text = source_pieces b ++ source_pieces ps ++ source_pieces after) by (unfold text; by rewrite !source_pieces_app).
  destruct (build_from_ok text 0 Hs) as (l & El & Hl & Hat). unfold entity_format, build_u8_to_u16. rewrite El. cbn [mbind result_bind e_offset e_length offset_depends length_depends].
  unfold at_. rewrite !Hat by (rewrite Htext, !length_app; lia). cbn [mbind result_bind].
  assert (Hd : forall qs, Forall (piece_known opts) qs -> Forall (fun nc => known opts nc.1) (map_to_list (foldl depend ∅ (names qs)))).
  { intros qs Hq. apply Forall_forall. intros [n k] Hin%elem_of_map_to_list. refine (depends_known opts (names qs) ∅ _ _ n k Hin); [by apply known_names|].
    by intros ? ? ?%lookup_empty_Some. }
  rewrite !add_deltas_ok by auto. cbn [mbind result_bind]. rewrite !total_depends, map_to_list_empty. cbn [total foldr].
  rewrite Htext, take_app_length, app_assoc. replace (length (source_pieces b) + length (source_pieces ps))%nat with (length (source_pieces b ++ source_pieces ps))
    by (by rewrite length_app).
  rewrite take_app_length, units_app. pose proof (deltas_filled opts b (known_names _ _ Hb)). pose proof (deltas_filled opts ps (known_names _ _ Hps)).
  cbn [e_type]. do 2 f_equal; lia.
Qed.

(** What is marked gets an entity that covers it, whatever came before. *)
Lemma marks_covered opts items : forall before, items_ok items = true -> Forall (piece_known opts) (before ++ all_pieces items) ->
  exists es, mapM (fun e => entity_format e (source_pieces (before ++ all_pieces items)) opts)
      (entities_of (length (source_pieces before)) (foldl depend ∅ (names before)) items) = Ok es /\
    Forall2 (covers opts (filled_pieces opts (before ++ all_pieces items))) (marks before items) es.
Proof.
  induction items as [|i items IH]; intros before Hok Hk; [by exists []|].
  cbn [items_ok] in Hok. apply andb_prop in Hok as [Hi Hok]. rewrite all_pieces_cons in Hk |- *.
  destruct (IH (before ++ pieces_of i)) as (es & Hm & Hc); [done|by rewrite <- app_assoc|].
  rewrite <- app_assoc, (source_pieces_app before (pieces_of i)), length_app, names_app, foldl_app in Hm. rewrite <- app_assoc in Hc.
  destruct i as [p|d ps]; cbn [pieces_of entities_of marks] in *.
  - rewrite source_pieces_cons, length_app in Hm. cbn [length source_pieces] in Hm. exists es. split; [|done].
    rewrite <- Hm. do 2 f_equal. change (source_pieces []) with (@nil Z). cbn [length]. lia.
  - set (t := match type_of d.1 with Ok t => t | Raise _ => 0 end). exists (MkFormatted t (units (filled_pieces opts before)) (units (filled_pieces opts ps)) :: es).
    split.
    + cbn [mapM]. rewrite entity_formatted by done. cbn [mbind result_bind]. by rewrite Hm.
    + constructor; [|done]. split_and!; cbn [fst snd f_type f_offset f_length].
      * cbn [item_ok] in Hi. b2p. match goal with H : find_delim _ = _ |- _ => destruct (find_delim_in _ _ H) as [Hin _] end.
        destruct (delim_facts d Hin) as [Ht _]. unfold t. by destruct (type_of d.1).
      * done.
      * apply Forall_app in Hk as [Hb [Hps Ha]%Forall_app]. rewrite !filled_app. by apply utf16_slice_mid; apply known_filled.
Qed.

(** C40: A template as its author writes it - text without braces, named fields, and passages between delimiters - formats to the text with the fields filled
    in and the delimiters gone, and to one entity for each passage, in order: of the delimiter's type, beginning where the passage begins in UTF-16 code units,
    and such that cutting the text at the entity's offset and length gives exactly the passage with its fields filled in. *)
Theorem template_format opts items : items_ok items = true -> Forall (piece_known opts) (all_pieces items) ->
  exists es, format_template (source items) opts = Ok (filled_pieces opts (all_pieces items), es) /\
    Forall2 (covers opts (filled_pieces opts (all_pieces items))) (marks [] items) es.
Proof.
  intros Hok Hk. destruct (marks_covered opts items [] Hok Hk) as (es & Hm & Hc). exists es. split; [|exact Hc].
  unfold format_template. rewrite parse_template by done. cbn [mbind result_bind]. unfold format. cbn [fst snd].
  rewrite str_format_pieces; [| by apply items_inner| |lia].
  - cbn [mbind result_bind]. cbn [app] in Hm. change (length (source_pieces [])) with 0%nat in Hm. change (foldl depend ∅ (names [])) with (∅ : depends) in Hm.
    by rewrite Hm.
  - apply known_names in Hk. apply Forall_impl with (1 := Hk). intros n (_ & v & Hv & _). by exists v.
Qed.
End Format.

Example template_format_witness :
  let opts := <[text_of "n" := text_of "x" ++ [0x1F44B]]> ∅ : options in
  let items := [Piece (Lit ([0x1F44B] ++ text_of " hi ")); Marked (BOLD_DELIM, BOLD_DELIM) [Lit (text_of "a "); Hole (text_of "n")]; Piece (Hole (text_of "n"))] in
  exists es, format_template (fun _ _ => Raise KeyError) (source items) opts = Ok (filled_pieces opts (all_pieces items), es) /\
    Forall2 (covers opts (filled_pieces opts (all_pieces items))) (marks [] items) es.
Proof.
  intros opts items. refine (template_format (fun _ _ => Raise KeyError) opts items _ _); [vm_compute; reflexivity|].
  repeat constructor; try (exists (text_of "x" ++ [0x1F44B])); repeat constructor; lia.
Defined.
