(* ===== verification/Base64.v ===== *)
(** URL-safe base64 of Python's [base64] module: [urlsafe_b64encode], and [urlsafe_b64decode] with the lenient decoder of [binascii], which skips what is not
    in the alphabet. *)
From Stdlib Require Import Init.Byte.
From S2P Require Import Prelude PyBytes.

(** ** Encoding *)
(** The character of a group of six bits, in ASCII *)
Definition b64_char (v : Z) : Z :=
  if v <? 26 then 65 + v else if v <? 52 then 97 + (v - 26) else if v <? 62 then 48 + (v - 52) else if v =? 62 then 45 else 95.
Definition PAD : Z := 61.

Fixpoint urlsafe_b64encode (b : bytes) : pystr :=
  match b with
  | [] => []
  | [x] => let x := byte_val x in [b64_char (x / 4); b64_char (16 * (x mod 4)); PAD; PAD]
  | [x; y] => let x := byte_val x in let y := byte_val y in [b64_char (x / 4); b64_char (16 * (x mod 4) + y / 16); b64_char (4 * (y mod 16)); PAD]
  | x :: y :: z :: b =>
    let x := byte_val x in let y := byte_val y in let z := byte_val z in
    b64_char (x / 4) :: b64_char (16 * (x mod 4) + y / 16) :: b64_char (4 * (y mod 16) + z / 64) :: b64_char (z mod 64) :: urlsafe_b64encode b
  end.

(** ** Decoding *)
(** The value of a character; [+] and [/] are left to [b64decode], which reads them too. *)
Definition b64_value (c : Z) : option Z :=
  if (65 <=? c) && (c <=? 90) then Some (c - 65)
  else if (97 <=? c) && (c <=? 122) then Some (c - 97 + 26)
  else if (48 <=? c) && (c <=? 57) then Some (c - 48 + 52)
  else if (c =? 45) || (c =? 43) then Some 62
  else if (c =? 95) || (c =? 47) then Some 63
  else None.

(** [a2b_base64]: [quad_pos] characters of a group have been read, [leftchar] are their bits that are not written yet, [pads] the signs [=] seen since. *)
Fixpoint a2b_base64 (s : pystr) (quad_pos leftchar pads : Z) : result bytes :=
  match s with
  | [] => if quad_pos =? 0 then Ok [] else Raise ValueError
  | c :: s =>
    if c =? PAD then
      if (2 <=? quad_pos) && (4 <=? quad_pos + pads + 1) then Ok []
      else a2b_base64 s quad_pos leftchar (if 2 <=? quad_pos then pads + 1 else pads)
    else match b64_value c with
    | None => a2b_base64 s quad_pos leftchar pads
    | Some v =>
      if quad_pos =? 0 then a2b_base64 s 1 v 0
      else if quad_pos =? 1 then r ← a2b_base64 s 2 (v mod 16) 0; Ok (byte_of (4 * leftchar + v / 16) :: r)
      else if quad_pos =? 2 then r ← a2b_base64 s 3 (v mod 4) 0; Ok (byte_of (16 * leftchar + v / 4) :: r)
      else r ← a2b_base64 s 0 0 0; Ok (byte_of (64 * leftchar + v) :: r)
    end
  end.

(** A string that is not ASCII is refused. *)
Definition urlsafe_b64decode (s : pystr) : result bytes :=
  if forallb (fun c => (0 <=? c) && (c <? 128)) s then a2b_base64 s 0 0 0 else Raise ValueError.

(** ** What was encoded is decoded *)
Lemma b64_value_char v : 0 <= v < 64 -> b64_value (b64_char v) = Some v /\ b64_char v <> PAD /\ 0 <= b64_char v < 128.
Proof.
  intros Hv. unfold b64_char, b64_value, PAD. repeat case_match; b2p; split_and!; try lia; try (f_equal; lia);
    repeat match goal with H : orb _ _ = true |- _ => apply orb_prop in H as [H|H] end; b2p; lia.
Qed.

Lemma a2b_char v s q left pads : 0 <= v < 64 -> a2b_base64 (b64_char v :: s) q left pads =
  if q =? 0 then a2b_base64 s 1 v 0
  else if q =? 1 then r ← a2b_base64 s 2 (v mod 16) 0; Ok (byte_of (4 * left + v / 16) :: r)
  else if q =? 2 then r ← a2b_base64 s 3 (v mod 4) 0; Ok (byte_of (16 * left + v / 4) :: r)
  else r ← a2b_base64 s 0 0 0; Ok (byte_of (64 * left + v) :: r).
Proof. intros Hv. destruct (b64_value_char v Hv) as (E & Hp & _). cbn [a2b_base64]. by rewrite (proj2 (Z.eqb_neq _ _) Hp), E. Qed.

(** Whole groups *)
Lemma a2b_group x y z s : a2b_base64 (urlsafe_b64encode [x; y; z] ++ s) 0 0 0 = (fun r => x :: y :: z :: r) <$> a2b_base64 s 0 0 0.
Proof.
  pose proof (byte_val_range x). pose proof (byte_val_range y). pose proof (byte_val_range z). cbn [urlsafe_b64encode app].
  rewrite a2b_char by (Z.to_euclidean_division_equations; lia). cbn [Z.eqb]. rewrite a2b_char by (Z.to_euclidean_division_equations; lia). cbn [Z.eqb Pos.eqb].
  rewrite a2b_char by (Z.to_euclidean_division_equations; lia). cbn [Z.eqb Pos.eqb]. rewrite a2b_char by (Z.to_euclidean_division_equations; lia). cbn [Z.eqb Pos.eqb].
  destruct (a2b_base64 s 0 0 0) as [r|e]; [|done]. cbn. do 2 f_equal; [|f_equal; [|f_equal]]; apply byte_val_inj; rewrite byte_val_of_small; Z.to_euclidean_division_equations; lia.
Qed.

Lemma a2b_two_pads l : a2b_base64 [PAD; PAD] 2 l 0 = Ok [].
Proof. reflexivity. Qed.
Lemma a2b_one_pad l : a2b_base64 [PAD] 3 l 0 = Ok [].
Proof. reflexivity. Qed.

Lemma a2b_encode b : a2b_base64 (urlsafe_b64encode b) 0 0 0 = Ok b.
Proof.
  revert b. fix IH 1. intros [|x [|y [|z b]]]; [done| | |].
  - pose proof (byte_val_range x). cbn [urlsafe_b64encode]. rewrite a2b_char by (Z.to_euclidean_division_equations; lia). cbn [Z.eqb].
    rewrite a2b_char by (Z.to_euclidean_division_equations; lia). cbn [Z.eqb Pos.eqb]. rewrite a2b_two_pads. cbn [mbind result_bind]. do 2 f_equal. apply byte_val_inj. rewrite byte_val_of_small; Z.to_euclidean_division_equations; lia.
  - pose proof (byte_val_range x). pose proof (byte_val_range y). cbn [urlsafe_b64encode]. rewrite a2b_char by (Z.to_euclidean_division_equations; lia). cbn [Z.eqb].
    rewrite a2b_char by (Z.to_euclidean_division_equations; lia). cbn [Z.eqb Pos.eqb]. rewrite a2b_char by (Z.to_euclidean_division_equations; lia). cbn [Z.eqb Pos.eqb].
    rewrite a2b_one_pad. cbn [mbind result_bind]. do 2 f_equal; [|f_equal]; apply byte_val_inj; rewrite byte_val_of_small; Z.to_euclidean_division_equations; lia.
  - change (urlsafe_b64encode (x :: y :: z :: b)) with (urlsafe_b64encode [x; y; z] ++ urlsafe_b64encode b). by rewrite a2b_group, IH.
Qed.

Lemma encode_ascii b : Forall (fun c => (0 <=? c) && (c <? 128) = true) (urlsafe_b64encode b).
Proof.
  assert (forall v, 0 <= v < 64 -> (0 <=? b64_char v) && (b64_char v <? 128) = true) as Hc.
  { intros v Hv. destruct (b64_value_char v Hv) as (_ & _ & ? & ?). apply andb_true_intro. split; [by apply Z.leb_le|by apply Z.ltb_lt]. }
  revert b. fix IH 1. intros [|x [|y [|z b]]]; [constructor| | |]; cbn [urlsafe_b64encode]; pose proof (byte_val_range x); try pose proof (byte_val_range y);
    try pose proof (byte_val_range z); repeat (constructor; [first [done|apply Hc; Z.to_euclidean_division_equations; lia]|]); [constructor..|]. apply IH.
Qed.

Lemma b64_roundtrip b : urlsafe_b64decode (urlsafe_b64encode b) = Ok b.
Proof.
  unfold urlsafe_b64decode. assert (forallb (fun c => (0 <=? c) && (c <? 128)) (urlsafe_b64encode b) = true) as ->; [|apply a2b_encode].
  apply forallb_forall. intros c Hc%list_elem_of_In. pose proof (encode_ascii b) as H. rewrite Forall_forall in H. by apply H.
Qed.

(** ** Without its padding: [s.strip("=")], and [s + "=" * (-len(s) % 4)] *)
Fixpoint lstrip_pad (s : pystr) : pystr := match s with c :: s' => if c =? PAD then lstrip_pad s' else s | [] => [] end.
Definition strip_pad (s : pystr) : pystr := rev (lstrip_pad (rev (lstrip_pad s))).
Definition repad (s : pystr) : pystr := s ++ replicate (Z.to_nat (- Z.of_nat (length s) mod 4)) PAD.

(** What is encoded before the padding *)
Fixpoint b64_body (b : bytes) : pystr :=
  match b with
  | [] => []
  | [x] => let x := byte_val x in [b64_char (x / 4); b64_char (16 * (x mod 4))]
  | [x; y] => let x := byte_val x in let y := byte_val y in [b64_char (x / 4); b64_char (16 * (x mod 4) + y / 16); b64_char (4 * (y mod 16))]
  | x :: y :: z :: b => urlsafe_b64encode [x; y; z] ++ b64_body b
  end.
Definition b64_pads (b : bytes) : nat := Z.to_nat (- (Z.of_nat (length b)) mod 3).

Lemma encode_body b : urlsafe_b64encode b = b64_body b ++ replicate (b64_pads b) PAD /\ Forall (fun c => c <> PAD) (b64_body b) /\
  Z.of_nat (b64_pads b) = - Z.of_nat (length (b64_body b)) mod 4.
Proof.
  assert (forall v, 0 <= v < 64 -> b64_char v <> PAD) as Hc by (intros v Hv; by destruct (b64_value_char v Hv) as (_ & ? & _)).
  revert b. fix IH 1. intros [|x [|y [|z b]]]; [split_and!; [done|constructor|done]| | |]; pose proof (byte_val_range x); try pose proof (byte_val_range y);
    try pose proof (byte_val_range z).
  - split_and!; [done|repeat (constructor; [apply Hc; Z.to_euclidean_division_equations; lia|]); constructor|done].
  - split_and!; [done|repeat (constructor; [apply Hc; Z.to_euclidean_division_equations; lia|]); constructor|done].
  - destruct (IH b) as (E & Hf & Hl). assert (b64_pads (x :: y :: z :: b) = b64_pads b) as ->.
    { unfold b64_pads. f_equal. cbn [length]. rewrite !Nat2Z.inj_succ. Z.to_euclidean_division_equations; lia. }
    split_and!.
    + change (urlsafe_b64encode (x :: y :: z :: b)) with (urlsafe_b64encode [x; y; z] ++ urlsafe_b64encode b). cbn [b64_body]. by rewrite <- app_assoc, E.
    + cbn [b64_body]. apply Forall_app. split; [|done]. cbn [urlsafe_b64encode]. repeat (constructor; [apply Hc; Z.to_euclidean_division_equations; lia|]); constructor.
    + rewrite Hl. cbn [b64_body urlsafe_b64encode]. rewrite length_app. cbn [length]. rewrite !Nat2Z.inj_add. Z.to_euclidean_division_equations; lia.
Qed.

Lemma rev_pads n : rev (replicate n PAD) = replicate n PAD.
Proof. induction n as [|n IH]; [done|]. cbn. rewrite IH. symmetry. apply (replicate_cons_app n PAD). Qed.
Lemma lstrip_pads n s : lstrip_pad (replicate n PAD ++ s) = lstrip_pad s.
Proof. induction n as [|n IH]; [done|]. cbn. apply IH. Qed.
Lemma lstrip_none s : Forall (fun c => c <> PAD) s -> lstrip_pad s = s.
Proof. intros H. destruct H as [|c s Hc _]; [done|]. cbn. by rewrite (proj2 (Z.eqb_neq _ _)). Qed.

Lemma strip_repad b : strip_pad (urlsafe_b64encode b) = b64_body b /\ repad (b64_body b) = urlsafe_b64encode b.
Proof.
  destruct (encode_body b) as (E & Hf & Hl). split.
  - rewrite E. unfold strip_pad. assert (lstrip_pad (b64_body b ++ replicate (b64_pads b) PAD) = b64_body b ++ replicate (b64_pads b) PAD \/ b64_body b = []) as [Hs|Hs].
    { destruct (b64_body b) as [|c s]; [by right|left]. inversion Hf; subst. cbn. by rewrite (proj2 (Z.eqb_neq _ _)). }
    + rewrite Hs, rev_app_distr, rev_pads, lstrip_pads, lstrip_none, rev_involutive; [done|]. apply Forall_rev. done.
    + rewrite Hs. cbn [app]. replace (replicate (b64_pads b) PAD) with (replicate (b64_pads b) PAD ++ []) by apply app_nil_r. by rewrite lstrip_pads.
  - unfold repad. by rewrite <- Hl, Nat2Z.id, E.
Qed.

(** Its characters are of the alphabet. *)
Lemma body_chars b : Forall (fun c => exists v, 0 <= v < 64 /\ c = b64_char v) (b64_body b).
Proof.
  revert b. fix IH 1. intros [|x [|y [|z b]]]; [constructor| | |]; pose proof (byte_val_range x); try pose proof (byte_val_range y); try pose proof (byte_val_range z);
    cbn [b64_body urlsafe_b64encode app]; repeat (constructor; [eexists; split; [|reflexivity]; Z.to_euclidean_division_equations; lia|]); [constructor..|]. apply IH.
Qed.
Lemma alphabet v : 0 <= v < 64 -> 45 <= b64_char v <= 122 /\ b64_char v <> 46.
Proof. intros Hv. unfold b64_char. repeat case_match; b2p; lia. Qed.
