(* ===== verification/Members.v ===== *)
(** Channels and their members: the handlers of [piltover/app/handlers/channels.py] that create channels, invite, join, leave, restrict, promote and hand over, with
    [Channel.from_input], [sync_admins_count], [prehistory_applies] ([piltover/db/models/channel.py]), [get_participant] ([chat_base.py]) and
    [min_message_id_for_new_participant] ([message_ref.py]); and the state that the invite links of [Invites.v] and the basic groups of [Groups.v] share with them.

    Rights are those of [Rights.v], input peers those of [Peers.v], privacy rules those of [Privacy.v]. Members are rows keyed by [chat_channel_id] and user; the
    columns of a [ChatParticipant] that [Rights.v] leaves out are beside it. What is sent, dialogs and the admin log are a log of events. Time is in microseconds. The rights of
    a request are as [from_tl] reads them. *)
From stdpp Require Import gmap.
From S2P Require Import Prelude PyBytes AccessHash Privacy Peers Rights.

(** ** Rows *)
(** A [Chat] or a [Channel] *)
Inductive place := InChat (id : Z) | InChannel (id : Z).
#[export] Instance place_eq_dec : EqDecision place.
Proof. solve_decision. Defined.
Definition make_id (p : place) : Z := match p with InChat i => chat_make_id i | InChannel i => channel_make_id i end.

Record Channel := MkChannel {
  ch : ChatBase; ch_supergroup : bool; ch_history : ChannelHistory; ch_join_request : bool;
  ch_username : bool;                        (* a [Username] is the channel's *)
  ch_discussion : option Z; ch_admins_count : Z; ch_migrated_from : option Z; ch_no_forwards : bool }.
Record Group := MkGroup { gr : ChatBase; gr_migrated : bool; gr_participants_count : Z; gr_no_forwards : bool }.

Record Member := MkMember { mb : ChatParticipant; mb_invite : option Z; mb_banned_until : option Z }.

Record ChatInvite := MkInvite {
  iv_revoked : bool; iv_expires_at : option Z; iv_request_needed : bool; iv_nonce : bytes; iv_user : Z; iv_place : place;
  iv_created_at : Z; iv_updated_at : Z; iv_usage_limit : option Z; iv_usage : Z; iv_title : option pystr }.
Record InviteRequest := MkInviteRequest { ir_user : Z; ir_invite : Z; ir_created_at : Z }.

Inductive admin_action := PARTICIPANT_JOIN | PARTICIPANT_LEAVE | PARTICIPANT_BAN | PARTICIPANT_ADMIN | PREHISTORY_HIDDEN | CHANGE_ABOUT | TOGGLE_NOFORWARDS |
  DEFAULT_BANNED_RIGHTS.
Inductive service := ChannelCreate | ChatCreate | UserAdd | InviteJoin (inviter : Z) | RequestJoin | UserDel | EditTitle | MigrateTo | MigrateFrom.
Inductive member_event :=
  | Subscribed (channel : Z) (users : list Z)
  | DialogShown (user : Z) (p : place) (visible : bool)
  | AdminLogged (channel user : Z) (action : admin_action)
  | ServiceSent (p : place) (author : Z) (s : service)
  | Forwarded (p : place) (user limit : Z)                   (* the last messages are copied to one who was added *)
  | RequestsShown (p : place)                               (* its admins see who asks to join *)
  | ScheduledDropped (p : place) (user : option Z)           (* scheduled messages there are deleted, one user's or all *)
  | PersonalUnset (channel : Z)                             (* it is nobody's personal channel any more *)
  | Updated (p : place) (users : option (list Z)).          (* [None]: whoever the channel's update goes to *)

Record MembersDb := MkMembersDb {
  m_peers : gmap Z Peer; m_next_peer : Z; m_users : gmap Z UserRow; m_privacy : PrivacyDb;
  channels : gmap Z Channel; next_channel : Z; groups : gmap Z Group; next_group : Z;
  members : gmap (Z * Z) Member;                            (* unique by chat or channel and user *)
  invites : gmap Z ChatInvite; next_invite : Z;
  requests : gmap Z InviteRequest; next_request : Z;
  m_last_message : gmap Z Z;                                (* the last message of a channel *)
  m_log : list member_event }.
Abbreviation MM := (M MembersDb).

Definition with_channels (c : gmap Z Channel) (n : Z) (d : MembersDb) : MembersDb :=
  MkMembersDb (m_peers d) (m_next_peer d) (m_users d) (m_privacy d) c n (groups d) (next_group d) (members d) (invites d) (next_invite d) (requests d)
    (next_request d) (m_last_message d) (m_log d).
Definition with_groups (g : gmap Z Group) (n : Z) (d : MembersDb) : MembersDb :=
  MkMembersDb (m_peers d) (m_next_peer d) (m_users d) (m_privacy d) (channels d) (next_channel d) g n (members d) (invites d) (next_invite d) (requests d)
    (next_request d) (m_last_message d) (m_log d).
Definition with_members (m : gmap (Z * Z) Member) (d : MembersDb) : MembersDb :=
  MkMembersDb (m_peers d) (m_next_peer d) (m_users d) (m_privacy d) (channels d) (next_channel d) (groups d) (next_group d) m (invites d) (next_invite d) (requests d)
    (next_request d) (m_last_message d) (m_log d).
Definition with_invites (i : gmap Z ChatInvite) (n : Z) (d : MembersDb) : MembersDb :=
  MkMembersDb (m_peers d) (m_next_peer d) (m_users d) (m_privacy d) (channels d) (next_channel d) (groups d) (next_group d) (members d) i n (requests d)
    (next_request d) (m_last_message d) (m_log d).
Definition with_requests (r : gmap Z InviteRequest) (n : Z) (d : MembersDb) : MembersDb :=
  MkMembersDb (m_peers d) (m_next_peer d) (m_users d) (m_privacy d) (channels d) (next_channel d) (groups d) (next_group d) (members d) (invites d) (next_invite d) r n
    (m_last_message d) (m_log d).
Definition with_rest (p : gmap Z Peer) (n : Z) (pr : PrivacyDb) (l : list member_event) (d : MembersDb) : MembersDb :=
  MkMembersDb p n (m_users d) pr (channels d) (next_channel d) (groups d) (next_group d) (members d) (invites d) (next_invite d) (requests d)
    (next_request d) (m_last_message d) l.

Definition emit (e : member_event) : MM unit := modify (fun d => with_rest (m_peers d) (m_next_peer d) (m_privacy d) (m_log d ++ [e]) d).
Definition on_privacy {A} (m : P A) : MM A := fun d => let '(r, p) := m (m_privacy d) in (r, with_rest (m_peers d) (m_next_peer d) p (m_log d) d).

(** The tables as [Peers.v] sees them *)
Definition peer_view (d : MembersDb) : PeerDb :=
  MkPeerDb (m_peers d) (m_users d) ((fun g => Peers.MkChatRow (deleted (gr g)) (gr_migrated g)) <$> groups d) ((fun c => deleted (ch c)) <$> channels d)
    (list_to_set (omap (fun km => if Z.odd km.1.1 && negb (left (mb km.2)) then Some (norm_id km.1.1, km.1.2) else None) (map_to_list (members d)))) (m_next_peer d).
Definition on_peers {A} (m : D A) : MM A := fun d => let '(r, p) := m (peer_view d) in (r, with_rest (peers p) (next_peer p) (m_privacy d) (m_log d) d).

Record MembersCtx := MkMembersCtx { mx_auth_id : Z; mx_user_id : Z }.

(** ** Members *)
Definition base_of (p : place) (d : MembersDb) : option ChatBase := match p with InChat i => gr <$> groups d !! i | InChannel i => ch <$> channels d !! i end.
Definition member_of (p : place) (user : Z) (d : MembersDb) : option Member := members d !! (make_id p, user).
(** [get_participant] *)
Definition get_participant (p : place) (user : Z) (allow_left : bool) (d : MembersDb) : option Member :=
  m ← member_of p user d; if negb allow_left && left (mb m) then None else Some m.
Definition get_participant_raise (p : place) (user : Z) (message : string) : MM Member :=
  d ← get; match get_participant p user false d with Some m => mret m | None => raise (ErrorRpc 400 message) end.
(** A filter of members of a chat or channel, counted *)
Definition count_members (p : place) (f : Member -> bool) (d : MembersDb) : Z :=
  Z.of_nat (size (filter (fun km => km.1.1 = make_id p /\ f km.2 = true) (members d))).
Definition channels_of_user (user : Z) (d : MembersDb) : Z :=
  Z.of_nat (size (filter (fun km => Z.odd km.1.1 = true /\ km.1.2 = user /\ left (mb km.2) = false) (members d))).
Definition set_member (p : place) (user : Z) (m : Member) : MM unit := modify (fun d => with_members (<[(make_id p, user) := m]> (members d)) d).

Definition set_left (l : bool) (m : Member) : Member :=
  let r := mb m in MkMember (MkParticipant (user_id r) (inviter_id r) (invited_at r) (banned_rights r) (admin_rights r) (admin_rank r) (promoted_by_id r)
    (min_message_id r) l) (mb_invite m) (mb_banned_until m).
Definition set_banned (b : Z) (until : option Z) (l : bool) (m : Member) : Member :=
  let r := mb m in MkMember (MkParticipant (user_id r) (inviter_id r) (invited_at r) b (admin_rights r) (admin_rank r) (promoted_by_id r)
    (min_message_id r) l) (mb_invite m) until.
Definition set_admin (a : Z) (rank : pystr) (promoted_by : Z) (m : Member) : Member :=
  let r := mb m in MkMember (MkParticipant (user_id r) (inviter_id r) (invited_at r) (banned_rights r) a rank promoted_by (min_message_id r) (left r))
    (mb_invite m) (mb_banned_until m).
Definition set_joined (inviter : Z) (invite : option Z) (min_message : option Z) (m : Member) : Member :=
  let r := mb m in MkMember (MkParticipant (user_id r) inviter (invited_at r) (banned_rights r) (admin_rights r) (admin_rank r) (promoted_by_id r) min_message false)
    invite (mb_banned_until m).
Definition new_member (user inviter now : Z) (min_message : option Z) (invite : option Z) : Member :=
  MkMember (MkParticipant user inviter now Banned.NONE Admin.NONE [] 0 min_message false) invite None.

Definition CREATOR_RIGHTS : Z := foldl Z.lor 0
  [Admin.CHANGE_INFO; Admin.POST_MESSAGES; Admin.EDIT_MESSAGES; Admin.DELETE_MESSAGES; Admin.BAN_USERS; Admin.INVITE_USERS; Admin.PIN_MESSAGES; Admin.ADD_ADMINS;
   Admin.MANAGE_CALL; Admin.OTHER; Admin.MANAGE_TOPICS; Admin.POST_STORIES; Admin.EDIT_STORIES; Admin.DELETE_STORIES].

(** [ChatInviteRequest.delete_for_chat_or_channel], of some users *)
Definition of_place (p : place) (d : MembersDb) (r : InviteRequest) : bool :=
  match invites d !! ir_invite r with Some i => bool_decide (iv_place i = p) | None => false end.
Definition delete_requests (p : place) (users : Z -> bool) : MM unit := modify (fun d =>
  with_requests (filter (fun kr => of_place p d kr.2 && users (ir_user kr.2) = false) (requests d)) (next_request d) d).

Definition change_channel (id : Z) (f : Channel -> Channel) : MM unit := modify (fun d => with_channels (alter f id (channels d)) (next_channel d) d).
Definition sync_admins_count (id : Z) : MM unit := modify (fun d =>
  with_channels (alter (fun c => MkChannel (ch c) (ch_supergroup c) (ch_history c) (ch_join_request c) (ch_username c) (ch_discussion c)
    (count_members (InChannel id) (fun m => 0 <? admin_rights (mb m)) d) (ch_migrated_from c) (ch_no_forwards c)) id (channels d)) (next_channel d) d).

Definition is_discussion (c : Channel) : bool := match kind (ch c) with IsChannel _ i _ _ => i | IsChat => false end.
Definition prehistory_applies (c : Channel) : bool :=
  if negb (ch_supergroup c) || is_broadcast (ch c) || is_discussion c then false else negb (ch_username c).
Definition min_message_id_for_new_participant (id : Z) (c : Channel) (d : MembersDb) : option Z :=
  if negb (prehistory_applies c) then None
  else if hidden_prehistory (ch_history c) then (fun last => last + 1) <$> m_last_message d !! id
  else min_available_id (ch_history c).

Section Members.
Context (hmac_sha256 : bytes -> bytes) (payload : signed_kind -> Z -> Z -> Z -> bytes).
(** [APP_CONFIG] *)
Context (basic_group_member_limit super_group_member_limit channels_per_user_limit basic_group_admin_limit channel_admin_limit : Z).

(** [Channel.get_from_input] *)
Definition get_from_input (cx : MembersCtx) (i : InputPeer) : MM (option (Z * Channel)) :=
  d ← get;
  match i with
  | InputChannel c access_hash =>
    let id := norm_id c in
    let found := c ← channels d !! id; if deleted (ch c) then None else Some (id, c) in
    if access_hash =? 0 then mret (m ← get_participant (InChannel id) (mx_user_id cx) false d; found)
    else
      ok ← lift_result (check_access_hash hmac_sha256 payload KChannel (mx_user_id cx) (mx_auth_id cx) id access_hash);
      mret (if (ok : bool) then found else None)
  | _ => mret None
  end.
Definition channel_raise (cx : MembersCtx) (i : InputPeer) : MM (Z * Channel) :=
  c ← get_from_input cx i; match c with Some c => mret c | None => raise (ErrorRpc 406 "CHANNEL_PRIVATE") end.

Definition user_of_input (cx : MembersCtx) (i : InputPeer) (message : string) : MM (PeerType * Z) :=
  lift_result (type_and_id_from_input_raise hmac_sha256 payload (mx_auth_id cx) (mx_user_id cx) i message 400).

(** ** Creating *)
Record CreateChannel := MkCreateChannel { cc_title : pystr; cc_about : pystr; cc_broadcast : bool; cc_megagroup : bool; cc_forum : bool }.

Definition _create_channel (creator_id : Z) (title description : pystr) (is_channel is_supergroup : bool) : MM Z :=
  d ← get;
  let id := next_channel d in
  let c := MkChannel (MkChatBase (IsChannel is_channel false true false) title description 1 creator_id None Banned.NONE 0 false) is_supergroup
    (MkHistory false None None) false false None 0 None false in
  modify (with_channels (<[id := c]> (channels d)) (id + 1));;
  on_peers (create_channel_peer id);;
  mret id.

Definition _add_user_to_channel (id user_id now : Z) : MM unit :=
  d ← get;
  let user_is_creator := match channels d !! id with Some c => creator_id (ch c) =? user_id | None => false end in
  let rights := if user_is_creator then CREATOR_RIGHTS else Admin.NONE in
  let m := match member_of (InChannel id) user_id d with
    | Some m => set_left false (set_admin rights (admin_rank (mb m)) (promoted_by_id (mb m)) m)
    | None => set_admin rights [] 0 (new_member user_id 0 now None None)
    end in
  set_member (InChannel id) user_id m;;
  (if user_is_creator then sync_admins_count id else mret tt);;
  emit (DialogShown user_id (InChannel id) true);;
  emit (Subscribed id [user_id]).

(** [enabled] and [restricted] are what [require_server_feature] and [check_spam_blocked_creation] find; a forum's first topic is not modelled. *)
Definition create_channel (cx : MembersCtx) (now : Z) (enabled restricted : bool) (r : CreateChannel) : MM Z :=
  ensure enabled (ErrorRpc 403 "CHANNELS_TOO_MUCH");;
  ensure (negb restricted) (ErrorRpc 403 "USER_RESTRICTED");;
  ensure (cc_broadcast r || cc_megagroup r) (ErrorRpc 400 "CHANNELS_TOO_MUCH");;
  ensure (negb (cc_broadcast r && cc_megagroup r)) (ErrorRpc 400 "CHANNEL_INVALID");;
  let title := strip (cc_title r) in
  let description := strip (cc_about r) in
  ensure (negb (bool_decide (title = []))) (ErrorRpc 400 "CHAT_TITLE_EMPTY");;
  ensure (negb (64 <? length title)%nat) (ErrorRpc 400 "CHAT_TITLE_EMPTY");;
  ensure (negb (255 <? length description)%nat) (ErrorRpc 400 "CHAT_ABOUT_TOO_LONG");;
  ensure (negb (cc_forum r && cc_broadcast r)) (ErrorRpc 400 "CHANNEL_INVALID");;
  id ← transaction (
    id ← _create_channel (mx_user_id cx) title description (cc_broadcast r) (cc_megagroup r);
    _add_user_to_channel id (mx_user_id cx) now;;
    mret id);
  emit (ServiceSent (InChannel id) (mx_user_id cx) ChannelCreate);;
  mret id.

(** ** Restricting *)
Record EditBanned := MkEditBanned { eb_channel : InputPeer; eb_participant : InputPeer; eb_banned_rights : Z; eb_until_date : Z }.

(** [False]: there was nothing to change. *)
Definition edit_banned (cx : MembersCtx) (now : Z) (r : EditBanned) : MM bool :=
  idc ← channel_raise cx (eb_channel r);
  let '(id, channel) := (idc : Z * Channel) in
  let p := InChannel id in
  participant ← get_participant_raise p (mx_user_id cx) "CHAT_RESTRICTED";
  ensure (admin_has_permission (ch channel) (mb participant) Admin.BAN_USERS) (ErrorRpc 403 "RIGHT_FORBIDDEN");;
  target ← user_of_input cx (eb_participant r) "PARTICIPANT_ID_INVALID";
  ensure (bool_decide (target.1 = USER)) (ErrorRpc 400 "PARTICIPANT_ID_INVALID");;
  let target_id := target.2 in
  d ← get;
  let target_participant := get_participant p target_id true d in
  let new_banned_rights := eb_banned_rights r in
  let banned_for := eb_until_date r * 1000000 - now in
  let banned_until := if (new_banned_rights =? 0) || (banned_for <? 30 * 1000000) || (86400 * 366 * 1000000 <? banned_for) then 0 else eb_until_date r in
  match target_participant with
  | Some t =>
    if banned_rights (mb t) =? new_banned_rights then mret false
    else
      ensure (negb (is_admin (mb t) && negb (mx_user_id cx =? creator_id (ch channel)))) (ErrorRpc 400 "CHAT_ADMIN_REQUIRED");;
      let was_participant := negb (left (mb t)) in
      let gone := left (mb t) || negb (Z.land new_banned_rights Banned.VIEW_MESSAGES =? 0) in
      set_member p target_id (set_banned new_banned_rights (Some banned_until) gone t);;
      (if negb (Z.land new_banned_rights Banned.VIEW_MESSAGES =? 0) then delete_requests p (fun u => u =? target_id) else mret tt);;
      emit (AdminLogged id (mx_user_id cx) PARTICIPANT_BAN);;
      (if was_participant then emit (Updated p (Some [target_id])) else mret tt);;
      mret true
  | None =>
    set_member p target_id (set_banned new_banned_rights (Some banned_until) true (new_member target_id 0 now None None));;
    (if negb (Z.land new_banned_rights Banned.VIEW_MESSAGES =? 0) then delete_requests p (fun u => u =? target_id) else mret tt);;
    emit (AdminLogged id (mx_user_id cx) PARTICIPANT_BAN);;
    mret true
  end.

(** ** Promoting *)
Record EditAdmin := MkEditAdmin { ea_channel : InputPeer; ea_user_id : InputPeer; ea_admin_rights : Z; ea_rank : pystr }.

Definition edit_admin (cx : MembersCtx) (r : EditAdmin) : MM bool :=
  idc ← channel_raise cx (ea_channel r);
  let '(id, channel) := (idc : Z * Channel) in
  let p := InChannel id in
  let creator := creator_id (ch channel) in
  let user := mx_user_id cx in
  participant ← get_participant_raise p user "CHAT_RESTRICTED";
  ensure (admin_has_permission (ch channel) (mb participant) Admin.ADD_ADMINS) (ErrorRpc 403 "RIGHT_FORBIDDEN");;
  target_peer ← on_peers (query_from_input_user_or_raise hmac_sha256 payload (mx_auth_id cx) user (ea_user_id r) "PARTICIPANT_ID_INVALID");
  target_id ← lift_result (need (p_user target_peer.2));
  ensure (negb ((target_id =? creator) && negb (target_id =? user))) (ErrorRpc 400 "USER_CREATOR");;
  d ← get;
  match get_participant p target_id false d with
  | None => raise (ErrorRpc 400 "PARTICIPANT_ID_INVALID")
  | Some t =>
    let new_admin_rights := ea_admin_rights r in
    ensure (negb ((0 <? new_admin_rights) && negb (is_admin (mb t)) && (channel_admin_limit <=? ch_admins_count channel))) (ErrorRpc 400 "USERS_TOO_MUCH");;
    let new_admin_rights := if target_id =? creator then Z.lor new_admin_rights CREATOR_RIGHTS else new_admin_rights in
    ensure (negb (negb (user =? creator) && negb (Z.land new_admin_rights (Z.lnot (admin_rights (mb participant))) =? 0))) (ErrorRpc 403 "RIGHT_FORBIDDEN");;
    if (admin_rights (mb t) =? new_admin_rights) && bool_decide (admin_rank (mb t) = ea_rank r) then mret false
    else
      set_member p target_id (set_admin new_admin_rights (ea_rank r) (if promoted_by_id (mb t) =? 0 then user else promoted_by_id (mb t)) t);;
      sync_admins_count id;;
      emit (AdminLogged id user PARTICIPANT_ADMIN);;
      emit (Updated p (Some [user]));;
      mret true
  end.

(** ** Inviting *)
Record InviteState := MkInviteState {
  is_existing : gmap Z Member; is_added : list Z; is_missing : list Z; is_create : list Z; is_update : list Z }.

(** One user of the request: who is a member already is passed over, who may not be invited is reported. *)
Definition invite_one (cx : MembersCtx) (privacy_rules : answers) (channels_count_by_user : Z -> Z) (current_participants_count : Z) (min_message : option Z)
    (st : InviteState) (input_user : InputPeer) : MM InviteState :=
  target ← user_of_input cx input_user "PEER_ID_INVALID";
  let peer_user_id := target.2 in
  let existing_participant := is_existing st !! peer_user_id in
  if peer_user_id =? mx_user_id cx then mret st
  else if match existing_participant with Some m => negb (left (mb m)) | None => false end then mret st
  else
    rules ← lift_result (match privacy_rules !! peer_user_id with Some m => match m !! CHAT_INVITE with Some b => Ok b | None => Raise KeyError end | None => Raise KeyError end);
    let missing := MkInviteState (is_existing st) (is_added st) (is_missing st ++ [peer_user_id]) (is_create st) (is_update st) in
    if negb rules then mret missing
    else if channels_per_user_limit <=? channels_count_by_user peer_user_id then mret missing
    else if super_group_member_limit <=? current_participants_count + Z.of_nat (length (is_added st)) then raise (ErrorRpc 400 "USERS_TOO_MUCH")
    else match existing_participant with
      | None => mret (MkInviteState (is_existing st) (is_added st ++ [peer_user_id]) (is_missing st) (is_create st ++ [peer_user_id]) (is_update st))
      | Some m => mret (MkInviteState (<[peer_user_id := set_joined (mx_user_id cx) (mb_invite m) min_message m]> (is_existing st))
          (is_added st ++ [peer_user_id]) (is_missing st) (is_create st) (is_update st ++ [peer_user_id]))
      end.

Fixpoint invite_all (cx : MembersCtx) (privacy_rules : answers) (channels_count_by_user : Z -> Z) (current_participants_count : Z) (min_message : option Z)
    (st : InviteState) (l : list InputPeer) : MM InviteState :=
  match l with
  | [] => mret st
  | i :: l => st ← invite_one cx privacy_rules channels_count_by_user current_participants_count min_message st i;
      invite_all cx privacy_rules channels_count_by_user current_participants_count min_message st l
  end.

(** The ids of the request's users *)
Fixpoint input_user_ids (cx : MembersCtx) (l : list InputPeer) : MM (gset Z) :=
  match l with
  | [] => mret ∅
  | i :: l =>
    target ← user_of_input cx i "USER_ID_INVALID";
    ensure (bool_decide (target.1 = USER)) (ErrorRpc 400 "USER_ID_INVALID");;
    s ← input_user_ids cx l;
    mret (if target.2 =? mx_user_id cx then s else {[target.2]} ∪ s)
  end.

(** [bulk_create(ignore_conflicts=True)] and [bulk_update] of three columns *)
Definition create_members (p : place) (row : Z -> Member) (users : list Z) : MM unit := modify (fun d =>
  with_members (foldl (fun ms u => match ms !! (make_id p, u) with None => <[(make_id p, u) := row u]> ms | Some _ => ms end) (members d) users) d).
Definition rejoin_members (p : place) (inviter : Z) (min_message : option Z) (users : list Z) : MM unit := modify (fun d =>
  with_members (foldl (fun ms u => alter (fun m => set_joined inviter (mb_invite m) min_message m) (make_id p, u) ms) (members d) users) d).

Definition invite_to_channel (cx : MembersCtx) (now : Z) (input_channel : InputPeer) (request_users : list InputPeer) : MM (list Z) :=
  let user := mx_user_id cx in
  peer ← lift_result (type_and_id_from_input_raise hmac_sha256 payload (mx_auth_id cx) user input_channel "CHANNEL_PRIVATE" 400);
  ensure (bool_decide (peer.1 = CHANNEL)) (ErrorRpc 406 "CHANNEL_PRIVATE");;
  let id := peer.2 in
  let p := InChannel id in
  on_peers (get_peer (fun _ => of_channel id));;
  d ← get;
  channel ← lift_result (match channels d !! id with Some c => Ok c | None => Raise DoesNotExist end);
  participant ← get_participant_raise p user "CHAT_RESTRICTED";
  may_invite ← lift_result (user_has_permission (ch channel) (Some (mb participant)) Banned.INVITE_USERS);
  ensure (may_invite || admin_has_permission (ch channel) (mb participant) Admin.INVITE_USERS) (ErrorRpc 403 "CHAT_ADMIN_REQUIRED");;
  user_ids ← input_user_ids cx (take 100 request_users);
  ensure (negb (bool_decide (user_ids = ∅))) (ErrorRpc 400 "USER_ID_INVALID");;
  ensure (bool_decide (set_Forall (fun u => is_Some (m_users d !! u)) user_ids)) (ErrorRpc 400 "USER_ID_INVALID");;
  let existing := list_to_map (omap (fun u => (fun m => (u, m)) <$> member_of p u d) (elements user_ids)) in
  let current_participants_count := count_members p (fun m => negb (left (mb m))) d in
  let min_message := min_message_id_for_new_participant id channel d in
  privacy_rules ← on_privacy (has_access_to_bulk (ById <$> elements user_ids) user [CHAT_INVITE] None);
  st ← invite_all cx privacy_rules (fun u => channels_of_user u d) current_participants_count min_message (MkInviteState existing [] [] [] []) (take 100 request_users);
  transaction (
    create_members p (fun u => new_member u user now min_message None) (is_create st);;
    rejoin_members p user min_message (is_update st);;
    delete_requests p (fun u => bool_decide (u ∈ is_added st));;
    mapM (fun u => emit (AdminLogged id u PARTICIPANT_JOIN)) (is_added st));;
  (if bool_decide (is_added st = []) then mret tt
   else
     emit (Subscribed id (is_added st));;
     mapM (fun u => emit (DialogShown u p true);; emit (Updated p (Some [u]))) (is_added st);;
     if ch_supergroup channel && negb (is_broadcast (ch channel)) then emit (ServiceSent p user UserAdd) else mret tt);;
  mret (is_missing st).

(** ** Handing over, leaving and deleting *)
(** [_unlink_channel_maybe] *)
Definition unlink_discussion (id : Z) (c : Channel) : Channel :=
  if bool_decide (ch_discussion c = Some id) then MkChannel (ch c) (ch_supergroup c) (ch_history c) (ch_join_request c) (ch_username c) None (ch_admins_count c) (ch_migrated_from c) (ch_no_forwards c) else c.
Definition set_kind (k : chat_kind) (c : Channel) : Channel :=
  let b := ch c in MkChannel (MkChatBase k (name b) (description b) (version b) (creator_id b) (photo_id b) (default_banned_rights b) (ttl_period_days b) (deleted b))
    (ch_supergroup c) (ch_history c) (ch_join_request c) (ch_username c) (ch_discussion c) (ch_admins_count c) (ch_migrated_from c) (ch_no_forwards c).
Definition not_discussion (c : Channel) : Channel :=
  match kind (ch c) with IsChannel channel _ join_to_send nojoin => set_kind (IsChannel channel false join_to_send nojoin) c | IsChat => c end.
Definition _unlink_channel_maybe (id : Z) (c : Channel) : MM unit :=
  if is_discussion c then modify (fun d => with_channels (unlink_discussion id <$> channels d) (next_channel d) d)
  else match ch_discussion c with Some g => if g =? 0 then mret tt else change_channel g not_discussion | None => mret tt end.

Definition set_base (f : ChatBase -> ChatBase) (c : Channel) : Channel :=
  MkChannel (f (ch c)) (ch_supergroup c) (ch_history c) (ch_join_request c) (ch_username c) (ch_discussion c) (ch_admins_count c) (ch_migrated_from c) (ch_no_forwards c).
Definition set_creator (creator version_ : Z) (b : ChatBase) : ChatBase :=
  MkChatBase (kind b) (name b) (description b) version_ creator (photo_id b) (default_banned_rights b) (ttl_period_days b) (deleted b).
Definition set_deleted (version_ : Z) (b : ChatBase) : ChatBase :=
  MkChatBase (kind b) (name b) (description b) version_ (creator_id b) (photo_id b) (default_banned_rights b) (ttl_period_days b) true.

(** [password] is the outcome of looking up the password and checking it, as in [Password.v]. *)
Definition edit_creator (cx : MembersCtx) (password : result unit) (input_channel target : InputPeer) : MM unit :=
  idc ← channel_raise cx input_channel;
  let '(id, channel) := (idc : Z * Channel) in
  let p := InChannel id in
  let user := mx_user_id cx in
  ensure (creator_id (ch channel) =? user) (ErrorRpc 400 "CHAT_ADMIN_REQUIRED");;
  d ← get;
  match get_participant p user false d with
  | None => raise (ErrorRpc 400 "CHAT_ADMIN_REQUIRED")
  | Some participant =>
    lift_result password;;
    target ← user_of_input cx target "PEER_ID_INVALID";
    ensure (bool_decide (target.1 = USER)) (ErrorRpc 400 "USER_ID_INVALID");;
    d ← get;
    match get_participant p target.2 false d with
    | None => raise (ErrorRpc 400 "USER_ID_INVALID")
    | Some target_participant =>
      transaction (
        change_channel id (set_base (set_creator target.2 (version (ch channel) + 1)));;
        set_member p user (set_admin 0 (admin_rank (mb participant)) (promoted_by_id (mb participant)) participant);;
        set_member p target.2 (set_admin CREATOR_RIGHTS (admin_rank (mb target_participant)) (promoted_by_id (mb target_participant)) target_participant);;
        sync_admins_count id;;
        _unlink_channel_maybe id channel);;
      emit (Updated p (Some [user; target.2]))
    end
  end.

Definition delete_channel (cx : MembersCtx) (input_channel : InputPeer) : MM unit :=
  idc ← channel_raise cx input_channel;
  let '(id, channel) := (idc : Z * Channel) in
  ensure (creator_id (ch channel) =? mx_user_id cx) (ErrorRpc 400 "CHAT_ADMIN_REQUIRED");;
  change_channel id (set_base (set_deleted (version (ch channel) + 1)));;
  emit (PersonalUnset id);;
  _unlink_channel_maybe id channel;;
  emit (Updated (InChannel id) None).

Definition leave_channel (cx : MembersCtx) (input_channel : InputPeer) : MM unit :=
  let user := mx_user_id cx in
  peer ← on_peers (from_input_peer_raise hmac_sha256 payload (mx_auth_id cx) user input_channel "CHANNEL_PRIVATE" 406 false (Some [CHANNEL]));
  id ← lift_result (need (p_channel peer.2));
  d ← get;
  channel ← lift_result (match channels d !! id with Some c => Ok c | None => Raise DoesNotExist end);
  let p := InChannel id in
  ensure (negb (creator_id (ch channel) =? user)) (ErrorRpc 400 "USER_CREATOR");;
  match get_participant p user false d with
  | None => raise (ErrorRpc 400 "USER_NOT_PARTICIPANT")
  | Some participant =>
    transaction (
      set_member p user (set_left true participant);;
      modify (fun d => with_invites ((fun i => if bool_decide (iv_place i = p) && (iv_user i =? user)
        then MkInvite true (iv_expires_at i) (iv_request_needed i) (iv_nonce i) (iv_user i) (iv_place i) (iv_created_at i) (iv_updated_at i) (iv_usage_limit i) (iv_usage i) (iv_title i)
        else i) <$> invites d) (next_invite d) d);;
      emit (DialogShown user p false);;
      emit (ScheduledDropped p (Some user));;
      emit (AdminLogged id user PARTICIPANT_LEAVE));;
    emit (Updated p (Some [user]))
  end.

(** *** Settings that bear on joining *)
Definition set_join_request (enabled : bool) (version_ : Z) (c : Channel) : Channel :=
  let c := set_base (fun b => MkChatBase (kind b) (name b) (description b) version_ (creator_id b) (photo_id b) (default_banned_rights b) (ttl_period_days b) (deleted b)) c in
  MkChannel (ch c) (ch_supergroup c) (ch_history c) enabled (ch_username c) (ch_discussion c) (ch_admins_count c) (ch_migrated_from c) (ch_no_forwards c).
Definition toggle_join_request (cx : MembersCtx) (input_channel : InputPeer) (enabled : bool) : MM unit :=
  idc ← channel_raise cx input_channel;
  let '(id, channel) := (idc : Z * Channel) in
  ensure (negb (Bool.eqb (ch_join_request channel) enabled)) (ErrorRpc 400 "CHAT_NOT_MODIFIED");;
  participant ← get_participant_raise (InChannel id) (mx_user_id cx) "CHAT_RESTRICTED";
  ensure (admin_has_permission (ch channel) (mb participant) Admin.CHANGE_INFO) (ErrorRpc 403 "CHAT_ADMIN_REQUIRED");;
  change_channel id (set_join_request enabled (version (ch channel) + 1));;
  emit (Updated (InChannel id) None).

Definition toggle_join_to_send (cx : MembersCtx) (input_channel : InputPeer) (enabled : bool) : MM unit :=
  idc ← channel_raise cx input_channel;
  let '(id, channel) := (idc : Z * Channel) in
  match kind (ch channel) with
  | IsChannel broadcast true join_to_send nojoin =>
    ensure (negb (Bool.eqb join_to_send enabled)) (ErrorRpc 400 "CHAT_NOT_MODIFIED");;
    participant ← get_participant_raise (InChannel id) (mx_user_id cx) "CHAT_RESTRICTED";
    ensure (admin_has_permission (ch channel) (mb participant) Admin.CHANGE_INFO) (ErrorRpc 403 "CHAT_ADMIN_REQUIRED");;
    change_channel id (fun c => set_base bump_version (set_kind (IsChannel broadcast true enabled nojoin) c));;
    emit (Updated (InChannel id) None)
  | _ => raise (ErrorRpc 400 "CHANNEL_INVALID")
  end.

Definition toggle_pre_history_hidden (cx : MembersCtx) (input_channel : InputPeer) (enabled : bool) : MM unit :=
  idc ← channel_raise cx input_channel;
  let '(id, channel) := (idc : Z * Channel) in
  ensure (negb (is_discussion channel)) (ErrorRpc 400 "CHAT_LINK_EXISTS");;
  ensure (negb (Bool.eqb (hidden_prehistory (ch_history channel)) enabled)) (ErrorRpc 400 "CHAT_NOT_MODIFIED");;
  participant ← get_participant_raise (InChannel id) (mx_user_id cx) "CHAT_RESTRICTED";
  ensure (admin_has_permission (ch channel) (mb participant) Admin.CHANGE_INFO) (ErrorRpc 403 "CHAT_ADMIN_REQUIRED");;
  ensure (negb (ch_username channel)) (ErrorRpc 400 "CHAT_LINK_EXISTS");;
  d ← get;
  let min_available := (fun last => last + 1) <$> m_last_message d !! id in
  change_channel id (fun c => set_base bump_version
    (MkChannel (ch c) (ch_supergroup c) (MkHistory enabled min_available (min_available_id_force (ch_history c))) (ch_join_request c) (ch_username c) (ch_discussion c)
      (ch_admins_count c) (ch_migrated_from c) (ch_no_forwards c)));;
  emit (AdminLogged id (mx_user_id cx) PREHISTORY_HIDDEN);;
  emit (Updated (InChannel id) None).
End Members.
