(* ===== verification/Invites.v ===== *)
(** Invite links and joining: [piltover/app/handlers/messages/invites.py], [piltover/db/models/chat_invite.py], [chat_invite_request.py], and [JoinChannel] of
    [piltover/app/handlers/channels.py].

    The state is that of [Members.v]. The query of a [tg://] link, which [urllib.parse] takes out, is a parameter. *)
From stdpp Require Import gmap.
From S2P Require Import Prelude PyBytes TlPrimitives AccessHash Privacy Peers Rights Utf16 FormatText Base64 Members.

(** ** Links *)
(** [ChatInvite.to_link_hash] *)
Definition to_link_hash (id : Z) (nonce : bytes) : result pystr := b ← int_write Long id true; Ok (strip_pad (urlsafe_b64encode (b ++ nonce))).

(** [ChatInvite.query_from_link_hash]: the id, and the nonce unless the link is no invite link *)
Definition query_from_link_hash (link_nonce : pystr) : result (Z * option bytes) :=
  match urlsafe_b64decode (repad link_nonce) with
  | Raise ValueError => Ok (0, None)
  | Raise e => Raise e
  | Ok b =>
    if negb (length b =? 16)%nat then Ok (0, None)
    else invite_id ← read_bytes Long (take 8 b) true; Ok (invite_id, Some (drop 8 b))
  end.
Definition find_invite (q : Z * option bytes) (f : ChatInvite -> bool) (d : MembersDb) : option (Z * ChatInvite) :=
  match invites d !! q.1 with
  | Some i => if match q.2 with Some nonce => bool_decide (iv_nonce i = nonce) | None => true end && f i then Some (q.1, i) else None
  | None => None
  end.

(** [s.rpartition(sep)[2]], if [sep] is in [s] *)
Fixpoint after_last (sep s : pystr) : option pystr :=
  match s with
  | [] => None
  | _ :: s' => match after_last sep s' with Some r => Some r | None => if startswith sep s then Some (drop (length sep) s) else None end
  end.

Definition LINK_PLUS : pystr := text_of "t.me/+".
Definition LINK_JOINCHAT : pystr := text_of "t.me/joinchat/".
Definition LINK_TG : pystr := text_of "tg://".
Definition AMP : Z := 38.
Definition EQUALS : Z := 61.

(** [s.split(sep)] for one character *)
Fixpoint split_on (sep : Z) (s : pystr) : list pystr :=
  match s with
  | [] => [[]]
  | c :: s => if c =? sep then [] :: split_on sep s else match split_on sep s with w :: ws => (c :: w) :: ws | [] => [[c]] end
  end.
(** [kv.split("=", maxsplit=1)] as an entry of a [dict]; a part without [=] makes no pair. *)
Fixpoint split_eq (s : pystr) : option (pystr * pystr) :=
  match s with
  | [] => None
  | c :: s => if c =? EQUALS then Some ([], s) else (fun kv => (c :: kv.1, kv.2)) <$> split_eq s
  end.
Fixpoint dict_of (kvs : list pystr) : result (list (pystr * pystr)) :=
  match kvs with [] => Ok [] | kv :: kvs => match split_eq kv with Some p => r ← dict_of kvs; Ok (p :: r) | None => Raise ValueError end end.
(** The last entry of a key is the one that stays. *)
Definition dict_get (k : pystr) (l : list (pystr * pystr)) : option pystr := snd <$> last (filter (fun kv => kv.1 = k) l).
Definition nonempty (s : pystr) : option pystr := match s with [] => None | _ => Some s end.

Section Invites.
Context (hmac_sha256 : bytes -> bytes) (payload : signed_kind -> Z -> Z -> Z -> bytes).
Context (basic_group_member_limit super_group_member_limit channels_per_user_limit : Z).
(** [urlparse(invite_link).query] *)
Context (url_query : pystr -> result pystr).

Definition _get_invite_hash_from_link (invite_link : pystr) : result (option pystr) :=
  match after_last LINK_PLUS invite_link with
  | Some r => Ok (nonempty r)
  | None =>
    match after_last LINK_JOINCHAT invite_link with
    | Some r => Ok (nonempty r)
    | None =>
      if startswith LINK_TG invite_link then
        query ← url_query invite_link;
        kvs ← dict_of (split_on AMP query);
        Ok (dict_get (text_of "invite") kvs ≫= nonempty)
      else Ok None
    end
  end.

(** ** What an invite must satisfy *)
(** [expires_at] against the clock *)
Definition expired (now : Z) (i : ChatInvite) : bool := match iv_expires_at i with Some e => e <? now | None => false end.
Definition chat_migrated (p : place) (d : MembersDb) : bool := match p with InChat g => default false (gr_migrated <$> groups d !! g) | InChannel _ => false end.
Definition view_banned (p : place) (user : Z) (d : MembersDb) : bool :=
  match member_of p user d with Some m => negb (Z.land (banned_rights (mb m)) Banned.VIEW_MESSAGES =? 0) | None => false end.

Definition _get_invite_with_some_checks (now : Z) (invite_hash : pystr) (user_id : Z) : MM (Z * ChatInvite) :=
  ensure (negb (bool_decide (invite_hash = []))) (ErrorRpc 400 "INVITE_HASH_EMPTY");;
  query ← lift_result (query_from_link_hash (strip invite_hash));
  d ← get;
  match find_invite query (fun i => negb (iv_revoked i)) d with
  | None => raise (ErrorRpc 400 "INVITE_HASH_INVALID")
  | Some (id, invite) =>
    ensure (negb (match iv_usage_limit invite with Some l => l <? iv_usage invite | None => false end)) (ErrorRpc 400 "USERS_TOO_MUCH");;
    ensure (negb (expired now invite || chat_migrated (iv_place invite) d)) (ErrorRpc 400 "INVITE_HASH_EXPIRED");;
    ensure (negb (match iv_place invite with InChannel _ => view_banned (iv_place invite) user_id d | InChat _ => false end)) (ErrorRpc 400 "INVITE_HASH_EXPIRED");;
    mret (id, invite)
  end.

(** ** Joining *)
Definition _join_inviter_id (p : place) (user : Z) (from_invite : option (Z * ChatInvite)) (d : MembersDb) : Z :=
  match from_invite, p with
  | Some i, _ => iv_user i.2
  | None, InChannel id => match channels d !! id with Some c => if is_broadcast (ch c) then user else 0 | None => 0 end
  | None, InChat _ => 0
  end.

(** [Peer.get_or_create] of a user and a chat *)
Definition get_or_create_chat_peer (owner chat : Z) : D (Z * Peer) :=
  p ← get_or_none (fun _ => owner_chat owner chat);
  match p with Some p => mret p | None => create_chat_peer owner chat end.

Definition user_join_chat_or_channel (p : place) (user now : Z) (from_invite : option (Z * ChatInvite)) : MM unit :=
  d ← get;
  ensure (negb (match p with InChannel _ => channels_per_user_limit <? channels_of_user user d | InChat _ => false end)) (ErrorRpc 400 "CHANNELS_TOO_MUCH");;
  let member_limit := match p with InChannel _ => super_group_member_limit | InChat _ => basic_group_member_limit end in
  ensure (negb (member_limit <? count_members p (fun m => negb (left (mb m))) d)) (ErrorRpc 400 "USERS_TOO_MUCH");;
  let min_message := match p with InChannel id => c ← channels d !! id; min_message_id_for_new_participant id c d | InChat _ => None end in
  transaction (
    match p with
    | InChat g => on_peers (get_or_create_chat_peer user g);; mret tt
    | InChannel id => on_peers (get_peer (fun _ => of_channel id));; mret tt
    end;;
    d ← get;
    let inviter := _join_inviter_id p user from_invite d in
    let invite := fst <$> from_invite in
    set_member p user (match member_of p user d with Some m => set_joined inviter invite min_message m | None => new_member user inviter now min_message invite end);;
    delete_requests p (fun u => u =? user);;
    emit (DialogShown user p true);;
    match p with InChannel id => emit (AdminLogged id user PARTICIPANT_JOIN) | InChat _ => mret tt end);;
  let joined := match from_invite with Some i => InviteJoin (iv_user i.2) | None => UserAdd end in
  match p with
  | InChannel id =>
    emit (Subscribed id [user]);;
    emit (Updated p (Some [user]));;
    d ← get;
    (if match channels d !! id with Some c => ch_supergroup c && negb (is_broadcast (ch c)) | None => false end then emit (ServiceSent p user joined) else mret tt)
  | InChat _ => emit (Updated p None);; emit (ServiceSent p user joined)
  end.

Definition is_member (p : place) (user : Z) (d : MembersDb) : bool := bool_decide (is_Some (get_participant p user false d)).
Definition asks_for_request (invite : ChatInvite) (d : MembersDb) : bool :=
  iv_request_needed invite || match iv_place invite with InChannel id => default false (ch_join_request <$> channels d !! id) | InChat _ => false end.

Definition import_chat_invite (cx : MembersCtx) (now : Z) (hash : pystr) : MM unit :=
  invite ← _get_invite_with_some_checks now hash (mx_user_id cx);
  let p := iv_place invite.2 in
  d ← get;
  ensure (negb (is_member p (mx_user_id cx) d)) (ErrorRpc 400 "USER_ALREADY_PARTICIPANT");;
  if asks_for_request invite.2 d then
    (if existsb (fun kr => of_place p d kr.2 && (ir_user kr.2 =? mx_user_id cx)) (map_to_list (requests d)) then mret tt
     else
       modify (fun d => with_requests (<[next_request d := MkInviteRequest (mx_user_id cx) invite.1 now]> (requests d)) (next_request d + 1) d);;
       emit (RequestsShown p));;
    raise (ErrorRpc 400 "INVITE_REQUEST_SENT")
  else user_join_chat_or_channel p (mx_user_id cx) now (Some invite).

(** What [CheckChatInvite] shows *)
Inductive TLChatInvite := ChatInviteAlready (p : place) | ChatInviteShown (is_channel broadcast megagroup request_needed : bool) (title : pystr) (participants_count : Z).
Definition check_chat_invite (cx : MembersCtx) (now : Z) (hash : pystr) : MM TLChatInvite :=
  invite ← _get_invite_with_some_checks now hash (mx_user_id cx);
  let p := iv_place invite.2 in
  d ← get;
  if is_member p (mx_user_id cx) d then mret (ChatInviteAlready p)
  else
    base ← lift_result (match base_of p d with Some b => Ok b | None => Raise NotImplementedError end);
    let supergroup := match p with InChannel id => ch_supergroup <$> channels d !! id | InChat _ => None end in
    mret (ChatInviteShown (match p with InChannel _ => true | InChat _ => false end) (match supergroup with Some s => negb s | None => false end) (default false supergroup)
      (asks_for_request invite.2 d) (name base) (count_members p (fun m => negb (left (mb m))) d)).

Definition join_channel (cx : MembersCtx) (now : Z) (input_channel : InputPeer) : MM unit :=
  idc ← channel_raise hmac_sha256 payload cx input_channel;
  let '(id, channel) := (idc : Z * Channel) in
  let user := mx_user_id cx in
  let p := InChannel id in
  d ← get;
  match member_of p user d with
  | Some participant =>
    ensure (left (mb participant)) (ErrorRpc 400 "USER_ALREADY_PARTICIPANT");;
    ensure (Z.land (banned_rights (mb participant)) Banned.VIEW_MESSAGES =? 0) (ErrorRpc 406 "CHANNEL_PRIVATE")
  | None => mret tt
  end;;
  (if ch_username channel then mret tt
   else
     ensure (is_discussion channel) (ErrorRpc 406 "CHANNEL_PRIVATE");;
     match map_to_list (filter (fun kc => deleted (ch kc.2) = false /\ ch_discussion kc.2 = Some id) (channels d)) with
     | [] => raise (ErrorRpc 406 "CHANNEL_PRIVATE")
     | [(linked_id, linked_channel)] =>
       ensure (can_view_messages (ch linked_channel) (mb <$> get_participant (InChannel linked_id) user true d)) (ErrorRpc 406 "CHANNEL_PRIVATE")
     | _ => raise RuntimeError
     end);;
  user_join_chat_or_channel p user now None.

(** ** Managing invites *)
(** The chat or channel of an input peer, whatever other peers there are *)
Definition place_of_input (cx : MembersCtx) (i : InputPeer) (allow_migrated_chat : bool) : MM (place * ChatBase) :=
  peer ← on_peers (from_input_peer_raise hmac_sha256 payload (mx_auth_id cx) (mx_user_id cx) i "PEER_ID_INVALID" 400 allow_migrated_chat None);
  p ← lift_result (match p_type peer.2 with
    | CHAT => InChat <$> need (p_chat peer.2)
    | CHANNEL => InChannel <$> need (p_channel peer.2)
    | _ => Raise (ErrorRpc 400 "PEER_ID_INVALID")
    end);
  d ← get;
  match base_of p d with Some b => mret (p, b) | None => raise DoesNotExist end.

(** The handlers that want an admin with [INVITE_USERS] *)
Definition inviting_admin (cx : MembersCtx) (i : InputPeer) (allow_migrated_chat : bool) : MM place :=
  pb ← place_of_input cx i allow_migrated_chat;
  participant ← get_participant_raise pb.1 (mx_user_id cx) "CHAT_ADMIN_REQUIRED";
  ensure (admin_has_permission pb.2 (mb participant) Admin.INVITE_USERS) (ErrorRpc 400 "CHAT_ADMIN_REQUIRED");;
  mret pb.1.

Record ExportChatInvite := MkExport {
  ex_peer : InputPeer; ex_new : bool;                  (* [ExportChatInvite_134] or [ExportChatInvite], which have the next two *)
  ex_request_needed : bool; ex_title : option pystr; ex_legacy_revoke_permanent : bool; ex_expire_date : option Z; ex_usage_limit : option Z }.

Definition revoke (i : ChatInvite) : ChatInvite :=
  MkInvite true (iv_expires_at i) (iv_request_needed i) (iv_nonce i) (iv_user i) (iv_place i) (iv_created_at i) (iv_updated_at i) (iv_usage_limit i) (iv_usage i) (iv_title i).
Definition create_invite (i : ChatInvite) : MM (Z * ChatInvite) :=
  d ← get; modify (with_invites (<[next_invite d := i]> (invites d)) (next_invite d + 1));; mret (next_invite d, i).

(** [nonce] is what [invite_gen_nonce] draws. *)
Definition export_chat_invite (cx : MembersCtx) (now : Z) (nonce : bytes) (r : ExportChatInvite) : MM (Z * ChatInvite) :=
  pb ← place_of_input cx (ex_peer r) false;
  let p := pb.1 in
  d ← get;
  match get_participant p (mx_user_id cx) false d with
  | None => raise (ErrorRpc 400 "CHAT_ADMIN_REQUIRED")
  | Some participant =>
    match p with
    | InChat _ =>
      ok ← lift_result (user_has_permission pb.2 (Some (mb participant)) Banned.INVITE_USERS);
      ensure ok (ErrorRpc 400 "CHAT_ADMIN_REQUIRED")
    | InChannel _ => ensure (admin_has_permission pb.2 (mb participant) Admin.INVITE_USERS) (ErrorRpc 400 "CHAT_ADMIN_REQUIRED")
    end;;
    (if ex_legacy_revoke_permanent r then
       modify (fun d => with_invites ((fun i => if bool_decide (iv_place i = p) && (iv_user i =? mx_user_id cx) && negb (iv_revoked i) then revoke i else i) <$> invites d) (next_invite d) d)
     else mret tt);;
    let request_needed := ex_new r && ex_request_needed r in
    create_invite (MkInvite false ((fun e => e * 1000000) <$> ex_expire_date r) request_needed nonce (mx_user_id cx) p now now
      (if request_needed then None else ex_usage_limit r) 0 (if ex_new r then ex_title r else None))
  end.

(** [ChatInvite.get_or_create_permanent] *)
Definition get_or_create_permanent (user : Z) (p : place) (now : Z) (nonce : bytes) : MM (Z * ChatInvite) :=
  d ← get;
  match list_find (fun ki => iv_place ki.2 = p /\ iv_user ki.2 = user /\ iv_revoked ki.2 = false /\ iv_expires_at ki.2 = None) (map_to_list (invites d)) with
  | Some (_, i) => mret i
  | None => create_invite (MkInvite false None false nonce user p now now None 0 None)
  end.

Definition invite_of_link (p : place) (link : pystr) (stripped : bool) (f : ChatInvite -> bool) : MM (Z * ChatInvite) :=
  hash ← lift_result (_get_invite_hash_from_link link);
  match hash with
  | None => raise (ErrorRpc 400 "INVITE_HASH_EXPIRED")
  | Some h =>
    query ← lift_result (query_from_link_hash (if stripped then strip h else h));
    d ← get;
    match find_invite query (fun i => bool_decide (iv_place i = p) && f i) d with
    | None => raise (ErrorRpc 400 "INVITE_HASH_EXPIRED")
    | Some i => mret i
    end
  end.

Definition get_exported_chat_invite (cx : MembersCtx) (now : Z) (peer : InputPeer) (link : pystr) : MM (Z * ChatInvite) :=
  p ← inviting_admin cx peer true;
  invite_of_link p link false (fun i => match iv_expires_at i with None => true | Some e => now <? e end).

Definition edit_exported_chat_invite (cx : MembersCtx) (peer : InputPeer) (link : pystr) (revoked : bool) (title : option pystr) : MM (Z * ChatInvite) :=
  p ← inviting_admin cx peer true;
  invite ← invite_of_link p link true (fun i => negb (iv_revoked i));
  let i := if revoked then revoke invite.2 else invite.2 in
  let i := match title ≫= nonempty with
    | Some t => MkInvite (iv_revoked i) (iv_expires_at i) (iv_request_needed i) (iv_nonce i) (iv_user i) (iv_place i) (iv_created_at i) (iv_updated_at i) (iv_usage_limit i) (iv_usage i) (Some t)
    | None => i end in
  modify (fun d => with_invites (<[invite.1 := i]> (invites d)) (next_invite d) d);;
  mret (invite.1, i).

(** Deleting an invite takes it from the members that came by it, and its requests with it. *)
Definition drop_invites (gone : Z -> ChatInvite -> bool) : MM unit := modify (fun d =>
  let is_gone k := match invites d !! k with Some i => gone k i | None => false end in
  let m := (fun m => MkMember (mb m) (match mb_invite m with Some k => if is_gone k then None else Some k | None => None end) (mb_banned_until m)) <$> members d in
  let r := filter (fun kr => is_gone (ir_invite kr.2) = false) (requests d) in
  with_invites (filter (fun ki => gone ki.1 ki.2 = false) (invites d)) (next_invite d) (with_requests r (next_request d) (with_members m d))).

Definition delete_exported_chat_invite (cx : MembersCtx) (peer : InputPeer) (link : pystr) : MM bool :=
  p ← inviting_admin cx peer true;
  invite ← invite_of_link p link true (fun _ => true);
  drop_invites (fun k _ => k =? invite.1);;
  mret true.

(** [admin_id] is what [type_and_id_from_input] makes of the request's. *)
Definition delete_revoked_exported_chat_invites (cx : MembersCtx) (peer admin : InputPeer) : MM bool :=
  p ← inviting_admin cx peer false;
  admin_id ← lift_result (type_and_id_from_input hmac_sha256 payload (mx_auth_id cx) (mx_user_id cx) admin);
  whose ← match admin_id with
    | None => mret None
    | Some (SELF, u) | Some (USER, u) => mret (Some u)
    | Some _ => raise (ErrorRpc 400 "ADMIN_ID_INVALID")
    end;
  drop_invites (fun _ i => bool_decide (iv_place i = p) && iv_revoked i && match whose with Some u => iv_user i =? u | None => true end);;
  mret true.

(** ** Requests to join *)
(** [fetched]: whether the requests came with their users and invites; a relation that was not fetched has no attribute [id]. *)
Definition add_requested_users_to_chat (now user : Z) (p : place) (fetched : bool) (rs : list InviteRequest) : MM unit :=
  if bool_decide (rs = []) then mret tt
  else
    d ← get;
    let member_limit := match p with InChannel _ => super_group_member_limit | InChat _ => basic_group_member_limit end in
    ensure (negb (member_limit <? count_members p (fun _ => true) d + Z.of_nat (length rs))) (ErrorRpc 400 "USERS_TOO_MUCH");;
    ensure fetched AttributeError;;
    let requested_users := ir_user <$> rs in
    let inviter r := match invites d !! ir_invite r with Some i => iv_user i | None => 0 end in
    match p with
    | InChat g => mapM (fun u => on_peers (get_or_create_chat_peer u g)) requested_users;; mret tt
    | InChannel _ => mret tt
    end;;
    modify (fun d => with_members (foldl (fun ms r => match ms !! (make_id p, ir_user r) with
      | None => <[(make_id p, ir_user r) := new_member (ir_user r) (inviter r) now None (Some (ir_invite r))]> ms
      | Some _ => ms end) (members d) rs) d);;
    delete_requests p (fun u => bool_decide (u ∈ requested_users));;
    match p with
    | InChat _ => emit (Updated p None);; mapM (fun r => emit (ServiceSent p (ir_user r) (InviteJoin (inviter r)));; emit (ServiceSent p (ir_user r) RequestJoin)) rs;; mret tt
    | InChannel id =>
      emit (Subscribed id requested_users);;
      emit (Updated p (Some [user]));;
      if match channels d !! id with Some c => ch_supergroup c && negb (is_broadcast (ch c)) | None => false end
      then mapM (fun r => emit (DialogShown (ir_user r) p true);; emit (ServiceSent p (ir_user r) (InviteJoin (inviter r)))) rs;; mret tt else mret tt
    end.

Definition requests_of (p : place) (f : InviteRequest -> bool) (d : MembersDb) : list InviteRequest :=
  snd <$> map_to_list (filter (fun kr => of_place p d kr.2 && f kr.2 = true) (requests d)).

(** Here the missing participant and the missing right are one test. [input_peer]: [user_id] is made by a constructor of [InputPeer]; the schema has an [InputUser] there. *)
Definition hide_chat_join_request (cx : MembersCtx) (now : Z) (peer : InputPeer) (input_peer : bool) (user : InputPeer) (approved : bool) : MM unit :=
  p ← inviting_admin cx peer false;
  target ← lift_result (match input_peer, user with true, InputUser u _ | true, InputUserFromMessage u => Ok u | _, _ => Raise (ErrorRpc 400 "PEER_ID_INVALID") end);
  d ← get;
  match requests_of p (fun r => ir_user r =? target) d with
  | [] => raise (ErrorRpc 400 "HIDE_REQUESTER_MISSING")
  | r :: _ => if negb approved then delete_requests p (fun u => u =? ir_user r) else add_requested_users_to_chat now (mx_user_id cx) p true [r]
  end.

Definition hide_all_chat_join_requests (cx : MembersCtx) (now : Z) (peer : InputPeer) (link : option pystr) (approved : bool) : MM unit :=
  p ← inviting_admin cx peer false;
  invite ← match link ≫= nonempty with Some l => i ← invite_of_link p l true (fun _ => true); mret (Some i) | None => mret None end;
  d ← get;
  let rs := requests_of p (fun r => match invite with Some i => ir_invite r =? i.1 | None => true end) d in
  ensure (negb (bool_decide (rs = []))) (ErrorRpc 400 "HIDE_REQUESTER_MISSING");;
  if negb approved then
    match invite with
    | Some i => modify (fun d => with_requests (filter (fun kr => ir_invite kr.2 <> i.1) (requests d)) (next_request d) d)
    | None => delete_requests p (fun _ => true)
    end
  else add_requested_users_to_chat now (mx_user_id cx) p false rs.

(** ** Links lead to their invites *)
Lemma after_last_app sep pre s r : after_last sep s = Some r -> after_last sep (pre ++ s) = Some r.
Proof. intros H. induction pre as [|c pre IH]; [done|]. cbn. by rewrite IH. Qed.
Lemma no_link s : Forall (fun c => c <> 46) (tail s) -> after_last LINK_PLUS s = None.
Proof.
  induction s as [|c s IH]; [done|]. cbn [tail]. intros H. cbn [after_last]. rewrite IH by (destruct H; done).
  unfold startswith. rewrite bool_decide_eq_false_2; [done|]. destruct H as [|c' s Hc _]; [done|]. intros E. apply (f_equal (fun l => l !! 1%nat)) in E. cbn in E. congruence.
Qed.
Lemma link_hash pre h : Forall (fun c => c <> 46) h -> after_last LINK_PLUS (pre ++ LINK_PLUS ++ h) = Some h.
Proof.
  intros H. apply after_last_app. change (LINK_PLUS ++ h) with (116 :: (tail LINK_PLUS ++ h)). cbn [after_last].
  rewrite no_link by (cbn; repeat (constructor; [lia|]); done). unfold startswith. rewrite bool_decide_eq_true_2; [done|]. cbn. by rewrite take_0.
Qed.

Lemma lstrip_clean s : Forall (fun c => is_space c = false) s -> lstrip s = s.
Proof. intros H. destruct H as [|c s Hc _]; [done|]. cbn. by rewrite Hc. Qed.
Lemma strip_clean s : Forall (fun c => is_space c = false) s -> strip s = s.
Proof. intros H. unfold strip. rewrite (lstrip_clean s H), lstrip_clean, rev_involutive; [done|]. by apply Forall_rev. Qed.

Lemma hash_of id nonce h : length nonce = 8%nat -> to_link_hash id nonce = Ok h ->
  query_from_link_hash h = Ok (id, Some nonce) /\ h <> [] /\ Forall (fun c => is_space c = false) h /\ Forall (fun c => c <> 46) h.
Proof.
  intros Hn H. unfold to_link_hash in H. apply result_bind_ok in H as (b & Hb & [= <-]). destruct (strip_repad (b ++ nonce)) as [-> Hr].
  pose proof (int_write_length _ _ _ _ Hb) as Hl. cbn in Hl. split_and!.
  - unfold query_from_link_hash. rewrite Hr, b64_roundtrip. rewrite length_app, Hl, Hn. cbn [Nat.add Nat.eqb negb].
    rewrite take_app_length' by done. rewrite drop_app_length' by done. pose proof (int_read_write Long true id b [] ltac:(done) Hb) as H. rewrite int_read_exact in H by done.
    rewrite read_bytes_exact by done. cbn. by injection H as ->.
  - destruct b as [|x [|y [|z b]]]; cbn in Hl; try lia. done.
  - eapply Forall_impl; [apply body_chars|]. intros c (v & Hv & ->). destruct (alphabet v Hv). apply not_true_is_false. intros E.
    unfold is_space in E. repeat (apply orb_true_iff in E as [E|E]); b2p; lia.
  - eapply Forall_impl; [apply body_chars|]. intros c (v & Hv & ->). by apply alphabet.
Qed.

(** C35: an invite's link is its id and nonce in base64 without padding, and it leads back to it. The hash of an invite with an eight byte nonce, read alone or out of any link that
    ends in [t.me/+] and it, is the query of its id and nonce, so an admin's request that names the link finds the invite; and whoever follows the hash finds it too, as long as it
    is not revoked, used up or expired, its chat has not migrated and he is not banned from its channel. *)
Theorem link_leads_to_invite d now user id i h pre stripped : invites d !! id = Some i -> length (iv_nonce i) = 8%nat -> to_link_hash id (iv_nonce i) = Ok h ->
  query_from_link_hash h = Ok (id, Some (iv_nonce i)) /\
  invite_of_link (iv_place i) (pre ++ LINK_PLUS ++ h) stripped (fun _ => true) d = (Ok (id, i), d) /\
  (iv_revoked i = false -> (forall l, iv_usage_limit i = Some l -> iv_usage i <= l) -> expired now i = false -> chat_migrated (iv_place i) d = false ->
   view_banned (iv_place i) user d = false -> _get_invite_with_some_checks now h user d = (Ok (id, i), d)).
Proof.
  intros Hi Hn Hh. destruct (hash_of _ _ _ Hn Hh) as (Hq & Hne & Hs & Hdot). split; [done|]. split.
  - unfold invite_of_link, _get_invite_hash_from_link. rewrite link_hash by done. destruct h as [|c h]; [done|]. unfold mbind, M_bind, lift_result, get. cbn [nonempty].
    assert ((if stripped then strip (c :: h) else c :: h) = c :: h) as -> by (destruct stripped; [by apply strip_clean|done]).
    rewrite Hq. unfold find_invite. cbn [fst snd]. rewrite Hi. by rewrite !bool_decide_eq_true_2.
  - intros Hr Hu He Hm Hb. unfold _get_invite_with_some_checks. rewrite bool_decide_eq_false_2 by done. cbn [negb ensure]. rewrite strip_clean, Hq by done.
    unfold mbind, M_bind, mret, M_ret, lift_result, get, find_invite. cbn [fst snd]. rewrite Hi, bool_decide_eq_true_2, Hr by done. cbn [negb andb].
    assert (match iv_usage_limit i with Some l => l <? iv_usage i | None => false end = false) as ->.
    { destruct (iv_usage_limit i) as [l|] eqn:E; [|done]. apply Z.ltb_ge. by apply Hu. }
    rewrite He, Hm, Hb. by destruct (iv_place i).
Qed.

(** A request as the schema has it approves nobody. *)
Lemma schema_request_refused cx now peer user approved d : exists e,
  (hide_chat_join_request cx now peer false user approved d).1 = Raise e /\ members (hide_chat_join_request cx now peer false user approved d).2 = members d.
Proof.
  unfold hide_chat_join_request, mbind, M_bind. assert (members (inviting_admin cx peer false d).2 = members d) as Hm.
  { unfold inviting_admin, place_of_input, on_peers, get_participant_raise, mbind, M_bind, lift_result, get, mret, M_ret. destruct (from_input_peer_raise _ _ _ _ _ _ _ _ _ _) as [[peer'|e] p]; [|done].
    destruct (match p_type peer'.2 with CHAT => _ | _ => _ end) as [q|]; [|done]. destruct (base_of q _) as [b|]; [|done]. cbn [fst snd].
    destruct (get_participant q _ _ _); [|done]. by destruct (admin_has_permission _ _ _). }
  destruct (inviting_admin cx peer false d) as [[p|e] d1]; [|by exists e]. by eexists.
Qed.
End Invites.

Definition sample_invite : ChatInvite := MkInvite false None false (byte_of <$> [1; 2; 3; 4; 5; 6; 7; 8]) 7 (InChannel 1) 20 20 None 0 None.
Definition sample_link_db : MembersDb :=
  MkMembersDb ∅ 1 ∅ (MkPrivacyDb ∅ ∅ ∅ ∅ ∅ 1) ∅ 1 ∅ 1 ∅ {[1 := sample_invite]} 2 ∅ 1 ∅ [].
Lemma link_leads_to_invite_witness : let h := text_of "AQAAAAAAAAABAgMEBQYHCA" in
  to_link_hash 1 (iv_nonce sample_invite) = Ok h /\
  invite_of_link (fun _ => Raise ValueError) (InChannel 1) (text_of "https://t.me/+AQAAAAAAAAABAgMEBQYHCA") true (fun _ => true) sample_link_db = (Ok (1, sample_invite), sample_link_db) /\
  _get_invite_with_some_checks 30 h 8 sample_link_db = (Ok (1, sample_invite), sample_link_db).
Proof.
  intros h. assert (to_link_hash 1 (iv_nonce sample_invite) = Ok h) as Hh by (vm_compute; reflexivity).
  assert (invites sample_link_db !! 1 = Some sample_invite) as Hi by reflexivity.
  destruct (link_leads_to_invite (fun _ => Raise ValueError) sample_link_db 30 8 1 sample_invite h (text_of "https://") true Hi eq_refl Hh) as (_ & H1 & H2).
  split; [exact Hh|]. split; [exact H1|]. apply H2; try reflexivity. intros l [=].
Defined.
