(* ===== verification/Groups.v ===== *)
(** Basic groups: [piltover/app/handlers/messages/chats.py], their creation, members, admins, settings and migration to a supergroup. The state is that of [Members.v]. *)
From stdpp Require Import gmap.
From S2P Require Import Prelude PyBytes AccessHash Privacy Peers Rights Members Invites.

Definition BASIC_GROUP_ADMIN_RIGHTS : Z :=
  foldl Z.lor 0 [Admin.CHANGE_INFO; Admin.DELETE_MESSAGES; Admin.BAN_USERS; Admin.INVITE_USERS; Admin.PIN_MESSAGES].

Definition set_group (id : Z) (f : Group -> Group) : MM unit := modify (fun d => with_groups (alter f id (groups d)) (next_group d) d).
Definition group_base (f : ChatBase -> ChatBase) (g : Group) : Group := MkGroup (f (gr g)) (gr_migrated g) (gr_participants_count g) (gr_no_forwards g).
(** [participants_count] and [version] move together. *)
Definition count_participants (by_ : Z) (g : Group) : Group := MkGroup (bump_version (gr g)) (gr_migrated g) (gr_participants_count g + by_) (gr_no_forwards g).
Definition mark_migrated (g : Group) : Group := MkGroup (bump_version (gr g)) true (gr_participants_count g) (gr_no_forwards g).

Definition has_chat_peer (owner chat : Z) (d : MembersDb) : bool := existsb (owner_chat owner chat) (map_to_list (m_peers d)).
(** [participant.is_admin or chat.creator_id == user_id] *)
Definition admin_or_creator (b : ChatBase) (user : Z) (participant : option Member) : bool :=
  match participant with Some m => is_admin (mb m) || (creator_id b =? user) | None => false end.
(** [Chat.get_or_none(peers__owner_id=user_id, id=...)] *)
Definition group_with_peer (user id : Z) : MM Group :=
  d ← get;
  match groups d !! id with
  | Some g => if has_chat_peer user id d then mret g else raise (ErrorRpc 400 "CHAT_ID_INVALID")
  | None => raise (ErrorRpc 400 "CHAT_ID_INVALID")
  end.
(** [Peer.from_chat_id_raise], and the chat it comes with *)
Definition group_of_peer (user chat_id : Z) (allow_migrated : bool) : MM (Z * Group) :=
  peer ← on_peers (from_chat_id_raise user chat_id "CHAT_ID_INVALID" allow_migrated);
  id ← lift_result (need (p_chat peer.2));
  d ← get;
  match groups d !! id with Some g => mret (id, g) | None => raise DoesNotExist end.

Section Groups.
Context (hmac_sha256 : bytes -> bytes) (payload : signed_kind -> Z -> Z -> Z -> bytes).
Context (basic_group_member_limit basic_group_admin_limit : Z).

(** ** Creating *)
(** The users of the request; an input that is no user is passed over. *)
Fixpoint invited_users (cx : MembersCtx) (l : list InputPeer) : result (gset Z) :=
  match l with
  | [] => Ok ∅
  | i :: l =>
    info ← type_and_id_from_input hmac_sha256 payload (mx_auth_id cx) (mx_user_id cx) i;
    s ← invited_users cx l;
    Ok (match info with Some (USER, u) => {[u]} ∪ s | _ => s end)
  end.
(** [rules[CHAT_INVITE]] of each *)
Fixpoint may_be_invited (privacy : list (Z * gmap PrivacyRuleKeyType bool)) : result (list Z * list Z) :=
  match privacy with
  | [] => Ok ([], [])
  | (u, rules) :: l =>
    b ← match rules !! CHAT_INVITE with Some b => Ok b | None => Raise KeyError end;
    r ← may_be_invited l;
    Ok (if (b : bool) then (u :: r.1, r.2) else (r.1, u :: r.2))
  end.

(** Of those whose rules let the creator, the ones he has a peer of: those he has not blocked are invited. Whoever he has no peer of is passed over. *)
Definition invited_peers (user : Z) (allowed : list Z) (d : MembersDb) : list Peer :=
  snd <$> filter (fun kp => bool_decide (p_owner kp.2 = Some user) && match p_user kp.2 with Some u => bool_decide (u ∈ allowed) | None => false end = true) (map_to_list (m_peers d)).
Definition peer_users (blocked : bool) (ps : list Peer) : list Z :=
  omap (fun p => if Bool.eqb (bool_decide (is_Some (p_blocked_at p))) blocked then p_user p else None) ps.

Definition add_peers (chat : Z) (owners : list Z) : MM unit :=
  mapM (fun u => d ← get; if has_chat_peer u chat d then mret tt else on_peers (create_chat_peer u chat);; mret tt) owners;; mret tt.

(** [enabled] and [restricted] are what [require_server_feature] and [check_spam_blocked_creation] find. The order of the missing is that of the tables. *)
Definition create_chat (cx : MembersCtx) (now : Z) (enabled restricted : bool) (title : pystr) (request_users : list InputPeer) : MM (Z * list Z) :=
  let user := mx_user_id cx in
  ensure enabled (ErrorRpc 403 "CHAT_WRITE_FORBIDDEN");;
  ensure (negb restricted) (ErrorRpc 403 "USER_RESTRICTED");;
  ids ← lift_result (invited_users cx request_users);
  privacy ← (if bool_decide (ids = ∅) then mret ∅ else on_privacy (has_access_to_bulk (ById <$> elements ids) user [CHAT_INVITE] None));
  allowed ← lift_result (may_be_invited (map_to_list privacy));
  d ← get;
  let peers := invited_peers user allowed.1 d in
  let invited := peer_users false peers in
  id ← transaction (
    d ← get;
    let id := next_group d in
    modify (with_groups (<[id := MkGroup (MkChatBase IsChat title [] 1 user None Banned.NONE 0 false) false (1 + Z.of_nat (length invited)) false]> (groups d)) (id + 1));;
    add_peers id (user :: invited);;
    create_members (InChat id) (fun u => if u =? user then set_admin CREATOR_RIGHTS [] 0 (new_member u 0 now None None) else new_member u user now None None) (user :: invited);;
    mret id);
  emit (Updated (InChat id) None);;
  emit (ServiceSent (InChat id) user ChatCreate);;
  mret (id, allowed.2 ++ peer_users true peers).

(** ** Members *)
Definition add_chat_user (cx : MembersCtx) (now chat_id : Z) (input_user : InputPeer) (fwd_limit : Z) : MM unit :=
  let user := mx_user_id cx in
  let id := norm_id chat_id in
  g ← group_with_peer user id;
  target ← user_of_input hmac_sha256 payload cx input_user "PEER_ID_INVALID";
  ensure (bool_decide (target.1 = USER)) (ErrorRpc 400 "PEER_ID_INVALID");;
  participant ← get_participant_raise (InChat id) user "CHAT_RESTRICTED";
  may_invite ← lift_result (user_has_permission (gr g) (Some (mb participant)) Banned.INVITE_USERS);
  ensure may_invite (ErrorRpc 403 "CHAT_WRITE_FORBIDDEN");;
  d ← get;
  ensure (negb (has_chat_peer target.2 id d)) (ErrorRpc 400 "USER_ALREADY_PARTICIPANT");;
  ensure (negb (basic_group_member_limit <? count_members (InChat id) (fun _ => true) d)) (ErrorRpc 400 "USERS_TOO_MUCH");;
  access ← on_privacy (has_access_to user target.2 CHAT_INVITE);
  ensure access (ErrorRpc 403 "USER_PRIVACY_RESTRICTED");;
  transaction (
    on_peers (get_or_create_chat_peer target.2 id);;
    d ← get;
    ensure (negb (bool_decide (is_Some (member_of (InChat id) target.2 d)))) RuntimeError;;     (* the database refuses a second row *)
    set_member (InChat id) target.2 (new_member target.2 user now None None);;
    delete_requests (InChat id) (fun u => u =? target.2);;
    set_group id (count_participants 1));;
  emit (Updated (InChat id) None);;
  (if 0 <? fwd_limit then emit (Forwarded (InChat id) target.2 (Z.min fwd_limit 100)) else mret tt);;
  emit (ServiceSent (InChat id) user UserAdd).

Definition delete_chat_user (cx : MembersCtx) (chat_id : Z) (input_user : InputPeer) : MM unit :=
  let user := mx_user_id cx in
  idg ← group_of_peer user chat_id false;
  let '(id, g) := (idg : Z * Group) in
  target ← user_of_input hmac_sha256 payload cx input_user "PEER_ID_INVALID";
  ensure (bool_decide (target.1 = USER)) (ErrorRpc 400 "PEER_ID_INVALID");;
  d ← get;
  ensure (admin_or_creator (gr g) user (member_of (InChat id) user d)) (ErrorRpc 400 "CHAT_ADMIN_REQUIRED");;
  ensure (has_chat_peer target.2 id d) (ErrorRpc 400 "USER_NOT_PARTICIPANT");;
  emit (ServiceSent (InChat id) user UserDel);;
  modify (fun d => with_members (delete (make_id (InChat id), target.2) (members d)) d);;
  set_group id (count_participants (-1));;
  emit (Updated (InChat id) None).

Definition edit_chat_admin (cx : MembersCtx) (chat_id : Z) (input_user : InputPeer) (is_admin_ : bool) : MM unit :=
  let user := mx_user_id cx in
  let id := norm_id chat_id in
  g ← group_with_peer user id;
  target ← user_of_input hmac_sha256 payload cx input_user "PEER_ID_INVALID";
  ensure (bool_decide (target.1 = USER)) (ErrorRpc 400 "PEER_ID_INVALID");;
  d ← get;
  ensure (has_chat_peer target.2 id d) (ErrorRpc 400 "USER_NOT_PARTICIPANT");;
  ensure (creator_id (gr g) =? user) (ErrorRpc 400 "CHAT_ADMIN_REQUIRED");;
  match member_of (InChat id) target.2 d with
  | None => raise (ErrorRpc 400 "USER_NOT_PARTICIPANT")
  | Some participant =>
    if Bool.eqb (is_admin (mb participant)) is_admin_ then mret tt
    else
      ensure (negb (is_admin_ && (basic_group_admin_limit <=? count_members (InChat id) (fun m => 0 <? admin_rights (mb m)) d))) (ErrorRpc 400 "USERS_TOO_MUCH");;
      let rights := if is_admin_ then BASIC_GROUP_ADMIN_RIGHTS else 0 in
      set_member (InChat id) target.2 (set_admin rights (admin_rank (mb participant)) (promoted_by_id (mb participant)) participant);;
      set_group id (group_base bump_version);;
      emit (Updated (InChat id) None)
  end.

(** ** Settings *)
(** [ChatBase.update] of the chat or channel *)
Definition update_base (p : place) (title about : option pystr) : MM unit :=
  d ← get;
  match base_of p d with
  | None => raise DoesNotExist
  | Some b =>
    let '(r, row) := update title about None None (MkChatRow b b) in
    match p with
    | InChat id => set_group id (group_base (fun _ => saved row))
    | InChannel id => change_channel id (set_base (fun _ => saved row))
    end;;
    lift_result r
  end.

Definition edit_chat_title (cx : MembersCtx) (chat_id : Z) (title : pystr) : MM unit :=
  idg ← group_of_peer (mx_user_id cx) chat_id false;
  let '(id, g) := (idg : Z * Group) in
  d ← get;
  ensure (admin_or_creator (gr g) (mx_user_id cx) (member_of (InChat id) (mx_user_id cx) d)) (ErrorRpc 400 "CHAT_ADMIN_REQUIRED");;
  update_base (InChat id) (Some title) None;;
  emit (ServiceSent (InChat id) (mx_user_id cx) EditTitle).

(** The chat or channel of a peer of either type *)
Definition settings_place (cx : MembersCtx) (i : InputPeer) : MM (place * ChatBase) :=
  peer ← on_peers (from_input_peer_raise hmac_sha256 payload (mx_auth_id cx) (mx_user_id cx) i "PEER_ID_INVALID" 400 false (Some [CHAT; CHANNEL]));
  p ← lift_result (match p_type peer.2 with CHAT => InChat <$> need (p_chat peer.2) | _ => InChannel <$> need (p_channel peer.2) end);
  d ← get;
  match base_of p d with Some b => mret (p, b) | None => raise DoesNotExist end.
Definition log_setting (p : place) (user : Z) (a : admin_action) : MM unit := match p with InChannel id => emit (AdminLogged id user a) | InChat _ => mret tt end.

Definition edit_chat_about (cx : MembersCtx) (i : InputPeer) (about : pystr) : MM bool :=
  pb ← settings_place cx i;
  d ← get;
  ensure (admin_or_creator pb.2 (mx_user_id cx) (get_participant pb.1 (mx_user_id cx) false d)) (ErrorRpc 400 "CHAT_ADMIN_REQUIRED");;
  update_base pb.1 None (Some about);;
  log_setting pb.1 (mx_user_id cx) CHANGE_ABOUT;;
  emit (Updated pb.1 None);;
  mret true.

Definition set_default_banned (b : Z) (c : ChatBase) : ChatBase :=
  MkChatBase (kind c) (name c) (description c) (version c + 1) (creator_id c) (photo_id c) b (ttl_period_days c) (deleted c).
Definition edit_chat_default_banned_rights (cx : MembersCtx) (i : InputPeer) (new_banned_rights : Z) : MM unit :=
  ensure (Z.land new_banned_rights Banned.VIEW_MESSAGES =? 0) (ErrorRpc 406 "BANNED_RIGHTS_INVALID");;
  pb ← settings_place cx i;
  d ← get;
  ensure (admin_or_creator pb.2 (mx_user_id cx) (get_participant pb.1 (mx_user_id cx) false d)) (ErrorRpc 400 "CHAT_ADMIN_REQUIRED");;
  ensure (negb (default_banned_rights pb.2 =? new_banned_rights)) (ErrorRpc 400 "CHAT_NOT_MODIFIED");;
  match pb.1 with
  | InChat id => set_group id (group_base (set_default_banned new_banned_rights))
  | InChannel id => change_channel id (set_base (set_default_banned new_banned_rights))
  end;;
  log_setting pb.1 (mx_user_id cx) DEFAULT_BANNED_RIGHTS;;
  emit (Updated pb.1 None).

Definition no_forwards (p : place) (d : MembersDb) : bool :=
  match p with InChat id => default false (gr_no_forwards <$> groups d !! id) | InChannel id => default false (ch_no_forwards <$> channels d !! id) end.
Definition set_no_forwards (b : bool) (c : Channel) : Channel :=
  let c := set_base bump_version c in
  MkChannel (ch c) (ch_supergroup c) (ch_history c) (ch_join_request c) (ch_username c) (ch_discussion c) (ch_admins_count c) (ch_migrated_from c) b.
Definition toggle_no_forwards (cx : MembersCtx) (i : InputPeer) (enabled : bool) : MM unit :=
  pb ← settings_place cx i;
  d ← get;
  ensure (negb (Bool.eqb enabled (no_forwards pb.1 d))) (ErrorRpc 400 "CHAT_NOT_MODIFIED");;
  ensure (match get_participant pb.1 (mx_user_id cx) false d with Some m => admin_has_permission pb.2 (mb m) Admin.CHANGE_INFO | None => false end)
    (ErrorRpc 400 "CHAT_ADMIN_REQUIRED");;
  match pb.1 with
  | InChat id => set_group id (fun g => MkGroup (bump_version (gr g)) (gr_migrated g) (gr_participants_count g) enabled)
  | InChannel id => change_channel id (set_no_forwards enabled)
  end;;
  log_setting pb.1 (mx_user_id cx) TOGGLE_NOFORWARDS;;
  emit (Updated pb.1 None).

Definition delete_chat (cx : MembersCtx) (chat_id : Z) : MM bool :=
  idg ← group_of_peer (mx_user_id cx) chat_id true;
  let '(id, g) := (idg : Z * Group) in
  ensure (creator_id (gr g) =? mx_user_id cx) (ErrorRpc 400 "CHAT_ADMIN_REQUIRED");;
  set_group id (group_base (fun b => set_deleted (version b + 1) b));;
  emit (Updated (InChat id) None);;
  mret true.

(** ** Migration *)
Definition members_of (p : place) (d : MembersDb) : list Member := snd <$> map_to_list (filter (fun km => km.1.1 = make_id p) (members d)).
Definition chat_owners (id : Z) (d : MembersDb) : list Z := omap (fun kp => if bool_decide (p_chat kp.2 = Some id) then p_owner kp.2 else None) (map_to_list (m_peers d)).
(** A member as he comes into the channel *)
Definition migrated_member (creator : Z) (m : Member) : Member :=
  let r := mb m in
  MkMember (MkParticipant (user_id r) (inviter_id r) (invited_at r) (banned_rights r) (if creator =? user_id r then CREATOR_RIGHTS else admin_rights r) (admin_rank r)
    (promoted_by_id r) None false) None (mb_banned_until m).
Definition migrated_channel (id : Z) (g : Group) : Channel :=
  let b := gr g in
  MkChannel (MkChatBase (IsChannel false false true false) (name b) (description b) 1 (creator_id b) (photo_id b) (default_banned_rights b) (ttl_period_days b) false)
    true (MkHistory false None None) false false None 0 (Some id) (gr_no_forwards g).

Definition migrate_chat (cx : MembersCtx) (chat_id : Z) : MM Z :=
  let user := mx_user_id cx in
  idg ← group_of_peer user chat_id false;
  let '(g_id, g) := (idg : Z * Group) in
  d ← get;
  ensure (admin_or_creator (gr g) user (member_of (InChat g_id) user d)) (ErrorRpc 400 "CHAT_ADMIN_REQUIRED");;
  let participants := members_of (InChat g_id) d in
  let users := (fun m => user_id (mb m)) <$> participants in
  id ← transaction (
    d ← get;
    let id := next_channel d in
    modify (with_channels (<[id := migrated_channel g_id g]> (channels d)) (id + 1));;
    on_peers (create_channel_peer id);;
    set_group g_id mark_migrated;;
    emit (ScheduledDropped (InChat g_id) None);;
    modify (fun d => with_invites ((fun i => if bool_decide (iv_place i = InChat g_id) then revoke i else i) <$> invites d) (next_invite d) d);;
    delete_requests (InChat g_id) (fun _ => true);;
    modify (fun d => with_members (foldl (fun ms m => <[(make_id (InChannel id), user_id (mb m)) := migrated_member (creator_id (gr g)) m]> ms) (members d) participants) d);;
    mapM (fun u => emit (DialogShown u (InChannel id) true)) users;;
    d ← get;
    mapM (fun u => emit (DialogShown u (InChat g_id) false)) (chat_owners g_id d);;
    mret id);
  emit (Subscribed id users);;
  emit (Updated (InChat g_id) (Some users));;
  emit (ServiceSent (InChat g_id) user MigrateTo);;
  emit (ServiceSent (InChannel id) user MigrateFrom);;
  mret id.
End Groups.
