(* ===== verification/Membership.v ===== *)
(** What membership of channels and basic groups guarantees: the creator of a channel stays in it with all rights, the number of admins is bounded, and every change of a
    member's row has its reason in the state before it. Here are the invariant, the reasons, and the handlers of [Members.v] and [Invites.v]; those of [Groups.v] and the
    theorems about all of them are in [MembershipSafety.v]. *)
From stdpp Require Import gmap.
From S2P Require Import Prelude PyBytes AccessHash Privacy Peers Rights Members Invites Groups.

(** ** The tables the theorems are about *)
(** Privacy rules are in order, and so is the cache of answers about them. *)
Definition privacy_ok (d : MembersDb) : Prop := db_ok (m_privacy d) /\ cache_ok (m_privacy d).
Definition privacy_kept (d d' : MembersDb) : Prop := privacy_ok d -> Privacy.same_tables (m_privacy d) (m_privacy d') /\ privacy_ok d'.
Definition same_tables (d d' : MembersDb) : Prop :=
  members d' = members d /\ channels d' = channels d /\ next_channel d' = next_channel d /\ invites d' = invites d /\ requests d' = requests d /\ groups d' = groups d /\
  next_group d' = next_group d /\ privacy_kept d d'.

Lemma privacy_refl d d' : m_privacy d' = m_privacy d -> privacy_kept d d'.
Proof. unfold privacy_kept, privacy_ok. by intros ->. Qed.
Lemma privacy_trans d1 d2 d3 : privacy_kept d1 d2 -> privacy_kept d2 d3 -> privacy_kept d1 d3.
Proof.
  intros H1 H2 H. destruct (H1 H) as [(?&?&?&?&?) Hok]. destruct (H2 Hok) as [(?&?&?&?&?) ?]. split; [|done]. split_and!; etransitivity; eassumption.
Qed.
Lemma same_refl d : same_tables d d.
Proof. split_and!; first [done|by apply privacy_refl]. Qed.
Lemma same_trans d1 d2 d3 : same_tables d1 d2 -> same_tables d2 d3 -> same_tables d1 d3.
Proof. intros (?&?&?&?&?&?&?&?) (?&?&?&?&?&?&?&?). split_and!; first [by eapply privacy_trans|by etransitivity]. Qed.

(** Programs that leave them alone *)
Definition still {A} (m : MM A) : Prop := forall d, same_tables d (m d).2.

Lemma still_bind {A B} (m : MM A) (f : A -> MM B) : still m -> (forall a, still (f a)) -> still (m ≫= f).
Proof.
  intros Hm Hf d. specialize (Hm d). unfold mbind, M_bind. destruct (m d) as [[a|e] d1]; cbn in *; [|done]. eapply same_trans; [done|apply Hf].
Qed.
Lemma still_ret {A} (a : A) : still (mret a). Proof. intros d. apply same_refl. Qed.
Lemma still_raise {A} e : still (raise (A := A) e). Proof. intros d. apply same_refl. Qed.
Lemma still_get : still get. Proof. intros d. apply same_refl. Qed.
Lemma still_lift {A} (r : result A) : still (lift_result r). Proof. intros d. apply same_refl. Qed.
Lemma still_ensure b e : still (ensure b e). Proof. destruct b; intros d; apply same_refl. Qed.
Lemma still_emit e : still (emit e). Proof. intros d. split_and!; first [done|by apply privacy_refl]. Qed.
Lemma still_on_peers {A} (m : D A) : still (on_peers m).
Proof. intros d. unfold on_peers. destruct (m (peer_view d)). split_and!; first [done|by apply privacy_refl]. Qed.
Lemma still_mapM {A B} (f : A -> MM B) l : (forall a, still (f a)) -> still (mapM f l).
Proof. intros Hf. induction l as [|a l IH]; [apply still_ret|]. cbn [mapM]. apply still_bind; [done|]. intros b. apply still_bind; [done|]. intros. apply still_ret. Qed.

(** Questions about privacy fill the cache. *)
Lemma tables_ok d d' : Privacy.same_tables d d' -> db_ok d -> db_ok d'.
Proof. intros (E1 & E2 & E3 & E4 & E5) [H1 H2 H3]. split; rewrite ?E1, ?E2, ?E4, ?E5; done. Qed.
Lemma still_privacy {A} (m : P A) : (forall p, db_ok p -> cache_ok p -> Privacy.same_tables p (m p).2 /\ cache_ok (m p).2) -> still (on_privacy m).
Proof.
  intros Hm d. unfold on_privacy. pose proof (Hm (m_privacy d)) as H. destruct (m (m_privacy d)) as [r p]. split_and!; try done.
  intros [Hd Hc]. destruct (H Hd Hc) as [Hs Hc']. split; [done|]. split; [by eapply tables_ok|done].
Qed.
Lemma still_access user target k : still (on_privacy (has_access_to user target k)).
Proof. apply still_privacy. intros p Hd Hc. by destruct (has_access_spec p user target k Hd Hc) as (p' & -> & ?). Qed.
Lemma chat_invite_known p us user : contacts_known p us user [CHAT_INVITE] None.
Proof. intros H. by apply list_elem_of_singleton in H. Qed.
Lemma still_bulk us user : still (on_privacy (has_access_to_bulk us user [CHAT_INVITE] None)).
Proof. apply still_privacy. intros p Hd Hc. by destruct (bulk_spec p us user [CHAT_INVITE] None Hd Hc (chat_invite_known p us user)) as (r & p' & -> & ? & ? & _). Qed.

(** Who is found to let himself be invited does let himself be invited. *)
Lemma bulk_invites us user granted d d1 : privacy_ok d -> on_privacy (has_access_to_bulk (ById <$> us) user [CHAT_INVITE] None) d = (Ok granted, d1) ->
  forall u, (granted !! u ≫= fun m => m !! CHAT_INVITE) = Some true -> u ∈ us /\ allowed (m_privacy d) user u CHAT_INVITE = true.
Proof.
  intros [Hd Hc] E u Hu. unfold on_privacy in E. destruct (bulk_answers (m_privacy d) (ById <$> us) user [CHAT_INVITE] None Hd Hc (chat_invite_known _ _ _)) as (res & p & Er & _ & _ & Ha & Hout).
  rewrite Er in E. injection E as -> <-. assert (u ∈ us) as Hin.
  { destruct (decide (u ∈ us)) as [|Hn]; [done|]. rewrite Hout in Hu; [done|]. intros t (v & -> & Hv)%list_elem_of_fmap <-. done. }
  split; [done|]. specialize (Ha (ById u) CHAT_INVITE). unfold answer in Ha. cbn [target_id] in Ha. rewrite Hu, decide_False in Ha.
  - assert (Some true = Some (allowed (m_privacy d) user u CHAT_INVITE)) as [= <-]; [|done]. rewrite <- Ha; [done| |by apply list_elem_of_singleton]. apply list_elem_of_fmap. by exists u.
  - intros (v & [=] & _)%list_elem_of_fmap.
Qed.

Create HintDb members.
#[local] Hint Resolve still_ret still_raise still_get still_lift still_ensure still_emit still_on_peers still_access still_bulk : members.
Ltac still := repeat first [ progress eauto with members | apply still_bind; [|intros ?] | apply still_mapM; intros ? | case_match ].

Lemma still_participant p u msg : still (get_participant_raise p u msg).
Proof. unfold get_participant_raise. still. Qed.
Lemma still_user hmac payload cx i msg : still (user_of_input hmac payload cx i msg).
Proof. unfold user_of_input. still. Qed.
Lemma still_channel hmac payload cx i : still (channel_raise hmac payload cx i).
Proof. unfold channel_raise, get_from_input. still. Qed.
#[export] Hint Resolve still_ret still_raise still_get still_lift still_ensure still_emit still_on_peers still_access still_bulk still_participant still_user still_channel : members.

(** ** Keys and counts *)
Lemma make_id_inj p q : make_id p = make_id q -> p = q.
Proof. destruct p, q; cbn; unfold chat_make_id, channel_make_id; intros; f_equal; lia. Qed.

Definition b2z (b : bool) : Z := if b then 1 else 0.

Lemma count_insert p u m' f d : count_members p f (with_members (<[(make_id p, u) := m']> (members d)) d) =
  count_members p f d - b2z (match member_of p u d with Some m => f m | None => false end) + b2z (f m').
Proof.
  unfold count_members, member_of. cbn. set (P := fun km : Z * Z * Member => km.1.1 = make_id p /\ f km.2 = true). set (k := (make_id p, u)).
  assert (forall m, P (k, m) <-> f m = true) as HP by (intros m; unfold P, k; cbn; naive_solver).
  assert (Z.of_nat (size (filter P (members d))) = Z.of_nat (size (filter P (delete k (members d)))) + b2z (match members d !! k with Some m => f m | None => false end)) as Hold.
  { destruct (members d !! k) as [m|] eqn:E; [|rewrite delete_id by done; cbn; lia]. rewrite <- (insert_delete_id (members d) k m E) at 1.
    destruct (f m) eqn:Ef.
    - rewrite map_filter_insert_True by (by apply HP). rewrite map_size_insert_None by (rewrite map_lookup_filter_None; left; by rewrite lookup_delete_eq). cbn. lia.
    - rewrite map_filter_insert_False by (rewrite HP; congruence). rewrite delete_delete_eq. cbn. lia. }
  assert (Z.of_nat (size (filter P (<[k:=m']> (members d)))) = Z.of_nat (size (filter P (delete k (members d)))) + b2z (f m')) as Hnew.
  { rewrite <- insert_delete_eq. destruct (f m') eqn:Ef.
    - rewrite map_filter_insert_True by (by apply HP). rewrite map_size_insert_None by (rewrite map_lookup_filter_None; left; by rewrite lookup_delete_eq). cbn. lia.
    - rewrite map_filter_insert_False by (rewrite HP; congruence). rewrite delete_delete_eq. cbn. lia. }
  lia.
Qed.

Lemma count_other p q u m' f d : p <> q -> count_members p f (with_members (<[(make_id q, u) := m']> (members d)) d) = count_members p f d.
Proof.
  intros Hne. unfold count_members. cbn. do 2 f_equal. apply map_eq. intros [k v]. rewrite !map_lookup_filter.
  destruct (decide ((make_id q, u) = (k, v))) as [[= <- <-]|Hk]; [|by rewrite lookup_insert_ne].
  rewrite lookup_insert_eq. cbn. assert (make_id q <> make_id p) as Hid by (intros E%make_id_inj; congruence).
  destruct (members d !! (make_id q, u)); cbn; rewrite ?option_guard_False by (cbn; naive_solver); done.
Qed.

Lemma count_ext p f g d d' : (forall u m, members d !! (make_id p, u) = Some m -> exists m', members d' !! (make_id p, u) = Some m' /\ g m' = f m) ->
  (forall u m', members d' !! (make_id p, u) = Some m' -> g m' = true -> is_Some (members d !! (make_id p, u))) ->
  count_members p g d' = count_members p f d.
Proof.
  intros H1 H2. unfold count_members. f_equal. rewrite <- !size_dom. f_equal. apply set_eq. intros [k u]. rewrite !elem_of_dom. split.
  - intros [m' [Hm' [Hk Hg]]%map_lookup_filter_Some]. cbn in Hk, Hg. subst k. destruct (H2 u m' Hm' Hg) as [m Hm]. exists m.
    apply map_lookup_filter_Some. split; [done|]. split; [done|]. destruct (H1 u m Hm) as (m2 & Hm2 & E). assert (m2 = m') as -> by congruence. cbn. congruence.
  - intros [m [Hm [Hk Hf]]%map_lookup_filter_Some]. cbn in Hk, Hf. subst k. destruct (H1 u m Hm) as (m' & Hm' & E). exists m'.
    apply map_lookup_filter_Some. split; [done|]. split; [done|]. cbn. congruence.
Qed.

Lemma count_mono p f d d' : (forall u m', members d' !! (make_id p, u) = Some m' -> f m' = true -> exists m, members d !! (make_id p, u) = Some m /\ f m = true) ->
  count_members p f d' <= count_members p f d.
Proof.
  intros H. unfold count_members. apply inj_le. rewrite <- !size_dom. apply subseteq_size. intros [k u]. rewrite !elem_of_dom.
  intros [m' [Hm' [Hk Hf]]%map_lookup_filter_Some]. cbn in Hk, Hf. subst k. destruct (H u m' Hm' Hf) as (m & Hm & Hfm). exists m. by apply map_lookup_filter_Some.
Qed.

Lemma count_none p f d : (forall u m, member_of p u d = Some m -> f m = false) -> count_members p f d = 0.
Proof.
  intros H. unfold count_members. apply (f_equal Z.of_nat (y := 0%nat)), map_size_empty_iff, map_empty.
  intros [k u]. apply map_lookup_filter_None. right. intros m Hm [Hk Hf]. cbn in Hk, Hf. subst k. specialize (H u m Hm). congruence.
Qed.

Lemma member_set p u m' q v d : member_of q v (with_members (<[(make_id p, u) := m']> (members d)) d) = if decide (p = q /\ u = v) then Some m' else member_of q v d.
Proof.
  unfold member_of. cbn [members with_members]. case_decide as H; [destruct H as [-> ->]; by rewrite lookup_insert_eq|].
  rewrite lookup_insert_ne; [done|]. intros [= E%make_id_inj ->]. by apply H.
Qed.

(** ** The invariant *)
Definition admins (p : place) (d : MembersDb) : Z := count_members p (fun m => is_admin (mb m)) d.
Definition has_all_rights (m : Member) : Prop := left (mb m) = false /\ subflags CREATOR_RIGHTS (admin_rights (mb m)).
Definition known (p : place) (d : MembersDb) : Prop := is_Some (base_of p d).
(** Not made of a basic group, whose creator may have been removed from it *)
Definition native (c : Channel) : Prop := ch_migrated_from c = None.

Section Membership.
(** The limits of admins, of basic groups and of channels *)
Context (basic_group_admin_limit channel_admin_limit : Z).

Record membership_ok (d : MembersDb) : Prop := {
  mo_below : forall id c, channels d !! id = Some c -> id < next_channel d;
  mo_groups_below : forall g b, groups d !! g = Some b -> g < next_group d;
  mo_creator : forall id c, channels d !! id = Some c -> native c -> exists m, member_of (InChannel id) (creator_id (ch c)) d = Some m /\ has_all_rights m;
  mo_rows : forall p u m, member_of p u d = Some m -> user_id (mb m) = u /\ 0 <= admin_rights (mb m) /\ known p d;
  mo_invites : forall k i, invites d !! k = Some i -> known (iv_place i) d;
  mo_admins : forall id c, channels d !! id = Some c -> native c -> admins (InChannel id) d <= channel_admin_limit /\
    (ch_admins_count c = admins (InChannel id) d \/ admins (InChannel id) d < channel_admin_limit);
  mo_group_admins : forall g b, groups d !! g = Some b -> admins (InChat g) d <= basic_group_admin_limit;
  mo_privacy : privacy_ok d;
}.

Lemma creator_is_admin m : subflags CREATOR_RIGHTS (admin_rights (mb m)) -> 0 <= admin_rights (mb m) -> is_admin (mb m) = true.
Proof. intros Hs H0. apply Z.ltb_lt. eapply subflags_pos; [done|exact Hs|done]. Qed.

(** ** Reasons *)
(** A member that has not left, with an admin's right; the creator has them all. *)
Definition may (d : MembersDb) (user id permission : Z) : Prop :=
  exists c m, channels d !! id = Some c /\ get_participant (InChannel id) user false d = Some m /\ admin_has_permission (ch c) (mb m) permission = true.
Definition is_creator (d : MembersDb) (user id : Z) : Prop := exists c, channels d !! id = Some c /\ creator_id (ch c) = user.
Definition owns (d : MembersDb) (user id : Z) : Prop := exists c, channels d !! id = Some c /\ native c /\ creator_id (ch c) = user.
Definition rules_group (d : MembersDb) (user g : Z) : Prop := exists b, groups d !! g = Some b /\ admin_or_creator (gr b) user (member_of (InChat g) user d) = true.
(** The privacy rules of [target] let [user] invite him. *)
Definition welcomes (d : MembersDb) (user target : Z) : Prop := allowed (m_privacy d) user target CHAT_INVITE = true.

(** A link that lets its holder in at once *)
Definition opens (d : MembersDb) (now user : Z) (p : place) (k : Z) : Prop :=
  exists i, invites d !! k = Some i /\ iv_place i = p /\ iv_revoked i = false /\ expired now i = false /\ chat_migrated p d = false /\ asks_for_request i d = false /\
    (forall id, p = InChannel id -> view_banned p user d = false).
(** A channel anyone may join, or the discussion of one he may view *)
Definition open_channel (d : MembersDb) (user id : Z) : Prop :=
  exists c, channels d !! id = Some c /\ deleted (ch c) = false /\ view_banned (InChannel id) user d = false /\
    (ch_username c = true \/ is_discussion c = true /\ exists l lc, channels d !! l = Some lc /\ deleted (ch lc) = false /\ ch_discussion lc = Some id /\
       can_view_messages (ch lc) (mb <$> get_participant (InChannel l) user true d) = true).
(** Someone there who may invite, and one whose privacy lets him *)
Definition invited_by (d : MembersDb) (user target : Z) (p : place) : Prop :=
  (exists b m, base_of p d = Some b /\ get_participant p user false d = Some m /\
    (user_has_permission b (Some (mb m)) Banned.INVITE_USERS = Ok true \/ admin_has_permission b (mb m) Admin.INVITE_USERS = true)) /\ welcomes d user target.
(** A request of his own that waits, by an invite of the place, and someone there who may let him in *)
Definition requested (d : MembersDb) (user target : Z) (p : place) : Prop :=
  (exists m b, base_of p d = Some b /\ get_participant p user false d = Some m /\ admin_has_permission b (mb m) Admin.INVITE_USERS = true) /\
  exists k r, requests d !! k = Some r /\ ir_user r = target /\ of_place p d r = true.

Definition entitled (d : MembersDb) (now user target : Z) (p : place) : Prop :=
  (target = user /\ ((exists k, opens d now user p k) \/ (exists id, p = InChannel id /\ open_channel d user id))) \/ invited_by d user target p \/ requested d user target p.

(** What a request of [user] may do to the row of [target]: coming, going and being restricted *)
Inductive mchange (d : MembersDb) (now user : Z) (p : place) (target : Z) : option Member -> option Member -> Prop :=
  | mc_banned id m b until : p = InChannel id -> may d user id Admin.BAN_USERS -> target <> user -> (is_admin (mb m) = true -> is_creator d user id) ->
      mchange d now user p target (Some m) (Some (set_banned b until (left (mb m) || negb (Z.land b Banned.VIEW_MESSAGES =? 0)) m))
  | mc_banned_new id b until : p = InChannel id -> may d user id Admin.BAN_USERS -> target <> user ->
      mchange d now user p target None (Some (set_banned b until true (new_member target 0 now None None)))
  | mc_left m id : p = InChannel id -> target = user -> ~ is_creator d user id -> mchange d now user p target (Some m) (Some (set_left true m))
  | mc_rejoined m inviter invite min_message : left (mb m) = true -> entitled d now user target p ->
      mchange d now user p target (Some m) (Some (set_joined inviter invite min_message m))
  | mc_joined inviter invite min_message : entitled d now user target p -> mchange d now user p target None (Some (new_member target inviter now min_message invite))
  | mc_invite_gone m k : mb_invite m = Some k -> mchange d now user p target (Some m) (Some (MkMember (mb m) None (mb_banned_until m)))
  | mc_removed m g : p = InChat g -> target <> user -> rules_group d user g -> mchange d now user p target (Some m) None.

(** and what it may do to his rights, or with a new channel or group *)
Inductive rchange (d : MembersDb) (now user : Z) (p : place) (target : Z) : option Member -> option Member -> Prop :=
  | rc_admin id m a rank by_ : p = InChannel id -> may d user id Admin.ADD_ADMINS -> left (mb m) = false ->
      (is_creator d user id \/ exists own, get_participant p user false d = Some own /\ subflags a (admin_rights (mb own))) ->
      (is_creator d target id -> target = user /\ subflags CREATOR_RIGHTS a) ->
      rchange d now user p target (Some m) (Some (set_admin a rank by_ m))
  | rc_resigned id m rank by_ : p = InChannel id -> target = user -> is_creator d user id -> rchange d now user p target (Some m) (Some (set_admin 0 rank by_ m))
  | rc_succeeded id m rank by_ : p = InChannel id -> is_creator d user id -> left (mb m) = false -> rchange d now user p target (Some m) (Some (set_admin CREATOR_RIGHTS rank by_ m))
  | rc_created id rank by_ : p = InChannel id -> channels d !! id = None -> target = user ->
      rchange d now user p target None (Some (set_admin CREATOR_RIGHTS rank by_ (new_member user 0 now None None)))
  | rc_group_admin g b m (promote : bool) rank by_ : p = InChat g -> groups d !! g = Some b -> creator_id (gr b) = user -> target <> user ->
      rchange d now user p target (Some m) (Some (set_admin (if promote then BASIC_GROUP_ADMIN_RIGHTS else 0) rank by_ m))
  | rc_founded g : p = InChat g -> groups d !! g = None -> target = user ->
      rchange d now user p target None (Some (set_admin CREATOR_RIGHTS [] 0 (new_member user 0 now None None)))
  | rc_founded_with g : p = InChat g -> groups d !! g = None -> target <> user -> welcomes d user target ->
      rchange d now user p target None (Some (new_member target user now None None))
  | rc_migrated id g b m : p = InChannel id -> channels d !! id = None -> groups d !! g = Some b -> rules_group d user g -> member_of (InChat g) target d = Some m ->
      rchange d now user p target None (Some (migrated_member (creator_id (gr b)) m)).

(** Every row stays or has a reason to change, and a channel keeps its creator unless he hands it over; a group keeps hers. *)
Record reasoned (now user : Z) (d d' : MembersDb) : Prop := {
  re_rows : forall p u, member_of p u d' = member_of p u d \/ mchange d now user p u (member_of p u d) (member_of p u d') \/
    rchange d now user p u (member_of p u d) (member_of p u d');
  re_creator : forall id c, channels d !! id = Some c -> exists c', channels d' !! id = Some c' /\ (creator_id (ch c') = creator_id (ch c) \/ creator_id (ch c) = user);
  re_new : forall id c, channels d !! id = None -> channels d' !! id = Some c -> creator_id (ch c) = user \/
    exists g b, ch_migrated_from c = Some g /\ groups d !! g = Some b /\ creator_id (ch c) = creator_id (gr b) /\ rules_group d user g;
  re_groups : forall g b, groups d !! g = Some b -> exists b', groups d' !! g = Some b' /\ creator_id (gr b') = creator_id (gr b);
  re_new_group : forall g b, groups d !! g = None -> groups d' !! g = Some b -> creator_id (gr b) = user;
}.

(** Reasons are found in the tables, so they last as long as these do. *)
Lemma welcomes_same d d1 u t : privacy_ok d -> privacy_kept d d1 -> welcomes d1 u t <-> welcomes d u t.
Proof.
  intros Hp Hk. destruct (Hk Hp) as [(E1 & E2 & E3 & _) _]. unfold welcomes, allowed, rule_allows, is_contact. by rewrite E1, E2, E3.
Qed.

Section Reasons.
Context (now user : Z).

Lemma entitled_same d d1 t p : privacy_ok d -> same_tables d d1 -> entitled d1 now user t p <-> entitled d now user t p.
Proof.
  intros Hp (E1 & E2 & E3 & E4 & E5 & E6 & E7 & Hk). unfold entitled, invited_by. rewrite (welcomes_same d d1 user t Hp Hk). clear Hp Hk.
  destruct d, d1. cbn in *. subst. done.
Qed.

Lemma reasoned_same d d' : same_tables d d' -> reasoned now user d d'.
Proof.
  intros (Em & Ec & En & Ei & Er & Eg & _). split; unfold member_of; rewrite ?Em, ?Ec, ?Eg; [by left|eauto|congruence|eauto|congruence].
Qed.

Lemma mchange_before d d1 p u o n : privacy_ok d -> same_tables d d1 -> mchange d1 now user p u o n -> mchange d now user p u o n.
Proof.
  intros Hpr Hs. pose proof (entitled_same d d1 u p Hpr Hs) as He. destruct Hs as (E1 & E2 & E3 & E4 & E5 & E6 & E7 & _).
  intros [id m b until Hp H1 H2 H3|id b until Hp H1 H2|m id Hp H1 H2|m i k mm H1 H2|i k mm H1|m k H1|m g Hp H1 H2]; [| | |apply He in H2|apply He in H1| |];
    clear He Hpr; destruct d, d1; cbn in *; subst.
  - eapply mc_banned; eassumption || done.
  - eapply mc_banned_new; eassumption || done.
  - eapply mc_left; eassumption || done.
  - eapply mc_rejoined; eassumption || done.
  - eapply mc_joined; eassumption || done.
  - eapply mc_invite_gone; eassumption || done.
  - eapply mc_removed; eassumption || done.
Qed.
Lemma rchange_before d d1 p u o n : privacy_ok d -> same_tables d d1 -> rchange d1 now user p u o n -> rchange d now user p u o n.
Proof.
  intros Hpr (E1 & E2 & E3 & E4 & E5 & E6 & E7 & Hk). pose proof (welcomes_same d d1 user u Hpr Hk) as Hw.
  intros [id m a rank by_ Hp H1 H2 H3 H4|id m rank by_ Hp H1 H2|id m rank by_ Hp H1 H2|id rank by_ Hp H1 H2|g b m pr rank by_ Hp H1 H2 H3|g Hp H1 H2|g Hp H1 H2 H3|id g b m Hp H1 H2 H3 H4];
    [| | | | | |apply Hw in H3|]; clear Hw Hpr Hk; destruct d, d1; cbn in *; subst.
  - eapply rc_admin; eassumption || done.
  - eapply rc_resigned; eassumption || done.
  - eapply rc_succeeded; eassumption || done.
  - eapply rc_created; eassumption || done.
  - eapply rc_group_admin; eassumption || done.
  - eapply rc_founded; eassumption || done.
  - eapply rc_founded_with; eassumption || done.
  - eapply rc_migrated; eassumption || done.
Qed.
Lemma rules_group_same d d1 g : same_tables d d1 -> rules_group d1 user g -> rules_group d user g.
Proof. intros (E1 & E2 & E3 & E4 & E5 & E6 & E7 & _). destruct d, d1. cbn in *. subst. done. Qed.
Lemma reasoned_before d d1 d2 : privacy_ok d -> same_tables d d1 -> reasoned now user d1 d2 -> reasoned now user d d2.
Proof.
  intros Hpr Hs [H1 H2 H3 H4 H5]. pose proof Hs as (Em & Ec & En & Ei & Er & Eg & _). split.
  - intros p u. specialize (H1 p u). assert (member_of p u d1 = member_of p u d) as E by (unfold member_of; by rewrite Em). rewrite E in H1.
    destruct H1 as [H1|[H1|H1]]; [by left|right; left|right; right]; [by eapply mchange_before|by eapply rchange_before].
  - intros id c. rewrite <- Ec. apply H2.
  - intros id c Hn Hc. rewrite <- Ec in Hn. destruct (H3 id c Hn Hc) as [?|(g & b & ? & ? & ? & Hr)]; [by left|right]. exists g, b. rewrite <- Eg. split_and!; try done.
    by eapply rules_group_same.
  - intros g b. rewrite <- Eg. apply H4.
  - intros g b. rewrite <- Eg. apply H5.
Qed.
Lemma reasoned_after d d1 d2 : reasoned now user d d1 -> same_tables d1 d2 -> reasoned now user d d2.
Proof. intros [H1 H2 H3 H4 H5] (Em & Ec & _ & _ & _ & Eg & _). split; unfold member_of; rewrite ?Em, ?Ec, ?Eg; [apply H1|apply H2|apply H3|apply H4|apply H5]. Qed.
Lemma same_ok d d' : same_tables d d' -> membership_ok d -> membership_ok d'.
Proof.
  intros (E1 & E2 & E3 & E4 & E5 & E6 & E7 & Hk) [H1 H2 H3 H4 H5 H6 H7 H8]. destruct (Hk H8) as [_ Hp]. clear Hk H8. revert Hp. destruct d, d'. cbn in *. subst. intros Hp.
  split; [exact H1|exact H2|exact H3|exact H4|exact H5|exact H6|exact H7|exact Hp].
Qed.

(** ** Handlers *)
Definition good {A} (d : MembersDb) (x : result A * MembersDb) : Prop := membership_ok x.2 /\ reasoned now user d x.2.

Lemma good_same {A} d (x : result A * MembersDb) : membership_ok d -> same_tables d x.2 -> good d x.
Proof. intros Hd Hs. split; [by eapply same_ok|by apply reasoned_same]. Qed.
Lemma good_halt {A} d (r : result A) : membership_ok d -> good d (r, d).
Proof. intros. apply good_same; [done|apply same_refl]. Qed.
Lemma good_still {A} d (m : MM A) : still m -> membership_ok d -> good d (m d).
Proof. intros Hm Hd. by apply good_same. Qed.

(** Reading first, *)
Lemma good_read {A B} (m : MM A) (f : A -> MM B) d : membership_ok d -> still m ->
  (forall a d1, m d = (Ok a, d1) -> same_tables d d1 -> membership_ok d1 -> good d1 (f a d1)) -> good d ((m ≫= f) d).
Proof.
  intros Hd Hm Hf. pose proof (Hm d) as Hs. unfold mbind, M_bind. destruct (m d) as [[a|e] d1] eqn:E; [|by apply good_same].
  destruct (Hf a d1) as [H1 H2]; [done..|by eapply same_ok|]. split; [done|]. eapply reasoned_before; [apply Hd|done|done].
Qed.
Lemma good_get {B} (f : MembersDb -> MM B) d : good d (f d d) -> good d ((get ≫= f) d).
Proof. done. Qed.
Lemma good_ensure {B} b e (f : unit -> MM B) d : membership_ok d -> (b = true -> good d (f tt d)) -> good d ((ensure b e ≫= f) d).
Proof. intros Hd Hf. destruct b; [by apply Hf|by apply good_halt]. Qed.
Lemma good_lift {A B} (r : result A) (f : A -> MM B) d : membership_ok d -> (forall a, r = Ok a -> good d (f a d)) -> good d ((lift_result r ≫= f) d).
Proof. intros Hd Hf. destruct r as [a|e]; [by apply Hf|by apply good_halt]. Qed.
(** and what leaves the tables alone last *)
Lemma good_tail {A B} (m : MM A) (f : A -> MM B) d : good d (m d) -> (forall a, still (f a)) -> good d ((m ≫= f) d).
Proof.
  intros [H1 H2] Hf. unfold mbind, M_bind. destruct (m d) as [[a|e] d1]; [|done]. cbn [snd] in *. specialize (Hf a d1).
  split; [by eapply same_ok|by eapply reasoned_after].
Qed.
Lemma good_transaction {A} (m : MM A) d : membership_ok d -> good d (m d) -> good d (transaction m d).
Proof. intros Hd H. unfold transaction. destruct (m d) as [[a|e] d1]; [done|by apply good_halt]. Qed.

(** *** Coming, going and being restricted keep the invariant. *)
Lemma entitled_known d target p : membership_ok d -> entitled d now user target p -> known p d.
Proof.
  intros Hd [[_ [(k & i & Hi & Hp & _)|(id & -> & c & Hc & _)]]|[[(b & m & Hb & _) _]|[(m & b & Hb & _) _]]]; [|unfold known; cbn; by rewrite Hc|by exists b..].
  rewrite <- Hp. by eapply mo_invites.
Qed.

Definition admin_row (o : option Member) : bool := match o with Some m => is_admin (mb m) | None => false end.

Record quiet (d : MembersDb) (p : place) (u : Z) (o : option Member) (m' : Member) : Prop := {
  qu_user : user_id (mb m') = u; qu_rights : 0 <= admin_rights (mb m'); qu_known : known p d; qu_admin : is_admin (mb m') = admin_row o;
  qu_creator : forall id, p = InChannel id -> owns d u id -> has_all_rights m' }.

Lemma creator_row d u id : membership_ok d -> owns d u id -> exists m, member_of (InChannel id) u d = Some m /\ has_all_rights m /\ is_admin (mb m) = true.
Proof.
  intros Hd (c & Hc & Hn & <-). destruct (mo_creator d Hd id c Hc Hn) as (m & Hm & Hl & Hr). exists m. split; [done|]. split; [done|].
  apply creator_is_admin; [done|]. by destruct (mo_rows d Hd _ _ _ Hm) as (_ & ? & _).
Qed.
Lemma same_creator d u v id : is_creator d u id -> is_creator d v id -> u = v.
Proof. intros (c & Hc & <-) (c' & Hc' & <-). congruence. Qed.
Lemma owns_creator d u id : owns d u id -> is_creator d u id.
Proof. intros (c & ? & _ & ?). by exists c. Qed.

Lemma mchange_quiet d p u o n : membership_ok d -> o = member_of p u d -> mchange d now user p u o n ->
  (exists m', n = Some m' /\ quiet d p u o m') \/ n = None /\ exists g, p = InChat g.
Proof.
  intros Hd Ho Hc. assert (forall m, o = Some m -> user_id (mb m) = u /\ 0 <= admin_rights (mb m) /\ known p d) as Hrow by (intros m ->; by apply (mo_rows d Hd)).
  assert (forall id, p = InChannel id -> owns d u id -> exists m, o = Some m /\ has_all_rights m /\ is_admin (mb m) = true) as Hcr
    by (intros id -> H; rewrite Ho; by apply creator_row).
  destruct Hc as [id m b until Hp H1 H2 H3|id b until Hp H1 H2|m id Hp -> H2|m i k mm H1 H2|i k mm H1|m k H1|m g Hp H1 H2]; [left..|right; split; [done|by exists g]].
  - destruct (Hrow m eq_refl) as (? & ? & ?). eexists. split; [done|]. split; try done. intros id' Hp' Hx. destruct (Hcr id' Hp' Hx) as (m0 & [= <-] & _ & Hm).
    destruct H2. assert (id' = id) as -> by congruence. eapply same_creator; [by apply owns_creator|by apply H3].
  - destruct H1 as (c & m & Hcc & _). eexists. split; [done|]. split; try done; [subst p; unfold known; cbn; by rewrite Hcc|].
    intros id' Hp' Hx. by destruct (Hcr id' Hp' Hx) as (m0 & ? & _).
  - destruct (Hrow m eq_refl) as (? & ? & ?). eexists. split; [done|]. split; try done. intros id' Hp' Hx. destruct H2. assert (id' = id) as -> by congruence. by apply owns_creator.
  - destruct (Hrow m eq_refl) as (? & ? & ?). eexists. split; [done|]. split; try done. intros id' Hp' Hx. destruct (Hcr id' Hp' Hx) as (m0 & [= <-] & [Hl _] & _). congruence.
  - eexists. split; [done|]. split; try done; [by eapply entitled_known|]. intros id' Hp' Hx. by destruct (Hcr id' Hp' Hx) as (m0 & ? & _).
  - destruct (Hrow m eq_refl) as (? & ? & ?). eexists. split; [done|]. split; try done. intros id' Hp' Hx. destruct (Hcr id' Hp' Hx) as (m0 & [= <-] & Hr & _). exact Hr.
Qed.

(** Channels and groups whose creator, origin and number of admins stay *)
Definition kept_channel (o o' : option Channel) : Prop :=
  match o, o' with
  | Some c, Some c' => creator_id (ch c') = creator_id (ch c) /\ ch_admins_count c' = ch_admins_count c /\ ch_migrated_from c' = ch_migrated_from c
  | None, None => True | _, _ => False end.
Definition kept_group (o o' : option Group) : Prop :=
  match o, o' with Some g, Some g' => creator_id (gr g') = creator_id (gr g) | None, None => True | _, _ => False end.
Definition places_kept (d d' : MembersDb) : Prop :=
  next_channel d' = next_channel d /\ (forall id, kept_channel (channels d !! id) (channels d' !! id)) /\
  next_group d' = next_group d /\ (forall g, kept_group (groups d !! g) (groups d' !! g)) /\ privacy_kept d d'.
Definition places_known (d d' : MembersDb) : Prop := forall k i, invites d' !! k = Some i -> known (iv_place i) d.

Lemma kept_channel_refl o : kept_channel o o.
Proof. by destruct o. Qed.
Lemma kept_group_refl o : kept_group o o.
Proof. by destruct o. Qed.
Lemma places_same d d' : channels d' = channels d -> next_channel d' = next_channel d -> groups d' = groups d -> next_group d' = next_group d -> m_privacy d' = m_privacy d -> places_kept d d'.
Proof. intros Ec En Eg Eng Ep. unfold places_kept. rewrite Ec, En, Eg, Eng. split_and!; try done; [intros; apply kept_channel_refl|intros; apply kept_group_refl|by apply privacy_refl]. Qed.
Lemma known_same d d' : membership_ok d -> invites d' = invites d -> places_known d d'.
Proof. intros Hd E k i. rewrite E. apply (mo_invites d Hd). Qed.

Lemma kept_back o c' : kept_channel o (Some c') -> exists c, o = Some c /\ creator_id (ch c') = creator_id (ch c) /\ ch_admins_count c' = ch_admins_count c /\
  ch_migrated_from c' = ch_migrated_from c.
Proof. destruct o as [c|]; [|done]. intros H. by exists c. Qed.
Lemma kept_forth c o' : kept_channel (Some c) o' -> exists c', o' = Some c' /\ creator_id (ch c') = creator_id (ch c).
Proof. destruct o' as [c'|]; [|done]. intros (H & _). by exists c'. Qed.
Lemma group_back o g' : kept_group o (Some g') -> exists g, o = Some g /\ creator_id (gr g') = creator_id (gr g).
Proof. destruct o as [g|]; [|done]. intros H. by exists g. Qed.
Lemma group_forth g o' : kept_group (Some g) o' -> exists g', o' = Some g' /\ creator_id (gr g') = creator_id (gr g).
Proof. destruct o' as [g'|]; [|done]. intros H. by exists g'. Qed.
Lemma known_kept d d' p : places_kept d d' -> known p d -> known p d'.
Proof.
  intros (_ & Hk & _ & Hg & _) [b Hb]. unfold known. destruct p as [g|id]; cbn in *; apply fmap_Some in Hb as (x & Hx & _); rewrite ?fmap_is_Some.
  - specialize (Hg g). rewrite Hx in Hg. by destruct (group_forth _ _ Hg) as (g' & -> & _).
  - specialize (Hk id). rewrite Hx in Hk. by destruct (kept_forth _ _ Hk) as (c' & -> & _).
Qed.

Section Rows.
Context (d d' : MembersDb) (Hd : membership_ok d) (Hk : places_kept d d') (Hi : places_known d d').
Context (Hrows : forall p u, member_of p u d' = member_of p u d \/ mchange d now user p u (member_of p u d) (member_of p u d')).

Lemma rows_quiet p u : member_of p u d' = member_of p u d \/ (exists m', member_of p u d' = Some m' /\ quiet d p u (member_of p u d) m') \/
  member_of p u d' = None /\ exists g, p = InChat g.
Proof using Hd Hrows. destruct (Hrows p u) as [?|Hc]; [by left|right]. by apply mchange_quiet in Hc. Qed.

Lemma rows_admins_channel id : admins (InChannel id) d' = admins (InChannel id) d.
Proof using Hd Hrows.
  apply count_ext.
  - intros u m Hm. destruct (rows_quiet (InChannel id) u) as [E|[(m' & E & Q)|[_ [g [=]]]]]; unfold member_of in *; [exists m; by rewrite E|]. exists m'. split; [done|].
    rewrite Hm in Q. apply (qu_admin _ _ _ _ _ Q).
  - intros u m' Hm Ha. destruct (rows_quiet (InChannel id) u) as [E|[(m2 & E & Q)|[_ [g [=]]]]]; unfold member_of in *; [rewrite <- E; by exists m'|].
    assert (m2 = m') as -> by congruence. pose proof (qu_admin _ _ _ _ _ Q) as Ho. unfold admin_row in Ho. destruct (members d !! _); [done|congruence].
Qed.
Lemma rows_admins_group p : admins p d' <= admins p d.
Proof using Hd Hrows.
  apply count_mono. intros u m' Hm Ha. destruct (rows_quiet p u) as [E|[(m2 & E & Q)|[E _]]]; unfold member_of in *; [exists m'; by rewrite <- E| |congruence].
  assert (m2 = m') as -> by congruence. pose proof (qu_admin _ _ _ _ _ Q) as Ho. unfold admin_row in Ho. destruct (members d !! _) as [m|]; [exists m; split; [done|congruence]|congruence].
Qed.

Lemma rows_ok : membership_ok d'.
Proof using Hd Hk Hi Hrows.
  pose proof (known_kept d d') as Hkn. destruct Hk as (Hn & Hkc & Hng & Hkg & Hp). split.
  - intros id c' Hc. specialize (Hkc id). rewrite Hc in Hkc. destruct (kept_back _ _ Hkc) as (c & Hc0 & _). rewrite Hn. by eapply mo_below.
  - intros g b Hb. specialize (Hkg g). rewrite Hb in Hkg. destruct (group_back _ _ Hkg) as (b0 & Hb0 & _). rewrite Hng. by eapply mo_groups_below.
  - intros id c' Hc Hnat. specialize (Hkc id). rewrite Hc in Hkc. destruct (kept_back _ _ Hkc) as (c & Hc0 & Ecr & _ & Em). unfold native in Hnat. rewrite Em in Hnat. rewrite Ecr.
    destruct (mo_creator d Hd id c Hc0 Hnat) as (m & Hm & Hr).
    destruct (rows_quiet (InChannel id) (creator_id (ch c))) as [->|[(m' & -> & Q)|[_ [g [=]]]]]; [by exists m|]. exists m'. split; [done|].
    apply (qu_creator _ _ _ _ _ Q id eq_refl). by exists c.
  - intros p u m Hm. destruct (rows_quiet p u) as [E|[(m' & E & Q)|[E _]]]; rewrite E in Hm; [|simplify_eq|done].
    + destruct (mo_rows d Hd _ _ _ Hm) as (? & ? & ?). split_and!; [done..|by apply Hkn].
    + split_and!; [apply Q..|apply Hkn; [done|apply Q]].
  - intros k i Hki. apply Hkn; [done|by eapply Hi].
  - intros id c' Hc Hnat. specialize (Hkc id). rewrite Hc in Hkc. destruct (kept_back _ _ Hkc) as (c & Hc0 & _ & -> & Em). unfold native in Hnat. rewrite Em in Hnat.
    rewrite rows_admins_channel. by apply (mo_admins d Hd).
  - intros g b Hb. specialize (Hkg g). rewrite Hb in Hkg. destruct (group_back _ _ Hkg) as (b0 & Hb0 & _). etransitivity; [apply rows_admins_group|by eapply mo_group_admins].
  - destruct (Hp (mo_privacy d Hd)). done.
Qed.

Lemma rows_reasoned : reasoned now user d d'.
Proof using Hd Hk Hrows.
  destruct Hk as (Hn & Hkc & Hng & Hkg & Hp). split.
  - intros p u. destruct (Hrows p u) as [?|?]; [by left|by right; left].
  - intros id c Hc. specialize (Hkc id). rewrite Hc in Hkc. destruct (kept_forth _ _ Hkc) as (c' & ? & ?). exists c'. split; [done|by left].
  - intros id c Hnone Hc. specialize (Hkc id). by rewrite Hnone, Hc in Hkc.
  - intros g b Hb. specialize (Hkg g). rewrite Hb in Hkg. by apply group_forth in Hkg.
  - intros g b Hnone Hb. specialize (Hkg g). by rewrite Hnone, Hb in Hkg.
Qed.

Lemma good_rows {A} (r : result A) : good d (r, d').
Proof using Hd Hk Hi Hrows. split; [apply rows_ok|apply rows_reasoned]. Qed.
End Rows.

(** Changes of a channel or group that are not of its creator, and of one row *)
Lemma good_set {A} (r : result A) d p u m' : membership_ok d -> mchange d now user p u (member_of p u d) (Some m') -> good d (r, with_members (<[(make_id p, u) := m']> (members d)) d).
Proof.
  intros Hd Hc. apply good_rows; [done|by apply places_same|by apply known_same|]. intros q v. rewrite member_set.
  case_decide as H; [destruct H as [<- <-]; by right|by left].
Qed.
End Reasons.

(** Programs that change settings of channels, groups and invites, and nothing the theorems are about *)
Definition calm_change (d d' : MembersDb) : Prop :=
  members d' = members d /\ (forall k i, invites d' !! k = Some i -> exists k0 i0, invites d !! k0 = Some i0 /\ iv_place i0 = iv_place i) /\ places_kept d d'.
Definition calm {A} (m : MM A) : Prop := forall d, calm_change d (m d).2.

Lemma kept_channel_trans o1 o2 o3 : kept_channel o1 o2 -> kept_channel o2 o3 -> kept_channel o1 o3.
Proof. destruct o1, o2, o3; cbn; try done. intros (-> & -> & ->) (-> & -> & ->). done. Qed.
Lemma kept_group_trans o1 o2 o3 : kept_group o1 o2 -> kept_group o2 o3 -> kept_group o1 o3.
Proof. destruct o1, o2, o3; cbn; try done. by intros -> ->. Qed.
Lemma calm_refl d : calm_change d d.
Proof. split; [done|]. split; [intros k i Hk; by exists k, i|by apply places_same]. Qed.
Lemma calm_trans d1 d2 d3 : calm_change d1 d2 -> calm_change d2 d3 -> calm_change d1 d3.
Proof.
  intros (M1 & I1 & N1 & K1 & G1 & L1 & P1) (M2 & I2 & N2 & K2 & G2 & L2 & P2). split; [congruence|]. split; [|unfold places_kept; split_and!; [congruence| |congruence| |]].
  - intros k i (k1 & i1 & H1 & <-)%I2. by apply I1 in H1.
  - intros id. by eapply kept_channel_trans.
  - intros g. by eapply kept_group_trans.
  - by eapply privacy_trans.
Qed.
Lemma still_calm {A} (m : MM A) : still m -> calm m.
Proof.
  intros H d. destruct (H d) as (E1 & E2 & E3 & E4 & _ & E6 & E7 & Hp). split; [done|]. split; [rewrite E4; intros k i Hk; by exists k, i|].
  unfold places_kept. rewrite E2, E3, E6, E7. split_and!; first [done|intros; apply kept_channel_refl|intros; apply kept_group_refl].
Qed.
Lemma calm_bind {A B} (m : MM A) (f : A -> MM B) : calm m -> (forall a, calm (f a)) -> calm (m ≫= f).
Proof.
  intros Hm Hf d. specialize (Hm d). unfold mbind, M_bind. destruct (m d) as [[a|e] d1]; cbn [fst snd] in *; [|done]. eapply calm_trans; [done|apply Hf].
Qed.
Lemma calm_transaction {A} (m : MM A) : calm m -> calm (transaction m).
Proof. intros H d. specialize (H d). unfold transaction. destruct (m d) as [[a|e] d1]; [done|apply calm_refl]. Qed.
Lemma kept_alter (id : Z) f (cs : gmap Z Channel) : (forall c, kept_channel (Some c) (Some (f c))) -> forall i, kept_channel (cs !! i) (alter f id cs !! i).
Proof. intros Hf i. rewrite lookup_alter. case_decide; subst; destruct (cs !! i) as [c|]; cbn; try done. apply (Hf c). Qed.
Lemma calm_channels f : (forall cs id, kept_channel (cs !! id) (f cs !! id)) -> calm (modify (fun d => with_channels (f (channels d)) (next_channel d) d)).
Proof.
  intros Hf d. split; [done|]. split; [intros k i Hk; by exists k, i|]. unfold places_kept. split_and!; first [done|intros id; apply Hf|intros; apply kept_group_refl|by apply privacy_refl].
Qed.
Lemma calm_change_channel id f : (forall c, kept_channel (Some c) (Some (f c))) -> calm (change_channel id f).
Proof. intros Hf. apply (calm_channels (alter f id)). intros cs i. by apply kept_alter. Qed.
Lemma calm_group id f : (forall g, creator_id (gr (f g)) = creator_id (gr g)) -> calm (set_group id f).
Proof.
  intros Hf d. split; [done|]. split; [intros k i Hk; by exists k, i|]. unfold places_kept. split_and!; [done|intros; apply kept_channel_refl|done| |by apply privacy_refl].
  intros g. cbn. rewrite lookup_alter. case_decide; subst; destruct (groups d !! g) as [b|]; cbn; try done.
Qed.
Lemma calm_invites f : (forall d k i, invites (f d) !! k = Some i -> exists k0 i0, invites d !! k0 = Some i0 /\ iv_place i0 = iv_place i) ->
  (forall d, members (f d) = members d /\ next_channel (f d) = next_channel d /\ channels (f d) = channels d /\ groups (f d) = groups d /\ next_group (f d) = next_group d /\
    m_privacy (f d) = m_privacy d) -> calm (modify f).
Proof. intros Hf H d. destruct (H d) as (? & ? & ? & ? & ? & ?). split; [done|]. split; [apply Hf|by apply places_same]. Qed.
Lemma calm_requests f : (forall d, members (f d) = members d /\ invites (f d) = invites d /\ next_channel (f d) = next_channel d /\ channels (f d) = channels d /\ groups (f d) = groups d /\
  next_group (f d) = next_group d /\ m_privacy (f d) = m_privacy d) -> calm (modify f).
Proof. intros H. apply calm_invites; intros d; destruct (H d) as (? & Ei & ? & ? & ? & ? & ?); [|done]. rewrite Ei. intros k i Hk. by exists k, i. Qed.
Lemma calm_delete_requests p users : calm (delete_requests p users).
Proof. by apply calm_requests. Qed.

Lemma calm_known d d' : membership_ok d -> calm_change d d' -> places_known d d'.
Proof. intros Hd (_ & Hi & _) k i Hk. destruct (Hi k i Hk) as (k0 & i0 & Hk0 & <-). by eapply mo_invites. Qed.
Lemma calm_good {A} now user (m : MM A) d : calm m -> membership_ok d -> good now user d (m d).
Proof.
  intros H Hd. specialize (H d). destruct (m d) as [r d1]. cbn [snd] in *. apply good_rows; [done|apply H|by apply calm_known|]. intros p u. left. unfold member_of. by destruct H as (-> & _).
Qed.
(** A step that is calm after one that is good *)
Lemma good_calm {A B} now user d (r : result A) (r2 : result B) d1 d2 : good now user d (r, d1) -> calm_change d1 d2 -> good now user d (r2, d2).
Proof.
  intros [H1 H2] Hc. cbn [snd] in *. assert (good now user d1 (Ok tt, d2)) as [H3 _].
  { apply good_rows; [done|apply Hc|by apply calm_known|]. intros p u. left. unfold member_of. by destruct Hc as (-> & _). }
  split; [done|]. destruct Hc as (HM & _ & HN & HK & _ & HG & _). destruct H2 as [R1 R2 R3 R4 R5]. cbn [snd]. split.
  - intros p u. unfold member_of. rewrite HM. apply R1.
  - intros id c Hc. destruct (R2 id c Hc) as (c1 & Hc1 & Hor). specialize (HK id). rewrite Hc1 in HK. destruct (kept_forth _ _ HK) as (c2 & -> & Ecr). exists c2. by rewrite Ecr.
  - intros id c Hn Hc. specialize (HK id). rewrite Hc in HK. destruct (kept_back _ _ HK) as (c1 & E & -> & _ & ->). by eapply R3.
  - intros g b Hb. destruct (R4 g b Hb) as (b1 & Hb1 & E). specialize (HG g). rewrite Hb1 in HG. destruct (group_forth _ _ HG) as (b2 & -> & Ecr). exists b2. by rewrite Ecr.
  - intros g b Hn Hb. specialize (HG g). rewrite Hb in HG. destruct (group_back _ _ HG) as (b1 & E & ->). by eapply R5.
Qed.
Lemma good_then {A B} now user (m : MM A) (f : A -> MM B) d : good now user d (m d) -> (forall a, calm (f a)) -> good now user d ((m ≫= f) d).
Proof.
  intros H Hf. unfold mbind, M_bind. destruct (m d) as [[a|e] d1] eqn:E; [|exact H]. pose proof (Hf a d1) as Hc. destruct (f a d1) as [r d2]. by eapply good_calm.
Qed.
Lemma good_then2 {A B C} now user (m : MM A) (f : A -> MM B) (g : B -> MM C) d : good now user d ((m ≫= f) d) -> (forall b, calm (g b)) ->
  good now user d ((m ≫= fun a => f a ≫= g) d).
Proof.
  intros H Hg. assert ((m ≫= fun a => f a ≫= g) d = ((m ≫= f) ≫= g) d) as ->; [|by apply good_then].
  unfold mbind, M_bind. by destruct (m d) as [[a|e] d1].
Qed.
End Membership.

Ltac calm := repeat first [ apply still_calm; solve [still] | apply calm_bind; [|intros ?] | apply calm_transaction | apply calm_change_channel; by intros ? | apply calm_group; by intros ?
  | apply calm_delete_requests | case_match ].
Ltac reading x d1 E Hs Hd := apply good_read; [done|by still|intros x d1 E Hs Hd].
