(* ===== verification/MembershipChannels.v ===== *)
(** The handlers of [Members.v] and [Invites.v] keep the invariant of [Membership.v], and have its reasons for what they change. *)
From Stdlib Require Import Init.Byte.
From stdpp Require Import gmap.
From S2P Require Import Prelude PyBytes TlPrimitives AccessHash Privacy Peers Rights Utf16 Members Invites Groups Membership.

Section MembershipChannels.
Context (hmac_sha256 : bytes -> bytes) (payload : signed_kind -> Z -> Z -> Z -> bytes).
Context (basic_group_member_limit super_group_member_limit channels_per_user_limit basic_group_admin_limit channel_admin_limit : Z).
#[local] Abbreviation membership_ok := (membership_ok basic_group_admin_limit channel_admin_limit).
#[local] Abbreviation good := (good basic_group_admin_limit channel_admin_limit).

(** What the readings find *)
Lemma channel_found cx i id c d d1 : channel_raise hmac_sha256 payload cx i d = (Ok (id, c), d1) -> d1 = d /\ channels d !! id = Some c /\ deleted (ch c) = false.
Proof.
  unfold channel_raise, get_from_input, mbind, M_bind, get, mret, M_ret, lift_result, raise. destruct i as [| |u h|u|g|c0 h|]; try done.
  assert (forall o, o = (channels d !! norm_id c0 ≫= fun c => if deleted (ch c) then None else Some (norm_id c0, c)) -> o = Some (id, c) ->
    channels d !! id = Some c /\ deleted (ch c) = false) as Hf.
  { intros o -> Ho. destruct (channels d !! norm_id c0) as [c'|] eqn:E; cbn in Ho; [|done]. destruct (deleted (ch c')) eqn:Ed; [done|]. by injection Ho as <- <-. }
  destruct (h =? 0).
  - destruct (get_participant _ _ _ _); cbn; [|done]. case_match eqn:E; [|done]. intros [= -> <-]. split; [done|]. by eapply Hf.
  - destruct (check_access_hash _ _ _ _ _ _ _) as [[]|]; cbn; [|done..]. case_match eqn:E; [|done]. intros [= -> <-]. split; [done|]. by eapply Hf.
Qed.
Lemma participant_found p u msg d m d1 : get_participant_raise p u msg d = (Ok m, d1) -> d1 = d /\ get_participant p u false d = Some m.
Proof. unfold get_participant_raise, mbind, M_bind, get. destruct (get_participant p u false d) as [m'|]; by intros [= <- <-]. Qed.
Lemma participant_Some p u d m : get_participant p u false d = Some m -> member_of p u d = Some m /\ left (mb m) = false.
Proof.
  unfold get_participant. destruct (member_of p u d) as [m'|]; cbn; [|done]. destruct (left (mb m')) eqn:E; [done|]. by intros [= <-].
Qed.
Lemma participant_left p u d m : get_participant p u true d = Some m -> member_of p u d = Some m.
Proof. unfold get_participant. destruct (member_of p u d); by intros [= <-]. Qed.
Lemma participant_None p u d : get_participant p u false d = None -> match member_of p u d with Some m => left (mb m) = true | None => True end.
Proof. unfold get_participant. destruct (member_of p u d) as [m|]; cbn; [|done]. by destruct (left (mb m)). Qed.

Lemma good_set_member now user d p u m' : membership_ok d -> mchange d now user p u (member_of p u d) (Some m') -> good now user d (set_member p u m' d).
Proof. apply good_set. Qed.

Lemma calm_join_request cx i enabled : calm (toggle_join_request hmac_sha256 payload cx i enabled).
Proof. unfold toggle_join_request. calm. Qed.
Lemma calm_join_to_send cx i enabled : calm (toggle_join_to_send hmac_sha256 payload cx i enabled).
Proof. unfold toggle_join_to_send. calm. Qed.
Lemma calm_pre_history cx i enabled : calm (toggle_pre_history_hidden hmac_sha256 payload cx i enabled).
Proof. unfold toggle_pre_history_hidden. calm. Qed.

Lemma calm_unlink id c : calm (_unlink_channel_maybe id c).
Proof.
  unfold _unlink_channel_maybe. destruct (is_discussion c).
  - apply (calm_channels (fmap (unlink_discussion id))). intros cs i. rewrite lookup_fmap. destruct (cs !! i) as [x|]; cbn; [|done].
    unfold unlink_discussion. by case_bool_decide.
  - destruct (ch_discussion c) as [g|]; calm. apply calm_change_channel. intros x. unfold not_discussion. by destruct (kind (ch x)).
Qed.
Lemma calm_delete cx i : calm (delete_channel hmac_sha256 payload cx i).
Proof. unfold delete_channel. calm. apply calm_unlink. Qed.

Lemma user_found cx i msg t d d1 : user_of_input hmac_sha256 payload cx i msg d = (Ok t, d1) -> d1 = d /\ (t.1 = USER -> t.2 <> mx_user_id cx).
Proof.
  unfold user_of_input, lift_result. intros [= E <-]. split; [done|]. revert E. unfold type_and_id_from_input_raise, type_and_id_from_input.
  destruct i as [| |u h|u|g|c0 h|]; try discriminate; try (by intros [= <-]).
  - destruct (u =? mx_user_id cx) eqn:Eu; b2p; [by intros [= <-]|]. intros (o & (ok & _ & Ho)%result_bind_ok & Ht)%result_bind_ok.
    destruct ok; simplify_eq; done.
  - destruct (h =? 0); [by intros [= <-]|]. intros (o & (ok & _ & Ho)%result_bind_ok & Ht)%result_bind_ok. destruct ok; simplify_eq; done.
Qed.

Lemma good_edit_banned cx now r d : membership_ok d -> good now (mx_user_id cx) d (edit_banned hmac_sha256 payload cx now r d).
Proof.
  intros Hd. unfold edit_banned. reading x d1 E Hs Hd1. destruct x as [id channel]. apply channel_found in E as (-> & Hc & _).
  reading own d2 E Hs2 Hd2. apply participant_found in E as (-> & Hown). apply good_ensure; [done|]. intros Hr.
  reading t d3 E Hs3 Hd3. apply user_found in E as (-> & Ht). apply good_ensure; [done|]. intros Hu%bool_decide_eq_true. specialize (Ht Hu). apply good_get.
  assert (may d (mx_user_id cx) id Admin.BAN_USERS) as Hmay by (by exists channel, own).
  destruct (get_participant (InChannel id) t.2 true d) as [m|] eqn:Em.
  - apply participant_left in Em. destruct (_ =? _); [by apply good_halt|]. apply good_ensure; [done|]. intros Had. apply good_then; [|intros []; calm; apply calm_delete_requests].
    apply good_set_member; [done|]. rewrite Em. eapply mc_banned; try done. intros Ha. rewrite Ha in Had. exists channel. split; [done|]. destruct (_ =? _) eqn:Ecr; [by b2p|done].
  - assert (member_of (InChannel id) t.2 d = None) as En by (revert Em; unfold get_participant; by destruct (member_of _ _ _)).
    apply good_then; [|intros []; calm; apply calm_delete_requests]. apply good_set_member; [done|]. rewrite En. by eapply mc_banned_new.
Qed.

Lemma good_leave cx now i d : membership_ok d -> good now (mx_user_id cx) d (leave_channel hmac_sha256 payload cx i d).
Proof.
  intros Hd. unfold leave_channel. reading peer d1 E Hs Hd1. reading cid d2 E2 Hs2 Hd2. apply good_get. apply good_lift; [done|]. intros channel Hc.
  destruct (channels d2 !! cid) as [c|] eqn:Ec; [|done]. injection Hc as ->.
  apply good_ensure; [done|]. intros Hn. destruct (get_participant _ _ _ _) as [m|] eqn:Em; [|by apply good_halt]. apply participant_Some in Em as [Em _].
  apply good_tail; [|by still]. apply good_transaction; [done|]. apply good_then.
  - apply good_set_member; [done|]. rewrite Em. eapply mc_left; [done|done|]. intros (c & Hc' & E'). simplify_eq. b2p. congruence.
  - intros []. apply calm_bind; [|intros; calm]. apply calm_invites; [|done]. intros x k i'. cbn. rewrite lookup_fmap. intros (i0 & Hk & ->)%fmap_Some. exists k, i0. split; [done|]. by case_match.
Qed.

(** *** Joining *)
Lemma participant_gone p u d : get_participant p u false d = None -> forall m, member_of p u d = Some m -> left (mb m) = true.
Proof. intros H m Hm. apply participant_None in H. by rewrite Hm in H. Qed.

Lemma same_participant p u b d d1 : same_tables d d1 -> get_participant p u b d1 = get_participant p u b d.
Proof. intros (Em & _). unfold get_participant, member_of. by rewrite Em. Qed.

Lemma good_join now u p inv d : membership_ok d -> get_participant p u false d = None -> entitled d now u u p ->
  good now u d (user_join_chat_or_channel basic_group_member_limit super_group_member_limit channels_per_user_limit p u now inv d).
Proof.
  intros Hd Hout Hent. unfold user_join_chat_or_channel. apply good_get. do 2 (apply good_ensure; [done|]; intros _). apply good_tail; [|intros []; still].
  apply good_transaction; [done|]. reading x d1 E Hs Hd1. apply good_get. apply good_then; [|intros []; calm; apply calm_delete_requests].
  apply good_set_member; [done|]. apply (entitled_same _ _ d d1 _ _ (mo_privacy _ _ _ Hd) Hs) in Hent. rewrite <- (same_participant p u false d d1 Hs) in Hout.
  destruct (member_of p u d1) as [m|] eqn:Em; [|by apply mc_joined]. apply mc_rejoined; [|done]. by eapply participant_gone.
Qed.

Lemma find_invite_Some q f d k i : find_invite q f d = Some (k, i) -> invites d !! k = Some i /\ f i = true.
Proof.
  unfold find_invite. destruct (invites d !! q.1) as [i0|] eqn:E; [|done]. destruct (_ && f i0) eqn:Ef; [|done]. intros [= <- <-]. split; [done|]. by apply andb_true_iff in Ef as [_ ?].
Qed.
Lemma bind_Ok {A B} (m : MM A) (f : A -> MM B) d b d2 : (m ≫= f) d = (Ok b, d2) -> exists a d1, m d = (Ok a, d1) /\ f a d1 = (Ok b, d2).
Proof. unfold mbind, M_bind. destruct (m d) as [[a|e] d1]; [|done]. intros H. by exists a, d1. Qed.
Lemma ensure_Ok b e (d d1 : MembersDb) u : ensure b e d = (Ok u, d1) -> b = true /\ d1 = d.
Proof. destruct b; [by intros [= _ <-]|done]. Qed.

Lemma invite_checked now hash u d k i d1 : _get_invite_with_some_checks now hash u d = (Ok (k, i), d1) ->
  d1 = d /\ invites d !! k = Some i /\ iv_revoked i = false /\ expired now i = false /\ chat_migrated (iv_place i) d = false /\
  (forall id, iv_place i = InChannel id -> view_banned (iv_place i) u d = false).
Proof.
  unfold _get_invite_with_some_checks. intros (? & ? & [_ ->]%ensure_Ok & (q & ? & [= _ <-] & (? & ? & [= <- <-] & H)%bind_Ok)%bind_Ok)%bind_Ok.
  destruct (find_invite _ _ _) as [[k' i']|] eqn:E; [|done]. apply find_invite_Some in E as [Hi Hr]. b2p.
  apply bind_Ok in H as (? & ? & [_ ->]%ensure_Ok & (? & ? & [He ->]%ensure_Ok & (? & ? & [Hv ->]%ensure_Ok & [= <- <- <-])%bind_Ok)%bind_Ok).
  b2p. split_and!; try done. intros c Ec. by rewrite Ec in *.
Qed.
Lemma still_checked now hash u : still (_get_invite_with_some_checks now hash u).
Proof. unfold _get_invite_with_some_checks. still. Qed.
#[local] Hint Resolve still_checked : members.

Lemma good_import cx now hash d : membership_ok d ->
  good now (mx_user_id cx) d (import_chat_invite basic_group_member_limit super_group_member_limit channels_per_user_limit cx now hash d).
Proof.
  intros Hd. unfold import_chat_invite. reading x d1 E Hs Hd1. destruct x as [k i]. apply invite_checked in E as (-> & Hi & Hr & He & Hm & Hv). apply good_get.
  apply good_ensure; [done|]. intros Hn%negb_true_iff%bool_decide_eq_false. cbn [fst snd]. destruct (asks_for_request i d) eqn:Ea.
  - apply calm_good; [|done]. apply calm_bind; [|intros []; calm]. destruct (existsb _ _); [calm|]. apply calm_bind; [|intros []; calm]. by apply calm_requests.
  - apply good_join; [done|by apply eq_None_not_Some|]. left. split; [done|]. left. exists k, i. done.
Qed.

Lemma calm_check cx now hash : calm (check_chat_invite cx now hash).
Proof. unfold check_chat_invite. calm. Qed.

Lemma good_join_channel cx now i d : membership_ok d ->
  good now (mx_user_id cx) d (join_channel hmac_sha256 payload basic_group_member_limit super_group_member_limit channels_per_user_limit cx now i d).
Proof.
  intros Hd. unfold join_channel. reading x d1 E Hs Hd1. destruct x as [id channel]. apply channel_found in E as (-> & Hc & Hdel). apply good_get.
  reading u d1 E Hs1 Hd1'. assert (d1 = d /\ get_participant (InChannel id) (mx_user_id cx) false d = None /\ view_banned (InChannel id) (mx_user_id cx) d = false) as (-> & Hout & Hv).
  { unfold get_participant, view_banned. destruct (member_of _ _ d) as [m|].
    - apply bind_Ok in E as (? & ? & [Hl ->]%ensure_Ok & [Hv ->]%ensure_Ok). cbn. rewrite Hl. split_and!; [done..|]. by rewrite Hv.
    - by injection E as _ <-. }
  reading v d1 E2 Hs2 Hd2. assert (d1 = d /\ open_channel d (mx_user_id cx) id) as (-> & Hopen).
  { unfold open_channel. destruct (ch_username channel) eqn:Eu; [injection E2 as _ <-; split; [done|]; exists channel; split_and!; try done; by left|].
    apply bind_Ok in E2 as (? & ? & [Hdis ->]%ensure_Ok & E2). destruct (map_to_list _) as [|[l lc] [|]] eqn:El; try done.
    apply ensure_Ok in E2 as [Hcan ->]. split; [done|]. exists channel. split_and!; try done. right. split; [done|]. exists l, lc.
    assert ((l, lc) ∈ map_to_list (filter (fun kc => deleted (ch kc.2) = false /\ ch_discussion kc.2 = Some id) (channels d))) as Hin by (rewrite El; by apply list_elem_of_singleton).
    apply elem_of_map_to_list, map_lookup_filter_Some in Hin as [? [? ?]]. done. }
  apply good_join; [done|done|]. left. split; [done|]. right. exists id. done.
Qed.

(** *** Changes of rank *)
(** What is left besides members and channels *)
Definition others_same (d d' : MembersDb) : Prop := invites d' = invites d /\ groups d' = groups d /\ next_group d' = next_group d /\ m_privacy d' = m_privacy d.

Section Ranked.
Context (now user : Z) (d d' : MembersDb) (id : Z) (c c' : Channel).
Context (Hd : membership_ok d) (Hc : channels d !! id = Some c) (Ec : channels d' = <[id := c']> (channels d)) (En : next_channel d' = next_channel d) (Ho : others_same d d').
Context (Hnat : ch_migrated_from c' = ch_migrated_from c) (Ha : ch_admins_count c' = admins (InChannel id) d') (Hlim : native c -> admins (InChannel id) d' <= channel_admin_limit).
Context (Hcr : native c -> exists m, member_of (InChannel id) (creator_id (ch c')) d' = Some m /\ has_all_rights m).
Context (Hor : creator_id (ch c') = creator_id (ch c) \/ creator_id (ch c) = user).
Context (Helse : forall p u, p <> InChannel id -> member_of p u d' = member_of p u d).
Context (Hrows : forall u, member_of (InChannel id) u d' = member_of (InChannel id) u d \/
  rchange d now user (InChannel id) u (member_of (InChannel id) u d) (member_of (InChannel id) u d') /\
  exists m', member_of (InChannel id) u d' = Some m' /\ user_id (mb m') = u /\ 0 <= admin_rights (mb m')).

Lemma ranked_known p : known p d -> known p d'.
Proof using Ec Ho.
  destruct Ho as (_ & Eg & _). unfold known. destruct p as [g|j]; cbn; [by rewrite Eg|]. rewrite Ec, !fmap_is_Some. intros Hx.
  destruct (decide (j = id)) as [->|Hne]; [rewrite lookup_insert_eq; by eexists|by rewrite lookup_insert_ne].
Qed.
Lemma ranked_count p : p <> InChannel id -> admins p d' = admins p d.
Proof using Helse.
  intros Hne. apply count_ext; intros u m Hm.
  - exists m. split; [|done]. fold (member_of p u d'). by rewrite Helse.
  - intros _. exists m. fold (member_of p u d') in Hm. by rewrite Helse in Hm.
Qed.
Lemma ranked_ok : membership_ok d'.
Proof using Hd Hc Ec En Ho Hnat Ha Hlim Hcr Helse Hrows.
  pose proof ranked_known as Hkn. destruct Ho as (Ei & Eg & Eng & Ep). split.
  - intros j x. rewrite Ec, En. intros [[<- <-]|[Hne Hx]]%lookup_insert_Some; by eapply mo_below.
  - intros g b. rewrite Eg, Eng. apply (mo_groups_below _ _ d Hd).
  - intros j x. rewrite Ec. unfold native in *. intros [[<- <-]|[Hne Hx]]%lookup_insert_Some Hn; [apply Hcr; congruence|].
    destruct (mo_creator _ _ d Hd j x Hx Hn) as (m & ? & ?). exists m. rewrite Helse by congruence. done.
  - intros p u m Hm. destruct (decide (p = InChannel id)) as [->|Hne].
    + destruct (Hrows u) as [E|(_ & m' & E & Hu & H0)].
      * rewrite E in Hm. destruct (mo_rows _ _ d Hd _ _ _ Hm) as (? & ? & ?). split_and!; [done..|by apply Hkn].
      * simplify_eq. split_and!; [done..|]. apply Hkn. unfold known. cbn. by rewrite Hc.
    + rewrite Helse in Hm by done. destruct (mo_rows _ _ d Hd _ _ _ Hm) as (? & ? & ?). split_and!; [done..|by apply Hkn].
  - intros k i. rewrite Ei. intros Hk. by eapply Hkn, mo_invites.
  - intros j x. rewrite Ec. unfold native in *. intros [[<- <-]|[Hne Hx]]%lookup_insert_Some Hn; [split; [apply Hlim; congruence|by left]|].
    rewrite ranked_count by congruence. by apply (mo_admins _ _ d Hd).
  - intros g b. rewrite Eg, ranked_count by done. apply (mo_group_admins _ _ d Hd).
  - unfold privacy_ok. rewrite Ep. apply (mo_privacy _ _ d Hd).
Qed.
Lemma good_ranked {A} (r : result A) : good now user d (r, d').
Proof using Hd Hc Ec En Ho Hnat Ha Hlim Hcr Hor Helse Hrows.
  split; [apply ranked_ok|]. destruct Ho as (_ & Eg & _). split; cbn [snd].
  - intros p u. destruct (decide (p = InChannel id)) as [->|Hne]; [|left; by apply Helse]. destruct (Hrows u) as [?|[? _]]; [by left|by right; right].
  - intros j x Hx. rewrite Ec. destruct (decide (j = id)) as [->|Hne].
    + rewrite lookup_insert_eq. exists c'. split; [done|]. by simplify_eq.
    + rewrite lookup_insert_ne by done. exists x. split; [done|by left].
  - intros j x Hn. rewrite Ec. intros [[<- <-]|[Hne Hx]]%lookup_insert_Some; congruence.
  - intros g b. rewrite Eg. intros Hb. by exists b.
  - intros g b. rewrite Eg. congruence.
Qed.
End Ranked.

Lemma alter_Some (id : Z) (f : Channel -> Channel) (cs : gmap Z Channel) c : cs !! id = Some c -> alter f id cs = <[id := f c]> cs.
Proof. intros H. apply map_eq. intros j. destruct (decide (id = j)) as [<-|Hne]; by rewrite ?lookup_alter_eq, ?lookup_insert_eq, ?lookup_alter_ne, ?lookup_insert_ne, ?H. Qed.

Definition synced (n : Z) (c : Channel) : Channel :=
  MkChannel (ch c) (ch_supergroup c) (ch_history c) (ch_join_request c) (ch_username c) (ch_discussion c) n (ch_migrated_from c) (ch_no_forwards c).

Lemma good_promote now user d id c u m m' : membership_ok d -> channels d !! id = Some c -> member_of (InChannel id) u d = Some m ->
  rchange d now user (InChannel id) u (Some m) (Some m') -> user_id (mb m') = u -> 0 <= admin_rights (mb m') -> (creator_id (ch c) = u -> has_all_rights m') ->
  (native c -> is_admin (mb m') = true -> is_admin (mb m) = false -> admins (InChannel id) d < channel_admin_limit) ->
  good now user d ((set_member (InChannel id) u m' ;; sync_admins_count id) d).
Proof.
  intros Hd Hc Hm Hch Hu H0 Hcr Hlim. set (d1 := with_members (<[(make_id (InChannel id), u) := m']> (members d)) d).
  assert (native c -> admins (InChannel id) d1 <= channel_admin_limit) as Hle.
  { intros Hn. specialize (Hlim Hn). unfold admins, d1. rewrite count_insert, Hm. destruct (mo_admins _ _ d Hd id c Hc Hn) as [Hmax _]. unfold admins in *.
    destruct (is_admin (mb m')) eqn:E1, (is_admin (mb m)) eqn:E2; cbn; lia. }
  eapply (good_ranked now user d _ id c (synced (admins (InChannel id) d1) c)); [done|done|apply alter_Some; exact Hc|done|done|done|done|exact Hle| |by left| |].
  - intros Hn. destruct (decide (u = creator_id (ch c))) as [->|Hne].
    + exists m'. split; [|by apply Hcr]. change (member_of (InChannel id) (creator_id (ch c)) d1 = Some m'). unfold d1. rewrite member_set. by rewrite decide_True.
    + destruct (mo_creator _ _ d Hd id c Hc Hn) as (mc & Hmc & Hr). exists mc. split; [|done]. change (member_of (InChannel id) (creator_id (ch c)) d1 = Some mc).
      unfold d1. rewrite member_set, decide_False; [done|naive_solver].
  - intros p v Hp. change (member_of p v d1 = member_of p v d). unfold d1. rewrite member_set, decide_False; [done|]. intros [<- _]. done.
  - intros v. change (member_of (InChannel id) v d1 = member_of (InChannel id) v d \/ rchange d now user (InChannel id) v (member_of (InChannel id) v d) (member_of (InChannel id) v d1) /\
      exists m', member_of (InChannel id) v d1 = Some m' /\ user_id (mb m') = v /\ 0 <= admin_rights (mb m')).
    unfold d1. rewrite member_set. case_decide as H; [|by left]. destruct H as [_ <-]. right. rewrite Hm. split; [done|]. by exists m'.
Qed.

Lemma subflags_land a b : Z.land a (Z.lnot b) = 0 -> subflags a b.
Proof.
  intros H. unfold subflags. apply Z.bits_inj'. intros n Hn. assert (Z.testbit (Z.land a (Z.lnot b)) n = false) as Hb by (rewrite H; apply Z.bits_0).
  rewrite Z.land_spec, Z.lnot_spec in Hb by done. rewrite Z.land_spec. by destruct (Z.testbit a n), (Z.testbit b n).
Qed.
Lemma subflags_lor a b : subflags b (Z.lor a b).
Proof. unfold subflags. apply Z.bits_inj'. intros n Hn. rewrite Z.land_spec, Z.lor_spec. by destruct (Z.testbit a n), (Z.testbit b n). Qed.

Lemma good_edit_admin cx now r d : 0 <= ea_admin_rights r -> membership_ok d -> good now (mx_user_id cx) d (edit_admin hmac_sha256 payload channel_admin_limit cx r d).
Proof.
  intros Hr0 Hd. unfold edit_admin. reading x d1 E Hs Hd1. destruct x as [id c]. apply channel_found in E as (-> & Hc & _).
  reading own d1 E Hs1 Hd2. apply participant_found in E as (-> & Hown). apply good_ensure; [done|]. intros Hadd.
  reading tp d1 E Hs2 Hd3. clear E. rewrite <- (same_participant _ _ _ _ _ Hs2) in Hown. destruct Hs2 as (_ & Ec & _). rewrite <- Ec in Hc. clear d Hd Hs Hd1 Hs1 Hd2 Ec.
  rename d1 into d, Hd3 into Hd. apply good_lift; [done|]. intros target _. apply good_ensure; [done|]. intros Hcreator. apply good_get.
  destruct (get_participant (InChannel id) target false d) as [m|] eqn:Em; [|by apply good_halt]. apply participant_Some in Em as [Em Hl].
  apply good_ensure; [done|]. intros Hfull. set (a := if target =? creator_id (ch c) then Z.lor (ea_admin_rights r) CREATOR_RIGHTS else ea_admin_rights r).
  assert (0 <= a) as Ha by (unfold a; destruct (_ =? _); [by apply Z.lor_nonneg|done]).
  apply good_ensure; [done|]. intros Hsub. destruct (_ && bool_decide _); [by apply good_halt|].
  apply good_then2; [|intros []; calm]. destruct (mo_rows _ _ d Hd _ _ _ Em) as (Hu & Hr & _).
  assert (creator_id (ch c) = target -> subflags CREATOR_RIGHTS a) as Hall by (intros E; unfold a; rewrite (proj2 (Z.eqb_eq _ _)) by done; apply subflags_lor).
  apply (good_promote _ _ d id c target m); [done..| |done|done|by split; [|apply Hall]|].
  - eapply (rc_admin _ _ _ _ _ id); [done|by exists c, own|done| |].
    + destruct (mx_user_id cx =? creator_id (ch c)) eqn:Ecr; b2p; [left; by exists c|right]. exists own. split; [done|]. apply subflags_land.
      destruct (Z.land _ _ =? 0) eqn:Ez; b2p; done.
    + intros (c' & Hc' & Ecr). assert (c' = c) as -> by congruence. split; [|by apply Hall]. rewrite Ecr, Z.eqb_refl in Hcreator. b2p. destruct (_ =? _) eqn:Et in Hcreator; by b2p.
  - cbn. unfold is_admin at 1. cbn. intros Hn Hpos Hna. destruct (mo_admins _ _ d Hd id c Hc Hn) as [_ [Hsync|]]; [|done]. rewrite Hna in Hfull.
    assert (0 <? ea_admin_rights r = true) as Hp.
    { revert Hpos. unfold a. destruct (target =? creator_id (ch c)) eqn:Et; [|done]. b2p. destruct (creator_row _ _ d target id Hd) as (mc & Hmc & _ & Had); [by exists c|]. congruence. }
    rewrite Hp in Hfull. cbn in Hfull. b2p. lia.
Qed.

(** The tables after a channel is handed over *)
Definition with_member (p : place) (u : Z) (m : Member) (d : MembersDb) : MembersDb := with_members (<[(make_id p, u) := m]> (members d)) d.
Definition handed_over (id user v n version_ : Z) (own' m' : Member) (d : MembersDb) : MembersDb :=
  let d1 := with_member (InChannel id) v m' (with_member (InChannel id) user own' d) in
  with_channels (alter (synced n) id (alter (set_base (set_creator v version_)) id (channels d))) (next_channel d) d1.

Lemma good_succeed {A} (r : result A) now d id c v own m rank by_ rank' by' version_ : membership_ok d -> channels d !! id = Some c -> v <> creator_id (ch c) ->
  get_participant (InChannel id) (creator_id (ch c)) false d = Some own -> get_participant (InChannel id) v false d = Some m ->
  let user := creator_id (ch c) in
  let own' := set_admin 0 rank by_ own in
  let m' := set_admin CREATOR_RIGHTS rank' by' m in
  let n := admins (InChannel id) (with_member (InChannel id) v m' (with_member (InChannel id) user own' d)) in
  good now user d (r, handed_over id user v n version_ own' m' d).
Proof.
  intros Hd Hc Hne [Eown Hlo]%participant_Some [Em Hl]%participant_Some user own' m' n. fold user in Hne, Eown. set (c' := set_base (set_creator v version_) c).
  assert (is_creator d user id) as Hic by (by exists c).
  destruct (mo_rows _ _ d Hd _ _ _ Eown) as (Hou & Hor & _). destruct (mo_rows _ _ d Hd _ _ _ Em) as (Hvu & Hvr & _).
  set (d0 := with_member (InChannel id) user own' d) in n. assert (forall p w, member_of p w (handed_over id user v n version_ own' m' d) =
    if decide (InChannel id = p /\ v = w) then Some m' else if decide (InChannel id = p /\ user = w) then Some own' else member_of p w d) as Hrow.
  { intros p w. transitivity (member_of p w (with_member (InChannel id) v m' d0)); [done|]. unfold d0, with_member. by rewrite !member_set. }
  apply (good_ranked now user d _ id c (synced n c')); try done.
  - cbn. by rewrite (alter_Some id _ _ _ Hc), alter_insert_eq.
  - intros Hn. change (n <= channel_admin_limit). destruct (creator_row _ _ d user id Hd) as (o & Ho & _ & Hoa); [by exists c|]. destruct (mo_admins _ _ d Hd id c Hc Hn) as [Hmax _].
    assert (o = own) as -> by (unfold user in *; congruence). unfold n, admins, with_member. rewrite count_insert. unfold d0 at 2, with_member. rewrite member_set, decide_False by naive_solver. rewrite Em.
    unfold d0, with_member. rewrite count_insert, Eown, Hoa. unfold admins in Hmax. change (is_admin (mb own')) with false. cbn [b2z].
    destruct (is_admin (mb m')), (is_admin (mb m)); cbn [b2z]; lia.
  - intros _. exists m'. change (creator_id (ch (synced n c'))) with v. rewrite Hrow, decide_True by done. split; [done|]. split; [done|]. apply Z.land_diag.
  - by right.
  - intros p w Hp. rewrite Hrow, !decide_False by naive_solver. done.
  - intros w. rewrite Hrow. case_decide as H1; [destruct H1 as [_ <-]|case_decide as H2; [destruct H2 as [_ <-]|by left]].
    + right. rewrite Em. split; [by eapply rc_succeeded|]. by exists m'.
    + right. rewrite Eown. split; [by eapply rc_resigned|]. by exists own'.
Qed.

Lemma good_edit_creator cx now pw i target d : membership_ok d -> good now (mx_user_id cx) d (edit_creator hmac_sha256 payload cx pw i target d).
Proof.
  intros Hd. unfold edit_creator. set (user := mx_user_id cx). reading x d1 E Hs Hd1. destruct x as [id c]. apply channel_found in E as (-> & Hc & _).
  apply good_ensure; [done|]. intros Hcr. b2p. apply good_get. destruct (get_participant (InChannel id) user false d) as [own|] eqn:Eown; [|by apply good_halt].
  apply good_lift; [done|]. intros _ _. reading t d1 E Hs1 Hd2. apply user_found in E as (-> & Ht).
  apply good_ensure; [done|]. intros Hu%bool_decide_eq_true. specialize (Ht Hu). destruct t as [ty v]. cbn [fst snd] in *. fold user in Ht. apply good_get.
  destruct (get_participant (InChannel id) v false d) as [m|] eqn:Em; [|by apply good_halt].
  apply good_tail; [|intros []; still]. apply good_transaction; [done|]. rewrite <- Hcr in *.
  set (own' := set_admin 0 _ _ own). set (m' := set_admin CREATOR_RIGHTS _ _ m).
  change (good now (creator_id (ch c)) d (((fun d => (Ok tt, handed_over id (creator_id (ch c)) v (admins (InChannel id) (with_member (InChannel id) v m' (with_member (InChannel id) (creator_id (ch c)) own' d)))
    (version (ch c) + 1) own' m' d)) ≫= fun _ : unit => _unlink_channel_maybe id c) d)).
  apply good_then; [|intros []; apply calm_unlink]. by apply good_succeed.
Qed.

(** *** A new channel *)
Lemma fresh_channel d : membership_ok d -> channels d !! next_channel d = None /\ forall u, member_of (InChannel (next_channel d)) u d = None.
Proof.
  intros Hd. assert (channels d !! next_channel d = None) as Hn by (apply eq_None_not_Some; intros [c Hc]; apply (mo_below _ _ d Hd) in Hc; lia).
  split; [done|]. intros u. apply eq_None_not_Some. intros [m Hm]. destruct (mo_rows _ _ d Hd _ _ _ Hm) as (_ & _ & Hk). unfold known in Hk. cbn in Hk. by rewrite Hn in Hk; destruct Hk.
Qed.

Section NewChannel.
Context (now user : Z) (d d' : MembersDb) (c : Channel).
#[local] Abbreviation id := (next_channel d).
Context (Hd : membership_ok d) (Ec : channels d' = <[id := c]> (channels d)) (En : next_channel d' = id + 1) (Eng : next_group d' = next_group d) (Ep : m_privacy d' = m_privacy d).
Context (Hkg : forall g, kept_group (groups d !! g) (groups d' !! g)) (Hi : places_known d d').
Context (Hnew : native c -> admins (InChannel id) d' <= channel_admin_limit /\ ch_admins_count c = admins (InChannel id) d' /\
  exists m, member_of (InChannel id) (creator_id (ch c)) d' = Some m /\ has_all_rights m).
Context (Hor : creator_id (ch c) = user \/
  exists g b, ch_migrated_from c = Some g /\ groups d !! g = Some b /\ creator_id (ch c) = creator_id (gr b) /\ rules_group d user g).
Context (Helse : forall p u, p <> InChannel id -> member_of p u d' = member_of p u d).
Context (Hrows : forall u, member_of (InChannel id) u d' = None \/ rchange d now user (InChannel id) u None (member_of (InChannel id) u d') /\
  exists m', member_of (InChannel id) u d' = Some m' /\ user_id (mb m') = u /\ 0 <= admin_rights (mb m')).

Lemma new_known p : known p d -> known p d'.
Proof using Hd Ec Hkg.
  destruct (fresh_channel d Hd) as [Hnone _]. unfold known. destruct p as [g|j]; cbn; rewrite !fmap_is_Some.
  - intros [b Hb]. specialize (Hkg g). rewrite Hb in Hkg. by destruct (group_forth _ _ Hkg) as (b' & -> & _).
  - intros [x Hx]. rewrite Ec, lookup_insert_ne; [by eexists|]. intros E. by rewrite E, Hx in Hnone.
Qed.
Lemma new_count p : p <> InChannel id -> admins p d' = admins p d.
Proof using Helse.
  intros Hne. apply count_ext; intros u m Hm.
  - exists m. split; [|done]. fold (member_of p u d'). by rewrite Helse.
  - intros _. exists m. fold (member_of p u d') in Hm. by rewrite Helse in Hm.
Qed.
Lemma new_ok : membership_ok d'.
Proof using Hd Ec En Eng Ep Hkg Hi Hnew Helse Hrows.
  pose proof new_known as Hkn. destruct (fresh_channel d Hd) as [Hnone _]. split.
  - intros j x. rewrite Ec, En. intros [[<- <-]|[Hne Hx]]%lookup_insert_Some; [lia|]. apply (mo_below _ _ d Hd) in Hx. lia.
  - intros g b Hb. specialize (Hkg g). rewrite Hb in Hkg. destruct (group_back _ _ Hkg) as (b0 & Hb0 & _). rewrite Eng. by eapply mo_groups_below.
  - intros j x. rewrite Ec. intros [[<- <-]|[Hne Hx]]%lookup_insert_Some Hn; [by apply Hnew|].
    destruct (mo_creator _ _ d Hd j x Hx Hn) as (m & ? & ?). exists m. rewrite Helse by congruence. done.
  - intros p u m Hm. destruct (decide (p = InChannel id)) as [->|Hne].
    + destruct (Hrows u) as [E|(_ & m' & E & Hu & H0)]; [congruence|]. simplify_eq. split_and!; [done..|]. unfold known. cbn. rewrite Ec, lookup_insert_eq. by eexists.
    + rewrite Helse in Hm by done. destruct (mo_rows _ _ d Hd _ _ _ Hm) as (? & ? & ?). split_and!; [done..|by apply Hkn].
  - intros k i Hk. apply Hkn. by eapply Hi.
  - intros j x. rewrite Ec. intros [[<- <-]|[Hne Hx]]%lookup_insert_Some Hn; [destruct (Hnew Hn) as (? & ? & _); split; [done|by left]|].
    rewrite new_count by congruence. by apply (mo_admins _ _ d Hd).
  - intros g b Hb. specialize (Hkg g). rewrite Hb in Hkg. destruct (group_back _ _ Hkg) as (b0 & Hb0 & _). rewrite new_count by done. by eapply mo_group_admins.
  - unfold privacy_ok. rewrite Ep. apply (mo_privacy _ _ d Hd).
Qed.
Lemma good_new_channel {A} (r : result A) : good now user d (r, d').
Proof using Hd Ec En Eng Ep Hkg Hi Hnew Hor Helse Hrows.
  split; [apply new_ok|]. destruct (fresh_channel d Hd) as [Hnone Hnorows]. split; cbn [snd].
  - intros p u. destruct (decide (p = InChannel id)) as [->|Hne]; [|left; by apply Helse]. rewrite Hnorows. destruct (Hrows u) as [?|[? _]]; [by left|by right; right].
  - intros j x Hx. rewrite Ec. exists x. rewrite lookup_insert_ne; [by split; [|left]|]. intros <-. congruence.
  - intros j x Hx. rewrite Ec. intros [[<- <-]|[Hne Hx']]%lookup_insert_Some; [done|congruence].
  - intros g b Hb. specialize (Hkg g). rewrite Hb in Hkg. by apply group_forth in Hkg.
  - intros g b Hn Hb. specialize (Hkg g). by rewrite Hn, Hb in Hkg.
Qed.
End NewChannel.

Lemma good_created {A} (r : result A) now user d d' c : 1 <= channel_admin_limit -> membership_ok d -> let id := next_channel d in
  let row := set_admin CREATOR_RIGHTS [] 0 (new_member user 0 now None None) in
  creator_id (ch c) = user -> channels d' = <[id := c]> (channels d) -> next_channel d' = id + 1 -> members d' = <[(make_id (InChannel id), user) := row]> (members d) ->
  others_same d d' -> ch_admins_count c = admins (InChannel id) d' -> good now user d (r, d').
Proof.
  intros Hlim Hd id row Hcr Ec En Em (Ei & Eg & Eng & Ep) Hn. destruct (fresh_channel d Hd) as [Hnone Hrows]. fold id in Hnone, Hrows.
  assert (forall p u, member_of p u d' = if decide (InChannel id = p /\ user = u) then Some row else member_of p u d) as Hrow.
  { intros p u. rewrite <- member_set. unfold member_of. by rewrite Em. }
  assert (admins (InChannel id) d' = 1) as Hone.
  { transitivity (admins (InChannel id) (with_members (<[(make_id (InChannel id), user):=row]> (members d)) d)); [unfold admins, count_members; by rewrite Em|].
    unfold admins. rewrite count_insert, Hrows. change (is_admin (mb row)) with true. cbn [b2z].
    rewrite count_none; [done|]. intros u m Hm. by rewrite Hrows in Hm. }
  apply (good_new_channel now user d d' c); try done.
  - intros g. rewrite Eg. apply kept_group_refl.
  - by apply (known_same basic_group_admin_limit channel_admin_limit).
  - intros _. fold id. rewrite Hone. split_and!; [done|congruence|]. exists row. rewrite Hrow, decide_True by naive_solver. split; [done|]. split; [done|]. apply Z.land_diag.
  - by left.
  - intros p u Hp. rewrite Hrow, decide_False; [done|]. intros [<- _]. done.
  - intros u. fold id. rewrite Hrow. case_decide as H; [|left; apply Hrows]. destruct H as [_ <-]. right. split; [by eapply rc_created|]. by exists row.
Qed.

Lemma on_peers_privacy {A} (m : D A) d : m_privacy (on_peers m d).2 = m_privacy d.
Proof. unfold on_peers. by destruct (m (peer_view d)). Qed.

Lemma good_create cx now enabled restricted r d : 1 <= channel_admin_limit -> membership_ok d -> good now (mx_user_id cx) d (create_channel cx now enabled restricted r d).
Proof.
  intros Hlim Hd. unfold create_channel. do 4 (apply good_ensure; [done|]; intros _). do 4 (apply good_ensure; [done|]; intros _).
  apply good_tail; [|intros; still]. unfold transaction. destruct (fresh_channel d Hd) as [Hnone Hrows].
  unfold _create_channel, get, modify, mret, M_ret, mbind, M_bind. set (c := MkChannel _ _ _ _ _ _ _ _ _). set (d0 := with_channels _ _ d).
  pose proof (still_on_peers (create_channel_peer (next_channel d)) d0) as Hs. pose proof (on_peers_privacy (create_channel_peer (next_channel d)) d0) as Hp.
  destruct (on_peers _ d0) as [[k|e] d1]; [|by apply good_halt]. cbn [snd] in Hs, Hp. destruct Hs as (Em & Ec & En & Ei & _ & Eg & Eng & _).
  unfold _add_user_to_channel, get, mbind, M_bind.
  assert (member_of (InChannel (next_channel d)) (mx_user_id cx) d1 = None) as -> by (unfold member_of; rewrite Em; apply Hrows).
  assert (channels d1 !! next_channel d = Some c) as Hc by (rewrite Ec; apply lookup_insert_eq). rewrite Hc. change (creator_id (ch c)) with (mx_user_id cx). rewrite Z.eqb_refl.
  unfold sync_admins_count, set_member, modify, emit.
  eapply (good_created _ now _ d _ (synced _ c)); [done|done|done| |exact En|cbn; by rewrite Em|by split_and!|reflexivity].
  cbn. rewrite Ec. apply alter_insert_eq.
Qed.

(** *** Inviting *)
Lemma still_invite_one cx rules counts n mm st i : still (invite_one hmac_sha256 payload super_group_member_limit channels_per_user_limit cx rules counts n mm st i).
Proof. unfold invite_one. still. Qed.
Lemma still_invite_all cx rules counts n mm l : forall st, still (invite_all hmac_sha256 payload super_group_member_limit channels_per_user_limit cx rules counts n mm st l).
Proof. induction l as [|i l IH]; intros st; cbn [invite_all]; [still|]. apply still_bind; [apply still_invite_one|done]. Qed.
Lemma still_user_ids cx l : still (input_user_ids hmac_sha256 payload cx l).
Proof. induction l as [|i l IH]; cbn [input_user_ids]; still. Qed.
#[local] Hint Resolve still_invite_all still_user_ids : members.

Lemma user_of_input_Ok cx i msg d t d1 : user_of_input hmac_sha256 payload cx i msg d = (Ok t, d1) ->
  d1 = d /\ type_and_id_from_input hmac_sha256 payload (mx_auth_id cx) (mx_user_id cx) i = Ok (Some t).
Proof.
  unfold user_of_input, lift_result, type_and_id_from_input_raise. intros [= E <-]. split; [done|]. apply result_bind_ok in E as (o & -> & Ho). by destruct o; simplify_eq.
Qed.

Lemma user_ids_read cx l : forall d, (input_user_ids hmac_sha256 payload cx l d).2 = d.
Proof.
  induction l as [|i l IH]; intros d; [done|]. cbn [input_user_ids]. unfold mbind, M_bind, user_of_input at 1, lift_result.
  destruct (type_and_id_from_input_raise _ _ _ _ _ _ _) as [t|]; [|done]. destruct (ensure _ _ d) as [[[]|e] d1] eqn:E; [|by destruct (bool_decide _) in E; injection E as _ <-].
  apply ensure_Ok in E as [_ ->]. specialize (IH d). destruct (input_user_ids _ _ _ _ d) as [[s|e] d1]; cbn in *; done.
Qed.
Lemma user_ids_hold cx l : forall d ids d1, input_user_ids hmac_sha256 payload cx l d = (Ok ids, d1) ->
  forall i t, i ∈ l -> type_and_id_from_input hmac_sha256 payload (mx_auth_id cx) (mx_user_id cx) i = Ok (Some t) -> t.2 = mx_user_id cx \/ t.2 ∈ ids.
Proof.
  induction l as [|j l IH]; intros d ids d1; cbn [input_user_ids]; [intros _ i t Hi; by apply elem_of_nil in Hi|].
  intros (t0 & d0 & [-> Ht0]%user_of_input_Ok & (? & ? & [_ ->]%ensure_Ok & (s & d2 & Hs & [= <- <-])%bind_Ok)%bind_Ok)%bind_Ok i t [->|Hi]%elem_of_cons Ht.
  - assert (t = t0) as -> by congruence. destruct (_ =? _) eqn:E; b2p; [by left|right; set_solver].
  - destruct (IH _ _ _ Hs i t Hi Ht) as [?|?]; [by left|right]. destruct (_ =? _); set_solver.
Qed.

Section Invited.
Context (d : MembersDb) (p : place) (user : Z) (rules : answers) (min_message : option Z).

(** What the handler has gathered: new rows for those that have none, old rows of those that left *)
Record gathered (st : InviteState) : Prop := {
  ga_existing : forall u m, is_existing st !! u = Some m -> exists m0, member_of p u d = Some m0 /\ (left (mb m) = true -> left (mb m0) = true);
  ga_create : forall u, u ∈ is_create st -> member_of p u d = None /\ (rules !! u ≫= fun m => m !! CHAT_INVITE) = Some true;
  ga_update : forall u, u ∈ is_update st -> exists m, member_of p u d = Some m /\ left (mb m) = true /\ (rules !! u ≫= fun m => m !! CHAT_INVITE) = Some true;
}.

Definition knows (st : InviteState) (u : Z) : Prop := is_existing st !! u = None -> member_of p u d = None.

Lemma gathered_one cx counts n (ids : gset Z) st st' i d0 d1 : mx_user_id cx = user -> gathered st -> (forall u, u ∈ ids -> knows st u) ->
  (forall t, type_and_id_from_input hmac_sha256 payload (mx_auth_id cx) (mx_user_id cx) i = Ok (Some t) -> t.2 = mx_user_id cx \/ t.2 ∈ ids) ->
  invite_one hmac_sha256 payload super_group_member_limit channels_per_user_limit cx rules counts n min_message st i d0 = (Ok st', d1) ->
  gathered st' /\ forall u, u ∈ ids -> knows st' u.
Proof.
  intros Hu Hg Hk Hi (t & ? & [-> Ht]%user_of_input_Ok & H)%bind_Ok. specialize (Hi t Ht). cbv zeta in H. revert H. destruct (t.2 =? mx_user_id cx) eqn:Es; [by intros [= <- _]|]. b2p.
  destruct Hi as [?|Hin]; [done|]. destruct (match is_existing st !! t.2 with Some m => _ | None => _ end) eqn:Eex; [by intros [= <- _]|].
  intros (b & ? & [= Hrule <-] & H)%bind_Ok. destruct (rules !! t.2) as [rm|] eqn:Erm; [|done]. destruct (rm !! CHAT_INVITE) as [b'|] eqn:Eb; [|done]. injection Hrule as ->.
  destruct b; cbn [negb] in H; [|injection H as <- _; split; [split; apply Hg|done]].
  destruct (channels_per_user_limit <=? _); [injection H as <- _; split; [split; apply Hg|done]|].
  destruct (super_group_member_limit <=? _); [done|]. assert ((rules !! t.2 ≫= fun m => m !! CHAT_INVITE) = Some true) as Hyes by (by rewrite Erm).
  destruct Hg as [G1 G2 G3]. destruct (is_existing st !! t.2) as [m|] eqn:Em; injection H as <- _.
  - destruct (G1 _ _ Em) as (m0 & Hm0 & Hl0). assert (left (mb m) = true) as Hl by (by destruct (left (mb m))). split; [split; cbn|].
    + intros u x. intros [[<- <-]|[Hne Hx]]%lookup_insert_Some; [by exists m0|by eapply G1].
    + exact G2.
    + intros u [?| ->%list_elem_of_singleton]%elem_of_app; [by apply G3|]. exists m0. split_and!; [done|by apply Hl0|done].
    + intros u Hul. unfold knows. cbn. intros [Hx _]%lookup_insert_None. by apply Hk.
  - split; [split; cbn; [exact G1| |exact G3]|exact Hk]. intros u [?| ->%list_elem_of_singleton]%elem_of_app; [by apply G2|]. split; [by apply Hk|done].
Qed.

Lemma gathered_all cx counts n (ids : gset Z) l : mx_user_id cx = user ->
  (forall i t, i ∈ l -> type_and_id_from_input hmac_sha256 payload (mx_auth_id cx) (mx_user_id cx) i = Ok (Some t) -> t.2 = mx_user_id cx \/ t.2 ∈ ids) ->
  forall st st' d0 d1, gathered st -> (forall u, u ∈ ids -> knows st u) ->
  invite_all hmac_sha256 payload super_group_member_limit channels_per_user_limit cx rules counts n min_message st l d0 = (Ok st', d1) -> gathered st'.
Proof.
  intros Hu. induction l as [|i l IH]; intros Hi st st' d0 d1 Hg Hk; cbn [invite_all]; [by intros [= <- _]|].
  intros (st1 & d2 & H1 & H2)%bind_Ok. destruct (gathered_one cx counts n ids st st1 i d0 d2) as [Hg1 Hk1]; [done..| |exact H1|].
  - intros t. apply Hi. apply elem_of_cons. by left.
  - eapply IH; [|exact Hg1|exact Hk1|exact H2]. intros j t Hj. apply Hi. apply elem_of_cons. by right.
Qed.

Lemma created_rows row us : forall d q v, member_of q v (create_members p row us d).2 =
  if decide (q = p /\ v ∈ us) then Some (default (row v) (member_of p v d)) else member_of q v d.
Proof.
  unfold create_members, modify. induction us as [|u us IH]; intros x q v; cbn [foldl snd].
  - rewrite decide_False; [done|]. intros [_ H]. by apply elem_of_nil in H.
  - set (ms := match members x !! (make_id p, u) with Some _ => members x | None => <[(make_id p, u):=row u]> (members x) end).
    specialize (IH (with_members ms x) q v). cbn [snd members with_members] in IH.
    transitivity (member_of q v (with_members (foldl (fun ms u => match ms !! (make_id p, u) with None => <[(make_id p, u) := row u]> ms | Some _ => ms end) ms us) (with_members ms x))); [done|].
    rewrite IH. assert (forall w, member_of p w (with_members ms x) = if decide (u = w) then Some (default (row w) (member_of p w x)) else member_of p w x) as Hms.
    { intros w. unfold ms. destruct (members x !! (make_id p, u)) as [m|] eqn:E; unfold member_of; cbn [members with_members].
      - destruct (decide (u = w)) as [<-|]; [by rewrite E|done].
      - destruct (decide (u = w)) as [<-|Hw]; [by rewrite lookup_insert_eq, E|]. rewrite lookup_insert_ne; [done|]. intros [=]. done. }
    destruct (decide (q = p)) as [->|Hq].
    + rewrite !Hms. repeat case_decide; subst; rewrite ?elem_of_cons in *; naive_solver.
    + rewrite !decide_False by naive_solver. unfold member_of. cbn [members with_members]. unfold ms. destruct (members x !! (make_id p, u)); [done|].
      rewrite lookup_insert_ne; [done|]. intros [= E%make_id_inj _]. congruence.
Qed.

Lemma rejoined_rows inviter us : forall d q v, member_of q v (rejoin_members p inviter min_message us d).2 =
  if decide (q = p /\ v ∈ us) then (fun m => set_joined inviter (mb_invite m) min_message m) <$> member_of p v d else member_of q v d.
Proof.
  unfold rejoin_members, modify. induction us as [|u us IH]; intros x q v; cbn [foldl snd].
  - rewrite decide_False; [done|]. intros [_ H]. by apply elem_of_nil in H.
  - set (ms := alter (fun m => set_joined inviter (mb_invite m) min_message m) (make_id p, u) (members x)).
    specialize (IH (with_members ms x) q v). cbn [snd members with_members] in IH.
    transitivity (member_of q v (with_members (foldl (fun ms u => alter (fun m => set_joined inviter (mb_invite m) min_message m) (make_id p, u) ms) ms us) (with_members ms x))); [done|].
    rewrite IH. unfold member_of, ms. cbn [members with_members]. rewrite !lookup_alter. destruct (decide (q = p)) as [->|Hq].
    + repeat case_decide; rewrite ?elem_of_cons in *; simplify_eq; try naive_solver. by destruct (members x !! _).
    + assert (make_id p <> make_id q) as Hk by (intros E%make_id_inj; congruence). repeat case_decide; naive_solver.
Qed.
End Invited.

Lemma map_of_omap {A} (f : Z -> option A) (l : list Z) u : (list_to_map (omap (fun u => (fun m => (u, m)) <$> f u) l) : gmap Z A) !! u = if decide (u ∈ l) then f u else None.
Proof.
  induction l as [|v l IH]; [done|]. cbn. destruct (f v) as [m|] eqn:E; cbn.
  - destruct (decide (u = v)) as [->|Hne]; [rewrite lookup_insert_eq, decide_True by (apply elem_of_cons; by left); done|].
    rewrite lookup_insert_ne, IH by done. repeat case_decide; rewrite ?elem_of_cons in *; naive_solver.
  - rewrite IH. repeat case_decide; rewrite ?elem_of_cons in *; naive_solver.
Qed.

(** The rows of those who are gathered are made, and made anew. *)
Lemma good_gathered now user d d1 p granted st min_message : membership_ok d -> membership_ok d1 -> same_tables d d1 -> gathered d p granted st ->
  (forall u, (granted !! u ≫= fun m => m !! CHAT_INVITE) = Some true -> entitled d now user u p) ->
  good now user d1 ((create_members p (fun u => new_member u user now min_message None) (is_create st) ;; rejoin_members p user min_message (is_update st)) d1).
Proof.
  intros Hd0 Hd Hs [G1 G2 G3] Hinv. apply good_rows; [done|by apply places_same|by eapply known_same|].
  intros q v. match goal with |- member_of q v ?x = _ \/ _ => change x with (rejoin_members p user min_message (is_update st) (create_members p (fun u => new_member u user now min_message None) (is_create st) d1).2).2 end.
  assert (member_of p v d1 = member_of p v d) as Hv by (unfold member_of; by destruct Hs as (-> & _)).
  assert (forall u, (granted !! u ≫= fun m => m !! CHAT_INVITE) = Some true -> entitled d1 now user u p) as Hent.
  { intros u Hu. apply (entitled_same _ _ d d1 _ _ (mo_privacy _ _ _ Hd0) Hs). by apply Hinv. }
  rewrite rejoined_rows, !created_rows. destruct (decide (q = p)) as [->|Hq]; [|left; by rewrite !decide_False by naive_solver].
  destruct (decide (v ∈ is_update st)) as [Hup|Hup].
  - destruct (G3 v Hup) as (m & Hm & Hl & Hr). rewrite decide_True by done. rewrite decide_False by (intros [_ Hcr]; apply G2 in Hcr as [Hcr _]; congruence).
    rewrite Hv, Hm. right. apply mc_rejoined; [done|by apply Hent].
  - rewrite decide_False by naive_solver. case_decide as Hcr; [|by left]. destruct Hcr as [_ Hcr]. destruct (G2 v Hcr) as [Hn Hr]. rewrite Hv, Hn. right.
    apply mc_joined. by apply Hent.
Qed.

Lemma good_invite cx now i us d : membership_ok d ->
  good now (mx_user_id cx) d (invite_to_channel hmac_sha256 payload super_group_member_limit channels_per_user_limit cx now i us d).
Proof.
  intros Hd. unfold invite_to_channel. reading peer d1 E Hs Hd1. apply good_ensure; [done|]. intros _. clear E. destruct peer as [ty id]. cbn [fst snd].
  reading pr d2 E Hs2 Hd2. clear E. apply good_get. apply good_lift; [done|]. intros c Hc. destruct (channels d2 !! id) as [c'|] eqn:Ec; [|done]. injection Hc as ->.
  reading own d3 E Hs3 Hd3. apply participant_found in E as (-> & Hown). apply good_lift; [done|]. intros may_invite Hmay. apply good_ensure; [done|]. intros Hperm.
  reading ids d3 E Hs4 Hd4. pose proof (user_ids_hold _ _ _ _ _ E) as Hids. pose proof (user_ids_read cx (take 100 us) d2) as Hsame. rewrite E in Hsame. cbn [snd] in Hsame. subst d3. clear E.
  do 2 (apply good_ensure; [done|]; intros _). reading granted d3 E Hs5 Hd5. reading st d4 E2 Hs6 Hd6.
  set (p := InChannel id) in *.
  assert (gathered d2 p granted st) as Hg.
  { eapply gathered_all; [done|exact Hids| | |exact E2].
    - split; cbn; [|by intros u Hnil%elem_of_nil..]. intros u m. rewrite map_of_omap. case_decide; [|done]. intros Hm. exists m. split; [done|done].
    - intros u Hu. unfold knows. cbn. rewrite map_of_omap. rewrite decide_True; [done|]. by apply elem_of_elements. }
  apply good_tail; [|intros; still]. apply good_transaction; [done|].
  apply good_then2; [|intros []; calm; apply calm_delete_requests].
  assert (same_tables d2 d4) as Hs7 by (by eapply same_trans). eapply (good_gathered _ _ d2 d4); [exact Hd2|exact Hd6|exact Hs7|exact Hg|].
  intros u Hu. right. left. split; [|by eapply bulk_invites; [exact (mo_privacy _ _ _ Hd2)|exact E|exact Hu]].
  exists (ch c), own. split_and!; [cbn; by rewrite Ec|exact Hown|]. destruct may_invite; [by left|by right].
Qed.

(** *** Requests to join *)
Lemma still_place cx i b : still (place_of_input hmac_sha256 payload cx i b).
Proof. unfold place_of_input. still. Qed.
#[local] Hint Resolve still_place : members.
Lemma still_inviting cx i b : still (inviting_admin hmac_sha256 payload cx i b).
Proof. unfold inviting_admin. still. Qed.
#[local] Hint Resolve still_inviting : members.

Lemma place_found cx i b d p base d1 : place_of_input hmac_sha256 payload cx i b d = (Ok (p, base), d1) -> base_of p d1 = Some base.
Proof.
  unfold place_of_input. intros (peer & d0 & _ & (q & ? & [= _ <-] & (? & ? & [= <- <-] & H)%bind_Ok)%bind_Ok)%bind_Ok.
  destruct (base_of q d0) as [x|] eqn:E; [|done]. by injection H as -> -> <-.
Qed.
Lemma inviting_found cx i b d p d1 : inviting_admin hmac_sha256 payload cx i b d = (Ok p, d1) ->
  exists m base, base_of p d1 = Some base /\ get_participant p (mx_user_id cx) false d1 = Some m /\ admin_has_permission base (mb m) Admin.INVITE_USERS = true.
Proof.
  unfold inviting_admin. intros ([q base] & d0 & Hq%place_found & (m & ? & [-> Hm]%participant_found & (? & ? & [Hp ->]%ensure_Ok & [= <- <-])%bind_Ok)%bind_Ok)%bind_Ok.
  by exists m, base.
Qed.

Lemma requested_rows p row rs : forall ms q v,
  let ms' := foldl (fun ms r => match ms !! (make_id p, ir_user r) with None => <[(make_id p, ir_user r) := row r]> ms | Some _ => ms end) ms rs in
  (ms' : gmap (Z * Z) Member) !! (make_id q, v) = ms !! (make_id q, v) \/
  q = p /\ ms !! (make_id p, v) = None /\ exists r, r ∈ rs /\ ir_user r = v /\ ms' !! (make_id p, v) = Some (row r).
Proof.
  induction rs as [|r rs IH]; intros ms q v; cbn [foldl]; [by left|].
  set (ms1 := match ms !! (make_id p, ir_user r) with None => <[(make_id p, ir_user r) := row r]> ms | Some _ => ms end).
  specialize (IH ms1 q v). cbv zeta in *. set (ms' := foldl _ ms1 rs) in *.
  assert (ms1 !! (make_id q, v) = ms !! (make_id q, v) \/ q = p /\ v = ir_user r /\ ms !! (make_id p, v) = None /\ ms1 !! (make_id p, v) = Some (row r)) as H1.
  { unfold ms1. destruct (ms !! (make_id p, ir_user r)) eqn:E; [by left|]. destruct (decide (q = p /\ v = ir_user r)) as [[-> ->]|Hne].
    - right. by rewrite lookup_insert_eq.
    - left. rewrite lookup_insert_ne; [done|]. intros [= Hk%make_id_inj Hu]. by apply Hne. }
  destruct IH as [E|(-> & Hn & r' & Hr' & Hu & E)].
  - destruct H1 as [H1|(-> & -> & Hn & H1)]; [left; congruence|right]. split_and!; [done..|]. exists r. split_and!; [apply elem_of_cons; by left|done|congruence].
  - right. destruct H1 as [H1|(_ & -> & _ & H1)]; [|congruence]. split_and!; [done|congruence|]. exists r'. split_and!; [apply elem_of_cons; by right|done|done].
Qed.

Lemma good_requested now user p fetched rs d : membership_ok d -> (forall r, r ∈ rs -> requested d user (ir_user r) p) ->
  good now user d (add_requested_users_to_chat basic_group_member_limit super_group_member_limit now user p fetched rs d).
Proof.
  intros Hd Hrs. unfold add_requested_users_to_chat. case_bool_decide; [by apply good_halt|]. apply good_get. do 2 (apply good_ensure; [done|]; intros _).
  reading x d1 E Hs Hd1. clear E. apply good_then; [|intros []; calm; apply calm_delete_requests].
  apply good_rows; [done|by apply places_same|by eapply known_same|]. intros q v. unfold member_of. cbn [members with_members].
  pose proof (requested_rows p (fun r => new_member (ir_user r) (match invites d !! ir_invite r with Some i => iv_user i | None => 0 end) now None (Some (ir_invite r)))
    rs (members d1) q v) as Hf. cbv zeta in Hf. match type of Hf with ?m !! _ = _ \/ _ => set (ms := m) in * end.
  destruct Hf as [Hf|(-> & Hn & r & Hr & Hu & Hf)]; [by left|right]. rewrite Hn, Hf, Hu. apply mc_joined. apply (entitled_same _ _ d d1 _ _ (mo_privacy _ _ _ Hd) Hs). right; right. rewrite <- Hu. by apply Hrs.
Qed.

Lemma requests_found p f d r : r ∈ requests_of p f d -> (exists k, requests d !! k = Some r) /\ of_place p d r = true /\ f r = true.
Proof.
  unfold requests_of. intros ([k r'] & -> & [Hk Hf]%elem_of_map_to_list%map_lookup_filter_Some)%list_elem_of_fmap. cbn in *. apply andb_true_iff in Hf as [? ?].
  split_and!; [by exists k|done|done].
Qed.

Lemma good_hide_request cx now peer ip u approved d : membership_ok d ->
  good now (mx_user_id cx) d (hide_chat_join_request hmac_sha256 payload basic_group_member_limit super_group_member_limit cx now peer ip u approved d).
Proof.
  intros Hd. unfold hide_chat_join_request. reading p d1 E Hs Hd1. apply inviting_found in E as (m & b & Hb & Hm & Hp). apply good_lift; [done|]. intros target _.
  apply good_get. destruct (requests_of _ _ d1) as [|r rs] eqn:Er; [by apply good_halt|]. destruct approved; cbn [negb]; [|apply calm_good; [apply calm_delete_requests|done]].
  apply good_requested; [done|]. intros r' ->%list_elem_of_singleton. assert (r ∈ requests_of p (fun r => ir_user r =? target) d1) as Hr by (rewrite Er; apply elem_of_cons; by left).
  apply requests_found in Hr as ((k & Hk) & Hof & _). split; [by exists m, b|by exists k, r].
Qed.

(** *** Managing invites *)
Section Links.
Context (url_query : pystr -> result pystr).

Lemma still_link p link stripped f : still (invite_of_link url_query p link stripped f).
Proof. unfold invite_of_link. still. Qed.
#[local] Hint Resolve still_link : members.

Lemma link_found p link stripped f d k i d1 : invite_of_link url_query p link stripped f d = (Ok (k, i), d1) -> d1 = d /\ invites d !! k = Some i /\ iv_place i = p.
Proof.
  unfold invite_of_link. intros (h & ? & [= _ <-] & H)%bind_Ok. destruct h as [h|]; [|done]. apply bind_Ok in H as (q & ? & [= _ <-] & (? & ? & [= <- <-] & H)%bind_Ok).
  destruct (find_invite _ _ _) as [[k' i']|] eqn:E; [|done]. injection H as -> -> <-. apply find_invite_Some in E as [Hi Hf]. apply andb_true_iff in Hf as [Hp%bool_decide_eq_true _]. done.
Qed.

Lemma good_create_invite (now user : Z) i d : membership_ok d -> known (iv_place i) d -> good now user d (create_invite i d).
Proof.
  intros Hd Hp. unfold create_invite. apply good_get. apply good_tail; [|intros; still]. apply good_rows; [done|by apply places_same| |by left].
  intros k j. cbn. intros [[<- <-]|[_ Hk]]%lookup_insert_Some; [apply Hp|by apply (mo_invites _ _ d Hd k)].
Qed.

Lemma good_hide_all cx now peer link approved d : membership_ok d ->
  good now (mx_user_id cx) d (hide_all_chat_join_requests hmac_sha256 payload basic_group_member_limit super_group_member_limit url_query cx now peer link approved d).
Proof.
  intros Hd. unfold hide_all_chat_join_requests. reading p d1 E Hs Hd1. apply inviting_found in E as (m & b & Hb & Hm & Hp). reading inv d2 E Hs2 Hd2. clear E.
  apply good_get. apply good_ensure; [done|]. intros Hne. destruct approved; cbn [negb].
  - apply good_requested; [done|]. intros r Hr%requests_found. destruct Hr as ((k & Hk) & Hof & _). destruct Hs2 as (Em & Ec & _ & Ei & Er & Eg & _).
    split; [exists m, b; split_and!; [|unfold get_participant, member_of; by rewrite Em|done]|exists k, r; done].
    destruct p; cbn in *; [by rewrite Eg|by rewrite Ec].
  - apply calm_good; [|done]. destruct inv as [i|]; [by apply calm_requests|apply calm_delete_requests].
Qed.

Lemma good_drop (now user : Z) gone d : membership_ok d -> good now user d (drop_invites gone d).
Proof.
  intros Hd. apply good_rows; [done|by apply places_same| |].
  - intros k i. cbn. intros [Hk _]%map_lookup_filter_Some. by apply (mo_invites _ _ d Hd k).
  - intros p u. unfold member_of. cbn. rewrite lookup_fmap. destruct (members d !! (make_id p, u)) as [[r [k|] b]|]; cbn; [|by left..].
    case_match; [|by left]. right. by eapply mc_invite_gone.
Qed.

Lemma good_delete_link cx now peer link d : membership_ok d -> good now (mx_user_id cx) d (delete_exported_chat_invite hmac_sha256 payload url_query cx peer link d).
Proof.
  intros Hd. unfold delete_exported_chat_invite. reading p d1 E Hs Hd1. reading i d2 E2 Hs2 Hd2. apply good_tail; [by apply good_drop|intros; still].
Qed.
Lemma good_delete_revoked cx now peer admin d : membership_ok d ->
  good now (mx_user_id cx) d (delete_revoked_exported_chat_invites hmac_sha256 payload cx peer admin d).
Proof.
  intros Hd. unfold delete_revoked_exported_chat_invites. reading p d1 E Hs Hd1. reading a d2 E2 Hs2 Hd2. reading w d3 E3 Hs3 Hd3.
  apply good_tail; [by apply good_drop|intros; still].
Qed.
Lemma good_edit_link cx now peer link revoked title d : membership_ok d ->
  good now (mx_user_id cx) d (edit_exported_chat_invite hmac_sha256 payload url_query cx peer link revoked title d).
Proof.
  intros Hd. unfold edit_exported_chat_invite. reading p d1 E Hs Hd1. reading x d2 E2 Hs2 Hd2. destruct x as [k i]. apply link_found in E2 as (-> & Hk & Hp). cbn [fst snd].
  apply good_tail; [|intros; still]. apply good_rows; [done|by apply places_same| |by left].
  intros j i'. cbn. intros [[<- <-]|[_ Hj]]%lookup_insert_Some; [|by apply (mo_invites _ _ d1 Hd1 j)]. pose proof (mo_invites _ _ d1 Hd1 k i Hk).
  by destruct (title ≫= nonempty), revoked.
Qed.
Lemma still_get_link cx now peer link : still (get_exported_chat_invite hmac_sha256 payload url_query cx now peer link).
Proof. unfold get_exported_chat_invite. still. Qed.
End Links.

Lemma good_permanent (now user : Z) p u nonce d : membership_ok d -> known p d ->
  good now user d (get_or_create_permanent u p now nonce d).
Proof.
  intros Hd Hp. unfold get_or_create_permanent. apply good_get. destruct (list_find _ _) as [[n i]|]; [by apply good_halt|]. by apply good_create_invite.
Qed.
Lemma known_same_tables p d d1 : same_tables d d1 -> known p d -> known p d1.
Proof. intros (_ & Ec & _ & _ & _ & Eg & _). unfold known. by destruct p; cbn; rewrite ?Ec, ?Eg. Qed.
Lemma good_export cx now nonce r d : membership_ok d -> good now (mx_user_id cx) d (export_chat_invite hmac_sha256 payload cx now nonce r d).
Proof.
  intros Hd. unfold export_chat_invite. reading x d1 E Hs Hd1. destruct x as [p b]. assert (known p d1) as Hp by (exists b; by eapply place_found). cbn [fst snd].
  apply good_get. destruct (get_participant p _ _ d1) as [m|]; [|by apply good_halt]. reading x d2 E2 Hs2 Hd2.
  pose proof (known_same_tables _ _ _ Hs2 Hp) as Hp2. destruct (ex_legacy_revoke_permanent r); [|by apply good_create_invite].
  apply good_rows; [done|by apply places_same| |by left].
  intros k i. cbn. intros [[<- <-]|[_ Hk]]%lookup_insert_Some; [apply Hp2|]. rewrite lookup_fmap in Hk. apply fmap_Some in Hk as (i0 & Hk & ->).
  pose proof (mo_invites _ _ d2 Hd2 k i0 Hk). by destruct (_ && negb _).
Qed.

End MembershipChannels.
