(* ===== verification/MembershipSafety.v ===== *)
(** The handlers of [Groups.v] keep the invariant of [Membership.v] too, and what all requests together guarantee. *)
From Stdlib Require Import Init.Byte.
From stdpp Require Import gmap.
From S2P Require Import Prelude PyBytes TlPrimitives AccessHash Privacy Peers Rights Utf16 Base64 Members Invites Groups Membership MembershipChannels.

Section MembershipSafety.
Context (hmac_sha256 : bytes -> bytes) (payload : signed_kind -> Z -> Z -> Z -> bytes).
Context (basic_group_member_limit super_group_member_limit channels_per_user_limit basic_group_admin_limit channel_admin_limit : Z).
#[local] Abbreviation membership_ok := (membership_ok basic_group_admin_limit channel_admin_limit).
#[local] Abbreviation good := (good basic_group_admin_limit channel_admin_limit).

(** *** Finding groups *)
Lemma still_with_peer user id : still (group_with_peer user id).
Proof. unfold group_with_peer. still. Qed.
Lemma still_group user id b : still (group_of_peer user id b).
Proof. unfold group_of_peer. still. Qed.
Lemma still_settings cx i : still (settings_place hmac_sha256 payload cx i).
Proof. unfold settings_place. still. Qed.
Lemma still_log p u a : still (log_setting p u a).
Proof. unfold log_setting. still. Qed.
Lemma still_add_peers g us : still (add_peers g us).
Proof. unfold add_peers. still. Qed.
#[local] Hint Resolve still_with_peer still_group still_settings still_log still_add_peers : members.

Lemma with_peer_found user id d g d1 : group_with_peer user id d = (Ok g, d1) -> d1 = d /\ groups d !! id = Some g.
Proof.
  unfold group_with_peer. intros (? & ? & [= <- <-] & H)%bind_Ok. destruct (groups d !! id) as [g'|]; [|done]. destruct (has_chat_peer _ _ _); [|done]. by injection H as -> <-.
Qed.
Lemma group_found user id b d gid g d1 : group_of_peer user id b d = (Ok (gid, g), d1) -> groups d1 !! gid = Some g.
Proof.
  unfold group_of_peer. intros (peer & d0 & _ & (i & ? & [= _ <-] & (? & ? & [= <- <-] & H)%bind_Ok)%bind_Ok)%bind_Ok.
  destruct (groups d0 !! i) as [x|] eqn:E; [|done]. by injection H as -> -> <-.
Qed.
Lemma settings_found cx i d p b d1 : settings_place hmac_sha256 payload cx i d = (Ok (p, b), d1) -> base_of p d1 = Some b.
Proof.
  unfold settings_place. intros (peer & d0 & _ & (q & ? & [= _ <-] & (? & ? & [= <- <-] & H)%bind_Ok)%bind_Ok)%bind_Ok.
  destruct (base_of q d0) as [x|] eqn:E; [|done]. by injection H as -> -> <-.
Qed.

(** *** Settings *)
Lemma saved_creator title about b : creator_id (saved (update title about None None (MkChatRow b b)).2) = creator_id b.
Proof.
  unfold update, when_some, set_obj, Prelude.get, Prelude.modify, mbind, M_bind, mret, M_ret. destruct title as [t|], about as [a|]; cbn;
    repeat (match goal with |- context [ensure ?b _] => destruct b end; cbn; try done); done.
Qed.
Lemma calm_update p title about : calm (update_base p title about).
Proof.
  intros d. unfold update_base, mbind, M_bind, get. destruct (base_of p d) as [b|] eqn:Eb; [|apply calm_refl].
  pose proof (saved_creator title about b) as Hs. destruct (update title about None None _) as [r row]. cbn [snd] in Hs.
  destruct p as [g|id]; unfold set_group, change_channel, modify, lift_result; cbn [snd];
    (split; [done|]); (split; [intros k i Hk; by exists k, i|]); unfold places_kept; split_and!; try done; try (by apply privacy_refl); intros j; try apply kept_channel_refl; try apply kept_group_refl;
    cbn in *; rewrite lookup_alter; case_decide; subst; try apply kept_channel_refl; try apply kept_group_refl; apply fmap_Some in Eb as (x & -> & ->); done.
Qed.
#[local] Ltac calm_settings := repeat first [ apply still_calm; solve [still] | apply calm_update | apply calm_bind; [|intros ?] | case_match ].
Lemma calm_title cx id t : calm (edit_chat_title cx id t).
Proof. unfold edit_chat_title. calm_settings. Qed.
Lemma calm_about cx i a : calm (edit_chat_about hmac_sha256 payload cx i a).
Proof. unfold edit_chat_about. calm_settings. Qed.
Lemma calm_default_banned cx i b : calm (edit_chat_default_banned_rights hmac_sha256 payload cx i b).
Proof. unfold edit_chat_default_banned_rights. calm. Qed.
Lemma calm_no_forwards cx i b : calm (toggle_no_forwards hmac_sha256 payload cx i b).
Proof. unfold toggle_no_forwards. calm. Qed.
Lemma calm_delete_chat cx id : calm (delete_chat cx id).
Proof. unfold delete_chat. calm. Qed.

(** *** Members *)
Lemma good_add_user cx now id u n d : membership_ok d -> good now (mx_user_id cx) d (add_chat_user hmac_sha256 payload basic_group_member_limit cx now id u n d).
Proof.
  intros Hd. unfold add_chat_user. set (user := mx_user_id cx). reading g d1 E Hs Hd1. apply with_peer_found in E as (-> & Hg).
  reading t d1 E Hs1 Hd2. apply user_found in E as (-> & _). apply good_ensure; [done|]. intros _. reading own d1 E Hs2 Hd3. apply participant_found in E as (-> & Hown).
  apply good_lift; [done|]. intros ok Hok. apply good_ensure; [done|]. intros ->. apply good_get. do 2 (apply good_ensure; [done|]; intros _).
  reading access d1 E Hs3 Hd4. apply good_ensure; [done|]. intros ->.
  assert (welcomes d user t.2) as Hw.
  { destruct (mo_privacy _ _ d Hd) as [Hp Hc]. unfold on_privacy in E. destruct (has_access_spec (m_privacy d) user t.2 CHAT_INVITE Hp Hc) as (p & Ep & _). rewrite Ep in E. unfold welcomes. congruence. }
  assert (entitled d1 now user t.2 (InChat (norm_id id))) as Hent.
  { apply (entitled_same _ _ d d1 _ _ (mo_privacy _ _ d Hd) Hs3). right; left. split; [|done]. exists (gr g), own. cbn. rewrite Hg. split_and!; [done..|by left]. }
  apply good_tail; [|intros []; still]. apply good_transaction; [done|]. reading k d2 E2 Hs4 Hd5. clear E2. apply good_get. apply good_ensure; [done|]. intros Hnone.
  apply good_then; [|intros []; calm]. apply good_set_member; [done|]. destruct (member_of _ _ d2); [done|]. apply mc_joined.
  by apply (entitled_same _ _ d1 d2 _ _ (mo_privacy _ _ d1 Hd4) Hs4).
Qed.

Lemma good_delete_user cx (now : Z) id u d : membership_ok d -> good now (mx_user_id cx) d (delete_chat_user hmac_sha256 payload cx id u d).
Proof.
  intros Hd. unfold delete_chat_user. reading x d1 E Hs Hd1. destruct x as [gid g]. apply group_found in E.
  reading t d2 E2 Hs2 Hd2. apply user_found in E2 as (-> & Ht). apply good_ensure; [done|]. intros Hu%bool_decide_eq_true. specialize (Ht Hu).
  apply good_get. apply good_ensure; [done|]. intros Hrule. apply good_ensure; [done|]. intros _. reading w d2 E2 Hs3 Hd3. clear E2.
  assert (rules_group d2 (mx_user_id cx) gid) as Hr.
  { destruct Hs3 as (Em & _ & _ & _ & _ & Eg & _). exists g. unfold member_of. by rewrite Eg, Em. }
  apply good_then; [|intros []; calm]. apply good_rows; [done|by apply places_same|by eapply known_same|]. intros q v. unfold member_of. cbn [members with_members].
  destruct (decide ((make_id (InChat gid), t.2) = (make_id q, v))) as [Heq|Hne]; [|left; by rewrite lookup_delete_ne].
  pose proof (f_equal fst Heq) as Hk%(make_id_inj (InChat gid) q). pose proof (f_equal snd Heq : t.2 = v). clear Heq. subst q v.
  rewrite lookup_delete_eq. destruct (members d2 !! _) as [m|]; [right|by left]. by eapply mc_removed.
Qed.

Lemma good_group_rank {A} (r : result A) now user d g b u m m' : membership_ok d -> groups d !! g = Some b -> member_of (InChat g) u d = Some m ->
  rchange d now user (InChat g) u (Some m) (Some m') -> user_id (mb m') = u -> 0 <= admin_rights (mb m') ->
  (is_admin (mb m') = true -> is_admin (mb m) = false -> admins (InChat g) d < basic_group_admin_limit) ->
  good now user d (r, with_members (<[(make_id (InChat g), u) := m']> (members d)) d).
Proof.
  intros Hd Hg Hm Hc Hu H0 Hlim. set (d' := with_members _ d). assert (forall p, p <> InChat g -> admins p d' = admins p d) as Hother by (intros; by apply count_other).
  split; cbn [snd].
  - split; try apply Hd.
    + intros id c Hcc Hn. destruct (mo_creator _ _ d Hd id c Hcc Hn) as (mc & Hmc & Hr). exists mc. split; [|done]. unfold d'. rewrite member_set. by rewrite decide_False by naive_solver.
    + intros p v x. unfold d'. rewrite member_set. case_decide as H; [destruct H as [<- <-]|apply (mo_rows _ _ d Hd)]. intros [= <-]. split_and!; [done..|].
      by apply (mo_rows _ _ d Hd _ _ _ Hm).
    + intros id c. rewrite Hother by done. apply (mo_admins _ _ d Hd).
    + intros g' b' Hb'. destruct (decide (g' = g)) as [->|Hne]; [|rewrite Hother by naive_solver; by eapply mo_group_admins].
      pose proof (mo_group_admins _ _ d Hd g b' Hb') as Hmax. unfold admins, d' in *. rewrite count_insert, Hm.
      destruct (is_admin (mb m')) eqn:E1, (is_admin (mb m)) eqn:E2; cbn [b2z]; lia.
  - split; [|intros id c Hcc; exists c; split; [done|by left]|intros id c; cbn; congruence|intros g' b' Hb'; by exists b'|intros g' b'; cbn; congruence].
    intros p v. unfold d'. rewrite member_set. case_decide as H; [destruct H as [<- <-]|by left]. right; right. by rewrite Hm.
Qed.

Lemma good_chat_admin cx (now : Z) id u b d : membership_ok d -> good now (mx_user_id cx) d (edit_chat_admin hmac_sha256 payload basic_group_admin_limit cx id u b d).
Proof.
  intros Hd. unfold edit_chat_admin. reading g d1 E Hs Hd1. apply with_peer_found in E as (-> & Hg). reading t d1 E Hs1 Hd2. apply user_found in E as (-> & Ht).
  apply good_ensure; [done|]. intros Hu%bool_decide_eq_true. specialize (Ht Hu). apply good_get. apply good_ensure; [done|]. intros _. apply good_ensure; [done|]. intros Hcr. b2p.
  destruct (member_of _ _ d) as [m|] eqn:Em; [|by apply good_halt]. destruct (Bool.eqb _ _) eqn:Eb; [by apply good_halt|]. apply good_ensure; [done|]. intros Hlim.
  destruct (mo_rows _ _ d Hd _ _ _ Em) as (Hmu & _ & _).
  apply good_then; [|intros []; calm]. eapply good_group_rank; [done|exact Hg|exact Em|by eapply rc_group_admin|done|by destruct b|].
  intros Ha _. destruct b; [|done]. cbn in Hlim. b2p. exact Hlim.
Qed.

(** *** A new group *)
Lemma fresh_group d : membership_ok d -> groups d !! next_group d = None /\ forall u, member_of (InChat (next_group d)) u d = None.
Proof.
  intros Hd. assert (groups d !! next_group d = None) as Hn by (apply eq_None_not_Some; intros [b Hb]; apply (mo_groups_below _ _ d Hd) in Hb; lia).
  split; [done|]. intros u. apply eq_None_not_Some. intros [m Hm]. destruct (mo_rows _ _ d Hd _ _ _ Hm) as (_ & _ & Hk). unfold known in Hk. cbn in Hk. by rewrite Hn in Hk; destruct Hk.
Qed.

Section NewGroup.
Context (now user : Z) (d d' : MembersDb) (b : Group).
#[local] Abbreviation id := (next_group d).
Context (Hlim : 1 <= basic_group_admin_limit) (Hd : membership_ok d) (Hb : creator_id (gr b) = user).
Context (Eg : groups d' = <[id := b]> (groups d)) (Eng : next_group d' = id + 1) (Ec : channels d' = channels d) (En : next_channel d' = next_channel d).
Context (Ei : invites d' = invites d) (Ep : privacy_kept d d').
Context (Helse : forall p u, p <> InChat id -> member_of p u d' = member_of p u d).
Context (Hrows : forall u, member_of (InChat id) u d' = None \/
  u = user /\ member_of (InChat id) u d' = Some (set_admin CREATOR_RIGHTS [] 0 (new_member user 0 now None None)) \/
  u <> user /\ welcomes d user u /\ member_of (InChat id) u d' = Some (new_member u user now None None)).

Lemma new_group_known p : known p d -> known p d'.
Proof using Eg Ec.
  unfold known. destruct p as [g|j]; cbn; rewrite !fmap_is_Some; [|by rewrite Ec]. rewrite Eg. intros Hx. destruct (decide (g = id)) as [->|Hne];
    [rewrite lookup_insert_eq; by eexists|by rewrite lookup_insert_ne].
Qed.
Lemma new_group_count p : p <> InChat id -> admins p d' = admins p d.
Proof using Helse.
  intros Hne. apply count_ext; intros u m Hm.
  - exists m. split; [|done]. fold (member_of p u d'). by rewrite Helse.
  - intros _. exists m. fold (member_of p u d') in Hm. by rewrite Helse in Hm.
Qed.
Lemma new_group_admins : admins (InChat id) d' <= 1.
Proof using Hd Hb Hrows.
  destruct (fresh_group d Hd) as [_ Hnone]. set (row := set_admin CREATOR_RIGHTS [] 0 (new_member user 0 now None None)).
  transitivity (admins (InChat id) (with_members (<[(make_id (InChat id), user) := row]> (members d)) d)).
  - apply count_mono. intros u m Hm Ha. exists m. split; [|done]. fold (member_of (InChat id) u d') in Hm.
    match goal with |- ?l = _ => change l with (member_of (InChat id) u (with_members (<[(make_id (InChat id), user) := row]> (members d)) d)) end. rewrite member_set.
    destruct (Hrows u) as [E|[(-> & E)|(Hne & _ & E)]]; rewrite E in Hm; simplify_eq; by rewrite decide_True.
  - unfold admins. rewrite count_insert, Hnone, count_none; [done|]. intros u m Hm. by rewrite Hnone in Hm.
Qed.
Lemma good_new_group {A} (r : result A) : good now user d (r, d').
Proof using Hlim Hd Hb Eg Eng Ec En Ei Ep Helse Hrows.
  pose proof new_group_known as Hkn. destruct (fresh_group d Hd) as [Hnone Hnorows]. split; cbn [snd].
  - split.
    + rewrite Ec, En. apply (mo_below _ _ d Hd).
    + intros g x. rewrite Eg, Eng. intros [[<- <-]|[Hne Hx]]%lookup_insert_Some; [lia|]. apply (mo_groups_below _ _ d Hd) in Hx. lia.
    + intros j c. rewrite Ec. intros Hc Hn. destruct (mo_creator _ _ d Hd j c Hc Hn) as (m & ? & ?). exists m. by rewrite Helse.
    + intros p u m Hm. destruct (decide (p = InChat id)) as [->|Hne].
      * assert (known (InChat id) d') as Hki by (unfold known; cbn; rewrite Eg, lookup_insert_eq; by eexists).
        destruct (Hrows u) as [E|[(-> & E)|(Hne & _ & E)]]; rewrite E in Hm; simplify_eq; done.
      * rewrite Helse in Hm by done. destruct (mo_rows _ _ d Hd _ _ _ Hm) as (? & ? & ?). split_and!; [done..|by apply Hkn].
    + intros k i. rewrite Ei. intros Hk. by eapply Hkn, mo_invites.
    + intros j c. rewrite Ec, new_group_count by done. apply (mo_admins _ _ d Hd).
    + intros g x. rewrite Eg. intros [[<- <-]|[Hne Hx]]%lookup_insert_Some; [pose proof new_group_admins; lia|]. rewrite new_group_count by congruence. by eapply mo_group_admins.
    + by destruct (Ep (mo_privacy _ _ d Hd)).
  - split.
    + intros p u. destruct (decide (p = InChat id)) as [->|Hne]; [|left; by apply Helse]. rewrite Hnorows. destruct (Hrows u) as [E|[(-> & ->)|(Hne & Hw & ->)]]; [by left|right; right..].
      * by eapply rc_founded.
      * by eapply rc_founded_with.
    + intros j c Hc. rewrite Ec. exists c. split; [done|by left].
    + intros j c. rewrite Ec. congruence.
    + intros g x Hx. rewrite Eg. exists x. rewrite lookup_insert_ne; [done|]. intros <-. congruence.
    + intros g x Hx. rewrite Eg. intros [[<- <-]|[Hne Hx']]%lookup_insert_Some; [done|congruence].
Qed.
End NewGroup.

Lemma may_be_invited_allowed (l : list (Z * gmap PrivacyRuleKeyType bool)) r u : may_be_invited l = Ok r -> u ∈ r.1 -> exists m, (u, m) ∈ l /\ m !! CHAT_INVITE = Some true.
Proof.
  revert r. induction l as [|[v m] l IH]; intros r; cbn [may_be_invited]; [intros [= <-] H; by apply elem_of_nil in H|].
  intros (b & Hb & (s & Hs & [= <-])%result_bind_ok)%result_bind_ok. destruct (m !! CHAT_INVITE) as [b'|] eqn:Em; [|done]. injection Hb as ->.
  destruct b; cbn [fst]; [intros [->|Hu]%elem_of_cons; [exists m; split; [apply elem_of_cons; by left|done]|]|intros Hu];
    (destruct (IH s Hs Hu) as (m' & ? & ?); exists m'; split; [apply elem_of_cons; by right|done]).
Qed.

Lemma invited_allowed user l d b u : u ∈ peer_users b (invited_peers user l d) -> u ∈ l.
Proof.
  unfold peer_users, invited_peers. intros (p & (([k q] & -> & [Hq _]%list_elem_of_filter)%list_elem_of_fmap & Hu))%list_elem_of_omap. cbn in *.
  destruct (Bool.eqb _ _); [|done]. rewrite Hu in Hq. by apply andb_true_iff in Hq as [_ ?%bool_decide_eq_true].
Qed.

Lemma good_create_chat cx now enabled restricted title us d : 1 <= basic_group_admin_limit -> membership_ok d ->
  good now (mx_user_id cx) d (create_chat hmac_sha256 payload cx now enabled restricted title us d).
Proof.
  intros Hlim Hd. unfold create_chat. set (user := mx_user_id cx). do 2 (apply good_ensure; [done|]; intros _). apply good_lift; [done|]. intros ids _.
  apply good_read; [done|case_bool_decide; still|]. intros privacy d1 E Hs Hd1. apply good_lift; [done|]. intros allowed Hal. apply good_get. cbv zeta. set (invited := peer_users false _).
  assert (forall u, u ∈ invited -> welcomes d1 user u) as Hw.
  { intros u Hu%invited_allowed. destruct (may_be_invited_allowed _ _ u Hal Hu) as (m & Hm%elem_of_map_to_list & Ht). apply (welcomes_same d d1 _ _ (mo_privacy _ _ d Hd)); [by destruct Hs as (_&_&_&_&_&_&_&?)|].
    case_bool_decide; [injection E as <- <-; by rewrite lookup_empty in Hm|]. eapply bulk_invites; [apply (mo_privacy _ _ d Hd)|exact E|]. by rewrite Hm. }
  clear E Hs Hd. apply good_tail; [|intros; still]. destruct (fresh_group d1 Hd1) as [Hnone Hrows].
  unfold transaction, get, modify, mbind, M_bind. set (b := MkGroup _ _ _ _). set (d2 := with_groups _ _ d1).
  pose proof (still_add_peers (next_group d1) (user :: invited) d2) as Hs. destruct (add_peers _ _ d2) as [[[]|e] d3]; [|by apply good_halt].
  match goal with |- context [create_members _ ?f _] => pose proof (created_rows (InChat (next_group d1)) f (user :: invited) d3) as Hr end.
  cbn [snd] in Hs. destruct Hs as (Em & Ec & En & Ei & _ & Eg & Eng & Hp). unfold create_members, modify in *. cbn [snd] in Hr.
  apply (good_new_group now user d1 _ b); try done.
  - intros p u Hne. rewrite Hr, decide_False by naive_solver. unfold member_of. by rewrite Em.
  - intros u. rewrite Hr. assert (member_of (InChat (next_group d1)) u d3 = None) as -> by (unfold member_of; rewrite Em; apply Hrows).
    case_decide as Hin; [right|by left]. destruct Hin as [_ Hin]. cbn [default]. destruct (u =? user) eqn:Eu; b2p; [left; by subst u|right].
    split; [done|]. split; [|done]. apply Hw. by apply elem_of_cons in Hin as [?|?].
Qed.

(** *** Migration *)
Lemma migrated_rows p f ps : forall ms q v, let ms' := foldl (fun ms m => <[(make_id p, user_id (mb m)) := f m]> ms) ms ps in
  (ms' : gmap (Z * Z) Member) !! (make_id q, v) = ms !! (make_id q, v) \/ q = p /\ exists m, m ∈ ps /\ user_id (mb m) = v /\ ms' !! (make_id p, v) = Some (f m).
Proof.
  induction ps as [|m ps IH]; intros ms q v; cbn [foldl]; [by left|]. destruct (IH (<[(make_id p, user_id (mb m)) := f m]> ms) q v) as [E|(-> & m' & Hm & Hu & E)].
  - cbv zeta. rewrite E. destruct (decide ((make_id p, user_id (mb m)) = (make_id q, v))) as [Heq|Hne]; [|left; by rewrite lookup_insert_ne].
    pose proof (f_equal fst Heq : make_id p = make_id q) as Hp%make_id_inj. pose proof (f_equal snd Heq : user_id (mb m) = v). clear Heq. subst q v. right. split; [done|].
    exists m. split_and!; [apply elem_of_cons; by left|done|]. rewrite E. apply lookup_insert_eq.
  - right. split; [done|]. exists m'. split_and!; [apply elem_of_cons; by right|done|done].
Qed.

Lemma good_more {A B} now user (m : MM B) d d1 (r : result A) : good now user d (r, d1) -> calm m -> good now user d (m d1).
Proof. intros H Hm. specialize (Hm d1). destruct (m d1) as [r2 d2]. by eapply good_calm. Qed.

(** A transaction that fails where it may leaves nothing behind. *)
Lemma good_after {A B} now user (m : MM A) (f : A -> MM B) d d1 : membership_ok d -> (forall a d2, m d1 = (Ok a, d2) -> good now user d (f a d2)) ->
  good now user d (match (m ≫= f) d1 with (Ok b, d2) => (Ok b, d2) | (Raise e, _) => (Raise e, d) end).
Proof.
  intros Hd Hf. unfold mbind, M_bind. destruct (m d1) as [[a|e] d2] eqn:E; [|by apply good_halt]. specialize (Hf a d2 eq_refl). destruct (f a d2) as [[b|e] d3]; [done|by apply good_halt].
Qed.

Lemma good_modify {B} now user d (f : MembersDb -> MembersDb) (k : unit -> MM B) s : good now user d (k tt (f s)) -> good now user d ((modify f ≫= k) s).
Proof. done. Qed.

Lemma good_migrate cx (now : Z) id d : membership_ok d -> good now (mx_user_id cx) d (migrate_chat cx id d).
Proof.
  intros Hd. unfold migrate_chat. set (user := mx_user_id cx). reading x d1 E Hs Hd1. destruct x as [gid g]. apply group_found in E. apply good_get.
  apply good_ensure; [done|]. intros Hrule. cbv zeta. clear d Hd Hs. rename d1 into d, Hd1 into Hd. apply good_tail; [|intros; still].
  assert (rules_group d user gid) as Hr by (by exists g). destruct (fresh_channel _ _ d Hd) as [Hnone Hrows]. set (ps := members_of (InChat gid) d). assert (forall m, m ∈ ps -> exists u, user_id (mb m) = u /\ 0 <= admin_rights (mb m) /\ member_of (InChat gid) u d = Some m) as Hps.
  { intros m ([[k u] m'] & -> & [Hm Hk]%elem_of_map_to_list%map_lookup_filter_Some)%list_elem_of_fmap. cbn in *. subst k. exists u.
    destruct (mo_rows _ _ d Hd (InChat gid) u m' Hm) as (? & ? & _). done. }
  unfold transaction. unfold mbind at 1, M_bind at 1, get at 1. cbv beta iota zeta. unfold mbind at 1, M_bind at 1, modify at 1. cbv beta iota.
  apply good_after; [done|]. set (d1 := with_channels _ _ d). intros k d2 E2.
  pose proof (still_on_peers (create_channel_peer (next_channel d)) d1) as Hs. pose proof (on_peers_privacy (create_channel_peer (next_channel d)) d1) as Hp.
  rewrite E2 in Hs, Hp. cbn [snd] in Hs, Hp. destruct Hs as (Em & Ec & En & Ei & _ & Eg & Eng & _). clear E2 k.
  do 5 apply good_modify. match goal with |- good _ _ _ (_ ?s) => set (d3 := s) end. refine (good_more now user _ d d3 (Ok tt) _ _); [|calm].
  assert (members d3 = foldl (fun ms m => <[(make_id (InChannel (next_channel d)), user_id (mb m)) := migrated_member (creator_id (gr g)) m]> ms) (members d) ps) as Em3.
  { change (members d) with (members d1). by rewrite <- Em. }
  apply (good_new_channel _ _ now user d d3 (migrated_channel gid g)); try done.
  - intros j. change (groups d3) with (alter mark_migrated gid (groups d2)). rewrite Eg, lookup_alter. change (groups d1) with (groups d). 
    case_decide; subst; [rewrite E; done|apply kept_group_refl].
  - intros k i. change (invites d3) with ((fun i => if bool_decide (iv_place i = InChat gid) then revoke i else i) <$> invites d2). rewrite Ei, lookup_fmap.
    intros (i0 & Hk & ->)%fmap_Some. pose proof (mo_invites _ _ d Hd k i0 Hk). by case_bool_decide.
  - right. by exists gid, g.
  - intros p u Hne. unfold member_of. rewrite Em3. destruct (migrated_rows (InChannel (next_channel d)) (migrated_member (creator_id (gr g))) ps (members d) p u) as [->|[? _]]; done.
  - intros u. unfold member_of. rewrite Em3.
    destruct (migrated_rows (InChannel (next_channel d)) (migrated_member (creator_id (gr g))) ps (members d) (InChannel (next_channel d)) u) as [->|(_ & m & Hm & Hu & ->)]; [left; apply Hrows|right].
    destruct (Hps m Hm) as (v & Hv & Hpos & Hmv). assert (v = u) as -> by congruence. split; [by eapply rc_migrated|]. eexists. split; [done|]. split; [done|]. cbn. by destruct (_ =? _).
Qed.

(** ** Requests, and what they guarantee *)
Context (url_query : pystr -> result pystr).

Inductive request :=
  | Creates (enabled restricted : bool) (r : CreateChannel) | EditsBanned (r : EditBanned) | EditsAdmin (r : EditAdmin) | EditsCreator (password : result unit) (channel target : InputPeer)
  | DeletesChannel (channel : InputPeer) | Leaves (channel : InputPeer) | Invites_ (channel : InputPeer) (users : list InputPeer) | Joins (channel : InputPeer)
  | TogglesJoinRequest (channel : InputPeer) (enabled : bool) | TogglesJoinToSend (channel : InputPeer) (enabled : bool) | TogglesPreHistory (channel : InputPeer) (enabled : bool)
  | Imports (hash : pystr) | ChecksInvite (hash : pystr) | Exports (nonce : bytes) (r : ExportChatInvite) | GetsExported (peer : InputPeer) (link : pystr)
  | EditsExported (peer : InputPeer) (link : pystr) (revoked : bool) (title : option pystr) | DeletesExported (peer : InputPeer) (link : pystr)
  | DeletesRevoked (peer admin : InputPeer) | HidesRequest (peer : InputPeer) (input_peer : bool) (user : InputPeer) (approved : bool) | HidesAllRequests (peer : InputPeer) (link : option pystr) (approved : bool)
  | CreatesChat (enabled restricted : bool) (title : pystr) (users : list InputPeer) | AddsChatUser (chat : Z) (user : InputPeer) (fwd_limit : Z) | DeletesChatUser (chat : Z) (user : InputPeer)
  | EditsChatAdmin (chat : Z) (user : InputPeer) (is_admin_ : bool) | EditsTitle (chat : Z) (title : pystr) | EditsAbout (peer : InputPeer) (about : pystr)
  | EditsDefaultBanned (peer : InputPeer) (banned : Z) | TogglesNoForwards (peer : InputPeer) (enabled : bool) | DeletesChat (chat : Z) | Migrates (chat : Z).

Definition ignoring {A} (m : MM A) : MM unit := m ;; mret tt.
Definition handle (cx : MembersCtx) (now : Z) (q : request) : MM unit :=
  match q with
  | Creates enabled restricted r => ignoring (create_channel cx now enabled restricted r)
  | EditsBanned r => ignoring (edit_banned hmac_sha256 payload cx now r)
  | EditsAdmin r => ignoring (edit_admin hmac_sha256 payload channel_admin_limit cx r)
  | EditsCreator pw c t => edit_creator hmac_sha256 payload cx pw c t
  | DeletesChannel c => delete_channel hmac_sha256 payload cx c
  | Leaves c => leave_channel hmac_sha256 payload cx c
  | Invites_ c us => ignoring (invite_to_channel hmac_sha256 payload super_group_member_limit channels_per_user_limit cx now c us)
  | Joins c => join_channel hmac_sha256 payload basic_group_member_limit super_group_member_limit channels_per_user_limit cx now c
  | TogglesJoinRequest c b => toggle_join_request hmac_sha256 payload cx c b
  | TogglesJoinToSend c b => toggle_join_to_send hmac_sha256 payload cx c b
  | TogglesPreHistory c b => toggle_pre_history_hidden hmac_sha256 payload cx c b
  | Imports h => import_chat_invite basic_group_member_limit super_group_member_limit channels_per_user_limit cx now h
  | ChecksInvite h => ignoring (check_chat_invite cx now h)
  | Exports nonce r => ignoring (export_chat_invite hmac_sha256 payload cx now nonce r)
  | GetsExported p l => ignoring (get_exported_chat_invite hmac_sha256 payload url_query cx now p l)
  | EditsExported p l b t => ignoring (edit_exported_chat_invite hmac_sha256 payload url_query cx p l b t)
  | DeletesExported p l => ignoring (delete_exported_chat_invite hmac_sha256 payload url_query cx p l)
  | DeletesRevoked p a => ignoring (delete_revoked_exported_chat_invites hmac_sha256 payload cx p a)
  | HidesRequest p ip u b => hide_chat_join_request hmac_sha256 payload basic_group_member_limit super_group_member_limit cx now p ip u b
  | HidesAllRequests p l b => hide_all_chat_join_requests hmac_sha256 payload basic_group_member_limit super_group_member_limit url_query cx now p l b
  | CreatesChat enabled restricted title us => ignoring (create_chat hmac_sha256 payload cx now enabled restricted title us)
  | AddsChatUser id u n => add_chat_user hmac_sha256 payload basic_group_member_limit cx now id u n
  | DeletesChatUser id u => delete_chat_user hmac_sha256 payload cx id u
  | EditsChatAdmin id u b => edit_chat_admin hmac_sha256 payload basic_group_admin_limit cx id u b
  | EditsTitle id t => edit_chat_title cx id t
  | EditsAbout p a => ignoring (edit_chat_about hmac_sha256 payload cx p a)
  | EditsDefaultBanned p b => edit_chat_default_banned_rights hmac_sha256 payload cx p b
  | TogglesNoForwards p b => toggle_no_forwards hmac_sha256 payload cx p b
  | DeletesChat id => ignoring (delete_chat cx id)
  | Migrates id => ignoring (migrate_chat cx id)
  end.
(** Rights are flags: [from_tl] makes no negative number. *)
Definition sane (q : request) : Prop := match q with EditsAdmin r => 0 <= ea_admin_rights r | _ => True end.

Lemma good_ignoring {A} now user (m : MM A) d : good now user d (m d) -> good now user d (ignoring m d).
Proof. intros H. apply good_tail; [done|]. intros; still. Qed.

Hypothesis some_admins : 1 <= channel_admin_limit.
Hypothesis some_group_admins : 1 <= basic_group_admin_limit.

Lemma good_handle cx now q d : sane q -> membership_ok d -> good now (mx_user_id cx) d (handle cx now q d).
Proof using some_admins some_group_admins.
  intros Hq Hd. destruct q; cbn [handle]; try apply good_ignoring; first
    [ by apply good_create | by apply good_edit_banned | by apply good_edit_admin | by apply good_edit_creator | by apply calm_good; [apply calm_delete|]
    | by apply good_leave | by apply good_invite | by apply good_join_channel | by apply calm_good; [apply calm_join_request|] | by apply calm_good; [apply calm_join_to_send|]
    | by apply calm_good; [apply calm_pre_history|] | by apply good_import | by apply calm_good; [apply calm_check|] | by apply good_export
    | by apply good_still; [apply still_get_link|] | by apply good_edit_link | by apply good_delete_link | by apply good_delete_revoked | by apply good_hide_request | by apply good_hide_all
    | by apply good_create_chat | by apply good_add_user | by apply good_delete_user | by apply good_chat_admin | by apply good_migrate
    | by apply calm_good; [first [apply calm_title|apply calm_about|apply calm_default_banned|apply calm_no_forwards|apply calm_delete_chat]|] ].
Qed.

(** Everything else: settings, privacy, other tables; channels and groups stay, and their members' rows and creators *)
Definition elsewhere (d d' : MembersDb) : Prop :=
  (forall p u, member_of p u d' = member_of p u d) /\ next_channel d' = next_channel d /\ (forall id, kept_channel (channels d !! id) (channels d' !! id)) /\
  next_group d' = next_group d /\ (forall g, kept_group (groups d !! g) (groups d' !! g)) /\ places_known d d' /\ privacy_ok d'.

Lemma elsewhere_ok d d' : elsewhere d d' -> membership_ok d -> membership_ok d'.
Proof.
  intros (Hm & Hn & Hk & Hng & Hg & Hi & Hp) Hd. set (d1 := with_rest (m_peers d') (m_next_peer d') (m_privacy d) (m_log d') d').
  assert (good 0 0 d (Ok tt, d1)) as [H _].
  { apply good_rows; [done|unfold places_kept; split_and!; [done..|by apply privacy_refl]|exact Hi|]. intros p u. left. apply Hm. }
  destruct H as [H1 H2 H3 H4 H5 H6 H7 _]. split; [exact H1|exact H2|exact H3|exact H4|exact H5|exact H6|exact H7|exact Hp].
Qed.

Inductive step (d : MembersDb) : MembersDb -> Prop :=
  | step_request cx now q : sane q -> step d (handle cx now q d).2
  | step_elsewhere d' : elsewhere d d' -> step d d'.
Definition no_places (d : MembersDb) : Prop := channels d = ∅ /\ groups d = ∅ /\ members d = ∅ /\ invites d = ∅ /\ privacy_ok d.
Definition reachable (d : MembersDb) : Prop := exists d0, no_places d0 /\ rtc step d0 d.

Lemma reachable_ok d : reachable d -> membership_ok d.
Proof using some_admins some_group_admins.
  intros (d0 & (Hc & Hg & Hm & Hi & Hp) & Hs). assert (membership_ok d0) as H0.
  { split; unfold member_of; rewrite ?Hc, ?Hg, ?Hm, ?Hi; try done. }
  clear Hc Hg Hm Hi Hp. induction Hs as [|d1 d2 d3 [cx now q Hq|d' He] _ IH]; [done| |]; apply IH; [by apply good_handle|by eapply elsewhere_ok].
Qed.


End MembershipSafety.

(** ** A channel is made, its link is sent, and it is followed. *)
Definition some_hmac (_ : bytes) : bytes := replicate 8 x00.
Definition some_payload (_ : signed_kind) (_ _ _ : Z) : bytes := [].
Definition no_query (_ : pystr) : result pystr := Raise ValueError.
Definition sample_handle (user now : Z) (q : request) : MM unit := handle some_hmac some_payload 200 1000 500 10 50 no_query (MkMembersCtx 1 user) now q.
Definition sample_db : MembersDb :=
  MkMembersDb ∅ 1 (<[7 := MkUserRow false false]> (<[8 := MkUserRow false false]> ∅)) (MkPrivacyDb ∅ ∅ ∅ ∅ ∅ 1) ∅ 1 ∅ 1 ∅ ∅ 1 ∅ 1 ∅ [].
Definition sample_nonce : bytes := byte_of <$> [1; 2; 3; 4; 5; 6; 7; 8].
Definition sample_hash : pystr := text_of "AQAAAAAAAAABAgMEBQYHCA".
Definition sample_made : MembersDb := (sample_handle 7 10 (Creates true false (MkCreateChannel (text_of "Room") [] false true false)) sample_db).2.
Definition sample_linked : MembersDb := (sample_handle 7 20 (Exports sample_nonce (MkExport (InputChannel 3 0) true false None false None None)) sample_made).2.
Definition sample_joined : MembersDb := (sample_handle 8 30 (Imports sample_hash) sample_linked).2.
Definition sample_ban : request := EditsBanned (MkEditBanned (InputChannel 3 0) (InputUser 8 0) Banned.VIEW_MESSAGES 0).

Definition sample_step := step some_hmac some_payload 200 1000 500 10 50 no_query.
Lemma sample_request user now q d : sane q -> sample_step d (sample_handle user now q d).2.
Proof. intros Hq. by apply (step_request some_hmac some_payload 200 1000 500 10 50 no_query d (MkMembersCtx 1 user)). Qed.
Lemma sample_no_places : no_places sample_db.
Proof. split_and!; [done..|]. split; [split; done|done]. Qed.
Lemma sample_reachable : reachable some_hmac some_payload 200 1000 500 10 50 no_query sample_joined.
Proof.
  exists sample_db. split; [apply sample_no_places|]. change (rtc sample_step sample_db sample_joined).
  apply (rtc_l _ _ sample_made); [by apply sample_request|]. apply (rtc_l _ _ sample_linked); [by apply sample_request|].
  apply rtc_once. by apply sample_request.
Qed.


