(* ===== verification/Messages.v ===== *)
(** Messages: sending, editing and pinning ([piltover/app/handlers/messages/sending.py]) over [MessageRef.create_for_peer] ([piltover/db/models/message_ref.py]) and the read
    marks of [piltover/db/models/read_state.py].

    A message is one content and a reference to it for every peer it stands in: one in a channel, one for each side of a private chat, one for each member of a basic group.
    Members, chats and peers are those of [Members.v]. Texts are code points, time is in microseconds, dates of requests in seconds. Forums, mentions, the deletion tasks of messages that
    expire and the bot API are not modelled; what is sent is a log of events. *)
From stdpp Require Import gmap sorting.
From S2P Require Import Prelude PyBytes AccessHash Privacy Peers Rights Members.

(** ** Rows *)
Inductive MessageType :=
  | REGULAR | SERVICE_PIN_MESSAGE | SERVICE_CHAT_CREATE | SERVICE_CHAT_EDIT_TITLE | SERVICE_CHAT_EDIT_PHOTO | SERVICE_CHAT_USER_ADD | SERVICE_CHAT_USER_DEL | SERVICE_CHAT_USER_INVITE_JOIN
  | SERVICE_CHAT_USER_REQUEST_JOIN | SERVICE_CHANNEL_CREATE | SERVICE_CHAT_UPDATE_WALLPAPER | SERVICE_CHAT_UPDATE_TTL | SERVICE_CHAT_MIGRATE_TO | SERVICE_CHAT_MIGRATE_FROM
  | SERVICE_PHONE_CALL | SERVICE_TOPIC_CREATE | SERVICE_TOPIC_EDIT | SERVICE_GROUP_CALL | SERVICE_PAYMENT | SCHEDULED.
Inductive MediaType := DOCUMENT | PHOTO | POLL | CONTACT | GEOPOINT | DICE | INVOICE.
(** The types of files that filters of messages tell apart *)
Inductive FileKind := DOCUMENT_VIDEO | DOCUMENT_GIF | DOCUMENT_VOICE | DOCUMENT_AUDIO | DOCUMENT_VIDEO_NOTE | FILE_OTHER.
#[export] Instance message_type_eq_dec : EqDecision MessageType.
Proof. solve_decision. Defined.
#[export] Instance media_type_eq_dec : EqDecision MediaType.
Proof. solve_decision. Defined.
#[export] Instance file_kind_eq_dec : EqDecision FileKind.
Proof. solve_decision. Defined.

Record Media := MkMedia { md_id : Z; md_file : option (Z * FileKind); md_type : MediaType }.
Record Content := MkContent {
  mc_author : Z; mc_type : MessageType; mc_message : option pystr; mc_entities : option bytes; mc_media : option Media; mc_date : Z; mc_edit_date : option Z; mc_edit_hide : bool;
  mc_version : Z; mc_scheduled_date : option Z; mc_channel_post : bool; mc_anonymous : bool; mc_post_author : option pystr; mc_reply_markup : option bytes; mc_no_forwards : bool;
  mc_send_as : option Z }.
Record Ref := MkRef {
  mr_content : Z; mr_peer : Z; mr_random_id : option Z; mr_random_user : option Z; mr_pinned : bool; mr_version : Z; mr_reply_to : option Z; mr_scheduled_by : option Z }.

Inductive message_event :=
  | StatusSent (peer : Z)
  | DraftCleared (user peer : Z)
  | DialogsShown (peers : list Z)
  | DialogHidden (user peer : Z)
  | NewMessages (user : Z) (refs : list Z)
  | NewChannelMessage (user channel ref : Z)
  | NewScheduled (user ref : Z)
  | MessagesEdited (user : Z) (refs : list Z)
  | MessagesPinned (user : Z) (refs : list Z)
  | MessagesDeleted (user : Z) (refs : list Z)
  | InboxRead (user peer max_id unread : Z)
  | OutboxRead (reads : list (Z * Z))
  | AvailableFrom (channel : Z) (user : option Z) (min_id : Z)
  | ChatShown (chat : Z).

Record MessagesDb := MkMessagesDb {
  mdb : MembersDb;
  contents : gmap Z Content; next_content : Z;
  refs : gmap Z Ref; next_ref : Z;
  reads : gmap (Z * Z) Z;                                   (* [ReadState]: owner and peer *)
  last_message : gmap Z Z;                                   (* [last_message_id] of a peer *)
  slowmode_seconds : gmap Z Z; signatures : gset Z;          (* columns of channels that [Members.v] leaves out *)
  last_slow : gmap (Z * Z) Z;                                (* [SlowmodeLastMessage]: channel and user *)
  ms_log : list message_event }.
Abbreviation MS := (M MessagesDb).

Definition with_mdb (d : MembersDb) (s : MessagesDb) : MessagesDb :=
  MkMessagesDb d (contents s) (next_content s) (refs s) (next_ref s) (reads s) (last_message s) (slowmode_seconds s) (signatures s) (last_slow s) (ms_log s).
Definition with_contents (c : gmap Z Content) (n : Z) (s : MessagesDb) : MessagesDb :=
  MkMessagesDb (mdb s) c n (refs s) (next_ref s) (reads s) (last_message s) (slowmode_seconds s) (signatures s) (last_slow s) (ms_log s).
Definition with_refs (r : gmap Z Ref) (n : Z) (s : MessagesDb) : MessagesDb :=
  MkMessagesDb (mdb s) (contents s) (next_content s) r n (reads s) (last_message s) (slowmode_seconds s) (signatures s) (last_slow s) (ms_log s).
Definition with_reads (r : gmap (Z * Z) Z) (s : MessagesDb) : MessagesDb :=
  MkMessagesDb (mdb s) (contents s) (next_content s) (refs s) (next_ref s) r (last_message s) (slowmode_seconds s) (signatures s) (last_slow s) (ms_log s).
Definition with_last (l : gmap Z Z) (s : MessagesDb) : MessagesDb :=
  MkMessagesDb (mdb s) (contents s) (next_content s) (refs s) (next_ref s) (reads s) l (slowmode_seconds s) (signatures s) (last_slow s) (ms_log s).
Definition with_slow (l : gmap (Z * Z) Z) (s : MessagesDb) : MessagesDb :=
  MkMessagesDb (mdb s) (contents s) (next_content s) (refs s) (next_ref s) (reads s) (last_message s) (slowmode_seconds s) (signatures s) l (ms_log s).
Definition tell (e : message_event) : MS unit := modify (fun s =>
  MkMessagesDb (mdb s) (contents s) (next_content s) (refs s) (next_ref s) (reads s) (last_message s) (slowmode_seconds s) (signatures s) (last_slow s) (ms_log s ++ [e])).
Definition on_members {A} (m : MM A) : MS A := fun s => let '(r, d) := m (mdb s) in (r, with_mdb d s).

(** ** Queries *)
Definition refs_where (f : Z * Ref -> bool) (s : MessagesDb) : list (Z * Ref) := map_to_list (filter (fun kr => f kr = true) (refs s)).
Definition content_is (f : Content -> bool) (s : MessagesDb) (r : Ref) : bool := match contents s !! mr_content r with Some c => f c | None => false end.
Definition has_type (ts : list MessageType) (s : MessagesDb) (r : Ref) : bool := content_is (fun c => bool_decide (mc_type c ∈ ts)) s r.
Definition desc (a b : Z) : Prop := b <= a.
#[export] Instance desc_dec a b : Decision (desc a b).
Proof. unfold desc. apply _. Defined.
(** [order_by("-id")] *)
Definition ids_desc (f : Z * Ref -> bool) (s : MessagesDb) : list Z := merge_sort desc (fst <$> refs_where f s).

(** The chat or channel of a peer *)
Definition place_of (p : Peer) : option place :=
  match p_type p with CHAT => InChat <$> p_chat p | CHANNEL => InChannel <$> p_channel p | _ => None end.
Definition from_oneself (a b : Peer) : bool := bool_decide (p_owner a = p_user b) && bool_decide (p_user a = p_owner b).

(** [append_channel_min_message_id_to_query_maybe]: what of a channel [user] may see. [participant] is his row, when it is at hand. *)
Definition at_least (m : option Z) (id : Z) : bool := match m with Some m => if m =? 0 then true else m <=? id | None => true end.
Definition available (d : MembersDb) (s : MessagesDb) (channel : Z) (participant : option Member) (user : option Z) (id : Z) (r : Ref) : bool :=
  match channels d !! channel with
  | None => true
  | Some c =>
    let h := ch_history c in
    at_least (min_available_id_force h) id && (negb (hidden_prehistory h) || at_least (min_available_id h) id) &&
    match participant ≫= (fun m => min_message_id (mb m)), user with
    | Some m, _ => m <=? id
    | None, Some u => or_zero (m ← get_participant (InChannel channel) u false d; min_message_id (mb m)) <=? id
    | None, None => true
    end &&
    match user with
    | Some u => if is_broadcast (ch c) then content_is (fun c => negb (bool_decide (mc_type c = SERVICE_CHAT_USER_INVITE_JOIN)) || (mc_author c =? u)) s r else true
    | None => true
    end
  end.
Definition available_in (s : MessagesDb) (p : Peer) (participant : option Member) (user : option Z) (kr : Z * Ref) : bool :=
  match p_type p, p_channel p with
  | CHANNEL, Some c => available (mdb s) s c participant (match p_owner p with Some o => Some o | None => user end) kr.1 kr.2
  | _, _ => true
  end.

(** The references of a content that a request in a peer reaches: on both sides of a private chat, of every member of a basic group *)
Definition same_talk (p : Z * Peer) (q : option Peer) (peer_id : Z) : bool :=
  match p_type p.2 with
  | SELF | CHANNEL => peer_id =? p.1
  | USER => (peer_id =? p.1) || match q with Some q => from_oneself q p.2 | None => false end
  | CHAT => match q with Some q => bool_decide (p_chat q = p_chat p.2) | None => false end
  end.
Definition peer_row (s : MessagesDb) (id : Z) : option Peer := m_peers (mdb s) !! id.

(** ** Read marks *)
Definition last_read (owner peer : Z) (s : MessagesDb) : Z := default 0 (reads s !! (owner, peer)).
Definition unread (user peer last : Z) (s : MessagesDb) : Z :=
  Z.of_nat (length (refs_where (fun kr => (mr_peer kr.2 =? peer) && (last <? kr.1) && content_is (fun c => negb (mc_author c =? user)) s kr.2) s)).
(** [ReadState.get_or_create] *)
Definition get_read_state (owner peer : Z) : MS Z :=
  s ← get;
  modify (with_reads (<[(owner, peer) := last_read owner peer s]> (reads s)));;
  mret (last_read owner peer s).
Definition set_read_state (owner peer last : Z) : MS unit := modify (fun s => with_reads (<[(owner, peer) := last]> (reads s)) s).

(** ** Creating *)
Definition insert_ref (s : MessagesDb) (r : Ref) : MessagesDb := with_refs (<[next_ref s := r]> (refs s)) (next_ref s + 1) s.
Definition insert_refs (rs : list Ref) (s : MessagesDb) : MessagesDb := foldl insert_ref s rs.
Definition ref_of (peer content : Z) (s : MessagesDb) : option Z := fst <$> head (refs_where (fun kr => (mr_peer kr.2 =? peer) && (mr_content kr.2 =? content)) s).
(** [Peer.sync_last_message_bulk]: a peer without messages keeps the last it had. *)
Definition newest (peer : Z) (s : MessagesDb) : option Z := head (ids_desc (fun kr => mr_peer kr.2 =? peer) s).
Definition sync_last_message_bulk (ids : list Z) : MS unit := modify (fun s =>
  with_last (foldl (fun l p => match newest p s with Some m => <[p := m]> l | None => l end) (last_message s) ids) s).
(** The unique constraint on peer, random id and user *)
Definition same_random (r r' : Ref) : bool :=
  (mr_peer r =? mr_peer r') && bool_decide (is_Some (mr_random_id r)) && bool_decide (mr_random_id r = mr_random_id r') &&
  bool_decide (is_Some (mr_random_user r)) && bool_decide (mr_random_user r = mr_random_user r').
Definition new_ref (content : Z) (random_id random_user scheduled_by : option Z) (reply_to : Z -> option Z) (peer to_peer : Z) : Ref :=
  MkRef content to_peer (if to_peer =? peer then random_id else None) (if to_peer =? peer then random_user else None) false 0 (reply_to to_peer) scheduled_by.

(** The content is written before the transaction of its references. Of the result, the ids of the peers and of their references. *)
Definition create_for_peer (peer : Z * Peer) (content : Content) (random_id random_user : option Z) (opposite unhide_dialog : bool) (reply_to : option Ref)
    (scheduled_by : option Z) : MS (list (Z * Z)) :=
  s ← get;
  let id := next_content s in
  modify (with_contents (<[id := content]> (contents s)) (id + 1));;
  others ← (if opposite && negb (bool_decide (p_type peer.2 = CHANNEL)) then on_members (on_peers (get_opposite peer.2 false)) else mret []);
  let peers := peer.1 :: (fst <$> others) in
  s ← get;
  let replies to_peer := match reply_to with Some r => ref_of to_peer (mr_content r) s | None => None end in
  let new := new_ref id random_id random_user scheduled_by replies peer.1 <$> peers in
  transaction (
    ensure (bool_decide (Forall (fun r => refs_where (fun kr => same_random kr.2 r) s = []) new)) RuntimeError;;
    modify (insert_refs new);;
    sync_last_message_bulk peers);;
  (if unhide_dialog then tell (DialogsShown peers) else mret tt);;
  mret (imap (fun i p => (p, next_ref s + Z.of_nat i)) peers).

(** ** Checks before sending *)
(** The rows of the user and of the other side *)
Definition is_bot (user : Z) (s : MessagesDb) : bool := default false (bot <$> m_users (mdb s) !! user).
Definition other_user (p : Peer) : option Z := match p_type p with USER => p_user p | _ => None end.

Definition _check_bot_blocked (user : Z) (p : Peer) : MS unit :=
  s ← get;
  ensure (negb (is_bot user s && match other_user p with
    | Some u => bool_decide (Exists (fun kp => owner_user u user kp && bool_decide (is_Some (p_blocked_at kp.2)) = true) (map_to_list (m_peers (mdb s))))
    | None => false end)) (ErrorRpc 400 "USER_IS_BLOCKED").
Definition _check_we_blocked_user (p : Peer) : MS unit :=
  ensure (negb (bool_decide (p_type p = USER) && bool_decide (is_Some (p_blocked_at p)))) (ErrorRpc 400 "YOU_BLOCKED_USER").
Definition _check_deactivated_user (p : Peer) : MS unit :=
  s ← get;
  ensure (negb match other_user p with Some u => default false (user_deleted <$> m_users (mdb s) !! u) | None => false end) (ErrorRpc 400 "INPUT_USER_DEACTIVATED").
Definition _check_disallow_send_to_bot (user : Z) (p : Peer) : MS unit :=
  s ← get;
  ensure (negb (is_bot user s && match p_type p, p_user p with SELF, _ => true | USER, Some u => is_bot u s | _, _ => false end)) (ErrorRpc 400 "USER_IS_BOT").

(** The message of the error ends in the number of seconds, which is negative. *)
Definition _check_channel_slowmode (channel : Z) (participant : option Member) (user now : Z) : MS unit :=
  s ← get;
  match slowmode_seconds s !! channel with
  | None => mret tt
  | Some secs =>
    if secs =? 0 then mret tt
    else if match participant with Some m => negb (left (mb m)) && is_admin (mb m) | None => false end then mret tt
    else match last_slow s !! (channel, user) with
      | None => mret tt
      | Some last => ensure (negb (now <? last + (secs - 1) * 1000000)) (ErrorRpc 420 "SLOWMODE_WAIT_")
      end
  end.
Definition _update_channel_slowmode_maybe (channel user now : Z) : MS unit :=
  s ← get;
  match slowmode_seconds s !! channel with
  | Some secs => if secs =? 0 then mret tt else modify (with_slow (<[(channel, user) := now]> (last_slow s)))
  | None => mret tt
  end.

Definition _resolve_noforwards (p : Peer) (user : option Z) (request_noforwards : bool) (s : MessagesDb) : bool :=
  match place_of p with
  | Some (InChat g) => default false (gr_no_forwards <$> groups (mdb s) !! g)
  | Some (InChannel c) => default false (ch_no_forwards <$> channels (mdb s) !! c)
  | None => false
  end || match user with Some u => is_bot u s && request_noforwards | None => false end.

Definition _make_supergroup_anonymous_maybe (p : Peer) (participant : option Member) (s : MessagesDb) : bool * option pystr :=
  match place_of p, participant with
  | Some (InChannel c), Some m =>
    if default false (ch_supergroup <$> channels (mdb s) !! c) && negb (Z.land (admin_rights (mb m)) Admin.ANONYMOUS =? 0)
    then (true, if bool_decide (admin_rank (mb m) = []) then None else Some (admin_rank (mb m)))
    else (false, None)
  | _, _ => (false, None)
  end.
(** Of a post in a broadcast channel, the signature; [first_name] is the user's. *)
Definition _make_channel_post_info_maybe (p : Peer) (first_name : pystr) (participant : option Member) (s : MessagesDb) : bool * option pystr :=
  match place_of p with
  | Some (InChannel c) =>
    if default false ((fun c => is_broadcast (ch c)) <$> channels (mdb s) !! c) then
      (true, match participant with
        | Some m => if bool_decide (admin_rank (mb m) = []) then (if bool_decide (c ∈ signatures s) then Some first_name else None) else Some (admin_rank (mb m))
        | None => if bool_decide (c ∈ signatures s) then Some first_name else None
        end)
    else (false, None)
  | _ => (false, None)
  end.

(** ** Sending *)
(** What other components say: [check_user_spam_blocked], [ensure_admin_bot_access], and whether the other side is a built-in bot *)
Record Surroundings := MkSurroundings { sr_spam : result unit; sr_admin_bot : result unit; sr_builtin_bot : bool }.
Record Sending := MkSending {
  sd_random_id : option Z; sd_reply_to : option Z; sd_clear_draft : bool; sd_opposite : bool; sd_scheduled_date : option Z; sd_unhide_dialog : bool }.

Definition schedule (date : Z) (c : Content) : Content :=
  MkContent (mc_author c) SCHEDULED (mc_message c) (mc_entities c) (mc_media c) (mc_date c) (mc_edit_date c) (mc_edit_hide c) (mc_version c) (Some (date * 1000000)) (mc_channel_post c)
    (mc_anonymous c) (mc_post_author c) (mc_reply_markup c) (mc_no_forwards c) (mc_send_as c).

Definition send_created_messages_internal (messages : list (Z * Z)) (opposite : bool) (peer : Z * Peer) (user : Z) (clear_draft : bool) : MS unit :=
  s ← get;
  (if opposite && negb (bool_decide (p_type peer.2 = CHANNEL)) && negb (is_bot user s) then tell (StatusSent peer.1) else mret tt);;
  (if clear_draft then tell (DraftCleared user peer.1) else mret tt);;
  match place_of peer.2, messages with
  | Some (InChannel c), [(_, r)] => tell (NewChannelMessage user c r)
  | Some (InChannel c), _ => mret tt
  | _, _ => tell (NewMessages user (snd <$> messages))
  end.

Section Messages.
Context (hmac_sha256 : bytes -> bytes) (payload : signed_kind -> Z -> Z -> Z -> bytes).
(** [APP_CONFIG] *)
Context (scheduled_instant_send_threshold max_message_length max_caption_length : Z).

(** A message older than what the user may see in a channel is not replied to. *)
Definition reply_id (peer : Peer) (user : Z) (opposite : bool) (reply_to : option Z) (s : MessagesDb) : option Z :=
  match reply_to ≫= nonzero, place_of peer with
  | Some r, Some (InChannel c) =>
    if opposite then
      match channels (mdb s) !! c ≫= (fun ch => min_id (ch_history ch) (mb <$> get_participant (InChannel c) user false (mdb s))) with
      | Some m => if r <=? m then None else Some r
      | None => Some r
      end
    else Some r
  | r, _ => r
  end.

Definition send_message_internal (now user : Z) (sr : Surroundings) (peer : Z * Peer) (a : Sending) (c : Content) : MS (list (Z * Z)) :=
  s ← get;
  (if sd_opposite a && negb (is_bot user s) then lift_result (sr_spam sr) else mret tt);;
  let to_bot := match other_user peer.2 with Some u => is_bot u s | None => false end in
  (if sd_opposite a && to_bot then lift_result (sr_admin_bot sr) else mret tt);;
  let opposite := sd_opposite a && negb (to_bot && sr_builtin_bot sr) in
  let reply_to_message_id := reply_id peer.2 user opposite (sd_reply_to a) s in
  reply_to ← match reply_to_message_id with
    | None => mret None
    | Some r =>
      match refs s !! r with
      | Some ref => if mr_peer ref =? peer.1 then mret (Some ref) else raise (ErrorRpc 400 "REPLY_TO_INVALID")
      | None => raise (ErrorRpc 400 "REPLY_TO_INVALID")
      end
    end;
  match (match sd_scheduled_date a with Some t => if now <? (t - scheduled_instant_send_threshold) * 1000000 then Some t else None | None => None end) with
  | Some t =>
    messages ← create_for_peer peer (schedule t c) (sd_random_id a) (Some user) false (sd_unhide_dialog a) reply_to (Some (mc_author c));
    tell (NewScheduled user (default 0 (snd <$> head messages)));;
    mret messages
  | None =>
    messages ← create_for_peer peer c (sd_random_id a) (Some user) opposite (sd_unhide_dialog a) reply_to None;
    send_created_messages_internal messages opposite peer user (sd_clear_draft a);;
    last ← get_read_state user peer.1;
    s ← get;
    (if unread user peer.1 last s =? 0 then set_read_state user peer.1 (default 0 (snd <$> head messages)) else mret tt);;
    mret messages
  end.

Definition get_from_random_id (user : Z) (peer : Z) (random_id : Z) (s : MessagesDb) : option Z :=
  fst <$> head (refs_where (fun kr => (mr_peer kr.2 =? peer) && bool_decide (mr_random_user kr.2 = Some user) && bool_decide (mr_random_id kr.2 = Some random_id)) s).

Definition process_send_as (cx : MembersCtx) (send_as : option InputPeer) : MS (option Z) :=
  match send_as with
  | Some (InputChannel c h) =>
    let id := norm_id c in
    ok ← lift_result (check_access_hash hmac_sha256 payload KChannel (mx_user_id cx) (mx_auth_id cx) id h);
    ensure ok (ErrorRpc 400 "SEND_AS_PEER_INVALID");;
    s ← get;
    ensure (match channels (mdb s) !! id with
      | Some c => (creator_id (ch c) =? mx_user_id cx) && is_broadcast (ch c) && negb (deleted (ch c)) && ch_username c
      | None => false end) (ErrorRpc 400 "SEND_AS_PEER_INVALID");;
    mret (Some id)
  | _ => mret None
  end.

(** The markup and the entities are as [process_reply_markup] and [process_message_entities] make them, or fail to. *)
Record SendMessage := MkSendMessage {
  sm_peer : InputPeer; sm_random_id : Z; sm_message : pystr; sm_reply_to : option Z; sm_schedule_date : option Z; sm_clear_draft : bool; sm_noforwards : bool;
  sm_send_as : option InputPeer; sm_reply_markup : result (option bytes); sm_entities : result (option bytes) }.
Inductive Sent := Repeated (ref : Z) | SentNow (messages : list (Z * Z)).

(** The row of the user *)
Definition get_user (user : Z) : MS UserRow := s ← get; match m_users (mdb s) !! user with Some u => mret u | None => raise DoesNotExist end.
Definition base_in (p : Peer) (s : MessagesDb) : option ChatBase := place_of p ≫= fun q => base_of q (mdb s).
Definition participant_in (p : Peer) (user : Z) (s : MessagesDb) : option Member := place_of p ≫= fun q => get_participant q user false (mdb s).
Definition peer_of_input (cx : MembersCtx) (i : InputPeer) : MS (Z * Peer) :=
  on_members (on_peers (from_input_peer_raise hmac_sha256 payload (mx_auth_id cx) (mx_user_id cx) i "PEER_ID_INVALID" 400 false None)).

Definition send_message (cx : MembersCtx) (now : Z) (first_name : pystr) (sr : Surroundings) (r : SendMessage) : MS Sent :=
  let user := mx_user_id cx in
  u ← get_user user;
  ensure (negb (match sm_schedule_date r with Some t => negb (t =? 0) | None => false end && bot u)) (ErrorRpc 400 "SCHEDULE_BOT_NOT_ALLOWED");;
  ensure (negb (sm_random_id r =? 0)) (ErrorRpc 400 "RANDOM_ID_EMPTY");;
  peer ← peer_of_input cx (sm_peer r);
  s ← get;
  match get_from_random_id user peer.1 (sm_random_id r) s with
  | Some ref => mret (Repeated ref)
  | None =>
    let participant := participant_in peer.2 user s in
    match base_in peer.2 s with
    | Some b => ensure (can_send_plain b (mb <$> participant)) (ErrorRpc 403 "CHAT_SEND_PLAIN_FORBIDDEN")
    | None => mret tt
    end;;
    match place_of peer.2 with Some (InChannel c) => _check_channel_slowmode c participant user now | _ => mret tt end;;
    _check_disallow_send_to_bot user peer.2;;
    lift_result (sr_spam sr);;
    _check_deactivated_user peer.2;;
    _check_we_blocked_user peer.2;;
    _check_bot_blocked user peer.2;;
    ensure (negb (bool_decide (sm_message r = []))) (ErrorRpc 400 "MESSAGE_EMPTY");;
    ensure (Z.of_nat (length (sm_message r)) <=? max_message_length) (ErrorRpc 400 "MESSAGE_TOO_LONG");;
    let '(is_channel_post, post_signature) := _make_channel_post_info_maybe peer.2 first_name participant s in
    let '(is_anonymous, post_signature) := if (is_channel_post : bool) then (false, post_signature) else _make_supergroup_anonymous_maybe peer.2 participant s in
    reply_markup ← lift_result (sm_reply_markup r);
    send_as ← process_send_as cx (sm_send_as r);
    match place_of peer.2 with Some (InChannel c) => _update_channel_slowmode_maybe c user now | _ => mret tt end;;
    entities ← lift_result (sm_entities r);
    messages ← send_message_internal now user sr peer (MkSending (Some (sm_random_id r)) (sm_reply_to r) (sm_clear_draft r) true (sm_schedule_date r) true)
      (MkContent user REGULAR (Some (sm_message r)) entities None now None false 0 None is_channel_post is_anonymous post_signature reply_markup
        (_resolve_noforwards peer.2 (Some user) (sm_noforwards r) s) send_as);
    mret (SentNow messages)
  end.

(** The right that a handler asks for in a chat or channel, with the row it is read from *)
Definition require_right (f : ChatBase -> option ChatParticipant -> bool) (user : Z) (p : Peer) (message refused : string) : MS (option Member) :=
  s ← get;
  match place_of p, base_in p s with
  | Some q, Some b =>
    m ← on_members (get_participant_raise q user message);
    ensure (f b (Some (mb m))) (ErrorRpc 403 refused);;
    mret (Some m)
  | _, _ => mret None
  end.

(** ** Editing *)
Record NewMedia := MkNewMedia { nm_empty : bool; nm_doc_or_photo : bool; nm_media : result Media }.
Record EditMessage := MkEditMessage {
  em_peer : InputPeer; em_id : Z; em_message : option pystr; em_media : option NewMedia; em_schedule_date : option Z; em_entities : result (option bytes); em_reply_markup : option (result (option bytes)) }.

Definition truthy {A} (f : A -> bool) (o : option A) : bool := match o with Some a => f a | None => false end.
Definition is_doc_or_photo (m : Media) : bool := match md_type m with DOCUMENT | PHOTO => true | _ => false end.

(** The errors of the media of an edit *)
Definition edit_media (content : Content) (r : EditMessage) : result (option Media) :=
  let new_has_media := truthy (fun m => negb (nm_empty m)) (em_media r) in
  match mc_media content with
  | None =>
    if negb (truthy (fun t => negb (bool_decide (t = []))) (em_message r)) && negb (truthy (fun t => negb (t =? 0)) (em_schedule_date r)) then Raise (ErrorRpc 400 "MESSAGE_EMPTY")
    else if new_has_media then Raise (ErrorRpc 400 "MEDIA_PREV_INVALID") else Ok None
  | Some old =>
    match em_media r with
    | None => Ok None
    | Some m =>
      if new_has_media && negb (nm_doc_or_photo m) then Raise (ErrorRpc 400 "MEDIA_NEW_INVALID")
      else if negb (is_doc_or_photo old) then Raise (ErrorRpc 400 "MEDIA_NEW_INVALID")
      else if negb new_has_media then Ok None
      else
        new ← nm_media m;
        if (md_id new =? md_id old) || bool_decide (fst <$> md_file new = fst <$> md_file old) then Raise (ErrorRpc 400 "MEDIA_NEW_INVALID") else Ok (Some new)
    end
  end.

Definition edited (now : Z) (bot_ : bool) (text : option pystr) (entities : option bytes) (media : option Media) (markup : option bytes) (date : option Z) (c : Content) : Content :=
  MkContent (mc_author c) (mc_type c) (match text with Some t => Some t | None => mc_message c end) (match text with Some _ => entities | None => mc_entities c end)
    (match media with Some m => Some m | None => mc_media c end) (mc_date c) (match mc_scheduled_date c with None => Some now | Some _ => None end) bot_ (mc_version c + 1) date
    (mc_channel_post c) (mc_anonymous c) (mc_post_author c) markup (mc_no_forwards c) (mc_send_as c).

Definition edit_message (cx : MembersCtx) (now : Z) (r : EditMessage) : MS (list Z) :=
  let user := mx_user_id cx in
  peer ← peer_of_input cx (em_peer r);
  require_right can_edit_messages user peer.2 "CHAT_RESTRICTED" "CHAT_WRITE_FORBIDDEN";;
  _check_bot_blocked user peer.2;;
  _check_deactivated_user peer.2;;
  _check_we_blocked_user peer.2;;
  s ← get;
  let found kr := (mr_peer kr.2 =? peer.1) && available_in s peer.2 None (Some user) kr &&
    match p_type peer.2 with
    | CHANNEL => has_type [REGULAR] s kr.2 || (bool_decide (mr_scheduled_by kr.2 = Some user) && has_type [SCHEDULED] s kr.2)
    | _ => has_type [REGULAR; SCHEDULED] s kr.2
    end in
  match refs s !! em_id r with
  | None => raise (ErrorRpc 400 "MESSAGE_ID_INVALID")
  | Some ref =>
    ensure (found (em_id r, ref)) (ErrorRpc 400 "MESSAGE_ID_INVALID");;
    match contents s !! mr_content ref with
    | None => raise DoesNotExist
    | Some content =>
      media ← lift_result (edit_media content r);
      ensure (match em_message r with Some t => Z.of_nat (length t) <=? (if bool_decide (is_Some (mc_media content)) then max_caption_length else max_message_length) | None => true end)
        (ErrorRpc 400 (if bool_decide (is_Some (mc_media content)) then "MEDIA_CAPTION_TOO_LONG" else "MESSAGE_TOO_LONG"));;
      ensure (mc_author content =? user) (ErrorRpc 403 "MESSAGE_AUTHOR_REQUIRED");;
      ensure (negb (bool_decide (mc_message content = em_message r))) (ErrorRpc 400 "MESSAGE_NOT_MODIFIED");;
      entities ← (if em_message r then lift_result (em_entities r) else mret None);
      markup ← match em_reply_markup r with
        | Some m => if is_bot user s then m ← lift_result m; mret (match m with Some m => Some m | None => mc_reply_markup content end) else mret (mc_reply_markup content)
        | None => mret (mc_reply_markup content)
        end;
      date ← match mc_scheduled_date content, em_schedule_date r with
        | Some _, Some t => ensure (negb (t <? (now - 30 * 1000000) / 1000000)) (ErrorRpc 400 "SCHEDULE_DATE_INVALID");; mret (Some (t * 1000000))
        | old, _ => mret old
        end;
      modify (fun s => with_contents (<[mr_content ref := edited now (is_bot user s) (em_message r) entities media markup date content]> (contents s)) (next_content s) s);;
      s ← get;
      let messages := fst <$> refs_where (fun kr => (mr_content kr.2 =? mr_content ref) && same_talk peer (peer_row s (mr_peer kr.2)) (mr_peer kr.2)) s in
      (if bool_decide (is_Some date) || bool_decide (p_type peer.2 = CHANNEL) then ensure (length messages =? 1)%nat Unreachable else mret tt);;
      tell (MessagesEdited user messages);;
      mret messages
    end
  end.

(** ** Pinning *)
Definition set_pinned (pinned : bool) (ids : list Z) : MS unit := modify (fun s =>
  with_refs (foldl (fun rs id => alter (fun r => MkRef (mr_content r) (mr_peer r) (mr_random_id r) (mr_random_user r) pinned (mr_version r + 1) (mr_reply_to r) (mr_scheduled_by r)) id rs) (refs s) ids)
    (next_ref s) s).
(** Here the side of one who has blocked the user is left out. *)
Definition pinned_for (peer : Z * Peer) (s : MessagesDb) (r : Ref) : bool :=
  match p_type peer.2 with
  | USER => (mr_peer r =? peer.1) || match peer_row s (mr_peer r) with Some q => from_oneself q peer.2 && bool_decide (p_blocked_at q = None) | None => false end
  | _ => same_talk peer (peer_row s (mr_peer r)) (mr_peer r)
  end.

Record UpdatePinnedMessage := MkUpdatePinned { up_peer : InputPeer; up_id : Z; up_silent : bool; up_unpin : bool; up_pm_oneside : bool }.
Definition service_pin (user now : Z) : Content := MkContent user SERVICE_PIN_MESSAGE None None None now None false 0 None false false None None false None.

Definition update_pinned_message (cx : MembersCtx) (now : Z) (sr : Surroundings) (r : UpdatePinnedMessage) : MS unit :=
  let user := mx_user_id cx in
  u ← get_user user;
  ensure (negb (bot u && up_pm_oneside r)) (ErrorRpc 400 "BOT_ONESIDE_NOT_AVAIL");;
  peer ← peer_of_input cx (up_peer r);
  require_right can_pin_messages user peer.2 "PIN_RESTRICTED" "PIN_RESTRICTED";;
  _check_bot_blocked user peer.2;;
  s ← get;
  match refs s !! up_id r with
  | None => raise (ErrorRpc 400 "MESSAGE_ID_INVALID")
  | Some ref =>
    ensure ((mr_peer ref =? peer.1) && has_type [REGULAR] s ref && available_in s peer.2 None (Some user) (up_id r, ref)) (ErrorRpc 400 "MESSAGE_ID_INVALID");;
    let ids := match p_type peer.2 with
      | CHANNEL => [up_id r]
      | _ => fst <$> refs_where (fun kr => (mr_content kr.2 =? mr_content ref) && pinned_for peer s kr.2) s
      end in
    set_pinned (negb (up_unpin r)) ids;;
    tell (MessagesPinned user ids);;
    if negb (up_unpin r) && negb (up_silent r) && (bool_decide (is_Some (place_of peer.2)) || negb (up_pm_oneside r))
    then send_message_internal now user sr peer (MkSending None (Some (up_id r)) false true None true) (service_pin user now);; mret tt
    else mret tt
  end.

Definition unpin_all_messages (cx : MembersCtx) (i : InputPeer) : MS Z :=
  let user := mx_user_id cx in
  peer ← peer_of_input cx i;
  participant ← require_right can_pin_messages user peer.2 "CHAT_RESTRICTED" "CHAT_WRITE_FORBIDDEN";
  get_user user;;
  _check_bot_blocked user peer.2;;
  s ← get;
  let ids := fst <$> refs_where (fun kr => same_talk peer (peer_row s (mr_peer kr.2)) (mr_peer kr.2) && available_in s peer.2 participant None kr &&
    mr_pinned kr.2 && has_type [REGULAR] s kr.2) s in
  if bool_decide (ids = []) then mret 0
  else
    set_pinned false ids;;
    tell (MessagesPinned user ids);;
    mret (Z.of_nat (length ids)).
End Messages.
