(* ===== verification/History.v ===== *)
(** History: what is read of messages and what is deleted ([piltover/app/handlers/messages/history.py], the deletions of [messages/sending.py] and
    [piltover/app/handlers/channels.py], [piltover/db/models/read_state.py]), over the tables of [Messages.v].

    A page of a conversation is the list of the ids it shows, newest first. Saved dialogs, reactions, mentions, replies and topics do not narrow the queries here, and forums have no
    marks of their own. *)
From stdpp Require Import gmap sorting.
From S2P Require Import Prelude PyBytes AccessHash Privacy Peers Rights Members Messages.

(** ** Queries *)
Inductive MessagesFilter :=
  | FilterEmpty | FilterPinned | FilterDocument | FilterPhotos | FilterPhotoVideo | FilterVideo | FilterGif | FilterVoice | FilterMusic | FilterRoundVoice | FilterRoundVideo | FilterUrl
  | FilterChatPhotos | FilterContacts | FilterGeo | FilterPhoneCalls | FilterOther.

Definition media_is (f : Media -> bool) (c : Content) : bool := match mc_media c with Some m => f m | None => false end.
Definition media_type_is (t : MediaType) : Content -> bool := media_is (fun m => bool_decide (md_type m = t)).
Definition file_is (k : FileKind) : Content -> bool := media_is (fun m => bool_decide (snd <$> md_file m = Some k)).
Definition URL_HTTPS : pystr := [104; 116; 116; 112; 115; 58; 47; 47].
Definition URL_HTTP : pystr := [104; 116; 116; 112; 58; 47; 47].
Definition URL_TME : pystr := [116; 46; 109; 101; 47].

(** What is asked of messages; zero and the empty text ask nothing. *)
Record Asked := MkAsked { as_max_id : Z; as_min_id : Z; as_from : Z; as_min_date : Z; as_max_date : Z; as_q : option pystr; as_filter : option MessagesFilter }.
Definition ask_nothing (max_id min_id : Z) : Asked := MkAsked max_id min_id 0 0 0 None None.

Section Queries.
(** The database's [LIKE] without case *)
Context (icontains : pystr -> pystr -> bool).
Definition text_contains (q : pystr) (c : Content) : bool := match mc_message c with Some t => icontains t q | None => false end.

Definition message_filter_to_query (f : MessagesFilter) : option (Ref -> Content -> bool) :=
  let only f := Some (fun (_ : Ref) c => f c) in
  match f with
  | FilterPinned => Some (fun r _ => mr_pinned r)
  | FilterDocument => only (media_type_is DOCUMENT)
  | FilterPhotos => only (media_type_is PHOTO)
  | FilterPhotoVideo => only (fun c => media_type_is PHOTO c || file_is DOCUMENT_VIDEO c)
  | FilterVideo => only (file_is DOCUMENT_VIDEO)
  | FilterGif => only (file_is DOCUMENT_GIF)
  | FilterVoice => only (file_is DOCUMENT_VOICE)
  | FilterMusic => only (file_is DOCUMENT_AUDIO)
  | FilterRoundVoice | FilterRoundVideo => only (fun c => file_is DOCUMENT_VOICE c || file_is DOCUMENT_VIDEO_NOTE c)
  | FilterUrl => only (fun c => text_contains URL_HTTPS c || text_contains URL_HTTP c || text_contains URL_TME c)
  | FilterChatPhotos => only (fun c => bool_decide (mc_type c = SERVICE_CHAT_EDIT_PHOTO))
  | FilterContacts => only (media_type_is CONTACT)
  | FilterGeo => only (media_type_is GEOPOINT)
  | FilterPhoneCalls => only (fun c => bool_decide (mc_type c = SERVICE_PHONE_CALL))
  | FilterOther => Some (fun _ _ => false)
  | FilterEmpty => None
  end.

(** Of [get_messages_query_internal], the part of its query that is not about where *)
Definition unless_zero (x : Z) (b : bool) : bool := (x =? 0) || b.
Definition asked_for (a : Asked) (s : MessagesDb) (kr : Z * Ref) : bool :=
  content_is (fun c =>
    match as_filter a ≫= message_filter_to_query with
    | Some f => f kr.2 c
    | None =>
      if bool_decide (as_filter a = None /\ as_q a = None) then negb (bool_decide (mc_type c = SCHEDULED)) else bool_decide (mc_type c = REGULAR)
    end &&
    match as_q a with Some q => bool_decide (q = []) || text_contains q c | None => true end &&
    unless_zero (as_from a) (mc_author c =? as_from a) &&
    unless_zero (as_min_date a) (as_min_date a * 1000000 <? mc_date c) && unless_zero (as_max_date a) (mc_date c <? as_max_date a * 1000000)) s kr.2 &&
  unless_zero (as_max_id a) (kr.1 <? as_max_id a) && unless_zero (as_min_id a) (as_min_id a <? kr.1).

(** The rest of it: from the ids that match, newest first, those around [offset_id] *)
Definition page (offset_id limit add_offset : Z) (ids : list Z) : list Z :=
  let limit := Z.to_nat (Z.max (Z.min 100 limit) 1) in
  if 0 <=? add_offset then
    take limit (drop (Z.to_nat add_offset) (if offset_id =? 0 then ids else filter (fun id => id < offset_id) ids))
  else
    let after := take (Nat.min (Z.to_nat (Z.abs add_offset)) limit) (reverse (filter (fun id => offset_id <= id) ids)) in
    if (limit <=? length after)%nat then filter (.∈ after) ids
    else
      let before := take (limit - length after) (filter (fun id => id < offset_id) ids) in
      filter (fun id => id ∈ before \/ id ∈ after) ids.

(** Where the messages are looked for: one peer, or all of one's own *)
Inductive where_ := InPeer (peer : Z * Peer) | AnyOwn.
Definition stands_in (w : where_) (user : Z) (s : MessagesDb) (kr : Z * Ref) : bool :=
  match w with
  | InPeer p => (mr_peer kr.2 =? p.1) && available_in s p.2 None (Some user) kr
  | AnyOwn => match peer_row s (mr_peer kr.2) with Some p => bool_decide (p_owner p = Some user) | None => false end
  end.
Definition get_messages_internal (user : Z) (w : where_) (a : Asked) (offset_id limit add_offset : Z) (s : MessagesDb) : list Z :=
  page offset_id limit add_offset (ids_desc (fun kr => stands_in w user s kr && asked_for a s kr) s).

(** ** The handlers that read *)
Inductive TLMessages := Messages (ids : list Z) | MessagesSlice (count offset_id_offset : Z) (ids : list Z).

(** [format_messages_internal] of a page of [peer] *)
Definition format_slice (user : Z) (peer : Z * Peer) (offset_id : Z) (ids : list Z) (s : MessagesDb) : TLMessages :=
  let all := refs_where (stands_in (InPeer peer) user s) s in
  if (length all <=? length ids)%nat && (offset_id =? 0) then Messages ids
  else MessagesSlice (Z.of_nat (length all)) (if offset_id =? 0 then 0 else Z.of_nat (length (filter (fun kr => offset_id <= kr.1) all))) ids.
End Queries.

Section History.
Context (hmac_sha256 : bytes -> bytes) (payload : signed_kind -> Z -> Z -> Z -> bytes) (icontains : pystr -> pystr -> bool).
(** [APP_CONFIG] *)
Context (channel_delete_history_min_id_threshold : Z).
#[local] Abbreviation asked_for := (asked_for icontains).
#[local] Abbreviation get_messages_internal := (get_messages_internal icontains).

Definition peer_of (cx : MembersCtx) (i : InputPeer) (message : string) (code : Z) (allow_migrated : bool) (types : option (list PeerType)) : MS (Z * Peer) :=
  on_members (on_peers (from_input_peer_raise hmac_sha256 payload (mx_auth_id cx) (mx_user_id cx) i message code allow_migrated types)).
Definition channel_of (cx : MembersCtx) (i : InputPeer) : MS (Z * Channel) := on_members (channel_raise hmac_sha256 payload cx i).
Definition participant_of (channel user : Z) : MS Member := on_members (get_participant_raise (InChannel channel) user "CHAT_RESTRICTED").

Definition get_history (cx : MembersCtx) (i : InputPeer) (max_id min_id offset_id limit add_offset : Z) : MS TLMessages :=
  match i with
  | InputEmpty => mret (Messages [])
  | _ =>
    let user := mx_user_id cx in
    peer ← peer_of cx i "PEER_ID_INVALID" 400 true None;
    s ← get;
    let ids := get_messages_internal user (InPeer peer) (ask_nothing max_id min_id) offset_id limit add_offset s in
    mret (if bool_decide (ids = []) then Messages [] else format_slice user peer offset_id ids s)
  end.

Record Search := MkSearch { se_peer : InputPeer; se_from : option InputPeer; se_asked : Asked; se_offset_id : Z; se_limit : Z; se_add_offset : Z }.
Definition messages_search (cx : MembersCtx) (r : Search) : MS TLMessages :=
  let user := mx_user_id cx in
  w ← match se_peer r with
    | InputEmpty => s ← get; match m_users (mdb s) !! user with Some _ => mret AnyOwn | None => raise DoesNotExist end
    | i => peer ← peer_of cx i "PEER_ID_INVALID" 400 true None; mret (InPeer peer)
    end;
  let from := match se_from r with Some (InputUser u _) => u | Some InputSelf => user | _ => 0 end in
  let a := se_asked r in
  s ← get;
  mret (Messages (get_messages_internal user w (MkAsked (as_max_id a) (as_min_id a) from (as_min_date a) (as_max_date a) (as_q a) (as_filter a)) (se_offset_id r) (se_limit r) (se_add_offset r) s)).
Definition search_global (cx : MembersCtx) (offset_id limit min_date max_date : Z) (q : option pystr) (f : option MessagesFilter) : MS TLMessages :=
  s ← get;
  match m_users (mdb s) !! mx_user_id cx with
  | Some _ => mret (Messages (get_messages_internal (mx_user_id cx) AnyOwn (MkAsked 0 0 0 min_date max_date q f) offset_id (Z.min (Z.max limit 1) 100) 0 s))
  | None => raise DoesNotExist
  end.

Definition get_search_counters (cx : MembersCtx) (i : InputPeer) (fs : list MessagesFilter) : MS (list (MessagesFilter * Z)) :=
  peer ← peer_of cx i "PEER_ID_INVALID" 400 true None;
  s ← get;
  let stands := stands_in (InPeer peer) (mx_user_id cx) s in
  mret ((fun f => (f, match message_filter_to_query icontains f with
    | Some q => Z.of_nat (length (refs_where (fun kr => stands kr && content_is (q kr.2) s kr.2) s))
    | None => 0 end)) <$> fs).

Inductive InputMessage := InputMessageID (id : Z) | InputMessageReplyTo (id : Z) | InputMessageOther.
Definition plain_ids (l : list InputMessage) : list Z := omap (fun m => match m with InputMessageID i => Some i | _ => None end) l.
Definition reply_ids (l : list InputMessage) : list Z := omap (fun m => match m with InputMessageReplyTo i => Some i | _ => None end) l.
(** One of the ids, or what one of the others replies to; [stands] says where both are looked for. *)
Definition named (stands : Z * Ref -> bool) (l : list InputMessage) (s : MessagesDb) (kr : Z * Ref) : bool :=
  bool_decide (kr.1 ∈ plain_ids l) || bool_decide (Exists (fun r => bool_decide (r.1 ∈ reply_ids l) && stands r && bool_decide (mr_reply_to r.2 = Some kr.1) = true) (map_to_list (refs s))).

(** Of a list of rows, the ids; what order the database gives them is not said. *)
Definition owned_by (user : Z) (s : MessagesDb) (r : Ref) : bool := match peer_row s (mr_peer r) with Some p => bool_decide (p_owner p = Some user) | None => false end.
Definition own_basic (user : Z) (s : MessagesDb) (kr : Z * Ref) : bool :=
  match peer_row s (mr_peer kr.2) with Some p => bool_decide (p_owner p = Some user) && negb (bool_decide (p_type p = CHANNEL)) | None => false end.
Definition get_messages (cx : MembersCtx) (l : list InputMessage) : MS (list Z) :=
  s ← get;
  let l := take 100 l in
  mret (if bool_decide (plain_ids l = [] /\ reply_ids l = []) then []
        else fst <$> refs_where (fun kr => named (own_basic (mx_user_id cx) s) l s kr && own_basic (mx_user_id cx) s kr) s).
Definition get_messages_57 (cx : MembersCtx) (ids : list Z) : MS (list Z) :=
  s ← get; mret (fst <$> refs_where (fun kr => bool_decide (kr.1 ∈ take 100 ids) && owned_by (mx_user_id cx) s kr.2) s).

Definition in_channel (channel : Z) (s : MessagesDb) (kr : Z * Ref) : bool :=
  match peer_row s (mr_peer kr.2) with Some p => bool_decide (p_channel p = Some channel) | None => false end.
Definition nojoin_allow_view (c : Channel) : bool := match kind (ch c) with IsChannel _ _ _ n => n | IsChat => false end.
Definition get_channel_messages (cx : MembersCtx) (i : InputPeer) (l : list InputMessage) : MS (list Z) :=
  c ← channel_of cx i;
  s ← get;
  let participant := get_participant (InChannel c.1) (mx_user_id cx) true (mdb s) in
  let banned := match participant with Some m => negb (Z.land (banned_rights (mb m)) Banned.VIEW_MESSAGES =? 0) | None => false end in
  let public := nojoin_allow_view c.2 || ch_username c.2 in
  ensure (negb ((negb public && bool_decide (participant = None)) || banned)) (ErrorRpc 400 "CHAT_RESTRICTED");;
  mret (if bool_decide (plain_ids l = [] /\ reply_ids l = []) then []
        else fst <$> refs_where (fun kr => named (in_channel c.1 s) l s kr && in_channel c.1 s kr && available (mdb s) s c.1 participant (Some (mx_user_id cx)) kr.1 kr.2) s).

(** ** Read marks *)
(** [get_in_out_ids_and_unread], without reactions and mentions *)
Definition get_in_out_ids_and_unread (user : Z) (peer : Z * Peer) : MS (Z * Z * Z) :=
  last ← get_read_state user peer.1; s ← get; mret (last, p_out_max_read_id peer.2, unread user peer.1 last s).
(** In bulk, only those peers are counted whose last message is above the mark, in one statement if there is any. *)
Definition for_peers_bulk (user : Z) (ps : list (Z * Peer)) : MS (list Z) := mapM (fun p => get_read_state user p.1) ps.
Definition get_in_out_ids_and_unread_bulk (user : Z) (ps : list (Z * Peer)) : MS (list (Z * Z * Z)) :=
  if bool_decide (ps = []) then mret []
  else
    marks ← for_peers_bulk user ps;
    s ← get;
    let fetch := bool_decide (Exists (fun p => last_read user p.1 s < or_zero (last_message s !! p.1)) ps) in
    mret (zip_with (fun p last => (last, p_out_max_read_id p.2, if fetch then unread user p.1 last s else 0)) ps marks).

Definition raise_out_mark (peer : Z * Peer) (m : Z) : MS unit := on_members (on_peers (update_max_read_id peer.1 peer.2 m));; mret tt.
Definition max_of (l : list Z) : Z := foldr Z.max 0 l.

(** Whether anything was read. In a basic group the marks of the others are looked for by a list in place of an id. *)
Definition read_history (cx : MembersCtx) (i : InputPeer) (max_id : Z) : MS bool :=
  let user := mx_user_id cx in
  peer ← peer_of cx i "PEER_ID_INVALID" 400 false (Some [SELF; USER; CHAT]);
  last ← get_read_state user peer.1;
  if negb (max_id =? 0) && (max_id <=? last) then mret false
  else
    s ← get;
    match ids_desc (fun kr => (mr_peer kr.2 =? peer.1) && unless_zero max_id (kr.1 <=? max_id)) s with
    | [] => raise TypeError
    | m :: _ =>
      if (m =? 0) || (m <=? last) then mret false
      else
        let content := default 0 (mr_content <$> refs s !! m) in
        (if bool_decide (p_type peer.2 = SELF) then raise_out_mark peer m else mret tt);;
        set_read_state user peer.1 m;;
        tell (InboxRead user peer.1 m (unread user peer.1 m s));;
        match p_type peer.2 with
        | SELF => mret true
        | USER =>
          s ← get;
          match filter (fun kp => from_oneself kp.2 peer.2 && bool_decide (is_Some (other_user peer.2 ≫= fun u => reads s !! (u, kp.1))) = true) (map_to_list (m_peers (mdb s))) with
          | [] => mret true
          | other :: _ =>
            let out := max_of (fst <$> refs_where (fun kr => (mr_peer kr.2 =? other.1) && (p_out_max_read_id other.2 <? kr.1) && (mr_content kr.2 <=? content)) s) in
            if out =? 0 then mret true
            else raise_out_mark other out;; tell (OutboxRead [(other.1, out)]);; mret true
          end
        | CHAT => raise TypeError
        | CHANNEL => raise Unreachable
        end
    end.

(** Whose messages up to a mark were read, and which was the last of each *)
Definition last_by_author (l : list (Z * Z)) : list (Z * Z) := (fun a => (a, max_of (snd <$> filter (fun x => x.1 = a) l))) <$> remove_dups (fst <$> l).
Definition read_channel_history (cx : MembersCtx) (i : InputPeer) (max_id : Z) : MS bool :=
  let user := mx_user_id cx in
  peer ← peer_of cx i "CHANNEL_PRIVATE" 406 false (Some [CHANNEL]);
  last ← get_read_state user peer.1;
  if max_id <=? last then mret true
  else
    s ← get;
    let channel := default 0 (p_channel peer.2) in
    match ids_desc (fun kr => (kr.1 <=? max_id) && (mr_peer kr.2 =? peer.1) && available (mdb s) s channel (member_of (InChannel channel) user (mdb s)) (Some user) kr.1 kr.2) s with
    | [] => mret true
    | m :: _ =>
      set_read_state user peer.1 m;;
      tell (InboxRead user peer.1 m (unread user peer.1 m s));;
      let prev := p_out_max_read_id peer.2 in
      let authors := omap (fun kr => (fun c => (mc_author c, kr.1)) <$> contents s !! mr_content kr.2)
        (refs_where (fun kr => (mr_peer kr.2 =? peer.1) && (prev <? kr.1) && (kr.1 <=? m) && content_is (fun c => negb (mc_author c =? user)) s kr.2) s) in
      if bool_decide (authors = []) then mret true
      else
        raise_out_mark peer m;;
        tell (OutboxRead (last_by_author authors));;
        mret true
    end.

(** ** Deleting *)
(** A reply to what is deleted stays, as a reply to nothing. *)
Definition unlink (gone : Z -> bool) (r : Ref) : Ref :=
  MkRef (mr_content r) (mr_peer r) (mr_random_id r) (mr_random_user r) (mr_pinned r) (mr_version r) (match mr_reply_to r with Some i => if gone i then None else Some i | None => None end)
    (mr_scheduled_by r).
Definition drop_refs (gone : Z * Ref -> bool) (s : MessagesDb) : MessagesDb :=
  with_refs (unlink (fun i => match refs s !! i with Some r => gone (i, r) | None => false end) <$> filter (fun kr => gone kr = false) (refs s)) (next_ref s) s.
Definition delete_refs (ids : list Z) : MS unit := modify (drop_refs (fun kr => bool_decide (kr.1 ∈ ids))).
(** Deleting contents or a peer takes the references with it. *)
Definition delete_contents (ids : list Z) : MS unit := modify (fun s =>
  let s := drop_refs (fun kr => bool_decide (mr_content kr.2 ∈ ids)) s in with_contents (filter (fun kc => kc.1 ∉ ids) (contents s)) (next_content s) s).
Definition delete_peer (id : Z) : MS unit := modify (fun s =>
  let s := drop_refs (fun kr => mr_peer kr.2 =? id) s in
  let d := mdb s in
  with_last (delete id (last_message s)) (with_reads (filter (fun k => k.1.2 <> id) (reads s))
    (with_mdb (with_rest (delete id (m_peers d)) (m_next_peer d) (m_privacy d) (m_log d) d) s))).

Definition leave_chat (chat user peer : Z) : MS unit :=
  on_members (modify (fun d => with_members (delete (make_id (InChat chat), user) (members d)) d));;
  delete_peer peer.

Definition delete_messages (cx : MembersCtx) (ids : list Z) (revoke : bool) : MS (list Z) :=
  let user := mx_user_id cx in
  s ← get;
  let named := refs_where (fun kr => bool_decide (kr.1 ∈ take 100 ids) && owned_by user s kr.2) s in
  let found := if revoke then refs_where (fun kr => bool_decide (mr_content kr.2 ∈ (mr_content ∘ snd) <$> named)) s else named in
  if bool_decide (found = []) then mret []
  else
    transaction (delete_refs (fst <$> found);; sync_last_message_bulk ((mr_peer ∘ snd) <$> found));;
    tell (MessagesDeleted user (fst <$> found));;
    mret (fst <$> found).

(** With a date, the query names a column that references do not have. *)
Record DeleteHistory := MkDeleteHistory { dh_peer : InputPeer; dh_max_id : Z; dh_min_date : Z; dh_max_date : Z; dh_revoke : bool }.
Definition delete_history (cx : MembersCtx) (r : DeleteHistory) : MS (list Z * Z) :=
  let user := mx_user_id cx in
  peer ← peer_of cx (dh_peer r) "PEER_ID_INVALID" 400 false None;
  ensure (negb (bool_decide (p_type peer.2 = CHANNEL))) (ErrorRpc 400 "PEER_ID_INVALID");;
  ensure ((dh_min_date r =? 0) && (dh_max_date r =? 0)) RuntimeError;;
  s ← get;
  let found := take 1001 (ids_desc (fun kr => (mr_peer kr.2 =? peer.1) && unless_zero (dh_max_id r) (kr.1 <=? dh_max_id r)) s) in
  let mine := take 1000 found in
  let offset_id := default 0 (found !! 1000%nat) in
  let content_ids := omap (fun id => mr_content <$> refs s !! id) mine in
  if bool_decide (content_ids = []) then mret ([], 0)
  else
    let others := if dh_revoke r && negb (bool_decide (p_type peer.2 = SELF)) then
        fst <$> refs_where (fun kr => bool_decide (mr_content kr.2 ∈ content_ids) && match peer_row s (mr_peer kr.2) with
          | Some q => match p_type peer.2 with
            | USER => from_oneself q peer.2
            | CHAT => negb (bool_decide (p_owner q = p_owner peer.2)) && bool_decide (p_chat q = p_chat peer.2)
            | _ => false
            end
          | None => false
          end) s
      else [] in
    delete_contents content_ids;;
    tell (MessagesDeleted user (mine ++ others));;
    (if offset_id =? 0 then
      tell (DialogHidden user peer.1);;
      match place_of peer.2 with
      | Some (InChat g) =>
        leave_chat g user peer.1;;
        tell (ChatShown g)
      | _ => mret tt
      end
    else mret tt);;
    mret (mine, offset_id).

(** [Peer.get(channel_id=...)] *)
Definition channel_peer (channel : Z) : MS Z :=
  s ← get;
  match filter (fun kp => p_channel kp.2 = Some channel) (map_to_list (m_peers (mdb s))) with
  | kp :: _ => mret kp.1
  | [] => raise DoesNotExist
  end.
Definition deleting_admin (c : Z * Channel) (user : Z) (message : string) : MS Member :=
  m ← participant_of c.1 user;
  ensure (admin_has_permission (ch c.2) (mb m) Admin.DELETE_MESSAGES) (ErrorRpc 403 message);;
  mret m.

Definition delete_channel_messages (cx : MembersCtx) (i : InputPeer) (ids : list Z) : MS (list Z) :=
  let user := mx_user_id cx in
  c ← channel_of cx i;
  m ← deleting_admin c user "MESSAGE_DELETE_FORBIDDEN";
  peer ← channel_peer c.1;
  s ← get;
  let found := fst <$> refs_where (fun kr => bool_decide (kr.1 ∈ take 100 ids) && (mr_peer kr.2 =? peer) && available (mdb s) s c.1 (Some m) (Some user) kr.1 kr.2) s in
  if bool_decide (found = []) then mret []
  else
    transaction (delete_refs found;; sync_last_message_bulk [peer]);;
    tell (MessagesDeleted user found);;
    mret found.

Definition set_min_message (m : option Z) (x : Member) : Member :=
  let r := mb x in MkMember (MkParticipant (user_id r) (inviter_id r) (invited_at r) (banned_rights r) (admin_rights r) (admin_rank r) (promoted_by_id r) m (left r)) (mb_invite x) (mb_banned_until x).
Definition set_min_available (id : Z) (c : Channel) : Channel :=
  MkChannel (ch c) (ch_supergroup c) (MkHistory (hidden_prehistory (ch_history c)) (Some id) (Some id)) (ch_join_request c) (ch_username c) (ch_discussion c) (ch_admins_count c)
    (ch_migrated_from c) (ch_no_forwards c).
(** For everyone, all but the newest of the messages up to [max_id] *)
Definition delete_channel_history (cx : MembersCtx) (i : InputPeer) (max_id : Z) (for_everyone : bool) : MS unit :=
  let user := mx_user_id cx in
  c ← channel_of cx i;
  m ← participant_of c.1 user;
  s ← get;
  let new_min := default 0 (head (ids_desc (fun kr => in_channel c.1 s kr && (kr.1 <=? max_id)) s)) in
  if negb for_everyone then
    if new_min <? or_zero (min_message_id (mb m)) then mret tt
    else
      on_members (set_member (InChannel c.1) user (set_min_message (nonzero new_min) m));;
      tell (AvailableFrom c.1 (Some user) new_min)
  else
    ensure (admin_has_permission (ch c.2) (mb m) Admin.DELETE_MESSAGES) (ErrorRpc 403 "CHAT_ADMIN_REQUIRED");;
    peer ← channel_peer c.1;
    let ids := take (Z.to_nat (channel_delete_history_min_id_threshold + 1)) (ids_desc (fun kr => (mr_peer kr.2 =? peer) && (kr.1 <=? max_id)) s) in
    if channel_delete_history_min_id_threshold <? Z.of_nat (length ids) then
      on_members (change_channel c.1 (set_min_available (default 0 (head ids))));;
      tell (AvailableFrom c.1 None new_min)
    else
      match ids with
      | [] => raise IndexError
      | _ :: rest =>
        transaction (delete_refs rest;; sync_last_message_bulk [peer]);;
        tell (MessagesDeleted user rest)
      end.

Definition delete_participant_history (cx : MembersCtx) (i target : InputPeer) : MS (list Z * Z) :=
  let user := mx_user_id cx in
  c ← channel_of cx i;
  deleting_admin c user "CHAT_ADMIN_REQUIRED";;
  t ← lift_result (type_and_id_from_input_raise hmac_sha256 payload (mx_auth_id cx) user target "PARTICIPANT_ID_INVALID" 400);
  ensure (bool_decide (t.1 ∈ [SELF; USER])) (ErrorRpc 400 "PEER_ID_INVALID");;
  peer ← channel_peer c.1;
  s ← get;
  let found := take 1001 (ids_desc (fun kr => (mr_peer kr.2 =? peer) && content_is (fun c => mc_author c =? t.2) s kr.2) s) in
  if bool_decide (found = []) then mret ([], 0)
  else
    let offset_id := default 0 (found !! 1000%nat) in
    let gone := take 1000 found in
    transaction (delete_refs gone;; sync_last_message_bulk [peer]);;
    tell (MessagesDeleted user gone);;
    mret (gone, offset_id).
End History.
