(* ===== verification/MessagesSpec.v ===== *)
(** What messages may do, said without the handlers: a machine whose steps write, share, edit, pin and delete messages, each with the reason that lets a user take it. The
    steps keep the tables in order. That the handlers take only such steps is shown in [MessagesSafety.v]. *)
From stdpp Require Import gmap sorting.
From S2P Require Import Prelude PyBytes AccessHash Privacy Peers Rights Members Messages History HistoryFacts.

(** ** Tables in order *)
Definition typed (s : MessagesDb) : Prop := db_typed (peer_view (mdb s)).
(** The peers of two who talk to each other, or of two in one basic group *)
Definition one_talk (p q : Peer) : Prop :=
  (p_type p = USER /\ p_type q = USER /\ p_owner q = p_user p /\ p_user q = p_owner p) \/ (p_type p = CHAT /\ p_type q = CHAT /\ p_chat p = p_chat q /\ p_owner p <> p_owner q).
Definition talk (s : MessagesDb) (a b : Z) : Prop := exists p q, peer_row s a = Some p /\ peer_row s b = Some q /\ one_talk p q.

Record messages_ok (s : MessagesDb) : Prop := {
  mk_typed : typed s;
  mk_next : 0 < next_ref s;
  mk_ref : forall i r, refs s !! i = Some r -> 0 < i < next_ref s /\ is_Some (contents s !! mr_content r) /\ is_Some (peer_row s (mr_peer r));
  mk_content : forall k c, contents s !! k = Some c -> k < next_content s;
  mk_one : forall i j r r', refs s !! i = Some r -> refs s !! j = Some r' -> mr_content r = mr_content r' -> i <> j -> mr_peer r <> mr_peer r' /\ talk s (mr_peer r) (mr_peer r');
  mk_random : forall i j r r', refs s !! i = Some r -> refs s !! j = Some r' -> i <> j -> same_random r r' = false;
  mk_reply : forall i r j, refs s !! i = Some r -> mr_reply_to r = Some j -> exists r', refs s !! j = Some r' /\ mr_peer r' = mr_peer r;
  mk_last : forall i r, refs s !! i = Some r -> exists m, last_message s !! mr_peer r = Some m /\ i <= m;
}.

(** ** What a user may *)
Definition own_peer (user : Z) (s : MessagesDb) (id : Z) : Prop := exists p, peer_row s id = Some p /\ p_owner p = Some user.
(** He has a copy of the content. *)
Definition has_copy (user : Z) (s : MessagesDb) (k : Z) : Prop := exists i r, refs s !! i = Some r /\ mr_content r = k /\ own_peer user s (mr_peer r).
(** His right in the place of a peer, if it has one *)
Definition place_right (user : Z) (s : MessagesDb) (p : Peer) (f : ChatBase -> option ChatParticipant -> bool) : Prop :=
  match place_of p with
  | Some q => exists b, base_of q (mdb s) = Some b /\ f b (mb <$> get_participant q user false (mdb s)) = true
  | None => True
  end.
(** A peer he stands in: his own, or a channel's *)
Definition his_peer (user : Z) (p : Peer) : Prop := p_owner p = Some user \/ p_type p = CHANNEL.
Definition may_post (b : ChatBase) (p : option ChatParticipant) : bool := can_send_plain b p || (bool_decide (is_Some p) && can_pin_messages b p).
Definition channel_admin (user : Z) (s : MessagesDb) (channel right : Z) : Prop := exists c m,
  channels (mdb s) !! channel = Some c /\ get_participant (InChannel channel) user false (mdb s) = Some m /\ admin_has_permission (ch c) (mb m) right = true.
Definition may_delete (user : Z) (s : MessagesDb) (r : Ref) : Prop :=
  has_copy user s (mr_content r) \/ exists p c, peer_row s (mr_peer r) = Some p /\ p_channel p = Some c /\ channel_admin user s c Admin.DELETE_MESSAGES.
Definition may_pin (user : Z) (s : MessagesDb) (r : Ref) : Prop := exists a p, peer_row s a = Some p /\ his_peer user p /\ (a = mr_peer r \/ talk s a (mr_peer r)) /\
  place_right user s p can_pin_messages.

(** ** The steps *)
(** Nothing of messages changes; peers may be created, marks and what is sent may change. *)
Record calm (s s' : MessagesDb) : Prop := {
  ca_grows : grows (peer_view (mdb s)) (peer_view (mdb s'));
  ca_mdb : members (mdb s') = members (mdb s) /\ channels (mdb s') = channels (mdb s) /\ groups (mdb s') = groups (mdb s) /\ m_users (mdb s') = m_users (mdb s);
  ca_tables : contents s' = contents s /\ next_content s' = next_content s /\ refs s' = refs s /\ next_ref s' = next_ref s /\ last_message s' = last_message s;
}.

Definition synced (ps : list Z) (s : MessagesDb) : MessagesDb := (sync_last_message_bulk ps s).2.
Definition same_talk_list (s : MessagesDb) (ps : list Z) : Prop := NoDup ps /\ forall a b, a ∈ ps -> b ∈ ps -> a <> b -> talk s a b.

Inductive change (user : Z) (s : MessagesDb) : MessagesDb -> Prop :=
  | Writes c : mc_author c = user -> change user s (with_contents (<[next_content s := c]> (contents s)) (next_content s + 1) s)
  | Shares k c a p others rs :
      contents s !! k = Some c -> mc_author c = user -> (forall i r, refs s !! i = Some r -> mr_content r <> k) ->
      peer_row s a = Some p -> his_peer user p -> place_right user s p may_post -> same_talk_list s (a :: others) ->
      mr_peer <$> rs = a :: others -> (forall r, r ∈ rs -> mr_content r = k) -> (forall r, r ∈ tail rs -> mr_random_id r = None) ->
      (forall r i r', r ∈ rs -> refs s !! i = Some r' -> same_random r' r = false) ->
      (forall r j, r ∈ rs -> mr_reply_to r = Some j -> exists r', refs s !! j = Some r' /\ mr_peer r' = mr_peer r) ->
      change user s (synced (a :: others) (insert_refs rs s))
  | Edits k c c' :
      contents s !! k = Some c -> mc_author c = user -> (exists i r p, refs s !! i = Some r /\ mr_content r = k /\ peer_row s (mr_peer r) = Some p /\ his_peer user p) ->
      mc_author c' = mc_author c -> mc_type c' = mc_type c -> mc_date c' = mc_date c -> mc_version c' = mc_version c + 1 ->
      change user s (with_contents (<[k := c']> (contents s)) (next_content s) s)
  | Pins b ids : (forall i, i ∈ ids -> exists r, refs s !! i = Some r /\ may_pin user s r) -> change user s (set_pinned b ids s).2
  | Deletes ids ps : (forall i, i ∈ ids -> exists r, refs s !! i = Some r /\ may_delete user s r) -> change user s (synced ps (delete_refs ids s).2)
  | Forgets ks : (forall k, k ∈ ks -> has_copy user s k) -> change user s (delete_contents ks s).2
  | Leaves a p g : peer_row s a = Some p -> p_owner p = Some user -> place_of p = Some (InChat g) ->
      change user s (delete_peer a (with_mdb (with_members (delete (make_id (InChat g), user) (members (mdb s))) (mdb s)) s)).2
  | Hides c m v : get_participant (InChannel c) user false (mdb s) = Some m -> or_zero (min_message_id (mb m)) <= or_zero v ->
      change user s (with_mdb (with_members (<[(make_id (InChannel c), user) := set_min_message v m]> (members (mdb s))) (mdb s)) s)
  | Cuts c v : channel_admin user s c Admin.DELETE_MESSAGES ->
      change user s (with_mdb (with_channels (alter (set_min_available v) c (channels (mdb s))) (next_channel (mdb s)) (mdb s)) s).
Definition moves (user : Z) (s s' : MessagesDb) : Prop := calm s s' \/ change user s s'.

(** ** Calm steps *)
Lemma calm_id s : typed s -> calm s s.
Proof. intros Ht. split; [by apply grows_refl|done..]. Qed.
Lemma calm_seq s1 s2 s3 : calm s1 s2 -> calm s2 s3 -> calm s1 s3.
Proof. intros [G1 (?&?&?&?) (?&?&?&?&?)] [G2 (?&?&?&?) (?&?&?&?&?)]. split; [by eapply grows_trans|..]; split_and!; congruence. Qed.
Lemma calm_row s s' a p : calm s s' -> peer_row s a = Some p -> exists p', peer_row s' a = Some p' /\ peer_columns p' = peer_columns p.
Proof. intros [[_ Hr _] _ _] Ha. destruct (Hr a p Ha) as (p' & Hp' & Hc & _). by exists p'. Qed.
Lemma columns_talk p q p' q' : peer_columns p' = peer_columns p -> peer_columns q' = peer_columns q -> one_talk p q -> one_talk p' q'.
Proof. unfold peer_columns, one_talk. intros [= -> -> -> -> _] [= -> -> -> -> _]. done. Qed.
Lemma talk_calm s s' a b : calm s s' -> talk s a b -> talk s' a b.
Proof.
  intros Hc (p & q & Hp & Hq & Ht). destruct (calm_row s s' a p Hc Hp) as (p' & Hp' & Ep), (calm_row s s' b q Hc Hq) as (q' & Hq' & Eq). exists p', q'.
  split_and!; [done..|]. by eapply columns_talk.
Qed.
Lemma talk_sym s a b : talk s a b -> talk s b a.
Proof. intros (p & q & Hp & Hq & Ht). exists q, p. split_and!; [done..|]. unfold one_talk in *. naive_solver. Qed.
Lemma talk_rows s s' a b : m_peers (mdb s') = m_peers (mdb s) -> talk s a b -> talk s' a b.
Proof. unfold talk, peer_row. by intros ->. Qed.

Lemma calm_ok s s' : calm s s' -> messages_ok s -> messages_ok s'.
Proof.
  intros Hc [H1 H2 H3 H4 H5 H6 H7 H8]. pose proof Hc as [[Ht _ _] _ (Ec & En & Er & Enr & El)]. split; rewrite ?Ec, ?En, ?Er, ?Enr, ?El; try done.
  - intros i r Hr. destruct (H3 i r Hr) as (? & ? & [p Hp]). split_and!; [lia..|done|]. destruct (calm_row s s' _ p Hc Hp) as (p' & Hp' & _). by exists p'.
  - intros i j r r' Hi Hj E Hne. destruct (H5 i j r r' Hi Hj E Hne) as [? ?]. split; [done|]. by eapply talk_calm.
Qed.

(** ** The steps keep the tables in order *)
Lemma head_max l x : StronglySorted Z.gt l -> x ∈ l -> exists m, head l = Some m /\ m ∈ l /\ x <= m.
Proof.
  intros Hs Hx. destruct Hs as [|m l Hs Hm]; [by apply elem_of_nil in Hx|]. exists m. split; [done|]. split; [by left|]. rewrite Forall_forall in Hm.
  apply elem_of_cons in Hx as [->|Hx]; [lia|]. specialize (Hm x Hx). lia.
Qed.
Lemma newest_max s i r : refs s !! i = Some r -> exists m, newest (mr_peer r) s = Some m /\ i <= m.
Proof.
  intros Hr. destruct (head_max (ids_desc (fun kr => mr_peer kr.2 =? mr_peer r) s) i) as (m & Hm & _ & Hi); [apply ids_desc_sorted| |by exists m].
  apply elem_ids_desc. exists r. split; [done|]. apply Z.eqb_refl.
Qed.
Lemma synced_fields ps s : mdb (synced ps s) = mdb s /\ contents (synced ps s) = contents s /\ next_content (synced ps s) = next_content s /\ refs (synced ps s) = refs s /\
  next_ref (synced ps s) = next_ref s.
Proof. done. Qed.
Lemma synced_last ps s i r : refs s !! i = Some r -> mr_peer r ∈ ps \/ (exists m, last_message s !! mr_peer r = Some m /\ i <= m) ->
  exists m, last_message (synced ps s) !! mr_peer r = Some m /\ i <= m.
Proof.
  intros Hr. unfold synced, sync_last_message_bulk. cbn [snd modify last_message with_last]. generalize (last_message s) as l. induction ps as [|p ps IH]; intros l H; cbn [foldl].
  - destruct H as [H|H]; [by apply elem_of_nil in H|done].
  - destruct (decide (p = mr_peer r)) as [->|Hne].
    + apply IH. right. destruct (newest_max s i r Hr) as (m & -> & Hm). exists m. by rewrite lookup_insert_eq.
    + apply IH. destruct H as [H|(m & Hm & Hi)]; [left; set_solver|right]. exists m. split; [|done]. destruct (newest p s); [|done]. by rewrite lookup_insert_ne.
Qed.

(** Steps that add no messages *)
Record shrinks (s s' : MessagesDb) : Prop := {
  sh_typed : typed s';
  sh_next : next_ref s' = next_ref s;
  sh_rows : forall a p, peer_row s' a = Some p -> peer_row s a = Some p;
  sh_content : forall k c, contents s' !! k = Some c -> k < next_content s';
  sh_refs : forall i r', refs s' !! i = Some r' -> exists r, refs s !! i = Some r /\ mr_content r' = mr_content r /\ mr_peer r' = mr_peer r /\
    mr_random_id r' = mr_random_id r /\ mr_random_user r' = mr_random_user r /\
    (forall j, mr_reply_to r' = Some j -> mr_reply_to r = Some j /\ is_Some (refs s' !! j)) /\
    is_Some (contents s' !! mr_content r) /\ is_Some (peer_row s' (mr_peer r)) /\
    ((exists m, last_message s !! mr_peer r = Some m /\ i <= m) -> exists m, last_message s' !! mr_peer r = Some m /\ i <= m);
}.
Lemma shrinks_ok s s' : shrinks s s' -> messages_ok s -> messages_ok s'.
Proof.
  intros [St Sn Sr Sc Sf] [H1 H2 H3 H4 H5 H6 H7 H8]. split; rewrite ?Sn; try done.
  - intros i r' Hr'. destruct (Sf i r' Hr') as (r & Hr & -> & -> & _ & _ & _ & ? & ? & _). by destruct (H3 i r Hr) as (? & _).
  - intros i j r r' Hi Hj. destruct (Sf i r Hi) as (x & Hx & -> & -> & _ & _ & _ & _ & [p Hp] & _), (Sf j r' Hj) as (y & Hy & -> & -> & _ & _ & _ & _ & [q Hq] & _).
    intros E Hne. destruct (H5 i j x y Hx Hy E Hne) as [? (p' & q' & Hp' & Hq' & Ht)]. split; [done|]. apply Sr in Hp as Ep. apply Sr in Hq as Eq. exists p, q. split_and!; [done..|]. congruence.
  - intros i j r r' Hi Hj. destruct (Sf i r Hi) as (x & Hx & _ & Ep & E1 & E2 & _), (Sf j r' Hj) as (y & Hy & _ & Ep' & E1' & E2' & _). intros Hne. specialize (H6 i j x y Hx Hy Hne).
    unfold same_random in *. by rewrite Ep, Ep', E1, E1', E2, E2'.
  - intros i r' j Hr' Hj. destruct (Sf i r' Hr') as (r & Hr & _ & -> & _ & _ & Hrep & _). destruct (Hrep j Hj) as [Hj1 [y Hy]]. exists y. split; [done|].
    destruct (H7 i r j Hr Hj1) as (y' & Hy' & <-). destruct (Sf j y Hy) as (z & Hz & _ & -> & _). congruence.
  - intros i r' Hr'. destruct (Sf i r' Hr') as (r & Hr & _ & -> & _ & _ & _ & _ & _ & Hl). by apply Hl, H8.
Qed.

(** Changing contents or the rest of the database *)
Lemma shrinks_contents s c n : messages_ok s -> next_content s <= n -> (forall k, is_Some (contents s !! k) -> is_Some (c !! k)) -> (forall k x, c !! k = Some x -> k < n) ->
  shrinks s (with_contents c n s).
Proof.
  intros [H1 H2 H3 H4 H5 H6 H7 H8] Hn Hc Hb. split; try done. intros i r Hr. exists r. destruct (H3 i r Hr) as (? & ? & ?). split_and!; try done; [|by apply Hc].
  intros j Hj. split; [done|]. destruct (H7 i r j Hr Hj) as (y & Hy & _). by exists y.
Qed.
Lemma shrinks_mdb s d : messages_ok s -> db_typed (peer_view d) -> m_peers d = m_peers (mdb s) -> shrinks s (with_mdb d s).
Proof.
  intros [H1 H2 H3 H4 H5 H6 H7 H8] Hd E. split; unfold peer_row; cbn; rewrite ?E; try done. intros i r Hr. exists r. destruct (H3 i r Hr) as (? & ? & ?). split_and!; try done.
  intros j Hj. split; [done|]. destruct (H7 i r j Hr Hj) as (y & Hy & _). by exists y.
Qed.
(** Of the rows of the peers, being in order depends on nothing else. *)
Lemma typed_peers d d' : m_peers d' = m_peers d -> m_next_peer d' = m_next_peer d -> db_typed (peer_view d) -> db_typed (peer_view d').
Proof. intros E1 E2 [H1 H2 H3]. split; cbn; rewrite ?E1, ?E2; done. Qed.
Lemma typed_delete d a : db_typed (peer_view d) -> db_typed (peer_view (with_rest (delete a (m_peers d)) (m_next_peer d) (m_privacy d) (m_log d) d)).
Proof.
  intros [H1 H2 H3]. split; cbn in *.
  - intros i p [_ Hp]%lookup_delete_Some. eauto.
  - intros i j p q [_ Hp]%lookup_delete_Some [_ Hq]%lookup_delete_Some. eauto.
  - intros i p [_ Hp]%lookup_delete_Some. eauto.
Qed.

(** Pinning *)
Definition same_ref (r r' : Ref) : Prop := mr_content r' = mr_content r /\ mr_peer r' = mr_peer r /\ mr_random_id r' = mr_random_id r /\ mr_random_user r' = mr_random_user r /\
  mr_reply_to r' = mr_reply_to r.
Lemma pinned_refs b ids s : let s' := (set_pinned b ids s).2 in
  (forall i, is_Some (refs s !! i) <-> is_Some (refs s' !! i)) /\ forall i r', refs s' !! i = Some r' -> exists r, refs s !! i = Some r /\ same_ref r r' /\ (i ∉ ids -> r' = r).
Proof.
  cbv zeta. unfold set_pinned. cbn [snd modify refs with_refs]. generalize (refs s) as m. induction ids as [|x ids IH]; intros m; cbn [foldl].
  - split; [done|]. intros i r' Hr. exists r'. done.
  - destruct (IH (alter (fun r => MkRef (mr_content r) (mr_peer r) (mr_random_id r) (mr_random_user r) b (mr_version r + 1) (mr_reply_to r) (mr_scheduled_by r)) x m)) as [I1 I2]. split.
    + intros i. rewrite <- I1. by rewrite lookup_alter_is_Some.
    + intros i r' Hr'. destruct (I2 i r' Hr') as (r1 & Hr1 & Hs & Hout). destruct (decide (x = i)) as [->|Hne].
      * rewrite lookup_alter_eq in Hr1. apply fmap_Some in Hr1 as (r & Hr & ->). exists r. split; [done|]. split; [done|]. set_solver.
      * rewrite lookup_alter_ne in Hr1 by done. exists r1. split_and!; [done..|set_solver].
Qed.
Lemma shrinks_pins s b ids : messages_ok s -> shrinks s (set_pinned b ids s).2.
Proof.
  intros [H1 H2 H3 H4 H5 H6 H7 H8]. destruct (pinned_refs b ids s) as [Hd Hr]. split; try done. intros i r' Hr'. destruct (Hr i r' Hr') as (r & Hr0 & (-> & -> & -> & -> & ->) & _). exists r.
  destruct (H3 i r Hr0) as (? & ? & ?). split_and!; try done. intros j Hj. split; [done|]. apply Hd. destruct (H7 i r j Hr0 Hj) as (y & Hy & _). by exists y.
Qed.

(** Deleting *)
Lemma drop_lookup gone s i r' : refs (drop_refs gone s) !! i = Some r' <->
  exists r, refs s !! i = Some r /\ gone (i, r) = false /\ r' = unlink (fun i => match refs s !! i with Some r => gone (i, r) | None => false end) r.
Proof.
  unfold drop_refs. cbn [refs with_refs]. rewrite lookup_fmap, fmap_Some. setoid_rewrite map_lookup_filter_Some. cbn. naive_solver.
Qed.
Lemma shrinks_drop gone s : messages_ok s -> shrinks s (drop_refs gone s).
Proof.
  intros [H1 H2 H3 H4 H5 H6 H7 H8]. split; try done. intros i r' (r & Hr & Hg & ->)%drop_lookup. exists r. destruct (H3 i r Hr) as (? & ? & ?). split_and!; try done.
  cbn [unlink mr_reply_to]. intros j. destruct (mr_reply_to r) as [j'|] eqn:Ej; [|done]. destruct (H7 i r j' Hr Ej) as (y & Hy & _). rewrite Hy. destruct (gone (j', y)) eqn:Ey; [done|]. intros [= <-].
  split; [done|]. eexists. apply drop_lookup. by exists y.
Qed.
Lemma ok_synced ps s : messages_ok s -> messages_ok (synced ps s).
Proof.
  intros [H1 H2 H3 H4 H5 H6 H7 H8]. destruct (synced_fields ps s) as (E1 & E2 & E3 & E4 & E5). split; try done. intros i r Hr. apply synced_last; [done|]. right. by apply H8.
Qed.
Lemma ok_drop gone s : messages_ok s -> messages_ok (drop_refs gone s).
Proof. intros Hs. eapply shrinks_ok; [by apply shrinks_drop|done]. Qed.
Lemma ok_forgets ks s : messages_ok s -> messages_ok (delete_contents ks s).2.
Proof.
  intros Hs. unfold delete_contents. cbn [snd modify]. set (gone := fun kr : Z * Ref => bool_decide (mr_content kr.2 ∈ ks)). pose proof (ok_drop gone s Hs) as Hd. eapply shrinks_ok; [|exact Hd].
  destruct Hd as [H1 H2 H3 H4 H5 H6 H7 H8]. split; try done.
  - intros k c [Hk _]%map_lookup_filter_Some. by apply H4 in Hk.
  - intros i r' Hr'. exists r'. destruct (H3 i r' Hr') as (? & [c Hc] & ?). split_and!; try done.
    + intros j Hj. split; [done|]. destruct (H7 i r' j Hr' Hj) as (y & Hy & _). by exists y.
    + exists c. apply map_lookup_filter_Some. split; [done|]. apply drop_lookup in Hr' as (r & _ & Hg & ->). unfold gone in Hg. b2p. done.
Qed.
Lemma ok_delete_peer a s : messages_ok s -> messages_ok (delete_peer a s).2.
Proof.
  intros Hs. unfold delete_peer. cbn [snd modify]. set (gone := fun kr : Z * Ref => mr_peer kr.2 =? a). pose proof (ok_drop gone s Hs) as Hd. eapply shrinks_ok; [|exact Hd].
  destruct Hd as [H1 H2 H3 H4 H5 H6 H7 H8]. split; try done.
  - by apply typed_delete.
  - intros b p Hp. unfold peer_row in Hp. cbn in Hp. by apply lookup_delete_Some in Hp as [_ Hp].
  - intros i r' Hr'. exists r'. destruct (H3 i r' Hr') as (? & ? & [p Hp]). assert (mr_peer r' <> a) as Hne.
    { apply drop_lookup in Hr' as (r & _ & Hg & ->). unfold gone in Hg. b2p. done. }
    split_and!; try done.
    + intros j Hj. split; [done|]. destruct (H7 i r' j Hr' Hj) as (y & Hy & _). by exists y.
    + exists p. unfold peer_row. cbn. by rewrite lookup_delete_ne.
    + cbn. by rewrite lookup_delete_ne.
Qed.

(** Sharing a content *)
Lemma insert_fields rs s : mdb (insert_refs rs s) = mdb s /\ contents (insert_refs rs s) = contents s /\ next_content (insert_refs rs s) = next_content s /\
  last_message (insert_refs rs s) = last_message s /\ next_ref (insert_refs rs s) = next_ref s + Z.of_nat (length rs).
Proof.
  unfold insert_refs. revert s. induction rs as [|r rs IH]; intros s; cbn [foldl]; [split_and!; try done; cbn; lia|]. destruct (IH (insert_ref s r)) as (-> & -> & -> & -> & ->).
  split_and!; try done. cbn. lia.
Qed.
Lemma insert_lookup rs s i r : (forall i r, refs s !! i = Some r -> i < next_ref s) ->
  refs (insert_refs rs s) !! i = Some r <-> refs s !! i = Some r \/ (next_ref s <= i /\ rs !! Z.to_nat (i - next_ref s) = Some r).
Proof.
  unfold insert_refs. revert s. induction rs as [|r0 rs IH]; intros s Hb; cbn [foldl].
  - rewrite lookup_nil. naive_solver.
  - rewrite IH.
    + cbn. destruct (decide (next_ref s = i)) as [<-|Hne].
      * rewrite lookup_insert_eq, Z.sub_diag. cbn. split.
        -- intros [H|[H _]]; [right; split; [lia|done]|lia].
        -- intros [H|[_ H]]; [apply Hb in H; lia|by left].
      * rewrite lookup_insert_ne by done. split.
        -- intros [H|[H1 H2]]; [by left|right]. split; [lia|]. replace (Z.to_nat (i - next_ref s)) with (S (Z.to_nat (i - (next_ref s + 1)))) by lia. done.
        -- intros [H|[H1 H2]]; [by left|right]. split; [lia|]. by replace (Z.to_nat (i - next_ref s)) with (S (Z.to_nat (i - (next_ref s + 1)))) in H2 by lia.
    + cbn. intros j x. destruct (decide (next_ref s = j)) as [<-|Hne]; [lia|]. rewrite lookup_insert_ne by done. intros Hx%Hb. lia.
Qed.
Lemma same_random_sym r r' : same_random r r' = same_random r' r.
Proof.
  unfold same_random. apply eq_true_iff_eq. rewrite !andb_true_iff, !bool_decide_eq_true, !Z.eqb_eq.
  split; (intros ((((E1 & S1) & E2) & S2) & E3); rewrite E2 in S1; rewrite E3 in S2; split_and!; first [done|congruence]).
Qed.

Lemma ok_shares s k a p others rs : messages_ok s -> is_Some (contents s !! k) -> (forall i r, refs s !! i = Some r -> mr_content r <> k) ->
  peer_row s a = Some p -> same_talk_list s (a :: others) -> mr_peer <$> rs = a :: others ->
  (forall r, r ∈ rs -> mr_content r = k) -> (forall r, r ∈ tail rs -> mr_random_id r = None) ->
  (forall r i r', r ∈ rs -> refs s !! i = Some r' -> same_random r' r = false) ->
  (forall r j, r ∈ rs -> mr_reply_to r = Some j -> exists r', refs s !! j = Some r' /\ mr_peer r' = mr_peer r) ->
  messages_ok (synced (a :: others) (insert_refs rs s)).
Proof.
  intros Hs Hk Hfresh Ha [Hnd Htalk] Hps Hc Hrnd Hold Hrep. set (s1 := insert_refs rs s). destruct (insert_fields rs s) as (Em & Ec & Enc & El & En). fold s1 in Em, Ec, Enc, El, En.
  pose proof (fun i r Hr => proj2 (proj1 (mk_ref s Hs i r Hr))) as Hb.
  assert (forall i r, refs s1 !! i = Some r <-> refs s !! i = Some r \/ (next_ref s <= i /\ rs !! Z.to_nat (i - next_ref s) = Some r)) as Hl by (intros; by apply insert_lookup).
  assert (forall i r, rs !! i = Some r -> mr_peer r ∈ a :: others) as Hin.
  { intros i r Hr. rewrite <- Hps. apply list_elem_of_fmap. exists r. split; [done|]. by eapply list_elem_of_lookup_2. }
  assert (forall i j r r', rs !! i = Some r -> rs !! j = Some r' -> i <> j -> mr_peer r <> mr_peer r') as Hdiff.
  { intros i j r r' Hr Hr' Hne E. apply Hne. rewrite <- Hps in Hnd. apply (NoDup_lookup _ i j (mr_peer r) Hnd); rewrite list_lookup_fmap, ?Hr, ?Hr'; cbn; congruence. }
  assert (forall b, b ∈ a :: others -> is_Some (peer_row s b)) as Hrow.
  { intros b Hbin. destruct (decide (a = b)) as [<-|Hne]; [by exists p|]. destruct (Htalk a b) as (x & y & _ & Hy & _); [by left|done..|by exists y]. }
  assert (forall u v, talk s u v -> talk s1 u v) as Ht by (intros; apply talk_rows with s; [by rewrite Em|done]).
  pose proof Hs as [H1 H2 H3 H4 H5 H6 H7 H8]. destruct (synced_fields (a :: others) s1) as (F1 & F2 & F3 & F4 & F5).
  split; unfold typed, talk, peer_row in *; rewrite ?F1, ?F2, ?F3, ?F4, ?F5, ?Em, ?Ec, ?Enc, ?En.
  - done.
  - lia.
  - intros i r [Hr|[Hi Hr]]%Hl.
    + destruct (H3 i r Hr) as (? & ? & ?). split_and!; [lia..|done|done].
    + pose proof (lookup_lt_Some _ _ _ Hr). rewrite (Hc r) by by eapply list_elem_of_lookup_2. split_and!; [lia..|done|]. eapply Hrow, Hin, Hr.
  - done.
  - intros i j r r' [Hr|[Hi Hr]]%Hl [Hr'|[Hj Hr']]%Hl E Hne.
    + by apply (H5 i j).
    + exfalso. apply (Hfresh i r Hr). rewrite E. apply Hc. by eapply list_elem_of_lookup_2.
    + exfalso. apply (Hfresh j r' Hr'). rewrite <- E. apply Hc. by eapply list_elem_of_lookup_2.
    + assert (Z.to_nat (i - next_ref s) <> Z.to_nat (j - next_ref s)) as Hn by lia. split; [by eapply Hdiff|]. apply Htalk; [by eapply Hin..|by eapply Hdiff].
  - intros i j r r' [Hr|[Hi Hr]]%Hl [Hr'|[Hj Hr']]%Hl Hne.
    + by eapply (H6 i j).
    + eapply Hold; [by eapply list_elem_of_lookup_2|done].
    + rewrite same_random_sym. eapply Hold; [by eapply list_elem_of_lookup_2|done].
    + unfold same_random. assert (mr_peer r <> mr_peer r') as Hp by (eapply Hdiff; [done..|lia]). apply Z.eqb_neq in Hp. by rewrite Hp.
  - intros i r j [Hr|[Hi Hr]]%Hl Hj.
    + destruct (H7 i r j Hr Hj) as (y & Hy & ?). exists y. split; [|done]. apply Hl. by left.
    + destruct (Hrep r j) as (y & Hy & ?); [by eapply list_elem_of_lookup_2|done|]. exists y. split; [|done]. apply Hl. by left.
  - intros i r Hr. apply synced_last; [done|]. apply Hl in Hr as [Hr|[Hi Hr]].
    + right. rewrite El. by apply H8.
    + left. by eapply Hin.
Qed.

Lemma change_ok user s s' : change user s s' -> messages_ok s -> messages_ok s'.
Proof.
  intros Hc Hs. pose proof Hs as [H1 H2 H3 H4 H5 H6 H7 H8]. destruct Hc as [c _|k c a p others rs Hk _ Hf Ha _ _ Ht Hps Hc Hr Hold Hrep|k c c' Hk _ _ _ _ _ _|b ids _|ids ps _|ks _|a p g Ha _ _|c m v _ _|c v _].
  - eapply shrinks_ok; [|exact Hs]. apply shrinks_contents; [done|lia|..].
    + intros k Hk. by apply lookup_insert_is_Some'; right.
    + intros k x [[<- _]|[_ Hx]]%lookup_insert_Some; [lia|]. apply H4 in Hx. lia.
  - by eapply ok_shares.
  - eapply shrinks_ok; [|exact Hs]. apply shrinks_contents; [done|lia|..].
    + intros j Hj. by apply lookup_insert_is_Some'; right.
    + intros j x [[<- _]|[_ Hx]]%lookup_insert_Some; by eapply H4.
  - eapply shrinks_ok; [by apply shrinks_pins|done].
  - apply ok_synced. by apply ok_drop.
  - by apply ok_forgets.
  - apply ok_delete_peer. eapply shrinks_ok; [apply shrinks_mdb; [done| |done]|done]. by apply (typed_peers (mdb s)).
  - eapply shrinks_ok; [apply shrinks_mdb; [done| |done]|done]. by apply (typed_peers (mdb s)).
  - eapply shrinks_ok; [apply shrinks_mdb; [done| |done]|done]. by apply (typed_peers (mdb s)).
Qed.
Lemma moves_ok user s s' : rtc (moves user) s s' -> messages_ok s -> messages_ok s'.
Proof. induction 1 as [|s1 s2 s3 [H|H] _ IH]; [done|..]; intros Hs; apply IH; [by eapply calm_ok|by eapply change_ok]. Qed.

(** ** What a step may do to a message *)
Lemma step_contents user s s' : change user s s' -> next_content s <= next_content s' /\ forall k c', contents s' !! k = Some c' ->
  (exists c, contents s !! k = Some c /\ mc_author c' = mc_author c /\ (c' = c \/ mc_author c = user)) \/ (k = next_content s /\ mc_author c' = user).
Proof.
  assert (forall k c', contents s !! k = Some c' -> (exists c, contents s !! k = Some c /\ mc_author c' = mc_author c /\ (c' = c \/ mc_author c = user)) \/ (k = next_content s /\ mc_author c' = user)) as Hsame.
  { intros k c' Hk. left. exists c'. split_and!; [done..|by left]. }
  intros [c Ha|k c a p others rs _ _ _ _ _ _ _ _ _ _ _ _|k c c' Hk Ha _ Ha' _ _ _|b ids _|ids ps _|ks _|a p g _ _ _|c m v _ _|c v _]; try (split; [cbn; lia|exact Hsame]).
  - split; [cbn; lia|]. cbn. intros k c' [[<- <-]|[_ Hk]]%lookup_insert_Some; [by right|by apply Hsame].
  - destruct (insert_fields rs s) as (_ & Ec & En & _). destruct (synced_fields (a :: others) (insert_refs rs s)) as (_ & -> & -> & _). rewrite Ec, En. split; [lia|exact Hsame].
  - split; [cbn; lia|]. cbn. intros j x [[<- <-]|[_ Hj]]%lookup_insert_Some; [left; exists c; split_and!; [done..|by right]|by apply Hsame].
  - split; [cbn; lia|]. cbn. intros k c' [Hk _]%map_lookup_filter_Some. by apply Hsame.
Qed.
Lemma step_rows user s s' a p : change user s s' -> peer_row s' a = Some p -> peer_row s a = Some p.
Proof.
  intros [c _|k c b q others rs _ _ _ _ _ _ _ _ _ _ _ _|k c c' _ _ _ _ _ _ _|b ids _|ids ps _|ks _|b q g _ _ _|c m v _ _|c v _]; unfold peer_row; try done.
  - destruct (insert_fields rs s) as (E & _). destruct (synced_fields (b :: others) (insert_refs rs s)) as (-> & _). by rewrite E.
  - cbn. by intros [_ H]%lookup_delete_Some.
Qed.
Lemma step_refs user s s' i r' : messages_ok s -> change user s s' -> refs s' !! i = Some r' ->
  (exists r, refs s !! i = Some r /\ mr_content r' = mr_content r /\ mr_peer r' = mr_peer r) \/
  (refs s !! i = None /\ (exists c, contents s' !! mr_content r' = Some c /\ mc_author c = user) /\ forall j r, refs s !! j = Some r -> mr_content r <> mr_content r').
Proof.
  intros Hs Hch Hi. assert (refs s !! i = Some r' -> exists r, refs s !! i = Some r /\ mr_content r' = mr_content r /\ mr_peer r' = mr_peer r) as Hsame by (intros H; by exists r').
  assert (forall gone, refs (drop_refs gone s) !! i = Some r' -> exists r, refs s !! i = Some r /\ mr_content r' = mr_content r /\ mr_peer r' = mr_peer r) as Hdrop.
  { intros gone (r & Hr & _ & ->)%drop_lookup. by exists r. }
  destruct Hch as [c _|k c b q others rs Hk Ha Hf _ _ _ _ _ Hc _ _ _|k c c' _ _ _ _ _ _ _|b ids _|ids ps _|ks _|b q g _ _ _|c m v _ _|c v _]; try (left; by apply Hsame).
  - destruct (synced_fields (b :: others) (insert_refs rs s)) as (_ & Ec & _ & Er & _). rewrite Er in Hi. apply insert_lookup in Hi as [Hi|[Hge Hi]]; [left; by apply Hsame| |].
    + right. split; [apply eq_None_not_Some; intros [x Hx]; apply (mk_ref s Hs) in Hx as [[_ ?] _]; lia|]. assert (mr_content r' = k) as -> by (apply Hc; by eapply list_elem_of_lookup_2). split; [|done]. exists c. split; [|done]. rewrite Ec. by destruct (insert_fields rs s) as (_ & -> & _).
    + intros j r Hj. by apply (mk_ref s Hs) in Hj as [[_ ?] _].
  - left. destruct (pinned_refs b ids s) as [_ Hp]. destruct (Hp i r' Hi) as (r & Hr & (E1 & E2 & _) & _). by exists r.
  - left. apply (Hdrop (fun kr => bool_decide (kr.1 ∈ ids))). exact Hi.
  - left. apply (Hdrop (fun kr => bool_decide (mr_content kr.2 ∈ ks))). exact Hi.
  - left. apply (Hdrop (fun kr => mr_peer kr.2 =? b)). exact Hi.
Qed.
Lemma drop_gone gone s i r : refs s !! i = Some r -> refs (drop_refs gone s) !! i = None -> gone (i, r) = true.
Proof. intros Hr Hn. destruct (gone (i, r)) eqn:E; [done|]. assert (exists r', refs (drop_refs gone s) !! i = Some r') as [r' H]; [|congruence]. eexists. apply drop_lookup. by exists r. Qed.
Lemma step_gone user s s' i r : messages_ok s -> change user s s' -> refs s !! i = Some r -> refs s' !! i = None -> may_delete user s r.
Proof.
  intros Hs Hch Hi Hn. assert (refs s !! i = None -> may_delete user s r) as Hno by congruence.
  destruct Hch as [c _|k c b q others rs _ _ _ _ _ _ _ _ _ _ _ _|k c c' _ _ _ _ _ _ _|b ids _|ids ps Hd|ks Hk|b q g Hq Ho _|c m v _ _|c v _]; try by apply Hno.
  - destruct (synced_fields (b :: others) (insert_refs rs s)) as (_ & _ & _ & Er & _). rewrite Er in Hn. assert (refs (insert_refs rs s) !! i = Some r); [|congruence].
    apply insert_lookup; [intros j x Hj; by apply (mk_ref s Hs) in Hj as [[_ ?] _]|by left].
  - destruct (pinned_refs b ids s) as [Hp _]. destruct (proj1 (Hp i)) as [x Hx]; [by exists r|congruence].
  - apply (drop_gone (fun kr => bool_decide (kr.1 ∈ ids)) s) in Hi as E; [|exact Hn]. cbn in E. b2p. rename E into Hn'. destruct (Hd i Hn') as (x & Hx & Hm). congruence.
  - apply (drop_gone (fun kr => bool_decide (mr_content kr.2 ∈ ks)) s) in Hi as E; [|exact Hn]. cbn in E. b2p. left. by apply Hk.
  - apply (drop_gone (fun kr => mr_peer kr.2 =? b) s) in Hi as E; [|exact Hn]. cbn in E. b2p. left. exists i, r. split_and!; [done..|]. exists q. by rewrite E.
Qed.
