(* ===== verification/MessagesSafety.v ===== *)
(** The handlers of [Messages.v] and [History.v] take only the steps of [MessagesSpec.v], and what follows from that for everyone's messages. *)
From Stdlib Require Import Init.Byte.
From stdpp Require Import gmap sorting.
From S2P Require Import Prelude PyBytes AccessHash Privacy Peers Rights Members Messages History HistoryFacts MessagesSpec.

(** ** Runs *)
Definition quiet {A} (m : MS A) : Prop := forall s, typed s -> calm s (m s).2.
Definition runs {A} (user : Z) (s : MessagesDb) (rs : result A * MessagesDb) : Prop := rtc (moves user) s rs.2.

Lemma calm_typed s s' : calm s s' -> typed s'.
Proof. by intros [[H _ _] _ _]. Qed.
Lemma quiet_seq {A B} (m : MS A) (f : A -> MS B) : quiet m -> (forall a, quiet (f a)) -> quiet (m ≫= f).
Proof.
  intros Hm Hf s Hs. specialize (Hm s Hs). unfold mbind, M_bind. destruct (m s) as [[a|e] s1]; cbn in *; [|done].
  eapply calm_seq; [exact Hm|]. apply Hf. by eapply calm_typed.
Qed.
Lemma quiet_return {A} (a : A) : quiet (mret a). Proof. intros s. apply calm_id. Qed.
Lemma quiet_halt {A} e : quiet (raise (A := A) e). Proof. intros s. apply calm_id. Qed.
Lemma quiet_state : quiet get. Proof. intros s. apply calm_id. Qed.
Lemma quiet_result {A} (r : result A) : quiet (lift_result r). Proof. intros s. apply calm_id. Qed.
Lemma quiet_guard b e : quiet (ensure b e). Proof. destruct b; intros s; apply calm_id. Qed.
Lemma quiet_tell e : quiet (tell e).
Proof. intros s Hs. split; [by apply grows_refl|done..]. Qed.
Lemma quiet_slow l : quiet (modify (with_slow l)).
Proof. intros s Hs. split; [by apply grows_refl|done..]. Qed.
Lemma quiet_read o p : quiet (get_read_state o p).
Proof. intros s Hs. split; [by apply grows_refl|done..]. Qed.
Lemma quiet_set_read o p l : quiet (set_read_state o p l).
Proof. intros s Hs. split; [by apply grows_refl|done..]. Qed.
Lemma quiet_mapM {A B} (f : A -> MS B) l : (forall a, quiet (f a)) -> quiet (mapM f l).
Proof. intros Hf. induction l as [|a l IH]; [apply quiet_return|]. cbn [mapM]. apply quiet_seq; [done|]. intros b. apply quiet_seq; [done|]. intros. apply quiet_return. Qed.

(** What is read of the other tables *)
Lemma quiet_members {A} (m : MM A) : (forall d, (m d).2 = d) -> quiet (on_members m).
Proof. intros Hm s Hs. unfold on_members. specialize (Hm (mdb s)). destruct (m (mdb s)) as [r d]. cbn in *. subst d. split; [by apply grows_refl|done..]. Qed.
Lemma grows_view d p : grows (peer_view d) p -> grows (peer_view d) (peer_view (with_rest (peers p) (next_peer p) (m_privacy d) (m_log d) d)).
Proof. intros [[H1 H2 H3] Hr (E1 & E2 & E3 & E4)]. split; [|done|done]. by split. Qed.
Lemma quiet_peers {A} (m : D A) : (forall d, db_typed d -> grows d (m d).2) -> quiet (on_members (on_peers m)).
Proof.
  intros Hm s Hs. specialize (Hm _ Hs). unfold on_members, on_peers. destruct (m (peer_view (mdb s))) as [r p]. cbn in *. split; [by apply grows_view|done..].
Qed.

Create HintDb messages.
#[export] Hint Resolve quiet_return quiet_halt quiet_state quiet_result quiet_guard quiet_tell quiet_slow quiet_read quiet_set_read : messages.
Ltac quiet := repeat first [ progress eauto with messages | apply quiet_seq; [|intros ?] | apply quiet_mapM; intros ? | case_match ].

Section Runs.
Context (user : Z).
Lemma runs_halt {A} (r : result A) s : runs user s (r, s).
Proof. apply rtc_refl. Qed.
Lemma runs_calm {A} (m : MS A) s : quiet m -> messages_ok s -> runs user s (m s).
Proof. intros Hm Hs. apply rtc_once. left. by apply Hm, mk_typed. Qed.
Lemma runs_change {A} (r : result A) s s' : change user s s' -> runs user s (r, s').
Proof. intros H. apply rtc_once. by right. Qed.
Lemma runs_then {A B} (m : MS A) (f : A -> MS B) s : messages_ok s -> runs user s (m s) -> (forall a s1, m s = (Ok a, s1) -> messages_ok s1 -> runs user s1 (f a s1)) -> runs user s ((m ≫= f) s).
Proof.
  intros Hs Hm Hf. unfold mbind, M_bind, runs in *. destruct (m s) as [[a|e] s1] eqn:E; cbn in *; [|done]. etransitivity; [exact Hm|]. apply Hf; [done|]. by eapply moves_ok.
Qed.
Lemma runs_quiet {A B} (m : MS A) (f : A -> MS B) s : messages_ok s -> quiet m -> (forall a s1, m s = (Ok a, s1) -> calm s s1 -> messages_ok s1 -> runs user s1 (f a s1)) ->
  runs user s ((m ≫= f) s).
Proof.
  intros Hs Hm Hf. apply runs_then; [done|by apply runs_calm|]. intros a s1 E Hs1. apply Hf; [done| |done]. specialize (Hm s (mk_typed s Hs)). by rewrite E in Hm.
Qed.
Lemma runs_tail {A B} (m : MS A) (f : A -> MS B) s : messages_ok s -> runs user s (m s) -> (forall a, quiet (f a)) -> runs user s ((m ≫= f) s).
Proof. intros Hs Hm Hf. apply runs_then; [done..|]. intros a s1 _ Hs1. by apply runs_calm. Qed.
Lemma runs_get {B} (f : MessagesDb -> MS B) s : runs user s (f s s) -> runs user s ((get ≫= f) s).
Proof. done. Qed.
Lemma runs_ensure {B} b e (f : unit -> MS B) s : (b = true -> runs user s (f tt s)) -> runs user s ((ensure b e ≫= f) s).
Proof. intros H. destruct b; [by apply H|apply runs_halt]. Qed.
Lemma runs_lift {A B} (r : result A) (f : A -> MS B) s : (forall a, r = Ok a -> runs user s (f a s)) -> runs user s ((lift_result r ≫= f) s).
Proof. intros H. destruct r; [by apply H|apply runs_halt]. Qed.
End Runs.

(** ** Reasons outlast what is calm *)
Lemma calm_get_participant s s' p u : calm s s' -> get_participant p u false (mdb s') = get_participant p u false (mdb s).
Proof. intros [_ (E & _) _]. unfold get_participant, member_of. by rewrite E. Qed.
Lemma calm_base s s' p : calm s s' -> base_of p (mdb s') = base_of p (mdb s).
Proof. intros [_ (_ & E1 & E2 & _) _]. unfold base_of. by rewrite E1, E2. Qed.
Lemma calm_place_right user s s' p f : calm s s' -> place_right user s p f -> place_right user s' p f.
Proof. intros Hc. unfold place_right. destruct (place_of p) as [q|]; [|done]. intros (b & Hb & Hf). exists b. by rewrite (calm_base s s') , (calm_get_participant s s'). Qed.
Lemma calm_peer s s' a p : calm s s' -> peer_row s a = Some p -> exists p', peer_row s' a = Some p' /\ peer_columns p' = peer_columns p.
Proof. apply calm_row. Qed.
Lemma columns_place p p' : peer_columns p' = peer_columns p -> place_of p' = place_of p.
Proof. unfold peer_columns, place_of. by intros [= _ -> _ -> ->]. Qed.
Lemma columns_his user p p' : peer_columns p' = peer_columns p -> his_peer user p -> his_peer user p'.
Proof. unfold peer_columns, his_peer. by intros [= -> -> _ _ _]. Qed.

(** ** Peers *)
(** A peer object of a request is that of a row in which the user stands. *)
Definition stands (user : Z) (s : MessagesDb) (kp : Z * Peer) : Prop := (exists p, peer_row s kp.1 = Some p /\ peer_columns p = peer_columns kp.2) /\ his_peer user kp.2 /\ peer_typed kp.2 /\
  forall q, place_of kp.2 = Some q -> is_Some (base_of q (mdb s)).
Lemma stands_calm user s s' kp : calm s s' -> stands user s kp -> stands user s' kp.
Proof.
  intros Hc ((p & Hp & Ep) & Hh & Ht & Hb). split; [|split; [done|split; [done|]]].
  - destruct (calm_row s s' _ p Hc Hp) as (p' & Hp' & Ep'). exists p'. split; [done|congruence].
  - intros q Hq. rewrite (calm_base s s' q Hc). by apply Hb.
Qed.

Section Peers.
Context (hmac_sha256 : bytes -> bytes) (payload : signed_kind -> Z -> Z -> Z -> bytes) (hmac_32 : forall m, length (hmac_sha256 m) = 32%nat).

Lemma quiet_input cx user i msg code am pt : quiet (on_members (on_peers (from_input_peer_raise hmac_sha256 payload cx user i msg code am pt))).
Proof using hmac_32. apply quiet_peers. intros d Hd. by apply raise_grows. Qed.
Lemma quiet_peer_of cx i msg code am pt : quiet (peer_of hmac_sha256 payload cx i msg code am pt).
Proof using hmac_32. apply quiet_input. Qed.
Lemma quiet_peer_of_input cx i : quiet (peer_of_input hmac_sha256 payload cx i).
Proof using hmac_32. apply quiet_input. Qed.

Lemma input_stands cx user i msg code am pt s kp s1 : typed s -> on_members (on_peers (from_input_peer_raise hmac_sha256 payload cx user i msg code am pt)) s = (Ok kp, s1) ->
  stands user s1 kp /\ peer_row s1 kp.1 = Some kp.2.
Proof using hmac_32.
  intros Hs E. pose proof (peer_access hmac_sha256 payload cx _ user i msg code am pt hmac_32 Hs) as [_ Hp]. pose proof (raise_grows hmac_sha256 payload cx hmac_32 _ user i msg code am pt Hs) as [Ht _ _].
  unfold on_members, on_peers in E. destruct (from_input_peer_raise _ _ _ _ _ _ _ _ _ _) as [r d]. cbn in *. injection E as -> <-. destruct (Hp kp eq_refl) as [Hrow Hent].
  pose proof (rows_typed d Ht _ _ Hrow) as Hty. split; [|done]. split; [by exists kp.2|]. unfold entitled in Hent. unfold his_peer, place_of.
  destruct i as [| |u h|u|c|c h|]; try done.
  - destruct Hent as [-> ->]. split; [by left|]. split; [done|]. by intros q [=].
  - destruct Hent as (-> & _ & Hty2). split; [by left|]. split; [done|]. case_decide; [rewrite Hty2|destruct Hty2 as [-> _]]; by intros q [=].
  - destruct Hent as (-> & -> & -> & Hg). split; [by left|]. split; [done|]. intros q [= <-]. cbn in *. unfold chat_with in Hg. cbn in Hg. rewrite lookup_fmap in Hg.
    destruct (groups (mdb s) !! _); [by eexists|done].
  - destruct Hent as (-> & -> & Hl & _). split; [by right|]. split; [done|]. intros q [= <-]. unfold live_channel in Hl. b2p. cbn in *. rewrite lookup_fmap in Hl.
    destruct (Members.channels (mdb s) !! _); [by eexists|done].
Qed.
End Peers.

(** The peers on the other side *)
Lemma typed_columns p q : peer_columns p = peer_columns q -> peer_typed q -> peer_typed p.
Proof. unfold peer_columns. destruct p. cbn. intros [= -> -> -> -> ->]. intros []; cbn; by constructor. Qed.
Lemma opposite_grows p ab d : db_typed d -> peer_typed p -> grows d (get_opposite p ab d).2.
Proof.
  intros Hd Hp. pose proof (op_grows (fun _ => replicate 32 Byte.x00) (fun _ _ _ _ => []) 0 (fun _ => eq_refl) (Opposite p ab) d Hd Hp) as H. cbn in H. unfold mbind, M_bind in H. destruct (get_opposite p ab d) as [[]]; done.
Qed.
Lemma quiet_opposite p : peer_typed p -> quiet (on_members (on_peers (get_opposite p false))).
Proof. intros Hp. apply quiet_peers. intros d Hd. by apply opposite_grows. Qed.

Lemma opposite_talk user s kp l s1 : typed s -> stands user s kp -> on_members (on_peers (get_opposite kp.2 false)) s = (Ok l, s1) -> calm s s1 -> same_talk_list s1 (kp.1 :: l.*1).
Proof.
  intros Hs Hst E Hc. destruct (stands_calm user s s1 kp Hc Hst) as ((p & Hp & Ep) & _ & Hty & _). destruct kp as [a p0]. cbn [fst snd] in *.
  assert (forall q, one_talk p0 q -> one_talk p q) as Hcol by (intros q; by apply columns_talk).
  unfold on_members, on_peers in E. destruct (get_opposite p0 false (peer_view (mdb s))) as [r d] eqn:Eo. injection E as -> <-.
  assert (one_talk p0 p0 -> False) as Hself by (unfold one_talk; destruct Hty; cbn; naive_solver).
  unfold get_opposite in Eo. destruct Hty as [u b m|o u b m Hne|o c b m|c b m]; cbn [p_type p_user p_owner p_chat] in Eo.
  - injection Eo as <- <-. split; [apply NoDup_singleton|]. intros x y ->%list_elem_of_singleton ->%list_elem_of_singleton. done.
  - destruct (u =? 777000).
    { injection Eo as <- <-. split; [apply NoDup_singleton|]. intros x y ->%list_elem_of_singleton ->%list_elem_of_singleton. done. }
    apply M_bind_ok in Eo as (k & d1 & Ek & Eo). destruct (get_or_create_spec _ Hs u o ltac:(congruence)) as (_ & Hk & _). destruct (Hk k d1 Ek) as (Hrow & Ho & Hu & Ht).
    destruct (_ && _) in Eo.
    { injection Eo as <- <-. split; [apply NoDup_singleton|]. intros x y ->%list_elem_of_singleton ->%list_elem_of_singleton. done. }
    apply M_bind_ok in Eo as (? & d2 & E2 & Eo). apply M_bind_ok in Eo as (? & d3 & E3 & Eo). unfold user_row in *. destruct (users d1 !! o); [|done]. injection E2 as _ <-.
    destruct (users d1 !! u); [|done]. injection E3 as _ <-. injection Eo as <- <-. cbn [fmap list_fmap].
    assert (one_talk (MkPeer (Some o) USER (Some u) None None b m) k.2) as Ht1 by (left; cbn; by rewrite Ho, Hu, Ht).
    set (s1 := with_mdb _ s) in *. assert (talk s1 a k.1) as Ht2 by (exists p, k.2; split_and!; [done|done|by apply Hcol]). assert (a <> k.1) as Hd.
    { intros E0. unfold peer_row in Hp. cbn in Hp. assert (p = k.2) as -> by congruence. injection Ep as E1 _ _ _ _. congruence. }
    split.
    + apply NoDup_cons. split; [by intros Hin%list_elem_of_singleton|apply NoDup_singleton].
    + intros v w [Hx|Hx%list_elem_of_singleton]%elem_of_cons [Hy|Hy%list_elem_of_singleton]%elem_of_cons Hxy; rewrite Hx, Hy in *; try done. by apply talk_sym.
  - injection Eo as <- <-. set (f := fun kv : Z * Peer => _). assert (forall kv, kv ∈ matching f (peer_view (mdb s)) <-> m_peers (mdb s) !! kv.1 = Some kv.2 /\ f kv = true) as Hm.
    { intros [k v]. unfold matching. rewrite elem_of_map_to_list, map_lookup_filter_Some. done. }
    set (s1 := with_mdb _ s) in *. assert (forall x, x ∈ a :: (matching f (peer_view (mdb s))).*1 -> exists q oq, peer_row s1 x = Some q /\ p_type q = CHAT /\ p_chat q = Some c /\ p_owner q = Some oq /\
      (x <> a -> Some oq <> Some o)) as Hall.
    { intros x [->|([k v] & -> & [Hv Hf]%Hm)%list_elem_of_fmap]%elem_of_cons.
      - injection Ep as E1 E2 _ E4 _. exists p, o. done.
      - unfold f in Hf. cbn in Hf. b2p. cbn in *. pose proof (rows_typed _ Hs _ _ Hv) as Hvt. destruct Hvt; cbn in *; try congruence. eexists _, _. split_and!; [exact Hv|done|cbn; congruence|done|]. intros _; cbn; congruence. }
    split.
    + apply NoDup_cons. split; [|apply NoDup_fst_map_to_list]. intros ([k v] & -> & [Hv Hf]%Hm)%list_elem_of_fmap. unfold f in Hf. cbn in Hf. b2p. cbn in *. unfold peer_row in Hp. cbn in Hp.
      assert (p = v) as -> by congruence. injection Ep as E1 _ _ _ _. congruence.
    + intros x y Hx Hy Hxy. destruct (Hall x Hx) as (q & oq & Hq & Hqt & Hqc & Hqo & _), (Hall y Hy) as (q' & oq' & Hq' & Hqt' & Hqc' & Hqo' & _). exists q, q'. split; [done|]. split; [done|].
      right. split_and!; [done..|congruence|]. intros Eoo. pose proof (rows_unique _ Hs x y q q') as Hun. unfold peer_row in Hq, Hq'. cbn in *. specialize (Hun Hq Hq' Hxy).
      assert (conflicts q q' = true) as Hcf; [|congruence]. unfold conflicts. rewrite Hqo, Hqo', Hqc, Hqc', orb_true_iff, !andb_true_iff, orb_true_iff, !andb_true_iff, !bool_decide_eq_true.
      left. split; [split; [by eexists|congruence]|right; split; [by eexists|done]].
  - injection Eo as <- <-. split; [apply NoDup_singleton|]. intros x y ->%list_elem_of_singleton ->%list_elem_of_singleton. done.
Qed.

(** ** Checks *)
Definition unmoved {S A} (m : M S A) : Prop := forall d, (m d).2 = d.
Lemma unmoved_seq {S A B} (m : M S A) (f : A -> M S B) : unmoved m -> (forall a, unmoved (f a)) -> unmoved (m ≫= f).
Proof. intros Hm Hf d. specialize (Hm d). unfold mbind, M_bind. destruct (m d) as [[a|e] d1]; cbn in *; subst; [apply Hf|done]. Qed.
Lemma unmoved_basic {S A} (a : A) e (r : result A) : unmoved (S := S) (mret a) /\ unmoved (S := S) (A := A) (raise e) /\ unmoved (S := S) get /\ unmoved (S := S) (lift_result r) /\ forall b e, unmoved (S := S) (ensure b e).
Proof. split_and!; try done. by intros []. Qed.
Lemma unmoved_participant p u msg : unmoved (get_participant_raise p u msg).
Proof. unfold get_participant_raise. apply unmoved_seq; [done|]. intros d. by case_match. Qed.
Lemma unmoved_channel hmac payload cx i : unmoved (channel_raise hmac payload cx i).
Proof.
  unfold channel_raise, get_from_input. apply unmoved_seq; [apply unmoved_seq; [done|]|intros []; done]. intros d. case_match; try done. case_match; [done|].
  apply unmoved_seq; [done|]. intros. done.
Qed.
Lemma quiet_member p u msg : quiet (on_members (get_participant_raise p u msg)).
Proof. apply quiet_members, unmoved_participant. Qed.
Lemma quiet_participant_of c u : quiet (participant_of c u).
Proof. apply quiet_member. Qed.
Lemma quiet_channel hmac payload cx i : quiet (channel_of hmac payload cx i).
Proof. apply quiet_members, unmoved_channel. Qed.
#[export] Hint Resolve quiet_member quiet_participant_of quiet_channel : messages.
Lemma found_participant p u msg s m s1 : on_members (get_participant_raise p u msg) s = (Ok m, s1) -> get_participant p u false (mdb s) = Some m.
Proof.
  unfold on_members, get_participant_raise, mbind, M_bind, get. destruct (get_participant p u false (mdb s)); [|done]. by intros [= -> _].
Qed.
Lemma found_channel hmac payload cx i s c s1 : channel_of hmac payload cx i s = (Ok c, s1) -> Members.channels (mdb s) !! c.1 = Some c.2.
Proof.
  unfold channel_of, on_members. destruct (channel_raise hmac payload cx i (mdb s)) as [r d] eqn:E. intros [= -> _]. unfold channel_raise in E.
  apply M_bind_ok in E as (o & d1 & E & E2). destruct o as [c'|]; [|done]. injection E2 as -> _. unfold get_from_input in E. rewrite get_bind in E.
  assert (forall id, (x ← Members.channels (mdb s) !! id; if deleted (ch x) then None else Some (id, x)) = Some c -> Members.channels (mdb s) !! c.1 = Some c.2) as Hfound.
  { intros id. destruct (Members.channels (mdb s) !! id) as [x|] eqn:Ex; cbn; [|done]. destruct (deleted (ch x)); [done|]. by intros [= <-]. }
  destruct i; try done. destruct (_ =? 0).
  - injection E as E _. destruct (get_participant _ _ _ _); cbn in E; [|done]. by eapply Hfound.
  - apply M_bind_ok in E as (b & d2 & _ & E). destruct b; [|done]. injection E as E _. by eapply Hfound.
Qed.

Lemma quiet_bot_blocked u p : quiet (_check_bot_blocked u p). Proof. unfold _check_bot_blocked. quiet. Qed.
Lemma quiet_we_blocked p : quiet (_check_we_blocked_user p). Proof. unfold _check_we_blocked_user. quiet. Qed.
Lemma quiet_deactivated p : quiet (_check_deactivated_user p). Proof. unfold _check_deactivated_user. quiet. Qed.
Lemma quiet_to_bot u p : quiet (_check_disallow_send_to_bot u p). Proof. unfold _check_disallow_send_to_bot. quiet. Qed.
Lemma quiet_slowmode c m u now : quiet (_check_channel_slowmode c m u now). Proof. unfold _check_channel_slowmode. quiet. Qed.
Lemma quiet_update_slowmode c u now : quiet (_update_channel_slowmode_maybe c u now).
Proof. unfold _update_channel_slowmode_maybe. quiet. Qed.
Lemma quiet_created ms o p u b : quiet (send_created_messages_internal ms o p u b). Proof. unfold send_created_messages_internal. quiet. Qed.
Lemma quiet_user u : quiet (get_user u). Proof. unfold get_user. quiet. Qed.
Lemma quiet_send_as hmac payload cx a : quiet (process_send_as hmac payload cx a). Proof. unfold process_send_as. quiet. Qed.
#[export] Hint Resolve quiet_bot_blocked quiet_we_blocked quiet_deactivated quiet_to_bot quiet_slowmode quiet_update_slowmode quiet_created quiet_user quiet_send_as : messages.

(** ** Sending *)
Lemma new_refs_peers k rid ru sched rep a (ps : list Z) : mr_peer <$> (new_ref k rid ru sched rep a <$> ps) = ps.
Proof. rewrite <- list_fmap_compose. rewrite <- (list_fmap_id ps) at 2. by apply list_fmap_ext. Qed.
Lemma ref_of_spec p k s j : ref_of p k s = Some j -> exists r, refs s !! j = Some r /\ mr_peer r = p /\ mr_content r = k.
Proof.
  unfold ref_of. destruct (refs_where _ s) as [|[i r] l] eqn:E; [done|]. intros [= <-]. assert ((i, r) ∈ refs_where (fun kr => (mr_peer kr.2 =? p) && (mr_content kr.2 =? k)) s) as Hin by (rewrite E; left).
  apply elem_refs_where in Hin as [Hr Hf]. cbn in *. b2p. by exists r.
Qed.

Lemma runs_transaction {A} user (m : MS A) s : runs user s (m s) -> runs user s (transaction m s).
Proof. unfold transaction, runs. destruct (m s) as [[a|e] s1]; [done|]. intros _. apply rtc_refl. Qed.

Lemma runs_create user peer c rid ru opp unhide reply sched s : messages_ok s -> stands user s peer -> place_right user s peer.2 may_post -> mc_author c = user ->
  runs user s (create_for_peer peer c rid ru opp unhide reply sched s).
Proof.
  intros Hs Hst Hr Hauth. unfold create_for_peer. apply runs_get. set (k := next_content s). set (s1 := with_contents (<[k := c]> (contents s)) (k + 1) s).
  assert (change user s s1) as Hw by by apply Writes. assert (messages_ok s1) as Hs1 by by eapply change_ok.
  eapply runs_then; [done|by apply runs_change|]. intros [] ? [= <-] _. fold s1.
  set (others := if opp && _ then _ else _). assert (quiet others) as Hq. { unfold others. case_match; [|apply quiet_return]. apply quiet_opposite. by destruct Hst as (_ & _ & ? & _). }
  apply runs_quiet; [done|done|]. intros l s2 El Hc Hs2. assert (same_talk_list s2 (peer.1 :: l.*1)) as Htl.
  { unfold others in El. destruct (opp && _); [|injection El as <- <-; split; [apply NoDup_singleton|]; intros x y ->%list_elem_of_singleton ->%list_elem_of_singleton; done].
    eapply opposite_talk; [by apply mk_typed, Hs1| |exact El|done]. exact Hst. }
  clear El. assert (stands user s2 peer) as Hst2 by (eapply stands_calm; [done|exact Hst]). assert (place_right user s2 peer.2 may_post) as Hr2 by (eapply calm_place_right; [done|exact Hr]).
  apply runs_get. set (rs := new_ref k rid ru sched _ peer.1 <$> _). apply runs_tail; [done| |intros []; destruct unhide; quiet].
  apply runs_transaction. unfold ensure. case_bool_decide as Hnew; [|apply runs_halt]. apply (runs_change user (Ok tt) s2 (synced (peer.1 :: l.*1) (insert_refs rs s2))).
  destruct Hst2 as ((p & Hp & Ep) & Hh & Hty & _). destruct Hc as [_ _ (Ec & _ & Er & _)].
  assert (forall r, r ∈ rs -> exists to, r = new_ref k rid ru sched (fun to_peer => match reply with Some r => ref_of to_peer (mr_content r) s2 | None => None end) peer.1 to /\ to ∈ peer.1 :: l.*1) as Hrs.
  { intros r (to & -> & Hto)%list_elem_of_fmap. by exists to. }
  apply (Shares user s2 k c peer.1 p).
  - rewrite Ec. cbn. by rewrite lookup_insert_eq.
  - done.
  - rewrite Er. cbn. intros i r Hi E. destruct (mk_ref s Hs i r Hi) as (_ & [x Hx] & _). apply (mk_content s Hs) in Hx. unfold k in E. lia.
  - done.
  - by eapply columns_his.
  - unfold place_right in *. by rewrite (columns_place _ _ Ep).
  - done.
  - apply new_refs_peers.
  - by intros r (to & -> & _)%Hrs.
  - intros r Hr1. unfold rs in Hr1. cbn in Hr1. apply list_elem_of_fmap in Hr1 as (to & -> & Hto). cbn. destruct Htl as [[Hnin _]%NoDup_cons _]. destruct (to =? peer.1) eqn:E; [|done]. b2p. by subst.
  - intros r i r' Hr1 Hi. rewrite Forall_forall in Hnew. specialize (Hnew r Hr1). destruct (same_random r' r) eqn:E; [|done].
    assert ((i, r') ∈ refs_where (fun kr => same_random kr.2 r) s2) as Hin by (by apply elem_refs_where). rewrite Hnew in Hin. by apply elem_of_nil in Hin.
  - intros r j (to & -> & _)%Hrs. cbn. destruct reply as [r0|]; [|done]. intros (y & Hy & Hyp & _)%ref_of_spec. by exists y.
Qed.

Ltac reading a s1 E Hc Hs := apply runs_quiet; [done|solve [quiet]|]; intros a s1 E Hc Hs.

Lemma runs_internal threshold now user sr peer a c s : messages_ok s -> stands user s peer -> place_right user s peer.2 may_post -> mc_author c = user ->
  runs user s (send_message_internal threshold now user sr peer a c s).
Proof.
  intros Hs Hst Hr Ha. unfold send_message_internal. apply runs_get. reading u1 s1 E1 C1 Hs1. reading u2 s2 E2 C2 Hs2. reading reply s3 E3 C3 Hs3.
  pose proof (calm_seq _ _ _ (calm_seq _ _ _ C1 C2) C3) as C. pose proof (stands_calm _ _ _ _ C Hst) as Hst3. pose proof (calm_place_right _ _ _ _ _ C Hr) as Hr3.
  match goal with |- runs _ _ ((match ?x with _ => _ end) _) => destruct x end; (apply runs_tail; [done|by apply runs_create|intros msgs; quiet]).
Qed.

Lemma posts user s peer : stands user s peer ->
  match base_in peer.2 s with Some b => may_post b (mb <$> participant_in peer.2 user s) = true | None => True end -> place_right user s peer.2 may_post.
Proof.
  intros (_ & _ & _ & Hb) H. unfold place_right, base_in, participant_in in *. destruct (place_of peer.2) as [q|]; [|done]. destruct (Hb q eq_refl) as [b Hq]. cbn in H. rewrite Hq in H.
  by exists b.
Qed.

(** The references that a request in a peer reaches are those of its talk. *)
Lemma from_oneself_talk p q : peer_typed p -> peer_typed q -> p_type p = USER -> from_oneself q p = true -> one_talk p q.
Proof.
  intros Hp Hq Ht Hf. unfold from_oneself in Hf. b2p. destruct Hp; cbn in *; try done. left. split; [done|]. destruct Hq; cbn in *; simplify_eq; done.
Qed.
Lemma same_chat_talk s a b p q c : messages_ok s -> peer_row s a = Some p -> peer_row s b = Some q -> p_chat p = Some c -> p_chat q = Some c -> b = a \/ talk s a b.
Proof.
  intros Hs Ha Hb Hp Hq. destruct (decide (b = a)) as [|Hne]; [by left|right]. exists p, q. split; [done|]. split; [done|]. right. pose proof (mk_typed s Hs) as Ht.
  pose proof (rows_typed _ Ht _ _ Ha) as Tp. pose proof (rows_typed _ Ht _ _ Hb) as Tq. pose proof (rows_unique _ Ht _ _ _ _ Ha Hb ltac:(congruence)) as Hu.
  destruct Tp, Tq; cbn in *; simplify_eq. split_and!; try done. intros Eo. unfold conflicts in Hu. cbn in Hu. rewrite Eo in Hu. by rewrite !bool_decide_eq_true_2 in Hu by (done || by eexists).
Qed.
Lemma same_talk_ok user s peer id : messages_ok s -> stands user s peer -> is_Some (peer_row s id) -> same_talk peer (peer_row s id) id = true -> id = peer.1 \/ talk s peer.1 id.
Proof.
  intros Hs ((p & Hp & Ep) & _ & Hty & _) [q Hq] H. unfold same_talk in H. rewrite Hq in H. pose proof (rows_typed _ (mk_typed s Hs) _ _ Hq) as Tq. destruct (p_type peer.2) eqn:Et; b2p; [by left| | |by left].
  - apply orb_prop in H as [H|H]; [b2p; by left|right]. exists p, q. split_and!; [done..|]. eapply columns_talk; [exact Ep|done|]. by apply from_oneself_talk.
  - assert (exists c, p_chat peer.2 = Some c) as [c Hc] by (destruct Hty; cbn in *; try done; eauto). apply (same_chat_talk s peer.1 id p q c Hs Hp Hq); [|congruence].
    injection Ep as _ _ _ -> _. done.
Qed.

Lemma pinned_for_ok user s peer i r : messages_ok s -> stands user s peer -> refs s !! i = Some r -> p_type peer.2 <> CHANNEL -> pinned_for peer s r = true -> peer.1 = mr_peer r \/ talk s peer.1 (mr_peer r).
Proof.
  intros Hs Hst Hr Ht Hp. destruct (mk_ref s Hs i r Hr) as (_ & _ & Hrow). assert (same_talk peer (peer_row s (mr_peer r)) (mr_peer r) = true) as H.
  { unfold pinned_for in Hp. destruct (p_type peer.2) eqn:E; try done. unfold same_talk. rewrite E. destruct (mr_peer r =? peer.1); [done|]. cbn in *. destruct (peer_row s (mr_peer r)); [|done]. by apply andb_prop in Hp as [-> _]. }
  destruct (same_talk_ok user s peer (mr_peer r)) as [E|E]; [done..|by left|by right].
Qed.
Lemma pins_allowed user s peer (ids : list Z) : stands user s peer -> place_right user s peer.2 can_pin_messages ->
  (forall i, i ∈ ids -> exists r, refs s !! i = Some r /\ (peer.1 = mr_peer r \/ talk s peer.1 (mr_peer r))) -> forall i, i ∈ ids -> exists r, refs s !! i = Some r /\ may_pin user s r.
Proof.
  intros ((p & Hp & Ep) & Hh & _) Hr Hids i Hi. destruct (Hids i Hi) as (r & Hri & Ht). exists r. split; [done|]. exists peer.1, p. split; [done|]. split; [by eapply columns_his|]. split; [done|].
  unfold place_right in *. by rewrite (columns_place _ _ Ep).
Qed.

Section Handlers.
Context (hmac_sha256 : bytes -> bytes) (payload : signed_kind -> Z -> Z -> Z -> bytes) (hmac_32 : forall m, length (hmac_sha256 m) = 32%nat).
Context (threshold max_length max_caption min_id_threshold : Z) (icontains : pystr -> pystr -> bool).
#[local] Hint Resolve quiet_peer_of quiet_peer_of_input : messages.

Lemma peer_stands cx i s peer s1 : messages_ok s -> peer_of_input hmac_sha256 payload cx i s = (Ok peer, s1) -> stands (mx_user_id cx) s1 peer /\ peer_row s1 peer.1 = Some peer.2.
Proof using hmac_32. intros Hs E. eapply input_stands; [done|by apply mk_typed, Hs|exact E]. Qed.

Lemma runs_send_message cx now name sr r s : messages_ok s -> runs (mx_user_id cx) s (send_message hmac_sha256 payload threshold max_length cx now name sr r s).
Proof using hmac_32.
  intros Hs. unfold send_message. set (user := mx_user_id cx). reading u s1 E1 C1 Hs1. do 2 (apply runs_ensure; intros _). reading peer s2 E2 C2 Hs2.
  destruct (peer_stands _ _ _ _ _ Hs1 E2) as [Hst _]. clear E2. apply runs_get. destruct (get_from_random_id _ _ _ _); [apply runs_halt|].
  apply runs_quiet; [done|solve [quiet]|]. intros [] s3 E3 C3 Hs3.
  assert (place_right user s2 peer.2 may_post) as Hr.
  { apply posts; [done|]. destruct (base_in peer.2 s2) as [b|]; [|done]. unfold ensure in E3. destruct (can_send_plain b _) eqn:Eb; [|done]. unfold may_post. by rewrite Eb. }
  reading u4 s4 E4 C4 Hs4. reading u5 s5 E5 C5 Hs5. reading u6 s6 E6 C6 Hs6. reading u7 s7 E7 C7 Hs7. reading u8 s8 E8 C8 Hs8. reading u9 s9 E9 C9 Hs9.
  do 2 (apply runs_ensure; intros _). destruct (_make_channel_post_info_maybe _ _ _ _) as [cp sig]. destruct (if cp : bool then _ else _) as [anon sig'].
  reading markup s10 E10 C10 Hs10. reading as_ s11 E11 C11 Hs11. reading u12 s12 E12 C12 Hs12. reading ents s13 E13 C13 Hs13.
  apply runs_tail; [done| |intros; quiet].
  clear C1 C2. assert (calm s2 s13) as C by (repeat (eapply calm_seq; [|eassumption]); by apply calm_id, mk_typed).
  apply runs_internal; [done|by eapply stands_calm|by eapply calm_place_right|done].
Qed.

(** The check of a right before a change, in a place or not *)
Definition checked (f : ChatBase -> option ChatParticipant -> bool) user s peer : Prop := forall q b, place_of peer = Some q -> base_of q (mdb s) = Some b ->
  exists m, get_participant q user false (mdb s) = Some m /\ f b (Some (mb m)) = true.
Lemma checked_right f user s peer : stands user s peer -> checked f user s peer.2 -> place_right user s peer.2 f.
Proof.
  intros (_ & _ & _ & Hb) Hc. unfold place_right. destruct (place_of peer.2) as [q|] eqn:Eq; [|done]. destruct (Hb q eq_refl) as [b Hq]. exists b. split; [done|].
  destruct (Hc q b Eq Hq) as (m & -> & Hf). done.
Qed.
Lemma quiet_right f user p m1 m2 : quiet (require_right f user p m1 m2).
Proof. unfold require_right. quiet. Qed.
#[local] Hint Resolve quiet_right : messages.
Lemma require_checked f user p m1 m2 x s s1 : require_right f user p m1 m2 s = (Ok x, s1) -> checked f user s p.
Proof.
  unfold require_right. rewrite get_bind. intros E q b Hq Hb. unfold base_in in E. rewrite Hq in E. cbn in E. rewrite Hb in E. apply M_bind_ok in E as (m & s2 & E1 & E2).
  apply found_participant in E1. exists m. split; [done|]. unfold ensure in E2. by destruct (f b (Some (mb m))).
Qed.
Lemma place_right_same user s s' p f : mdb s' = mdb s -> place_right user s p f -> place_right user s' p f.
Proof. unfold place_right. by intros ->. Qed.
Lemma stands_same user s s' kp : mdb s' = mdb s -> stands user s kp -> stands user s' kp.
Proof. unfold stands, peer_row. by intros ->. Qed.
Lemma pin_posts user s p : stands user s p -> checked can_pin_messages user s p.2 -> place_right user s p.2 may_post.
Proof.
  intros Hst Hc. apply checked_right; [done|]. intros q b Hq Hb. destruct (Hc q b Hq Hb) as (m & Hm & Hf). exists m. split; [done|]. unfold may_post. rewrite Hf. by rewrite orb_true_r.
Qed.

Lemma runs_edit cx now r s : messages_ok s -> runs (mx_user_id cx) s (edit_message hmac_sha256 payload max_length max_caption cx now r s).
Proof using hmac_32.
  intros Hs. unfold edit_message. set (user := mx_user_id cx). reading peer s1 E1 C1 Hs1. destruct (peer_stands _ _ _ _ _ Hs E1) as [Hst _]. clear E1 C1.
  reading u2 s2 E2 C2 Hs2. clear E2. reading u3 s3 E3 C3 Hs3. reading u4 s4 E4 C4 Hs4. reading u5 s5 E5 C5 Hs5. apply runs_get. destruct (refs s5 !! em_id r) as [ref|] eqn:Er; [|apply runs_halt].
  apply runs_ensure. intros Hf. destruct (contents s5 !! mr_content ref) as [c|] eqn:Ec; [|apply runs_halt]. apply runs_lift. intros media _. apply runs_ensure. intros _. apply runs_ensure. intros Ha.
  apply runs_ensure. intros _. reading ents s6 E6 C6 Hs6. reading markup s7 E7 C7 Hs7. reading date s8 E8 C8 Hs8. apply runs_tail; [done| |intros; quiet].
  apply (runs_change user (Ok tt)). assert (stands user s8 peer) as ((p & Hp & Ep) & Hh & _) by (repeat (eapply stands_calm; [eassumption|]); done).
  assert (calm s5 s8) as [_ _ (Ec8 & _ & Er8 & _)] by (eapply calm_seq; [eapply calm_seq; [exact C6|exact C7]|exact C8]). cbn in Hf. b2p. apply (Edits user s8 (mr_content ref) c); try done.
  - by rewrite Ec8.
  - exists (em_id r), ref, p. rewrite Er8. split_and!; [done|done|congruence|by eapply columns_his].
Qed.

Lemma runs_update_pinned cx now sr r s : messages_ok s -> runs (mx_user_id cx) s (update_pinned_message hmac_sha256 payload threshold cx now sr r s).
Proof using hmac_32.
  intros Hs. unfold update_pinned_message. set (user := mx_user_id cx). reading u s1 E1 C1 Hs1. apply runs_ensure. intros _. reading peer s2 E2 C2 Hs2.
  destruct (peer_stands _ _ _ _ _ Hs1 E2) as [Hst _]. clear E1 C1 E2 C2. reading u3 s3 E3 C3 Hs3. apply require_checked in E3.
  pose proof (checked_right _ _ _ _ Hst E3) as Hpin. pose proof (pin_posts _ _ _ Hst E3) as Hpost. reading u4 s4 E4 C4 Hs4. pose proof (calm_seq _ _ _ C3 C4) as C.
  apply (stands_calm _ _ _ _ C) in Hst. apply (calm_place_right _ _ _ _ _ C) in Hpin, Hpost. clear dependent s2 s3. apply runs_get.
  destruct (refs s4 !! up_id r) as [ref|] eqn:Er; [|apply runs_halt]. apply runs_ensure. intros Hf. set (ids := match p_type peer.2 with CHANNEL => _ | _ => _ end).
  assert (change user s4 (set_pinned (negb (up_unpin r)) ids s4).2) as Hch.
  { apply Pins. apply (pins_allowed _ _ peer); [done..|]. unfold ids. intros i Hi. b2p. destruct (p_type peer.2) eqn:Et.
    4: { apply list_elem_of_singleton in Hi as ->. exists ref. split; [done|]. left. congruence. }
    all: apply list_elem_of_fmap in Hi as ([k x] & -> & [Hx Hp]%elem_refs_where); exists x; cbn in *; split; [done|]; b2p; eapply pinned_for_ok; [done|done|done|congruence|done]. }
  eapply runs_then; [done|by apply runs_change|]. intros [] s5 E5 Hs5. injection E5 as <-. reading u6 s6 E6 C6 Hs6.
  case_match; [|apply runs_halt]. apply runs_tail; [done| |intros; quiet].
  apply runs_internal; [done| |eapply calm_place_right; [exact C6|]|done].
  - eapply stands_calm; [exact C6|]. eapply stands_same; [|exact Hst]. done.
  - eapply place_right_same; [|exact Hpost]. done.
Qed.

Lemma runs_unpin_all cx i s : messages_ok s -> runs (mx_user_id cx) s (unpin_all_messages hmac_sha256 payload cx i s).
Proof using hmac_32.
  intros Hs. unfold unpin_all_messages. set (user := mx_user_id cx). reading peer s1 E1 C1 Hs1. destruct (peer_stands _ _ _ _ _ Hs E1) as [Hst _]. clear E1 C1.
  reading p s2 E2 C2 Hs2. apply require_checked in E2. pose proof (checked_right _ _ _ _ Hst E2) as Hpin. clear E2. reading u s3 E3 C3 Hs3. reading u4 s4 E4 C4 Hs4.
  assert (calm s1 s4) as C by (eapply calm_seq; [eapply calm_seq; [exact C2|exact C3]|exact C4]). apply (stands_calm _ _ _ _ C) in Hst. apply (calm_place_right _ _ _ _ _ C) in Hpin. apply runs_get.
  case_bool_decide; [apply runs_halt|]. apply runs_tail; [done| |intros; quiet]. apply (runs_change user (Ok tt)), Pins. apply (pins_allowed _ _ peer); [done..|].
  intros j ([k x] & -> & [Hx Hp]%elem_refs_where)%list_elem_of_fmap. exists x. cbn in *. b2p. split; [done|]. destruct (mk_ref _ Hs4 k x Hx) as (_ & _ & Hrow).
  destruct (same_talk_ok user s4 peer (mr_peer x)); [done..|by left|by right].
Qed.

(** ** Reading *)
Lemma quiet_out_mark peer m : quiet (raise_out_mark peer m).
Proof.
  unfold raise_out_mark. apply quiet_seq; [|intros; apply quiet_return]. apply quiet_peers. intros d Hd.
  pose proof (op_grows (fun _ => replicate 32 Byte.x00) (fun _ _ _ _ => []) 0 (fun _ => eq_refl) (MaxRead peer.1 peer.2 m) d Hd I) as H. cbn in H. unfold mbind, M_bind in H.
  destruct (update_max_read_id _ _ _ d) as [[]]; done.
Qed.
#[local] Hint Resolve quiet_out_mark : messages.
Lemma quiet_get_history cx i a b c d e : quiet (get_history hmac_sha256 payload icontains cx i a b c d e).
Proof using hmac_32. unfold get_history. quiet. Qed.
Lemma quiet_search cx r : quiet (messages_search hmac_sha256 payload icontains cx r).
Proof using hmac_32. unfold messages_search. quiet. Qed.
Lemma quiet_global cx a b c d q f : quiet (search_global icontains cx a b c d q f).
Proof. unfold search_global. quiet. Qed.
Lemma quiet_counters cx i fs : quiet (get_search_counters hmac_sha256 payload icontains cx i fs).
Proof using hmac_32. unfold get_search_counters. quiet. Qed.
Lemma quiet_get_messages cx l : quiet (get_messages cx l).
Proof. unfold get_messages. quiet. Qed.
Lemma quiet_get_channel_messages cx i l : quiet (get_channel_messages hmac_sha256 payload cx i l).
Proof. unfold get_channel_messages. quiet. Qed.
Lemma quiet_read_history cx i m : quiet (read_history hmac_sha256 payload cx i m).
Proof using hmac_32. unfold read_history. quiet. Qed.
Lemma quiet_read_channel cx i m : quiet (read_channel_history hmac_sha256 payload cx i m).
Proof using hmac_32. unfold read_channel_history. quiet. Qed.

(** ** Deleting *)
Lemma owned_copy user s i r : refs s !! i = Some r -> owned_by user s r = true -> has_copy user s (mr_content r).
Proof. intros Hr Ho. exists i, r. split; [done|]. split; [done|]. unfold owned_by in Ho. destruct (peer_row s (mr_peer r)) as [p|] eqn:E; [|done]. exists p. b2p. done. Qed.
Lemma runs_deletes user ids ps s : (forall i, i ∈ ids -> exists r, refs s !! i = Some r /\ may_delete user s r) -> runs user s (transaction (delete_refs ids;; sync_last_message_bulk ps) s).
Proof. intros H. apply runs_transaction, (runs_change user (Ok tt)). by apply Deletes. Qed.

Lemma runs_delete_messages cx ids revoke s : messages_ok s -> runs (mx_user_id cx) s (delete_messages cx ids revoke s).
Proof.
  intros Hs. unfold delete_messages. apply runs_get. set (named := refs_where (fun kr => bool_decide (kr.1 ∈ take 100 ids) && _) s). set (found := if revoke then _ else _).
  assert (forall kr, kr ∈ named -> has_copy (mx_user_id cx) s (mr_content kr.2)) as Hn by (intros [k x] [Hx Hf]%elem_refs_where; cbn in *; b2p; by eapply owned_copy).
  case_bool_decide; [apply runs_halt|]. apply runs_tail; [done| |intros; quiet]. apply runs_deletes. intros i ([k x] & -> & Hin)%list_elem_of_fmap. exists x. unfold found in Hin. cbn. destruct revoke.
  - apply elem_refs_where in Hin as [Hx Hf]. cbn in *. split; [done|]. left. b2p. apply list_elem_of_fmap in Hf as (y & -> & Hy). by apply Hn.
  - pose proof (Hn _ Hin). apply elem_refs_where in Hin as [Hx _]. split; [done|]. by left.
Qed.

Lemma runs_delete_history cx r s : messages_ok s -> runs (mx_user_id cx) s (delete_history hmac_sha256 payload cx r s).
Proof using hmac_32.
  intros Hs. unfold delete_history. set (user := mx_user_id cx). apply runs_quiet; [done|by apply quiet_peer_of|]. intros peer s1 E1 C1 Hs1.
  destruct (input_stands hmac_sha256 payload hmac_32 _ _ _ _ _ _ _ _ _ _ (mk_typed s Hs) E1) as [Hst _]. clear E1 C1.
  apply runs_ensure. intros Hch. apply runs_ensure. intros _. apply runs_get. match goal with |- context [take 1001 ?l] => set (found := take 1001 l) end. set (cids := omap _ (take 1000 found)). destruct (bool_decide (cids = [])); [apply runs_halt|].
  destruct Hst as ((p & Hp & Ep) & Hh & Hty & _). assert (p_owner p = Some user) as Hown.
  { b2p. destruct (columns_his _ _ _ Ep Hh) as [|Hc]; [done|]. injection Ep as _ E _ _ _. congruence. }
  apply runs_then; [done| |].
  - apply (runs_change user (Ok tt)), Forgets. intros k (i & Hi & Hk)%list_elem_of_omap. destruct (refs s1 !! i) as [x|] eqn:Ex; [|done]. injection Hk as <-. exists i, x. split; [done|]. split; [done|].
    exists p. split; [|done]. apply elem_of_take in Hi as (n & Hi & _). apply list_elem_of_lookup_2 in Hi. unfold found in Hi. apply elem_of_take in Hi as (n' & Hi & _). apply list_elem_of_lookup_2, elem_ids_desc in Hi as (x' & Hx' & Hf).
    cbn in Hf. b2p. congruence.
  - intros [] s2 E2 Hs2. injection E2 as <-. set (s2 := with_contents _ _ _) in *. reading u3 s3 E3 C3 Hs3. destruct (_ =? 0); [|apply runs_calm; [quiet|done]].
    apply runs_tail; [done| |intros; quiet]. reading u4 s4 E4 C4 Hs4. destruct (place_of peer.2) as [[g|c]|] eqn:Epl; [|apply runs_halt..].
    apply runs_tail; [done| |intros; quiet]. assert (peer_row s2 peer.1 = Some p) as Hp2 by done. destruct (calm_row s2 s4 _ p (calm_seq _ _ _ C3 C4) Hp2) as (p' & Hp' & Ep').
    apply (runs_change user (Ok tt)). apply (Leaves user s4 peer.1 p' g); [done| |].
    + unfold peer_columns in Ep'. congruence.
    + rewrite (columns_place _ _ Ep'), (columns_place _ _ Ep). done.
Qed.

Lemma deleting_found c user msg s m s1 : Members.channels (mdb s) !! c.1 = Some c.2 -> deleting_admin c user msg s = (Ok m, s1) ->
  channel_admin user s c.1 Admin.DELETE_MESSAGES /\ get_participant (InChannel c.1) user false (mdb s) = Some m.
Proof.
  intros Hc E. unfold deleting_admin in E. apply M_bind_ok in E as (x & s2 & E1 & E2). apply found_participant in E1. unfold ensure in E2.
  destruct (admin_has_permission (ch c.2) (mb x) Admin.DELETE_MESSAGES) eqn:Ea; [|done]. injection E2 as -> _. split; [|done]. by exists c.2, m.
Qed.
Lemma quiet_deleting c user msg : quiet (deleting_admin c user msg).
Proof. unfold deleting_admin. quiet. Qed.
Lemma quiet_channel_peer c : quiet (channel_peer c).
Proof. unfold channel_peer. quiet. Qed.
#[local] Hint Resolve quiet_deleting quiet_channel_peer : messages.
Lemma calm_admin user s s' c r : calm s s' -> channel_admin user s c r -> channel_admin user s' c r.
Proof. intros Hc (x & m & Hx & Hm & Ha). exists x, m. rewrite (calm_get_participant s s') by done. destruct Hc as [_ (_ & -> & _) _]. done. Qed.
Lemma channel_peer_found c s a s1 : channel_peer c s = (Ok a, s1) -> exists p, peer_row s a = Some p /\ p_channel p = Some c.
Proof.
  unfold channel_peer. rewrite get_bind. set (l := filter _ _). destruct l as [|[k p] l'] eqn:E; [done|]. intros [= <- _].
  assert ((k, p) ∈ l) as Hin by (rewrite E; left). apply list_elem_of_filter in Hin as [Hc Hin%elem_of_map_to_list]. by exists p.
Qed.
Lemma admin_deletes user s c a p (ids : list Z) : channel_admin user s c Admin.DELETE_MESSAGES -> peer_row s a = Some p -> p_channel p = Some c ->
  (forall i, i ∈ ids -> exists r, refs s !! i = Some r /\ mr_peer r = a) -> forall i, i ∈ ids -> exists r, refs s !! i = Some r /\ may_delete user s r.
Proof. intros Ha Hp Hc Hids i Hi. destruct (Hids i Hi) as (r & Hr & <-). exists r. split; [done|]. right. by exists p, c. Qed.

Lemma channel_user hmac payload' cx i s c s1 : typed s -> channel_of hmac payload' cx i s = (Ok c, s1) -> Members.channels (mdb s1) !! c.1 = Some c.2.
Proof. intros Hs E. pose proof (quiet_channel hmac payload' cx i s Hs) as Hc. rewrite E in Hc. cbn [snd] in Hc. apply found_channel in E. destruct Hc as [_ (_ & -> & _) _]. done. Qed.

Lemma runs_delete_channel_messages cx i ids s : messages_ok s -> runs (mx_user_id cx) s (delete_channel_messages hmac_sha256 payload cx i ids s).
Proof.
  intros Hs. unfold delete_channel_messages. set (user := mx_user_id cx). reading c s1 E1 C1 Hs1. apply channel_user in E1; [|by apply mk_typed]. reading m s2 E2 C2 Hs2.
  apply deleting_found in E2 as [Ha _]; [|done]. apply (calm_admin _ _ _ _ _ C2) in Ha. reading a s3 E3 C3 Hs3. apply channel_peer_found in E3 as (p & Hp & Hpc).
  apply (calm_admin _ _ _ _ _ C3) in Ha. destruct (calm_row _ _ _ _ C3 Hp) as (p' & Hp' & Ep). apply runs_get. case_bool_decide; [apply runs_halt|].
  apply runs_tail; [done| |intros; quiet]. apply runs_deletes. apply (admin_deletes user s3 c.1 a p'); [done..| |].
  - injection Ep as _ _ _ _ ->. done.
  - intros j ([k x] & -> & [Hx Hf]%elem_refs_where)%list_elem_of_fmap. exists x. cbn in *. b2p. done.
Qed.

Lemma runs_delete_participant_history cx i t s : messages_ok s -> runs (mx_user_id cx) s (delete_participant_history hmac_sha256 payload cx i t s).
Proof.
  intros Hs. unfold delete_participant_history. set (user := mx_user_id cx). reading c s1 E1 C1 Hs1. apply channel_user in E1; [|by apply mk_typed]. reading m s2 E2 C2 Hs2.
  apply deleting_found in E2 as [Ha _]; [|done]. apply (calm_admin _ _ _ _ _ C2) in Ha. apply runs_lift. intros tt' _. apply runs_ensure. intros _.
  reading a s3 E3 C3 Hs3. apply channel_peer_found in E3 as (p & Hp & Hpc). apply (calm_admin _ _ _ _ _ C3) in Ha. destruct (calm_row _ _ _ _ C3 Hp) as (p' & Hp' & Ep).
  apply runs_get. case_bool_decide; [apply runs_halt|]. apply runs_tail; [done| |intros; quiet]. apply runs_deletes. apply (admin_deletes user s3 c.1 a p'); [done..| |].
  - injection Ep as _ _ _ _ ->. done.
  - intros j (n & Hj & _)%elem_of_take. apply list_elem_of_lookup_2, elem_of_take in Hj as (n' & Hj & _). apply list_elem_of_lookup_2, elem_ids_desc in Hj as (x & Hx & Hf). exists x. cbn in *. b2p. done.
Qed.

Lemma or_zero_nonzero z : or_zero (nonzero z) = z.
Proof. unfold or_zero, nonzero. destruct (z =? 0) eqn:E; b2p; by subst. Qed.
Lemma runs_delete_channel_history cx i max_id all s : messages_ok s -> runs (mx_user_id cx) s (delete_channel_history hmac_sha256 payload min_id_threshold cx i max_id all s).
Proof.
  intros Hs. unfold delete_channel_history. set (user := mx_user_id cx). reading c s1 E1 C1 Hs1. apply channel_user in E1; [|by apply mk_typed]. reading m s2 E2 C2 Hs2.
  apply found_participant in E2. assert (get_participant (InChannel c.1) user false (mdb s2) = Some m) as Hm by (by rewrite (calm_get_participant s1 s2)).
  assert (Members.channels (mdb s2) !! c.1 = Some c.2) as Hc by (destruct C2 as [_ (_ & -> & _) _]; done). apply runs_get. set (new := default 0 _). destruct all; cbn [negb].
  - apply runs_ensure. intros Hadm. assert (channel_admin user s2 c.1 Admin.DELETE_MESSAGES) as Ha by by exists c.2, m.
    reading a s3 E3 C3 Hs3. apply channel_peer_found in E3 as (p & Hp & Hpc). apply (calm_admin _ _ _ _ _ C3) in Ha. destruct (calm_row _ _ _ _ C3 Hp) as (p' & Hp' & Ep).
    destruct C3 as [_ _ (_ & _ & Er & _)]. set (ids := take _ _). destruct (_ <? _).
    + apply runs_tail; [done| |intros; quiet]. apply (runs_change user (Ok tt)). by apply Cuts.
    + assert (forall j, j ∈ ids -> exists r, refs s3 !! j = Some r /\ mr_peer r = a) as Hids.
      { intros j (n & Hj & _)%elem_of_take. apply list_elem_of_lookup_2, elem_ids_desc in Hj as (x & Hx & Hf). exists x. cbn in *. b2p. by rewrite Er. }
      destruct ids as [|x rest]; [apply runs_halt|]. apply runs_tail; [done| |intros; quiet]. apply runs_deletes. apply (admin_deletes user s3 c.1 a p'); [done..| |].
      * injection Ep as _ _ _ _ ->. done.
      * intros j Hj. apply Hids. by right.
  - destruct (_ <? _) eqn:El; [apply runs_halt|]. b2p. apply runs_tail; [done| |intros; quiet]. apply (runs_change user (Ok tt)). apply (Hides user s2 c.1 m); [done|]. by rewrite or_zero_nonzero.
Qed.
End Handlers.

(** ** All requests *)
Inductive request :=
  | SendRequest (now : Z) (name : pystr) (sr : Surroundings) (r : SendMessage)
  | EditRequest (now : Z) (r : EditMessage)
  | PinRequest (now : Z) (sr : Surroundings) (r : UpdatePinnedMessage)
  | UnpinAllRequest (i : InputPeer)
  | GetHistoryRequest (i : InputPeer) (max_id min_id offset_id limit add_offset : Z)
  | SearchRequest (r : Search)
  | SearchGlobalRequest (offset_id limit min_date max_date : Z) (q : option pystr) (f : option MessagesFilter)
  | CountersRequest (i : InputPeer) (fs : list MessagesFilter)
  | GetMessagesRequest (l : list InputMessage)
  | GetChannelMessagesRequest (i : InputPeer) (l : list InputMessage)
  | ReadHistoryRequest (i : InputPeer) (max_id : Z)
  | ReadChannelRequest (i : InputPeer) (max_id : Z)
  | DeleteRequest (ids : list Z) (revoke : bool)
  | DeleteHistoryRequest (r : DeleteHistory)
  | DeleteChannelRequest (i : InputPeer) (ids : list Z)
  | DeleteChannelHistoryRequest (i : InputPeer) (max_id : Z) (for_everyone : bool)
  | DeleteParticipantHistoryRequest (i target : InputPeer).

Section Requests.
Context (hmac_sha256 : bytes -> bytes) (payload : signed_kind -> Z -> Z -> Z -> bytes) (icontains : pystr -> pystr -> bool).
Context (threshold max_length max_caption min_id_threshold : Z).
Definition run_request (cx : MembersCtx) (q : request) (s : MessagesDb) : MessagesDb :=
  match q with
  | SendRequest now name sr r => (send_message hmac_sha256 payload threshold max_length cx now name sr r s).2
  | EditRequest now r => (edit_message hmac_sha256 payload max_length max_caption cx now r s).2
  | PinRequest now sr r => (update_pinned_message hmac_sha256 payload threshold cx now sr r s).2
  | UnpinAllRequest i => (unpin_all_messages hmac_sha256 payload cx i s).2
  | GetHistoryRequest i a b c d e => (get_history hmac_sha256 payload icontains cx i a b c d e s).2
  | SearchRequest r => (messages_search hmac_sha256 payload icontains cx r s).2
  | SearchGlobalRequest a b c d q f => (search_global icontains cx a b c d q f s).2
  | CountersRequest i fs => (get_search_counters hmac_sha256 payload icontains cx i fs s).2
  | GetMessagesRequest l => (get_messages cx l s).2
  | GetChannelMessagesRequest i l => (get_channel_messages hmac_sha256 payload cx i l s).2
  | ReadHistoryRequest i m => (read_history hmac_sha256 payload cx i m s).2
  | ReadChannelRequest i m => (read_channel_history hmac_sha256 payload cx i m s).2
  | DeleteRequest ids b => (delete_messages cx ids b s).2
  | DeleteHistoryRequest r => (delete_history hmac_sha256 payload cx r s).2
  | DeleteChannelRequest i ids => (delete_channel_messages hmac_sha256 payload cx i ids s).2
  | DeleteChannelHistoryRequest i m b => (delete_channel_history hmac_sha256 payload min_id_threshold cx i m b s).2
  | DeleteParticipantHistoryRequest i t => (delete_participant_history hmac_sha256 payload cx i t s).2
  end.
(** Requests one after the other, with who makes them *)
Inductive requests : list Z -> MessagesDb -> MessagesDb -> Prop :=
  | requests_nil s : requests [] s s
  | requests_cons cx q us s s' : requests us (run_request cx q s) s' -> requests (mx_user_id cx :: us) s s'.

Context (hmac_32 : forall m, length (hmac_sha256 m) = 32%nat).
Lemma request_moves cx q s : messages_ok s -> rtc (moves (mx_user_id cx)) s (run_request cx q s).
Proof using hmac_32.
  intros Hs. assert (forall A (m : MS A), quiet m -> rtc (moves (mx_user_id cx)) s (m s).2) as Hq by (intros A m Hm; by apply runs_calm).
  destruct q; cbn [run_request].
  - by apply runs_send_message.
  - by apply runs_edit.
  - by apply runs_update_pinned.
  - by apply runs_unpin_all.
  - by apply Hq, quiet_get_history.
  - by apply Hq, quiet_search.
  - by apply Hq, quiet_global.
  - by apply Hq, quiet_counters.
  - by apply Hq, quiet_get_messages.
  - by apply Hq, quiet_get_channel_messages.
  - by apply Hq, quiet_read_history.
  - by apply Hq, quiet_read_channel.
  - by apply runs_delete_messages.
  - by apply runs_delete_history.
  - by apply runs_delete_channel_messages.
  - by apply runs_delete_channel_history.
  - by apply runs_delete_participant_history.
Qed.

Definition trace (us : list Z) : MessagesDb -> MessagesDb -> Prop := rtc (fun s s' => exists u, u ∈ us /\ moves u s s').
Lemma trace_mono us vs s s' : us ⊆ vs -> trace us s s' -> trace vs s s'.
Proof. intros Hsub. induction 1 as [|s1 s2 s3 (u & Hu & Hm) _ IH]; [apply rtc_refl|]. eapply rtc_l; [|exact IH]. exists u. auto. Qed.
Lemma requests_trace us s s' : requests us s s' -> messages_ok s -> trace us s s' /\ messages_ok s'.
Proof using hmac_32.
  induction 1 as [s|cx q us s s' _ IH]; intros Hs; [split; [apply rtc_refl|done]|]. pose proof (request_moves cx q s Hs) as Hm. pose proof (moves_ok _ _ _ Hm Hs) as Hs1.
  destruct (IH Hs1) as [Ht Hs']. split; [|done]. transitivity (run_request cx q s); [|eapply trace_mono; [|exact Ht]; set_solver].
  clear -Hm. induction Hm as [|a b c H _ IHm]; [apply rtc_refl|]. eapply rtc_l; [|exact IHm]. exists (mx_user_id cx). split; [by left|done].
Qed.
End Requests.

(** ** What a sequence of steps may do to a message *)
Lemma trace_ind us (P : MessagesDb -> Prop) s : P s -> messages_ok s -> (forall u a b, u ∈ us -> trace us s a -> messages_ok a -> messages_ok b -> moves u a b -> P a -> P b) ->
  forall s', trace us s s' -> P s'.
Proof.
  intros H0 Hs Hstep s' Ht. assert (P s' /\ messages_ok s') as [? _]; [|done]. revert s' Ht. apply rtc_ind_r; [done|]. intros a b Ha (u & Hu & Hm) [HP Hok].
  assert (messages_ok b) as Hb by (eapply moves_ok; [by apply rtc_once|done]). split; [|done]. by eapply Hstep.
Qed.

Lemma moves_contents u s s' : moves u s s' -> next_content s <= next_content s' /\ forall k c', contents s' !! k = Some c' ->
  (exists c, contents s !! k = Some c /\ mc_author c' = mc_author c /\ (c' = c \/ mc_author c = u)) \/ (k = next_content s /\ mc_author c' = u).
Proof.
  intros [[_ _ (E1 & E2 & _)]|H]; [|by apply step_contents]. rewrite E1, E2. split; [lia|]. intros k c' Hk. left. exists c'. split_and!; [done..|by left].
Qed.
Lemma trace_contents us s s' k c : messages_ok s -> trace us s s' -> contents s !! k = Some c ->
  k < next_content s' /\ forall c', contents s' !! k = Some c' -> mc_author c' = mc_author c /\ (mc_author c ∉ us -> c' = c).
Proof.
  intros Hs Ht Hk. revert s' Ht. refine (trace_ind us (fun s' => _) s _ Hs _).
  - split; [by apply (mk_content s Hs) in Hk|]. intros c' Hc'. split; [congruence|]. intros _. congruence.
  - intros u a b Hu _ _ _ Hm [Hn Hc]. destruct (moves_contents u a b Hm) as [Hle Hcs]. split; [lia|]. intros c' Hc'. destruct (Hcs k c' Hc') as [(x & Hx & Ea & Hor)|[-> _]]; [|lia].
    destruct (Hc x Hx) as [Ex Hun]. split; [congruence|]. intros Hni. destruct Hor as [->|Hau]; [by apply Hun|]. exfalso. apply Hni. congruence.
Qed.

Lemma moves_refs u s s' i r' : messages_ok s -> moves u s s' -> refs s' !! i = Some r' ->
  (exists r, refs s !! i = Some r /\ mr_content r' = mr_content r /\ mr_peer r' = mr_peer r) \/
  (refs s !! i = None /\ (exists c, contents s' !! mr_content r' = Some c /\ mc_author c = u) /\ forall j r, refs s !! j = Some r -> mr_content r <> mr_content r').
Proof. intros Hs [[_ _ (_ & _ & E & _)]|H] Hi; [left; exists r'; by rewrite <- E|by eapply step_refs]. Qed.
(** The author of what is new is one of those who acted. *)
Lemma trace_written us s s' i r : messages_ok s -> trace us s s' -> refs s' !! i = Some r ->
  (exists r0, refs s !! i = Some r0 /\ mr_content r = mr_content r0 /\ mr_peer r = mr_peer r0) \/ exists c, contents s' !! mr_content r = Some c /\ mc_author c ∈ us.
Proof.
  intros Hs Ht. revert i r. revert s' Ht. refine (trace_ind us (fun s' => _) s _ Hs _); [intros i r Hr; left; by exists r|]. intros u a b Hu _ Ha Hb Hm IH i r Hi. destruct (moves_refs u a b i r Ha Hm Hi) as [(x & Hx & E1 & E2)|(_ & (c & Hc & <-) & _)].
  - destruct (IH i x Hx) as [(r0 & Hr0 & E3 & E4)|(c & Hc & Hin)]; [left; exists r0; split_and!; congruence|right]. destruct (mk_ref b Hb i r Hi) as (_ & [c' Hc'] & _).
    exists c'. split; [done|]. destruct (moves_contents u a b Hm) as [_ Hcs]. destruct (Hcs _ _ Hc') as [(y & Hy & -> & _)|[_ ->]]; [|done]. rewrite E1 in Hy. congruence.
  - right. by exists c.
Qed.

(** As long as a message is there, its copies are those it had, in the peers they were in. *)
Definition copies_of (s a : MessagesDb) (k : Z) : Prop := forall j x, refs a !! j = Some x -> mr_content x = k ->
  exists y p q, refs s !! j = Some y /\ mr_content y = k /\ mr_peer y = mr_peer x /\ peer_row s (mr_peer y) = Some p /\ peer_row a (mr_peer y) = Some q /\ peer_columns q = peer_columns p.
Lemma copies_step u s a b i r k : messages_ok a -> messages_ok b -> moves u a b -> refs a !! i = Some r -> mr_content r = k -> copies_of s a k -> copies_of s b k.
Proof.
  intros Ha Hb Hm Hi Hk Hc j x Hx Ex. destruct (moves_refs u a b j x Ha Hm Hx) as [(x' & Hx' & E1 & E2)|(_ & _ & Hfresh)]; [|exfalso; by apply (Hfresh i r Hi); congruence].
  destruct (Hc j x' Hx') as (y & p & q & Hy & Ey & Ep & Hp & Hq & Eq); [congruence|]. assert (exists q', peer_row b (mr_peer y) = Some q' /\ peer_columns q' = peer_columns q) as (q' & Hq' & Eq').
  { destruct Hm as [Hcalm|Hch]; [by eapply calm_row|]. destruct (mk_ref b Hb j x Hx) as (_ & _ & [q' Hq']). rewrite E2, <- Ep in Hq'. exists q'. split; [done|]. apply (step_rows _ _ _ _ _ Hch) in Hq'. congruence. }
  exists y, p, q'. split_and!; try done; congruence.
Qed.
Lemma copies_has_copy u s a k : copies_of s a k -> has_copy u a k -> has_copy u s k.
Proof.
  intros Hc (j & x & Hx & Ek & q & Hq & Ho). destruct (Hc j x Hx Ek) as (y & p & q' & Hy & Ey & Ep & Hp & Hq' & Eq). exists j, y. split; [done|]. split; [done|]. exists p. split; [done|].
  rewrite Ep in Hq'. assert (q' = q) as -> by congruence. injection Eq as E _ _ _ _. congruence.
Qed.
Lemma trace_gone us s s' i r : messages_ok s -> trace us s s' -> refs s !! i = Some r ->
  (copies_of s s' (mr_content r) /\ exists r', refs s' !! i = Some r' /\ mr_content r' = mr_content r /\ mr_peer r' = mr_peer r) \/
  exists u, u ∈ us /\ (has_copy u s (mr_content r) \/
    exists p c s1, peer_row s (mr_peer r) = Some p /\ p_channel p = Some c /\ trace us s s1 /\ channel_admin u s1 c Admin.DELETE_MESSAGES).
Proof.
  intros Hs Ht Hi. revert s' Ht. refine (trace_ind us (fun s' => _) s _ Hs _); [left; split; [|by exists r]|].
  - intros j x Hx Ex. destruct (mk_ref s Hs j x Hx) as (_ & _ & [p Hp]). by exists x, p, p.
  - intros u a b Hu Hta Ha Hb Hm [[Hc (ra & Hra & E1 & E2)]|Hdone]; [|by right]. destruct (refs b !! i) as [rb|] eqn:Eb.
    + left. split; [by eapply (copies_step u s a b i ra)|]. exists rb. split; [done|]. destruct (moves_refs u a b i rb Ha Hm Eb) as [(x & Hx & ? & ?)|(Hn & _)]; [split|]; congruence.
    + right. exists u. split; [done|]. destruct Hm as [[_ _ (_ & _ & E & _)]|Hch]; [congruence|]. destruct (step_gone u a b i ra Ha Hch Hra Eb) as [Hcp|(p & c & Hp & Hpc & Hadm)].
      * left. rewrite E1 in Hcp. by eapply copies_has_copy.
      * right. destruct (Hc i ra Hra E1) as (y & p0 & q & Hy & Ey & Ep & Hp0 & Hq & Eq). assert (y = r) as -> by congruence. exists p0, c, a. rewrite E2 in Hp. assert (q = p) as -> by congruence.
        split_and!; try done. injection Eq as _ _ _ _ E. congruence.
Qed.

(** ** What the requests guarantee *)
Section Guarantees.
Context (hmac_sha256 : bytes -> bytes) (payload : signed_kind -> Z -> Z -> Z -> bytes) (icontains : pystr -> pystr -> bool) (threshold max_length max_caption min_id_threshold : Z).
#[local] Abbreviation run_request := (run_request hmac_sha256 payload icontains threshold max_length max_caption min_id_threshold).
#[local] Abbreviation requests := (requests hmac_sha256 payload icontains threshold max_length max_caption min_id_threshold).
#[local] Abbreviation after us s s' := (rtc (fun a b => exists u, u ∈ us /\ moves u a b) s s').


(** C27: the tables of messages stay in order through every sequence of requests. A message has a content and a peer; two copies of one content stand in different peers of
    one conversation, which is never a channel or one's own; a reply is to a message of the same peer that is there; of one peer, random id and user there is one message; a peer's last message is not older than any message of it. *)
Theorem messages_in_order us s s' : (forall m, length (hmac_sha256 m) = 32%nat) -> messages_ok s -> requests us s s' ->
  (forall i r, refs s' !! i = Some r -> is_Some (contents s' !! mr_content r) /\ is_Some (peer_row s' (mr_peer r)) /\
    (forall j, mr_reply_to r = Some j -> exists x, refs s' !! j = Some x /\ mr_peer x = mr_peer r) /\
    (exists m, last_message s' !! mr_peer r = Some m /\ i <= m)) /\
  (forall i j r x, refs s' !! i = Some r -> refs s' !! j = Some x -> i <> j ->
    same_random r x = false /\ (mr_content r = mr_content x -> mr_peer r <> mr_peer x /\ exists p q, peer_row s' (mr_peer r) = Some p /\ peer_row s' (mr_peer x) = Some q /\ one_talk p q)).
Proof.
  intros Hh Hs Hr. destruct (requests_trace _ _ _ _ _ _ _ Hh us s s' Hr Hs) as [_ [H1 H2 H3 H4 H5 H6 H7 H8]]. split.
  - intros i r Hi. destruct (H3 i r Hi) as (_ & ? & ?). split_and!; [done..| |by apply H8]. intros j Hj. by eapply H7.
  - intros i j r x Hi Hj Hne. split; [by eapply H6|]. intros E. by apply (H5 i j).
Qed.

End Guarantees.
