(* ===== verification/Conversations.v ===== *)
(** What one conversation looks like through [Messages.v] and [History.v]: pages of its history are windows of it, unread messages are counted alike one by one and in bulk, and a
    message that is sent twice is there once. *)
From stdpp Require Import gmap sorting.
From S2P Require Import Prelude PyBytes AccessHash Privacy Peers Rights Members Messages History HistoryFacts MessagesSpec MessagesSafety.

(** ** Pages *)
Definition ids_of (t : TLMessages) : list Z := match t with History.Messages l | MessagesSlice _ _ l => l end.
Lemma above_at l k id : StronglySorted Z.gt l -> l !! k = Some id -> above id l = S k.
Proof.
  unfold above. intros Hs. revert k. induction Hs as [|x l Hs IH Hx]; intros k Hk; [done|]. rewrite Forall_forall in Hx. destruct k as [|k]; cbn in Hk.
  - injection Hk as <-. rewrite filter_cons_True by lia. rewrite filter_none; [done|]. apply Forall_forall. intros y Hy. specialize (Hx y Hy). lia.
  - pose proof (Hx id (list_elem_of_lookup_2 _ _ _ Hk)). rewrite filter_cons_True by lia. cbn. f_equal. by apply IH.
Qed.

(** C30: [messages.getHistory] shows a window of the conversation. When it answers, there is a list of ids, newest first, which holds exactly the messages of a peer in which the user stands that he
    may see there and that are between the two bounds he gave, and the answer is at most a hundred of them, without a gap: from the first one after [offset_id], moved by [add_offset], forward or back by at most
    the size of a page. Asking on with the last id of a page as [offset_id] continues right after it. The slice also tells how many messages there are in all and how many are not after the offset. *)
Theorem history_page hmac_sha256 payload icontains cx i max_id min_id offset_id limit add_offset s t s' : (forall m, length (hmac_sha256 m) = 32%nat) -> messages_ok s -> i <> InputEmpty ->
  get_history hmac_sha256 payload icontains cx i max_id min_id offset_id limit add_offset s = (Ok t, s') ->
  exists peer l, his_peer (mx_user_id cx) peer.2 /\ peer_row s' peer.1 = Some peer.2 /\ StronglySorted Z.gt l /\
    (forall id, id ∈ l <-> exists r, refs s !! id = Some r /\ stands_in (InPeer peer) (mx_user_id cx) s' (id, r) = true /\ asked_for icontains (ask_nothing max_id min_id) s' (id, r) = true) /\
    ids_of t = take (page_size limit) (drop (page_start offset_id limit add_offset l) l) /\ (page_size limit <= 100)%nat /\
    (forall k id, l !! k = Some id -> page_start id limit 0 l = S k) /\
    match t with
    | MessagesSlice count offset _ => let all := refs_where (stands_in (InPeer peer) (mx_user_id cx) s') s' in
        count = Z.of_nat (length all) /\ (offset_id <> 0 -> offset = Z.of_nat (length (filter (fun kr => offset_id <= kr.1) all)))
    | History.Messages _ => True
    end.
Proof.
  intros Hh Hs Hi E. assert ((peer ← peer_of hmac_sha256 payload cx i "PEER_ID_INVALID" 400 true None; s ← get;
    let ids := get_messages_internal icontains (mx_user_id cx) (InPeer peer) (ask_nothing max_id min_id) offset_id limit add_offset s in
    mret (if bool_decide (ids = []) then History.Messages [] else format_slice (mx_user_id cx) peer offset_id ids s)) s = (Ok t, s')) as E'.
  { destruct i; try done. }
  clear E. apply M_bind_ok in E' as (peer & s1 & Ep & E). rewrite get_bind in E. injection E as Et ->. pose proof (quiet_peer_of hmac_sha256 payload Hh cx i "PEER_ID_INVALID" 400 true None s (mk_typed s Hs)) as Hc.
  rewrite Ep in Hc. cbn [snd] in Hc. pose proof (calm_ok _ _ Hc Hs) as Hs'. destruct (input_stands _ _ Hh _ _ _ _ _ _ _ _ _ _ (mk_typed s Hs) Ep) as [(_ & Hhis & _) Hrow].
  unfold get_messages_internal in Et. set (f := fun kr : Z * Ref => _) in Et. set (l := ids_desc f s') in *. exists peer, l. assert (Er : refs s' = refs s) by apply Hc.
  assert (forall id, id ∈ l <-> exists r, refs s !! id = Some r /\ f (id, r) = true) as Hl by (intros id; unfold l; rewrite elem_ids_desc; by rewrite Er).
  assert (ids_of t = page offset_id limit add_offset l) as ->.
  { rewrite <- Et. case_bool_decide as Hn; [by rewrite Hn|]. unfold format_slice. by case_match. }
  split_and!; try done.
  - apply ids_desc_sorted.
  - intros id. rewrite Hl. split; [intros (r & Hr & [H1 H2]%andb_prop)|intros (r & Hr & H1 & H2)]; exists r; split_and!; try done. unfold f. by rewrite H1, H2.
  - apply page_window, ids_desc_sorted.
  - unfold page_size. lia.
  - intros k id Hk. unfold page_start. rewrite (above_at l k id) by (apply ids_desc_sorted || done). assert (id <> 0) as Hne.
    { apply list_elem_of_lookup_2, Hl in Hk as (r & Hr & _). apply (mk_ref s Hs) in Hr as [[? _] _]. lia. }
    apply Z.eqb_neq in Hne. rewrite Hne. cbn [andb]. rewrite Z.max_l by lia. lia.
  - rewrite <- Et. case_bool_decide; [done|]. unfold format_slice. destruct ((_ <=? _)%nat && _); [done|]. split; [done|]. intros Hne. apply Z.eqb_neq in Hne. by rewrite Hne.
Qed.

(** ** Unread messages *)
Lemma unread_same user p last s s' : refs s' = refs s -> contents s' = contents s -> unread user p last s' = unread user p last s.
Proof. unfold unread, refs_where, content_is. by intros -> ->. Qed.
Lemma last_read_insert o p q s : last_read o q (with_reads (<[(o, p) := last_read o p s]> (reads s)) s) = last_read o q s.
Proof. unfold last_read. cbn. destruct (decide (p = q)) as [->|Hne]; [by rewrite lookup_insert_eq|rewrite lookup_insert_ne by congruence; done]. Qed.
Lemma marks_run user ps s0 s1 : refs s1 = refs s0 -> contents s1 = contents s0 -> last_message s1 = last_message s0 -> (forall p, last_read user p s1 = last_read user p s0) ->
  exists s2, for_peers_bulk user ps s1 = (Ok ((fun p => last_read user p.1 s0) <$> ps), s2) /\ refs s2 = refs s0 /\ contents s2 = contents s0 /\ last_message s2 = last_message s0 /\
    (forall p, last_read user p s2 = last_read user p s0) /\
    mapM (get_in_out_ids_and_unread user) ps s1 = (Ok ((fun p => (last_read user p.1 s0, p_out_max_read_id p.2, unread user p.1 (last_read user p.1 s0) s0)) <$> ps), s2).
Proof.
  revert s1. induction ps as [|p ps IH]; intros s1 Er Ec El Hl; [by exists s1|]. unfold for_peers_bulk in *. cbn [mapM].
  set (s1' := with_reads (<[(user, p.1) := last_read user p.1 s1]> (reads s1)) s1). destruct (IH s1') as (s2 & E1 & F1 & F2 & F3 & F4 & E2); [done..| |].
  { intros q. unfold s1'. by rewrite last_read_insert. }
  exists s2. assert (get_read_state user p.1 s1 = (Ok (last_read user p.1 s0), s1')) as Eg by (unfold get_read_state, s1', mbind, M_bind, get, modify, mret, M_ret; by rewrite Hl). split_and!; try done.
  - rewrite (M_bind_step _ _ _ _ _ Eg), (M_bind_step _ _ _ _ _ E1). done.
  - assert (get_in_out_ids_and_unread user p s1 = (Ok (last_read user p.1 s0, p_out_max_read_id p.2, unread user p.1 (last_read user p.1 s0) s0), s1')) as Eu.
    { unfold get_in_out_ids_and_unread. rewrite (M_bind_step _ _ _ _ _ Eg), get_bind. by rewrite (unread_same _ _ _ s0 s1'). }
    rewrite (M_bind_step _ _ _ _ _ Eu), (M_bind_step _ _ _ _ _ E2). done.
Qed.

(** C34: unread messages are counted alike in bulk. In tables in order, asking for the marks and the unread messages of many peers with one statement, made only when the last message of one of them is above its mark, gives what
    asking for each of them gives, and leaves the same marks. *)
Theorem unread_alike user ps s : messages_ok s -> get_in_out_ids_and_unread_bulk user ps s = mapM (get_in_out_ids_and_unread user) ps s.
Proof.
  intros Hs. unfold get_in_out_ids_and_unread_bulk. case_bool_decide as Hn; [by rewrite Hn|]. destruct (marks_run user ps s s) as (s2 & E1 & F1 & F2 & F3 & F4 & E2); [done..|].
  rewrite (M_bind_step _ _ _ _ _ E1), get_bind, E2. unfold mret, M_ret. f_equal. f_equal. case_bool_decide as Hf; cbn zeta.
  - clear Hn Hf E1 E2. induction ps as [|p ps IH]; [done|]. cbn. rewrite (unread_same _ _ _ s s2) by done. f_equal. done.
  - assert (forall p, p ∈ ps -> unread user p.1 (last_read user p.1 s) s = 0) as Hz.
    { intros p Hp. unfold unread. apply (f_equal Z.of_nat (y := 0%nat)). set (g := fun kr : Z * Ref => _). destruct (refs_where g s) as [|[j x] l] eqn:E; [done|exfalso].
      assert ((j, x) ∈ refs_where g s) as [Hj Hg]%elem_refs_where by (rewrite E; left). unfold g in Hg. cbn in Hg. b2p. destruct (mk_last s Hs j x Hj) as (m & Hm & Hle).
      apply Hf, Exists_exists. exists p. split; [done|]. rewrite F4, F3. subst. rewrite H in Hm. rewrite Hm. cbn. lia. }
    clear Hn Hf E1 E2. induction ps as [|p ps IH]; [done|]. cbn. rewrite Hz by left. f_equal. apply IH. intros q Hq. apply Hz. by right.
Qed.

(** ** Sending once *)
Lemma quiet_after {A} (m : MS A) s r s1 : quiet m -> messages_ok s -> m s = (r, s1) -> calm s s1 /\ messages_ok s1.
Proof. intros Hm Hs E. specialize (Hm s (mk_typed s Hs)). rewrite E in Hm. cbn in Hm. split; [done|by eapply calm_ok]. Qed.
Ltac passing E a s1 E1 C Hs1 := apply M_bind_ok in E as (a & s1 & E1 & E); match type of E1 with ?m ?s = (?r, _) =>
  match goal with Hs : messages_ok s |- _ => destruct (quiet_after m s r s1 ltac:(solve [quiet]) Hs E1) as [C Hs1] end end.
Lemma calm_after {A} (m : MS A) s r s1 : quiet m -> typed s -> m s = (r, s1) -> calm s s1.
Proof. intros Hm Hs E. specialize (Hm s Hs). by rewrite E in Hm. Qed.

(** What [create_for_peer] leaves: a copy for each of the peers it tells, the first one that of the request *)
Record created (s s' : MessagesDb) (c : Content) (peer : Z) (rid ru : option Z) (msgs : list (Z * Z)) : Prop := {
  cr_first : msgs.*1 !! 0%nat = Some peer;
  cr_new : forall i p j, msgs !! i = Some (p, j) -> refs s !! j = None /\ exists x, refs s' !! j = Some x /\ mr_peer x = p /\ mr_content x = next_content s /\
    (p = peer -> mr_random_id x = rid /\ mr_random_user x = ru);
  cr_all : forall j x, refs s' !! j = Some x -> refs s !! j = Some x \/ exists p, (p, j) ∈ msgs;
  cr_kept : forall j x, refs s !! j = Some x -> refs s' !! j = Some x;
  cr_content : contents s' = <[next_content s := c]> (contents s);
  cr_typed : typed s';
}.
Lemma created_calm s s' s'' c p rid ru msgs : calm s' s'' -> created s s' c p rid ru msgs -> created s s'' c p rid ru msgs.
Proof. intros Hc [H1 H2 H3 H4 H5 H6]. pose proof (calm_typed _ _ Hc). destruct Hc as [_ _ (Ec & _ & Er & _)]. split; rewrite ?Er, ?Ec; done. Qed.
Lemma created_before s0 s s' c p rid ru msgs : calm s0 s -> created s s' c p rid ru msgs -> created s0 s' c p rid ru msgs.
Proof. intros [_ _ (Ec & En & Er & _)] [H1 H2 H3 H4 H5 H6]. split; rewrite <- ?Er, <- ?Ec, <- ?En; done. Qed.

Lemma create_created user peer c rid ru opp unhide reply sched s msgs s' : messages_ok s -> stands user s peer ->
  create_for_peer peer c rid ru opp unhide reply sched s = (Ok msgs, s') -> created s s' c peer.1 rid ru msgs.
Proof.
  intros Hs Hst E. unfold create_for_peer in E. rewrite get_bind in E. apply M_bind_ok in E as ([] & s1 & E1 & E). injection E1 as <-. set (k := next_content s) in *.
  set (s1 := with_contents _ _ s) in *. assert (messages_ok s1) as Hs1.
  { eapply shrinks_ok; [|exact Hs]. apply shrinks_contents; [done|lia|..].
    - intros j Hj. by apply lookup_insert_is_Some'; right.
    - intros j x [[<- _]|[_ Hx]]%lookup_insert_Some; [lia|]. apply (mk_content s Hs) in Hx. lia. }
  apply M_bind_ok in E as (l & s2 & E2 & E). assert (calm s1 s2) as Hc.
  { destruct (quiet_after (if opp && negb (bool_decide (p_type peer.2 = CHANNEL)) then on_members (on_peers (get_opposite peer.2 false)) else mret []) s1 (Ok l) s2) as [? _]; try done.
    destruct (opp && _); [|apply quiet_return]. apply quiet_opposite. by destruct Hst as (_ & _ & ? & _). }
  rewrite get_bind in E. set (ps := peer.1 :: l.*1) in *. set (rs := new_ref k rid ru sched _ peer.1 <$> ps) in E. apply M_bind_ok in E as ([] & s3 & E3 & E). apply transaction_ok in E3.
  unfold ensure in E3. case_bool_decide; [|done]. injection E3 as <-. assert (Hps : mr_peer <$> rs = ps) by apply new_refs_peers.
  apply M_bind_ok in E as ([] & s4 & E4 & E). assert (Em : imap (fun i p => (p, next_ref s2 + Z.of_nat i)) ps = msgs /\ s4 = s') by (unfold mret, M_ret in E; split; congruence).
  destruct Em as [Em <-]. clear E. pose proof (calm_typed _ _ Hc) as Ht2. destruct Hc as [_ _ (Ec & _ & Er & En & _)]. change (refs s1) with (refs s) in Er. change (next_ref s1) with (next_ref s) in En.
  assert (forall j x, refs s2 !! j = Some x -> j < next_ref s2) as Hb by (intros j x; rewrite Er, En; intros Hj; by apply (mk_ref s Hs) in Hj as [[_ ?] _]).
  assert (refs s4 = refs (insert_refs rs s2) /\ contents s4 = contents s2) as [Er4 Ec4].
  { destruct (insert_fields rs s2) as (_ & Eci & _). destruct unhide; injection E4 as <-; by rewrite <- Eci. }
  assert (Hl : forall j x, refs s4 !! j = Some x <-> refs s2 !! j = Some x \/ (next_ref s2 <= j /\ rs !! Z.to_nat (j - next_ref s2) = Some x)) by (intros; rewrite Er4; by apply insert_lookup).
  assert (Hm : forall i p j, msgs !! i = Some (p, j) <-> ps !! i = Some p /\ j = next_ref s2 + Z.of_nat i).
  { intros i p j. rewrite <- Em, list_lookup_imap. destruct (ps !! i); cbn; naive_solver. }
  split.
  - rewrite <- Em. done.
  - intros i p j [Hi ->]%Hm. split.
    + apply eq_None_not_Some. intros [x Hx]. rewrite <- Er in Hx. apply Hb in Hx. lia.
    + assert (exists x, rs !! i = Some x) as [x Hx]. { apply lookup_lt_is_Some. apply lookup_lt_Some in Hi. unfold rs. by rewrite length_fmap. }
      exists x. split; [apply Hl; right; split; [lia|]; by replace (Z.to_nat _) with i by lia|]. unfold rs in Hx. rewrite list_lookup_fmap, Hi in Hx. injection Hx as <-. cbn.
      split_and!; try done. intros ->. by rewrite Z.eqb_refl.
  - intros j x [Hj|[Hge Hj]]%Hl; [left; by rewrite <- Er|right]. assert (exists p, ps !! Z.to_nat (j - next_ref s2) = Some p) as [p Hp].
    { apply lookup_lt_is_Some. apply lookup_lt_Some in Hj. unfold rs in Hj. by rewrite length_fmap in Hj. }
    exists p. apply list_elem_of_lookup. exists (Z.to_nat (j - next_ref s2)). apply Hm. split; [done|lia].
  - intros j x Hj. apply Hl. left. by rewrite Er.
  - by rewrite Ec4, Ec.
  - assert (mdb s4 = mdb s2) as Em2 by (destruct (insert_fields rs s2) as (Emi & _); destruct unhide; injection E4 as <-; by rewrite <- Emi). unfold typed. by rewrite Em2.
Qed.

Lemma internal_created threshold now user sr peer a c s msgs s' : messages_ok s -> stands user s peer -> send_message_internal threshold now user sr peer a c s = (Ok msgs, s') ->
  exists c', mc_author c' = mc_author c /\ mc_message c' = mc_message c /\ created s s' c' peer.1 (sd_random_id a) (Some user) msgs.
Proof.
  intros Hs Hst E. unfold send_message_internal in E. rewrite get_bind in E. passing E u1 s1 E1 C1 Hs1. passing E u2 s2 E2 C2 Hs2. passing E reply s3 E3 C3 Hs3.
  pose proof (calm_seq _ _ _ (calm_seq _ _ _ C1 C2) C3) as C. pose proof (stands_calm _ _ _ _ C Hst) as Hst3. clear E1 E2 E3.
  match type of E with (match ?x with _ => _ end) _ = _ => destruct x as [t|] end.
  - apply M_bind_ok in E as (ms & s4 & E4 & E). apply (create_created user) in E4; [|done..]. apply M_bind_ok in E as ([] & s5 & E5 & E). injection E as -> <-.
    exists (schedule t c). split; [done|]. split; [done|]. eapply created_before; [exact C|]. eapply created_calm; [|exact E4]. eapply calm_after; [|by apply (cr_typed _ _ _ _ _ _ _ E4)|exact E5]. quiet.
  - apply M_bind_ok in E as (ms & s4 & E4 & E). apply (create_created user) in E4; [|done..]. exists c. split; [done|]. split; [done|]. eapply created_before; [exact C|].
    assert (calm s4 s' /\ ms = msgs) as [Hc ->]; [|by eapply created_calm]. split.
    + eapply calm_after; [|by apply (cr_typed _ _ _ _ _ _ _ E4)|exact E]. quiet.
    + apply M_bind_ok in E as (? & ? & _ & E). apply M_bind_ok in E as (? & ? & _ & E). rewrite get_bind in E. apply M_bind_ok in E as (? & ? & _ & E). by injection E.
Qed.

Lemma random_id_found s j x p rid u : messages_ok s -> refs s !! j = Some x -> mr_peer x = p -> mr_random_id x = Some rid -> mr_random_user x = Some u -> get_from_random_id u p rid s = Some j.
Proof.
  intros Hs Hj Hp Hr Hu. unfold get_from_random_id. set (f := fun kr : Z * Ref => _). assert ((j, x) ∈ refs_where f s) as Hin.
  { apply elem_refs_where. split; [done|]. unfold f. cbn. by rewrite Hp, Hr, Hu, Z.eqb_refl, !bool_decide_eq_true_2. }
  destruct (refs_where f s) as [|[i y] l] eqn:E; [by apply elem_of_nil in Hin|]. cbn. f_equal. assert ((i, y) ∈ refs_where f s) as [Hi Hf]%elem_refs_where by (rewrite E; left).
  unfold f in Hf. cbn in *. b2p. destruct (decide (i = j)) as [|Hne]; [done|]. exfalso. pose proof (mk_random s Hs i j y x Hi Hj Hne) as Hs2. unfold same_random in Hs2.
  rewrite H, H0, H1, Hp, Hr, Hu, Z.eqb_refl, !bool_decide_eq_true_2 in Hs2 by (done || by eexists). done.
Qed.

Section Once.
Context (hmac_sha256 : bytes -> bytes) (payload : signed_kind -> Z -> Z -> Z -> bytes) (threshold max_length : Z).
#[local] Abbreviation send cx now name sr r s := (send_message hmac_sha256 payload threshold max_length cx now name sr r s).

Lemma send_once (hmac_32 : forall m, length (hmac_sha256 m) = 32%nat) cx now name sr r s out s' : messages_ok s -> send cx now name sr r s = (Ok out, s') -> exists peer s1,
  peer_of_input hmac_sha256 payload cx (sm_peer r) s = (Ok peer, s1) /\ his_peer (mx_user_id cx) peer.2 /\
  match out with
  | Repeated ref => get_from_random_id (mx_user_id cx) peer.1 (sm_random_id r) s = Some ref /\ calm s s'
  | SentNow msgs => get_from_random_id (mx_user_id cx) peer.1 (sm_random_id r) s = None /\ sm_message r <> [] /\
      exists c, mc_author c = mx_user_id cx /\ mc_message c = Some (sm_message r) /\ created s s' c peer.1 (Some (sm_random_id r)) (Some (mx_user_id cx)) msgs
  end.
Proof.
  intros Hs E. pose proof (quiet_peer_of_input hmac_sha256 payload hmac_32) as Hqp. unfold send_message in E. set (user := mx_user_id cx) in *. apply M_bind_ok in E as (u & s0 & E0 & E).
  assert (s0 = s) as ->. { unfold get_user in E0. rewrite get_bind in E0. destruct (m_users (mdb s) !! user); [by injection E0|done]. }
  do 2 (rewrite ensure_bind in E; match type of E with (if ?b then _ else _) = _ => destruct b; [|done] end).
  passing E peer s1 E1 C1 Hs1. destruct (peer_stands _ _ hmac_32 _ _ _ _ _ Hs E1) as [Hst _]. exists peer, s1. split; [done|]. split; [by destruct Hst as (_ & ? & _)|].
  rewrite get_bind in E. assert (get_from_random_id user peer.1 (sm_random_id r) s1 = get_from_random_id user peer.1 (sm_random_id r) s) as Eg.
  { unfold get_from_random_id, refs_where. destruct C1 as [_ _ (_ & _ & -> & _)]. done. }
  rewrite Eg in E. destruct (get_from_random_id user peer.1 (sm_random_id r) s) as [ref|]; [by injection E as <- <-|].
  passing E u2 s2 E2 C2 Hs2. passing E u3 s3 E3 C3 Hs3. passing E u4 s4 E4 C4 Hs4. passing E u5 s5 E5 C5 Hs5. passing E u6 s6 E6 C6 Hs6. passing E u7 s7 E7 C7 Hs7. passing E u8 s8 E8 C8 Hs8.
  rewrite ensure_bind in E. destruct (negb (bool_decide (sm_message r = []))) eqn:En; [|done]. rewrite ensure_bind in E. destruct (_ <=? max_length); [|done].
  destruct (_make_channel_post_info_maybe _ _ _ _) as [cp sig]. destruct (if cp : bool then _ else _) as [anon sig'].
  passing E markup s9 E9 C9 Hs9. passing E as_ s10 E10 C10 Hs10. passing E u11 s11 E11 C11 Hs11. passing E ents s12 E12 C12 Hs12.
  assert (calm s1 s12) as C by (clear C1; repeat (eapply calm_seq; [|eassumption]); by apply calm_id, mk_typed). apply (stands_calm _ _ _ _ C) in Hst.
  apply M_bind_ok in E as (msgs & s13 & E13 & E). injection E as <- <-. split; [done|]. split; [by b2p|].
  apply internal_created in E13 as (c & Ha & Hm & Hcr); [|done..]. exists c. split; [done|]. split; [done|]. eapply created_before; [|exact Hcr]. by eapply calm_seq.
Qed.
End Once.

Lemma random_id_elim s j p rid u : get_from_random_id u p rid s = Some j -> exists x, refs s !! j = Some x /\ mr_peer x = p /\ mr_random_id x = Some rid /\ mr_random_user x = Some u.
Proof.
  unfold get_from_random_id. set (f := fun kr : Z * Ref => _). destruct (refs_where f s) as [|[i y] l] eqn:E; [done|]. intros [= <-].
  assert ((i, y) ∈ refs_where f s) as [Hi Hf]%elem_refs_where by (rewrite E; left). unfold f in Hf. cbn in *. b2p. by exists y.
Qed.
Lemma random_id_same s s' p rid u : refs s' = refs s -> get_from_random_id u p rid s' = get_from_random_id u p rid s.
Proof. unfold get_from_random_id, refs_where. by intros ->. Qed.

(** C28: a message is sent once. When [messages.sendMessage] answers, either the user's message with this random id was in the conversation already, and nothing changes, or a message is now there that was not: its text is
    what was asked and its author the user, it stands in the peer of the request and in those of the others it was told to, and there is nothing else new. After that, for as long as that message is there, the same
    user's requests with the same random id in the same peer answer with that message and add nothing, whatever else they say. *)
Theorem sent_once hmac_sha256 payload threshold max_length cx now name sr r s out s' : (forall m, length (hmac_sha256 m) = 32%nat) -> messages_ok s ->
  send_message hmac_sha256 payload threshold max_length cx now name sr r s = (Ok out, s') ->
  exists peer ref, his_peer (mx_user_id cx) peer.2 /\ get_from_random_id (mx_user_id cx) peer.1 (sm_random_id r) s' = Some ref /\
    match out with
    | Repeated x => x = ref /\ refs s' = refs s /\ contents s' = contents s
    | SentNow msgs => sm_message r <> [] /\ msgs !! 0%nat = Some (peer.1, ref) /\
        (forall p j, (p, j) ∈ msgs -> refs s !! j = None /\ exists x c, refs s' !! j = Some x /\ mr_peer x = p /\ contents s' !! mr_content x = Some c /\ mc_author c = mx_user_id cx /\
          mc_message c = Some (sm_message r)) /\
        (forall j x, refs s' !! j = Some x <-> refs s !! j = Some x \/ (refs s' !! j = Some x /\ exists p, (p, j) ∈ msgs))
    end /\
    forall now2 name2 sr2 r2 s2 out2 s2' peer2 s3, messages_ok s2 -> refs s2 !! ref = refs s' !! ref -> sm_random_id r2 = sm_random_id r ->
      peer_of_input hmac_sha256 payload cx (sm_peer r2) s2 = (Ok peer2, s3) -> peer2.1 = peer.1 ->
      send_message hmac_sha256 payload threshold max_length cx now2 name2 sr2 r2 s2 = (Ok out2, s2') -> out2 = Repeated ref /\ refs s2' = refs s2 /\ contents s2' = contents s2.
Proof.
  intros Hh Hs E. destruct (send_once _ _ _ _ Hh cx now name sr r s out s' Hs E) as (peer & s1 & _ & Hhis & Hout). set (user := mx_user_id cx) in *.
  assert (exists ref, get_from_random_id user peer.1 (sm_random_id r) s' = Some ref /\ match out with Repeated x => x = ref | SentNow msgs => msgs !! 0%nat = Some (peer.1, ref) end) as (ref & Href & Hfirst).
  { destruct out as [x|msgs].
    - destruct Hout as [Hx Hc]. exists x. split; [|done]. rewrite (random_id_same s s'); [done|]. by destruct Hc as [_ _ (_ & _ & -> & _)].
    - destruct Hout as (_ & _ & c & _ & _ & Hcr). pose proof (cr_first _ _ _ _ _ _ _ Hcr) as Hf. rewrite list_lookup_fmap in Hf. destruct (msgs !! 0%nat) as [[p ref]|] eqn:Em; [|done]. cbn in Hf. injection Hf as ->.
      exists ref. split; [|done]. destruct (cr_new _ _ _ _ _ _ _ Hcr _ _ _ Em) as (_ & x & Hx & Hp & _ & Hr). destruct (Hr eq_refl) as [Hr1 Hr2]. eapply random_id_found; [|done..].
      pose proof (runs_send_message hmac_sha256 payload Hh threshold max_length cx now name sr r s Hs) as Hrun. unfold runs in Hrun. rewrite E in Hrun. by eapply moves_ok. }
  exists peer, ref. split; [done|]. split; [done|]. split.
  - destruct out as [x|msgs].
    + destruct Hout as [_ [_ _ (? & _ & ? & _)]]. done.
    + destruct Hout as (_ & Hne & c & Ha & Hm & Hcr). split; [done|]. split; [done|]. split.
      * intros p j (i & Hi)%list_elem_of_lookup. destruct (cr_new _ _ _ _ _ _ _ Hcr _ _ _ Hi) as (Hn & x & Hx & Hp & Hc & _). split; [done|]. exists x, c. split_and!; try done.
        by rewrite (cr_content _ _ _ _ _ _ _ Hcr), Hc, lookup_insert_eq.
      * intros j x. split; [|intros [H|[H _]]; [by eapply cr_kept|done]]. intros Hj. destruct (cr_all _ _ _ _ _ _ _ Hcr _ _ Hj) as [H|H]; [by left|right]. done.
  - intros now2 name2 sr2 r2 s2 out2 s2' peer2 s3 Hs2 Hsame Hrid Hp2 Hpeer E2. destruct (send_once _ _ _ _ Hh cx now2 name2 sr2 r2 s2 out2 s2' Hs2 E2) as (peer3 & s4 & Hp3 & _ & Hout2). fold user in Hout2.
    assert (peer3 = peer2) as -> by congruence. destruct (random_id_elim _ _ _ _ _ Href) as (x & Hx & Hxp & Hxr & Hxu). rewrite Hx in Hsame.
    assert (get_from_random_id user peer2.1 (sm_random_id r2) s2 = Some ref) as Hfound by (eapply random_id_found; [done|exact Hsame|congruence..]). rewrite Hfound in Hout2.
    destruct out2 as [y|msgs2]; [|by destruct Hout2 as [? _]]. destruct Hout2 as [Hy [_ _ (? & _ & ? & _)]]. by injection Hy as ->.
Qed.
