(* ===== verification/MessagesExamples.v ===== *)
(** The theorems about messages at work: two people in a basic group. The first writes three times, the second reads, and the first takes a message back. *)
From Stdlib Require Import Init.Byte.
From stdpp Require Import gmap sorting.
From S2P Require Import Prelude PyBytes AccessHash Privacy Peers Rights Utf16 Members Messages History HistoryFacts MessagesSpec MessagesSafety Conversations.

Definition group_hmac (_ : bytes) : bytes := replicate 32 x00.
Definition group_payload (_ : signed_kind) (_ _ _ : Z) : bytes := [].
Lemma group_hmac_32 m : length (group_hmac m) = 32%nat.
Proof. reflexivity. Qed.
Definition finds_in (t q : pystr) : bool := bool_decide (q = t).

Definition group_peers : gmap Z Peer :=
  <[1 := MkPeer (Some 7) SELF (Some 7) None None None 0]> (<[2 := MkPeer (Some 7) CHAT None (Some 5) None None 0]> (<[3 := MkPeer (Some 8) CHAT None (Some 5) None None 0]> ∅)).
Definition group_members : gmap (Z * Z) Member := <[(make_id (InChat 5), 7) := new_member 7 0 1 None None]> (<[(make_id (InChat 5), 8) := new_member 8 7 1 None None]> ∅).
Definition group_mdb : MembersDb :=
  MkMembersDb group_peers 4 (<[7 := MkUserRow false false]> (<[8 := MkUserRow false false]> ∅)) (MkPrivacyDb ∅ ∅ ∅ ∅ ∅ 1) ∅ 1
    (<[5 := MkGroup (MkChatBase IsChat [] [] 1 7 None Banned.NONE 0 false) false 2 false]> ∅) 6 group_members ∅ 1 ∅ 1 ∅ [].
Definition group_start : MessagesDb := MkMessagesDb group_mdb ∅ 1 ∅ 1 ∅ ∅ ∅ ∅ ∅ [].

Definition quietly : Surroundings := MkSurroundings (Ok tt) (Ok tt) false.
Definition in_group : InputPeer := InputChat 10.
Definition writing (random_id : Z) (text : string) (reply_to : option Z) : SendMessage :=
  MkSendMessage in_group random_id (text_of text) reply_to None false false None (Ok None) (Ok None).
Definition group_run (user : Z) (q : request) (s : MessagesDb) : MessagesDb := run_request group_hmac group_payload finds_in 10 4096 1024 1000 (MkMembersCtx 1 user) q s.
Definition says (user now random_id : Z) (text : string) (reply_to : option Z) : MessagesDb -> MessagesDb := group_run user (SendRequest now [] quietly (writing random_id text reply_to)).
Definition group_one : MessagesDb := says 7 10 100 "Hi" None group_start.
Definition group_two : MessagesDb := says 8 20 100 "Hi back" (Some 2) group_one.
Definition group_three : MessagesDb := says 7 30 101 "Bye" None group_two.

Lemma group_start_ok : messages_ok group_start.
Proof.
  split; try (intros *; cbn; rewrite ?lookup_empty; done).
  - split.
    + intros id p Hp. cbn in Hp. unfold group_peers in Hp. apply lookup_insert_Some in Hp as [[_ <-]|[_ Hp]]; [constructor|]. apply lookup_insert_Some in Hp as [[_ <-]|[_ Hp]]; [constructor|].
      apply lookup_insert_Some in Hp as [[_ <-]|[_ Hp]]; [constructor|done].
    + intros id id' p p' Hp Hp' Hne. cbn in Hp, Hp'. unfold group_peers in *.
      repeat match goal with H : <[_ := _]> _ !! _ = Some _ |- _ => apply lookup_insert_Some in H as [[<- <-]|[_ H]] end; try done; try (by rewrite lookup_empty in *); by vm_compute.
    + intros id p Hp. cbn in *. unfold group_peers in *. repeat match goal with H : <[_ := _]> _ !! _ = Some _ |- _ => apply lookup_insert_Some in H as [[<- <-]|[_ H]] end; try lia. done.
Qed.
Lemma group_run_ok user q s : messages_ok s -> messages_ok (group_run user q s).
Proof. intros Hs. eapply moves_ok; [|exact Hs]. unfold group_run. apply (request_moves group_hmac group_payload finds_in 10 4096 1024 1000 group_hmac_32 (MkMembersCtx 1 user) q s Hs). Qed.
Lemma group_three_ok : messages_ok group_three.
Proof. do 3 apply group_run_ok. apply group_start_ok. Qed.
Lemma group_requests : requests group_hmac group_payload finds_in 10 4096 1024 1000 [7; 8; 7] group_start group_three.
Proof.
  apply (requests_cons _ _ _ _ _ _ _ (MkMembersCtx 1 7) (SendRequest 10 [] quietly (writing 100 "Hi" None))). apply (requests_cons _ _ _ _ _ _ _ (MkMembersCtx 1 8) (SendRequest 20 [] quietly (writing 100 "Hi back" (Some 2)))).
  apply (requests_cons _ _ _ _ _ _ _ (MkMembersCtx 1 7) (SendRequest 30 [] quietly (writing 101 "Bye" None))). apply requests_nil.
Qed.

(** The other one takes the first message back for both. *)
Definition take_back : request := DeleteRequest [2] true.
Definition group_four : MessagesDb := group_run 8 take_back group_three.
Lemma back_requests : requests group_hmac group_payload finds_in 10 4096 1024 1000 [8] group_three group_four.
Proof. apply (requests_cons _ _ _ _ _ _ _ (MkMembersCtx 1 8) take_back). apply requests_nil. Qed.


Lemma messages_in_order_witness : exists r, refs group_three !! 4 = Some r /\ mr_reply_to r = Some 1 /\ exists x, refs group_three !! 1 = Some x /\ mr_peer x = mr_peer r.
Proof.
  assert (exists r, refs group_three !! 4 = Some r /\ mr_reply_to r = Some 1) as (r & Hr & Hrep) by (eexists; split; [vm_compute; reflexivity|reflexivity]).
  exists r. split; [exact Hr|]. split; [exact Hrep|].
  destruct (messages_in_order group_hmac group_payload finds_in 10 4096 1024 1000 [7; 8; 7] group_start group_three group_hmac_32 group_start_ok group_requests) as [H _].
  destruct (H 4 r Hr) as (_ & _ & Hj & _). exact (Hj 1 Hrep).
Defined.


Lemma history_page_witness : exists s' l, get_history group_hmac group_payload finds_in (MkMembersCtx 1 7) in_group 0 0 0 2 0 group_three = (Ok (MessagesSlice 3 0 [5; 4]), s') /\
  StronglySorted Z.gt l /\ [5; 4] = take (page_size 2) (drop (page_start 0 2 0 l) l).
Proof.
  assert (exists s', get_history group_hmac group_payload finds_in (MkMembersCtx 1 7) in_group 0 0 0 2 0 group_three = (Ok (MessagesSlice 3 0 [5; 4]), s')) as [s' E] by (eexists; vm_compute; reflexivity).
  destruct (history_page group_hmac group_payload finds_in (MkMembersCtx 1 7) in_group 0 0 0 2 0 group_three _ s' group_hmac_32 group_three_ok ltac:(discriminate) E) as (peer & l & _ & _ & Hs & _ & Hw & _).
  exists s', l. split; [exact E|]. split; [exact Hs|exact Hw].
Defined.

Lemma unread_alike_witness : exists s', get_in_out_ids_and_unread_bulk 8 [(3, MkPeer (Some 8) CHAT None (Some 5) None None 0)] group_three = (Ok [(0, 0, 2)], s') /\
  mapM (get_in_out_ids_and_unread 8) [(3, MkPeer (Some 8) CHAT None (Some 5) None None 0)] group_three = (Ok [(0, 0, 2)], s').
Proof.
  eexists. split; [vm_compute; reflexivity|]. rewrite <- (unread_alike 8 [(3, MkPeer (Some 8) CHAT None (Some 5) None None 0)] group_three group_three_ok). vm_compute. reflexivity.
Defined.

Lemma sent_once_witness : exists out s2, send_message group_hmac group_payload 10 4096 (MkMembersCtx 1 7) 30 [] quietly (writing 101 "Bye" None) group_two = (Ok (SentNow [(2, 5); (3, 6)]), group_three) /\
  send_message group_hmac group_payload 10 4096 (MkMembersCtx 1 7) 40 [] quietly (writing 101 "Once more" (Some 1)) group_three = (Ok out, s2) /\ out = Repeated 5 /\ refs s2 = refs group_three.
Proof.
  assert (send_message group_hmac group_payload 10 4096 (MkMembersCtx 1 7) 30 [] quietly (writing 101 "Bye" None) group_two = (Ok (SentNow [(2, 5); (3, 6)]), group_three)) as E by (vm_compute; reflexivity).
  assert (messages_ok group_two) as Hok by (do 2 apply group_run_ok; apply group_start_ok).
  destruct (sent_once group_hmac group_payload 10 4096 (MkMembersCtx 1 7) 30 [] quietly (writing 101 "Bye" None) group_two _ group_three group_hmac_32 Hok E) as (peer & ref & _ & _ & (_ & Hf & _) & Hagain).
  injection Hf as Hp Hr. subst ref.
  assert (exists out s2, send_message group_hmac group_payload 10 4096 (MkMembersCtx 1 7) 40 [] quietly (writing 101 "Once more" (Some 1)) group_three = (Ok out, s2)) as (out & s2 & E2) by (do 2 eexists; vm_compute; reflexivity).
  assert (exists p s3, peer_of_input group_hmac group_payload (MkMembersCtx 1 7) in_group group_three = (Ok p, s3) /\ p.1 = 2) as (p & s3 & Ep & Ep1) by (do 2 eexists; split; [vm_compute; reflexivity|reflexivity]).
  exists out, s2. split; [exact E|]. split; [exact E2|].
  destruct (Hagain 40 [] quietly (writing 101 "Once more" (Some 1)) group_three out s2 p s3 group_three_ok eq_refl eq_refl Ep (eq_trans Ep1 Hp) E2) as (H1 & H2 & _). split; [exact H1|exact H2].
Defined.
